(* ===== verification/_CoqProject ===== *)
-Q . S2P
Prelude.v
PyStr.v
Time.v
Json.v
Contracts.v
Resources.v
Gateway.v
Ledger.v
Permits.v
Sessions.v
Jobs.v
ControlPlane.v
Queue.v
Restart.v
Frame.v
Dispatch.v
Proposals.v
Decisions.v
Operator.v
Consent.v
Verdict.v
JsonText.v
Wire.v
Workers.v
Supervision.v
Replies.v
Server.v
Client.v
Socket.v
Clock.v
Float64.v
Allocator.v
TeamDb.v
Membership.v
Roles.v
WorldModel.v
Coordinator.v
Team.v
Broker.v
Operations.v
TaskSpec.v
Tasks.v
Evidence.v
Outcomes.v
