(* ===== verification/Prelude.v ===== *)
(** * ROSClaw: the runtime control plane

    This library models the part of ROSClaw that decides whether a physical
    action may run, runs it at most once, and keeps the evidence: the daemon
    [rosclawd] (src/src/rosclaw/daemon) with the contracts and the gateway of
    the kernel (src/src/rosclaw/kernel) and the operator decision protocol
    (src/src/rosclaw/operator, src/src/rosclaw/contracts/operator); and what
    stands in front of it: the agent's approval broker (operator/broker.py), the
    tasks and long-running operations of the agent daemon
    (src/src/rosclaw/task_kernel) and the coordinator of a robot team
    (src/src/rosclaw/team).

    ** How the parts interact

    An agent connects to the daemon's Unix socket, opens a session, and sends an
    [ActionEnvelope]. The control plane checks session and envelope, puts the
    action in a bounded queue as a job, and a thread of its pool carries it out:
    the permit authority must allow a REAL or SHADOW action under a permit for
    exactly that action, the daemon must be armed, and the runtime's action
    gateway runs the executor under the lease of the action's body and settles
    the result into a receipt. Every step is an event of the authenticated
    ledger, from which a restarted daemon rebuilds its permits, jobs and pending
    reviews. A permit comes from an administrator or from an operator decision:
    the agent creates a proposal, the operator signs a proof over the daemon's
    challenge for it, and the daemon then issues a one-use permit and submits the
    recorded action itself. The emergency stop, the watchdog, lost sessions,
    changed adapter workers and failed ledger writes all end in the same
    latched stop.

    The agent daemon asks its own broker first: the broker shows the operator a
    card, mints a grant on approval and checks the grant before the action is
    sent. A team's coordinator keeps members, epochs, role leases and tasks in
    tables, awards each task to the best feasible bid and merges what the members
    see into a shared world. The task kernel binds a user's messages to tasks and
    their revisions; the operation manager runs the processes and robot actions a
    task starts, follows them and cleans up after a restart.

    ** Which file models what (definitions keep the source's names)

    - PyStr.v, Time.v, Json.v: the Python values the code computes with: text,
      aware datetimes and their ISO form, JSON values with [json.dumps].
    - Contracts.v: kernel/contracts.py. Resources.v: kernel/resource_manager.py.
      Gateway.v: kernel/action_gateway.py.
    - Ledger.v: daemon/ledger.py, and the class [EventLog] under which every
      other component uses it; [DaemonLedger] is an instance, a list another.
    - Permits.v: daemon/permits.py. Sessions.v: daemon/session_manager.py.
    - Jobs.v: the jobs of daemon/service.py and their durable form.
      ControlPlane.v: its handlers, threads and watchdog tick, as blocks under
      its lock; [cstep] interleaves them. Queue.v, Restart.v, Frame.v and
      Dispatch.v prove what holds in every reachable state.
    - Proposals.v: operator/store.py and operator/protocol.py. Decisions.v:
      contracts/operator/decision.py, daemon/operator_registry.py and the
      identity of daemon/identity.py. Operator.v: the proposal, enrollment and
      decision handlers of daemon/service.py, over the state [oplane]. Consent.v
      and Verdict.v prove what a decision guarantees.
    - JsonText.v: what [json], [struct] and UTF-8 of the standard library do with
      text and bytes. Wire.v: daemon/protocol.py, frames over a connection.
    - Workers.v: daemon/worker_manager.py as interleaved blocks ([wstep]).
      Supervision.v: the worker methods of daemon/service.py and the callback of
      a changed generation, over the state [daemon] of control plane and workers.
    - Replies.v: the dictionaries daemon/service.py answers with, and the runtime
      status. Server.v: daemon/server.py, from the bytes of a connection to its
      response. Client.v: daemon/client.py, over any call ([DaemonCall]) and over
      the socket. Socket.v: the path of the socket, start, stop and the accept
      loop of daemon/server.py, and the client's checks of the path.
    - Broker.v: operator/broker.py with the cards and grants of
      contracts/operator/approval.py and grant.py; [bstep] is any method.
    - Clock.v: the texts of instants the tables compare. Float64.v: binary64, by the
      Standard Library's SpecFloat, with [round] and [sum]. Allocator.v:
      team/allocator.py. TeamDb.v: the rows of the team tables and the contracts
      they hold. Membership.v, Roles.v, WorldModel.v, Coordinator.v: the files of
      src/src/rosclaw/team with these names; [tstep] is any method of the
      coordinator and its stores. Team.v proves what holds after any of them.
    - Operations.v: task_kernel/operation_manager.py as interleaved blocks
      ([op_step]). TaskSpec.v: task_spec.py and acceptance.py of task_kernel. Tasks.v:
      the tasks of task_kernel/service.py; [kmove] is any of their methods, or a crash
      within the binding of a message. Evidence.v: the artifacts and checks of
      service.py with verifier.py, deliverables.py and run_store.py. Outcomes.v:
      task_kernel/coordinator.py; [office_step] is any method of all of these.
    The state of a component is a Record; a method is a function on it, in the
    error monad [result] or the state-and-error monad [st] of this file; an
    exception is a value, returned with the state it leaves. What the outside
    world decides (clock readings, fresh identifiers, whether an append, a save
    or the thread pool fails, what an executor returns) is an argument of the
    method, a Record such as [io]; theorems hold for every value of it. SHA-256,
    HMAC and Ed25519 are the classes [Crypto] and [Signatures]; theorems about
    forgery rest on their named laws ([mac_injective], [sign_law]).

    ** What the theorems show

    - Dispatch: an executor's answer matters exactly under the gateway's checks, the
      lease and a summary that can be built, and COMPLETED rests on what it answered; a
      REAL action is dispatched at most once, under a permit charged for it and by an
      armed daemon, over all interleavings and restarts (Gateway.v, Dispatch.v).
    - Stops: a latched emergency stop is final; a pending recovery review blocks
      arming, permits and REAL actions; an outcome that cannot be recorded stops
      the daemon; losing a session overrides exactly its jobs (Dispatch.v).
    - Consent: an accepted decision rests on a proof signed for exactly that
      proposal; no decision stops halfway; a restart closes what was pending;
      revocations and burned nonces are durable; receipts verify (Verdict.v,
      Decisions.v). The store keeps what was requested and shown whatever order its
      calls come in (Proposals.v). Handlers that run alone move proposals along their
      lifecycle; a listing around a refusal revives it ([declined_then_submitted]).
    - Authority: [authorize] is sound, permits are never overused, and the ledger
      always replays to what is in memory; after a restart no permit of the
      previous generation authorizes anything (Permits.v).
    - Evidence: the ledger is append-only and tamper-evident, each failed write
      leaves it consistent, and it refines a list of entries (Ledger.v); jobs and
      envelopes survive their stored form (Jobs.v, Contracts.v).
    - Recovery and bounds: a restarted daemon leaves no job unfinished and asks
      for review of interrupted REAL work; queue and table stay bounded; terminal
      jobs never change; every handler is a sequence of steps (Restart.v).
    - The socket: a frame is read as the byte stream says, however it is cut, in
      bounded space, and reading ends (Wire.v); whatever bytes arrive, a connection
      runs at most the handler its method names ([endpoint]), as its own peer and as a
      sequence of the daemon's steps, and a stranger changes nothing with the privileged
      methods (Server.v); client and server agree on every method, a call is the
      handler's own outcome, and an emergency stop that arrives latches although its
      response is lost (Client.v). A start
      replaces only an abandoned socket, clients trust what it leaves, connections
      are bounded (Socket.v).
    - Workers: no two share a process, a READY one has one and has said so, none is
      resumed, restarts stay within their budget (Workers.v); a worker replaced behind its client stops the robot, one
      restarted by an operator does not (Supervision.v).
    - Grants: verification fails closed, an exact grant passes once, and a grant that
      passes rests on one approval (Broker.v); what the signature leaves open is there
      too.
    - Teams: rows stay consistent, old epochs are refused, tasks with side effects keep
      their holder, an award rests on the best bid, and the places where a lost or
      departed member is not handled as the comments say (Team.v); the allocator awards
      to a bid that may win, scored as its terms say (Allocator.v), merging does not depend on the order of arrival
      (WorldModel.v), the order of UTC texts is that of instants (Clock.v).
    - Operations: a terminal operation never changes and one event records its end,
      beside the reports of failing readers; one that SUCCEEDED was seen to
      succeed, a start of the daemon accounts for every open one, and where a
      cancellation is lost (Operations.v).
    - Tasks: revisions are numbered without gaps and a PASS is of the active revision
      of a task that SUCCEEDED; a message is answered once and for all; closed tasks
      never change; a crash within a binding can wedge its task (Tasks.v). A task
      succeeds on evidence of its revision, and what the checks leave open (Evidence.v);
      an outcome that says DELIVERED rests on it, shows the media a goal without
      deliverables names, is final, and the coordinator acts
      through the kernel only (Outcomes.v); suggestions of a model tighten an acceptance
      but for two fields (TaskSpec.v).

    ** Bounds and fuel

    Recursion follows the data (lists of jobs, of events, of proposals).
    [dec_norm] removes at most as many zeros as a mantissa has digits, and is
    given that number. The JSON reader has fuel twice the length of its text, the
    receive loop one round per byte and one more; both are enough
    ([strict_loads_ends], [receive_frame_ends]). [wait_loop] follows the polls it
    is given. Integers are unbounded in Python and here; a frame length is 32 bits.
    The scores of the allocator are binary64. How [sum] rounds and where [list.sort]
    leaves a NaN depend on the interpreter: the class [Interpreter].

    ** Not modelled, and why

    - Text above code point 255, [str()] of a list or an object, and ISO-8601
      spellings [isoformat] does not write: the model rejects them or calls them
      [Unmodelled]; texts of error messages, logging, tracer spans, event
      publication do not influence decisions. A number read from a text
      ([float("1")]) is [Unmodelled].
    - Files, processes, SQLite and their permissions, beyond the daemon's socket
      path: their outcomes are arguments. The timer thread of daemon/watchdog.py: its tick is a step.
    - The operator handlers are one step each, but for one run of a listing around a
      refusal; a proposal that expires while it is being decided is not interleaved. So
      is [runtime_submit], the gateway's whole [submit] as the control plane sees it
      (Gateway.v interleaves its blocks by themselves), and a call over the socket with
      the server's handling of it ([socket_call]): a client that gives up before its
      request is handled is not shown.
    - A short write of the operator registry; the recursion limit of the JSON reader; the
      markers of a media goal that are not Latin ([goal_requires_media]).
    - Everything outside the daemon's decisions: the agent daemon, simulators,
      adapters and integrations, memory, knowledge and learning, perception,
      command lines, dashboards: input and output, third-party services and
      numerical code, for which this development has no model.
      The operator console (operatord) is another process.
    - Of the operation manager: [wait], the wrapper script of a process and the tool
      functions around it; of the task kernel: the directories and the projection of
      deliverables on disk, list views, the plug-ins of its verifier and its planning.
    - The broker, the coordinator and the task kernel run on a connection that commits each statement;
      each method is one step of one process on its own team's rows. A query that picks
      among several rows takes the first inserted. A failing JSON decoder of a row they
      wrote themselves, the simulated transport and the benchmark of team
      (transport.py, league.py) and the majority count of src/src/rosclaw/swarm are
      left out.
    Findings are recorded beside the theorem or run that shows them. *)

From Stdlib Require Export ZArith Lia Bool.
From stdpp Require Export base tactics list option strings gmap.

Global Unset Program Cases.

(** ** Results: Python code that returns a value or raises *)

Inductive result (E A : Type) : Type :=
| Ok (a : A)
| Err (e : E).
Arguments Ok {E A} a.
Arguments Err {E A} e.

Declare Scope rosclaw_scope.
Delimit Scope rosclaw_scope with rc.
Open Scope rosclaw_scope.

Definition rbind {E A B} (m : result E A) (k : A -> result E B) : result E B :=
  match m with Ok a => k a | Err e => Err e end.

Notation "'let*' x ':=' m 'in' k" := (rbind m (fun x => k))
  (at level 10, x pattern, m at level 100, k at level 200)
  : rosclaw_scope.

(** [require b e] is Python's [if not b: raise e]. *)
Definition require {E} (b : bool) (e : E) : result E unit :=
  if b then Ok tt else Err e.

Notation "'guard!' b 'else' e 'in' k" := (rbind (require b e) (fun _ => k))
  (at level 10, b at level 100, e at level 100, k at level 200)
  : rosclaw_scope.

Definition of_option {E A} (o : option A) (e : E) : result E A :=
  match o with Some a => Ok a | None => Err e end.

Definition is_ok {E A} (m : result E A) : bool :=
  match m with Ok _ => true | Err _ => false end.

Definition map_err {E E' A} (f : E -> E') (m : result E A) : result E' A :=
  match m with Ok a => Ok a | Err e => Err (f e) end.

Fixpoint mapr {E A B} (f : A -> result E B) (l : list A) : result E (list B) :=
  match l with
  | [] => Ok []
  | a :: l' => let* b := f a in let* bs := mapr f l' in Ok (b :: bs)
  end.

Fixpoint foldr_result {E A S} (f : S -> A -> result E S) (l : list A) (s : S) : result E S :=
  match l with
  | [] => Ok s
  | a :: l' => let* s' := f s a in foldr_result f l' s'
  end.

Lemma rbind_ok {E A B} (m : result E A) (k : A -> result E B) b :
  rbind m k = Ok b <-> exists a, m = Ok a /\ k a = Ok b.
Proof. destruct m; simpl; naive_solver. Qed.

Lemma rbind_err {E A B} (m : result E A) (k : A -> result E B) e :
  rbind m k = Err e <-> m = Err e \/ exists a, m = Ok a /\ k a = Err e.
Proof. destruct m; simpl; naive_solver. Qed.

Lemma require_ok {E} b (e : E) u : require b e = Ok u <-> b = true.
Proof. destruct b, u; simpl; naive_solver. Qed.

Lemma require_err {E} b (e e' : E) : require b e = Err e' <-> b = false /\ e = e'.
Proof. destruct b; simpl; naive_solver. Qed.

Lemma of_option_ok {E A} (o : option A) (e : E) a : of_option o e = Ok a <-> o = Some a.
Proof. destruct o; simpl; naive_solver. Qed.

Lemma map_err_ok {E E' A} (f : E -> E') (m : result E A) a :
  map_err f m = Ok a <-> m = Ok a.
Proof. destruct m; simpl; naive_solver. Qed.

Lemma foldr_result_app {E A S} (f : S -> A -> result E S) l1 l2 s :
  foldr_result f (l1 ++ l2) s =
  rbind (foldr_result f l1 s) (fun s' => foldr_result f l2 s').
Proof.
  revert s; induction l1 as [|a l1 IH]; intros s; simpl; [done|].
  destruct (f s a); simpl; [apply IH | done].
Qed.

(** ** Python dictionaries

    An insertion-ordered dictionary with string keys: assigning an existing
    key keeps its place, a new key goes last, as in Python. *)

Abbreviation dict V := (list (string * V)).

Section Dict.
Context {V : Type}.
Implicit Types (d : dict V) (k : string) (v : V).

Fixpoint dget d k : option V :=
  match d with
  | [] => None
  | (k', v) :: d' => if decide (k' = k) then Some v else dget d' k
  end.

Fixpoint dset d k v : dict V :=
  match d with
  | [] => [(k, v)]
  | (k', v') :: d' =>
      if decide (k' = k) then (k', v) :: d' else (k', v') :: dset d' k v
  end.

Fixpoint dpop d k : dict V :=
  match d with
  | [] => []
  | (k', v) :: d' => if decide (k' = k) then dpop d' k else (k', v) :: dpop d' k
  end.

Definition dhas d k : bool := bool_decide (is_Some (dget d k)).

Definition dkeys d : list string := d.*1.
Definition dvals d : list V := d.*2.

(** A dictionary's keys are distinct. *)
Definition dwf d : Prop := NoDup (dkeys d).

Lemma dget_dset_eq d k v : dget (dset d k v) k = Some v.
Proof.
  induction d as [|[k' v'] d IH]; simpl; repeat case_decide; simplify_eq/=;
    repeat case_decide; done.
Qed.

Lemma dget_dset_ne d k k' v : k <> k' -> dget (dset d k v) k' = dget d k'.
Proof.
  intros Hne; induction d as [|[k2 v2] d IH]; simpl.
  - by case_decide.
  - case_decide; simplify_eq/=; repeat case_decide; done.
Qed.

Lemma dget_dset d k k' v :
  dget (dset d k v) k' = if decide (k = k') then Some v else dget d k'.
Proof.
  case_decide; subst; [apply dget_dset_eq | by apply dget_dset_ne].
Qed.

Lemma dget_dpop_eq d k : dget (dpop d k) k = None.
Proof.
  induction d as [|[k' v'] d IH]; simpl; [done|].
  case_decide; simpl; [done | by rewrite decide_False].
Qed.

Lemma dget_dpop_ne d k k' : k <> k' -> dget (dpop d k) k' = dget d k'.
Proof.
  intros Hne. induction d as [|[k2 v2] d IH]; simpl; [done|].
  destruct (decide (k2 = k)) as [->|]; simpl.
  - by rewrite decide_False.
  - by rewrite IH.
Qed.

Lemma dset_dset d k v v' : dset (dset d k v) k v' = dset d k v'.
Proof.
  induction d as [|[k2 v2] d IH]; simpl; repeat case_decide; simplify_eq/=;
    repeat case_decide; congruence.
Qed.

Lemma dget_app d d' k :
  dget (d ++ d') k = match dget d k with Some v => Some v | None => dget d' k end.
Proof. induction d as [|[k' v'] d IH]; simpl; [done|]. by case_decide. Qed.

Lemma dget_in d k v : dget d k = Some v -> (k, v) ∈ d.
Proof.
  induction d as [|[k' v'] d IH]; simpl; [done|].
  case_decide; intros; simplify_eq; [left | right; auto].
Qed.

Lemma dget_Some d k v : dwf d -> (k, v) ∈ d -> dget d k = Some v.
Proof.
  unfold dwf, dkeys. induction d as [|[k' v'] d IH]; simpl.
  - intros _ H; inversion H.
  - intros Hnd Hin. apply NoDup_cons in Hnd as [Hni Hnd].
    apply elem_of_cons in Hin as [Heq|Hin]; [simplify_eq; by rewrite decide_True|].
    rewrite decide_False; [by apply IH|].
    intros ->. apply Hni, list_elem_of_fmap. by exists (k, v).
Qed.

Lemma dkeys_dget d k : k ∈ dkeys d <-> is_Some (dget d k).
Proof.
  unfold dkeys. induction d as [|[k' v'] d IH]; simpl.
  - split; [intros Hx; inversion Hx | intros [? Hx]; done].
  - rewrite elem_of_cons, IH. case_decide; subst; [naive_solver|].
    naive_solver.
Qed.

Lemma dget_None d k : dget d k = None <-> k ∉ dkeys d.
Proof. rewrite dkeys_dget, eq_None_not_Some. done. Qed.

Lemma dset_fresh d k v : dget d k = None -> dset d k v = d ++ [(k, v)].
Proof.
  induction d as [|[k' v'] d IH]; simpl; [done|].
  case_decide; [done|]. intros Hn. by rewrite IH.
Qed.

Lemma dhas_true d k : dhas d k = true <-> is_Some (dget d k).
Proof. unfold dhas. apply bool_decide_eq_true. Qed.

Lemma dhas_false d k : dhas d k = false <-> dget d k = None.
Proof. unfold dhas. by rewrite bool_decide_eq_false, eq_None_not_Some. Qed.

Lemma dhas_cons d k k' v' :
  dhas ((k', v') :: d) k = if decide (k' = k) then true else dhas d k.
Proof.
  unfold dhas. simpl. case_decide; [|done]. by apply bool_decide_eq_true.
Qed.

Lemma dkeys_dset d k v :
  dkeys (dset d k v) = if dhas d k then dkeys d else dkeys d ++ [k].
Proof.
  induction d as [|[k' v'] d IH]; [done|].
  rewrite dhas_cons. simpl. case_decide; [done|].
  change (k' :: dkeys (dset d k v) =
    if dhas d k then k' :: dkeys d else (k' :: dkeys d) ++ [k]).
  rewrite IH. by destruct (dhas d k).
Qed.

Lemma dwf_dset d k v : dwf d -> dwf (dset d k v).
Proof.
  unfold dwf. rewrite dkeys_dset. destruct (dhas d k) eqn:Hb; [done|].
  intros Hnd. apply NoDup_app. split; [done|]. split.
  - intros x Hx ->%list_elem_of_singleton.
    by apply dhas_false, dget_None in Hb.
  - apply NoDup_singleton.
Qed.

Lemma dpop_sublist d k : sublist (dpop d k) d.
Proof.
  induction d as [|[k' v'] d IH]; simpl; [constructor|].
  case_decide; by constructor.
Qed.

Lemma dwf_dpop d k : dwf d -> dwf (dpop d k).
Proof.
  unfold dwf, dkeys. intros Hnd. eapply sublist_NoDup; [exact Hnd|].
  apply fmap_sublist, dpop_sublist.
Qed.

Lemma dvals_in d k v : dget d k = Some v -> v ∈ dvals d.
Proof.
  intros Hg%dget_in. apply list_elem_of_fmap. by exists (k, v).
Qed.

Lemma length_dset d k v :
  length (dset d k v) = if dhas d k then length d else S (length d).
Proof.
  induction d as [|[k' v'] d IH]; [done|].
  rewrite dhas_cons. simpl. case_decide; simpl; [done|].
  rewrite IH. by destruct (dhas d k).
Qed.

Lemma length_dpop_le d k : length (dpop d k) <= length d.
Proof. apply sublist_length, dpop_sublist. Qed.

Lemma dpop_in d k kv : kv ∈ dpop d k <-> kv ∈ d /\ kv.1 <> k.
Proof.
  induction d as [|[k' v'] d IH]; simpl.
  - split; [intros H; inversion H | intros [H _]; inversion H].
  - case_decide; subst; rewrite ?elem_of_cons, IH; naive_solver.
Qed.

Lemma dset_in d k v kv : kv ∈ dset d k v -> kv = (k, v) \/ kv ∈ d.
Proof.
  induction d as [|[k' v'] d IH]; simpl.
  - rewrite list_elem_of_singleton; auto.
  - case_decide; subst; rewrite !elem_of_cons; naive_solver.
Qed.
End Dict.

(** Lookup of a literal key, by evaluation. *)
Fixpoint dget_lit {V} (d : dict V) (k : string) : option V :=
  match d with
  | [] => None
  | (k', v) :: d' => if String.eqb k' k then Some v else dget_lit d' k
  end.

Lemma dget_lit_eq {V} (d : dict V) k : dget d k = dget_lit d k.
Proof.
  induction d as [|[k' v] d IH]; simpl; [done|].
  rewrite IH. destruct (String.eqb_spec k' k); by case_decide.
Qed.

Ltac dget_eval :=
  rewrite ?dget_lit_eq; cbn [dget_lit String.eqb Ascii.eqb Bool.eqb].

Create HintDb rosclaw.
#[export] Hint Resolve dwf_dset dwf_dpop dget_in : rosclaw.
Create Rewrite HintDb dict_rw.
#[export] Hint Rewrite @dget_dset_eq @dget_dpop_eq : dict_rw.

(** ** Automation *)

(** Split one conditional or match of a hypothesis, closing the branches that
    contradict it. *)
Ltac case_in H :=
  match type of H with
  | context [match ?x with _ => _ end] =>
      let E := fresh "Hc" in destruct x eqn:E; simplify_eq/=
  end.

(** Open every [rbind] and [require] of a successful run [H]. *)
Ltac ok_inv H :=
  repeat
    match type of H with
    | rbind _ _ = Ok _ =>
        let a := fresh "a" in let Ha := fresh "Ha" in
        apply rbind_ok in H; destruct H as (a & Ha & H);
        try (apply require_ok in Ha); try ok_inv Ha
    | require _ _ = Ok _ => apply require_ok in H
    | of_option _ _ = Ok _ => apply of_option_ok in H
    | map_err _ _ = Ok _ => apply map_err_ok in H
    | Ok _ = Ok _ => injection H as H
    end.

(** Turn boolean tests in the context into propositions. *)
Ltac breflect :=
  repeat
    match goal with
    | H : (_ && _) = true |- _ => apply andb_true_iff in H; destruct H
    | H : (_ || _) = false |- _ => apply orb_false_iff in H; destruct H
    | H : negb _ = true |- _ => apply negb_true_iff in H
    | H : negb _ = false |- _ => apply negb_false_iff in H
    | H : bool_decide _ = true |- _ => apply bool_decide_eq_true in H
    | H : bool_decide _ = false |- _ => apply bool_decide_eq_false in H
    | H : (_ <? _)%Z = true |- _ => apply Z.ltb_lt in H
    | H : (_ <? _)%Z = false |- _ => apply Z.ltb_ge in H
    | H : (_ <=? _)%Z = true |- _ => apply Z.leb_le in H
    | H : (_ <=? _)%Z = false |- _ => apply Z.leb_gt in H
    | H : (_ =? _)%Z = true |- _ => apply Z.eqb_eq in H
    | H : (_ =? _)%Z = false |- _ => apply Z.eqb_neq in H
    end.

(** ** Generic list facts *)

Lemma Forall_dset {V} (P : string * V -> Prop) (d : dict V) k v :
  Forall P d -> P (k, v) -> Forall P (dset d k v).
Proof.
  rewrite !Forall_forall. intros Hd Hv kv Hin.
  apply dset_in in Hin as [->|Hin]; auto.
Qed.

Lemma Forall_dpop {V} (P : string * V -> Prop) (d : dict V) k :
  Forall P d -> Forall P (dpop d k).
Proof. rewrite !Forall_forall. intros Hd kv [Hin _]%dpop_in. auto. Qed.
#[export] Hint Resolve Forall_dset Forall_dpop : rosclaw.

Lemma dget_forall {V} (P : string * V -> Prop) (d : dict V) k v :
  Forall P d -> dget d k = Some v -> P (k, v).
Proof. rewrite Forall_forall. intros Hd Hg%dget_in. auto. Qed.

Lemma find_app_some {A} (f : A -> bool) (l l' : list A) x : find f l = Some x -> find f (l ++ l') = Some x.
Proof. induction l as [|y l IH]; [done|]. cbn. by destruct (f y). Qed.

(** ** Reachability: rule induction for an invariant of a step relation *)

Lemma reach_inv {S} (R : S -> S -> Prop) (P : S -> Prop) s s' :
  P s -> (forall x y, P x -> R x y -> P y) -> rtc R s s' -> P s'.
Proof. intros H0 Hstep Hr. revert H0. induction Hr; eauto. Qed.

(** ** State and exceptions

    A method that changes an object and may raise: the state an exception
    leaves is the one reached when it was raised, as in Python. *)

Definition st (S E A : Type) : Type := S -> S * result E A.

Section State.
Context {S E : Type}.

Definition st_ret {A} (a : A) : st S E A := fun s => (s, Ok a).
Definition st_raise {A} (e : E) : st S E A := fun s => (s, Err e).
Definition st_get {A} (f : S -> A) : st S E A := fun s => (s, Ok (f s)).
Definition st_set (f : S -> S) : st S E unit := fun s => (f s, Ok tt).

Definition st_bind {A B} (m : st S E A) (k : A -> st S E B) : st S E B :=
  fun s => match m s with (s', Ok a) => k a s' | (s', Err e) => (s', Err e) end.

Definition st_guard (b : bool) (e : E) : st S E unit :=
  if b then st_ret tt else st_raise e.

(** [try: m; except: h] *)
Definition st_try {A} (m : st S E A) (h : E -> st S E A) : st S E A :=
  fun s => match m s with (s', Ok a) => (s', Ok a) | (s', Err e) => h e s' end.

(** [with suppress(Exception): m] *)
Definition st_suppress (m : st S E unit) : st S E unit := st_try m (fun _ => st_ret tt).

Fixpoint st_each {A} (f : A -> st S E unit) (l : list A) : st S E unit :=
  match l with [] => st_ret tt | a :: l' => st_bind (f a) (fun _ => st_each f l') end.
End State.

Notation "'do!' x '<-' m ';' k" := (st_bind m (fun x => k))
  (at level 10, x pattern, m at level 100, k at level 200) : rosclaw_scope.
Notation "'run!' m ';' k" := (st_bind m (fun _ => k))
  (at level 10, m at level 100, k at level 200) : rosclaw_scope.

(** What a method does to its state, whatever it returns: [R] relates the
    state before to the state after. *)
Definition keeps {S E A} (R : S -> S -> Prop) (m : st S E A) : Prop := forall s, R s (m s).1.

Section Keeps.
Context {S E : Type} (R : S -> S -> Prop) `{!PreOrder R}.

Lemma keeps_bind_ok {A B} (m : st S E A) (f : A -> st S E B) :
  keeps R m -> (forall a, (exists s, (m s).2 = Ok a) -> keeps R (f a)) -> keeps R (st_bind m f).
Proof.
  intros Hm Hf s. unfold st_bind. specialize (Hm s). destruct (m s) as [s1 [a|e]] eqn:E1; [|exact Hm].
  etrans; [exact Hm|]. apply Hf. exists s. by rewrite E1.
Qed.

Lemma keeps_ret {A} (a : A) : keeps R (st_ret (E := E) a).
Proof. intros s. reflexivity. Qed.
Lemma keeps_raise {A} (e : E) : keeps R (st_raise (A := A) e).
Proof. intros s. reflexivity. Qed.
Lemma keeps_get {A} (f : S -> A) : keeps R (st_get (E := E) f).
Proof. intros s. reflexivity. Qed.
Lemma keeps_guard b (e : E) : keeps R (st_guard b e).
Proof. intros s. by destruct b. Qed.
Lemma keeps_set f : (forall s, R s (f s)) -> keeps R (st_set (E := E) f).
Proof. intros Hf s. apply Hf. Qed.

Lemma keeps_bind {A B} (m : st S E A) (k : A -> st S E B) :
  keeps R m -> (forall a, keeps R (k a)) -> keeps R (st_bind m k).
Proof.
  intros Hm Hk s. unfold st_bind. specialize (Hm s). destruct (m s) as [s' [a|e]]; simpl in *.
  - etrans; [exact Hm|apply Hk].
  - exact Hm.
Qed.

Lemma keeps_try {A} (m : st S E A) (h : E -> st S E A) :
  keeps R m -> (forall e, keeps R (h e)) -> keeps R (st_try m h).
Proof.
  intros Hm Hh s. unfold st_try. specialize (Hm s). destruct (m s) as [s' [a|e]]; simpl in *.
  - exact Hm.
  - etrans; [exact Hm|apply Hh].
Qed.

Lemma keeps_suppress (m : st S E unit) : keeps R m -> keeps R (st_suppress m).
Proof. intros Hm. apply keeps_try; [done|]. intros e. apply keeps_ret. Qed.

Lemma keeps_each {A} (f : A -> st S E unit) l : (forall a, keeps R (f a)) -> keeps R (st_each f l).
Proof.
  intros Hf. induction l as [|a l IH]; simpl; [apply keeps_ret|by apply keeps_bind].
Qed.
End Keeps.
#[export] Hint Resolve keeps_ret keeps_raise keeps_get keeps_guard keeps_suppress keeps_each : rosclaw.
#[export] Hint Resolve keeps_bind keeps_try : rosclaw.

(** ** Triples

    From a state satisfying [P], [m] ends in [Q] with its result or in [F] with
    its exception. *)
Definition runs {S E A} (P : S -> Prop) (m : st S E A) (Q : A -> S -> Prop) (F : E -> S -> Prop)
  : Prop := forall s, P s -> match m s with (s', Ok a) => Q a s' | (s', Err e) => F e s' end.

Section Runs.
Context {S E : Type}.
Implicit Types (P : S -> Prop) (F : E -> S -> Prop).

Lemma runs_ret {A} (a : A) P Q F : (forall s, P s -> Q a s) -> runs P (st_ret a) Q F.
Proof. intros HQ s Hs. by apply HQ. Qed.
Lemma runs_raise {A} (e : E) P (Q : A -> S -> Prop) F : (forall s, P s -> F e s) -> runs P (st_raise e) Q F.
Proof. intros HF s Hs. by apply HF. Qed.
Lemma runs_get {A} (f : S -> A) P Q F : (forall s, P s -> Q (f s) s) -> runs P (st_get f) Q F.
Proof. intros HQ s Hs. by apply HQ. Qed.
Lemma runs_set f P Q F : (forall s, P s -> Q tt (f s)) -> runs P (st_set f) Q F.
Proof. intros HQ s Hs. by apply HQ. Qed.
Lemma runs_guard b (e : E) P Q F :
  (b = true -> forall s, P s -> Q tt s) -> (b = false -> forall s, P s -> F e s) ->
  runs P (st_guard b e) Q F.
Proof. intros HQ HF s Hs. destruct b; [by apply HQ|by apply HF]. Qed.

Lemma runs_bind {A B} (m : st S E A) (k : A -> st S E B) P R Q F :
  runs P m R F -> (forall a, runs (R a) (k a) Q F) -> runs P (st_bind m k) Q F.
Proof.
  intros Hm Hk s Hs. unfold st_bind. specialize (Hm s Hs).
  destruct (m s) as [s' [a|e]]; [by apply Hk|done].
Qed.

Lemma runs_try {A} (m : st S E A) (h : E -> st S E A) P Q G F :
  runs P m Q G -> (forall e, runs (G e) (h e) Q F) -> runs P (st_try m h) Q F.
Proof.
  intros Hm Hh s Hs. unfold st_try. specialize (Hm s Hs).
  destruct (m s) as [s' [a|e]]; [done|by apply Hh].
Qed.

Lemma runs_weaken {A} (m : st S E A) P P' (Q Q' : A -> S -> Prop) F F' :
  runs P' m Q' F' -> (forall s, P s -> P' s) -> (forall a s, Q' a s -> Q a s) ->
  (forall e s, F' e s -> F e s) -> runs P m Q F.
Proof.
  intros Hm HP HQ HF s Hs. specialize (Hm s (HP s Hs)).
  destruct (m s) as [s' [a|e]]; auto.
Qed.

Lemma runs_pre {A} (m : st S E A) P (c : Prop) Q F :
  (c -> runs P m Q F) -> runs (fun s => c /\ P s) m Q F.
Proof. intros Hm s [Hc Hs]. by apply Hm. Qed.

Lemma runs_suppress (m : st S E unit) P F :
  runs P m (fun _ => P) (fun _ => P) -> runs P (st_suppress m) (fun _ => P) F.
Proof.
  intros Hm. eapply runs_try; [exact Hm|]. intros e. by apply runs_ret.
Qed.

Lemma runs_each {A} (f : A -> st S E unit) l P F :
  (forall a, runs P (f a) (fun _ => P) F) -> runs P (st_each f l) (fun _ => P) F.
Proof.
  intros Hf. induction l as [|x l' IH]; simpl; [by apply runs_ret|].
  eapply runs_bind; [apply Hf|]. intros ?. exact IH.
Qed.

Lemma bind_ok {A B} (m : st S E A) (k : A -> st S E B) s s' b :
  st_bind m k s = (s', Ok b) -> exists s1 a, m s = (s1, Ok a) /\ k a s1 = (s', Ok b).
Proof. unfold st_bind. destruct (m s) as [s1 [a|e]]; [eauto|done]. Qed.

Lemma guard_ok b (e : E) (s s' : S) u : st_guard b e s = (s', Ok u) -> s' = s /\ b = true.
Proof. destruct b; [|done]. unfold st_guard, st_ret. by intros [=]. Qed.
End Runs.

(** Open the successful run [H] of a method into the runs of its parts. *)
Ltac st_inv H :=
  repeat
    match type of H with
    | st_bind _ _ _ = (_, Ok _) =>
        let s1 := fresh "s" in let a := fresh "a" in let Ha := fresh "Ha" in
        apply bind_ok in H; destruct H as (s1 & a & Ha & H); try st_inv Ha
    | st_guard _ _ _ = (_, Ok _) => apply guard_ok in H; destruct H
    | st_ret _ _ = (_, Ok _) =>
        let Hv := fresh "Hv" in unfold st_ret in H; injection H as H Hv
    | st_raise _ _ = (_, Ok _) => discriminate H
    end.
