(* ===== verification/PyStr.v ===== *)
(** Python strings and integers as the modelled code uses them.

    A Python [str] is a sequence of code points; [string] holds those below
    256. Whitespace ([str.strip]), control characters ([ord(c) < 0x20]),
    [str.upper], slices, decimal [str(int)], and [sorted(set(...))] on lists
    of strings are Python's on that range. *)

From Stdlib Require Export Ascii Sorted.
From Stdlib Require Import DecimalString DecimalZ OrdersEx.
From S2P Require Export Prelude.

Open Scope string_scope.
Open Scope Z_scope.

#[global] Arguments String.append !_ _ / : simpl nomatch.

Definition ord (c : ascii) : Z := Z.of_N (N_of_ascii c).

Fixpoint str_all (p : ascii -> bool) (s : string) : bool :=
  match s with EmptyString => true | String c s' => p c && str_all p s' end.

Definition str_any (p : ascii -> bool) (s : string) : bool :=
  negb (str_all (fun c => negb (p c)) s).

(** [str.isspace] of one code point below 256. *)
Definition is_space (c : ascii) : bool :=
  let o := ord c in
  ((9 <=? o) && (o <=? 13)) || ((28 <=? o) && (o <=? 32)) || (o =? 133) || (o =? 160).

Fixpoint lstrip (s : string) : string :=
  match s with
  | EmptyString => EmptyString
  | String c s' => if is_space c then lstrip s' else s
  end.

Fixpoint rstrip (s : string) : string :=
  match s with
  | EmptyString => EmptyString
  | String c s' =>
      match rstrip s' with
      | EmptyString => if is_space c then EmptyString else String c EmptyString
      | r => String c r
      end
  end.

(** [s.strip()] *)
Definition strip (s : string) : string := rstrip (lstrip s).

(** The truth value of [s] and of [s.strip()]. *)
Definition truthy_str (s : string) : bool := negb (String.eqb s "").
Definition nonblank (s : string) : bool := truthy_str (strip s).

(** [len(s)] *)
Definition len (s : string) : Z := Z.of_nat (String.length s).

(** [any(ord(c) < 0x20 for c in s)] *)
Definition has_ctrl (s : string) : bool := str_any (fun c => ord c <? 32) s.

(** [s[:n]] *)
Definition prefix_of (n : nat) (s : string) : string := String.substring 0 n s.

(** [s.upper()]: U+00DF has the two-letter upper case "SS"; the upper cases
    of U+00B5 and U+00FF are above U+00FF and left as they are. *)
Definition upper_char (c : ascii) : string :=
  let o := ord c in
  if ((97 <=? o) && (o <=? 122)) || ((224 <=? o) && (o <=? 254) && negb (o =? 247))
  then String (ascii_of_N (Z.to_N (o - 32))) EmptyString
  else if o =? 223 then "SS" else String c EmptyString.

Fixpoint upper (s : string) : string :=
  match s with EmptyString => EmptyString | String c s' => upper_char c +:+ upper s' end.

(** [s.removeprefix(p)] *)
Definition removeprefix (p s : string) : string :=
  if String.prefix p s
  then String.substring (String.length p) (String.length s - String.length p) s
  else s.

Definition is_lower_hex (c : ascii) : bool :=
  let o := ord c in ((48 <=? o) && (o <=? 57)) || ((97 <=? o) && (o <=? 102)).

(** [str(n)] for an integer. *)
Definition Z_to_str (z : Z) : string := NilZero.string_of_int (Z.to_int z).
Definition Z_of_str (s : string) : option Z := Z.of_int <$> NilZero.int_of_string s.

Lemma Z_of_to_str z : Z_of_str (Z_to_str z) = Some z.
Proof.
  unfold Z_of_str, Z_to_str. rewrite NilZero.isi.
  - simpl. by rewrite DecimalZ.of_to.
  - destruct z as [|p|p]; simpl; [done| |done].
    intros [=Hn]. by destruct (DecimalPos.Unsigned.to_uint_nonnil p).
  - destruct z as [|p|p]; simpl; [done|done|].
    intros [=Hn]. by destruct (DecimalPos.Unsigned.to_uint_nonnil p).
Qed.

Lemma Z_to_str_inj z z' : Z_to_str z = Z_to_str z' -> z = z'.
Proof.
  intros H. apply (f_equal Z_of_str) in H. rewrite !Z_of_to_str in H. congruence.
Qed.

(** The identifier test several components share: a non-blank string of at
    most [n] characters with no control character. *)
Definition printable (n : Z) (s : string) : bool :=
  nonblank s && (len s <=? n) && negb (has_ctrl s).

(** ** Sorted duplicate-free lists of strings: [sorted(set(l))] *)

Definition str_lt (s t : string) : Prop := String_as_OT.lt s t.

Fixpoint sset_add (x : string) (l : list string) : list string :=
  match l with
  | [] => [x]
  | y :: l' =>
      match String_as_OT.compare x y with
      | Lt => x :: y :: l'
      | Eq => y :: l'
      | Gt => y :: sset_add x l'
      end
  end.

Definition sorted_set (l : list string) : list string := foldr sset_add [] l.

Lemma elem_of_sset_add x y l : x ∈ sset_add y l <-> x = y \/ x ∈ l.
Proof.
  induction l as [|z l IH]; simpl.
  - rewrite list_elem_of_singleton. set_solver.
  - destruct (String_as_OT.compare_spec y z) as [Heq|Hlt|Hgt].
    + unfold String_as_OT.eq in Heq; subst. rewrite elem_of_cons. naive_solver.
    + rewrite !elem_of_cons. naive_solver.
    + rewrite !elem_of_cons, IH. naive_solver.
Qed.

Lemma elem_of_sorted_set x l : x ∈ sorted_set l <-> x ∈ l.
Proof.
  induction l as [|y l IH]; simpl; [done|].
  by rewrite elem_of_sset_add, IH, elem_of_cons.
Qed.

Lemma str_lt_trans s t u : str_lt s t -> str_lt t u -> str_lt s u.
Proof. unfold str_lt. intros; by etrans. Qed.

Lemma str_lt_irrefl s : ~ str_lt s s.
Proof. unfold str_lt. apply irreflexivity. typeclasses eauto. Qed.

Lemma sset_add_sorted x l :
  StronglySorted str_lt l -> StronglySorted str_lt (sset_add x l).
Proof.
  induction l as [|y l IH]; simpl; intros Hs.
  - repeat constructor.
  - apply StronglySorted_inv in Hs as [Hs Hf].
    destruct (String_as_OT.compare_spec x y) as [Heq|Hlt|Hgt].
    + by constructor.
    + constructor; [by constructor|]. constructor; [done|].
      eapply Forall_impl; [exact Hf|]. intros z Hz. by eapply str_lt_trans.
    + constructor; [by apply IH|]. apply Forall_forall. intros z Hz.
      apply elem_of_sset_add in Hz as [->|Hz]; [done|].
      rewrite Forall_forall in Hf. auto.
Qed.

Lemma sorted_set_sorted l : StronglySorted str_lt (sorted_set l).
Proof. induction l; simpl; [constructor | by apply sset_add_sorted]. Qed.

Lemma sset_add_lt x l : Forall (str_lt x) l -> sset_add x l = x :: l.
Proof.
  destruct l as [|y l]; simpl; [done|]. intros [Hlt _]%Forall_cons.
  destruct (String_as_OT.compare_spec x y) as [Heq|_|Hgt]; [|done|].
  - unfold String_as_OT.eq in Heq; subst. by apply str_lt_irrefl in Hlt.
  - exfalso. eapply str_lt_irrefl, str_lt_trans; eassumption.
Qed.

(** A strictly sorted list is its own [sorted(set(...))]. *)
Lemma sorted_set_id l : StronglySorted str_lt l -> sorted_set l = l.
Proof.
  induction l as [|x l IH]; simpl; [done|].
  intros [Hs Hf]%StronglySorted_inv. rewrite IH by done. by apply sset_add_lt.
Qed.

Lemma sorted_set_idem l : sorted_set (sorted_set l) = sorted_set l.
Proof. apply sorted_set_id, sorted_set_sorted. Qed.

(** [sorted(set(a).union(b))] *)
Definition sorted_union (a b : list string) : list string := sorted_set (a ++ b).

Lemma elem_of_sorted_union x a b : x ∈ sorted_union a b <-> x ∈ a \/ x ∈ b.
Proof. unfold sorted_union. by rewrite elem_of_sorted_set, elem_of_app. Qed.

Lemma sorted_union_sorted a b : StronglySorted str_lt (sorted_union a b).
Proof. apply sorted_set_sorted. Qed.

(** [set(a).issubset(b)] *)
Definition subset_of (a b : list string) : bool := bool_decide (Forall (.∈ b) a).

(** ** Rounding *)

(** [m / d] for a positive [d], rounded to the nearest integer, ties to the
    even one. *)
Definition div_half_even (m d : Z) : Z :=
  match 2 * (m mod d) ?= d with
  | Lt => m / d
  | Gt => m / d + 1
  | Eq => if Z.even (m / d) then m / d else m / d + 1
  end.

(** Rounding keeps the whole numbers on either side. *)
Lemma div_half_even_bounds m d n : 0 < d ->
  (m <= n * d -> div_half_even m d <= n) /\ (n * d <= m -> n <= div_half_even m d).
Proof.
  intros Hd. unfold div_half_even. pose proof (Z.div_mod m d) as Hm.
  pose proof (Z.mod_pos_bound m d Hd) as Hr. set (q := m / d) in *. set (r := m mod d) in *.
  destruct (Z.compare_spec (2 * r) d); [destruct (Z.even q)|..]; split; nia.
Qed.

Lemma div_half_even_near m d : 0 < d -> 2 * Z.abs (m - d * div_half_even m d) <= d.
Proof.
  intros Hd. unfold div_half_even. pose proof (Z.div_mod m d) as Hm.
  pose proof (Z.mod_pos_bound m d Hd) as Hr. set (q := m / d) in *. set (r := m mod d) in *.
  destruct (Z.compare_spec (2 * r) d); [destruct (Z.even q)|..]; lia.
Qed.
