(* ===== verification/Time.v ===== *)
(** Timezone-aware [datetime] values and their ISO-8601 text.

    A [datetime] is an instant in microseconds since the Unix epoch with its
    UTC offset in minutes; Python compares and subtracts instants.  [iso] is
    [isoformat().replace("+00:00", "Z")], the text every [_iso] helper of the
    code writes; [parse_iso] is [fromisoformat(s.replace("Z", "+00:00"))] on
    the extended format [isoformat] writes (other ISO-8601 spellings are
    rejected by the model). *)

From S2P Require Export PyStr.

Record datetime := DT { us : Z; off : Z }.

#[export] Instance datetime_eq_dec : EqDecision datetime.
Proof. solve_decision. Defined.

(** [d1 <= d2] and [d1 < d2] on instants, [d + timedelta(...)]. *)
Definition dt_le (d1 d2 : datetime) : bool := us d1 <=? us d2.
Definition dt_lt (d1 d2 : datetime) : bool := us d1 <? us d2.
Definition dt_add (d : datetime) (delta_us : Z) : datetime := DT (us d + delta_us) (off d).
Definition dt_utc (d : datetime) : datetime := DT (us d) 0.

(** [min(d1, d2)]: the first of the two when they are the same instant. *)
Definition dt_min (d1 d2 : datetime) : datetime := if dt_lt d2 d1 then d2 else d1.

(** ** Calendar *)

Definition days_of_civil (y m d : Z) : Z :=
  let y' := if m <=? 2 then y - 1 else y in
  let era := y' / 400 in
  let yoe := y' mod 400 in
  let mp := if 2 <? m then m - 3 else m + 9 in
  let doy := (153 * mp + 2) / 5 + d - 1 in
  era * 146097 + (yoe * 365 + yoe / 4 - yoe / 100 + doy) - 719468.

Definition civil_of_days (days : Z) : Z * Z * Z :=
  let z := days + 719468 in
  let era := z / 146097 in
  let doe := z mod 146097 in
  let yoe := (doe - doe / 1460 + doe / 36524 - doe / 146096) / 365 in
  let doy := doe - (365 * yoe + yoe / 4 - yoe / 100) in
  let mp := (5 * doy + 2) / 153 in
  let d := doy - (153 * mp + 2) / 5 + 1 in
  let m := if mp <? 10 then mp + 3 else mp - 9 in
  let y := yoe + era * 400 + (if m <=? 2 then 1 else 0) in
  (y, m, d).

(** Division by constants in [lia]. *)
#[local] Ltac Zify.zify_post_hook ::= Z.div_mod_to_equations.

Section Calendar.
Variable doe : Z.
Hypothesis Hdoe : 0 <= doe < 146097.
Let yoe := (doe - doe / 1460 + doe / 36524 - doe / 146096) / 365.
Let doy := doe - (365 * yoe + yoe / 4 - yoe / 100).

Lemma yoe_bounds : 0 <= yoe < 400.
Proof using Hdoe. unfold yoe. lia. Qed.

Lemma doy_bounds : 0 <= doy <= 365.
Proof using Hdoe. unfold doy, yoe. lia. Qed.
End Calendar.

Lemma mp_bounds doy : 0 <= doy <= 365 -> 0 <= (5 * doy + 2) / 153 <= 11.
Proof. lia. Qed.

Lemma mday_bounds doy :
  0 <= doy <= 365 -> 1 <= doy - (153 * ((5 * doy + 2) / 153) + 2) / 5 + 1 <= 31.
Proof. lia. Qed.

Lemma days_of_civil_of_days days :
  let '(y, m, d) := civil_of_days days in days_of_civil y m d = days.
Proof.
  unfold civil_of_days, days_of_civil.
  set (z := days + 719468).
  pose proof (Z.mod_pos_bound z 146097 ltac:(lia)) as Hdoe.
  pose proof (Z.div_mod z 146097 ltac:(lia)) as Hz.
  set (doe := z mod 146097) in *. set (era := z / 146097) in *.
  pose proof (yoe_bounds doe Hdoe) as Hyoe.
  pose proof (doy_bounds doe Hdoe) as Hdoy.
  set (yoe := (doe - doe / 1460 + doe / 36524 - doe / 146096) / 365) in *.
  set (doy := doe - (365 * yoe + yoe / 4 - yoe / 100)) in *.
  pose proof (mp_bounds doy Hdoy) as Hmp.
  set (mp := (5 * doy + 2) / 153) in *.
  assert (Hyear : forall k, (yoe + era * 400 + k - k) / 400 = era
                            /\ (yoe + era * 400 + k - k) mod 400 = yoe) by (intros; lia).
  destruct (mp <? 10) eqn:E; breflect.
  - replace (mp + 3 <=? 2) with false by (symmetry; apply Z.leb_gt; lia).
    replace (2 <? mp + 3) with true by (symmetry; apply Z.ltb_lt; lia).
    destruct (Hyear 0) as [H1 H2]. rewrite !Z.sub_0_r in H1, H2. rewrite H1, H2.
    unfold doy. lia.
  - replace (mp - 9 <=? 2) with true by (symmetry; apply Z.leb_le; lia).
    replace (2 <? mp - 9) with false by (symmetry; apply Z.ltb_ge; lia).
    destruct (Hyear 1) as [H1 H2]. rewrite H1, H2.
    replace (mp - 9 + 9) with mp by lia. unfold doy. lia.
Qed.

(** ** Text *)

Definition digit (z : Z) : ascii := ascii_of_N (Z.to_N (48 + z)).
Definition d2 (z : Z) : string := String (digit (z / 10)) (String (digit (z mod 10)) "").
Definition d4 (z : Z) : string := d2 (z / 100) +:+ d2 (z mod 100).
Definition d6 (z : Z) : string := d2 (z / 10000) +:+ d4 (z mod 10000).

Definition undigit (c : ascii) : option Z :=
  let o := ord c - 48 in if (0 <=? o) && (o <=? 9) then Some o else None.

(** Read exactly [n] digits, the value so far in [acc]. *)
Fixpoint digits (n : nat) (acc : Z) (s : string) : option (Z * string) :=
  match n, s with
  | O, _ => Some (acc, s)
  | S n', String c s' => match undigit c with
                         | Some v => digits n' (acc * 10 + v) s'
                         | None => None
                         end
  | S _, EmptyString => None
  end.

Definition expect (c : ascii) (s : string) : option string :=
  match s with
  | String c' s' => if Ascii.eqb c c' then Some s' else None
  | EmptyString => None
  end.

Lemma undigit_digit z : 0 <= z <= 9 -> undigit (digit z) = Some z.
Proof.
  intros H.
  assert (z = 0 \/ z = 1 \/ z = 2 \/ z = 3 \/ z = 4 \/ z = 5 \/ z = 6 \/ z = 7 \/ z = 8 \/ z = 9)
    as Hz by lia.
  repeat destruct Hz as [->|Hz]; [done..|subst; done].
Qed.

Lemma digits_d2 z n acc s :
  0 <= z <= 99 -> digits (S (S n)) acc (d2 z +:+ s) = digits n (acc * 100 + z) s.
Proof.
  intros H. unfold d2. cbn [digits String.append].
  rewrite !undigit_digit by lia. f_equal. lia.
Qed.

Lemma append_assoc (a b c : string) : (a +:+ b) +:+ c = a +:+ (b +:+ c).
Proof. induction a; simpl; congruence. Qed.

Lemma digits_d4 z n acc s :
  0 <= z <= 9999 -> digits (4 + n) acc (d4 z +:+ s) = digits n (acc * 10000 + z) s.
Proof.
  intros H. unfold d4. rewrite append_assoc.
  change (4 + n)%nat with (S (S (S (S n)))).
  rewrite !digits_d2 by lia. f_equal. lia.
Qed.

Lemma digits_d6 z n acc s :
  0 <= z <= 999999 -> digits (6 + n) acc (d6 z +:+ s) = digits n (acc * 1000000 + z) s.
Proof.
  intros H. unfold d6. rewrite append_assoc.
  change (6 + n)%nat with (S (S (4 + n))).
  rewrite digits_d2, digits_d4 by lia. f_equal. lia.
Qed.

Lemma read_d2 z s : 0 <= z <= 99 -> digits 2 0 (d2 z +:+ s) = Some (z, s).
Proof. intros H. by rewrite digits_d2. Qed.

Lemma read_d4 z s : 0 <= z <= 9999 -> digits 4 0 (d4 z +:+ s) = Some (z, s).
Proof. intros H. by rewrite (digits_d4 z 0). Qed.

Lemma read_d6 z s : 0 <= z <= 999999 -> digits 6 0 (d6 z +:+ s) = Some (z, s).
Proof. intros H. by rewrite (digits_d6 z 0). Qed.

Lemma expect_same c s : expect c (String c "" +:+ s) = Some s.
Proof. simpl. by rewrite Ascii.eqb_refl. Qed.

(** Step a parser over the text of a printer. *)
Ltac read_step :=
  (rewrite read_d2 by lia) || (rewrite read_d4 by lia) || (rewrite read_d6 by lia)
  || rewrite expect_same; cbn [mbind option_bind].

Definition usec_per_day : Z := 86400000000.
Definition usec_per_min : Z := 60000000.

Definition iso_offset (o : Z) : string :=
  if o =? 0 then "Z"
  else (if o <? 0 then "-" else "+") +:+ d2 (Z.abs o / 60) +:+ ":" +:+ d2 (Z.abs o mod 60).

Definition iso_time (tod : Z) : string :=
  let s := tod / 1000000 in
  let f := tod mod 1000000 in
  d2 (s / 3600) +:+ ":" +:+ d2 (s / 60 mod 60) +:+ ":" +:+ d2 (s mod 60)
  +:+ (if f =? 0 then "" else "." +:+ d6 f).

(** [d.isoformat().replace("+00:00", "Z")] *)
Definition iso (d : datetime) : string :=
  let local := us d + off d * usec_per_min in
  let '(y, m, dd) := civil_of_days (local / usec_per_day) in
  d4 y +:+ "-" +:+ d2 m +:+ "-" +:+ d2 dd +:+ "T"
  +:+ iso_time (local mod usec_per_day) +:+ iso_offset (off d).

Definition parse_date (s : string) : option (Z * string) :=
  '(y, s) ← digits 4 0 s; s ← expect "-" s;
  '(m, s) ← digits 2 0 s; s ← expect "-" s;
  '(d, s) ← digits 2 0 s;
  let days := days_of_civil y m d in
  if bool_decide (civil_of_days days = (y, m, d)) && (1 <=? y) then Some (days, s) else None.

Definition parse_time (s : string) : option (Z * string) :=
  '(h, s) ← digits 2 0 s; s ← expect ":" s;
  '(m, s) ← digits 2 0 s; s ← expect ":" s;
  '(sec, s) ← digits 2 0 s;
  if (h <=? 23) && (m <=? 59) && (sec <=? 59) then
    let base := ((h * 60 + m) * 60 + sec) * 1000000 in
    match expect "." s with
    | Some s' => '(f, s'') ← digits 6 0 s'; Some (base + f, s'')
    | None => Some (base, s)
    end
  else None.

(** The offset in minutes, [None] for a naive timestamp. *)
Definition parse_offset (s : string) : option (option Z) :=
  match s with
  | EmptyString => Some None
  | String "Z" EmptyString => Some (Some 0)
  | String c s' =>
      if Ascii.eqb c "+" || Ascii.eqb c "-" then
        '(h, r) ← digits 2 0 s'; r ← expect ":" r; '(m, r) ← digits 2 0 r;
        if (h <=? 23) && (m <=? 59) && String.eqb r "" then
          let o := h * 60 + m in
          Some (Some (if Ascii.eqb c "-" then - o else o))
        else None
      else None
  end.

(** [datetime.fromisoformat(s.replace("Z", "+00:00"))]: local microseconds and
    the offset if the text has one. *)
Definition parse_iso (s : string) : option (Z * option Z) :=
  '(days, s) ← parse_date s; s ← expect "T" s;
  '(tod, s) ← parse_time s;
  o ← parse_offset s;
  Some (days * usec_per_day + tod, o).

(** A timestamp that must carry an offset. *)
Definition parse_aware (s : string) : option datetime :=
  match parse_iso s with
  | Some (local, Some o) => Some (DT (local - o * usec_per_min) o)
  | _ => None
  end.

(** A timestamp whose missing offset is read as UTC. *)
Definition parse_default_utc (s : string) : option datetime :=
  match parse_iso s with
  | Some (local, Some o) => Some (DT (local - o * usec_per_min) o)
  | Some (local, None) => Some (DT local 0)
  | None => None
  end.

(** Years 1 to 9999 and offsets of less than a day: the values a Python
    [datetime] can take. *)
Definition dt_wf (d : datetime) : Prop :=
  1 <= (civil_of_days ((us d + off d * usec_per_min) / usec_per_day)).1.1 <= 9999
  /\ -1440 < off d < 1440.

Lemma civil_bounds days :
  let '(_, m, d) := civil_of_days days in 1 <= m <= 12 /\ 1 <= d <= 31.
Proof.
  unfold civil_of_days.
  set (z := days + 719468).
  pose proof (Z.mod_pos_bound z 146097 ltac:(lia)) as Hdoe.
  set (doe := z mod 146097) in *.
  pose proof (doy_bounds doe Hdoe) as Hdoy.
  set (doy := doe - _) in *.
  pose proof (mp_bounds doy Hdoy) as Hmp. pose proof (mday_bounds doy Hdoy).
  split; [|done]. destruct (_ <? 10) eqn:E; breflect; lia.
Qed.

Lemma parse_date_iso days s :
  1 <= (civil_of_days days).1.1 <= 9999 ->
  parse_date (let '(y, m, d) := civil_of_days days in
              d4 y +:+ "-" +:+ d2 m +:+ "-" +:+ d2 d +:+ s) = Some (days, s).
Proof.
  intros Hy. pose proof (civil_bounds days) as Hb.
  pose proof (days_of_civil_of_days days) as Hr.
  destruct (civil_of_days days) as [[y m] d] eqn:E. simpl in Hy.
  unfold parse_date. repeat read_step. rewrite Hr.
  rewrite bool_decide_eq_true_2 by done.
  replace (1 <=? y) with true by (symmetry; apply Z.leb_le; lia). done.
Qed.

Lemma parse_time_iso tod s :
  0 <= tod < usec_per_day -> expect "." s = None ->
  parse_time (iso_time tod +:+ s) = Some (tod, s).
Proof.
  unfold usec_per_day. intros Ht Hs. unfold parse_time, iso_time.
  set (sec := tod / 1000000). set (f := tod mod 1000000).
  assert (0 <= sec < 86400) as Hsec by (unfold sec; lia).
  assert (0 <= f < 1000000) as Hf by (unfold f; lia).
  assert (tod = sec * 1000000 + f) as Htod by (unfold sec, f; lia).
  rewrite !append_assoc. repeat read_step.
  replace (sec / 3600 <=? 23) with true by (symmetry; apply Z.leb_le; lia).
  replace (sec / 60 mod 60 <=? 59) with true by (symmetry; apply Z.leb_le; lia).
  replace (sec mod 60 <=? 59) with true by (symmetry; apply Z.leb_le; lia).
  cbn [andb].
  destruct (f =? 0) eqn:E; breflect.
  - cbn [String.append]. rewrite Hs. f_equal. f_equal. lia.
  - rewrite append_assoc. repeat read_step. do 2 f_equal. lia.
Qed.

Lemma parse_offset_iso o : -1440 < o < 1440 -> parse_offset (iso_offset o) = Some (Some o).
Proof.
  intros Ho. unfold iso_offset. destruct (o =? 0) eqn:E; breflect; [by subst|].
  assert (Hparse : forall c,
    Ascii.eqb c "+" || Ascii.eqb c "-" = true ->
    parse_offset (String c (d2 (Z.abs o / 60) +:+ ":" +:+ d2 (Z.abs o mod 60)))
    = Some (Some (if Ascii.eqb c "-" then - Z.abs o else Z.abs o))).
  { intros c Hc. unfold parse_offset.
    assert (Hz : c <> "Z"%char) by (intros ->; discriminate).
    rewrite Hc.
    repeat read_step.
    replace (d2 (Z.abs o mod 60)) with (d2 (Z.abs o mod 60) +:+ "") by done.
    repeat read_step.
    replace (Z.abs o / 60 <=? 23) with true by (symmetry; apply Z.leb_le; lia).
    replace (Z.abs o mod 60 <=? 59) with true by (symmetry; apply Z.leb_le; lia).
    cbn [andb String.eqb].
    replace (Z.abs o / 60 * 60 + Z.abs o mod 60) with (Z.abs o) by lia.
    by destruct c as [[] [] [] [] [] [] [] []]. }
  destruct (o <? 0) eqn:E2; breflect; cbn [String.append]; rewrite Hparse by done;
    simpl; do 2 f_equal; lia.
Qed.

(** Reading back the text of a [datetime] gives the same value. *)
Lemma parse_aware_iso d : dt_wf d -> parse_aware (iso d) = Some d.
Proof.
  intros [Hy Ho]. unfold parse_aware, iso, parse_iso.
  set (local := us d + off d * usec_per_min) in *.
  pose proof (parse_date_iso (local / usec_per_day)
    ("T" +:+ iso_time (local mod usec_per_day) +:+ iso_offset (off d)) Hy) as Hp.
  destruct (civil_of_days _) as [[y m] dd]. rewrite Hp.
  cbn [mbind option_bind]. rewrite expect_same. cbn [mbind option_bind].
  rewrite parse_time_iso; [..|unfold iso_offset].
  - cbn [mbind option_bind]. rewrite parse_offset_iso by done. cbn [mbind option_bind].
    destruct d as [u o]. simpl in *. unfold local, usec_per_day, usec_per_min. do 2 f_equal. lia.
  - unfold usec_per_day. lia.
  - destruct (off d =? 0); [done|]. by destruct (off d <? 0).
Qed.

Lemma parse_default_utc_iso d : dt_wf d -> parse_default_utc (iso d) = Some d.
Proof.
  intros H%parse_aware_iso. unfold parse_aware, parse_default_utc in *.
  destruct (parse_iso (iso d)) as [[? [?|]]|]; done.
Qed.

Example iso_epoch : iso (DT 0 0) = "1970-01-01T00:00:00Z".
Proof. reflexivity. Qed.
Example iso_leap : iso (DT 1709164800123456 (-330)) = "2024-02-28T18:30:00.123456-05:30".
Proof. reflexivity. Qed.
Example parse_bad_day : parse_aware "2023-02-29T00:00:00Z" = None.
Proof. reflexivity. Qed.

(** ** What a parser accepts *)

Lemma undigit_bounds c v : undigit c = Some v -> 0 <= v <= 9.
Proof.
  unfold undigit. destruct ((0 <=? ord c - 48) && (ord c - 48 <=? 9)) eqn:E; [|done].
  intros [= <-]. breflect. lia.
Qed.

Lemma digits_bounds n acc s v r : digits n acc s = Some (v, r) ->
  acc * 10 ^ Z.of_nat n <= v < (acc + 1) * 10 ^ Z.of_nat n.
Proof.
  revert acc s. induction n as [|n IH]; intros acc s.
  - intros [= <- <-]. simpl. lia.
  - cbn [digits]. destruct s as [|c s]; [done|]. destruct (undigit c) as [x|] eqn:E; [|done].
    apply undigit_bounds in E. intros H%IH. rewrite Nat2Z.inj_succ, Z.pow_succ_r by lia.
    set (k := 10 ^ Z.of_nat n) in *. assert (0 < k) by (apply Z.pow_pos_nonneg; lia). nia.
Qed.

(** Read the next part of a parser's result. *)
#[local] Ltac part H x E := apply bind_Some in H as (x & E & H); cbv beta iota in H.

Lemma parse_date_bounds s days r : parse_date s = Some (days, r) ->
  1 <= (civil_of_days days).1.1 <= 9999.
Proof.
  unfold parse_date. intros H.
  part H a1 E1. destruct a1 as [y s1]. part H s2 E2. part H a3 E3. destruct a3 as [m s3].
  part H s4 E4. part H a5 E5. destruct a5 as [d s5].
  destruct (bool_decide _ && _) eqn:E; [|discriminate H]. breflect. injection H as <- <-.
  apply digits_bounds in E1. change (10 ^ Z.of_nat 4) with 10000 in E1.
  match goal with H : civil_of_days _ = _ |- _ => rewrite H end. cbn [fst]. lia.
Qed.

Lemma parse_time_bounds s tod r : parse_time s = Some (tod, r) -> 0 <= tod < usec_per_day.
Proof.
  unfold parse_time, usec_per_day. intros H.
  part H a1 E1. destruct a1 as [h s1]. part H s2 E2. part H a3 E3. destruct a3 as [m s3].
  part H s4 E4. part H a5 E5. destruct a5 as [sec s5].
  destruct ((h <=? 23) && (m <=? 59) && (sec <=? 59)) eqn:E; [|discriminate H]. breflect.
  apply digits_bounds in E1, E3, E5. change (10 ^ Z.of_nat 2) with 100 in *.
  destruct (expect "." s5) as [s6|].
  - part H a7 E7. destruct a7 as [f s7]. injection H as <- <-.
    apply digits_bounds in E7. change (10 ^ Z.of_nat 6) with 1000000 in *. lia.
  - injection H as <- <-. lia.
Qed.

Lemma parse_offset_bounds s o : parse_offset s = Some (Some o) -> -1440 < o < 1440.
Proof.
  unfold parse_offset. destruct s as [|c s]; [discriminate|]. intros H.
  assert (Hgen : forall r, (if Ascii.eqb c "+" || Ascii.eqb c "-" then
        '(h, r) ← digits 2 0 r; r ← expect ":" r; '(m, r) ← digits 2 0 r;
        (if (h <=? 23) && (m <=? 59) && String.eqb r "" then
          let o := h * 60 + m in Some (Some (if Ascii.eqb c "-" then - o else o)) else None)
      else None) = Some (Some o) -> -1440 < o < 1440).
  { intros r Hr. destruct (_ || _); [|discriminate Hr].
    part Hr a1 E1. destruct a1 as [h r1]. part Hr r2 E2. part Hr a3 E3. destruct a3 as [m r3].
    destruct ((h <=? 23) && (m <=? 59) && String.eqb r3 "") eqn:E; [|discriminate Hr]. breflect.
    apply digits_bounds in E1, E3. change (10 ^ Z.of_nat 2) with 100 in *.
    injection Hr as <-. destruct (Ascii.eqb c "-"); lia. }
  destruct c as [[] [] [] [] [] [] [] []]; try exact (Hgen s H).
  destruct s; [injection H as <-; lia|exact (Hgen (String a s) H)].
Qed.

(** A timestamp read from text is one Python can represent. *)
Lemma parse_default_utc_wf s d : parse_default_utc s = Some d -> dt_wf d.
Proof.
  unfold parse_default_utc, parse_iso. intros H.
  destruct ('(days, s) ← parse_date s; _) as [[local o]|] eqn:Hp; [|discriminate H].
  part Hp a1 E1. destruct a1 as [days s1]. part Hp s2 E2. part Hp a3 E3. destruct a3 as [tod s3].
  part Hp o' E4. injection Hp as <- <-.
  apply parse_date_bounds in E1. apply parse_time_bounds in E3.
  assert (Hd : (days * usec_per_day + tod) / usec_per_day = days)
    by (rewrite Z.div_add_l, Z.div_small by (unfold usec_per_day in *; lia); lia).
  destruct o' as [o|]; injection H as <-; split; cbn [us off].
  - replace (_ - _ + _) with (days * usec_per_day + tod) by lia. by rewrite Hd.
  - by apply (parse_offset_bounds s3).
  - replace (_ + 0 * _) with (days * usec_per_day + tod) by lia. by rewrite Hd.
  - lia.
Qed.
