(* ===== verification/Json.v ===== *)
(** JSON values, Python's equality and truth value on them, and the canonical
    text [json.dumps(v, sort_keys=True, separators=(",", ":"),
    ensure_ascii=False, allow_nan=False)] that the daemon hashes.

    A finite float is held as its shortest decimal [m * 10^e], the pair its
    [repr] prints and reads back, so comparing and printing floats is exact. *)

From S2P Require Export Time.

Inductive pyfloat := Fin (m e : Z) | Inf (negative : bool) | NaN.

#[export] Instance pyfloat_eq_dec : EqDecision pyfloat.
Proof. solve_decision. Defined.

Inductive json :=
| JNull
| JBool (b : bool)
| JInt (z : Z)
| JFloat (f : pyfloat)
| JStr (s : string)
| JList (l : list json)
| JObj (kvs : list (string * json)).

Section JsonInd.
Variable P : json -> Prop.
Hypothesis Hnull : P JNull.
Hypothesis Hbool : forall b, P (JBool b).
Hypothesis Hint : forall z, P (JInt z).
Hypothesis Hfloat : forall f, P (JFloat f).
Hypothesis Hstr : forall s, P (JStr s).
Hypothesis Hlist : forall l, Forall P l -> P (JList l).
Hypothesis Hobj : forall kvs, Forall (fun kv => P kv.2) kvs -> P (JObj kvs).

Fixpoint json_nested_ind (j : json) : P j :=
  match j with
  | JNull => Hnull
  | JBool b => Hbool b
  | JInt z => Hint z
  | JFloat f => Hfloat f
  | JStr s => Hstr s
  | JList l =>
      Hlist l ((fix go (l : list json) : Forall P l := match l with
                            | [] => Forall_nil_2 _
                            | j :: l' => Forall_cons_2 _ j l' (json_nested_ind j) (go l')
                            end) l)
  | JObj kvs =>
      Hobj kvs ((fix go (kvs : list (string * json)) : Forall (fun kv => P kv.2) kvs :=
                               match kvs with
                               | [] => Forall_nil_2 _
                               | kv :: l' => Forall_cons_2 _ kv l' (json_nested_ind kv.2) (go l')
                               end) kvs)
  end.
End JsonInd.

(** ** Floats *)

(** Compare [m1 * 10^e1] and [m2 * 10^e2]. *)
Definition dec_compare (m1 e1 m2 e2 : Z) : comparison :=
  let k := Z.min e1 e2 in Z.compare (m1 * 10 ^ (e1 - k)) (m2 * 10 ^ (e2 - k)).

Definition is_finite (f : pyfloat) : bool := match f with Fin _ _ => true | _ => false end.

(** [x <= y] and [x < y] between floats; every comparison with NaN is false. *)
Definition float_cmp (x y : pyfloat) : option comparison :=
  match x, y with
  | NaN, _ | _, NaN => None
  | Inf a, Inf b => Some (if Bool.eqb a b then Eq else if a then Lt else Gt)
  | Inf a, Fin _ _ => Some (if a then Lt else Gt)
  | Fin _ _, Inf b => Some (if b then Gt else Lt)
  | Fin m1 e1, Fin m2 e2 => Some (dec_compare m1 e1 m2 e2)
  end.

Definition float_le (x y : pyfloat) : bool :=
  match float_cmp x y with Some Lt | Some Eq => true | _ => false end.
Definition float_lt (x y : pyfloat) : bool :=
  match float_cmp x y with Some Lt => true | _ => false end.
Definition float_eq (x y : pyfloat) : bool :=
  match float_cmp x y with Some Eq => true | _ => false end.

Definition float_of_Z (z : Z) : pyfloat := Fin z 0.

(** Microseconds of a finite number of seconds, as [timedelta(seconds=x)]
    stores them: the exact decimal, rounded half to even. *)
Definition float_us (f : pyfloat) : Z :=
  match f with
  | Fin m e => if 0 <=? e + 6 then m * 10 ^ (e + 6) else div_half_even m (10 ^ (- (e + 6)))
  | _ => 0
  end.

(** ** Access *)

Definition jget (k : string) (j : json) : option json :=
  match j with JObj kvs => dget kvs k | _ => None end.

Definition is_obj (j : json) : bool := match j with JObj _ => true | _ => false end.
Definition is_list (j : json) : bool := match j with JList _ => true | _ => false end.
Definition as_str (j : json) : option string := match j with JStr s => Some s | _ => None end.
Definition as_obj (j : json) : option (dict json) := match j with JObj d => Some d | _ => None end.

(** [bool(v)] *)
Definition truthy (j : json) : bool :=
  match j with
  | JNull => false
  | JBool b => b
  | JInt z => negb (z =? 0)
  | JFloat f => negb (float_eq f (Fin 0 0))
  | JStr s => truthy_str s
  | JList l => negb match l with [] => true | _ => false end
  | JObj kvs => match kvs with [] => false | _ => true end
  end.

(** [d.get(k) == s] for a text [s]. *)
Definition str_at (d : dict json) (k s : string) : bool :=
  match dget d k with Some (JStr t) => String.eqb t s | _ => false end.

(** [d.get(k) is True] *)
Definition is_true_at (k : string) (j : json) : bool :=
  match jget k j with Some (JBool true) => true | _ => false end.

(** [d.get(k)] as a truth value. *)
Definition truthy_at (k : string) (j : json) : bool :=
  match jget k j with Some v => truthy v | None => false end.

(** ** Python equality: booleans, integers and floats compare by value,
    dictionaries regardless of order. *)

Definition num_of (j : json) : option pyfloat :=
  match j with
  | JBool b => Some (float_of_Z (if b then 1 else 0))
  | JInt z => Some (float_of_Z z)
  | JFloat f => Some f
  | _ => None
  end.

Fixpoint py_eqb (a b : json) {struct a} : bool :=
  match a, b with
  | JNull, JNull => true
  | JStr s, JStr t => String.eqb s t
  | JList l, JList r =>
      (fix go l r := match l, r with
                     | [], [] => true
                     | x :: l', y :: r' => py_eqb x y && go l' r'
                     | _, _ => false
                     end) l r
  | JObj d, JObj e =>
      (Nat.eqb (length d) (length e)) &&
      (fix go (d : list (string * json)) :=
         match d with
         | [] => true
         | (k, x) :: d' => match dget e k with Some y => py_eqb x y | None => false end && go d'
         end) d
  | _, _ => match num_of a, num_of b with Some x, Some y => float_eq x y | _, _ => false end
  end.

(** ** Canonical text *)

Definition hex_digit (z : Z) : ascii :=
  if z <=? 9 then digit z else ascii_of_N (Z.to_N (87 + z)).

Definition escape_char (c : ascii) : string :=
  let o := ord c in
  if o =? 34 then String "\" (String c "")
  else if o =? 92 then "\\"
  else if o =? 10 then "\n"
  else if o =? 13 then "\r"
  else if o =? 9 then "\t"
  else if o =? 8 then "\b"
  else if o =? 12 then "\f"
  else if o <? 32 then "\u00" +:+ String (hex_digit (o / 16)) (String (hex_digit (o mod 16)) "")
  else String c "".

Fixpoint escape (s : string) : string :=
  match s with EmptyString => "" | String c s' => escape_char c +:+ escape s' end.

Definition dquote : string := String (ascii_of_N 34) "".
Definition quote (s : string) : string := dquote +:+ escape s +:+ dquote.

Definition join (sep : string) (l : list string) : string := String.concat sep l.

Fixpoint zeros (n : nat) : string :=
  match n with O => "" | S n' => String "0" (zeros n') end.

(** Remove the trailing zeros of a mantissa ([fuel] digits at most). *)
Fixpoint dec_norm (fuel : nat) (m e : Z) : Z * Z :=
  match fuel with
  | O => (m, e)
  | S n => if (m =? 0) then (0, 0) else if m mod 10 =? 0 then dec_norm n (m / 10) (e + 1) else (m, e)
  end.

(** [repr] of a finite float. *)
Definition float_repr (m e : Z) : string :=
  let '(m, e) := dec_norm (Z.to_nat (Z.log2_up (Z.abs m) + 1)) m e in
  let ds := Z_to_str (Z.abs m) in
  let n := len ds in
  let pt := n + e in
  let sign := if m <? 0 then "-" else "" in
  sign +:+
  if m =? 0 then "0.0"
  else if (-4 <? pt) && (pt <=? 16) then
    if pt <=? 0 then "0." +:+ zeros (Z.to_nat (- pt)) +:+ ds
    else if n <=? pt then ds +:+ zeros (Z.to_nat (pt - n)) +:+ ".0"
    else String.substring 0 (Z.to_nat pt) ds +:+ "."
         +:+ String.substring (Z.to_nat pt) (Z.to_nat (n - pt)) ds
  else
    let x := pt - 1 in
    String.substring 0 1 ds
    +:+ (if n <=? 1 then "" else "." +:+ String.substring 1 (Z.to_nat (n - 1)) ds)
    +:+ "e" +:+ (if x <? 0 then "-" else "+")
    +:+ (if Z.abs x <? 10 then "0" else "") +:+ Z_to_str (Z.abs x).

(** Keys in code-point order, for [sort_keys=True]. *)
Fixpoint kv_add {V} (kv : string * V) (d : list (string * V)) : list (string * V) :=
  match d with
  | [] => [kv]
  | kv' :: d' => match String.compare kv.1 kv'.1 with
                 | Gt => kv' :: kv_add kv d'
                 | _ => kv :: d
                 end
  end.

Definition sort_keys {V} (d : list (string * V)) : list (string * V) := foldr kv_add [] d.

(** [None] where [json.dumps] raises [ValueError] (NaN or an infinity). *)
Fixpoint dumps (j : json) : option string :=
  match j with
  | JNull => Some "null"
  | JBool b => Some (if b then "true" else "false")
  | JInt z => Some (Z_to_str z)
  | JFloat (Fin m e) => Some (float_repr m e)
  | JFloat _ => None
  | JStr s => Some (quote s)
  | JList l =>
      parts ← (fix go l := match l with
                           | [] => Some []
                           | x :: l' => s ← dumps x; r ← go l'; Some (s :: r)
                           end) l;
      Some ("[" +:+ join "," parts +:+ "]")
  | JObj d =>
      parts ← (fix go (d : list (string * json)) :=
                 match d with
                 | [] => Some []
                 | (k, x) :: d' => s ← dumps x; r ← go d'; Some ((k, s) :: r)
                 end) d;
      Some ("{" +:+ join "," (map (fun kv => quote kv.1 +:+ ":" +:+ kv.2) (sort_keys parts))
            +:+ "}")
  end.

Example dumps_ex :
  dumps (JObj [("b", JList [JInt (-3); JFloat (Fin 305 (-1)); JBool true]); ("a", JStr "x")])
  = Some ("{" +:+ quote "a" +:+ ":" +:+ quote "x" +:+ "," +:+ quote "b" +:+ ":[-3,30.5,true]}").
Proof. reflexivity. Qed.
Example float_repr_ex :
  map (fun p => float_repr p.1 p.2) [(30, 0); (15, 15); (1, 16); (1, -5); (-125, -3)]
  = ["30.0"; "1.5e+16"; "1e+16"; "1e-05"; "-0.125"].
Proof. reflexivity. Qed.

(** ** Unambiguous text: what the MAC chain relies on *)

(** Read one escaped character back. *)
Definition unhex (c : ascii) : Z := let o := ord c in if o <=? 57 then o - 48 else o - 87.

Definition unescape_char (s : string) : option (ascii * string) :=
  match s with
  | String "\" (String "u" (String _ (String _ (String a (String b r))))) =>
      Some (ascii_of_N (Z.to_N (unhex a * 16 + unhex b)), r)
  | String "\" (String c r) =>
      Some (if Ascii.eqb c "n" then ascii_of_N 10
            else if Ascii.eqb c "r" then ascii_of_N 13
            else if Ascii.eqb c "t" then ascii_of_N 9
            else if Ascii.eqb c "b" then ascii_of_N 8
            else if Ascii.eqb c "f" then ascii_of_N 12 else c, r)
  | String c r => Some (c, r)
  | EmptyString => None
  end.

Lemma unescape_escape_char c r : unescape_char (escape_char c +:+ r) = Some (c, r).
Proof. by destruct c as [[] [] [] [] [] [] [] []]. Qed.

Lemma escape_char_not_quote c r r' : escape_char c +:+ r <> dquote +:+ r'.
Proof. by destruct c as [[] [] [] [] [] [] [] []]. Qed.

Lemma quote_body_inj s s' r r' :
  escape s +:+ dquote +:+ r = escape s' +:+ dquote +:+ r' -> s = s' /\ r = r'.
Proof.
  revert s'. induction s as [|c s IH]; intros [|c' s']; cbn [escape]; intros H.
  - cbn [String.append] in H. unfold dquote in H. simpl in H. by injection H as H.
  - exfalso. rewrite append_assoc in H. cbn [String.append] in H.
    symmetry in H. by apply escape_char_not_quote in H.
  - exfalso. rewrite append_assoc in H. cbn [String.append] in H.
    by apply escape_char_not_quote in H.
  - rewrite !append_assoc in H. apply (f_equal unescape_char) in H.
    rewrite !unescape_escape_char in H. injection H as -> H.
    apply IH in H as [-> ->]. done.
Qed.

(** Two quoted strings at the head of equal texts are the same string. *)
Lemma quote_inj s s' r r' : quote s +:+ r = quote s' +:+ r' -> s = s' /\ r = r'.
Proof.
  unfold quote. rewrite !append_assoc. intros H.
  unfold dquote in H at 1 3. simpl in H. injection H as H. by apply quote_body_inj in H.
Qed.

Lemma append_inv_head (p a b : string) : p +:+ a = p +:+ b -> a = b.
Proof. induction p; simpl; intros H; [done|]. injection H as H. auto. Qed.

(** ** [json.loads(json.dumps(v, sort_keys=True))]: every object's keys sorted *)

Fixpoint canon (j : json) : json :=
  match j with
  | JList l => JList (map canon l)
  | JObj d => JObj (sort_keys (map (fun kv => (kv.1, canon kv.2)) d))
  | _ => j
  end.

Section SortKeys.
Context {V : Type}.
Implicit Types (d : list (string * V)) (kv : string * V).

Lemma kv_add_perm kv d : Permutation (kv_add kv d) (kv :: d).
Proof.
  induction d as [|kv' d IH]; simpl; [done|].
  destruct (String.compare kv.1 kv'.1); [done|done|].
  rewrite IH. apply perm_swap.
Qed.

Lemma sort_keys_perm d : Permutation (sort_keys d) d.
Proof. induction d as [|kv d IH]; simpl; [done|]. by rewrite kv_add_perm, IH. Qed.

Lemma dget_kv_add kv d k :
  dget (kv_add kv d) k = if decide (kv.1 = k) then Some kv.2 else dget d k.
Proof.
  destruct kv as [k1 v1]. induction d as [|[k2 v2] d IH]; simpl; [done|].
  destruct (String.compare k1 k2) eqn:E; simpl; [done|done|].
  rewrite IH. simpl. repeat case_decide; subst; try done.
  simpl in *. pose proof (String.compare_antisym k1 k1) as Ha. by rewrite E in Ha.
Qed.

(** Sorting changes no lookup. *)
Lemma dget_sort_keys d k : dget (sort_keys d) k = dget d k.
Proof.
  induction d as [|[k1 v1] d IH]; simpl; [done|]. by rewrite dget_kv_add, IH.
Qed.

Definition kv_le kv kv' : Prop := String.compare kv.1 kv'.1 <> Gt.

Lemma kv_add_sorted kv d : Sorted kv_le d -> Sorted kv_le (kv_add kv d).
Proof.
  induction d as [|kv' d IH]; simpl; intros Hs; [by repeat constructor|].
  inversion Hs as [|? ? Hs' Hh]; subst.
  destruct (String.compare kv.1 kv'.1) eqn:E;
    try (constructor; [done|]; constructor; unfold kv_le; congruence).
  constructor; [by apply IH|].
  assert (Hle : kv_le kv' kv).
  { unfold kv_le. rewrite String.compare_antisym, E. done. }
  destruct d as [|kv2 d]; simpl; [by constructor|].
  inversion Hh; subst. destruct (String.compare kv.1 kv2.1); by constructor.
Qed.

Lemma sort_keys_sorted d : Sorted kv_le (sort_keys d).
Proof. induction d; simpl; [constructor | by apply kv_add_sorted]. Qed.

Lemma sort_keys_id d : Sorted kv_le d -> sort_keys d = d.
Proof.
  induction d as [|kv d IH]; simpl; [done|]. intros Hs.
  inversion Hs as [|? ? Hs' Hh]; subst. rewrite IH by done.
  destruct d as [|kv' d]; simpl; [done|]. inversion Hh as [|? ? Hle]; subst.
  unfold kv_le in Hle. by destruct (String.compare kv.1 kv'.1).
Qed.

Lemma sort_keys_idem d : sort_keys (sort_keys d) = sort_keys d.
Proof. apply sort_keys_id, sort_keys_sorted. Qed.
End SortKeys.

Lemma Forall2_kv_add {V W} (R : string * V -> string * W -> Prop) kv kw d e :
  (forall x y, R x y -> x.1 = y.1) ->
  R kv kw -> Forall2 R d e -> Forall2 R (kv_add kv d) (kv_add kw e).
Proof.
  intros Hk Hr Hd. induction Hd as [|x y d e Hxy Hd IH]; simpl; [by repeat constructor|].
  rewrite (Hk _ _ Hr), (Hk _ _ Hxy).
  destruct (String.compare kw.1 y.1); repeat constructor; auto.
Qed.

Lemma Forall2_sort_keys {V W} (R : string * V -> string * W -> Prop) d e :
  (forall x y, R x y -> x.1 = y.1) ->
  Forall2 R d e -> Forall2 R (sort_keys d) (sort_keys e).
Proof. intros Hk. induction 1; simpl; [constructor | by apply Forall2_kv_add]. Qed.

Definition dump_entry (kv : string * json) : option (string * string) :=
  s ← dumps kv.2; Some (kv.1, s).

Lemma dump_entry_eq k x : dump_entry (k, x) = (s ← dumps x; Some (k, s)).
Proof. done. Qed.

Lemma dumps_JList l :
  dumps (JList l) = (parts ← mapM dumps l; Some ("[" +:+ join "," parts +:+ "]")).
Proof.
  cbn [dumps]. f_equal.
Qed.

Lemma dumps_JObj d :
  dumps (JObj d) =
  (parts ← mapM dump_entry d;
   Some ("{" +:+ join "," (map (fun kv => quote kv.1 +:+ ":" +:+ kv.2) (sort_keys parts))
         +:+ "}")).
Proof.
  cbn [dumps]. f_equal. induction d as [|[k x] d IH]; [done|]. cbn [mapM].
  rewrite dump_entry_eq, <- IH. by destruct (dumps x).
Qed.

Lemma mapM_dump_sort d :
  mapM dump_entry (sort_keys d) = sort_keys <$> mapM dump_entry d.
Proof.
  assert (Hk : forall x y, dump_entry x = Some y -> x.1 = y.1).
  { intros x y H. unfold dump_entry in H. by destruct (dumps x.2); simplify_eq/=. }
  destruct (mapM dump_entry d) as [ps|] eqn:E; simpl.
  - apply mapM_Some. apply mapM_Some in E. by apply Forall2_sort_keys.
  - destruct (mapM dump_entry (sort_keys d)) as [qs|] eqn:E'; [|done].
    assert (Hs : is_Some (mapM dump_entry d)).
    { apply mapM_is_Some_2. rewrite <- (sort_keys_perm d).
      apply mapM_is_Some_1. by eexists. }
    rewrite E in Hs. by destruct Hs.
Qed.

(** Re-encoding a decoded value gives the same text. *)
Lemma dumps_canon j : dumps (canon j) = dumps j.
Proof.
  induction j as [| | | | |l IH|d IH] using json_nested_ind; [done..| |]; cbn [canon].
  - rewrite !dumps_JList. f_equal.
    induction IH as [|x l Hx _ IH]; simpl; [done|]. by rewrite Hx, IH.
  - rewrite !dumps_JObj, mapM_dump_sort.
    assert (Hm : mapM dump_entry (map (fun kv => (kv.1, canon kv.2)) d) = mapM dump_entry d).
    { induction IH as [|[k x] d Hx _ IH]; [done|]. cbn [map mapM fst snd] in *.
      by rewrite !dump_entry_eq, Hx, IH. }
    rewrite Hm. destruct (mapM dump_entry d); simpl; [|done]. by rewrite sort_keys_idem.
Qed.

Lemma jget_canon k j : jget k (canon j) = canon <$> jget k j.
Proof.
  destruct j as [| | | | | |d]; try done. simpl. rewrite dget_sort_keys.
  induction d as [|[k' x] d IH]; simpl; [done|]. by case_decide.
Qed.

(** ** Objects with the same keys: equal texts come from equal entries *)

(** Two texts that cannot be mistaken for each other at the head of a text. *)
Definition separable (s s' : string) : Prop :=
  forall r r', s +:+ r = s' +:+ r' -> s = s' /\ r = r'.

Definition entry_text (kv : string * string) : string := quote kv.1 +:+ ":" +:+ kv.2.

Definition same_entry (e e' : string * string) : Prop := e.1 = e'.1 /\ separable e.2 e'.2.

Lemma separable_quote s s' : separable (quote s) (quote s').
Proof. intros r r' Hq. by apply quote_inj in Hq as [-> ->]. Qed.

Lemma join_cons x l s :
  join "," (x :: l) +:+ s =
  x +:+ match l with [] => s | _ => "," +:+ (join "," l +:+ s) end.
Proof. destruct l; [done|]. unfold join. cbn [String.concat]. by rewrite !append_assoc. Qed.

Lemma entry_text_inj e e' r r' :
  same_entry e e' -> entry_text e +:+ r = entry_text e' +:+ r' -> e = e' /\ r = r'.
Proof.
  destruct e as [k t], e' as [k' t']. intros [Hk Ht] He. simpl in Hk. subst k'.
  unfold entry_text in He. cbn [fst snd] in *. rewrite !append_assoc in He.
  by apply append_inv_head, append_inv_head, Ht in He as [-> ->].
Qed.

Lemma joined_inj l l' : Forall2 same_entry l l' -> forall r r',
  join "," (map entry_text l) +:+ "}" +:+ r = join "," (map entry_text l') +:+ "}" +:+ r' ->
  l = l' /\ r = r'.
Proof.
  induction 1 as [|e e' l l' He Hl IH]; intros r r' Hj.
  - simpl in Hj. by injection Hj as ->.
  - cbn [map] in Hj. rewrite !join_cons in Hj. apply entry_text_inj in Hj as [-> Hj]; [|done].
    destruct Hl as [|x y l l' Hx Hl]; cbn [map] in Hj.
    + by apply append_inv_head in Hj as ->.
    + apply append_inv_head in Hj. apply IH in Hj as [-> ->]. done.
Qed.

(** Values whose texts are separable. *)
Definition separate (j j' : json) : Prop :=
  forall t t', dumps j = Some t -> dumps j' = Some t' -> separable t t'.

Definition same_field (kv kv' : string * json) : Prop := kv.1 = kv'.1 /\ separate kv.2 kv'.2.

Lemma separate_str s s' : separate (JStr s) (JStr s').
Proof. intros t t' [= <-] [= <-]. apply separable_quote. Qed.

Lemma parts_same d d' ps ps' :
  Forall2 same_field d d' -> mapM dump_entry d = Some ps -> mapM dump_entry d' = Some ps' ->
  Forall2 same_entry ps ps'.
Proof.
  intros Hd Hp%mapM_Some Hp'%mapM_Some. revert ps ps' Hp Hp'.
  induction Hd as [|[k x] [k' x'] d d' [Hk Hx] Hd IH]; intros ps ps' Hp Hp'.
  - inversion Hp. inversion Hp'. constructor.
  - inversion Hp as [|? y ? ps1 Hy Hp1]; inversion Hp' as [|? y' ? ps1' Hy' Hp1']; subst.
    constructor; [|auto]. simpl in Hk. subst k'. rewrite dump_entry_eq in Hy, Hy'.
    simpl in Hx. destruct (dumps x) eqn:E, (dumps x') eqn:E'; simplify_eq/=.
    split; [done|]. by apply Hx.
Qed.

Lemma dumps_obj_text d t : dumps (JObj d) = Some t <->
  exists ps, mapM dump_entry d = Some ps /\
    t = "{" +:+ join "," (map entry_text (sort_keys ps)) +:+ "}".
Proof.
  rewrite dumps_JObj. destruct (mapM dump_entry d) as [ps|]; simpl; split.
  - intros [= <-]. by exists ps.
  - intros (? & [= <-] & ->). done.
  - done.
  - by intros (? & ? & _).
Qed.

Lemma object_inj d d' t t' r r' :
  Forall2 same_field d d' -> dumps (JObj d) = Some t -> dumps (JObj d') = Some t' ->
  t +:+ r = t' +:+ r' ->
  (exists ps ps', mapM dump_entry d = Some ps /\ mapM dump_entry d' = Some ps' /\
     sort_keys ps = sort_keys ps' /\ Forall2 same_entry ps ps') /\ t = t' /\ r = r'.
Proof.
  intros Hd (ps & Hp & ->)%dumps_obj_text (ps' & Hp' & ->)%dumps_obj_text Ht.
  pose proof (parts_same _ _ _ _ Hd Hp Hp') as Hs.
  rewrite !append_assoc in Ht. apply append_inv_head, joined_inj in Ht as [Heq ->].
  - split; [|by rewrite Heq]. by exists ps, ps'.
  - apply Forall2_sort_keys; [|done]. by intros x y [].
Qed.

Lemma separate_obj d d' : Forall2 same_field d d' -> separate (JObj d) (JObj d').
Proof. intros Hd t t' Ht Ht' r r' He. by eapply object_inj in He as [_ ?]. Qed.

Lemma same_keys_eq (ps ps' : dict string) :
  dkeys ps = dkeys ps' -> dwf ps -> sort_keys ps = sort_keys ps' -> ps = ps'.
Proof.
  intros Hk Hw Hs. assert (Hw' : dwf ps') by (unfold dwf in *; congruence).
  assert (Hg : forall k, dget ps k = dget ps' k).
  { intros k. by rewrite <- (dget_sort_keys ps), <- (dget_sort_keys ps'), Hs. }
  apply list_eq. intros i. apply (f_equal (fun l => l !! i)) in Hk. unfold dkeys in Hk.
  rewrite !list_lookup_fmap in Hk.
  destruct (ps !! i) as [[k v]|] eqn:E, (ps' !! i) as [[k' v']|] eqn:E'; simplify_eq/=; [|done].
  apply list_elem_of_lookup_2, dget_Some in E, E'; [|done..]. rewrite Hg in E. congruence.
Qed.

(** Objects with the same distinct keys and separable values have the same text
    only if each value has the same text. *)
Lemma dumps_obj_inj d d' t : dwf d -> Forall2 same_field d d' ->
  dumps (JObj d) = Some t -> dumps (JObj d') = Some t ->
  Forall2 (fun kv kv' => kv.1 = kv'.1 /\ dumps kv.2 = dumps kv'.2) d d'.
Proof.
  intros Hw Hd Ht Ht'.
  destruct (object_inj d d' t t "" "" Hd Ht Ht' eq_refl) as ((ps & ps' & Hp & Hp' & Hs & Hss) & _).
  assert (Hk : forall d ps, mapM dump_entry d = Some ps -> dkeys ps = dkeys d).
  { clear. intros d ps Hp%mapM_Some. induction Hp as [|[k x] y d ps Hy Hp IH]; [done|].
    unfold dkeys in *. cbn [fmap list_fmap fst]. rewrite dump_entry_eq in Hy.
    destruct (dumps x); simplify_eq/=. by rewrite IH. }
  assert (ps = ps') as <-.
  { apply same_keys_eq; [|by unfold dwf in *; rewrite (Hk _ _ Hp)|done].
    rewrite (Hk _ _ Hp), (Hk _ _ Hp'). clear -Hd.
    induction Hd as [|x y d d' [Hxy _] _ IH]; [done|].
    unfold dkeys in *. rewrite !fmap_cons. by f_equal. }
  clear -Hp Hp' Hd. apply mapM_Some in Hp, Hp'. revert ps Hp Hp'.
  induction Hd as [|[k x] [k' x'] d d' [Hk Hx] Hd IH]; intros ps Hp Hp'; [constructor|].
  inversion Hp as [|? y ? ps1 Hy Hp1]; inversion Hp' as [|? y' ? ps1' Hy' Hp1']; subst.
  simplify_eq. constructor; [|eauto]. split; [done|].
  rewrite dump_entry_eq in Hy, Hy'. simpl.
  destruct (dumps x) eqn:E, (dumps x') eqn:E'; simplify_eq/=; congruence.
Qed.
