(* ===== verification/Contracts.v ===== *)
(** Versioned action contracts: src/src/rosclaw/kernel/contracts.py.

    The enumerations, [AuthorizationContext], [VerificationPolicy],
    [ActionEnvelope] with its construction checks and dictionary form,
    [ExecutionReceipt] with its trust properties, and the emergency-stop
    receipt. *)

From S2P Require Export Json.

(** The exceptions a contract raises. [Unmodelled] stands for inputs on which
    Python calls [str] or [dict] on a nested container or non-dictionary. *)
Inductive pyexc := TypeError | ValueError | AttributeError | KeyError | Unmodelled.

#[export] Instance pyexc_eq_dec : EqDecision pyexc.
Proof. solve_decision. Defined.

(** ** String enumerations *)

(** What [enum.StrEnum] gives the code: a value per member, and lookup by
    value. *)
Class StrEnum (T : Type) := {
  se_eq_dec :: EqDecision T;
  se_members : list T;
  se_value : T -> string;
  se_total : forall x, x ∈ se_members;
  se_inj : forall x y, se_value x = se_value y -> x = y;
}.

Section StrEnum.
Context `{StrEnum T}.

Fixpoint se_find (l : list T) (s : string) : option T :=
  match l with
  | [] => None
  | x :: l' => if String.eqb (se_value x) s then Some x else se_find l' s
  end.

(** [T(s)], [None] where it raises [ValueError]. *)
Definition se_parse (s : string) : option T := se_find se_members s.

Lemma se_find_some l s x : se_find l s = Some x -> se_value x = s.
Proof.
  induction l as [|y l IH]; simpl; [done|].
  destruct (String.eqb_spec (se_value y) s); intros; simplify_eq; auto.
Qed.

Lemma se_find_value l x : x ∈ l -> se_find l (se_value x) = Some x.
Proof.
  induction l as [|y l IH]; simpl; [intros Hx; inversion Hx|].
  intros Hx. destruct (String.eqb_spec (se_value y) (se_value x)) as [He|Hne].
  - by apply se_inj in He as ->.
  - apply elem_of_cons in Hx as [->|Hx]; [done|auto].
Qed.

Lemma se_parse_value x : se_parse (se_value x) = Some x.
Proof. apply se_find_value, se_total. Qed.

Lemma se_parse_some s x : se_parse s = Some x -> se_value x = s.
Proof. apply se_find_some. Qed.
End StrEnum.

#[export] Program Instance StrEnum_countable `{StrEnum T} : Countable T :=
  inj_countable se_value se_parse _.
Next Obligation. intros T ? x. apply se_parse_value. Qed.

Ltac solve_enum :=
  first [ solve [intros []; repeat first [apply list_elem_of_here | apply list_elem_of_further]]
        | solve [intros [] []; simpl; intros Hv; first [reflexivity | discriminate Hv]] ].

Inductive ExecutionMode := FIXTURE | DRY_RUN | REPLAY | SIMULATION | SHADOW | REAL.

Definition ExecutionMode_value (m : ExecutionMode) : string :=
  match m with
  | FIXTURE => "FIXTURE" | DRY_RUN => "DRY_RUN" | REPLAY => "REPLAY"
  | SIMULATION => "SIMULATION" | SHADOW => "SHADOW" | REAL => "REAL"
  end.

#[export] Instance ExecutionMode_eq_dec : EqDecision ExecutionMode.
Proof. solve_decision. Defined.
#[export] Program Instance ExecutionMode_enum : StrEnum ExecutionMode :=
  {| se_members := [FIXTURE; DRY_RUN; REPLAY; SIMULATION; SHADOW; REAL];
     se_value := ExecutionMode_value |}.
Solve All Obligations with solve_enum.

Inductive OrphanPolicy :=
| STOP_ON_CLIENT_LOSS | CANCEL_ON_CLIENT_LOSS | CONTINUE_UNTIL_DEADLINE
| OPERATOR_HANDOFF_REQUIRED.

Definition OrphanPolicy_value (p : OrphanPolicy) : string :=
  match p with
  | STOP_ON_CLIENT_LOSS => "STOP_ON_CLIENT_LOSS"
  | CANCEL_ON_CLIENT_LOSS => "CANCEL_ON_CLIENT_LOSS"
  | CONTINUE_UNTIL_DEADLINE => "CONTINUE_UNTIL_DEADLINE"
  | OPERATOR_HANDOFF_REQUIRED => "OPERATOR_HANDOFF_REQUIRED"
  end.

#[export] Instance OrphanPolicy_eq_dec : EqDecision OrphanPolicy.
Proof. solve_decision. Defined.
#[export] Program Instance OrphanPolicy_enum : StrEnum OrphanPolicy :=
  {| se_members := [STOP_ON_CLIENT_LOSS; CANCEL_ON_CLIENT_LOSS; CONTINUE_UNTIL_DEADLINE;
                    OPERATOR_HANDOFF_REQUIRED];
     se_value := OrphanPolicy_value |}.
Solve All Obligations with solve_enum.

(** Members are prefixed where two enumerations of the module share a name. *)
Inductive AcknowledgementStage :=
| ACK_REQUEST_ACCEPTED | ACK_COMMAND_DISPATCHED | ACK_PROTOCOL_ACKNOWLEDGED
| ACK_DELIVERY_INFERRED | ACK_EFFECT_OBSERVED | ACK_TASK_VERIFIED.

Definition AcknowledgementStage_value (a : AcknowledgementStage) : string :=
  match a with
  | ACK_REQUEST_ACCEPTED => "REQUEST_ACCEPTED"
  | ACK_COMMAND_DISPATCHED => "COMMAND_DISPATCHED"
  | ACK_PROTOCOL_ACKNOWLEDGED => "PROTOCOL_ACKNOWLEDGED"
  | ACK_DELIVERY_INFERRED => "DELIVERY_INFERRED"
  | ACK_EFFECT_OBSERVED => "EFFECT_OBSERVED"
  | ACK_TASK_VERIFIED => "TASK_VERIFIED"
  end.

#[export] Instance AcknowledgementStage_eq_dec : EqDecision AcknowledgementStage.
Proof. solve_decision. Defined.
#[export] Program Instance AcknowledgementStage_enum : StrEnum AcknowledgementStage :=
  {| se_members := [ACK_REQUEST_ACCEPTED; ACK_COMMAND_DISPATCHED; ACK_PROTOCOL_ACKNOWLEDGED;
                    ACK_DELIVERY_INFERRED; ACK_EFFECT_OBSERVED; ACK_TASK_VERIFIED];
     se_value := AcknowledgementStage_value |}.
Solve All Obligations with solve_enum.

Inductive ActionState :=
| PROPOSED | GROUNDED | POLICY_VALIDATED | SIMULATION_VALIDATED | AUTHORIZATION_REQUIRED
| AUTHORIZED | WAITING_RESOURCE | SCHEDULED | REQUEST_ACCEPTED | COMMAND_DISPATCHED
| PROTOCOL_ACKNOWLEDGED | DELIVERY_INFERRED | EFFECT_OBSERVED | DISPATCHED
| DRIVER_ACKNOWLEDGED | STATE_PHYSICALLY_OBSERVED | STATE_TASK_VERIFIED | COMPLETED | BLOCKED
| FAILED | CANCELLED | TIMED_OUT | ORPHANED | DEGRADED.

Definition ActionState_value (s : ActionState) : string :=
  match s with
  | PROPOSED => "PROPOSED" | GROUNDED => "GROUNDED" | POLICY_VALIDATED => "POLICY_VALIDATED"
  | SIMULATION_VALIDATED => "SIMULATION_VALIDATED"
  | AUTHORIZATION_REQUIRED => "AUTHORIZATION_REQUIRED" | AUTHORIZED => "AUTHORIZED"
  | WAITING_RESOURCE => "WAITING_RESOURCE" | SCHEDULED => "SCHEDULED"
  | REQUEST_ACCEPTED => "REQUEST_ACCEPTED" | COMMAND_DISPATCHED => "COMMAND_DISPATCHED"
  | PROTOCOL_ACKNOWLEDGED => "PROTOCOL_ACKNOWLEDGED" | DELIVERY_INFERRED => "DELIVERY_INFERRED"
  | EFFECT_OBSERVED => "EFFECT_OBSERVED" | DISPATCHED => "DISPATCHED"
  | DRIVER_ACKNOWLEDGED => "DRIVER_ACKNOWLEDGED"
  | STATE_PHYSICALLY_OBSERVED => "PHYSICALLY_OBSERVED"
  | STATE_TASK_VERIFIED => "TASK_VERIFIED" | COMPLETED => "COMPLETED" | BLOCKED => "BLOCKED"
  | FAILED => "FAILED" | CANCELLED => "CANCELLED" | TIMED_OUT => "TIMED_OUT"
  | ORPHANED => "ORPHANED" | DEGRADED => "DEGRADED"
  end.

#[export] Instance ActionState_eq_dec : EqDecision ActionState.
Proof. solve_decision. Defined.
#[export] Program Instance ActionState_enum : StrEnum ActionState :=
  {| se_members := [PROPOSED; GROUNDED; POLICY_VALIDATED; SIMULATION_VALIDATED;
       AUTHORIZATION_REQUIRED; AUTHORIZED; WAITING_RESOURCE; SCHEDULED; REQUEST_ACCEPTED;
       COMMAND_DISPATCHED; PROTOCOL_ACKNOWLEDGED; DELIVERY_INFERRED; EFFECT_OBSERVED; DISPATCHED;
       DRIVER_ACKNOWLEDGED; STATE_PHYSICALLY_OBSERVED; STATE_TASK_VERIFIED; COMPLETED; BLOCKED;
       FAILED; CANCELLED; TIMED_OUT; ORPHANED; DEGRADED];
     se_value := ActionState_value |}.
Solve All Obligations with solve_enum.

Inductive EvidenceLevel :=
| SYNTHETIC | REQUESTED | DISPATCH_CONFIRMED | DRIVER_CONFIRMED | PHYSICALLY_OBSERVED
| TASK_VERIFIED.

Definition EvidenceLevel_value (l : EvidenceLevel) : string :=
  match l with
  | SYNTHETIC => "SYNTHETIC" | REQUESTED => "REQUESTED"
  | DISPATCH_CONFIRMED => "DISPATCH_CONFIRMED" | DRIVER_CONFIRMED => "DRIVER_CONFIRMED"
  | PHYSICALLY_OBSERVED => "PHYSICALLY_OBSERVED" | TASK_VERIFIED => "TASK_VERIFIED"
  end.

#[export] Instance EvidenceLevel_eq_dec : EqDecision EvidenceLevel.
Proof. solve_decision. Defined.
#[export] Program Instance EvidenceLevel_enum : StrEnum EvidenceLevel :=
  {| se_members := [SYNTHETIC; REQUESTED; DISPATCH_CONFIRMED; DRIVER_CONFIRMED;
                    PHYSICALLY_OBSERVED; TASK_VERIFIED];
     se_value := EvidenceLevel_value |}.
Solve All Obligations with solve_enum.

Inductive EvidenceDomain := DOM_FIXTURE | DOM_SIMULATION | DOM_REPLAY | DOM_SHADOW | HARDWARE.

Definition EvidenceDomain_value (d : EvidenceDomain) : string :=
  match d with
  | DOM_FIXTURE => "FIXTURE" | DOM_SIMULATION => "SIMULATION" | DOM_REPLAY => "REPLAY"
  | DOM_SHADOW => "SHADOW" | HARDWARE => "HARDWARE"
  end.

#[export] Instance EvidenceDomain_eq_dec : EqDecision EvidenceDomain.
Proof. solve_decision. Defined.
#[export] Program Instance EvidenceDomain_enum : StrEnum EvidenceDomain :=
  {| se_members := [DOM_FIXTURE; DOM_SIMULATION; DOM_REPLAY; DOM_SHADOW; HARDWARE];
     se_value := EvidenceDomain_value |}.
Solve All Obligations with solve_enum.

Definition evidence_domain_for_mode (m : ExecutionMode) : EvidenceDomain :=
  match m with
  | FIXTURE | DRY_RUN => DOM_FIXTURE
  | REPLAY => DOM_REPLAY
  | SIMULATION => DOM_SIMULATION
  | SHADOW => DOM_SHADOW
  | REAL => HARDWARE
  end.

(** ** Coercions the parsers apply to untyped dictionary values *)

(** [str(v)] of a scalar. *)
Definition py_str (j : json) : result pyexc string :=
  match j with
  | JNull => Ok "None"
  | JBool b => Ok (if b then "True" else "False")
  | JInt z => Ok (Z_to_str z)
  | JFloat (Fin m e) => Ok (float_repr m e)
  | JFloat (Inf n) => Ok (if n then "-inf" else "inf")
  | JFloat NaN => Ok "nan"
  | JStr s => Ok s
  | JList _ | JObj _ => Err Unmodelled
  end.

(** [float(v)]; reading a number out of text is not modelled. *)
Definition py_float (j : json) : result pyexc pyfloat :=
  match j with
  | JBool b => Ok (float_of_Z (if b then 1 else 0))
  | JInt z => Ok (float_of_Z z)
  | JFloat f => Ok f
  | JStr _ => Err Unmodelled
  | _ => Err TypeError
  end.

(** [dict(v)] *)
Definition py_dict (j : json) : result pyexc (dict json) :=
  match j with
  | JObj d => Ok d
  | JList [] => Ok []
  | JStr "" => Ok []
  | JList _ => Err Unmodelled
  | JStr _ => Err ValueError
  | _ => Err TypeError
  end.

(** [value or {}] for a value on which [.get] is then called. *)
Definition dict_or_empty (j : json) : result pyexc (dict json) :=
  if truthy j then match j with JObj d => Ok d | _ => Err AttributeError end else Ok [].

(** [d.get(k, default)] *)
Definition get_default (d : dict json) (k : string) (default : json) : json :=
  match dget d k with Some v => v | None => default end.

(** A text-or-[None] field that the code stores as it comes. *)
Definition opt_text (j : json) : result pyexc (option string) :=
  match j with JNull => Ok None | JStr s => Ok (Some s) | _ => Err Unmodelled end.

Definition opt_text_json (o : option string) : json :=
  match o with Some s => JStr s | None => JNull end.

Definition opt_dict_json (o : option (dict json)) : json :=
  match o with Some d => JObj d | None => JNull end.

(** ** AuthorizationContext *)

Record AuthorizationContext := {
  principal_id : string;
  approved : bool;
  approval_id : option string;
  scopes : list string;
  provenance : dict json;
}.

Definition AuthorizationContext_default : AuthorizationContext :=
  {| principal_id := ""; approved := false; approval_id := None; scopes := []; provenance := [] |}.

Definition AuthorizationContext_to_dict (a : AuthorizationContext) : json :=
  JObj ([("principal_id", JStr (principal_id a));
         ("approved", JBool (approved a));
         ("approval_id", opt_text_json (approval_id a));
         ("scopes", JList (map JStr (scopes a)))]
        ++ match provenance a with [] => [] | p => [("provenance", JObj p)] end).

(** The elements iterated over by [for item in v]. *)
Definition py_iter (j : json) : result pyexc (list json) :=
  match j with
  | JList l => Ok l
  | JStr s => Ok (map (fun c => JStr (String c "")) (String.list_ascii_of_string s))
  | JObj d => Ok (map (fun kv => JStr kv.1) d)
  | _ => Err TypeError
  end.

Definition AuthorizationContext_from_dict (value : json) : result pyexc AuthorizationContext :=
  let* data := dict_or_empty value in
  let* pid := py_str (get_default data "principal_id" (JStr "")) in
  let* aid := opt_text (get_default data "approval_id" JNull) in
  let* items := py_iter (get_default data "scopes" (JList [])) in
  let* sc := mapr py_str items in
  Ok {| principal_id := pid;
        approved := truthy (get_default data "approved" (JBool false));
        approval_id := aid;
        scopes := sc;
        provenance := match get_default data "provenance" (JObj []) with
                      | JObj p => p | _ => [] end |}.

(** ** VerificationPolicy *)

Record VerificationPolicy := {
  required_evidence : EvidenceLevel;
  timeout_sec : pyfloat;
  fail_closed : bool;
}.

(** [__post_init__], on the constructor's untyped arguments. *)
Definition VerificationPolicy_init (required : EvidenceLevel) (timeout closed : json)
  : result pyexc VerificationPolicy :=
  let* t := match timeout with
            | JInt z => Ok (float_of_Z z)
            | JFloat f => Ok f
            | _ => Err TypeError
            end in
  guard! is_finite t && float_lt (Fin 0 0) t && float_le t (Fin 3600 0) else ValueError in
  match closed with
  | JBool b => Ok {| required_evidence := required; timeout_sec := t; fail_closed := b |}
  | _ => Err TypeError
  end.

Definition VerificationPolicy_default : VerificationPolicy :=
  {| required_evidence := TASK_VERIFIED; timeout_sec := Fin 30 0; fail_closed := true |}.

Definition VerificationPolicy_to_dict (p : VerificationPolicy) : json :=
  JObj [("required_evidence", JStr (se_value (required_evidence p)));
        ("timeout_sec", JFloat (timeout_sec p));
        ("fail_closed", JBool (fail_closed p))].

Definition VerificationPolicy_from_dict (value : json) : result pyexc VerificationPolicy :=
  let* data := dict_or_empty value in
  let* txt := py_str (get_default data "required_evidence" (JStr (se_value TASK_VERIFIED))) in
  let* req := of_option (se_parse (upper txt)) ValueError in
  let* t := py_float (get_default data "timeout_sec" (JFloat (Fin 30 0))) in
  VerificationPolicy_init req (JFloat t)
    (JBool (truthy (get_default data "fail_closed" (JBool true)))).

(** ** ActionEnvelope *)

Definition ACTION_SCHEMA_VERSION : string := "rosclaw.action.v1".
Definition RECEIPT_SCHEMA_VERSION : string := "rosclaw.receipt.v1".

(** [parent_trace_id] and [expected_effect] are stored as they come. *)
Record ActionEnvelope := {
  actor_id : string;
  agent_framework : string;
  session_id : string;
  body_id : string;
  capability_id : string;
  arguments : dict json;
  execution_mode : ExecutionMode;
  schema_version : string;
  action_id : string;
  body_snapshot_hash : string;
  authorization : AuthorizationContext;
  risk_class : string;
  deadline_at : option datetime;
  lease_ttl_ms : Z;
  renew_interval_ms : Z;
  orphan_policy : OrphanPolicy;
  stop_capability : string;
  parent_trace_id : option string;
  expected_effect : json;
  verification_policy : VerificationPolicy;
}.

Definition with_authorization (a : ActionEnvelope) (z : AuthorizationContext) : ActionEnvelope :=
  {| actor_id := actor_id a; agent_framework := agent_framework a; session_id := session_id a;
     body_id := body_id a; capability_id := capability_id a; arguments := arguments a;
     execution_mode := execution_mode a; schema_version := schema_version a;
     action_id := action_id a; body_snapshot_hash := body_snapshot_hash a; authorization := z;
     risk_class := risk_class a; deadline_at := deadline_at a; lease_ttl_ms := lease_ttl_ms a;
     renew_interval_ms := renew_interval_ms a; orphan_policy := orphan_policy a;
     stop_capability := stop_capability a; parent_trace_id := parent_trace_id a;
     expected_effect := expected_effect a; verification_policy := verification_policy a |}.

Definition with_deadline (a : ActionEnvelope) (d : option datetime) : ActionEnvelope :=
  {| actor_id := actor_id a; agent_framework := agent_framework a; session_id := session_id a;
     body_id := body_id a; capability_id := capability_id a; arguments := arguments a;
     execution_mode := execution_mode a; schema_version := schema_version a;
     action_id := action_id a; body_snapshot_hash := body_snapshot_hash a;
     authorization := authorization a;
     risk_class := risk_class a; deadline_at := d; lease_ttl_ms := lease_ttl_ms a;
     renew_interval_ms := renew_interval_ms a; orphan_policy := orphan_policy a;
     stop_capability := stop_capability a; parent_trace_id := parent_trace_id a;
     expected_effect := expected_effect a; verification_policy := verification_policy a |}.

(** [bool] is a subclass of [int]; both interval fields refuse it. *)
Definition interval_ok (j : json) : result pyexc Z :=
  match j with
  | JInt z => guard! (100 <=? z) && (z <=? 3600000) else ValueError in Ok z
  | _ => Err TypeError
  end.

Definition float_max (x y : pyfloat) : pyfloat := if float_lt x y then y else x.

(** [ActionEnvelope.__post_init__]: the record carries the fields already of
    their type; the three the constructor type-checks itself come apart.
    [now] is read only for a missing deadline. *)
Definition post_init (now : datetime) (ttl renew stop : json) (a : ActionEnvelope)
  : result pyexc ActionEnvelope :=
  guard! forallb nonblank [schema_version a; action_id a; actor_id a; agent_framework a;
                           session_id a; body_id a; capability_id a] else ValueError in
  guard! String.eqb (schema_version a) ACTION_SCHEMA_VERSION else ValueError in
  let deadline :=
    match deadline_at a with
    | None => dt_add now (float_us (float_max (Fin 1 (-1)) (timeout_sec (verification_policy a))))
    | Some d => d
    end in
  let* ttl := interval_ok ttl in
  let* renew := interval_ok renew in
  guard! renew <? ttl else ValueError in
  let* stop := of_option (as_str stop) ValueError in
  guard! nonblank stop else ValueError in
  Ok {| actor_id := actor_id a; agent_framework := agent_framework a; session_id := session_id a;
        body_id := body_id a; capability_id := capability_id a; arguments := arguments a;
        execution_mode := execution_mode a; schema_version := schema_version a;
        action_id := action_id a; body_snapshot_hash := body_snapshot_hash a;
        authorization := authorization a; risk_class := risk_class a;
        deadline_at := Some deadline; lease_ttl_ms := ttl; renew_interval_ms := renew;
        orphan_policy := orphan_policy a; stop_capability := stop;
        parent_trace_id := parent_trace_id a; expected_effect := expected_effect a;
        verification_policy := verification_policy a |}.

Definition iso_opt (d : option datetime) : json :=
  match d with Some d => JStr (iso d) | None => JNull end.

Definition ActionEnvelope_to_dict (a : ActionEnvelope) : json :=
  JObj [("schema_version", JStr (schema_version a));
        ("action_id", JStr (action_id a));
        ("actor_id", JStr (actor_id a));
        ("agent_framework", JStr (agent_framework a));
        ("session_id", JStr (session_id a));
        ("body_id", JStr (body_id a));
        ("body_snapshot_hash", JStr (body_snapshot_hash a));
        ("capability_id", JStr (capability_id a));
        ("arguments", JObj (arguments a));
        ("execution_mode", JStr (se_value (execution_mode a)));
        ("authorization", AuthorizationContext_to_dict (authorization a));
        ("risk_class", JStr (risk_class a));
        ("deadline_at", iso_opt (deadline_at a));
        ("lease_ttl_ms", JInt (lease_ttl_ms a));
        ("renew_interval_ms", JInt (renew_interval_ms a));
        ("orphan_policy", JStr (se_value (orphan_policy a)));
        ("stop_capability", JStr (stop_capability a));
        ("parent_trace_id", opt_text_json (parent_trace_id a));
        ("expected_effect", expected_effect a);
        ("verification_policy", VerificationPolicy_to_dict (verification_policy a))].

(** [_parse_datetime] on a JSON value. *)
Definition parse_datetime (j : json) : result pyexc (option datetime) :=
  match j with
  | JNull | JStr "" => Ok None
  | _ => let* s := py_str j in
         let* d := of_option (parse_default_utc s) ValueError in Ok (Some d)
  end.

(** [uuid] is the fresh identifier used when the dictionary has no action id. *)
Definition ActionEnvelope_from_dict (now : datetime) (uuid : string) (value : json)
  : result pyexc ActionEnvelope :=
  let* v := of_option (as_obj value) AttributeError in
  let text k default := py_str (get_default v k (JStr default)) in
  let* sv := text "schema_version" ACTION_SCHEMA_VERSION in
  let* aid := match dget v "action_id" with
              | Some j => if truthy j then py_str j else Ok uuid
              | None => Ok uuid end in
  let* actor := text "actor_id" "" in
  let* fw := text "agent_framework" "" in
  let* sid := text "session_id" "" in
  let* bid := text "body_id" "" in
  let* snap := text "body_snapshot_hash" "" in
  let* cap := text "capability_id" "" in
  let* args := py_dict (get_default v "arguments" (JObj [])) in
  let* mode_txt := text "execution_mode" "" in
  let* mode := of_option (se_parse (upper mode_txt)) ValueError in
  let* az := AuthorizationContext_from_dict (get_default v "authorization" JNull) in
  let* risk := text "risk_class" "medium" in
  let* deadline := parse_datetime (get_default v "deadline_at" JNull) in
  let* orphan_txt := text "orphan_policy" "STOP_ON_CLIENT_LOSS" in
  let* orphan := of_option (se_parse (upper orphan_txt)) ValueError in
  let* parent := opt_text (get_default v "parent_trace_id" JNull) in
  let* vp := VerificationPolicy_from_dict (get_default v "verification_policy" JNull) in
  post_init now (get_default v "lease_ttl_ms" (JInt 10000))
    (get_default v "renew_interval_ms" (JInt 3000))
    (get_default v "stop_capability" (JStr "safety.emergency_stop"))
    {| actor_id := actor; agent_framework := fw; session_id := sid; body_id := bid;
       capability_id := cap; arguments := args; execution_mode := mode; schema_version := sv;
       action_id := aid; body_snapshot_hash := snap; authorization := az; risk_class := risk;
       deadline_at := deadline; lease_ttl_ms := 0; renew_interval_ms := 0;
       orphan_policy := orphan; stop_capability := ""; parent_trace_id := parent;
       expected_effect := get_default v "expected_effect" JNull; verification_policy := vp |}.

(** ** Transitions, executor results and receipts *)

Record StateTransition := { st_state : ActionState; st_at : datetime; st_reason : string }.

Definition StateTransition_to_dict (t : StateTransition) : json :=
  JObj [("state", JStr (se_value (st_state t))); ("at", JStr (iso (st_at t)));
        ("reason", JStr (st_reason t))].

(** An executor's result. The evidence level and domain are the raw values the
    gateway re-validates; an optional dictionary is [None] or its entries. *)
Record ActionExecutionResult := {
  x_final_state : ActionState;
  x_evidence_level : string;
  x_evidence_domain : option string;
  x_policy_decision : dict json;
  x_authorization_decision : dict json;
  x_simulation_result : option (dict json);
  x_dispatch_result : dict json;
  x_driver_ack : option (dict json);
  x_observations : list json;
  x_verification_result : option (dict json);
  x_artifacts : list string;
  x_errors : list (dict json);
  x_artifact_directory : option string;
  x_acknowledgement_stage : option AcknowledgementStage;
}.

Record ExecutionReceipt := {
  r_action_id : string;
  r_trace_id : string;
  r_mode : ExecutionMode;
  r_body_id : string;
  r_body_snapshot_hash : string;
  r_capability_id : string;
  r_final_state : ActionState;
  r_evidence_level : EvidenceLevel;
  r_evidence_domain : EvidenceDomain;
  r_schema_version : string;
  r_policy_decision : dict json;
  r_authorization_decision : dict json;
  r_resource_lease : option (dict json);
  r_simulation_result : option (dict json);
  r_dispatch_result : dict json;
  r_driver_ack : option (dict json);
  r_acknowledgement_stage : AcknowledgementStage;
  r_observations : list json;
  r_verification_result : option (dict json);
  r_artifacts : list string;
  r_errors : list (dict json);
  r_transitions : list StateTransition;
  r_started_at : datetime;
  r_finished_at : datetime;
}.

(** [ExecutionReceipt.__post_init__]: a receipt's evidence domain is the one
    its mode can produce. *)
Definition receipt_post_init (m : ExecutionMode) (d : option EvidenceDomain)
  : result pyexc EvidenceDomain :=
  let expected := evidence_domain_for_mode m in
  let d := match d with Some d => d | None => expected end in
  guard! bool_decide (d = expected) else ValueError in Ok d.

Definition strong_evidence (l : EvidenceLevel) : bool :=
  bool_decide (l = PHYSICALLY_OBSERVED) || bool_decide (l = TASK_VERIFIED).

Definition verified (r : ExecutionReceipt) : bool :=
  if bool_decide (r_mode r = FIXTURE) then false else strong_evidence (r_evidence_level r).

Definition valid_for_promotion (_ : ExecutionReceipt) : bool := false.

Definition trust_level (r : ExecutionReceipt) : string :=
  match r_mode r with
  | FIXTURE => "SYNTHETIC"
  | REPLAY => "RECORDED"
  | SIMULATION => "SIMULATED"
  | _ => if verified r then "VERIFIED" else "UNVERIFIED"
  end.

Definition usable_for_real_execution (r : ExecutionReceipt) : bool :=
  bool_decide (r_mode r = REAL) && bool_decide (r_final_state r = COMPLETED) && verified r.

Definition ExecutionReceipt_to_dict (r : ExecutionReceipt) : json :=
  JObj [("schema_version", JStr (r_schema_version r));
        ("action_id", JStr (r_action_id r));
        ("trace_id", JStr (r_trace_id r));
        ("mode", JStr (se_value (r_mode r)));
        ("execution_mode", JStr (se_value (r_mode r)));
        ("body_id", JStr (r_body_id r));
        ("body_snapshot_hash", JStr (r_body_snapshot_hash r));
        ("capability_id", JStr (r_capability_id r));
        ("policy_decision", JObj (r_policy_decision r));
        ("authorization_decision", JObj (r_authorization_decision r));
        ("resource_lease", opt_dict_json (r_resource_lease r));
        ("simulation_result", opt_dict_json (r_simulation_result r));
        ("dispatch_result", JObj (r_dispatch_result r));
        ("driver_ack", opt_dict_json (r_driver_ack r));
        ("acknowledgement_stage", JStr (se_value (r_acknowledgement_stage r)));
        ("observations", JList (r_observations r));
        ("verification_result", opt_dict_json (r_verification_result r));
        ("final_state", JStr (se_value (r_final_state r)));
        ("evidence_level", JStr (se_value (r_evidence_level r)));
        ("evidence_domain", JStr (se_value (r_evidence_domain r)));
        ("verified", JBool (verified r));
        ("valid_for_promotion", JBool (valid_for_promotion r));
        ("trust_level", JStr (trust_level r));
        ("usable_for_real_execution", JBool (usable_for_real_execution r));
        ("artifacts", JList (map JStr (r_artifacts r)));
        ("errors", JList (map JObj (r_errors r)));
        ("transitions", JList (map StateTransition_to_dict (r_transitions r)));
        ("started_at", JStr (iso (r_started_at r)));
        ("finished_at", JStr (iso (r_finished_at r)))].

(** ** Emergency-stop receipts *)

Inductive EmergencyStopStatus :=
| ES_REQUESTED | ES_DISPATCHED | PARTIALLY_ACKNOWLEDGED | ACKNOWLEDGED | PHYSICALLY_VERIFIED
| UNVERIFIED | ES_FAILED.

Definition EmergencyStopStatus_value (s : EmergencyStopStatus) : string :=
  match s with
  | ES_REQUESTED => "REQUESTED" | ES_DISPATCHED => "DISPATCHED"
  | PARTIALLY_ACKNOWLEDGED => "PARTIALLY_ACKNOWLEDGED" | ACKNOWLEDGED => "ACKNOWLEDGED"
  | PHYSICALLY_VERIFIED => "PHYSICALLY_VERIFIED" | UNVERIFIED => "UNVERIFIED"
  | ES_FAILED => "FAILED"
  end.

Record EmergencyStopReceipt := {
  e_request_id : string;
  e_reason : string;
  e_requested_at : datetime;
  e_targets : list string;
  e_request_dispatched : bool;
  e_driver_acknowledged : bool;
  e_acknowledged_drivers : list string;
  e_unacknowledged_drivers : list string;
  e_physical_stop_observed : bool;
  e_observed_velocity : json;
  e_observed_joint_velocity : json;
  e_verification_source : option string;
  e_timeout : bool;
  e_timeout_sec : json;
  e_final_status : EmergencyStopStatus;
  e_execution_mode : string;
  e_driver_results : dict json;
  e_errors : list json;
}.

Definition stopped (e : EmergencyStopReceipt) : bool :=
  match e_final_status e with PHYSICALLY_VERIFIED => true | _ => false end.

Definition estop_trust_level (e : EmergencyStopReceipt) : string :=
  let mode := upper (e_execution_mode e) in
  if String.eqb mode "FIXTURE" then "SYNTHETIC"
  else if String.eqb mode "SIMULATION" then "SIMULATED"
  else if String.eqb mode "REAL" && stopped e then "VERIFIED" else "UNVERIFIED".

Definition lower_char (c : ascii) : ascii :=
  let o := ord c in
  if ((65 <=? o) && (o <=? 90)) || ((192 <=? o) && (o <=? 222) && negb (o =? 215))
  then ascii_of_N (Z.to_N (o + 32)) else c.

Fixpoint lower (s : string) : string :=
  match s with EmptyString => EmptyString | String c s' => String (lower_char c) (lower s') end.

Definition EmergencyStopReceipt_to_dict (e : EmergencyStopReceipt) : json :=
  let mode := upper (e_execution_mode e) in
  JObj [("request_id", JStr (e_request_id e));
        ("reason", JStr (e_reason e));
        ("requested_at", JStr (iso (e_requested_at e)));
        ("targets", JList (map JStr (e_targets e)));
        ("request_dispatched", JBool (e_request_dispatched e));
        ("driver_acknowledged", JBool (e_driver_acknowledged e));
        ("acknowledged_drivers", JList (map JStr (e_acknowledged_drivers e)));
        ("unacknowledged_drivers", JList (map JStr (e_unacknowledged_drivers e)));
        ("physical_stop_observed", JBool (e_physical_stop_observed e));
        ("observed_velocity", e_observed_velocity e);
        ("observed_joint_velocity", e_observed_joint_velocity e);
        ("verification_source", opt_text_json (e_verification_source e));
        ("timeout", JBool (e_timeout e));
        ("timeout_sec", e_timeout_sec e);
        ("final_status", JStr (EmergencyStopStatus_value (e_final_status e)));
        ("stopped", JBool (stopped e));
        ("mode", JStr (lower mode));
        ("driver_results", JObj (e_driver_results e));
        ("errors", JList (e_errors e));
        ("execution_mode", JStr mode);
        ("trust_level", JStr (estop_trust_level e));
        ("usable_for_real_execution", JBool false)].

(** ** Theorems *)

(** What every constructed envelope satisfies. *)
Record envelope_ok (a : ActionEnvelope) : Prop := {
  ok_ids : forallb nonblank [schema_version a; action_id a; actor_id a; agent_framework a;
                             session_id a; body_id a; capability_id a] = true;
  ok_schema : schema_version a = ACTION_SCHEMA_VERSION;
  ok_deadline : is_Some (deadline_at a);
  ok_ttl : 100 <= lease_ttl_ms a <= 3600000;
  ok_renew : 100 <= renew_interval_ms a < lease_ttl_ms a;
  ok_stop : nonblank (stop_capability a) = true;
}.

Lemma interval_ok_inv j z : interval_ok j = Ok z <-> j = JInt z /\ 100 <= z <= 3600000.
Proof.
  destruct j; simpl; try naive_solver.
  split.
  - intros H. ok_inv H. breflect. naive_solver.
  - intros [[=->] Hz]. unfold require.
    replace ((100 <=? z) && (z <=? 3600000)) with true by (symmetry; apply andb_true_iff; lia).
    done.
Qed.

Lemma post_init_ok now ttl renew stop a a' :
  post_init now ttl renew stop a = Ok a' -> envelope_ok a'.
Proof.
  unfold post_init. intros H. ok_inv H. subst a'.
  apply interval_ok_inv in Ha1 as [-> Ht]. apply interval_ok_inv in Ha2 as [-> Hr].
  apply String.eqb_eq in Ha0. breflect. constructor; simpl; eauto; lia.
Qed.

(** A policy the constructor accepts. *)
Definition policy_ok (p : VerificationPolicy) : Prop :=
  is_finite (timeout_sec p) && float_lt (Fin 0 0) (timeout_sec p)
    && float_le (timeout_sec p) (Fin 3600 0) = true.

Lemma se_upper_mode (m : ExecutionMode) : upper (se_value m) = se_value m.
Proof. by destruct m. Qed.
Lemma se_upper_orphan (p : OrphanPolicy) : upper (se_value p) = se_value p.
Proof. by destruct p. Qed.
Lemma se_upper_level (l : EvidenceLevel) : upper (se_value l) = se_value l.
Proof. by destruct l. Qed.

Lemma py_str_list l : mapr py_str (map JStr l) = Ok l.
Proof. induction l as [|x l IH]; simpl; [done|]. by rewrite IH. Qed.

Lemma opt_text_json_id o : opt_text (opt_text_json o) = Ok o.
Proof. by destruct o. Qed.

Lemma AuthorizationContext_round_trip z :
  AuthorizationContext_from_dict (AuthorizationContext_to_dict z) = Ok z.
Proof.
  destruct z as [pid ap aid sc pv].
  unfold AuthorizationContext_from_dict, AuthorizationContext_to_dict.
  cbn [principal_id approved approval_id scopes provenance].
  destruct pv as [|kv pv]; cbn [app dict_or_empty truthy rbind]; unfold get_default; dget_eval;
    cbn [py_str rbind]; rewrite opt_text_json_id; cbn [py_iter rbind];
    rewrite py_str_list; done.
Qed.

Lemma VerificationPolicy_round_trip p :
  policy_ok p -> VerificationPolicy_from_dict (VerificationPolicy_to_dict p) = Ok p.
Proof.
  destruct p as [req t c]. unfold policy_ok. simpl. intros Hp.
  unfold VerificationPolicy_from_dict, VerificationPolicy_to_dict.
  cbn [required_evidence timeout_sec fail_closed dict_or_empty truthy rbind]. unfold get_default; dget_eval.
  cbn [py_str rbind]. rewrite se_upper_level, se_parse_value.
  cbn [of_option py_float rbind truthy]. unfold VerificationPolicy_init. cbn [rbind].
  by rewrite Hp.
Qed.

Lemma post_init_id now a :
  envelope_ok a -> post_init now (JInt (lease_ttl_ms a)) (JInt (renew_interval_ms a))
                             (JStr (stop_capability a)) a = Ok a.
Proof.
  intros [Hids Hs [d Hd] Ht Hr Hst]. unfold post_init. rewrite Hids, Hs, Hd.
  rewrite (proj2 (interval_ok_inv (JInt (lease_ttl_ms a)) _)) by done.
  rewrite (proj2 (interval_ok_inv (JInt (renew_interval_ms a)) (renew_interval_ms a)))
    by (split; [done|lia]).
  simpl. rewrite (proj2 (Z.ltb_lt _ _)) by lia. simpl. rewrite Hst.
  destruct a; simpl in *; by subst.
Qed.

Lemma parse_datetime_iso d : dt_wf d -> parse_datetime (iso_opt (Some d)) = Ok (Some d).
Proof.
  intros Hwf. pose proof (parse_default_utc_iso d Hwf) as Hp.
  unfold parse_datetime, iso_opt. destruct (iso d) eqn:He; [by rewrite <- Hp|].
  rewrite <- He in *. cbn [py_str rbind]. by rewrite Hp.
Qed.

Lemma ActionEnvelope_round_trip now uuid a d :
  envelope_ok a -> policy_ok (verification_policy a) -> deadline_at a = Some d -> dt_wf d ->
  ActionEnvelope_from_dict now uuid (ActionEnvelope_to_dict a) = Ok a.
Proof.
  intros Hok Hp Hd Hwf. pose proof (post_init_id now a Hok) as Hpi.
  unfold ActionEnvelope_from_dict, ActionEnvelope_to_dict.
  cbn [of_option as_obj rbind].
  unfold get_default; dget_eval. cbn [py_str rbind].
  assert (Haid : truthy (JStr (action_id a)) = true).
  { destruct Hok as [Hids _ _ _ _ _]. simpl in Hids. breflect.
    simpl. unfold truthy_str. apply negb_true_iff, String.eqb_neq.
    intros He. rewrite He in *. done. }
  rewrite Haid. cbn [rbind py_dict]. rewrite se_upper_mode, se_parse_value. cbn [of_option rbind].
  rewrite AuthorizationContext_round_trip. cbn [rbind].
  rewrite Hd, parse_datetime_iso, <- Hd by done. cbn [rbind]. rewrite se_upper_orphan, se_parse_value. cbn [of_option rbind].
  rewrite opt_text_json_id. cbn [rbind]. rewrite VerificationPolicy_round_trip by done.
  cbn [rbind]. etrans; [|exact Hpi]. by destruct a.
Qed.

(** Every [ActionEnvelope] the daemon decodes satisfies the contract: the
    seven identifiers are non-blank, the schema is v1, a deadline is set, the
    lease lasts 100 ms to one hour with a strictly shorter renewal interval,
    and a stop capability is named. *)
Theorem envelope_from_dict_ok now uuid v a :
  ActionEnvelope_from_dict now uuid v = Ok a -> envelope_ok a.
Proof.
  unfold ActionEnvelope_from_dict. intros H.
  repeat match type of H with
         | rbind _ _ = _ => apply rbind_ok in H as (? & _ & H)
         end.
  by apply post_init_ok in H.
Qed.

(** An envelope the contract accepts survives the dictionary form the
    daemon transports and persists. *)
Theorem envelope_round_trip now uuid a d :
  envelope_ok a -> policy_ok (verification_policy a) -> deadline_at a = Some d -> dt_wf d ->
  ActionEnvelope_from_dict now uuid (ActionEnvelope_to_dict a) = Ok a.
Proof. apply ActionEnvelope_round_trip. Qed.

(** ** A concrete action *)

Definition demo_action : ActionEnvelope :=
  {| actor_id := "agent-1"; agent_framework := "openclaw"; session_id := "session_1";
     body_id := "arm-1"; capability_id := "arm.move"; arguments := [("x", JInt 1)];
     execution_mode := REAL; schema_version := ACTION_SCHEMA_VERSION; action_id := "action_1";
     body_snapshot_hash := "sha256:body";
     authorization := {| principal_id := "operator-1"; approved := true;
       approval_id := Some "approval-1"; scopes := ["real_execution"]; provenance := [] |};
     risk_class := "high"; deadline_at := Some (DT 1700000600000000 0);
     lease_ttl_ms := 10000; renew_interval_ms := 3000; orphan_policy := STOP_ON_CLIENT_LOSS;
     stop_capability := "safety.emergency_stop"; parent_trace_id := None;
     expected_effect := JNull; verification_policy := VerificationPolicy_default |}.

Lemma envelope_from_dict_ok_witness : envelope_ok demo_action.
Proof.
  apply (envelope_from_dict_ok (DT 0 0) "" (ActionEnvelope_to_dict demo_action)).
  vm_compute. reflexivity.
Defined.

Lemma envelope_round_trip_witness :
  ActionEnvelope_from_dict (DT 0 0) "" (ActionEnvelope_to_dict demo_action) = Ok demo_action.
Proof.
  apply (envelope_round_trip (DT 0 0) "" demo_action (DT 1700000600000000 0)).
  - constructor; try (vm_compute; intuition congruence). by eexists.
  - vm_compute. reflexivity.
  - reflexivity.
  - vm_compute. intuition congruence.
Defined.
