(* ===== verification/Resources.v ===== *)
(** Exclusive body leases: src/src/rosclaw/kernel/resource_manager.py.

    [ResourceManager] keeps one lock per resource name and the table of active
    leases. Each block under [_guard], and each lock operation, is one atomic
    step; [rstep] interleaves them for any number of threads. *)

From S2P Require Export Contracts.

Record ResourceLease := {
  lease_id : string;
  lease_resource : string;
  lease_action : string;
  acquired_at : datetime;
}.

Definition ResourceLease_to_dict (l : ResourceLease) : dict json :=
  [("lease_id", JStr (lease_id l)); ("resource_id", JStr (lease_resource l));
   ("action_id", JStr (lease_action l)); ("acquired_at", JStr (iso (acquired_at l)));
   ("exclusive", JBool true)].

(** [_locks] (a lock per resource, [true] when held) and [_active]. *)
Record ResourceManager := {
  locks : gmap string bool;
  active : gmap string ResourceLease;
}.

Definition ResourceManager_new : ResourceManager := {| locks := ∅; active := ∅ |}.

(** [self._locks.setdefault(resource_id, threading.Lock())] *)
Definition ensure_lock (m : ResourceManager) (r : string) : ResourceManager :=
  match locks m !! r with
  | Some _ => m
  | None => {| locks := <[r := false]> (locks m); active := active m |}
  end.

(** [lock.acquire(...)] at a moment the lock is free; a lock that stays held
    until the timeout gives [None]. *)
Definition lock_acquire (m : ResourceManager) (r : string) : option ResourceManager :=
  match locks m !! r with
  | Some false => Some {| locks := <[r := true]> (locks m); active := active m |}
  | _ => None
  end.

(** [lock.release()]: releasing a free lock raises [RuntimeError]. *)
Definition lock_release (m : ResourceManager) (r : string) : option ResourceManager :=
  match locks m !! r with
  | Some true => Some {| locks := <[r := false]> (locks m); active := active m |}
  | _ => None
  end.

Definition set_active (m : ResourceManager) (l : ResourceLease) : ResourceManager :=
  {| locks := locks m; active := <[lease_resource l := l]> (active m) |}.

(** The guarded block of [_release]. *)
Definition drop_active (m : ResourceManager) (l : ResourceLease) : ResourceManager :=
  match active m !! lease_resource l with
  | Some x => if String.eqb (lease_id x) (lease_id l)
              then {| locks := locks m; active := delete (lease_resource l) (active m) |}
              else m
  | None => m
  end.

Definition active_lease (m : ResourceManager) (r : string) : option ResourceLease :=
  active m !! r.

Record ResourceLeaseHandle := { h_lease : ResourceLease; h_released : bool }.

(** [acquire] run without interference: [None] when the lock is held. *)
Definition acquire (m : ResourceManager) (r a : string) (id : string) (now : datetime)
  : ResourceManager * option ResourceLeaseHandle :=
  let m := ensure_lock m r in
  match lock_acquire m r with
  | None => (m, None)
  | Some m =>
      let l := {| lease_id := id; lease_resource := r; lease_action := a; acquired_at := now |} in
      (set_active m l, Some {| h_lease := l; h_released := false |})
  end.

(** [ResourceLeaseHandle.release]; [None] where the lock raises. *)
Definition release (m : ResourceManager) (h : ResourceLeaseHandle)
  : option (ResourceManager * ResourceLeaseHandle) :=
  if h_released h then Some (m, h)
  else
    m ← lock_release (drop_active m (h_lease h)) (lease_resource (h_lease h));
    Some (m, {| h_lease := h_lease h; h_released := true |}).

(** ** Threads *)

(** Where a thread stands between entering [acquire] and leaving [_release]. *)
Inductive rpc :=
| Locked (r a : string)
| Holding (l : ResourceLease)
| Popped (l : ResourceLease).

Definition rpc_resource (p : rpc) : string :=
  match p with Locked r _ => r | Holding l | Popped l => lease_resource l end.

Record rsys := { rs_mgr : ResourceManager; rs_pc : gmap nat rpc }.

Inductive rstep : rsys -> rsys -> Prop :=
| rstep_ensure s r :
    rstep s {| rs_mgr := ensure_lock (rs_mgr s) r; rs_pc := rs_pc s |}
| rstep_lock s i r a m :
    rs_pc s !! i = None -> lock_acquire (rs_mgr s) r = Some m ->
    rstep s {| rs_mgr := m; rs_pc := <[i := Locked r a]> (rs_pc s) |}
| rstep_set s i r a id now :
    rs_pc s !! i = Some (Locked r a) ->
    let l := {| lease_id := id; lease_resource := r; lease_action := a; acquired_at := now |} in
    rstep s {| rs_mgr := set_active (rs_mgr s) l; rs_pc := <[i := Holding l]> (rs_pc s) |}
| rstep_drop s i l :
    rs_pc s !! i = Some (Holding l) ->
    rstep s {| rs_mgr := drop_active (rs_mgr s) l; rs_pc := <[i := Popped l]> (rs_pc s) |}
| rstep_unlock s i l m :
    rs_pc s !! i = Some (Popped l) -> lock_release (rs_mgr s) (lease_resource l) = Some m ->
    rstep s {| rs_mgr := m; rs_pc := delete i (rs_pc s) |}.

Definition rsys_init : rsys := {| rs_mgr := ResourceManager_new; rs_pc := ∅ |}.

(** ** Invariant *)

Record rinv (s : rsys) : Prop := {
  (* a held lock has exactly one owner *)
  ri_held : forall i p, rs_pc s !! i = Some p -> locks (rs_mgr s) !! rpc_resource p = Some true;
  ri_owner : forall i j p q, rs_pc s !! i = Some p -> rs_pc s !! j = Some q ->
    rpc_resource p = rpc_resource q -> i = j;
  ri_busy : forall r, locks (rs_mgr s) !! r = Some true ->
    exists i p, rs_pc s !! i = Some p /\ rpc_resource p = r;
  (* the active table lists exactly the holders *)
  ri_active : forall r l, active (rs_mgr s) !! r = Some l <->
    exists i, rs_pc s !! i = Some (Holding l) /\ lease_resource l = r;
}.

Lemma rinv_init : rinv rsys_init.
Proof.
  constructor; unfold rsys_init, ResourceManager_new; simpl; intros *;
    rewrite ?lookup_empty; try done.
  split; [done|]. intros (? & H & _). by rewrite lookup_empty in H.
Qed.

Lemma ensure_lock_held m r r' :
  locks (ensure_lock m r) !! r' = Some true <-> locks m !! r' = Some true.
Proof.
  unfold ensure_lock. destruct (locks m !! r) eqn:E; simpl; [done|].
  destruct (decide (r = r')) as [<-|]; simplify_map_eq; naive_solver.
Qed.

Lemma ensure_lock_active m r : active (ensure_lock m r) = active m.
Proof. unfold ensure_lock. by destruct (locks m !! r). Qed.

Lemma lock_acquire_inv m r m' :
  lock_acquire m r = Some m' ->
  locks m !! r = Some false /\ m' = {| locks := <[r := true]> (locks m); active := active m |}.
Proof. unfold lock_acquire. intros H. repeat case_in H. naive_solver. Qed.

Lemma lock_release_inv m r m' :
  lock_release m r = Some m' ->
  locks m !! r = Some true /\ m' = {| locks := <[r := false]> (locks m); active := active m |}.
Proof. unfold lock_release. intros H. repeat case_in H. naive_solver. Qed.

Lemma drop_active_eq m l :
  active m !! lease_resource l = Some l ->
  drop_active m l = {| locks := locks m; active := delete (lease_resource l) (active m) |}.
Proof. unfold drop_active. intros ->. by rewrite String.eqb_refl. Qed.

Ltac look H :=
  rewrite lookup_insert in H; case_decide; simplify_eq/=.

Lemma rinv_lock s i r a m :
  rinv s -> rs_pc s !! i = None -> lock_acquire (rs_mgr s) r = Some m ->
  rinv {| rs_mgr := m; rs_pc := <[i := Locked r a]> (rs_pc s) |}.
Proof.
  intros [Hh Ho Hb Ha] Hi [Hf ->]%lock_acquire_inv.
  assert (Hno : forall j p, rs_pc s !! j = Some p -> rpc_resource p <> r).
  { intros j p Hj <-. apply Hh in Hj. congruence. }
  constructor; simpl.
  - intros j p Hj. look Hj; [by rewrite lookup_insert_eq|].
    rewrite lookup_insert_ne by (intros Hr; by eapply Hno). eauto.
  - intros j k p q Hj Hk Hpq. look Hj; look Hk; simpl in *; try done.
    + exfalso. by eapply Hno.
    + exfalso. by eapply Hno.
    + eauto.
  - intros r'. rewrite lookup_insert. case_decide; subst.
    + intros _. exists i, (Locked r' a). by rewrite lookup_insert_eq.
    + intros Hr. apply Hb in Hr as (j & p & Hj & <-). exists j, p.
      rewrite lookup_insert_ne by congruence. done.
  - intros r' l. rewrite Ha. split; intros (j & Hj & <-); exists j; (split; [|done]).
    + by rewrite lookup_insert_ne by congruence.
    + by look Hj.
Qed.

Lemma rinv_set s i r a l :
  rinv s -> rs_pc s !! i = Some (Locked r a) -> lease_resource l = r ->
  rinv {| rs_mgr := set_active (rs_mgr s) l; rs_pc := <[i := Holding l]> (rs_pc s) |}.
Proof.
  intros [Hh Ho Hb Ha] Hi Hl. constructor; simpl.
  - intros j p Hj. look Hj; [exact (Hh _ _ Hi)|eauto].
  - intros j k p q Hj Hk Hpq. look Hj; look Hk; simpl in *; eauto.
  - intros r' (j & p & Hj & <-)%Hb. destruct (decide (i = j)) as [<-|].
    + exists i, (Holding l). rewrite lookup_insert_eq. naive_solver.
    + exists j, p. by rewrite lookup_insert_ne.
  - intros r' l'. rewrite lookup_insert. case_decide; subst.
    + split; [intros [=<-]; exists i; by rewrite lookup_insert_eq|].
      intros (j & Hj & Heq). look Hj; [done|].
      exfalso. pose proof (Ho i j _ _ Hi Hj) as Hij. simpl in Hij. by apply H, Hij.
    + rewrite Ha. split; intros (j & Hj & <-); exists j; (split; [|done]).
      * rewrite lookup_insert_ne; [done|]. intros <-. congruence.
      * by look Hj.
Qed.

Lemma rinv_drop s i l :
  rinv s -> rs_pc s !! i = Some (Holding l) ->
  rinv {| rs_mgr := drop_active (rs_mgr s) l; rs_pc := <[i := Popped l]> (rs_pc s) |}.
Proof.
  intros [Hh Ho Hb Ha] Hi.
  rewrite drop_active_eq by (apply Ha; eauto). constructor; simpl.
  - intros j p Hj. look Hj; [exact (Hh _ _ Hi)|eauto].
  - intros j k p q Hj Hk Hpq. look Hj; look Hk; simpl in *; eauto.
  - intros r' (j & p & Hj & <-)%Hb. destruct (decide (i = j)) as [<-|].
    + exists i, (Popped l). rewrite lookup_insert_eq. naive_solver.
    + exists j, p. by rewrite lookup_insert_ne.
  - intros r' l'. destruct (decide (lease_resource l = r')) as [<-|Hne].
    + rewrite lookup_delete_eq. split; [done|]. intros (j & Hj & Heq).
      look Hj. exfalso. pose proof (Ho i j _ _ Hi Hj) as Hij. simpl in Hij. auto.
    + rewrite lookup_delete_ne by done. rewrite Ha.
      split; intros (j & Hj & <-); exists j; (split; [|done]).
      * rewrite lookup_insert_ne; [done|]. intros <-. congruence.
      * by look Hj.
Qed.

Lemma rinv_unlock s i l m :
  rinv s -> rs_pc s !! i = Some (Popped l) ->
  lock_release (rs_mgr s) (lease_resource l) = Some m ->
  rinv {| rs_mgr := m; rs_pc := delete i (rs_pc s) |}.
Proof.
  intros [Hh Ho Hb Ha] Hi [Hf ->]%lock_release_inv. constructor; simpl.
  - intros j p [Hne Hj]%lookup_delete_Some.
    rewrite lookup_insert_ne; [eauto|]. intros Heq. apply Hne. eapply Ho; [exact Hi|exact Hj|exact Heq].
  - intros j k p q [_ Hj]%lookup_delete_Some [_ Hk]%lookup_delete_Some. eauto.
  - intros r'. rewrite lookup_insert. case_decide; [done|].
    intros (j & p & Hj & <-)%Hb. exists j, p. rewrite lookup_delete_ne; [done|].
    intros <-. by simplify_eq/=.
  - intros r' l'. rewrite Ha. split; intros (j & Hj & <-); exists j; (split; [|done]).
    + rewrite lookup_delete_ne; [done|]. intros <-. congruence.
    + by apply lookup_delete_Some in Hj as [_ ?].
Qed.

Lemma rinv_step s s' : rinv s -> rstep s s' -> rinv s'.
Proof.
  intros Hi Hs. destruct Hs.
  - destruct Hi as [Hh Ho Hb Ha]. constructor; simpl; intros *;
      rewrite ?ensure_lock_held, ?ensure_lock_active; eauto.
  - eauto using rinv_lock.
  - eauto using rinv_set.
  - eauto using rinv_drop.
  - eauto using rinv_unlock.
Qed.

Lemma rinv_reach s : rtc rstep rsys_init s -> rinv s.
Proof. apply reach_inv; [apply rinv_init | apply rinv_step]. Qed.

(** ** Theorems *)

(** Under every interleaving of [acquire] and [_release], two threads never
    stand between taking and giving back the lock of one body, and
    [active_lease] names exactly the lease of the thread that holds it. *)
Theorem lease_mutual_exclusion s :
  rtc rstep rsys_init s ->
  (forall i j p q, rs_pc s !! i = Some p -> rs_pc s !! j = Some q ->
     rpc_resource p = rpc_resource q -> i = j) /\
  (forall r l, active_lease (rs_mgr s) r = Some l <->
     exists i, rs_pc s !! i = Some (Holding l) /\ lease_resource l = r).
Proof. intros [_ Ho _ Ha]%rinv_reach. split; [exact Ho | exact Ha]. Qed.

(** Releasing a held lease never raises: in every reachable state both
    halves of [_release] are enabled for the holder, the table entry is its
    own, and afterwards the body is free and a further [release] of the same
    handle changes nothing. *)
Theorem release_frees s i l :
  rtc rstep rsys_init s -> rs_pc s !! i = Some (Holding l) ->
  exists m, release (rs_mgr s) {| h_lease := l; h_released := false |}
              = Some (m, {| h_lease := l; h_released := true |}) /\
    active_lease m (lease_resource l) = None /\
    is_Some (lock_acquire m (lease_resource l)) /\
    (forall r, r <> lease_resource l -> locks m !! r = locks (rs_mgr s) !! r /\
                                        active m !! r = active (rs_mgr s) !! r) /\
    release m {| h_lease := l; h_released := true |}
      = Some (m, {| h_lease := l; h_released := true |}).
Proof.
  intros [Hh _ _ Ha]%rinv_reach Hi. apply Hh in Hi as Hl. simpl in Hl.
  unfold release. cbn [h_released h_lease].
  rewrite drop_active_eq by (apply Ha; eauto).
  unfold lock_release. cbn [locks active]. rewrite Hl. simpl.
  eexists. split; [reflexivity|]. unfold active_lease, lock_acquire. cbn [locks active].
  rewrite lookup_delete_eq, lookup_insert_eq. repeat split; [by eexists|..].
  - by rewrite lookup_insert_ne.
  - by rewrite lookup_delete_ne.
Qed.

(** A thread that has acquired the arm. *)
Definition demo_lease : ResourceLease :=
  {| lease_id := "lease_1"; lease_resource := "arm-1"; lease_action := "action_1";
     acquired_at := DT 0 0 |}.
Definition demo_rsys : rsys :=
  {| rs_mgr := {| locks := {["arm-1" := true]}; active := {["arm-1" := demo_lease]} |};
     rs_pc := {[1%nat := Holding demo_lease]} |}.

Lemma demo_rsys_reach : rtc rstep rsys_init demo_rsys.
Proof.
  eapply rtc_l; [apply (rstep_ensure _ "arm-1")|].
  eapply rtc_l; [eapply (rstep_lock _ 1 "arm-1" "action_1"); reflexivity|].
  eapply rtc_l; [eapply (rstep_set _ 1 "arm-1" "action_1" "lease_1" (DT 0 0)); reflexivity|].
  apply rtc_refl.
Qed.

Lemma lease_mutual_exclusion_witness :
  active_lease (rs_mgr demo_rsys) "arm-1" = Some demo_lease <->
  exists i, rs_pc demo_rsys !! i = Some (Holding demo_lease) /\ lease_resource demo_lease = "arm-1".
Proof. apply (lease_mutual_exclusion demo_rsys). exact demo_rsys_reach. Defined.

Lemma release_frees_witness :
  exists m, release (rs_mgr demo_rsys) {| h_lease := demo_lease; h_released := false |}
    = Some (m, {| h_lease := demo_lease; h_released := true |}) /\
    active_lease m "arm-1" = None.
Proof.
  destruct (release_frees demo_rsys 1 demo_lease) as (m & Hm & Ha & _).
  - exact demo_rsys_reach.
  - reflexivity.
  - exists m. split; assumption.
Defined.
