(* ===== verification/Gateway.v ===== *)
(** The action gateway: src/src/rosclaw/kernel/action_gateway.py.

    The checks before dispatch ([preflight]), the settlement of an executor's
    result ([settle]), the receipt of a run ([execute]), the lock-protected
    blocks of [submit], [reject] and [discard_receipt], and [gstep], which
    interleaves them with the lease steps of Resources.v.

    An executor is an opaque callable of type [X]; what it returns or raises is
    chosen by each step. Clock readings, fresh trace identifiers and the file
    written by [_persist_receipt] come from an [exec_env]. The tracer's spans
    are observations only and are left out, but for the summary of the arguments
    ([action_command_summary]), which may raise under the lease. *)

From S2P Require Export Resources.

(** ** Environment of one run *)

Record exec_env := {
  tick : nat -> datetime;             (* time stamp of the n-th transition *)
  started_now : datetime;
  deadline_now : datetime;            (* reading compared with the deadline *)
  finished_now : datetime;
  fresh_trace : string;
  receipt_uri : string -> string;     (* [(Path(d).resolve() / "receipt.json").as_uri()] *)
  write_receipt : ExecutionReceipt -> string -> result string unit;
}.

Definition stamp (e : exec_env) (l : list (ActionState * string)) : list StateTransition :=
  imap (fun i sr => {| st_state := sr.1; st_at := tick e i; st_reason := sr.2 |}) l.

(** [o or s] for optional text. *)
Definition or_text (o : option string) (s : string) : string :=
  match o with Some t => if truthy_str t then t else s | None => s end.

Definition trace_of (e : exec_env) (a : ActionEnvelope) : string :=
  or_text (parent_trace_id a) (fresh_trace e).

Definition error_entry (code message : string) : dict json :=
  [("code", JStr code); ("message", JStr message)].

(** [_failure_receipt]; no transitions means [[PROPOSED]]. *)
Definition failure_receipt (e : exec_env) (a : ActionEnvelope) (state : ActionState)
    (code message : string) (transitions : list (ActionState * string))
    (lease : option (dict json)) : ExecutionReceipt :=
  let trs := match transitions with [] => [(PROPOSED, "")] | _ => transitions end in
  {| r_action_id := action_id a; r_trace_id := trace_of e a; r_mode := execution_mode a;
     r_body_id := body_id a; r_body_snapshot_hash := body_snapshot_hash a;
     r_capability_id := capability_id a; r_final_state := state;
     r_evidence_level := if bool_decide (execution_mode a = FIXTURE) then SYNTHETIC else REQUESTED;
     r_evidence_domain := evidence_domain_for_mode (execution_mode a);
     r_schema_version := RECEIPT_SCHEMA_VERSION;
     r_policy_decision := []; r_authorization_decision := []; r_resource_lease := lease;
     r_simulation_result := None; r_dispatch_result := []; r_driver_ack := None;
     r_acknowledgement_stage := ACK_REQUEST_ACCEPTED; r_observations := [];
     r_verification_result := None; r_artifacts := []; r_errors := [error_entry code message];
     r_transitions := stamp e (trs ++ [(state, code)]);
     r_started_at := started_now e; r_finished_at := finished_now e |}.

(** ** Checks before dispatch *)

(** A refusal of [_execute]: the transitions so far, the final state, the error
    code and its message. *)
Record refusal := {
  f_transitions : list (ActionState * string);
  f_state : ActionState;
  f_code : string;
  f_message : string;
}.

Definition opened : list (ActionState * string) :=
  [(PROPOSED, "action_submitted"); (REQUEST_ACCEPTED, "request_accepted")].

Definition deadline_expired (now : datetime) (a : ActionEnvelope) : bool :=
  match deadline_at a with Some d => dt_le d now | None => false end.

(** The part of [_execute] before the lease is requested. *)
Definition preflight {X} (executor : option X) (now : datetime) (a : ActionEnvelope)
  : result refusal X :=
  let real := bool_decide (execution_mode a = REAL) in
  let az := authorization a in
  guard! negb ((bool_decide (execution_mode a = SHADOW) || real)
               && negb (truthy_str (body_snapshot_hash a)))
    else {| f_transitions := opened; f_state := BLOCKED; f_code := "BODY_SNAPSHOT_REQUIRED";
            f_message := "Shadow and real actions require an immutable body snapshot hash." |} in
  guard! negb (real && negb (approved az))
    else {| f_transitions := opened ++ [(AUTHORIZATION_REQUIRED, "real_execution_requires_approval")];
            f_state := BLOCKED; f_code := "AUTHORIZATION_REQUIRED";
            f_message := "Real execution requires an approved AuthorizationContext." |} in
  guard! negb (real && (negb (nonblank (principal_id az)) || negb (nonblank (or_text (approval_id az) ""))))
    else {| f_transitions := opened ++ [(AUTHORIZATION_REQUIRED, "authorization_evidence_incomplete")];
            f_state := BLOCKED; f_code := "AUTHORIZATION_EVIDENCE_INVALID";
            f_message := "Real execution requires a principal_id and approval_id." |} in
  guard! negb (real && bool_decide (capability_id a ∉ scopes az) && bool_decide ("*" ∉ scopes az))
    else {| f_transitions := opened ++ [(AUTHORIZATION_REQUIRED, "capability_scope_not_approved")];
            f_state := BLOCKED; f_code := "AUTHORIZATION_SCOPE_MISMATCH";
            f_message := "Approval '" +:+ default "None" (approval_id az)
                         +:+ "' does not include capability scope '" +:+ capability_id a +:+ "'." |} in
  let* x := of_option executor
    {| f_transitions := opened; f_state := FAILED; f_code := "EXECUTOR_UNAVAILABLE";
       f_message := "No executor registered for capability '" +:+ capability_id a
                    +:+ "' in mode " +:+ se_value (execution_mode a) +:+ "." |} in
  guard! negb (deadline_expired now a)
    else {| f_transitions := opened; f_state := TIMED_OUT; f_code := "ACTION_DEADLINE_EXPIRED";
            f_message := "Action deadline expired before execution." |} in
  Ok x.

Definition refuse (e : exec_env) (a : ActionEnvelope) (f : refusal) : ExecutionReceipt :=
  failure_receipt e a (f_state f) (f_code f) (f_message f) (f_transitions f) None.

Definition awaiting (a : ActionEnvelope) : list (ActionState * string) :=
  opened ++ [(GROUNDED, "executor_resolved"); (WAITING_RESOURCE, body_id a)].

Definition lease_timeout_refusal (a : ActionEnvelope) : refusal :=
  {| f_transitions := awaiting a; f_state := TIMED_OUT; f_code := "RESOURCE_LEASE_TIMEOUT";
     f_message := "Timed out waiting for exclusive resource '" +:+ body_id a +:+ "'." |}.

(** [_remaining_timeout], in microseconds. *)
Definition remaining_timeout (now : datetime) (a : ActionEnvelope) : Z :=
  match deadline_at a with
  | None => Z.max 0 (float_us (timeout_sec (verification_policy a)))
  | Some d => Z.max 0 (us d - us now)
  end.

Definition lease_timeout (now : datetime) (a : ActionEnvelope) : Z :=
  Z.min (float_us (timeout_sec (verification_policy a))) (remaining_timeout now a).

(** ** Settling an executor's result *)

Definition evidence_rank (l : EvidenceLevel) : Z :=
  match l with
  | SYNTHETIC => 0 | REQUESTED => 1 | DISPATCH_CONFIRMED => 2 | DRIVER_CONFIRMED => 3
  | PHYSICALLY_OBSERVED => 4 | TASK_VERIFIED => 5
  end.

Definition meets_evidence_requirement (actual required : EvidenceLevel) : bool :=
  evidence_rank required <=? evidence_rank actual.

Record settled := {
  s_state : ActionState;
  s_evidence : EvidenceLevel;
  s_domain : EvidenceDomain;
  s_errors : list (dict json);
}.

(** What [_execute] makes of the state, evidence and domain the executor
    claims, block by block. *)
Definition settle_level (a : ActionEnvelope) (x : ActionExecutionResult) : settled :=
  let expected := evidence_domain_for_mode (execution_mode a) in
  match se_parse (x_evidence_level x) with
  | Some ev => {| s_state := x_final_state x; s_evidence := ev; s_domain := expected;
                  s_errors := x_errors x |}
  | None => {| s_state := FAILED; s_evidence := REQUESTED; s_domain := expected;
               s_errors := x_errors x ++
                 [error_entry "INVALID_EVIDENCE_LEVEL"
                    "Executor returned an unknown evidence level."] |}
  end.

Definition settle_domain (a : ActionEnvelope) (x : ActionExecutionResult) (s : settled) : settled :=
  match x_evidence_domain x with
  | None => s
  | Some d =>
      match se_parse d with
      | Some d => {| s_state := s_state s; s_evidence := s_evidence s; s_domain := d;
                     s_errors := s_errors s |}
      | None => {| s_state := FAILED; s_evidence := REQUESTED;
                   s_domain := evidence_domain_for_mode (execution_mode a);
                   s_errors := s_errors s ++
                     [error_entry "INVALID_EVIDENCE_DOMAIN"
                        "Executor returned an unknown evidence domain."] |}
      end
  end.

Definition settle_mismatch (a : ActionEnvelope) (s : settled) : settled :=
  let expected := evidence_domain_for_mode (execution_mode a) in
  if bool_decide (s_domain s = expected) then s
  else {| s_state := FAILED; s_evidence := REQUESTED; s_domain := expected;
          s_errors := s_errors s ++
            [error_entry "EVIDENCE_DOMAIN_MISMATCH"
               ("Executor evidence domain does not match action execution "
                +:+ "mode; expected " +:+ se_value expected +:+ ".")] |}.

Definition settle_fixture (a : ActionEnvelope) (s : settled) : settled :=
  if bool_decide (execution_mode a = FIXTURE) then
    {| s_state := if bool_decide (s_state s = COMPLETED) then DEGRADED else s_state s;
       s_evidence := SYNTHETIC; s_domain := s_domain s; s_errors := s_errors s |}
  else s.

Definition settle_requirement (a : ActionEnvelope) (s : settled) : settled :=
  let required := required_evidence (verification_policy a) in
  if negb (bool_decide (execution_mode a = FIXTURE)) && bool_decide (s_state s = COMPLETED)
     && negb (meets_evidence_requirement (s_evidence s) required)
  then {| s_state := if fail_closed (verification_policy a) then FAILED else DEGRADED;
          s_evidence := s_evidence s; s_domain := s_domain s;
          s_errors := s_errors s ++
            [error_entry "VERIFICATION_REQUIREMENT_NOT_MET"
               ("Executor produced " +:+ se_value (s_evidence s) +:+ "; action requires "
                +:+ se_value required +:+ ".")] |}
  else s.

Definition settle (a : ActionEnvelope) (x : ActionExecutionResult) : settled :=
  settle_requirement a
    (settle_fixture a (settle_mismatch a (settle_domain a x (settle_level a x)))).

(** [d.get(k) is True] *)
Definition dict_true (d : dict json) (k : string) : bool :=
  match dget d k with Some (JBool true) => true | _ => false end.

Definition is_driver_stage (s : AcknowledgementStage) : bool :=
  bool_decide (s = ACK_PROTOCOL_ACKNOWLEDGED) || bool_decide (s = ACK_DELIVERY_INFERRED).

Definition driver_acknowledgement_stage (x : ActionExecutionResult)
  : option AcknowledgementStage :=
  let from_ack (d : dict json) :=
    if dict_true d "acknowledged" then Some ACK_PROTOCOL_ACKNOWLEDGED
    else if dict_true d "delivery_inferred" then Some ACK_DELIVERY_INFERRED
    else None in
  let fallback :=
    match x_driver_ack x with
    | None | Some [] => None
    | Some d =>
        match dget d "stage" with
        | Some (JStr raw) =>
            match se_parse (upper raw) with
            | Some s => if is_driver_stage s then Some s else from_ack d
            | None => from_ack d
            end
        | _ => from_ack d
        end
    end in
  match x_acknowledgement_stage x with
  | Some s => if is_driver_stage s then Some s else fallback
  | None => fallback
  end.

Definition evidence_transitions (x : ActionExecutionResult) (ev : EvidenceLevel)
  : list (ActionState * string) :=
  (if dict_true (x_policy_decision x) "allowed" then [(POLICY_VALIDATED, "policy_allowed")] else [])
  ++ (if dict_true (default [] (x_simulation_result x)) "has_physics"
      then [(SIMULATION_VALIDATED, "physics_simulation_completed")] else [])
  ++ (if dict_true (x_authorization_decision x) "authorized"
      then [(AUTHORIZED, "authorization_granted")] else [])
  ++ (if dict_true (x_dispatch_result x) "accepted"
      then [(COMMAND_DISPATCHED, "command_dispatched")] else [])
  ++ match driver_acknowledgement_stage x with
     | Some ACK_PROTOCOL_ACKNOWLEDGED => [(PROTOCOL_ACKNOWLEDGED, "protocol_acknowledged")]
     | Some ACK_DELIVERY_INFERRED => [(DELIVERY_INFERRED, "delivery_inferred")]
     | _ => []
     end
  ++ (if strong_evidence ev then [(EFFECT_OBSERVED, "effect_observed")] else [])
  ++ (if bool_decide (ev = TASK_VERIFIED) then [(STATE_TASK_VERIFIED, "predicate_verified")] else []).

Definition acknowledgement_stage (x : ActionExecutionResult) (ev : EvidenceLevel)
  : AcknowledgementStage :=
  match ev with
  | TASK_VERIFIED => ACK_TASK_VERIFIED
  | PHYSICALLY_OBSERVED => ACK_EFFECT_OBSERVED
  | _ => match driver_acknowledgement_stage x with
         | Some s => s
         | None => match x_acknowledgement_stage x with
                   | Some s => s
                   | None => if dict_true (x_dispatch_result x) "accepted"
                             then ACK_COMMAND_DISPATCHED else ACK_REQUEST_ACCEPTED
                   end
         end
  end.

(** [_persist_receipt]: the receipt gains its own URI, then is written. *)
Definition persist_receipt (e : exec_env) (r : ExecutionReceipt) (dir : option string)
  : result string ExecutionReceipt :=
  let d := or_text dir "" in
  if negb (truthy_str d) then Ok r
  else
    let uri := receipt_uri e d in
    let arts := if bool_decide (uri ∈ r_artifacts r) then r_artifacts r
                else (r_artifacts r ++ [uri])%list in
    let r := {| r_action_id := r_action_id r; r_trace_id := r_trace_id r; r_mode := r_mode r;
                r_body_id := r_body_id r; r_body_snapshot_hash := r_body_snapshot_hash r;
                r_capability_id := r_capability_id r; r_final_state := r_final_state r;
                r_evidence_level := r_evidence_level r; r_evidence_domain := r_evidence_domain r;
                r_schema_version := r_schema_version r; r_policy_decision := r_policy_decision r;
                r_authorization_decision := r_authorization_decision r;
                r_resource_lease := r_resource_lease r;
                r_simulation_result := r_simulation_result r;
                r_dispatch_result := r_dispatch_result r; r_driver_ack := r_driver_ack r;
                r_acknowledgement_stage := r_acknowledgement_stage r;
                r_observations := r_observations r;
                r_verification_result := r_verification_result r; r_artifacts := arts;
                r_errors := r_errors r; r_transitions := r_transitions r;
                r_started_at := r_started_at r; r_finished_at := r_finished_at r |} in
    let* _ := write_receipt e r d in Ok r.

(** [authorization_decision] with the envelope's provenance. *)
Definition with_provenance (a : ActionEnvelope) (d : dict json) : dict json :=
  match provenance (authorization a) with [] => d | p => dset d "provenance" (JObj p) end.

(** The part of [_execute] that holds the lease; [run] is what the executor
    returned, or the text of what it raised. [Err] is an exception that leaves
    [_execute]. *)
Definition run_leased (e : exec_env) (a : ActionEnvelope) (l : ResourceLease)
    (run : result string ActionExecutionResult) : result string ExecutionReceipt :=
  let trs := (awaiting a ++ [(SCHEDULED, "lease_acquired")])%list in
  let lease := Some (ResourceLease_to_dict l) in
  match run with
  | Err message => Ok (failure_receipt e a FAILED "EXECUTOR_ERROR" message trs lease)
  | Ok x =>
      let s := settle a x in
      let* dom := map_err (fun _ => "evidence domain")
                    (receipt_post_init (execution_mode a) (Some (s_domain s))) in
      persist_receipt e
        {| r_action_id := action_id a; r_trace_id := trace_of e a; r_mode := execution_mode a;
           r_body_id := body_id a; r_body_snapshot_hash := body_snapshot_hash a;
           r_capability_id := capability_id a; r_final_state := s_state s;
           r_evidence_level := s_evidence s; r_evidence_domain := dom;
           r_schema_version := RECEIPT_SCHEMA_VERSION;
           r_policy_decision := x_policy_decision x;
           r_authorization_decision := with_provenance a (x_authorization_decision x);
           r_resource_lease := lease; r_simulation_result := x_simulation_result x;
           r_dispatch_result := x_dispatch_result x; r_driver_ack := x_driver_ack x;
           r_acknowledgement_stage := acknowledgement_stage x (s_evidence s);
           r_observations := x_observations x; r_verification_result := x_verification_result x;
           r_artifacts := x_artifacts x; r_errors := s_errors s;
           r_transitions := stamp e (trs ++ evidence_transitions x (s_evidence s)
                                         ++ [(s_state s, "executor_completed")]);
           r_started_at := started_now e; r_finished_at := finished_now e |}
        (x_artifact_directory x)
  end.

(** [list(args.get(k) or [])] of [_action_command_summary]: a true value that
    cannot be iterated raises. *)
Definition listable (v : option json) : result string unit :=
  let refused t := Err ("'" +:+ t +:+ "' object is not iterable") in
  match v with
  | Some (JBool true) => refused "bool"
  | Some (JInt z) => if z =? 0 then Ok tt else refused "int"
  | Some (JFloat f) => if float_eq f (Fin 0 0) then Ok tt else refused "float"
  | _ => Ok tt
  end.

(** [_action_command_summary], run with the lease held, before the executor:
    only whether it raises matters here, its value is a span attribute. *)
Definition action_command_summary (a : ActionEnvelope) : result string unit :=
  let* _ := listable (dget (arguments a) "names") in
  listable (dget (arguments a) "values").

(** [_execute] with the outcome of [acquire] and of the executor. *)
Definition execute {X} (e : exec_env) (executor : option X) (a : ActionEnvelope)
    (lease : option ResourceLease) (run : X -> result string ActionExecutionResult)
  : result string ExecutionReceipt :=
  match preflight executor (deadline_now e) a with
  | Err f => Ok (refuse e a f)
  | Ok x => match lease with
            | None => Ok (refuse e a (lease_timeout_refusal a))
            | Some l => let* _ := action_command_summary a in run_leased e a l (run x)
            end
  end.

(** [submit]'s handler around [_execute]. *)
Definition owner_receipt (e : exec_env) (a : ActionEnvelope) (out : result string ExecutionReceipt)
  : ExecutionReceipt :=
  match out with
  | Ok r => r
  | Err message => failure_receipt e a FAILED "GATEWAY_INTERNAL_ERROR" message [] None
  end.

(** ** The gateway's state and its lock-protected blocks *)

(** An in-flight action is represented by the identity of its
    [threading.Event]. [set_events] are the events already set. *)
Record ActionGateway {X} := {
  executors : gmap (string * ExecutionMode) X;
  receipts : gmap string ExecutionReceipt;
  inflight : gmap string nat;
  set_events : gset nat;
}.
Arguments ActionGateway : clear implicits.

Section Gateway.
Context {X : Type}.
Implicit Types g : ActionGateway X.

Definition ActionGateway_new : ActionGateway X :=
  {| executors := ∅; receipts := ∅; inflight := ∅; set_events := ∅ |}.

Definition register_executor g (capability_id : string) (mode : ExecutionMode) (x : X)
  : result pyexc (ActionGateway X) :=
  guard! nonblank capability_id else ValueError in
  Ok {| executors := <[(capability_id, mode) := x]> (executors g); receipts := receipts g;
        inflight := inflight g; set_events := set_events g |}.

Definition get_receipt g (id : string) : option ExecutionReceipt := receipts g !! id.

Definition discard_receipt g (id : string) : ActionGateway X * bool :=
  match inflight g !! id with
  | Some _ => (g, false)
  | None => ({| executors := executors g; receipts := delete id (receipts g);
                inflight := inflight g; set_events := set_events g |},
             bool_decide (is_Some (receipts g !! id)))
  end.

(** The first block of [submit]: [ev] is the event a new owner creates. *)
Inductive submit_role := Existing (r : ExecutionReceipt) | Wait (ev : nat) | Own.

Definition submit_begin g (ev : nat) (a : ActionEnvelope) : ActionGateway X * submit_role :=
  match receipts g !! action_id a with
  | Some r => (g, Existing r)
  | None => match inflight g !! action_id a with
            | Some ev' => (g, Wait ev')
            | None => ({| executors := executors g; receipts := receipts g;
                          inflight := <[action_id a := ev]> (inflight g);
                          set_events := set_events g |}, Own)
            end
  end.

(** What a duplicate returns once its wait ended with [signalled]. *)
Definition submit_wake g (e : exec_env) (a : ActionEnvelope) (signalled : bool)
  : ExecutionReceipt :=
  if signalled then
    match receipts g !! action_id a with
    | Some r => r
    | None => failure_receipt e a FAILED "INFLIGHT_ACTION_LOST"
                "The in-flight action ended without producing a receipt." [] None
    end
  else failure_receipt e a TIMED_OUT "DUPLICATE_ACTION_TIMEOUT"
         "Timed out waiting for the in-flight action with the same action_id." [] None.

(** The owner's two closing blocks. *)
Definition record_receipt g (a : ActionEnvelope) (r : ExecutionReceipt) : ActionGateway X :=
  {| executors := executors g; receipts := <[action_id a := r]> (receipts g);
     inflight := inflight g; set_events := set_events g |}.

Definition complete g (a : ActionEnvelope) : ActionGateway X :=
  {| executors := executors g; receipts := receipts g;
     inflight := delete (action_id a) (inflight g);
     set_events := match inflight g !! action_id a with
                   | Some ev => {[ev]} ∪ set_events g | None => set_events g end |}.

Definition reject g (e : exec_env) (a : ActionEnvelope) (code message : string)
    (state : ActionState) : ActionGateway X * ExecutionReceipt :=
  match receipts g !! action_id a with
  | Some r => (g, r)
  | None => let r := failure_receipt e a state code message [] None in
            (record_receipt g a r, r)
  end.

(** [submit] run without interference; the lease is free or times out. *)
Definition submit g (e : exec_env) (ev : nat) (a : ActionEnvelope)
    (lease : option ResourceLease) (run : X -> result string ActionExecutionResult)
  : ActionGateway X * ExecutionReceipt :=
  match submit_begin g ev a with
  | (g, Existing r) => (g, r)
  | (g, Wait _) => (g, submit_wake g e a false)
  | (g, Own) =>
      let out := execute e (executors g !! (capability_id a, execution_mode a)) a lease run in
      let r := owner_receipt e a out in
      (complete (record_receipt g a r) a, r)
  end.

(** ** Threads

    Each thread performs one call of [submit]; its number is the identity of
    the event it creates. *)
Inductive phase :=
| Waiting (a : ActionEnvelope) (ev : nat)
| Preparing (a : ActionEnvelope)
| Leasing (a : ActionEnvelope) (x : X)
| Executing (a : ActionEnvelope) (x : X) (l : ResourceLease)
| Unwinding (a : ActionEnvelope) (r : ExecutionReceipt)
| Recording (a : ActionEnvelope) (r : ExecutionReceipt)
| Publishing (a : ActionEnvelope) (r : ExecutionReceipt)
| Done (r : ExecutionReceipt).

(** The owner of an in-flight action. *)
Definition owned (p : phase) : option string :=
  match p with
  | Preparing a | Leasing a _ | Executing a _ _ | Unwinding a _ | Recording a _
  | Publishing a _ => Some (action_id a)
  | Waiting _ _ | Done _ => None
  end.

(** [executed]: actions whose executor was called and whose receipt has not
    been discarded since; [discarded]: actions whose receipt ever was. *)
Record gsys := {
  gw : ActionGateway X;
  res : rsys;
  threads : gmap nat phase;
  executed : list string;
  discarded : gset string;
}.

Definition gsys_init : gsys :=
  {| gw := ActionGateway_new; res := rsys_init; threads := ∅; executed := []; discarded := ∅ |}.

Definition set_thread (s : gsys) (i : nat) (p : phase) : gsys :=
  {| gw := gw s; res := res s; threads := <[i := p]> (threads s);
     executed := executed s; discarded := discarded s |}.
Definition set_gw (s : gsys) (g : ActionGateway X) : gsys :=
  {| gw := g; res := res s; threads := threads s;
     executed := executed s; discarded := discarded s |}.
Definition set_res (s : gsys) (r : rsys) : gsys :=
  {| gw := gw s; res := r; threads := threads s;
     executed := executed s; discarded := discarded s |}.

Definition role_phase (a : ActionEnvelope) (r : submit_role) : phase :=
  match r with Existing r => Done r | Wait ev => Waiting a ev | Own => Preparing a end.

Inductive gstep : gsys -> gsys -> Prop :=
| g_register s cap m x g :
    register_executor (gw s) cap m x = Ok g -> gstep s (set_gw s g)
| g_begin s i a g role :
    threads s !! i = None -> submit_begin (gw s) i a = (g, role) ->
    gstep s (set_thread (set_gw s g) i (role_phase a role))
| g_refuse s i a e f :
    threads s !! i = Some (Preparing a) ->
    preflight (executors (gw s) !! (capability_id a, execution_mode a)) (deadline_now e) a = Err f ->
    gstep s (set_thread s i (Recording a (refuse e a f)))
| g_ensure s i a :
    threads s !! i = Some (Preparing a) ->
    gstep s (set_res s {| rs_mgr := ensure_lock (rs_mgr (res s)) (body_id a);
                          rs_pc := rs_pc (res s) |})
| g_lease_timeout s i a e x :
    threads s !! i = Some (Preparing a) ->
    preflight (executors (gw s) !! (capability_id a, execution_mode a)) (deadline_now e) a = Ok x ->
    gstep s (set_thread s i (Recording a (refuse e a (lease_timeout_refusal a))))
| g_lock s i a now x m :
    threads s !! i = Some (Preparing a) ->
    preflight (executors (gw s) !! (capability_id a, execution_mode a)) now a = Ok x ->
    rs_pc (res s) !! i = None -> lock_acquire (rs_mgr (res s)) (body_id a) = Some m ->
    gstep s (set_thread (set_res s
      {| rs_mgr := m; rs_pc := <[i := Locked (body_id a) (action_id a)]> (rs_pc (res s)) |})
      i (Leasing a x))
| g_call s i a x id now :
    threads s !! i = Some (Leasing a x) ->
    let l := {| lease_id := id; lease_resource := body_id a; lease_action := action_id a;
                acquired_at := now |} in
    rs_pc (res s) !! i = Some (Locked (body_id a) (action_id a)) ->
    action_command_summary a = Ok tt ->
    gstep s {| gw := gw s;
               res := {| rs_mgr := set_active (rs_mgr (res s)) l;
                         rs_pc := <[i := Holding l]> (rs_pc (res s)) |};
               threads := <[i := Executing a x l]> (threads s);
               executed := action_id a :: executed s; discarded := discarded s |}
| g_summary_raises s i a x e id now message :
    threads s !! i = Some (Leasing a x) ->
    let l := {| lease_id := id; lease_resource := body_id a; lease_action := action_id a;
                acquired_at := now |} in
    rs_pc (res s) !! i = Some (Locked (body_id a) (action_id a)) ->
    action_command_summary a = Err message ->
    gstep s (set_thread (set_res s {| rs_mgr := set_active (rs_mgr (res s)) l;
                                      rs_pc := <[i := Holding l]> (rs_pc (res s)) |})
               i (Unwinding a (owner_receipt e a (Err message))))
| g_return s i a x l e run :
    threads s !! i = Some (Executing a x l) ->
    gstep s (set_thread s i (Unwinding a (owner_receipt e a (run_leased e a l run))))
| g_drop s i a r l :
    threads s !! i = Some (Unwinding a r) -> rs_pc (res s) !! i = Some (Holding l) ->
    gstep s (set_res s {| rs_mgr := drop_active (rs_mgr (res s)) l;
                          rs_pc := <[i := Popped l]> (rs_pc (res s)) |})
| g_unlock s i a r l m :
    threads s !! i = Some (Unwinding a r) -> rs_pc (res s) !! i = Some (Popped l) ->
    lock_release (rs_mgr (res s)) (lease_resource l) = Some m ->
    gstep s (set_thread (set_res s {| rs_mgr := m; rs_pc := delete i (rs_pc (res s)) |})
               i (Recording a r))
| g_record s i a r :
    threads s !! i = Some (Recording a r) ->
    gstep s (set_thread (set_gw s (record_receipt (gw s) a r)) i (Publishing a r))
| g_complete s i a r :
    threads s !! i = Some (Publishing a r) ->
    gstep s (set_thread (set_gw s (complete (gw s) a)) i (Done r))
| g_wake s i a ev e signalled :
    threads s !! i = Some (Waiting a ev) ->
    (signalled = true -> ev ∈ set_events (gw s)) ->
    gstep s (set_thread s i (Done (submit_wake (gw s) e a signalled)))
| g_reject s e a code message st :
    gstep s (set_gw s (reject (gw s) e a code message st).1)
| g_discard s id g b :
    discard_receipt (gw s) id = (g, b) ->
    gstep s (if b then {| gw := g; res := res s; threads := threads s;
                          executed := filter (.≠ id) (executed s);
                          discarded := {[id]} ∪ discarded s |}
             else set_gw s g).
End Gateway.


Arguments gsys : clear implicits.
Arguments phase : clear implicits.

(** ** Invariants *)

Section Invariant.
Context {X : Type}.
Implicit Types (g : ActionGateway X) (s : gsys X) (p : phase X).

(** Owners, events, waiters and recorded receipts. *)
Record own_inv g (th : gmap nat (phase X)) (disc : gset string) : Prop := {
  oi_own : forall id i, inflight g !! id = Some i <->
    exists p, th !! i = Some p /\ owned p = Some id;
  oi_set : forall i, i ∈ set_events g -> exists r, th !! i = Some (Done r);
  oi_wait : forall i a ev, th !! i = Some (Waiting a ev) ->
    inflight g !! action_id a = Some ev \/
    (ev ∈ set_events g /\ (is_Some (receipts g !! action_id a) \/ action_id a ∈ disc));
  oi_pub : forall i a r, th !! i = Some (Publishing a r) -> is_Some (receipts g !! action_id a);
}.

Ltac look H := rewrite lookup_insert in H; case_decide; simplify_eq/=.

Lemma own_move g th disc i p p' id :
  own_inv g th disc -> th !! i = Some p -> owned p = Some id -> owned p' = Some id ->
  (forall a r, p' = Publishing a r -> is_Some (receipts g !! action_id a)) ->
  own_inv g (<[i := p']> th) disc.
Proof.
  intros [Ho Hs Hw Hp] Hi Hid Hid' Hpub. constructor.
  - intros id' j. rewrite Ho. split; intros (q & Hj & Hq).
    + destruct (decide (i = j)) as [<-|].
      * exists p'. rewrite lookup_insert_eq. split; congruence.
      * exists q. by rewrite lookup_insert_ne.
    + look Hj; [|eauto]. exists p. split; congruence.
  - intros j Hj. destruct (Hs j Hj) as [r Hr]. exists r.
    rewrite lookup_insert_ne; [done|]. intros <-. by simplify_eq.
  - intros j a ev Hj. look Hj; eauto.
  - intros j a r Hj. look Hj; eauto.
Qed.

(** Adding a receipt keeps everything. *)
Lemma own_record g th disc a r :
  own_inv g th disc -> own_inv (record_receipt g a r) th disc.
Proof.
  assert (Hmono : forall id, is_Some (receipts g !! id) ->
                  is_Some (<[action_id a := r]> (receipts g) !! id)).
  { intros id Hid. rewrite lookup_insert. by case_decide. }
  intros [Ho Hs Hw Hp]. constructor; simpl; [done|done| |by eauto].
  intros i b ev [Hi|[Hi [Hr|Hd]]]%Hw; eauto.
Qed.

Lemma own_begin g th disc i a g' role :
  own_inv g th disc -> th !! i = None -> submit_begin g i a = (g', role) ->
  own_inv g' (<[i := role_phase a role]> th) disc.
Proof.
  intros [Ho Hs Hw Hp] Hi. unfold submit_begin.
  destruct (receipts g !! action_id a) as [r|] eqn:Hr;
    [|destruct (inflight g !! action_id a) as [ev|] eqn:He];
    intros [= <- <-]; constructor; simpl.
  - intros id j. rewrite Ho. split; intros (q & Hj & Hq).
    + exists q. rewrite lookup_insert_ne by congruence. done.
    + look Hj; eauto.
  - intros j (q & Hj)%Hs. exists q. rewrite lookup_insert_ne by congruence. done.
  - intros j b ev Hj. look Hj; eauto.
  - intros j b q Hj. look Hj; eauto.
  - intros id j. rewrite Ho. split; intros (q & Hj & Hq).
    + exists q. rewrite lookup_insert_ne by congruence. done.
    + look Hj; eauto.
  - intros j (q & Hj)%Hs. exists q. rewrite lookup_insert_ne by congruence. done.
  - intros j b ev' Hj. look Hj; eauto.
  - intros j b q Hj. look Hj; eauto.
  - intros id j. rewrite lookup_insert. case_decide; subst.
    + split; [intros [=<-]; exists (Preparing a); by rewrite lookup_insert_eq|].
      intros (q & Hj & Hq). look Hj; [done|].
      assert (inflight g !! action_id a = Some j) by (apply Ho; eauto). congruence.
    + rewrite Ho. split; intros (q & Hj & Hq).
      * exists q. rewrite lookup_insert_ne by congruence. done.
      * look Hj; eauto.
  - intros j (q & Hj)%Hs. exists q. rewrite lookup_insert_ne by congruence. done.
  - intros j b ev Hj. look Hj. apply Hw in Hj as [Hj|Hj]; [|by right].
    left. rewrite lookup_insert_ne; [done|]. congruence.
  - intros j b q Hj. look Hj; eauto.
Qed.

Lemma own_complete g th disc i a r :
  own_inv g th disc -> th !! i = Some (Publishing a r) ->
  own_inv (complete g a) (<[i := Done r]> th) disc.
Proof.
  intros [Ho Hs Hw Hp] Hi.
  assert (Hin : inflight g !! action_id a = Some i) by (apply Ho; eauto).
  unfold complete. rewrite Hin. constructor; simpl.
  - intros id j. destruct (decide (action_id a = id)) as [<-|Hne].
    + rewrite lookup_delete_eq. split; [done|]. intros (q & Hj & Hq).
      look Hj. assert (inflight g !! action_id a = Some j) by (apply Ho; eauto). congruence.
    + rewrite lookup_delete_ne, Ho by done. split; intros (q & Hj & Hq).
      * exists q. rewrite lookup_insert_ne; [done|]. intros <-. by simplify_eq/=.
      * look Hj; eauto.
  - intros j. rewrite elem_of_union, elem_of_singleton. intros [->|(q & Hj)%Hs].
    + exists r. by rewrite lookup_insert_eq.
    + destruct (decide (i = j)) as [<-|]; [by simplify_eq|].
      exists q. by rewrite lookup_insert_ne.
  - intros j b ev Hj. look Hj. apply Hw in Hj as [Hj|[Hj Hd]]; [|set_solver].
    destruct (decide (action_id a = action_id b)) as [Heq|].
    + right. rewrite <- Heq in *. assert (ev = i) as -> by congruence.
      split; [set_solver|left; eauto].
    + left. by rewrite lookup_delete_ne.
  - intros j b q Hj. look Hj; eauto.
Qed.

Lemma own_wake g th disc i a ev r :
  own_inv g th disc -> th !! i = Some (Waiting a ev) -> own_inv g (<[i := Done r]> th) disc.
Proof.
  intros [Ho Hs Hw Hp] Hi. constructor.
  - intros id j. rewrite Ho. split; intros (q & Hj & Hq).
    + exists q. rewrite lookup_insert_ne; [done|]. intros <-. by simplify_eq/=.
    + look Hj; eauto.
  - intros j (q & Hj)%Hs. destruct (decide (i = j)) as [<-|]; [by simplify_eq|].
    exists q. by rewrite lookup_insert_ne.
  - intros j b e Hj. look Hj; eauto.
  - intros j b q Hj. look Hj; eauto.
Qed.

Lemma own_discard g th disc id g' b :
  own_inv g th disc -> discard_receipt g id = (g', b) ->
  own_inv g' th (if b then {[id]} ∪ disc else disc).
Proof.
  intros [Ho Hs Hw Hp]. unfold discard_receipt.
  destruct (inflight g !! id) as [ev|] eqn:He; intros [= <- <-]; [by constructor|].
  assert (Hmono : forall k, is_Some (receipts g !! k) ->
            is_Some (delete id (receipts g) !! k) \/
            k ∈ (if bool_decide (is_Some (receipts g !! id)) then {[id]} ∪ disc else disc)).
  { intros k Hk. destruct (decide (id = k)) as [<-|].
    - right. rewrite bool_decide_eq_true_2 by done. set_solver.
    - left. by rewrite lookup_delete_ne. }
  constructor; simpl; [done|done| |].
  - intros i a ev Hi. destruct (Hw _ _ _ Hi) as [?|[? [Hr|Hd]]]; [by left|right; auto|].
    right. split; [done|]. right. case_bool_decide; set_solver.
  - intros i a r Hi. pose proof (Hp _ _ _ Hi) as Hr.
    assert (inflight g !! action_id a = Some i) by (apply Ho; eauto).
    rewrite lookup_delete_ne; [done|]. intros ?; congruence.
Qed.

(** Lease ownership of each phase. *)
Definition pc_ok (p : option (phase X)) (r : option rpc) : Prop :=
  match p with
  | Some (Leasing a _) => r = Some (Locked (body_id a) (action_id a))
  | Some (Executing a _ l) =>
      r = Some (Holding l) /\ lease_resource l = body_id a /\ lease_action l = action_id a
  | Some (Unwinding a _) =>
      exists l, (r = Some (Holding l) \/ r = Some (Popped l)) /\ lease_resource l = body_id a
  | _ => r = None
  end.

Definition pc_inv s : Prop := forall i, pc_ok (threads s !! i) (rs_pc (res s) !! i).

(** Executions. *)
Definition started p : bool :=
  match p with
  | Executing _ _ _ | Unwinding _ _ | Recording _ _ | Publishing _ _ => true | _ => false
  end.

Record exec_inv s : Prop := {
  ei_nodup : NoDup (executed s);
  ei_done : forall id, id ∈ executed s -> is_Some (receipts (gw s) !! id) \/
    exists i p, threads s !! i = Some p /\ owned p = Some id /\ started p = true;
  ei_fresh : forall i p id, threads s !! i = Some p -> owned p = Some id ->
    started p = false -> id ∉ executed s;
}.

Record ginv s : Prop := {
  gi_res : rinv (res s);
  gi_own : own_inv (gw s) (threads s) (discarded s);
  gi_pc : pc_inv s;
  gi_exec : exec_inv s;
}.
End Invariant.

Section Preservation.
Context {X : Type}.
Implicit Types (g : ActionGateway X) (s : gsys X) (p : phase X).

Ltac look H := rewrite lookup_insert in H; case_decide; simplify_eq/=.

Lemma pc_update (th : gmap nat (phase X)) (pc pc' : gmap nat rpc) i p' :
  (forall j, pc_ok (th !! j) (pc !! j)) -> pc_ok (Some p') (pc' !! i) ->
  (forall j, i <> j -> pc' !! j = pc !! j) ->
  forall j, pc_ok (<[i := p']> th !! j) (pc' !! j).
Proof.
  intros Hpc Hi Hj j. rewrite lookup_insert. case_decide; [by subst|].
  by rewrite Hj.
Qed.

Lemma exec_move s i p p' id :
  exec_inv s -> threads s !! i = Some p -> owned p = Some id -> owned p' = Some id ->
  (started p = true -> started p' = true) ->
  exec_inv (set_thread s i p').
Proof.
  intros [Hn Hd Hf] Hi Hid Hid' Hst. constructor; simpl; [done|..].
  - intros k [Hk|(j & q & Hj & Hq & Hs)]%Hd; [by left|right].
    destruct (decide (i = j)) as [<-|].
    + exists i, p'. rewrite lookup_insert_eq. simplify_eq. auto.
    + exists j, q. by rewrite lookup_insert_ne.
  - intros j q k Hj Hq Hs. look Hj; [|eauto]. eapply Hf; [exact Hi|congruence|].
    destruct (started p); [by rewrite Hst in Hs|done].
Qed.

(** Only the gateway changes, and no receipt is lost. *)
Lemma exec_gw s g :
  exec_inv s -> (forall id, is_Some (receipts (gw s) !! id) -> is_Some (receipts g !! id)) ->
  exec_inv (set_gw s g).
Proof.
  intros [Hn Hd Hf] Hg. constructor; simpl; [done| |done].
  intros k [Hk|Hk]%Hd; eauto.
Qed.

(** Thread [i], which owns nothing afterwards, leaves a receipt behind if it
    owned an action before. *)
Lemma exec_leave s i p' :
  exec_inv s -> owned p' = None ->
  (forall p id, threads s !! i = Some p -> owned p = Some id ->
     is_Some (receipts (gw s) !! id)) ->
  exec_inv (set_thread s i p').
Proof.
  intros [Hn Hd Hf] Hp' Hr. constructor; simpl; [done| |].
  - intros k [Hk|(j & q & Hj & Hq & Hs)]%Hd; [by left|].
    destruct (decide (i = j)) as [<-|]; [left; eauto|].
    right. exists j, q. by rewrite lookup_insert_ne.
  - intros j q k Hj Hq Hs. look Hj; eauto.
Qed.

Lemma exec_begin s i a g role :
  own_inv (gw s) (threads s) (discarded s) -> exec_inv s -> threads s !! i = None ->
  submit_begin (gw s) i a = (g, role) ->
  exec_inv (set_thread (set_gw s g) i (role_phase a role)).
Proof.
  intros Ho He Hi Hb.
  assert (Hg : receipts g = receipts (gw s)).
  { unfold submit_begin in Hb. repeat case_match; simplify_eq/=; done. }
  assert (He' : exec_inv (set_gw s g)) by (apply exec_gw; [done|]; intros id; by rewrite Hg).
  destruct role as [r|ev|]; simpl.
  - apply exec_leave; simpl; [done|done|]. intros p id; by rewrite Hi.
  - apply exec_leave; simpl; [done|done|]. intros p id; by rewrite Hi.
  - destruct He' as [Hn Hd Hf]. simpl in *. constructor; simpl; [done| |].
    + intros k [Hk|(j & q & Hj & Hq)]%Hd; [by left|].
      right. exists j, q. rewrite lookup_insert_ne by congruence. done.
    + intros j q k Hj Hq Hs. look Hj; [|eauto].
      intros [Hk|(j' & q & Hj & Hq & _)]%Hd; rewrite ?Hg in *;
        unfold submit_begin in Hb; repeat case_match; simplify_eq/=.
      * destruct Hk; congruence.
      * assert (inflight (gw s) !! action_id a = Some j') by (apply Ho; eauto).
        congruence.
Qed.

Lemma owner_unique g th disc i j p q id :
  own_inv g th disc -> th !! i = Some p -> owned p = Some id ->
  th !! j = Some q -> owned q = Some id -> i = j.
Proof.
  intros Ho Hi Hp Hj Hq.
  assert (inflight g !! id = Some i) by (apply (oi_own _ _ _ Ho); eauto).
  assert (inflight g !! id = Some j) by (apply (oi_own _ _ _ Ho); eauto).
  congruence.
Qed.

Lemma exec_call s i a x l rs :
  own_inv (gw s) (threads s) (discarded s) -> exec_inv s ->
  threads s !! i = Some (Leasing a x) ->
  exec_inv {| gw := gw s; res := rs; threads := <[i := Executing a x l]> (threads s);
              executed := action_id a :: executed s; discarded := discarded s |}.
Proof.
  intros Ho He Hi.
  assert (Hnew : action_id a ∉ executed s) by (eapply (ei_fresh s He); eauto; done).
  destruct He as [Hn Hd Hf]. constructor; simpl.
  - by constructor.
  - intros k [->|Hk]%elem_of_cons.
    + right. exists i, (Executing a x l). by rewrite lookup_insert_eq.
    + apply Hd in Hk as [Hk|(j & q & Hj & Hq & Hs)]; [by left|].
      right. exists j, q. rewrite lookup_insert_ne; [done|]. intros <-. by simplify_eq/=.
  - intros j q k Hj Hq Hs. look Hj.
    rewrite not_elem_of_cons. split; [|eauto].
    intros ->. by assert (i = j) by (eapply owner_unique; eauto; done).
Qed.

Lemma exec_discard s id g b :
  own_inv (gw s) (threads s) (discarded s) -> exec_inv s ->
  discard_receipt (gw s) id = (g, b) ->
  exec_inv (if b then {| gw := g; res := res s; threads := threads s;
                         executed := filter (.≠ id) (executed s);
                         discarded := {[id]} ∪ discarded s |}
            else set_gw s g).
Proof.
  intros Ho He. unfold discard_receipt.
  destruct (inflight (gw s) !! id) as [ev|] eqn:Hin; intros [= <- <-]; [by destruct s|].
  case_bool_decide as Hr.
  - destruct He as [Hn Hd Hf]. constructor; simpl.
    + by apply NoDup_filter.
    + intros k [Hne Hk]%list_elem_of_filter. apply Hd in Hk as [Hk|Hk]; [left|by right].
      by rewrite lookup_delete_ne by congruence.
    + intros i p k Hi Hp Hs [_ Hk]%list_elem_of_filter. by eapply Hf.
  - apply exec_gw; [done|]. simpl. intros k Hk. rewrite lookup_delete_ne; [done|].
    by intros ->.
Qed.
End Preservation.

(** ** Reachable states *)

Section Reachable.
Context {X : Type}.
Implicit Types (s : gsys X).

Lemma ginv_init : ginv (X := X) gsys_init.
Proof.
  constructor; simpl.
  - apply rinv_init.
  - constructor; simpl.
    + intros id i. rewrite lookup_empty. split; [done|].
      intros (p & Hp & _). by rewrite lookup_empty in Hp.
    + set_solver.
    + intros i a ev. by rewrite lookup_empty.
    + intros i a r. by rewrite lookup_empty.
  - intros i. simpl. by rewrite !lookup_empty.
  - constructor; simpl; [constructor|set_solver|].
    intros i p id. by rewrite lookup_empty.
Qed.

Lemma record_keeps (g : ActionGateway X) a r id :
  is_Some (receipts g !! id) -> is_Some (receipts (record_receipt g a r) !! id).
Proof. intros H. simpl. rewrite lookup_insert. by case_decide. Qed.

Lemma exec_res s r : exec_inv s -> exec_inv (set_res s r).
Proof. intros [? ? ?]. by constructor. Qed.

Lemma ginv_step s s' : ginv s -> gstep s s' -> ginv s'.
Proof.
  intros [Hr Ho Hp He] Hs.
  destruct Hs as [s cap m x g Hg|s i a g role Hi Hb|s i a e f Hi Hf|s i a Hi
    |s i a e x Hi Hf|s i a now x m Hi Hf Hpc Hl|s i a x id now Hi l Hpc Hsum|s i a x e id now msg Hi l Hpc Hsum
    |s i a x l e run Hi
    |s i a r l Hi Hpc|s i a r l m Hi Hpc Hl|s i a r Hi|s i a r Hi|s i a ev e sg Hi Hsg
    |s e a c msg st|s id g b Hd]; pose proof Hp as Hp0;
    try (specialize (Hp0 i); rewrite Hi in Hp0; simpl in Hp0).
  - unfold register_executor in Hg. ok_inv Hg. subst g. constructor; try done.
    + destruct Ho. by constructor.
    + by apply exec_gw.
  - constructor; simpl; [done|by eapply own_begin| |by apply exec_begin].
    intros j. simpl. apply (pc_update _ (rs_pc (res s))); [done|by destruct role|done].
  - constructor; simpl; [done| |
      |by eapply exec_move].
    + by eapply own_move.
    + intros j. by apply (pc_update _ (rs_pc (res s))).
  - constructor; simpl; [|done| |by apply exec_res].
    + eapply rinv_step; [exact Hr|apply rstep_ensure].
    + done.
  - constructor; simpl; [done|by eapply own_move| |by eapply exec_move].
    intros j. by apply (pc_update _ (rs_pc (res s))).
  - constructor; simpl; [|by eapply own_move| |].
    + by eapply rinv_step, rstep_lock.
    + intros j. simpl. apply (pc_update _ (rs_pc (res s))); [done|by rewrite lookup_insert_eq|].
      intros k Hk. by rewrite lookup_insert_ne.
    + eapply (exec_move (set_res s _)); [by apply exec_res|done..].
  - constructor; simpl; [|by eapply own_move| |by apply exec_call].
    + eapply rinv_step; [exact Hr|]. by eapply rstep_set.
    + intros j. simpl. apply (pc_update _ (rs_pc (res s))); [done|by rewrite lookup_insert_eq|].
      intros k Hk. by rewrite lookup_insert_ne.
  - constructor; simpl; [|by eapply own_move| |].
    + eapply rinv_step; [exact Hr|]. by eapply rstep_set.
    + intros j. simpl. apply (pc_update _ (rs_pc (res s))); [done| |].
      * rewrite lookup_insert_eq. simpl. exists l. auto.
      * intros k Hk. by rewrite lookup_insert_ne.
    + eapply (exec_move (set_res s _)); [by apply exec_res|done..].
  - constructor; simpl; [done|by eapply own_move| |by eapply exec_move].
    intros j. apply (pc_update _ (rs_pc (res s))); [done| |done]. simpl. exists l. naive_solver.
  - constructor; simpl; [|done| |by apply exec_res].
    + by eapply rinv_step, rstep_drop.
    + intros j. simpl. destruct (decide (i = j)) as [<-|].
      * rewrite Hi, lookup_insert_eq. simpl. exists l. naive_solver.
      * rewrite lookup_insert_ne by done. apply Hp.
  - constructor; simpl; [|by eapply own_move| |].
    + by eapply rinv_step, rstep_unlock.
    + intros j. simpl. apply (pc_update _ (rs_pc (res s))); [done|by rewrite lookup_delete_eq|].
      intros k Hk. by rewrite lookup_delete_ne.
    + eapply (exec_move (set_res s _)); [by apply exec_res|done..].
  - constructor; simpl; [done| | |].
    + eapply own_move; [by apply own_record|done|done|done|].
      intros b q [= <- <-]. simpl. rewrite lookup_insert_eq. by eexists.
    + intros j. by apply (pc_update _ (rs_pc (res s))).
    + eapply (exec_move (set_gw s _)); try done.
      apply exec_gw; [done|]. intros id. apply record_keeps.
  - constructor; simpl; [done|by apply own_complete| |].
    + intros j. by apply (pc_update _ (rs_pc (res s))).
    + apply (exec_leave (set_gw s _)); [by apply exec_gw|done|].
      simpl. intros p id Hp1 Hid. simplify_eq/=. by eapply (oi_pub _ _ _ Ho).
  - constructor; simpl; [done|by eapply own_wake| |].
    + intros j. by apply (pc_update _ (rs_pc (res s))).
    + apply exec_leave; [done|done|]. intros p id Hp1 Hid. by simplify_eq/=.
  - unfold reject. destruct (receipts (gw s) !! action_id a); simpl; [by destruct s|].
    constructor; simpl; [done|by apply own_record|done|].
    apply exec_gw; [done|]. intros id. apply record_keeps.
  - pose proof (own_discard _ _ _ _ _ _ Ho Hd) as Ho'.
    pose proof (exec_discard s id g b Ho He Hd) as He'.
    by destruct b; constructor.
Qed.

Lemma ginv_reach s : rtc gstep gsys_init s -> ginv s.
Proof. apply reach_inv; [apply ginv_init | apply ginv_step]. Qed.
End Reachable.

(** ** Receipts *)

(** A receipt that claims no more than its mode can show. *)
Definition honest (r : ExecutionReceipt) : Prop :=
  r_evidence_domain r = evidence_domain_for_mode (r_mode r) /\
  (r_mode r = FIXTURE -> r_evidence_level r = SYNTHETIC).

Lemma failure_receipt_honest e a st code msg trs lease :
  let r := failure_receipt e a st code msg trs lease in
  honest r /\ r_action_id r = action_id a /\ strong_evidence (r_evidence_level r) = false.
Proof.
  simpl. unfold honest. simpl. case_bool_decide; repeat split; try done.
Qed.

(** What each block of [settle] keeps. *)
Lemma settle_level_spec a x :
  let s := settle_level a x in
  s_state s = COMPLETED ->
  x_final_state x = COMPLETED /\ se_parse (x_evidence_level x) = Some (s_evidence s) /\
  s_errors s = x_errors x.
Proof. unfold settle_level. by destruct (se_parse (x_evidence_level x)). Qed.

Lemma settle_domain_spec a x s :
  let s' := settle_domain a x s in
  s_state s' = COMPLETED ->
  s_state s = COMPLETED /\ s_evidence s' = s_evidence s /\ s_errors s' = s_errors s /\
  (x_evidence_domain x = None \/ x_evidence_domain x = Some (se_value (s_domain s'))).
Proof.
  unfold settle_domain. destruct (x_evidence_domain x) as [t|]; [|by auto].
  destruct (se_parse t) as [d|] eqn:Ht; [apply se_parse_some in Ht as <-|done]. auto.
Qed.

Lemma settle_mismatch_spec a s :
  let s' := settle_mismatch a s in
  s_domain s' = evidence_domain_for_mode (execution_mode a) /\
  (s_state s' = COMPLETED -> s' = s).
Proof. unfold settle_mismatch. by case_bool_decide. Qed.

Lemma settle_fixture_spec a s :
  let s' := settle_fixture a s in
  s_domain s' = s_domain s /\
  (execution_mode a = FIXTURE -> s_evidence s' = SYNTHETIC /\ s_state s' <> COMPLETED) /\
  (s_state s' = COMPLETED -> s' = s).
Proof.
  unfold settle_fixture. case_bool_decide; simpl; [|done].
  case_bool_decide; repeat split; intros; done.
Qed.

Lemma settle_requirement_spec a s :
  let s' := settle_requirement a s in
  s_domain s' = s_domain s /\ s_evidence s' = s_evidence s /\
  (s_state s' = COMPLETED -> s' = s /\
     (execution_mode a = FIXTURE \/
      meets_evidence_requirement (s_evidence s) (required_evidence (verification_policy a)) = true)).
Proof.
  unfold settle_requirement. case_match eqn:H; simpl.
  - do 2 (split; [done|]). by destruct (fail_closed _).
  - do 2 (split; [done|]). intros Hc. split; [done|].
    rewrite Hc in H. case_bool_decide; [by left|right].
    by apply negb_false_iff in H.
Qed.

Lemma settle_spec a x :
  let s := settle a x in
  s_domain s = evidence_domain_for_mode (execution_mode a) /\
  (execution_mode a = FIXTURE -> s_evidence s = SYNTHETIC /\ s_state s <> COMPLETED) /\
  (s_state s = COMPLETED ->
     x_final_state x = COMPLETED /\ se_parse (x_evidence_level x) = Some (s_evidence s) /\
     (x_evidence_domain x = None \/
      x_evidence_domain x = Some (se_value (evidence_domain_for_mode (execution_mode a)))) /\
     meets_evidence_requirement (s_evidence s) (required_evidence (verification_policy a)) = true /\
     s_errors s = x_errors x).
Proof.
  unfold settle. cbv zeta.
  set (s1 := settle_level a x). set (s2 := settle_domain a x s1).
  set (s3 := settle_mismatch a s2). set (s4 := settle_fixture a s3).
  destruct (settle_requirement_spec a s4) as (Hd5 & He5 & Hc5).
  destruct (settle_fixture_spec a s3) as (Hd4 & Hf4 & Hc4).
  destruct (settle_mismatch_spec a s2) as (Hd3 & Hc3).
  fold s3 in Hd3, Hc3. fold s4 in Hd4, Hf4, Hc4.
  split; [congruence|]. split.
  - intros Hm. destruct (Hf4 Hm) as [He Hn]. split; [congruence|].
    intros Hc. destruct (Hc5 Hc) as [Heq _]. by rewrite Heq in Hc.
  - intros Hc. destruct (Hc5 Hc) as [Heq Hreq]. rewrite Heq in Hc |- *.
    destruct Hreq as [Hm|Hreq]; [by destruct (Hf4 Hm)|].
    specialize (Hc4 Hc). rewrite Hc4 in Hc.
    specialize (Hc3 Hc). rewrite Hc3 in Hc.
    destruct (settle_domain_spec a x s1 Hc) as (H1 & He2 & Hx2 & Hdom).
    destruct (settle_level_spec a x H1) as (Hx & Hev & Herr).
    fold s1 in Hev, Herr. fold s2 in He2, Hx2, Hdom.
    split; [done|]. rewrite <- Hd3. rewrite Hc4, Hc3, He2, Hx2 in *.
    repeat split; done.
Qed.

Lemma persist_receipt_ok e r dir r' :
  persist_receipt e r dir = Ok r' ->
  r_action_id r' = r_action_id r /\ r_mode r' = r_mode r /\
  r_final_state r' = r_final_state r /\ r_evidence_level r' = r_evidence_level r /\
  r_evidence_domain r' = r_evidence_domain r /\ r_errors r' = r_errors r.
Proof.
  unfold persist_receipt. destruct (negb _); intros Hx; ok_inv Hx; by subst.
Qed.

(** [run_leased] never trips the receipt's own domain check. *)
Lemma run_leased_ok e a l run r :
  run_leased e a l run = Ok r ->
  (exists msg, run = Err msg /\
     r = failure_receipt e a FAILED "EXECUTOR_ERROR" msg
           (awaiting a ++ [(SCHEDULED, "lease_acquired")]) (Some (ResourceLease_to_dict l))) \/
  (exists x, run = Ok x /\ r_action_id r = action_id a /\ r_mode r = execution_mode a /\
     r_final_state r = s_state (settle a x) /\ r_evidence_level r = s_evidence (settle a x) /\
     r_evidence_domain r = s_domain (settle a x) /\ r_errors r = s_errors (settle a x)).
Proof.
  unfold run_leased. destruct run as [x|msg]; [|intros [= <-]; eauto].
  destruct (settle_spec a x) as (Hd & _). unfold receipt_post_init.
  rewrite bool_decide_eq_true_2 by done. simpl.
  intros H%persist_receipt_ok. simpl in H. right. exists x. naive_solver.
Qed.

Lemma owner_receipt_honest e a l run :
  let r := owner_receipt e a (run_leased e a l run) in
  honest r /\ r_action_id r = action_id a.
Proof.
  simpl. destruct (run_leased e a l run) as [r|m] eqn:H; cbn [owner_receipt].
  - apply run_leased_ok in H as [(m & _ & ->)|(x & _ & Ha & Hm & _ & He & Hd & _)].
    + destruct (failure_receipt_honest e a FAILED "EXECUTOR_ERROR" m
        (awaiting a ++ [(SCHEDULED, "lease_acquired")]) (Some (ResourceLease_to_dict l)))
        as (? & ? & _). done.
    + destruct (settle_spec a x) as (Hd' & Hf & _). unfold honest.
      rewrite Hm, He, Hd. split; [|done]. split; [done|]. intros Hx. by apply Hf.
  - destruct (failure_receipt_honest e a FAILED "GATEWAY_INTERNAL_ERROR" m [] None)
      as (? & ? & _). done.
Qed.

Section Receipts.
Context {X : Type}.
Implicit Types (s : gsys X) (g : ActionGateway X) (p : phase X).

Definition phase_receipt p : option ExecutionReceipt :=
  match p with Unwinding _ r | Recording _ r | Publishing _ r => Some r | _ => None end.

(** A receipt of action [id]: honest, and strong evidence only for an action
    whose executor ran. *)
Definition receipt_of (ex : list string) (id : string) (r : ExecutionReceipt) : Prop :=
  honest r /\ r_action_id r = id /\
  (strong_evidence (r_evidence_level r) = true -> id ∈ ex).

Record rec_inv s : Prop := {
  rc_map : forall id r, receipts (gw s) !! id = Some r -> receipt_of (executed s) id r;
  rc_phase : forall i p r id, threads s !! i = Some p -> phase_receipt p = Some r ->
    owned p = Some id -> receipt_of (executed s) id r;
  rc_run : forall i a x l, threads s !! i = Some (Executing a x l) ->
    action_id a ∈ executed s;
}.

Ltac look H := rewrite lookup_insert in H; case_decide; simplify_eq/=.

Lemma receipt_of_failure ex e a st code msg trs lease :
  receipt_of ex (action_id a) (failure_receipt e a st code msg trs lease).
Proof.
  destruct (failure_receipt_honest e a st code msg trs lease) as (Hh & Ha & Hs).
  split; [done|]. split; [done|]. rewrite Hs. done.
Qed.

Lemma rec_thread s i p :
  rec_inv s ->
  (forall r id, phase_receipt p = Some r -> owned p = Some id -> receipt_of (executed s) id r) ->
  (forall a x l, p = Executing a x l -> action_id a ∈ executed s) ->
  rec_inv (set_thread s i p).
Proof.
  intros [Hm Hp Hr] H1 H2. constructor; simpl; [done| |].
  - intros j q r id Hj. look Hj; eauto.
  - intros j a x l Hj. look Hj; eauto.
Qed.

Lemma rec_gw s g :
  rec_inv s -> (forall id r, receipts g !! id = Some r -> receipt_of (executed s) id r) ->
  rec_inv (set_gw s g).
Proof. intros [Hm Hp Hr] H. by constructor. Qed.

Lemma rec_record s a r :
  rec_inv s -> receipt_of (executed s) (action_id a) r ->
  rec_inv (set_gw s (record_receipt (gw s) a r)).
Proof.
  intros Hi Hr. apply rec_gw; [done|]. simpl. intros id q Hq.
  look Hq; [done|]. by eapply rc_map.
Qed.

Lemma rec_call s i a x l rs :
  rec_inv s ->
  rec_inv {| gw := gw s; res := rs; threads := <[i := Executing a x l]> (threads s);
             executed := action_id a :: executed s; discarded := discarded s |}.
Proof.
  intros [Hm Hp Hr].
  assert (Hmono : forall id r, receipt_of (executed s) id r ->
                               receipt_of (action_id a :: executed s) id r).
  { intros id r (? & ? & Hs). repeat split; try done; [apply H|apply H|].
    intros Hx%Hs. by right. }
  constructor; simpl.
  - intros id r Hq. by apply Hmono, Hm.
  - intros j p r id Hj Hq Hk. look Hj. by eapply Hmono, Hp.
  - intros j b y m Hj. look Hj; [by left|]. right. eauto.
Qed.

Lemma rec_discard s id g b :
  own_inv (gw s) (threads s) (discarded s) -> rec_inv s ->
  discard_receipt (gw s) id = (g, b) ->
  rec_inv (if b then {| gw := g; res := res s; threads := threads s;
                        executed := filter (.≠ id) (executed s);
                        discarded := {[id]} ∪ discarded s |}
           else set_gw s g).
Proof.
  intros Ho [Hm Hp Hr]. unfold discard_receipt.
  destruct (inflight (gw s) !! id) as [ev|] eqn:Hin; intros [= <- <-]; [by destruct s|].
  assert (Hne : forall i p k, threads s !! i = Some p -> owned p = Some k -> k <> id).
  { intros i p k Hi Hk ->. assert (inflight (gw s) !! id = Some i) by (apply Ho; eauto).
    congruence. }
  assert (Hmono : forall k r, k <> id -> receipt_of (executed s) k r ->
                              receipt_of (filter (.≠ id) (executed s)) k r).
  { intros k r Hk (? & ? & Hs). repeat split; try done; [apply H|apply H|].
    intros Hx%Hs. by apply list_elem_of_filter. }
  case_bool_decide; constructor; simpl.
  - intros k r [? Hk]%lookup_delete_Some. eauto.
  - intros i p r k Hi Hq Hk. eauto.
  - intros i a x l Hi. apply list_elem_of_filter. split; [|by eapply Hr].
    by eapply (Hne i).
  - intros k r [? Hk]%lookup_delete_Some. eauto.
  - done.
  - done.
Qed.

Lemma rec_step s s' : ginv s -> rec_inv s -> gstep s s' -> rec_inv s'.
Proof.
  intros Hg Hi Hs. pose proof Hi as Hi0. destruct Hi0 as [Hm Hp Hr].
  assert (Hres : forall r, rec_inv (set_res s r)) by (intros r; by constructor).
  destruct Hs as [s cap m x g Hr0|s i a g role Ht Hb|s i a e f Ht Hf|s i a Ht
    |s i a e x Ht Hf|s i a now x m Ht Hf Hpc Hl|s i a x id now Ht l Hpc Hsum|s i a x e id now msg Ht l Hpc Hsum
    |s i a x l e run Ht
    |s i a r l Ht Hpc|s i a r l m Ht Hpc Hl|s i a r Ht|s i a r Ht|s i a ev e sg Ht Hsg
    |s e a c msg st|s id g b Hd].
  - unfold register_executor in Hr0. ok_inv Hr0. subst g. by apply rec_gw.
  - assert (receipts g = receipts (gw s)) as Hg'.
    { unfold submit_begin in Hb. repeat case_match; simplify_eq/=; done. }
    apply (rec_thread (set_gw s g)); [apply rec_gw; [done|by rewrite Hg']|..];
      destruct role; simpl; by intros.
  - apply rec_thread; [done| |done]. intros r id [= <-] [= <-]. apply receipt_of_failure.
  - apply Hres.
  - apply rec_thread; [done| |done]. intros r id [= <-] [= <-]. apply receipt_of_failure.
  - apply (rec_thread (set_res s _)); [apply Hres|done|done].
  - by apply rec_call.
  - apply (rec_thread (set_res s _)); [apply Hres| |done].
    intros r id' [= <-] [= <-]. apply receipt_of_failure.
  - apply rec_thread; [done| |done]. intros r id [= <-] [= <-].
    destruct (owner_receipt_honest e a l run) as [Hh Ha].
    split; [done|]. split; [done|]. intros _. by eapply Hr.
  - apply Hres.
  - apply (rec_thread (set_res s _)); [apply Hres| |done].
    intros q id [= <-] [= <-]. by eapply Hp.
  - apply (rec_thread (set_gw s _)); [| |done].
    + apply rec_record; [done|]. by eapply Hp.
    + intros q id [= <-] [= <-]. simpl. by eapply Hp.
  - apply (rec_thread (set_gw s _)); [by apply rec_gw|done|done].
  - by apply rec_thread.
  - unfold reject. destruct (receipts (gw s) !! action_id a) eqn:E; simpl; [by destruct s|].
    apply rec_record; [done|]. apply receipt_of_failure.
  - apply rec_discard; [apply Hg|done|done].
Qed.

Lemma rec_reach s : rtc gstep gsys_init s -> ginv s /\ rec_inv s.
Proof.
  apply (reach_inv gstep (fun s => ginv s /\ rec_inv s)).
  - split; [apply ginv_init|]. constructor; simpl; intros *; by rewrite lookup_empty.
  - intros x y [Hg Hr] Hs. eauto using ginv_step, rec_step.
Qed.
End Receipts.

(** ** Theorems *)

(** What [_execute] demands before it asks for the lease. *)
Record dispatchable (now : datetime) (a : ActionEnvelope) : Prop := {
  da_snapshot : execution_mode a = SHADOW \/ execution_mode a = REAL -> body_snapshot_hash a <> "";
  da_approved : execution_mode a = REAL -> approved (authorization a) = true;
  da_principal : execution_mode a = REAL -> nonblank (principal_id (authorization a)) = true;
  da_approval : execution_mode a = REAL ->
    exists id, approval_id (authorization a) = Some id /\ nonblank id = true;
  da_scope : execution_mode a = REAL ->
    capability_id a ∈ scopes (authorization a) \/ "*" ∈ scopes (authorization a);
  da_deadline : forall d, deadline_at a = Some d -> us now < us d;
}.

Lemma or_text_nonblank o :
  nonblank (or_text o "") = true <-> exists id, o = Some id /\ nonblank id = true.
Proof.
  destruct o as [s|]; simpl; [|split; [done|naive_solver]].
  unfold truthy_str. destruct (String.eqb_spec s "") as [->|]; simpl; naive_solver.
Qed.

Lemma deadline_expired_false now a :
  deadline_expired now a = false <-> forall d, deadline_at a = Some d -> us now < us d.
Proof.
  unfold deadline_expired, dt_le. destruct (deadline_at a) as [d|]; [|naive_solver].
  rewrite Z.leb_gt. naive_solver.
Qed.

Lemma truthy_str_true s : truthy_str s = true <-> s <> "".
Proof. unfold truthy_str. rewrite negb_true_iff. apply String.eqb_neq. Qed.

Lemma preflight_sound {X} (ex : option X) now a x :
  preflight ex now a = Ok x -> ex = Some x /\ dispatchable now a.
Proof.
  unfold preflight. rewrite rbind_ok. intros H.
  destruct H as (u1 & H1%require_ok & H). ok_inv H. subst. split; [done|].
  apply negb_true_iff in H1, Ha, Ha0, Ha1, Ha3.
  assert (Hreal : forall b, execution_mode a = REAL ->
    bool_decide (execution_mode a = REAL) && b = false -> b = false).
  { intros b Hm. by rewrite bool_decide_eq_true_2. }
  constructor.
  + intros Hm. apply truthy_str_true. apply negb_false_iff.
    destruct Hm as [Hm|Hm]; rewrite Hm in H1; simpl in H1; exact H1.
  + intros Hm. apply negb_false_iff. by apply Hreal in Ha.
  + intros Hm. apply Hreal, orb_false_iff in Ha0 as [Ha0 _]; [|done].
    by apply negb_false_iff.
  + intros Hm. apply Hreal, orb_false_iff in Ha0 as [_ Ha0]; [|done].
    apply or_text_nonblank. by apply negb_false_iff.
  + intros Hm. rewrite <- andb_assoc in Ha1. apply Hreal, andb_false_iff in Ha1; [|done].
    destruct Ha1 as [Hs|Hs]; apply bool_decide_eq_false, dec_stable in Hs; auto.
  + by apply deadline_expired_false.
Qed.

Lemma preflight_complete {X} now a (x : X) :
  dispatchable now a -> preflight (Some x) now a = Ok x.
Proof.
  intros [Hs Ha Hp Hi Hc Hd%deadline_expired_false]. unfold preflight. rewrite Hd.
  assert (Hscope : execution_mode a = REAL ->
    bool_decide (capability_id a ∉ scopes (authorization a))
      && bool_decide ("*" ∉ scopes (authorization a)) = false).
  { intros Hm. apply andb_false_iff. destruct (Hc Hm) as [Hin|Hin]; [left|right];
      apply bool_decide_eq_false; auto. }
  destruct (execution_mode a) eqn:Hm; simpl; try done.
  - rewrite (proj2 (truthy_str_true _)) by auto. done.
  - rewrite (proj2 (truthy_str_true _)), Ha, Hp, (proj2 (or_text_nonblank _)) by auto.
    simpl. rewrite Hscope by done. done.
Qed.

Lemma preflight_refusal {X} (ex : option X) now a f :
  preflight ex now a = Err f -> f_state f <> COMPLETED.
Proof.
  unfold preflight.
  repeat (intros [[_ <-]%require_err|(? & _ & H)]%rbind_err; [done|revert H]).
  intros [Hx|(? & _ & H)]%rbind_err.
  - destruct ex; [done|]. by injection Hx as <-.
  - revert H. by intros [[_ <-]%require_err|(? & _ & H)]%rbind_err.
Qed.

(** What the span's command summary needs of the arguments: [names] and
    [values] are absent, false, or can be iterated. *)
Definition summarizable (a : ActionEnvelope) : Prop :=
  forall k v, k = "names" \/ k = "values" -> dget (arguments a) k = Some v ->
    truthy v = false \/ (exists t, v = JStr t) \/ (exists l, v = JList l) \/ (exists d, v = JObj d).

Lemma listable_ok v : listable v = Ok tt <->
  forall j, v = Some j ->
    truthy j = false \/ (exists t, j = JStr t) \/ (exists l, j = JList l) \/ (exists d, j = JObj d).
Proof.
  unfold listable. split.
  - intros H j ->. destruct j as [|[]|z|f| | |]; simpl in *; eauto; left.
    + done.
    + by destruct (z =? 0).
    + destruct (float_eq _ _); done.
  - intros H. destruct v as [j|]; [|done]. specialize (H j eq_refl).
    destruct j as [|[]|z|f| | |]; simpl in *; try done;
      destruct H as [H|[[? H]|[[? H]|[? H]]]]; try done.
    + by apply negb_false_iff in H as ->.
    + by apply negb_false_iff in H as ->.
Qed.

Lemma action_command_summary_ok a : action_command_summary a = Ok tt <-> summarizable a.
Proof.
  unfold action_command_summary, summarizable. rewrite rbind_ok. split.
  - intros ([] & H1 & H2) k v [->| ->] Hv.
    + by eapply listable_ok in H1.
    + by eapply listable_ok in H2.
  - intros H. exists tt. split; apply listable_ok; eauto.
Qed.

(** C1: the checks before the lease let an action through exactly when an
    executor is registered, the deadline lies ahead, a SHADOW or REAL action
    names its body snapshot, and a REAL action is approved by a named principal
    under a named approval whose scopes cover the capability. The executor's
    answer decides the outcome of [_execute] only when moreover the lease was
    granted and the span's summary of the arguments could be built; in every
    other case the outcome is the same whatever the executor would do. *)
Theorem preflight_authorized {X} e (ex : option X) a lease x :
  (preflight ex (deadline_now e) a = Ok x <-> ex = Some x /\ dispatchable (deadline_now e) a) /\
  ((exists y l, ex = Some y /\ dispatchable (deadline_now e) a /\ lease = Some l /\
      summarizable a /\ forall run, execute e ex a lease run = run_leased e a l (run y)) \/
   (~ (is_Some ex /\ dispatchable (deadline_now e) a /\ is_Some lease /\ summarizable a) /\
    forall run run', execute e ex a lease run = execute e ex a lease run')).
Proof.
  split.
  { split; [apply preflight_sound|]. intros [-> Hd]. by apply preflight_complete. }
  unfold execute. destruct (preflight ex (deadline_now e) a) as [y|f] eqn:Hp.
  - apply preflight_sound in Hp as [-> Hd].
    destruct lease as [l|]; [|right; split; [naive_solver|done]].
    destruct (action_command_summary a) as [[]|m] eqn:Hs.
    + apply action_command_summary_ok in Hs. left. eauto 10.
    + right. split; [|done]. rewrite <- action_command_summary_ok. naive_solver congruence.
  - right. split; [|done]. intros ([y ->] & Hd & _). by rewrite preflight_complete in Hp.
Qed.

(** C2: a receipt is COMPLETED only if the executor was reached, said so itself
    with evidence of the level the action requires and claimed either no
    evidence domain or the very one its mode can produce, and the action was
    not a FIXTURE; the gateway then adds no error of its own. *)
Theorem execute_completed {X} e (ex : option X) a lease run r :
  execute e ex a lease run = Ok r -> r_final_state r = COMPLETED ->
  exists x y l, ex = Some x /\ dispatchable (deadline_now e) a /\ lease = Some l /\
    run x = Ok y /\ x_final_state y = COMPLETED /\ execution_mode a <> FIXTURE /\
    se_parse (x_evidence_level y) = Some (r_evidence_level r) /\
    meets_evidence_requirement (r_evidence_level r)
      (required_evidence (verification_policy a)) = true /\
    (x_evidence_domain y = None \/
     x_evidence_domain y = Some (se_value (evidence_domain_for_mode (execution_mode a)))) /\
    r_evidence_domain r = evidence_domain_for_mode (execution_mode a) /\
    r_errors r = x_errors y.
Proof.
  unfold execute. destruct (preflight ex (deadline_now e) a) as [x|f] eqn:Hpf.
  2: { intros [= <-] Hc. apply preflight_refusal in Hpf. by simpl in Hc. }
  apply preflight_sound in Hpf as [-> Hd].
  destruct lease as [l|]; [|by intros [= <-]].
  intros ([] & _ & H)%rbind_ok. revert H. intros [(m & _ & ->)|(y & Hy & _ & _ & Hf & Hev & Hdom & Herr)]%run_leased_ok Hc; [done|].
  destruct (settle_spec a y) as (Hsd & Hsf & Hsc). rewrite Hf in Hc.
  destruct (Hsc Hc) as (H1 & H2 & H3 & H4 & H5). rewrite Hev, Hdom, Herr.
  exists x, y, l. repeat split; try done; try apply Hd.
  intros Hm. by destruct (Hsf Hm).
Qed.

(** For every receipt the gateway ever holds, however submissions,
    rejections, discards and waits interleave: it is filed under its own action
    id, its evidence domain is the one its mode can produce, a FIXTURE receipt
    is SYNTHETIC and so neither [verified] nor usable for real execution, and a
    [verified] one belongs to an action whose executor was called. *)
Theorem receipts_truthful {X} (s : gsys X) id r :
  rtc gstep gsys_init s -> get_receipt (gw s) id = Some r ->
  r_action_id r = id /\
  r_evidence_domain r = evidence_domain_for_mode (r_mode r) /\
  (r_mode r = FIXTURE -> r_evidence_level r = SYNTHETIC /\
     usable_for_real_execution r = false) /\
  (verified r = true -> id ∈ executed s) /\
  (usable_for_real_execution r = true -> r_mode r = REAL /\ r_final_state r = COMPLETED /\
     id ∈ executed s).
Proof.
  intros [_ Hi]%rec_reach Hr. destruct (rc_map _ Hi _ _ Hr) as ([Hd Hf] & Ha & Hs).
  assert (Hv : verified r = true -> id ∈ executed s).
  { unfold verified. case_bool_decide; [done|exact Hs]. }
  split; [done|]. split; [done|]. split; [|split; [done|]].
  - intros Hm. split; [by apply Hf|]. unfold usable_for_real_execution. by rewrite Hm.
  - unfold usable_for_real_execution. intros H. breflect. auto.
Qed.

(** C3: under every interleaving an action's executor is called at most once
    until its receipt is discarded, an action has at most one owner in flight,
    and two executors never run on the same body at the same time. *)
Theorem gateway_at_most_once {X} (s : gsys X) :
  rtc gstep gsys_init s ->
  NoDup (executed s) /\
  (forall i j p q id, threads s !! i = Some p -> threads s !! j = Some q ->
     owned p = Some id -> owned q = Some id -> i = j) /\
  (forall i j a b x y l m, threads s !! i = Some (Executing a x l) ->
     threads s !! j = Some (Executing b y m) -> body_id a = body_id b -> i = j).
Proof.
  intros [Hr Ho Hp He]%ginv_reach. split; [apply He|]. split.
  - intros i j p q id Hi Hj Hpi Hqj. eapply owner_unique; [exact Ho|..]; eassumption.
  - intros i j a b x y l m Hi Hj Hb.
    pose proof (Hp i) as Hpi. pose proof (Hp j) as Hpj. rewrite Hi in Hpi. rewrite Hj in Hpj.
    destruct Hpi as (Hpi & Hl & _), Hpj as (Hpj & Hm & _).
    eapply (ri_owner _ Hr); [exact Hpi|exact Hpj|]. simpl. congruence.
Qed.

(** C28: no wakeup is lost. A duplicate submission always waits either for an
    owner still in flight, or with its event set; in the second case it returns
    the recorded receipt, unless that receipt was discarded since. *)
Theorem duplicate_gets_receipt {X} (s : gsys X) i a ev e :
  rtc gstep gsys_init s -> threads s !! i = Some (Waiting a ev) ->
  (exists p, threads s !! ev = Some p /\ owned p = Some (action_id a)) \/
  (ev ∈ set_events (gw s) /\
   (action_id a ∈ discarded s \/
    exists r, get_receipt (gw s) (action_id a) = Some r /\ submit_wake (gw s) e a true = r)).
Proof.
  intros [_ Ho _ _]%ginv_reach Hi.
  destruct (oi_wait _ _ _ Ho _ _ _ Hi) as [Hin|[Hs [[r Hr]|Hd]]].
  - left. by apply (oi_own _ _ _ Ho).
  - right. split; [done|]. right. exists r. unfold submit_wake. by rewrite Hr.
  - right. auto.
Qed.

(** Submitting an action again returns the first receipt unchanged: the
    executor is not consulted, the state does not change, and nothing of the
    first submission stays in flight. *)
Theorem submit_idempotent {X} (g : ActionGateway X) e e' ev ev' a b lease lease' run run' :
  receipts g !! action_id a = None -> inflight g !! action_id a = None ->
  action_id b = action_id a ->
  let '(g1, r) := submit g e ev a lease run in
  submit g1 e' ev' b lease' run' = (g1, r) /\ inflight g1 !! action_id a = None /\
  get_receipt g1 (action_id a) = Some r.
Proof.
  intros Hr Hi Hb. unfold submit at 1, submit_begin. rewrite Hr, Hi.
  unfold submit, submit_begin, complete, get_receipt. simpl. rewrite Hb, !lookup_insert_eq.
  simpl. by rewrite lookup_delete_eq.
Qed.

(** ** A concrete run: one thread submits [demo_action] and sees it through,
    a second one waits for it. *)

Definition demo_env : exec_env :=
  {| tick := fun n => DT (1700000000000000 + Z.of_nat n) 0; started_now := DT 1700000000000000 0;
     deadline_now := DT 1700000000000000 0; finished_now := DT 1700000001000000 0;
     fresh_trace := "trace_1"; receipt_uri := fun d => "file://" +:+ d +:+ "/receipt.json";
     write_receipt := fun _ _ => Ok tt |}.

Definition demo_scoped : ActionEnvelope :=
  with_authorization demo_action
    {| principal_id := "operator-1"; approved := true; approval_id := Some "approval-1";
       scopes := ["arm.move"]; provenance := [] |}.

Definition demo_result : ActionExecutionResult :=
  {| x_final_state := COMPLETED; x_evidence_level := "TASK_VERIFIED"; x_evidence_domain := None;
     x_policy_decision := []; x_authorization_decision := []; x_simulation_result := None;
     x_dispatch_result := [("accepted", JBool true)]; x_driver_ack := None; x_observations := [];
     x_verification_result := None; x_artifacts := []; x_errors := [];
     x_artifact_directory := Some "/tmp/run"; x_acknowledgement_stage := None |}.

Definition demo_receipt : ExecutionReceipt :=
  owner_receipt demo_env demo_scoped (run_leased demo_env demo_scoped demo_lease (Ok demo_result)).

(** Before, and after, the owner recorded its receipt. *)
Definition demo_running : gsys unit :=
  {| gw := {| executors := {[("arm.move", REAL) := tt]}; receipts := ∅;
              inflight := {["action_1" := 1%nat]}; set_events := ∅ |};
     res := demo_rsys;
     threads := <[2%nat := Waiting demo_scoped 1]> {[1%nat := Executing demo_scoped tt demo_lease]};
     executed := ["action_1"]; discarded := ∅ |}.

Definition demo_published : gsys unit :=
  {| gw := {| executors := {[("arm.move", REAL) := tt]}; receipts := {["action_1" := demo_receipt]};
              inflight := ∅; set_events := {[1%nat]} |};
     res := {| rs_mgr := {| locks := {["arm-1" := false]}; active := ∅ |}; rs_pc := ∅ |};
     threads := <[1%nat := Done demo_receipt]>
                  (<[2%nat := Waiting demo_scoped 1]> {[1%nat := Done demo_receipt]});
     executed := ["action_1"]; discarded := ∅ |}.

Lemma demo_running_reach : rtc gstep gsys_init demo_running.
Proof.
  eapply rtc_l; [eapply (g_register _ "arm.move" REAL tt); reflexivity|].
  eapply rtc_l; [eapply (g_begin _ 1 demo_scoped); reflexivity|].
  eapply rtc_l; [eapply (g_ensure _ 1); reflexivity|].
  eapply rtc_l; [eapply (g_lock _ 1 demo_scoped (DT 0 0) tt); reflexivity|].
  eapply rtc_l; [eapply (g_call _ 1 demo_scoped tt "lease_1" (DT 0 0)); reflexivity|].
  eapply rtc_l; [eapply (g_begin _ 2 demo_scoped); reflexivity|].
  apply rtc_refl.
Qed.

Lemma demo_published_reach : rtc gstep gsys_init demo_published.
Proof.
  etrans; [exact demo_running_reach|].
  eapply rtc_l; [eapply (g_return _ 1 _ _ _ demo_env (Ok demo_result)); reflexivity|].
  eapply rtc_l; [eapply (g_drop _ 1); reflexivity|].
  eapply rtc_l; [eapply (g_unlock _ 1); reflexivity|].
  eapply rtc_l; [eapply (g_record _ 1); reflexivity|].
  eapply rtc_l; [eapply (g_complete _ 1); reflexivity|].
  apply rtc_refl.
Qed.

Lemma execute_completed_witness :
  exists x y l, Some tt = Some x /\ dispatchable (deadline_now demo_env) demo_scoped /\
    Some demo_lease = Some l /\ Ok (E := string) demo_result = Ok y /\ x_final_state y = COMPLETED.
Proof.
  destruct (execute_completed demo_env (Some tt) demo_scoped (Some demo_lease)
              (fun _ => Ok demo_result) demo_receipt)
    as (x & y & l & H1 & H2 & H3 & H4 & H5 & _).
  - vm_compute. reflexivity.
  - vm_compute. reflexivity.
  - exists x, y, l. repeat (split; [assumption|]). assumption.
Defined.

Lemma receipts_truthful_witness :
  r_action_id demo_receipt = "action_1" /\ usable_for_real_execution demo_receipt = true /\
  "action_1" ∈ executed demo_published.
Proof.
  destruct (receipts_truthful demo_published "action_1" demo_receipt) as (H1 & _ & _ & _ & H2).
  - exact demo_published_reach.
  - vm_compute. reflexivity.
  - assert (Hu : usable_for_real_execution demo_receipt = true) by (vm_compute; reflexivity).
    split; [exact H1|]. split; [exact Hu|]. apply H2. exact Hu.
Defined.

Lemma gateway_at_most_once_witness : NoDup (executed demo_running).
Proof. apply (gateway_at_most_once demo_running). exact demo_running_reach. Defined.

Lemma duplicate_gets_receipt_witness :
  (exists p, threads demo_published !! 1%nat = Some p /\ owned p = Some "action_1") \/
  (1%nat ∈ set_events (gw demo_published) /\
   ("action_1" ∈ discarded demo_published \/
    exists r, get_receipt (gw demo_published) "action_1" = Some r /\
              submit_wake (gw demo_published) demo_env demo_scoped true = r)).
Proof.
  apply (duplicate_gets_receipt demo_published 2 demo_scoped 1 demo_env).
  - exact demo_published_reach.
  - reflexivity.
Defined.

Lemma submit_idempotent_witness :
  let '(g1, r) := submit (ActionGateway_new (X := unit)) demo_env 1 demo_scoped None
                    (fun _ => Ok demo_result) in
  submit g1 demo_env 2 demo_scoped (Some demo_lease) (fun _ => Err "late") = (g1, r) /\
  inflight g1 !! action_id demo_scoped = None /\
  get_receipt g1 (action_id demo_scoped) = Some r.
Proof.
  apply (submit_idempotent ActionGateway_new demo_env demo_env 1 2 demo_scoped demo_scoped
           None (Some demo_lease) (fun _ => Ok demo_result) (fun _ => Err "late")); reflexivity.
Defined.
