(* ===== verification/Ledger.v ===== *)
(** The daemon's authenticated event ledger: src/src/rosclaw/daemon/ledger.py.

    [rows] is the SQLite table in sequence order and [anchor] the signed head
    file. A row keeps its payload as [json.loads] reads it ([None] for text
    that is not JSON), which is all the code looks at. Files, permissions and
    SQL are not modelled; where they can fail, a [fault] says at which write.
    HMAC-SHA256 and SHA-256 are the parameter [Crypto]: what is proved about
    tampering rests on the named hypothesis [mac_injective].

    The second half is the interface [EventLog] the daemon's other components
    are verified against, and its instance by [DaemonLedger]. *)

From S2P Require Export Contracts.

(** ** Hashing *)

(** [hmac.new(key, m, sha256).hexdigest()] and [sha256(m).hexdigest()] of a
    text's UTF-8 bytes. *)
Class Crypto := {
  hmac_hex : string -> string -> string;
  sha256_hex : string -> string;
}.

Definition mac_injective `{Crypto} (key : string) : Prop :=
  forall m m', hmac_hex key m = hmac_hex key m' -> m = m'.

(** ** Data *)

Inductive ledger_exn :=
| LedgerError | LedgerIntegrityError | LedgerValueError
| LedgerFault. (* sqlite3.Error or OSError *)

Definition LEDGER_SCHEMA_VERSION : string := "rosclaw.daemon.ledger.v1".

Record LedgerEvent := {
  sequence : Z;
  event_type : string;
  entity_kind : string;
  entity_id : string;
  created_at : string;
  payload : dict json;
  previous_mac : string;
  event_mac : string;
}.

(** A table row: an event whose payload is not decoded yet. *)
Record row := {
  w_sequence : Z;
  w_event_type : string;
  w_entity_kind : string;
  w_entity_id : string;
  w_created_at : string;
  w_payload : option json;
  w_previous_mac : string;
  w_event_mac : string;
}.

Definition decode_event (w : row) : result ledger_exn LedgerEvent :=
  let* j := of_option (w_payload w) LedgerIntegrityError in
  let* d := of_option (as_obj j) LedgerIntegrityError in
  Ok {| sequence := w_sequence w; event_type := w_event_type w; entity_kind := w_entity_kind w;
        entity_id := w_entity_id w; created_at := w_created_at w; payload := d;
        previous_mac := w_previous_mac w; event_mac := w_event_mac w |}.

(** What [_read_private_json] finds. *)
Inductive anchor_file := Missing | Garbage | Anchored (d : dict json).

Record DaemonLedger := {
  rows : list row;
  anchor : anchor_file;
  closed : bool;
  failed : bool;                (* [_failure is not None] *)
  sqlite_ok : bool;             (* PRAGMA integrity_check *)
  data_version : Z;             (* PRAGMA data_version *)
  observed : option Z;          (* [_observed_data_version] *)
}.

Definition fail (l : DaemonLedger) : DaemonLedger :=
  {| rows := rows l; anchor := anchor l; closed := closed l; failed := true;
     sqlite_ok := sqlite_ok l; data_version := data_version l; observed := observed l |}.
Definition set_anchor (l : DaemonLedger) (a : anchor_file) : DaemonLedger :=
  {| rows := rows l; anchor := a; closed := closed l; failed := failed l;
     sqlite_ok := sqlite_ok l; data_version := data_version l; observed := observed l |}.
Definition set_observed (l : DaemonLedger) (v : Z) : DaemonLedger :=
  {| rows := rows l; anchor := anchor l; closed := closed l; failed := failed l;
     sqlite_ok := sqlite_ok l; data_version := data_version l; observed := Some v |}.
Definition add_row (l : DaemonLedger) (w : row) : DaemonLedger :=
  {| rows := rows l ++ [w]; anchor := anchor l; closed := closed l; failed := failed l;
     sqlite_ok := sqlite_ok l; data_version := data_version l; observed := observed l |}.
Definition close (l : DaemonLedger) : DaemonLedger :=
  {| rows := rows l; anchor := anchor l; closed := true; failed := failed l;
     sqlite_ok := sqlite_ok l; data_version := data_version l; observed := observed l |}.

(** Where a durable write can fail: [BEGIN IMMEDIATE], the anchor before or
    after its replacement, [INSERT], [COMMIT]. *)
Inductive fault := NoFault | FaultBegin | FaultAnchor | FaultAnchorSync | FaultInsert | FaultCommit.

#[export] Instance fault_eq_dec : EqDecision fault.
Proof. solve_decision. Defined.

Definition validate_identifier (s : string) : bool := printable 256 s.

(** [int(v)] of a decoded value; [None] where it raises. *)
Definition py_int (j : json) : option Z :=
  match j with
  | JBool b => Some (if b then 1 else 0)
  | JInt z => Some z
  | JFloat (Fin m e) => Some (if 0 <=? e then m * 10 ^ e else Z.quot m (10 ^ (- e)))
  | JStr s => Z_of_str (strip s)
  | _ => None
  end.

(** [hmac.compare_digest(str(v), s)] for a decoded value. *)
Definition digest_eq (j : json) (s : string) : bool :=
  match py_str j with Ok t => String.eqb t s | Err _ => false end.

Definition canonical_json (d : dict json) : result ledger_exn string :=
  of_option (dumps (JObj d)) LedgerError.

Definition nul : string := String (ascii_of_N 0) "".

Section Ledger.
Context `{Crypto} (key : string).

Definition key_id : string := sha256_hex key.

Definition event_message (sequence : Z)
    (event_type entity_kind entity_id created_at payload_json previous_mac : string) : string :=
  "rosclaw.daemon.ledger.event.v1" +:+ nul +:+
  default "" (dumps (JObj [("sequence", JInt sequence); ("event_type", JStr event_type);
                           ("entity_kind", JStr entity_kind); ("entity_id", JStr entity_id);
                           ("created_at", JStr created_at); ("payload_json", JStr payload_json);
                           ("previous_mac", JStr previous_mac)])).

(** [_event_mac] *)
Definition mac_of (sequence : Z)
    (event_type entity_kind entity_id created_at payload_json previous_mac : string) : string :=
  "hmac-sha256:" +:+ hmac_hex key (event_message sequence event_type entity_kind entity_id
                                     created_at payload_json previous_mac).

Definition anchor_fields (sequence mac : json) : dict json :=
  [("schema_version", JStr LEDGER_SCHEMA_VERSION); ("key_id", JStr key_id);
   ("head_sequence", sequence); ("head_mac", mac)].

(** [_anchor_mac] *)
Definition anchor_mac (fields : dict json) : result ledger_exn string :=
  let* text := canonical_json fields in
  Ok ("hmac-sha256:" +:+ hmac_hex key ("rosclaw.daemon.ledger.anchor.v1" +:+ nul +:+ text)).

(** [_write_anchor] *)
Definition new_anchor (sequence : Z) (event_mac : string) : result ledger_exn anchor_file :=
  let fields := anchor_fields (JInt sequence) (JStr event_mac) in
  let* m := anchor_mac fields in
  Ok (Anchored (fields ++ [("anchor_mac", JStr m)])).

(** [_head_locked] *)
Definition head (ws : list row) : Z * string :=
  match last ws with
  | Some w => (w_sequence w, w_event_mac w)
  | None => (0, "GENESIS")
  end.

(** The loop of [_verify_chain_locked]; returns the decoded events. *)
Fixpoint verify_from (expected : Z) (previous : string) (ws : list row)
  : result ledger_exn (list LedgerEvent) :=
  match ws with
  | [] => Ok []
  | w :: ws' =>
      let* ev := decode_event w in
      guard! sequence ev =? expected else LedgerIntegrityError in
      guard! String.eqb (previous_mac ev) previous else LedgerIntegrityError in
      let* text := canonical_json (payload ev) in
      guard! String.eqb (event_mac ev)
               (mac_of (sequence ev) (event_type ev) (entity_kind ev) (entity_id ev)
                  (created_at ev) text (previous_mac ev)) else LedgerIntegrityError in
      let* evs := verify_from (expected + 1) (event_mac ev) ws' in
      Ok (ev :: evs)
  end.

Definition created_ok (ev : LedgerEvent) : bool :=
  String.eqb (event_type ev) "LEDGER_CREATED" && String.eqb (entity_kind ev) "LEDGER"
  && String.eqb (entity_id ev) LEDGER_SCHEMA_VERSION
  && str_at (payload ev) "schema_version" LEDGER_SCHEMA_VERSION
  && str_at (payload ev) "key_id" key_id.

Definition verify_chain (l : DaemonLedger) : result ledger_exn (list LedgerEvent) :=
  guard! sqlite_ok l else LedgerIntegrityError in
  let* evs := verify_from 1 "GENESIS" (rows l) in
  match evs with
  | [] => Err LedgerIntegrityError
  | ev :: _ => guard! created_ok ev else LedgerIntegrityError in Ok evs
  end.

Definition verify_anchor (l : DaemonLedger) : result ledger_exn DaemonLedger :=
  let* d := match anchor l with
            | Missing => Err LedgerError
            | Garbage => Err LedgerIntegrityError
            | Anchored d => Ok d
            end in
  let seq := get_default d "head_sequence" JNull in
  let mac := get_default d "head_mac" JNull in
  let* expected := anchor_mac (anchor_fields seq mac) in
  guard! digest_eq (get_default d "anchor_mac" (JStr "")) expected else LedgerIntegrityError in
  let* anchored := of_option (j ← dget d "head_sequence"; py_int j) LedgerIntegrityError in
  let mac := get_default d "head_mac" (JStr "") in
  let '(head_sequence, head_mac) := head (rows l) in
  guard! anchored <=? head_sequence else LedgerIntegrityError in
  let* w := of_option (find (fun w => w_sequence w =? anchored) (rows l)) LedgerIntegrityError in
  guard! digest_eq mac (w_event_mac w) else LedgerIntegrityError in
  if anchored <? head_sequence then
    let* a := new_anchor head_sequence head_mac in Ok (set_anchor l a)
  else guard! digest_eq mac head_mac else LedgerIntegrityError in Ok l.

(** [_verify_external_changes_locked]: a failure is remembered. *)
Definition verify_external (l : DaemonLedger) : DaemonLedger * result ledger_exn unit :=
  match observed l with
  | None => (l, Ok tt)
  | Some v =>
      let checked :=
        let* _ := (if data_version l =? v then Ok [] else verify_chain l) in verify_anchor l in
      match checked with
      | Ok l' => (set_observed l' (data_version l'), Ok tt)
      | Err e => (fail l, Err e)
      end
  end.

Definition event_of (l : DaemonLedger) (at_ : string) (ty kind id : string) (d : dict json)
    (text : string) : LedgerEvent :=
  let '(prev_sequence, prev_mac) := head (rows l) in
  let sequence := prev_sequence + 1 in
  {| sequence := sequence; event_type := ty; entity_kind := kind; entity_id := id;
     created_at := at_;
     payload := match canon (JObj d) with JObj d => d | _ => [] end;
     previous_mac := prev_mac;
     event_mac := mac_of sequence ty kind id at_ text prev_mac |}.

Definition row_of (ev : LedgerEvent) : row :=
  {| w_sequence := sequence ev; w_event_type := event_type ev; w_entity_kind := entity_kind ev;
     w_entity_id := entity_id ev; w_created_at := created_at ev;
     w_payload := Some (JObj (payload ev)); w_previous_mac := previous_mac ev;
     w_event_mac := event_mac ev |}.

(** The primary key and the UNIQUE constraint of the table. *)
Definition insertable (ws : list row) (w : row) : bool :=
  forallb (fun v => negb (w_sequence v =? w_sequence w)
                    && negb (String.eqb (w_event_mac v) (w_event_mac w))) ws.

(** [_append_locked]: the anchor moves before the row is inserted; any
    exception inside the transaction rolls the row back and latches
    [_failure]. *)
Definition append_locked (f : fault) (at_ : string) (l : DaemonLedger)
    (ty kind id : string) (d : dict json) : DaemonLedger * result ledger_exn LedgerEvent :=
  match canonical_json d with
  | Err e => (l, Err e)
  | Ok text =>
      if decide (f = FaultBegin) then (l, Err LedgerFault)
      else match verify_external l with
      | (l, Err e) => (fail l, Err e)
      | (l, Ok _) =>
          let ev := event_of l at_ ty kind id d text in
          if decide (f = FaultAnchor) then (fail l, Err LedgerFault)
          else match new_anchor (sequence ev) (event_mac ev) with
          | Err e => (fail l, Err e)
          | Ok a =>
              let l := set_anchor l a in
              if decide (f = NoFault) then
                if insertable (rows l) (row_of ev) then (add_row l (row_of ev), Ok ev)
                else (fail l, Err LedgerFault)
              else (fail l, Err LedgerFault)
          end
      end
  end.

Definition require_open (l : DaemonLedger) : result ledger_exn unit :=
  guard! negb (closed l) else LedgerError in require (negb (failed l)) LedgerError.

Definition append (f : fault) (at_ : string) (l : DaemonLedger) (ty kind id : string)
    (d : dict json) : DaemonLedger * result ledger_exn LedgerEvent :=
  if validate_identifier ty && validate_identifier kind && validate_identifier id then
    match require_open l with
    | Err e => (l, Err e)
    | Ok _ => append_locked f at_ l ty kind id d
    end
  else (l, Err LedgerValueError).

Definition event_matches (kind id : option string) (w : row) : bool :=
  match kind, id with
  | Some k, Some i => String.eqb (w_entity_kind w) k && String.eqb (w_entity_id w) i
  | Some k, None => String.eqb (w_entity_kind w) k
  | None, _ => true
  end.

Definition events (l : DaemonLedger) (kind id : option string)
  : DaemonLedger * result ledger_exn (list LedgerEvent) :=
  match kind, id with
  | None, Some _ => (l, Err LedgerValueError)
  | _, _ =>
      match require_open l with
      | Err e => (l, Err e)
      | Ok _ =>
          match verify_external l with
          | (l, Err e) => (l, Err e)
          | (l, Ok _) =>
              (l, mapr decode_event (base.filter (fun w => event_matches kind id w = true) (rows l)))
          end
      end
  end.

(** [DaemonLedger.__init__] over the files it finds. *)
Definition open_ledger (f : fault) (at_ : string) (database_existed sqlite : bool) (version : Z)
    (ws : list row) (a : anchor_file) : result ledger_exn DaemonLedger :=
  let l := {| rows := ws; anchor := a; closed := false; failed := false; sqlite_ok := sqlite;
              data_version := version; observed := None |} in
  let* l := match ws with
            | _ :: _ => Ok l
            | [] =>
                guard! negb (database_existed
                             || negb (match a with Missing => true | _ => false end))
                  else LedgerIntegrityError in
                let '(l, r) := append_locked f at_ l "LEDGER_CREATED" "LEDGER"
                    LEDGER_SCHEMA_VERSION
                    [("schema_version", JStr LEDGER_SCHEMA_VERSION); ("key_id", JStr key_id)] in
                let* _ := r in Ok l
            end in
  let* _ := verify_chain l in
  let* l := verify_anchor l in
  Ok (set_observed l (data_version l)).

(** The files as a closed or crashed ledger leaves them, opened again. *)
Definition reopen (at_ : string) (l : DaemonLedger) : result ledger_exn DaemonLedger :=
  open_ledger NoFault at_ true (sqlite_ok l) (data_version l) (rows l) (anchor l).
End Ledger.

(** ** What a MAC authenticates *)

Lemma entry_inj (k s s' r r' : string) :
  (quote k +:+ ":" +:+ quote s) +:+ r = (quote k +:+ ":" +:+ quote s') +:+ r' ->
  s = s' /\ r = r'.
Proof.
  rewrite !append_assoc. intros H%append_inv_head%append_inv_head. by apply quote_inj in H.
Qed.

Section Mac.
Context `{Crypto} (key : string).

(** The signed text, keys in order. *)
Lemma event_fields_text s ty k i c p m :
  dumps (JObj [("sequence", JInt s); ("event_type", JStr ty); ("entity_kind", JStr k);
               ("entity_id", JStr i); ("created_at", JStr c); ("payload_json", JStr p);
               ("previous_mac", JStr m)])
  = Some ("{" +:+ join "," [quote "created_at" +:+ ":" +:+ quote c;
                            quote "entity_id" +:+ ":" +:+ quote i;
                            quote "entity_kind" +:+ ":" +:+ quote k;
                            quote "event_type" +:+ ":" +:+ quote ty;
                            quote "payload_json" +:+ ":" +:+ quote p;
                            quote "previous_mac" +:+ ":" +:+ quote m;
                            quote "sequence" +:+ ":" +:+ Z_to_str s] +:+ "}").
Proof. reflexivity. Qed.

Lemma append_inv_tail (a b : string) : a +:+ "}" = b +:+ "}" -> a = b.
Proof.
  revert b. induction a as [|x a IH]; intros [|y b]; simpl; intros Hab.
  - done.
  - injection Hab as -> Hab. by destruct b.
  - injection Hab as -> Hab. by destruct a.
  - injection Hab as -> Hab. by rewrite (IH b).
Qed.

Lemma event_message_inj s ty k i c p m s' ty' k' i' c' p' m' :
  event_message s ty k i c p m = event_message s' ty' k' i' c' p' m' ->
  s = s' /\ ty = ty' /\ k = k' /\ i = i' /\ c = c' /\ p = p' /\ m = m'.
Proof.
  unfold event_message. rewrite !event_fields_text.
  cbn [default from_option id]. unfold join. cbn [String.concat].
  intros HH. apply append_inv_head, append_inv_head, append_inv_head, append_inv_tail in HH.
  apply entry_inj in HH as [-> HH]. apply append_inv_head, entry_inj in HH as [-> HH].
  apply append_inv_head, entry_inj in HH as [-> HH].
  apply append_inv_head, entry_inj in HH as [-> HH].
  apply append_inv_head, entry_inj in HH as [-> HH].
  apply append_inv_head, entry_inj in HH as [-> HH].
  apply append_inv_head, append_inv_head, append_inv_head, Z_to_str_inj in HH as ->. done.
Qed.

Lemma mac_of_inj s ty k i c p m s' ty' k' i' c' p' m' :
  mac_injective key ->
  mac_of key s ty k i c p m = mac_of key s' ty' k' i' c' p' m' ->
  s = s' /\ ty = ty' /\ k = k' /\ i = i' /\ c = c' /\ p = p' /\ m = m'.
Proof.
  intros Hinj HH. unfold mac_of in HH. apply append_inv_head, Hinj in HH.
  by apply event_message_inj.
Qed.
End Mac.

(** ** The chain *)

Section Chain.
Context `{Crypto} (key : string).

(** The events of a verified table: consecutive sequence numbers, each event
    naming the MAC before it and carrying the MAC of its own fields. *)
Fixpoint chain (expected : Z) (previous : string) (evs : list LedgerEvent) : Prop :=
  match evs with
  | [] => True
  | ev :: evs' =>
      sequence ev = expected /\ previous_mac ev = previous /\
      (exists text, canonical_json (payload ev) = Ok text /\
         event_mac ev = mac_of key (sequence ev) (event_type ev) (entity_kind ev)
                          (entity_id ev) (created_at ev) text (previous_mac ev)) /\
      chain (expected + 1) (event_mac ev) evs'
  end.

Lemma decode_row_of ev : decode_event (row_of ev) = Ok ev.
Proof. by destruct ev. Qed.

Lemma decode_event_inv w ev : decode_event w = Ok ev <-> w = row_of ev.
Proof.
  split; [|intros ->; apply decode_row_of].
  unfold decode_event. destruct w as [s ty k i c [[| | | | | |d]|] p m]; simpl; try done.
  by intros [= <-].
Qed.

Lemma decode_rows evs : mapr decode_event (map row_of evs) = Ok evs.
Proof.
  induction evs as [|ev evs IH]; [done|]. cbn [map mapr].
  rewrite decode_row_of. cbn [rbind]. by rewrite IH.
Qed.

Lemma verify_from_spec e prev ws evs :
  verify_from key e prev ws = Ok evs <-> ws = map row_of evs /\ chain e prev evs.
Proof.
  revert e prev evs. induction ws as [|w ws IH]; intros e prev evs.
  - cbn [verify_from]. split; [intros [= <-]; done|]. intros [Hm _]. by destruct evs.
  - cbn [verify_from]. split.
    + intros Hv. ok_inv Hv. apply decode_event_inv in Ha as ->. subst evs.
      apply IH in Ha4 as [-> Hc]. apply Z.eqb_eq in Ha0. apply String.eqb_eq in Ha1, Ha3.
      simpl. eauto 10.
    + intros [Hm Hc]. destruct evs as [|ev evs]; [done|].
      injection Hm as -> Hm. destruct Hc as (<- & <- & (t & Ht & Hmac) & Hc).
      rewrite decode_row_of. cbn [rbind]. rewrite Z.eqb_refl, String.eqb_refl, Ht.
      cbn [rbind require]. rewrite Hmac at 1. rewrite String.eqb_refl. cbn [rbind require].
      by rewrite (proj2 (IH _ _ evs)).
Qed.

Lemma chain_app e prev evs evs' :
  chain e prev (evs ++ evs') <->
  chain e prev evs /\
  chain (e + Z.of_nat (length evs)) (default prev (event_mac <$> last evs)) evs'.
Proof.
  revert e prev. induction evs as [|ev evs IH]; intros e prev.
  - simpl. rewrite Z.add_0_r. naive_solver.
  - cbn [app chain]. rewrite IH.
    replace (e + Z.of_nat (length (ev :: evs))) with (e + 1 + Z.of_nat (length evs))
      by (simpl length; lia).
    replace (default prev (event_mac <$> last (ev :: evs)))
      with (default (event_mac ev) (event_mac <$> last evs))
      by (rewrite last_cons; by destruct (last evs)).
    naive_solver.
Qed.

Lemma chain_sequence e prev evs i ev :
  chain e prev evs -> evs !! i = Some ev -> sequence ev = e + Z.of_nat i.
Proof.
  revert e prev i. induction evs as [|x evs IH]; intros e prev [|i]; try done.
  - intros (Hs & _) [= <-]. lia.
  - intros (_ & _ & _ & Hc) Hi. simpl in Hi. rewrite (IH _ _ _ Hc Hi). lia.
Qed.

Lemma head_map evs :
  head (map row_of evs) =
  match last evs with Some ev => (sequence ev, event_mac ev) | None => (0, "GENESIS") end.
Proof. unfold head. change (map row_of evs) with (row_of <$> evs). rewrite fmap_last. by destruct (last evs). Qed.

Lemma chain_head evs :
  chain 1 "GENESIS" evs ->
  head (map row_of evs) =
  (Z.of_nat (length evs), default "GENESIS" (event_mac <$> last evs)).
Proof.
  intros Hc. rewrite head_map. destruct (last evs) as [ev|] eqn:Hl; simpl.
  - rewrite last_lookup in Hl. rewrite (chain_sequence _ _ _ _ _ Hc Hl).
    destruct evs; [done|]. simpl length. f_equal. lia.
  - apply last_None in Hl as ->. done.
Qed.

Lemma chain_find e prev evs ev i :
  chain e prev evs -> evs !! i = Some ev ->
  find (fun w => w_sequence w =? e + Z.of_nat i) (map row_of evs) = Some (row_of ev).
Proof.
  revert e prev i. induction evs as [|x evs IH]; intros e prev [|i]; try done; simpl.
  - intros (Hs & _) [= <-]. by rewrite Hs, Z.add_0_r, Z.eqb_refl.
  - intros (Hs & _ & _ & Hc) Hi. rewrite Hs.
    replace (e =? e + Z.of_nat (S i)) with false by (symmetry; apply Z.eqb_neq; lia).
    replace (e + Z.of_nat (S i)) with (e + 1 + Z.of_nat i) by lia. by eapply IH.
Qed.

(** ** The anchor *)

Lemma new_anchor_ok s m :
  exists d mac, new_anchor key s m = Ok (Anchored d) /\
    anchor_mac key (anchor_fields key (JInt s) (JStr m)) = Ok mac /\
    d = (anchor_fields key (JInt s) (JStr m) ++ [("anchor_mac", JStr mac)])%list.
Proof.
  unfold new_anchor, anchor_mac, canonical_json.
  destruct (dumps (JObj (anchor_fields key (JInt s) (JStr m)))) as [t|] eqn:E; [|done].
  cbn [of_option rbind]. eauto.
Qed.

(** [a] is the anchor of the table [ws]. *)
Definition anchored (ws : list row) (a : anchor_file) : Prop :=
  new_anchor key (head ws).1 (head ws).2 = Ok a.

Lemma anchored_verify l l0 evs :
  anchored (rows l0) (anchor l) -> rows l = map row_of evs -> chain 1 "GENESIS" evs ->
  verify_anchor key l =
    (let '(s, m) := head (rows l0) in
     guard! s <=? Z.of_nat (length evs) else LedgerIntegrityError in
     let* w := of_option (find (fun w => w_sequence w =? s) (rows l)) LedgerIntegrityError in
     guard! String.eqb m (w_event_mac w) else LedgerIntegrityError in
     if s <? Z.of_nat (length evs) then
       let* a := new_anchor key (Z.of_nat (length evs))
                   (default "GENESIS" (event_mac <$> last evs)) in Ok (set_anchor l a)
     else guard! String.eqb m (default "GENESIS" (event_mac <$> last evs))
            else LedgerIntegrityError in Ok l).
Proof.
  unfold anchored. destruct (head (rows l0)) as [s m]. simpl. intros Ha Hr Hc.
  destruct (new_anchor_ok s m) as (d & mac & Hn & Hm & ->).
  rewrite Ha in Hn. injection Hn as Hn. unfold verify_anchor.
  rewrite Hn, Hr. cbn [rbind]. unfold get_default, anchor_fields. cbn [app]. dget_eval.
  fold (anchor_fields key (JInt s) (JStr m)). rewrite Hm. cbn [rbind].
  unfold digest_eq at 1. cbn [py_str]. rewrite String.eqb_refl. cbn [require rbind].
  cbn [mbind option_bind py_int of_option rbind]. rewrite chain_head by done.
  reflexivity.
Qed.
End Chain.

(** ** The ledger's invariant *)

Section Ok.
Context `{Crypto} (key : string).

(** An open, healthy ledger whose table is the verified history [evs]. *)
Record ledger_ok (l : DaemonLedger) (evs : list LedgerEvent) : Prop := {
  lo_rows : rows l = map row_of evs;
  lo_chain : chain key 1 "GENESIS" evs;
  lo_first : exists ev evs', evs = ev :: evs' /\ created_ok key ev = true;
  lo_anchor : anchored key (rows l) (anchor l);
  lo_open : closed l = false /\ failed l = false /\ sqlite_ok l = true;
  lo_seen : observed l = Some (data_version l);
}.

Lemma history_mac evs : chain key 1 "GENESIS" evs -> evs <> [] ->
  exists i ev, i = pred (length evs) /\ evs !! i = Some ev /\ last evs = Some ev /\
    Z.of_nat (length evs) = 1 + Z.of_nat i.
Proof.
  intros Hc Hne. destruct (last evs) as [ev|] eqn:Hl; [|by apply last_None in Hl].
  exists (pred (length evs)), ev. rewrite last_lookup in Hl.
  repeat split; [done|]. destruct evs; [done|]. simpl. lia.
Qed.

Lemma verify_anchor_head l evs :
  rows l = map row_of evs -> chain key 1 "GENESIS" evs -> evs <> [] ->
  anchored key (rows l) (anchor l) -> verify_anchor key l = Ok l.
Proof.
  intros Hr Hc Hne Ha. rewrite (anchored_verify key l l evs) by done.
  rewrite Hr, (chain_head key) by done.
  destruct (history_mac evs Hc Hne) as (i & ev & _ & Hi & Hl & Hn).
  rewrite Hl, Hn, (chain_find key _ _ _ _ _ Hc Hi). cbn.
  by rewrite Z.leb_refl, Z.ltb_irrefl, String.eqb_refl.
Qed.

Lemma ledger_ok_ne l evs : ledger_ok l evs -> evs <> [].
Proof. intros Hl. destruct (lo_first _ _ Hl) as (? & ? & -> & _). done. Qed.

Lemma verify_external_ok l evs :
  ledger_ok l evs -> verify_external key l = (l, Ok tt).
Proof.
  intros Hl. pose proof (ledger_ok_ne _ _ Hl). destruct Hl.
  unfold verify_external. rewrite lo_seen0, Z.eqb_refl. cbn [rbind].
  rewrite (verify_anchor_head l evs) by done. unfold set_observed. rewrite <- lo_seen0.
  by destruct l.
Qed.

Lemma verify_chain_ok l evs :
  rows l = map row_of evs -> chain key 1 "GENESIS" evs ->
  (exists ev evs', evs = ev :: evs' /\ created_ok key ev = true) -> sqlite_ok l = true ->
  verify_chain key l = Ok evs.
Proof.
  intros Hr Hc (ev & evs' & -> & Hcr) Hs. unfold verify_chain. rewrite Hs. cbn [require rbind].
  rewrite (proj2 (verify_from_spec key _ _ _ _) (conj Hr Hc)). cbn [rbind]. by rewrite Hcr.
Qed.

Lemma canonical_canon d :
  canonical_json match canon (JObj d) with JObj d => d | _ => [] end = canonical_json d.
Proof. unfold canonical_json. simpl. f_equal. apply (dumps_canon (JObj d)). Qed.

Lemma event_chain l evs at_ ty kind id d text :
  ledger_ok l evs -> canonical_json d = Ok text ->
  chain key 1 "GENESIS" (evs ++ [event_of key l at_ ty kind id d text]).
Proof.
  intros Hl Ht. apply chain_app. split; [apply Hl|].
  unfold event_of. rewrite (lo_rows _ _ Hl), (chain_head key) by apply Hl.
  cbn [chain sequence previous_mac payload event_mac event_type entity_kind entity_id created_at].
  repeat split; [lia|]. exists text. split; [|done]. by rewrite canonical_canon.
Qed.

Lemma event_insertable l evs at_ ty kind id d text :
  mac_injective key -> ledger_ok l evs -> canonical_json d = Ok text ->
  insertable (rows l) (row_of (event_of key l at_ ty kind id d text)) = true.
Proof.
  intros Hinj Hl Ht. unfold insertable. rewrite (lo_rows _ _ Hl).
  apply forallb_forall. intros w Hw. apply in_map_iff in Hw as (ev & <- & Hev).
  apply list_elem_of_In, list_elem_of_lookup in Hev as [i Hi].
  pose proof (chain_sequence key _ _ _ _ _ (lo_chain _ _ Hl) Hi) as Hs.
  assert (Hlt : (i < length evs)%nat) by (by apply lookup_lt_Some in Hi).
  unfold event_of. rewrite (lo_rows _ _ Hl), (chain_head key) by apply Hl.
  cbn [w_sequence w_event_mac row_of sequence event_mac].
  apply andb_true_iff; split; apply negb_true_iff.
  - apply Z.eqb_neq. lia.
  - apply String.eqb_neq. intros Heq.
    assert (Hm : exists a b c d0 e f, event_mac ev = mac_of key (sequence ev) a b c d0 e f).
    { pose proof (lo_chain _ _ Hl) as Hc. rewrite <- (take_drop i evs) in Hc.
      apply chain_app in Hc as [_ Hc]. rewrite (drop_S _ ev) in Hc by done.
      destruct Hc as (_ & _ & (t & _ & Hm) & _). eauto 10. }
    destruct Hm as (? & ? & ? & ? & ? & ? & Hm). rewrite Hm in Heq.
    apply mac_of_inj in Heq as [Heq _]; [lia|done].
Qed.

(** A successful append. *)
Lemma append_locked_ok at_ l evs ty kind id d text :
  mac_injective key -> ledger_ok l evs -> canonical_json d = Ok text ->
  let ev := event_of key l at_ ty kind id d text in
  exists l', append_locked key NoFault at_ l ty kind id d = (l', Ok ev) /\
    ledger_ok l' (evs ++ [ev]).
Proof.
  intros Hinj Hl Ht ev. unfold append_locked. rewrite Ht.
  rewrite decide_False by done. rewrite (verify_external_ok _ evs) by done.
  fold ev. rewrite decide_False by done.
  pose proof (event_chain l evs at_ ty kind id d text Hl Ht) as Hc. fold ev in Hc.
  assert (Hh : (sequence ev, event_mac ev) = head (map row_of (evs ++ [ev]))).
  { rewrite head_map, last_snoc. done. }
  destruct (new_anchor_ok key (sequence ev) (event_mac ev)) as (ad & mac & Hn & _ & _).
  rewrite Hn. rewrite decide_True by done.
  change (rows (set_anchor l (Anchored ad))) with (rows l).
  unfold ev at 1. rewrite (event_insertable l evs) by done. fold ev.
  eexists. split; [reflexivity|]. destruct Hl. constructor; simpl.
  - rewrite lo_rows0. by rewrite map_app.
  - done.
  - destruct lo_first0 as (e1 & es & -> & He). by exists e1, (es ++ [ev])%list.
  - unfold anchored. rewrite lo_rows0.
    change [row_of ev] with (map row_of [ev]). rewrite <- map_app, <- Hh. done.
  - done.
  - done.
Qed.

Lemma reopen_ok_state at_ l evs :
  rows l = map row_of evs -> chain key 1 "GENESIS" evs ->
  (exists ev evs', evs = ev :: evs' /\ created_ok key ev = true) ->
  anchored key (rows l) (anchor l) -> sqlite_ok l = true ->
  exists l', reopen key at_ l = Ok l' /\ ledger_ok l' evs.
Proof.
  intros Hr Hc Hf Ha Hs. unfold reopen, open_ledger.
  destruct (rows l) as [|w ws] eqn:Hrows.
  { destruct Hf as (? & ? & -> & _). done. }
  rewrite <- Hrows in *. cbn [rbind].
  rewrite (verify_chain_ok _ evs) by done. cbn [rbind].
  rewrite (verify_anchor_head _ evs); [|done|done| |done].
  - cbn [rbind]. eexists. split; [reflexivity|]. by constructor.
  - by destruct Hf as (? & ? & -> & _).
Qed.
End Ok.

(** ** Tampering *)

Section Tamper.
Context `{Crypto} (key : string).

(** Two events that sign the same text. *)
Definition same_event (x y : LedgerEvent) : Prop :=
  sequence x = sequence y /\ event_type x = event_type y /\ entity_kind x = entity_kind y /\
  entity_id x = entity_id y /\ created_at x = created_at y /\
  canonical_json (payload x) = canonical_json (payload y) /\
  previous_mac x = previous_mac y /\ event_mac x = event_mac y.

Lemma mac_not_genesis s a b c d e f : mac_of key s a b c d e f <> "GENESIS".
Proof. done. Qed.

(** The last MAC determines the whole history. *)
Lemma head_authenticates evs evs' :
  mac_injective key -> chain key 1 "GENESIS" evs -> chain key 1 "GENESIS" evs' ->
  default "GENESIS" (event_mac <$> last evs) = default "GENESIS" (event_mac <$> last evs') ->
  Forall2 same_event evs evs'.
Proof.
  intros Hinj. revert evs'. induction evs as [|x evs IH] using rev_ind; intros evs' Hc Hc' Hm.
  - destruct evs' as [|y evs' _] using rev_ind; [constructor|].
    apply chain_app in Hc' as [_ (_ & _ & (t & _ & Hy) & _)].
    rewrite last_snoc in Hm. simpl in Hm. rewrite Hy in Hm.
    symmetry in Hm. by apply mac_not_genesis in Hm.
  - apply chain_app in Hc as [Hc (Hs & Hp & (t & Ht & Hx) & _)].
    rewrite last_snoc in Hm. simpl in Hm.
    destruct evs' as [|y evs' _] using rev_ind.
    { simpl in Hm. rewrite Hx in Hm. by apply mac_not_genesis in Hm. }
    apply chain_app in Hc' as [Hc' (Hs' & Hp' & (t' & Ht' & Hy) & _)].
    rewrite last_snoc in Hm. simpl in Hm. pose proof Hm as Hm'. rewrite Hx, Hy in Hm'.
    apply mac_of_inj in Hm' as (H1 & H2 & H3 & H4 & H5 & H6 & H7); [|done].
    apply Forall2_app.
    + apply IH; [done|done|congruence].
    + repeat constructor; congruence.
Qed.
End Tamper.

(** ** The interface other components are verified against *)

Record entry := {
  en_type : string;
  en_kind : string;
  en_id : string;
  en_payload : dict json;
}.

(** An entry as it is read back: keys sorted. *)
Definition canon_dict (d : dict json) : dict json :=
  match canon (JObj d) with JObj d => d | _ => [] end.

Definition stored (e : entry) : entry :=
  {| en_type := en_type e; en_kind := en_kind e; en_id := en_id e;
     en_payload := canon_dict (en_payload e) |}.

Lemma dget_canon_dict d k : dget (canon_dict d) k = canon <$> dget d k.
Proof. exact (jget_canon k (JObj d)). Qed.

Definition of_kind (kind : string) (es : list entry) : list entry :=
  base.filter (fun e => en_kind e = kind) es.

(** An append-only log: [Env] is what the outside world decides about one
    call. An append that reports success added exactly the entry, one that
    fails added nothing, and reading never changes the log. *)
Class EventLog (L Env : Type) := {
  log_entries : L -> list entry;
  log_append : Env -> L -> entry -> L * bool;
  log_read : L -> string -> L * option (list entry);
  log_append_true : forall env l e l', log_append env l e = (l', true) ->
    log_entries l' = (log_entries l ++ [stored e])%list;
  log_append_false : forall env l e l', log_append env l e = (l', false) ->
    log_entries l' = log_entries l;
  log_read_entries : forall l kind l' r, log_read l kind = (l', r) ->
    log_entries l' = log_entries l /\
    (forall es, r = Some es -> es = of_kind kind (log_entries l));
}.

(** The reference log: a list of entries; the environment says whether an
    append succeeds. *)
#[export, program] Instance list_log : EventLog (list entry) bool := {|
  log_entries := fun l => l;
  log_append := fun env l e => if env then ((l ++ [stored e])%list, true) else (l, false);
  log_read := fun l kind => (l, Some (of_kind kind l));
|}.
Next Obligation. by intros [] l e l' [= <-]. Qed.
Next Obligation. by intros [] l e l' [= <-]. Qed.
Next Obligation. intros l kind l' r [= <- <-]. split; [done|]. by intros es [= <-]. Qed.

(** ** [DaemonLedger] is such a log *)

Section Instance.
Context `{Crypto} (key : string).

Definition entry_of (ev : LedgerEvent) : entry :=
  {| en_type := event_type ev; en_kind := entity_kind ev; en_id := entity_id ev;
     en_payload := payload ev |}.

Definition row_entry (w : row) : option entry :=
  match decode_event w with Ok ev => Some (entry_of ev) | Err _ => None end.

Definition ledger_entries (l : DaemonLedger) : list entry := omap row_entry (rows l).

Definition ledger_append (env : fault * string) (l : DaemonLedger) (e : entry)
  : DaemonLedger * bool :=
  let '(l, r) := append key env.1 env.2 l (en_type e) (en_kind e) (en_id e) (en_payload e) in
  (l, is_ok r).

Definition ledger_read (l : DaemonLedger) (kind : string) : DaemonLedger * option (list entry) :=
  let '(l, r) := events key l (Some kind) None in
  (l, match r with Ok evs => Some (map entry_of evs) | Err _ => None end).

Lemma verify_anchor_rows l l' : verify_anchor key l = Ok l' -> rows l' = rows l.
Proof.
  unfold verify_anchor. intros H0. ok_inv H0.
  destruct (head (rows l)) as [s m]. ok_inv H0.
  destruct (_ <? _); ok_inv H0; by subst.
Qed.

Lemma verify_external_rows l l' r : verify_external key l = (l', r) -> rows l' = rows l.
Proof.
  unfold verify_external. destruct (observed l) as [v|]; [|by intros [= <- <-]].
  destruct (rbind _ _) as [l1|e] eqn:E; intros [= <- <-]; [|done].
  apply rbind_ok in E as (? & _ & E). simpl. by apply verify_anchor_rows in E.
Qed.

Lemma append_locked_rows f at_ l ty kind id d l' r :
  append_locked key f at_ l ty kind id d = (l', r) ->
  (exists ev, r = Ok ev /\ rows l' = (rows l ++ [row_of ev])%list /\
     entry_of ev = stored {| en_type := ty; en_kind := kind; en_id := id; en_payload := d |}) \/
  (exists e, r = Err e /\ rows l' = rows l).
Proof.
  unfold append_locked. destruct (canonical_json d) as [text|e]; [|intros [= <- <-]; eauto].
  case_decide; [intros [= <- <-]; eauto|].
  destruct (verify_external key l) as [l1 [u|e]] eqn:Hv; apply verify_external_rows in Hv;
    [|intros [= <- <-]; eauto].
  case_decide; [intros [= <- <-]; eauto|].
  destruct (new_anchor key _ _) as [a|e]; [|intros [= <- <-]; eauto].
  case_decide; [|intros [= <- <-]; eauto].
  case_match; intros [= <- <-]; [|eauto]. left. eexists. split; [done|].
  simpl. rewrite Hv. split; [done|]. unfold event_of. by destruct (head (rows l1)).
Qed.

Lemma append_rows f at_ l ty kind id d l' r :
  append key f at_ l ty kind id d = (l', r) ->
  (exists ev, r = Ok ev /\ rows l' = (rows l ++ [row_of ev])%list /\
     entry_of ev = stored {| en_type := ty; en_kind := kind; en_id := id; en_payload := d |}) \/
  (exists e, r = Err e /\ rows l' = rows l).
Proof.
  unfold append. case_match; [|intros [= <- <-]; eauto].
  destruct (require_open l); [|intros [= <- <-]; eauto]. apply append_locked_rows.
Qed.

Lemma read_entries kind ws evs :
  mapr decode_event (base.filter (fun w => event_matches (Some kind) None w = true) ws) = Ok evs ->
  map entry_of evs = of_kind kind (omap row_entry ws).
Proof.
  revert evs. induction ws as [|w ws IH]; intros evs.
  - by intros [= <-].
  - rewrite filter_cons. unfold of_kind in *. cbn [omap list_omap].
    assert (Hk : forall ev, decode_event w = Ok ev -> en_kind (entry_of ev) = w_entity_kind w).
    { by intros ev ->%decode_event_inv. }
    unfold row_entry. case_decide as Hm.
    + intros Hr. cbn [mapr] in Hr. ok_inv Hr. subst evs. rewrite Ha. cbn [map].
      rewrite filter_cons_True by (rewrite Hk by done; by apply String.eqb_eq).
      f_equal. by apply IH.
    + intros Hr. apply IH in Hr. destruct (decode_event w) as [ev|] eqn:E; [|done].
      rewrite filter_cons_False; [done|]. rewrite Hk by done. intros He. apply Hm.
      simpl. by apply String.eqb_eq.
Qed.

#[export, program] Instance daemon_log : EventLog DaemonLedger (fault * string) := {|
  log_entries := ledger_entries;
  log_append := ledger_append;
  log_read := ledger_read;
|}.
Next Obligation.
  intros [f at_] l e l'. unfold ledger_append, ledger_entries. simpl.
  destruct (append key f at_ l _ _ _ _) as [l1 r] eqn:Ha. intros [= <- Hr].
  apply append_rows in Ha as [(ev & -> & -> & He)|(x & -> & _)]; [|done].
  rewrite omap_app. f_equal. cbn [omap list_omap]. unfold row_entry.
  rewrite decode_row_of, He. by destruct e.
Qed.
Next Obligation.
  intros [f at_] l e l'. unfold ledger_append, ledger_entries. simpl.
  destruct (append key f at_ l _ _ _ _) as [l1 r] eqn:Ha. intros [= <- Hr].
  by apply append_rows in Ha as [(ev & -> & _)|(x & -> & ->)].
Qed.
Next Obligation.
  intros l kind l' r. unfold ledger_read, events, ledger_entries.
  destruct (require_open l); [|intros [= <- <-]; done].
  destruct (verify_external key l) as [l1 [u|e]] eqn:Hv; apply verify_external_rows in Hv.
  - intros [= <- <-]. rewrite Hv. split; [done|].
    destruct (mapr _ _) as [evs|] eqn:Hm; [|done]. intros es [= <-].
    by apply read_entries.
  - intros [= <- <-]. by rewrite Hv.
Qed.
End Instance.

(** ** Opening an existing ledger *)

Definition add_rows (l : DaemonLedger) (ws : list row) : DaemonLedger :=
  {| rows := ws; anchor := anchor l; closed := closed l; failed := failed l;
     sqlite_ok := sqlite_ok l; data_version := data_version l; observed := observed l |}.

Section Open.
Context `{Crypto} (key : string).

Lemma verify_chain_inv l evs :
  verify_chain key l = Ok evs ->
  rows l = map row_of evs /\ chain key 1 "GENESIS" evs /\ sqlite_ok l = true /\
  exists ev evs', evs = ev :: evs' /\ created_ok key ev = true.
Proof.
  unfold verify_chain. intros Hv. ok_inv Hv. apply verify_from_spec in Ha0 as [Hr Hc].
  destruct a0 as [|ev evs0]; [done|]. ok_inv Hv. subst evs. eauto 10.
Qed.

Lemma open_existing_inv f at_ sqlite v ws a l' :
  open_ledger key f at_ true sqlite v ws a = Ok l' ->
  exists evs l0, ws = map row_of evs /\ chain key 1 "GENESIS" evs /\
    rows l0 = ws /\ anchor l0 = a /\ exists l1, verify_anchor key l0 = Ok l1.
Proof.
  unfold open_ledger. destruct ws as [|w ws]; [done|]. cbn [rbind]. intros Ho.
  ok_inv Ho. apply verify_chain_inv in Ha as (Hr & Hc & _ & _). simpl in Hr.
  eexists a0, _. do 2 (split; [done|]). split; [|split; [|by eexists]]; done.
Qed.

(** An anchor ahead of the table. *)
Lemma moved_anchor_refused at_ l evs evs' :
  rows l = map row_of evs -> chain key 1 "GENESIS" evs' -> (length evs < length evs')%nat ->
  chain key 1 "GENESIS" evs -> anchored key (map row_of evs') (anchor l) -> sqlite_ok l = true ->
  (exists ev evs0, evs = ev :: evs0 /\ created_ok key ev = true) ->
  reopen key at_ l = Err LedgerIntegrityError.
Proof.
  intros Hr Hc' Hlt Hc Ha Hs Hf. unfold reopen, open_ledger.
  destruct (rows l) as [|w ws] eqn:Hrows.
  { by destruct Hf as (? & ? & -> & _). }
  rewrite Hr. cbn [rbind].
  rewrite (verify_chain_ok key _ evs) by done. cbn [rbind].
  rewrite (anchored_verify key _ (add_rows l (map row_of evs')) evs) by done.
  simpl rows. rewrite (chain_head key) by done.
  by rewrite (proj2 (Z.leb_gt _ _)) by lia.
Qed.
End Open.

(** A run of appends and what each reported. *)
Fixpoint run_log {L Env} (EL : EventLog L Env) (ops : list (Env * entry)) (l : L) : L * list bool :=
  match ops with
  | [] => (l, [])
  | (env, e) :: ops' =>
      let '(l, b) := log_append env l e in
      let '(l, bs) := run_log EL ops' l in (l, b :: bs)
  end.


(** ** Theorems *)

Section Theorems.
Context `{Crypto} (key : string).

(** A fault-free append to a healthy ledger succeeds and keeps it
    healthy: the table gains one event with the next sequence number, the
    given names and the canonical payload, the anchor is the new head's, and
    the extended table verifies from the first event to the last. *)
Theorem append_ok at_ l evs ty kind id d text :
  mac_injective key -> ledger_ok key l evs ->
  validate_identifier ty && validate_identifier kind && validate_identifier id = true ->
  canonical_json d = Ok text ->
  exists l' ev, append key NoFault at_ l ty kind id d = (l', Ok ev) /\
    ledger_ok key l' (evs ++ [ev]) /\
    sequence ev = Z.of_nat (length evs) + 1 /\
    event_type ev = ty /\ entity_kind ev = kind /\ entity_id ev = id /\
    payload ev = canon_dict d /\
    verify_chain key l' = Ok (evs ++ [ev])%list /\
    exists l'', reopen key at_ l' = Ok l'' /\ ledger_ok key l'' (evs ++ [ev]).
Proof.
  intros Hinj Hl Hv Ht.
  destruct (append_locked_ok key at_ l evs ty kind id d text Hinj Hl Ht) as (l' & Ha & Hl').
  unfold append. rewrite Hv. unfold require_open.
  destruct (lo_open _ _ _ Hl) as (-> & -> & _). cbn [negb require rbind].
  eexists l', _. split; [exact Ha|]. split; [exact Hl'|].
  assert (Hr : rows l = map row_of evs) by apply Hl.
  unfold event_of at 1 2 3 4 5. rewrite Hr, (chain_head key) by apply Hl.
  repeat (split; [done || (simpl; lia)|]). split.
  - eapply verify_chain_ok; apply Hl'.
  - eapply reopen_ok_state; apply Hl'.
Qed.

(** C26: tamper and rollback evidence. If a table opens under the anchor a
    healthy ledger left behind, then it starts with that ledger's whole
    history, every signed field unchanged: no event was altered, dropped,
    reordered or rolled back. *)
Theorem anchor_fixes_history f at_ v sqlite ws l evs l' :
  mac_injective key -> ledger_ok key l evs ->
  open_ledger key f at_ true sqlite v ws (anchor l) = Ok l' ->
  exists evs', ws = map row_of evs' /\ (length evs <= length evs')%nat /\
    Forall2 same_event evs (take (length evs) evs').
Proof.
  intros Hinj Hl Ho.
  apply open_existing_inv in Ho as (evs' & l1 & Hws & Hc & Hr1 & Ha1 & l2 & Hv1). exists evs'.
  split; [done|]. rewrite (anchored_verify key _ l evs') in Hv1;
    [|rewrite Ha1; apply Hl|by rewrite Hr1|done].
  rewrite (lo_rows _ _ _ Hl), (chain_head key) in Hv1 by apply Hl.
  ok_inv Hv1. apply Z.leb_le in Ha. assert (Hle : (length evs <= length evs')%nat) by lia.
  split; [done|]. apply String.eqb_eq in Ha2.
  destruct (history_mac key evs (lo_chain _ _ _ Hl) (ledger_ok_ne _ _ _ Hl))
    as (i & ev & Hi & _ & Hlast & Hn).
  assert (exists ev', evs' !! i = Some ev') as [ev' Hev'] by (apply lookup_lt_is_Some_2; lia).
  rewrite Hr1, Hws, Hn, (chain_find key _ _ _ _ _ Hc Hev') in Ha0. simplify_eq/=.
  apply (head_authenticates key); [done|apply Hl| |].
  - rewrite <- (take_drop (length evs) evs') in Hc. by apply chain_app in Hc as [Hc _].
  - rewrite Ha2, last_lookup, length_take_le, lookup_take_lt, Hev' by lia. done.
Qed.

(** Every failed write is safe. Whatever the fault, the table is
    unchanged and the caller sees an exception; once the transaction began,
    the ledger refuses every further append and read. A failure before the
    anchor moved leaves files that open with the same history; one after it
    leaves files that refuse to open, so no event is lost silently. *)
Theorem append_fault f at_ l evs ty kind id d text :
  f <> NoFault -> ledger_ok key l evs ->
  validate_identifier ty && validate_identifier kind && validate_identifier id = true ->
  canonical_json d = Ok text ->
  exists l', append key f at_ l ty kind id d = (l', Err LedgerFault) /\ rows l' = rows l /\
    (f <> FaultBegin -> forall g at' ty' kind' id' d',
       validate_identifier ty' && validate_identifier kind' && validate_identifier id' = true ->
       append key g at' l' ty' kind' id' d' = (l', Err LedgerError) /\
       events key l' (Some kind') (Some id') = (l', Err LedgerError)) /\
    (if bool_decide (f = FaultBegin \/ f = FaultAnchor)
     then exists l'', reopen key at_ l' = Ok l'' /\ ledger_ok key l'' evs
     else reopen key at_ l' = Err LedgerIntegrityError).
Proof.
  intros Hf Hl Hv Ht. destruct (lo_open _ _ _ Hl) as (Hcl & Hfa & Hsq).
  unfold append. rewrite Hv. unfold require_open at 1. rewrite Hcl, Hfa.
  cbn [negb require rbind]. unfold append_locked. rewrite Ht.
  assert (Hsame : forall l', rows l' = rows l -> anchor l' = anchor l -> sqlite_ok l' = true ->
            exists l'', reopen key at_ l' = Ok l'' /\ ledger_ok key l'' evs).
  { intros l' Hr Ha Hs. apply (reopen_ok_state key); rewrite ?Hr, ?Ha; try done; apply Hl. }
  case_decide as Hb; [subst f|].
  { exists l. rewrite bool_decide_eq_true_2 by auto. do 3 (split; [done|]). by apply Hsame. }
  rewrite (verify_external_ok key l evs) by done.
  assert (Hrefuse : forall l', closed l' = false -> failed l' = true -> forall g at' ty' kind' id' d',
    validate_identifier ty' && validate_identifier kind' && validate_identifier id' = true ->
    (if validate_identifier ty' && validate_identifier kind' && validate_identifier id' then
       match require_open l' with
       | Err e => (l', Err e)
       | Ok _ => append_locked key g at' l' ty' kind' id' d'
       end else (l', Err LedgerValueError)) = (l', Err LedgerError) /\
    events key l' (Some kind') (Some id') = (l', Err LedgerError)).
  { intros l' H1 H2 g at' ty' kind' id' d' ->. unfold events, require_open.
    by rewrite H1, H2. }
  case_decide as Ha; [subst f|].
  { exists (fail l). rewrite bool_decide_eq_true_2 by auto. split; [done|].
    split; [done|]. split; [by intros _; apply Hrefuse|]. by apply Hsame. }
  set (ev := event_of key l at_ ty kind id d text).
  destruct (new_anchor_ok key (sequence ev) (event_mac ev)) as (ad & mac & Hn & _ & _).
  rewrite Hn, decide_False by done.
  exists (fail (set_anchor l (Anchored ad))). split; [done|]. split; [done|].
  split; [by intros _; apply Hrefuse|].
  rewrite bool_decide_eq_false_2 by naive_solver.
  eapply (moved_anchor_refused key _ _ evs (evs ++ [ev])); [apply Hl|..].
  - by eapply event_chain.
  - rewrite length_app. simpl. lia.
  - apply Hl.
  - unfold anchored. rewrite head_map, last_snoc. exact Hn.
  - done.
  - apply Hl.
Qed.

(** C27: refinement. Any sequence of appends to the SQLite ledger, with any
    faults, behaves as the same appends to a plain append-only list in which
    exactly the reported ones succeed. *)
Theorem ledger_refines_log (ops : list ((fault * string) * entry)) (l : DaemonLedger) :
  let '(l', oks) := run_log (daemon_log key) ops l in
  run_log list_log (zip oks (map snd ops)) (ledger_entries l) = (ledger_entries l', oks).
Proof.
  revert l. induction ops as [|[env e] ops IH]; intros l; [done|]. cbn [run_log].
  destruct (log_append (EventLog := daemon_log key) env l e) as [l1 b] eqn:Ha.
  specialize (IH l1). destruct (run_log (daemon_log key) ops l1) as [l2 bs].
  cbn [map zip zip_with run_log].
  destruct b; [apply log_append_true in Ha|apply log_append_false in Ha];
    cbn [log_append log_entries list_log daemon_log snd] in *; rewrite <- Ha; by rewrite IH.
Qed.
End Theorems.

(** ** A concrete ledger, with an injective stand-in for HMAC *)

Definition toy_crypto : Crypto :=
  {| hmac_hex := fun k m => k +:+ ":" +:+ m; sha256_hex := fun m => m |}.

Lemma toy_injective key : @mac_injective toy_crypto key.
Proof. intros m m' H. by apply append_inv_head, append_inv_head in H. Qed.

Lemma ledger_ok_checked `{Crypto} key l evs :
  verify_chain key l = Ok evs ->
  new_anchor key (head (rows l)).1 (head (rows l)).2 = Ok (anchor l) ->
  closed l = false -> failed l = false -> observed l = Some (data_version l) ->
  ledger_ok key l evs.
Proof.
  intros (Hr & Hc & Hs & Hf)%verify_chain_inv Ha H1 H2 H3. by constructor.
Qed.

Definition demo_ledger : DaemonLedger :=
  match @open_ledger toy_crypto "k" NoFault "2026-01-01T00:00:00Z" false true 1 [] Missing with
  | Ok l => l
  | Err _ => {| rows := []; anchor := Missing; closed := true; failed := true; sqlite_ok := false;
                data_version := 0; observed := None |}
  end.

Definition demo_events : list LedgerEvent :=
  match @verify_chain toy_crypto "k" demo_ledger with Ok evs => evs | Err _ => [] end.

Lemma demo_ledger_ok : @ledger_ok toy_crypto "k" demo_ledger demo_events.
Proof. apply ledger_ok_checked; vm_compute; reflexivity. Qed.

Lemma append_ok_witness :
  exists l' ev, @append toy_crypto "k" NoFault "2026-01-01T00:00:01Z" demo_ledger
                  "PERMIT_REVOKED" "PERMIT" "permit-1" [("reason", JStr "x")] = (l', Ok ev) /\
    sequence ev = 2.
Proof.
  destruct (append_ok (H := toy_crypto) "k" "2026-01-01T00:00:01Z" demo_ledger demo_events
              "PERMIT_REVOKED" "PERMIT" "permit-1" [("reason", JStr "x")]
              (default "" (dumps (JObj [("reason", JStr "x")]))))
    as (l' & ev & Ha & _ & Hs & _).
  - exact (toy_injective "k").
  - exact demo_ledger_ok.
  - vm_compute. reflexivity.
  - vm_compute. reflexivity.
  - exists l', ev. split; [exact Ha|]. rewrite Hs. vm_compute. reflexivity.
Defined.

Lemma anchor_fixes_history_witness :
  exists evs', rows demo_ledger = map row_of evs' /\
    (length demo_events <= length evs')%nat /\
    Forall2 same_event demo_events (take (length demo_events) evs').
Proof.
  destruct (@reopen toy_crypto "k" "" demo_ledger) as [l'|e] eqn:E.
  - apply (anchor_fixes_history (H := toy_crypto) "k" NoFault "" 1 true (rows demo_ledger)
             demo_ledger demo_events l').
    + exact (toy_injective "k").
    + exact demo_ledger_ok.
    + exact E.
  - vm_compute in E. discriminate E.
Defined.

Lemma append_fault_witness :
  exists l', @append toy_crypto "k" FaultInsert "2026-01-01T00:00:01Z" demo_ledger
                  "PERMIT_REVOKED" "PERMIT" "permit-1" [("reason", JStr "x")]
              = (l', Err LedgerFault) /\ rows l' = rows demo_ledger /\
    @reopen toy_crypto "k" "2026-01-01T00:00:01Z" l' = Err LedgerIntegrityError.
Proof.
  destruct (append_fault (H := toy_crypto) "k" FaultInsert "2026-01-01T00:00:01Z" demo_ledger
              demo_events "PERMIT_REVOKED" "PERMIT" "permit-1" [("reason", JStr "x")]
              (default "" (dumps (JObj [("reason", JStr "x")]))))
    as (l' & Ha & Hr & _ & Hb).
  - discriminate.
  - exact demo_ledger_ok.
  - vm_compute. reflexivity.
  - vm_compute. reflexivity.
  - exists l'. split; [exact Ha|]. split; [exact Hr|]. exact Hb.
Defined.
