(* ===== verification/Permits.v ===== *)
(** Execution permits: src/src/rosclaw/daemon/permits.py.

    [PermitAuthority] is its four tables ([core]) and an optional ledger, any
    [EventLog]. Each method body runs under one lock and is one function; a
    raised exception is [Err], returned with the state it leaves. The human
    readable message of a decision is left out. *)

From S2P Require Export Ledger.

(** [PeerCredentials] of daemon/protocol.py: the kernel-authenticated peer. *)
Record PeerCredentials := { pid : Z; uid : Z; gid : Z }.

Definition PERMIT_SCHEMA_VERSION : string := "rosclaw.daemon.execution_permit.v1".

Record ExecutionPermit := {
  p_permit_id : string;
  p_principal_id : string;
  p_peer_uid : Z;
  p_body_id : string;
  p_body_snapshot_hash : string;
  p_capabilities : list string;
  p_action_intent_hash : string;
  p_expires_at : datetime;
  p_max_uses : Z;
  p_session_id : option string;
  p_authorization_provenance : option (dict json);
}.

(** [ExecutionPermit.__post_init__] on fields of their declared types. *)
Definition permit_post_init (p : ExecutionPermit) : result pyexc ExecutionPermit :=
  guard! forallb nonblank [p_permit_id p; p_principal_id p; p_body_id p; p_body_snapshot_hash p;
                           p_action_intent_hash p] else ValueError in
  guard! negb (bool_decide (p_capabilities p = [])) && forallb nonblank (p_capabilities p)
    else ValueError in
  guard! bool_decide ("*" ∉ p_capabilities p) else ValueError in
  let digest := removeprefix "sha256:" (p_action_intent_hash p) in
  guard! (len digest =? 64) && str_all is_lower_hex digest else ValueError in
  guard! 0 <=? p_peer_uid p else ValueError in
  guard! 1 <=? p_max_uses p else ValueError in
  guard! match p_session_id p with Some s => nonblank s | None => true end else ValueError in
  Ok p.

Definition ExecutionPermit_to_dict (p : ExecutionPermit) : dict json :=
  ([("schema_version", JStr PERMIT_SCHEMA_VERSION);
    ("permit_id", JStr (p_permit_id p));
    ("principal_id", JStr (p_principal_id p));
    ("peer_uid", JInt (p_peer_uid p));
    ("body_id", JStr (p_body_id p));
    ("body_snapshot_hash", JStr (p_body_snapshot_hash p));
    ("capabilities", JList (map JStr (p_capabilities p)));
    ("action_intent_hash", JStr (p_action_intent_hash p));
    ("expires_at", JStr (iso (p_expires_at p)));
    ("max_uses", JInt (p_max_uses p));
    ("session_id", opt_text_json (p_session_id p))]
   ++ match p_authorization_provenance p with
      | Some ((_ :: _) as d) => [("authorization_provenance", JObj d)]
      | _ => []
      end)%list.

(** [_strict_string] and [_strict_int] of [value.get(k)]. *)
Definition strict_string (d : dict json) (k : string) : result pyexc string :=
  match dget d k with
  | Some (JStr s) => guard! nonblank s else ValueError in Ok s
  | _ => Err ValueError
  end.

Definition strict_int (d : dict json) (k : string) : result pyexc Z :=
  match dget d k with Some (JInt z) => Ok z | _ => Err ValueError end.

Definition ExecutionPermit_from_dict (d : dict json) : result pyexc ExecutionPermit :=
  guard! str_at d "schema_version" PERMIT_SCHEMA_VERSION else ValueError in
  let* caps := match dget d "capabilities" with
               | Some (JList l) => of_option (mapM as_str l) ValueError
               | _ => Err ValueError
               end in
  let* expires := of_option (j ← dget d "expires_at"; s ← as_str j; parse_aware s) ValueError in
  let* permit_id := strict_string d "permit_id" in
  let* principal := strict_string d "principal_id" in
  let* peer := strict_int d "peer_uid" in
  let* body := strict_string d "body_id" in
  let* snapshot := strict_string d "body_snapshot_hash" in
  let* intent := strict_string d "action_intent_hash" in
  let* max_uses := strict_int d "max_uses" in
  let* session := match dget d "session_id" with
                  | None | Some JNull => Ok None
                  | Some _ => let* s := strict_string d "session_id" in Ok (Some s)
                  end in
  permit_post_init
    {| p_permit_id := permit_id; p_principal_id := principal; p_peer_uid := peer;
       p_body_id := body; p_body_snapshot_hash := snapshot; p_capabilities := caps;
       p_action_intent_hash := intent; p_expires_at := expires; p_max_uses := max_uses;
       p_session_id := session;
       p_authorization_provenance :=
         match dget d "authorization_provenance" with Some (JObj o) => Some o | _ => None end |}.

(** Dataclass equality: instants compare as instants. *)
Definition permit_eqb (p q : ExecutionPermit) : bool :=
  String.eqb (p_permit_id p) (p_permit_id q) && String.eqb (p_principal_id p) (p_principal_id q)
  && (p_peer_uid p =? p_peer_uid q) && String.eqb (p_body_id p) (p_body_id q)
  && String.eqb (p_body_snapshot_hash p) (p_body_snapshot_hash q)
  && bool_decide (p_capabilities p = p_capabilities q)
  && String.eqb (p_action_intent_hash p) (p_action_intent_hash q)
  && (us (p_expires_at p) =? us (p_expires_at q)) && (p_max_uses p =? p_max_uses q)
  && bool_decide (p_session_id p = p_session_id q)
  && py_eqb (opt_dict_json (p_authorization_provenance p))
            (opt_dict_json (p_authorization_provenance q)).

(** [action_intent_hash]; [None] where [json.dumps] raises. *)
Definition intent_fields (a : ActionEnvelope) : dict json :=
  [("body_id", JStr (body_id a));
   ("body_snapshot_hash", JStr (body_snapshot_hash a));
   ("capability_id", JStr (capability_id a));
   ("arguments", JObj (arguments a));
   ("execution_mode", JStr (se_value (execution_mode a)));
   ("risk_class", JStr (risk_class a));
   ("deadline_at", iso_opt (deadline_at a));
   ("expected_effect", expected_effect a);
   ("verification_policy", VerificationPolicy_to_dict (verification_policy a));
   ("lease_ttl_ms", JInt (lease_ttl_ms a));
   ("renew_interval_ms", JInt (renew_interval_ms a));
   ("orphan_policy", JStr (se_value (orphan_policy a)));
   ("stop_capability", JStr (stop_capability a))].

Definition action_intent_hash `{Crypto} (a : ActionEnvelope) : option string :=
  text ← dumps (JObj (intent_fields a)); Some ("sha256:" +:+ sha256_hex text).

Record PermitDecision := {
  d_allowed : bool;
  d_code : string;
  d_authorization : AuthorizationContext;
}.

(** ** The authority *)

(** [_permits], [_uses], [_consumed_actions], [_revoked]. *)
Record core := {
  permits : dict ExecutionPermit;
  uses : gmap string Z;
  consumed : gmap string string;
  revoked : gmap string string;
}.

Definition core_new : core := {| permits := []; uses := ∅; consumed := ∅; revoked := ∅ |}.

Inductive permit_exn := PermitValueError | LedgerFailed.

Record PermitAuthority {L} := { tables : core; ledger : option L }.
Arguments PermitAuthority : clear implicits.

Section Authority.
Context `{EventLog L Env} `{Crypto}.
Implicit Types (a : PermitAuthority L).

(** [if self.ledger is not None: self.ledger.append(...)] *)
Definition write_event (env : Env) (l : option L) (ty kind id : string) (d : dict json)
  : option L * bool :=
  match l with
  | None => (None, true)
  | Some l => let '(l, ok) := log_append env l
                {| en_type := ty; en_kind := kind; en_id := id; en_payload := d |} in
              (Some l, ok)
  end.

Definition add_permit (c : core) (p : ExecutionPermit) : core :=
  {| permits := dset (permits c) (p_permit_id p) p; uses := <[p_permit_id p := 0]> (uses c);
     consumed := consumed c; revoked := revoked c |}.

Definition registered_payload (p : ExecutionPermit) (audit : option (dict json)) : dict json :=
  ([("permit", JObj (ExecutionPermit_to_dict p))]
   ++ match audit with Some d => [("audit_context", JObj d)] | None => [] end)%list.

Definition register (env : Env) a (p : ExecutionPermit) (audit : option (dict json))
  : PermitAuthority L * result permit_exn unit :=
  match dget (permits (tables a)) (p_permit_id p) with
  | Some q => if match ledger a with Some _ => permit_eqb q p | None => false end
              then (a, Ok tt) else (a, Err PermitValueError)
  | None =>
      let '(l, ok) := write_event env (ledger a) "PERMIT_REGISTERED" "PERMIT" (p_permit_id p)
                        (registered_payload p audit) in
      if ok then ({| tables := add_permit (tables a) p; ledger := l |}, Ok tt)
      else ({| tables := tables a; ledger := l |}, Err LedgerFailed)
  end.

Definition uses_of (c : core) (id : string) : Z := default 0 (uses c !! id).

Definition denied_context (x : ActionEnvelope) : AuthorizationContext :=
  {| principal_id := principal_id (authorization x); approved := false;
     approval_id := approval_id (authorization x); scopes := []; provenance := [] |}.

Definition deny (x : ActionEnvelope) (code : string) : PermitDecision :=
  {| d_allowed := false; d_code := code; d_authorization := denied_context x |}.

(** [_allow] *)
Definition allow (p : ExecutionPermit) : PermitDecision :=
  {| d_allowed := true; d_code := "AUTHORIZED";
     d_authorization := {| principal_id := p_principal_id p; approved := true;
       approval_id := Some (p_permit_id p); scopes := p_capabilities p;
       provenance := default [] (p_authorization_provenance p) |} |}.

(** The binding checks of [authorize], in order: the code of the first that
    fails, [Err] with [inr] where the intent hash cannot be computed. *)
Definition permit_matches (now : datetime) (c : core) (x : ActionEnvelope)
    (peer : PeerCredentials) (id : string) (p : ExecutionPermit)
  : result (string + permit_exn) unit :=
  guard! negb (dt_le (p_expires_at p) now) else inl "PERMIT_EXPIRED" in
  guard! bool_decide (revoked c !! id = None) else inl "PERMIT_REVOKED" in
  guard! uid peer =? p_peer_uid p else inl "PERMIT_PEER_MISMATCH" in
  guard! String.eqb (principal_id (authorization x)) (p_principal_id p)
    else inl "PERMIT_PRINCIPAL_MISMATCH" in
  guard! match p_session_id p with Some s => String.eqb (session_id x) s | None => true end
    else inl "PERMIT_SESSION_MISMATCH" in
  guard! String.eqb (body_id x) (p_body_id p) else inl "PERMIT_BODY_MISMATCH" in
  guard! String.eqb (body_snapshot_hash x) (p_body_snapshot_hash p)
    else inl "PERMIT_SNAPSHOT_MISMATCH" in
  guard! bool_decide (capability_id x ∈ p_capabilities p) else inl "PERMIT_SCOPE_MISMATCH" in
  let* h := of_option (action_intent_hash x) (inr PermitValueError) in
  require (String.eqb h (p_action_intent_hash p)) (inl "PERMIT_INTENT_MISMATCH").

Definition consume (c : core) (permit_id action_id : string) : core :=
  {| permits := permits c; uses := <[permit_id := uses_of c permit_id + 1]> (uses c);
     consumed := <[action_id := permit_id]> (consumed c); revoked := revoked c |}.

Definition consumed_payload (id : string) (x : ActionEnvelope) (peer : PeerCredentials)
  : dict json :=
  [("permit_id", JStr id); ("action_id", JStr (action_id x));
   ("peer_uid", JInt (uid peer));
   ("action_intent_hash", JStr (default "" (action_intent_hash x)))].

Definition authorize (env : Env) (now : datetime) a (x : ActionEnvelope) (peer : PeerCredentials)
  : PermitAuthority L * result permit_exn PermitDecision :=
  let c := tables a in
  let permit_id := match approval_id (authorization x) with Some s => s | None => "" end in
  if negb (truthy_str permit_id) then (a, Ok (deny x "AUTHORIZATION_REQUIRED"))
  else match dget (permits c) permit_id with
  | None => (a, Ok (deny x "AUTHORIZATION_REQUIRED"))
  | Some p =>
      match permit_matches now c x peer permit_id p with
      | Err (inl code) => (a, Ok (deny x code))
      | Err (inr e) => (a, Err e)
      | Ok _ =>
          match consumed c !! action_id x with
          | Some q => if String.eqb q permit_id then (a, Ok (allow p))
                      else (a, Ok (deny x "PERMIT_ACTION_ID_CONFLICT"))
          | None =>
              if p_max_uses p <=? uses_of c permit_id then (a, Ok (deny x "PERMIT_EXHAUSTED"))
              else
                let '(l, ok) := write_event env (ledger a) "PERMIT_CONSUMED" "PERMIT" permit_id
                                  (consumed_payload permit_id x peer) in
                if ok then ({| tables := consume c permit_id (action_id x); ledger := l |},
                            Ok (allow p))
                else ({| tables := c; ledger := l |}, Err LedgerFailed)
          end
      end
  end.

Definition mark_revoked (c : core) (id reason : string) : core :=
  {| permits := permits c; uses := uses c; consumed := consumed c;
     revoked := <[id := reason]> (revoked c) |}.

(** [_revoke_locked]: the table is updated before the ledger. *)
Definition revoke_locked (env : Env) a (id reason : string)
  : PermitAuthority L * result permit_exn unit :=
  let c := mark_revoked (tables a) id reason in
  let '(l, ok) := write_event env (ledger a) "PERMIT_REVOKED" "PERMIT" id
                    [("permit_id", JStr id); ("reason", JStr reason)] in
  ({| tables := c; ledger := l |}, if ok then Ok tt else Err LedgerFailed).

(** The loop over [targets]; [env id] decides the append for [id]. *)
Fixpoint revoke_each (env : string -> Env) a (targets : list string) (reason : string)
  : PermitAuthority L * result permit_exn unit :=
  match targets with
  | [] => (a, Ok tt)
  | id :: rest =>
      match revoke_locked (env id) a id reason with
      | (a, Ok _) => revoke_each env a rest reason
      | (a, Err e) => (a, Err e)
      end
  end.

Definition unrevoked (c : core) (id : string) : bool := bool_decide (revoked c !! id = None).

Definition session_targets (c : core) (session : string) : list string :=
  dkeys (base.filter (fun kv => bool_decide (p_session_id kv.2 = Some session)
           && unrevoked c kv.1 && (uses_of c kv.1 <? p_max_uses kv.2) = true) (permits c)).

Definition all_targets (c : core) : list string :=
  base.filter (fun id => unrevoked c id = true) (dkeys (permits c)).

Definition revoke_session env a (session reason : string)
  : PermitAuthority L * result permit_exn Z :=
  let targets := session_targets (tables a) session in
  let '(a, r) := revoke_each env a targets reason in
  (a, let* _ := r in Ok (Z.of_nat (length targets))).

Definition revoke_all env a (reason : string) : PermitAuthority L * result permit_exn Z :=
  let targets := all_targets (tables a) in
  let '(a, r) := revoke_each env a targets reason in
  (a, let* _ := r in Ok (Z.of_nat (length targets))).

(** [status]: registered, active, consumed and revoked counts. *)
Definition active_count (now : datetime) (c : core) : Z :=
  Z.of_nat (length (base.filter (fun kv => dt_lt now (p_expires_at kv.2) && unrevoked c kv.1
                             && (uses_of c kv.1 <? p_max_uses kv.2) = true) (permits c))).

Definition status (now : datetime) a : Z * Z * Z * Z :=
  let c := tables a in
  (Z.of_nat (length (permits c)), active_count now c, Z.of_nat (size (consumed c)),
   Z.of_nat (size (revoked c))).

(** ** Restart *)

(** One event of [_restore_from_ledger]; [Err] is [LedgerIntegrityError]. *)
Definition restore_step (c : core) (e : entry) : result unit core :=
  let d := en_payload e in
  if String.eqb (en_type e) "PERMIT_REGISTERED" then
    let* raw := of_option (j ← dget d "permit"; as_obj j) tt in
    let* p := map_err (fun _ => tt) (ExecutionPermit_from_dict raw) in
    guard! String.eqb (p_permit_id p) (en_id e) else tt in
    guard! negb (dhas (permits c) (p_permit_id p)) else tt in
    Ok {| permits := dset (permits c) (p_permit_id p) p;
          uses := match uses c !! p_permit_id p with
                  | Some _ => uses c | None => <[p_permit_id p := 0]> (uses c) end;
          consumed := consumed c; revoked := revoked c |}
  else if String.eqb (en_type e) "PERMIT_CONSUMED" then
    let str k := map_err (fun _ => tt) (strict_string d k) in
    let* permit_id := str "permit_id" in
    let* action_id := str "action_id" in
    let* peer_uid := map_err (fun _ => tt) (strict_int d "peer_uid") in
    let* intent := str "action_intent_hash" in
    guard! String.eqb permit_id (en_id e) else tt in
    let* p := of_option (dget (permits c) permit_id) tt in
    guard! bool_decide (consumed c !! action_id = None) else tt in
    guard! (peer_uid =? p_peer_uid p) && String.eqb intent (p_action_intent_hash p) else tt in
    guard! uses_of c permit_id + 1 <=? p_max_uses p else tt in
    Ok (consume c permit_id action_id)
  else if String.eqb (en_type e) "PERMIT_REVOKED" then
    let str k := map_err (fun _ => tt) (strict_string d k) in
    let* permit_id := str "permit_id" in
    let* reason := str "reason" in
    guard! String.eqb permit_id (en_id e) && dhas (permits c) permit_id
           && unrevoked c permit_id else tt in
    Ok (mark_revoked c permit_id reason)
  else Err tt.

Definition restore (es : list entry) : result unit core := foldr_result restore_step es core_new.

Definition RESTART_REASON : string := "daemon_restart_generation_changed".

(** [PermitAuthority.__init__] with a ledger. *)
Definition start (env : string -> Env) (l : L) : result unit (PermitAuthority L) :=
  let '(l, es) := log_read l "PERMIT" in
  let* es := of_option es tt in
  let* c := restore es in
  let '(a, r) := revoke_all env {| tables := c; ledger := Some l |} RESTART_REASON in
  let* _ := map_err (fun _ => tt) r in
  Ok a.
End Authority.

(** ** Round trip *)

(** A permit as read back from its dictionary: an empty provenance is dropped
    and the keys of the rest are sorted. *)
Definition canon_permit (p : ExecutionPermit) : ExecutionPermit :=
  {| p_permit_id := p_permit_id p; p_principal_id := p_principal_id p;
     p_peer_uid := p_peer_uid p; p_body_id := p_body_id p;
     p_body_snapshot_hash := p_body_snapshot_hash p; p_capabilities := p_capabilities p;
     p_action_intent_hash := p_action_intent_hash p; p_expires_at := p_expires_at p;
     p_max_uses := p_max_uses p; p_session_id := p_session_id p;
     p_authorization_provenance :=
       match p_authorization_provenance p with
       | Some ((_ :: _) as d) => Some (canon_dict d) | _ => None end |}.

(** What the constructor guarantees of a permit. *)
Record permit_ok (p : ExecutionPermit) : Prop := {
  po_init : permit_post_init p = Ok p;
  po_expiry : dt_wf (p_expires_at p);
}.

Lemma mapM_as_str l : mapM as_str (map JStr l) = Some l.
Proof. induction l as [|s l IH]; simpl; [done|]. by rewrite IH. Qed.

Lemma canon_strings l : map canon (map JStr l) = map JStr l.
Proof. induction l as [|s l IH]; simpl; [done|]. by rewrite IH. Qed.

Lemma post_init_facts p :
  permit_post_init p = Ok p ->
  forallb nonblank [p_permit_id p; p_principal_id p; p_body_id p; p_body_snapshot_hash p;
                    p_action_intent_hash p] = true /\ 1 <= p_max_uses p /\
  match p_session_id p with Some s => nonblank s | None => true end = true.
Proof.
  unfold permit_post_init. intros Hp. ok_inv Hp. apply Z.leb_le in Ha4. auto.
Qed.

(** Decoding looks keys up and nothing else. *)
Lemma from_dict_ext d d' :
  (forall k, dget d k = dget d' k) -> ExecutionPermit_from_dict d = ExecutionPermit_from_dict d'.
Proof.
  intros Hd. unfold ExecutionPermit_from_dict, str_at, strict_string, strict_int.
  by rewrite !Hd.
Qed.

Lemma canon_dict_cons kv o : exists kv' o', canon_dict (kv :: o) = kv' :: o'.
Proof.
  destruct (canon_dict (kv :: o)) as [|kv' o'] eqn:E; [|eauto].
  assert (Hp : Permutation (canon_dict (kv :: o)) (map (fun kv => (kv.1, canon kv.2)) (kv :: o)))
    by apply sort_keys_perm.
  rewrite E in Hp. by apply Permutation_nil_l in Hp.
Qed.

Lemma to_dict_canon p :
  ExecutionPermit_to_dict (canon_permit p) =
  map (fun kv => (kv.1, canon kv.2)) (ExecutionPermit_to_dict p).
Proof.
  unfold ExecutionPermit_to_dict. rewrite map_app. f_equal.
  - cbn [map canon fst snd canon_permit p_permit_id p_principal_id p_peer_uid p_body_id
         p_body_snapshot_hash p_capabilities p_action_intent_hash p_expires_at p_max_uses
         p_session_id].
    rewrite canon_strings. by destruct (p_session_id p).
  - unfold canon_permit. cbn [p_authorization_provenance].
    destruct (p_authorization_provenance p) as [[|kv o]|]; [done| |done].
    destruct (canon_dict_cons kv o) as (kv' & o' & E). rewrite E, <- E. done.
Qed.

Definition set_provenance (p : ExecutionPermit) (o : option (dict json)) : ExecutionPermit :=
  {| p_permit_id := p_permit_id p; p_principal_id := p_principal_id p;
     p_peer_uid := p_peer_uid p; p_body_id := p_body_id p;
     p_body_snapshot_hash := p_body_snapshot_hash p; p_capabilities := p_capabilities p;
     p_action_intent_hash := p_action_intent_hash p; p_expires_at := p_expires_at p;
     p_max_uses := p_max_uses p; p_session_id := p_session_id p;
     p_authorization_provenance := o |}.

Lemma set_provenance_ok p o : permit_ok p -> permit_ok (set_provenance p o).
Proof.
  intros [Hi Hx]. constructor; [|done]. revert Hi. unfold permit_post_init.
  cbn [set_provenance p_permit_id p_principal_id p_peer_uid p_body_id
       p_body_snapshot_hash p_capabilities p_action_intent_hash p_expires_at p_max_uses
       p_session_id].
  repeat (destruct (require _ _); cbn [rbind]; [|done]). done.
Qed.

(** Reading a permit's dictionary gives the permit, an empty provenance read
    back as none. *)
Lemma permit_from_to_dict p :
  permit_ok p ->
  ExecutionPermit_from_dict (ExecutionPermit_to_dict p) =
  Ok (set_provenance p match p_authorization_provenance p with
                       | Some ((_ :: _) as o) => Some o | _ => None end).
Proof.
  intros Hp. destruct Hp as [Hi Hx]. destruct (post_init_facts _ Hi) as (Hn & _ & Hs).
  simpl in Hn. breflect.
  unfold ExecutionPermit_from_dict, ExecutionPermit_to_dict, str_at, strict_string, strict_int.
  rewrite !dget_lit_eq. cbn [app dget_lit String.eqb Ascii.eqb Bool.eqb].
  rewrite String.eqb_refl, mapM_as_str.
  cbn [require rbind of_option mbind option_bind as_str].
  rewrite parse_aware_iso by done. cbn [of_option rbind].
  repeat match goal with Hb : nonblank _ = true |- _ => rewrite Hb; clear Hb end.
  cbn [require rbind].
  set (prov := match _ with Some (JObj _) => _ | _ => _ end).
  assert (Hprov : prov = match p_authorization_provenance p with
                         | Some ((_ :: _) as o) => Some o | _ => None end).
  { unfold prov. by destruct (p_authorization_provenance p) as [[|kv o]|]. }
  rewrite Hprov.
  match goal with |- rbind ?m _ = _ => assert (m = Ok (p_session_id p)) as -> end.
  { destruct (p_session_id p); simpl; [by rewrite Hs|done]. }
  cbn [rbind]. apply (po_init (set_provenance p _)). by apply set_provenance_ok.
Qed.

Lemma dget_map_canon d k :
  dget (map (fun kv => (kv.1, canon kv.2)) d) k = canon <$> dget d k.
Proof. induction d as [|[k' x] d IH]; simpl; [done|]. by case_decide. Qed.

(** The same through the ledger's canonical text. *)
Lemma permit_from_stored p :
  permit_ok p ->
  ExecutionPermit_from_dict (canon_dict (ExecutionPermit_to_dict p)) = Ok (canon_permit p).
Proof.
  intros Hp.
  rewrite (from_dict_ext _ (ExecutionPermit_to_dict (canon_permit p))).
  - change (canon_permit p) with (set_provenance p (p_authorization_provenance (canon_permit p))).
    rewrite permit_from_to_dict by by apply set_provenance_ok. f_equal.
    unfold set_provenance, canon_permit. simpl. f_equal.
    destruct (p_authorization_provenance p) as [[|kv o]|]; [done| |done].
    destruct (canon_dict_cons kv o) as (kv' & o' & E). by rewrite E.
  - intros k. by rewrite dget_canon_dict, to_dict_canon, dget_map_canon.
Qed.

(** ** Invariant of the tables *)

Record core_inv (c : core) : Prop := {
  ci_wf : dwf (permits c);
  ci_permit : forall id p, dget (permits c) id = Some p -> p_permit_id p = id /\ permit_ok p;
  (* a permit's uses are the actions consumed under it, never more than allowed *)
  ci_uses : forall id,
    uses_of c id = Z.of_nat (size (base.filter (fun kv => kv.2 = id) (consumed c)));
  ci_max : forall id p, dget (permits c) id = Some p -> uses_of c id <= p_max_uses p;
  ci_known : forall id, dget (permits c) id = None ->
    uses c !! id = None /\ revoked c !! id = None;
}.

Lemma core_new_inv : core_inv core_new.
Proof.
  constructor; simpl; try done.
  constructor.
Qed.

Lemma permit_max_pos p : permit_ok p -> 1 <= p_max_uses p.
Proof. intros [Hi _]. by apply post_init_facts in Hi as (_ & ? & _). Qed.

Lemma core_inv_add c p :
  core_inv c -> permit_ok p -> dget (permits c) (p_permit_id p) = None ->
  core_inv (add_permit c p).
Proof.
  intros [Hw Hp Hu Hm Hk] Hok Hn. destruct (Hk _ Hn) as [Hun Hrn]. constructor; simpl.
  - by apply dwf_dset.
  - intros id q. rewrite dget_dset. case_decide; [intros [=<-]; auto|eauto].
  - intros id. unfold uses_of. simpl. rewrite lookup_insert. case_decide; [|apply Hu].
    subst. specialize (Hu (p_permit_id p)). unfold uses_of in Hu. rewrite Hun in Hu. done.
  - intros id q. unfold uses_of. simpl. rewrite dget_dset, lookup_insert.
    case_decide; [intros [=<-]|apply Hm]. simpl. pose proof (permit_max_pos _ Hok). lia.
  - intros id. rewrite dget_dset, lookup_insert. case_decide; [done|apply Hk].
Qed.

Lemma core_inv_consume c p id x :
  core_inv c -> dget (permits c) id = Some p -> consumed c !! x = None ->
  uses_of c id < p_max_uses p -> core_inv (consume c id x).
Proof.
  intros [Hw Hp Hu Hm Hk] Hg Hx Hlt. constructor; simpl; [done|done| | |].
  - intros id'. unfold uses_of at 1. simpl. rewrite lookup_insert. case_decide as Hd; simpl.
    + subst id'. rewrite map_filter_insert_True by done.
      rewrite map_size_insert_None by (by apply map_lookup_filter_None; left).
      rewrite Hu. lia.
    + rewrite map_filter_insert_False by (simpl; congruence).
      rewrite delete_id by done. apply Hu.
  - intros id' q Hq. unfold uses_of at 1. simpl. rewrite lookup_insert.
    case_decide; subst; simpl; [|by apply Hm]. simplify_eq. lia.
  - intros id' Hn. rewrite lookup_insert. case_decide; [subst; congruence|by apply Hk].
Qed.

Lemma core_inv_revoke c id reason :
  core_inv c -> is_Some (dget (permits c) id) -> core_inv (mark_revoked c id reason).
Proof.
  intros [Hw Hp Hu Hm Hk] [p Hs]. constructor; simpl; [done|done|apply Hu|apply Hm|].
  intros id' Hn. rewrite lookup_insert. case_decide; [subst; congruence|by apply Hk].
Qed.

(** ** What one call of [authorize] does *)

(** Every binding of a permit, as [authorize] checks it. *)
Record bound `{Crypto} (now : datetime) (c : core) (x : ActionEnvelope) (peer : PeerCredentials)
    (id : string) (p : ExecutionPermit) : Prop := {
  bd_expiry : us now < us (p_expires_at p);
  bd_revoked : revoked c !! id = None;
  bd_peer : uid peer = p_peer_uid p;
  bd_principal : principal_id (authorization x) = p_principal_id p;
  bd_session : forall s, p_session_id p = Some s -> session_id x = s;
  bd_body : body_id x = p_body_id p;
  bd_snapshot : body_snapshot_hash x = p_body_snapshot_hash p;
  bd_scope : capability_id x ∈ p_capabilities p;
  bd_intent : action_intent_hash x = Some (p_action_intent_hash p);
}.

Lemma permit_matches_ok `{Crypto} now c x peer id p u :
  permit_matches now c x peer id p = Ok u <-> bound now c x peer id p.
Proof.
  destruct u. unfold permit_matches. split.
  - intros Hm. ok_inv Hm. unfold dt_le in Ha. breflect.
    repeat match goal with Hs : String.eqb _ _ = true |- _ => apply String.eqb_eq in Hs end.
    subst. constructor; try done. intros s Hs. rewrite Hs in Ha3. by apply String.eqb_eq.
  - intros [H1 H2 H3 H4 H5 H6 H7 H8 H9]. unfold dt_le.
    rewrite (proj2 (Z.leb_gt _ _)) by lia. rewrite bool_decide_eq_true_2 by done.
    rewrite H3, H4, H6, H7, Z.eqb_refl, !String.eqb_refl, bool_decide_eq_true_2 by done.
    rewrite H9. destruct (p_session_id p) as [s|]; cbn [negb require rbind of_option];
      [rewrite (H5 s), String.eqb_refl by done; cbn [require rbind]|]; by rewrite String.eqb_refl.
Qed.

(** Only the intent hash can raise. *)
Lemma permit_matches_exn `{Crypto} now c x peer id p :
  permit_matches now c x peer id p <> Err (inr LedgerFailed).
Proof.
  unfold permit_matches.
  repeat match goal with
         | |- rbind (require ?b _) _ <> _ => destruct b; cbn [require rbind]; [|done]
         end.
  destruct (action_intent_hash x); cbn [of_option rbind]; [|done]. by destruct (String.eqb _ _).
Qed.

Section Spec.
Context `{EventLog L Env} `{Crypto}.
Implicit Types (a : PermitAuthority L).

(** The four ways a call ends. *)
Lemma authorize_cases env now a x peer :
  let '(a', r) := authorize env now a x peer in
  (exists code, r = Ok (deny x code) /\ a' = a) \/
  (r = Err PermitValueError /\ a' = a) \/
  (exists id p, approval_id (authorization x) = Some id /\
     dget (permits (tables a)) id = Some p /\ bound now (tables a) x peer id p /\
     ((r = Ok (allow p) /\ a' = a /\ consumed (tables a) !! action_id x = Some id) \/
      (consumed (tables a) !! action_id x = None /\ uses_of (tables a) id < p_max_uses p /\
       exists l, write_event env (ledger a) "PERMIT_CONSUMED" "PERMIT" id
                   (consumed_payload id x peer) = (l, is_ok r) /\
         ((r = Ok (allow p) /\
           a' = {| tables := consume (tables a) id (action_id x); ledger := l |}) \/
          (r = Err LedgerFailed /\ a' = {| tables := tables a; ledger := l |}))))).
Proof.
  unfold authorize. destruct (approval_id (authorization x)) as [id|]; simpl; [|eauto].
  destruct (truthy_str id); simpl; [|eauto].
  destruct (dget (permits (tables a)) id) as [p|] eqn:Hp; [|eauto].
  destruct (permit_matches now (tables a) x peer id p) as [u|[code|e]] eqn:Hm; [|eauto|].
  2: { destruct e; [by auto|]. by apply permit_matches_exn in Hm. }
  apply permit_matches_ok in Hm.
  destruct (consumed (tables a) !! action_id x) as [q|] eqn:Hc.
  - destruct (String.eqb_spec q id) as [->|]; [|eauto].
    right. right. exists id, p. eauto 10.
  - destruct (p_max_uses p <=? uses_of (tables a) id) eqn:Hu; [eauto|].
    apply Z.leb_gt in Hu.
    destruct (write_event _ _ _ _ _ _) as [l ok] eqn:Hw.
    destruct ok; right; right; exists id, p; (split; [done|]; split; [done|]; split; [done|]); right;
      (split; [done|]; split; [done|]); exists l; split; auto.
Qed.

Lemma write_event_entries env l ty kind id d l' ok :
  write_event env (Some l) ty kind id d = (l', ok) ->
  exists l1, l' = Some l1 /\ log_entries l1 = (log_entries l ++
    if ok then [stored {| en_type := ty; en_kind := kind; en_id := id; en_payload := d |}]
    else [])%list.
Proof.
  unfold write_event. destruct (log_append _ _ _) as [l1 b] eqn:Ha. intros [= <- <-].
  exists l1. split; [done|]. destruct b;
    [by apply log_append_true in Ha|apply log_append_false in Ha; by rewrite Ha, app_nil_r].
Qed.
End Spec.

(** ** The tables are what a replay of the ledger gives *)

(** [es] replays to [c], up to revocations whose append failed. *)
Definition replays (c : core) (es : list entry) : Prop :=
  exists c0, restore es = Ok c0 /\
    permits c0 = map (fun kv => (kv.1, canon_permit kv.2)) (permits c) /\
    uses c0 = uses c /\ consumed c0 = consumed c /\ revoked c0 ⊆ revoked c.

Lemma dget_canon_permits d id :
  dget (map (fun kv : string * ExecutionPermit => (kv.1, canon_permit kv.2)) d) id
  = canon_permit <$> dget d id.
Proof. induction d as [|[k p] d IH]; simpl; [done|]. by case_decide. Qed.

Lemma restore_snoc es e c0 c1 :
  restore es = Ok c0 -> restore_step c0 e = Ok c1 -> restore (es ++ [e]) = Ok c1.
Proof.
  unfold restore. intros H1 H2. rewrite foldr_result_app, H1. simpl. by rewrite H2.
Qed.

Definition event_entry (ty id : string) (d : dict json) : entry :=
  stored {| en_type := ty; en_kind := "PERMIT"; en_id := id; en_payload := d |}.

Lemma event_entry_names ty id d : en_type (event_entry ty id d) = ty /\ en_id (event_entry ty id d) = id.
Proof. done. Qed.

Lemma event_entry_get ty id d k : dget (en_payload (event_entry ty id d)) k = canon <$> dget d k.
Proof. apply dget_canon_dict. Qed.

Lemma event_entry_str ty id d k s :
  dget d k = Some (JStr s) -> nonblank s = true ->
  strict_string (en_payload (event_entry ty id d)) k = Ok s.
Proof. intros Hd Hs. unfold strict_string. by rewrite event_entry_get, Hd; simpl; rewrite Hs. Qed.

Lemma canon_JObj d : canon (JObj d) = JObj (canon_dict d).
Proof. done. Qed.

Lemma map_dset_fresh c p :
  dget (permits c) (p_permit_id p) = None ->
  map (fun kv => (kv.1, canon_permit kv.2)) (dset (permits c) (p_permit_id p) p) =
  dset (map (fun kv => (kv.1, canon_permit kv.2)) (permits c)) (p_permit_id p) (canon_permit p).
Proof.
  intros Hn. rewrite !dset_fresh; [|by rewrite dget_canon_permits, Hn|done].
  by rewrite map_app.
Qed.

Lemma replays_add c es p audit :
  core_inv c -> replays c es -> permit_ok p -> dget (permits c) (p_permit_id p) = None ->
  replays (add_permit c p)
    (es ++ [event_entry "PERMIT_REGISTERED" (p_permit_id p) (registered_payload p audit)]).
Proof.
  intros Hi (c0 & Hr & Hp & Hu & Hc & Hrv) Hok Hn.
  destruct (ci_known _ Hi _ Hn) as [Hun Hrn].
  assert (Hn0 : dget (permits c0) (p_permit_id p) = None)
    by (by rewrite Hp, dget_canon_permits, Hn).
  eexists. split; [eapply restore_snoc; [exact Hr|]|].
  - unfold restore_step. rewrite event_entry_get, !(proj1 (event_entry_names _ _ _)),
      (proj2 (event_entry_names _ _ _)).
    cbn [String.eqb Ascii.eqb Bool.eqb]. unfold registered_payload. rewrite dget_lit_eq.
    cbn [app dget_lit String.eqb Ascii.eqb Bool.eqb fmap option_fmap option_map mbind option_bind].
    rewrite canon_JObj. cbn [as_obj of_option rbind]. rewrite permit_from_stored by done.
    cbn [map_err rbind]. change (p_permit_id (canon_permit p)) with (p_permit_id p).
    rewrite String.eqb_refl, (proj2 (dhas_false _ _)) by done. cbn [negb require rbind].
    rewrite Hu, Hun. reflexivity.
  - cbn [permits uses consumed revoked add_permit]. rewrite Hp, map_dset_fresh by done. auto.
Qed.

Lemma dget_replayed c c0 id p :
  permits c0 = map (fun kv => (kv.1, canon_permit kv.2)) (permits c) ->
  dget (permits c) id = Some p -> dget (permits c0) id = Some (canon_permit p).
Proof. intros -> Hp. by rewrite dget_canon_permits, Hp. Qed.

Lemma permit_id_nonblank c id p :
  core_inv c -> dget (permits c) id = Some p ->
  nonblank id = true /\ nonblank (p_action_intent_hash p) = true.
Proof.
  intros Hi Hp. destruct (ci_permit _ Hi _ _ Hp) as [<- [Hok _]].
  apply post_init_facts in Hok as [Hn _]. simpl in Hn. by breflect.
Qed.

Lemma replays_consume `{Crypto} c es p id x peer now :
  core_inv c -> replays c es -> dget (permits c) id = Some p -> bound now c x peer id p ->
  consumed c !! action_id x = None -> uses_of c id < p_max_uses p -> nonblank (action_id x) = true ->
  replays (consume c id (action_id x))
    (es ++ [event_entry "PERMIT_CONSUMED" id (consumed_payload id x peer)]).
Proof.
  intros Hi (c0 & Hr & Hp & Hu & Hc & Hrv) Hg Hb Hx Hlt Hne.
  destruct (permit_id_nonblank _ _ _ Hi Hg) as [Hid Hih].
  assert (Huses : uses_of c0 id = uses_of c id) by (unfold uses_of; by rewrite Hu).
  eexists. split; [eapply restore_snoc; [exact Hr|]|].
  - unfold restore_step. rewrite !(proj1 (event_entry_names _ _ _)),
      !(proj2 (event_entry_names _ _ _)). cbn [String.eqb Ascii.eqb Bool.eqb].
    rewrite (event_entry_str _ _ _ "permit_id" id) by done.
    rewrite (event_entry_str _ _ _ "action_id" (action_id x)) by done.
    rewrite (event_entry_str _ _ _ "action_intent_hash" (p_action_intent_hash p));
      [|by unfold consumed_payload; rewrite (bd_intent _ _ _ _ _ _ Hb)|done].
    unfold strict_int. rewrite event_entry_get. unfold consumed_payload. rewrite dget_lit_eq.
    cbn [dget_lit String.eqb Ascii.eqb Bool.eqb fmap option_fmap option_map canon map_err rbind].
    rewrite String.eqb_refl. cbn [require rbind].
    rewrite (dget_replayed c c0 id p) by done. cbn [of_option rbind].
    rewrite bool_decide_eq_true_2 by (by rewrite Hc). cbn [require rbind].
    rewrite (bd_peer _ _ _ _ _ _ Hb).
    change (p_peer_uid (canon_permit p)) with (p_peer_uid p).
    change (p_action_intent_hash (canon_permit p)) with (p_action_intent_hash p).
    rewrite Z.eqb_refl, String.eqb_refl, Huses. cbn [andb require rbind].
    rewrite (proj2 (Z.leb_le _ _)) by (simpl; lia). reflexivity.
  - unfold consume. cbn [permits uses consumed revoked]. rewrite Huses, Hu, Hc. auto.
Qed.

Lemma replays_revoke c es id reason :
  core_inv c -> replays c es -> is_Some (dget (permits c) id) -> revoked c !! id = None ->
  nonblank reason = true ->
  replays (mark_revoked c id reason)
    (es ++ [event_entry "PERMIT_REVOKED" id [("permit_id", JStr id); ("reason", JStr reason)]]).
Proof.
  intros Hi (c0 & Hr & Hp & Hu & Hc & Hrv) [p Hg] Hn Hre.
  destruct (permit_id_nonblank _ _ _ Hi Hg) as [Hid _].
  assert (Hn0 : revoked c0 !! id = None) by (by eapply lookup_weaken_None).
  eexists. split; [eapply restore_snoc; [exact Hr|]|].
  - unfold restore_step. rewrite !(proj1 (event_entry_names _ _ _)),
      !(proj2 (event_entry_names _ _ _)). cbn [String.eqb Ascii.eqb Bool.eqb].
    rewrite (event_entry_str _ _ _ "permit_id" id), (event_entry_str _ _ _ "reason" reason) by done.
    cbn [map_err rbind]. rewrite String.eqb_refl.
    rewrite (proj2 (dhas_true _ _)) by (eexists; by eapply dget_replayed).
    unfold unrevoked. rewrite bool_decide_eq_true_2 by done. cbn [andb require rbind]. reflexivity.
  - unfold mark_revoked. cbn [permits uses consumed revoked].
    repeat (split; [done|]). by apply insert_mono.
Qed.

(** A revocation whose append failed. *)
Lemma replays_unlogged c es id reason :
  replays c es -> revoked c !! id = None -> replays (mark_revoked c id reason) es.
Proof.
  intros (c0 & Hr & Hp & Hu & Hc & Hrv) Hn. exists c0. repeat (split; [done|]).
  simpl. etrans; [exact Hrv|]. by apply insert_subseteq.
Qed.

(** ** Reachable authorities *)

Section Reach.
Context `{EventLog L Env} `{Crypto}.
Implicit Types (a : PermitAuthority L).

(** One call of the authority, or an append to the shared ledger by another
    component, which writes no PERMIT events. *)
Inductive pstep : PermitAuthority L -> PermitAuthority L -> Prop :=
| ps_register env a p audit : permit_ok p -> pstep a (register env a p audit).1
| ps_authorize env now a x peer :
    nonblank (action_id x) = true -> pstep a (authorize env now a x peer).1
| ps_revoke_session env a session reason :
    nonblank reason = true -> pstep a (revoke_session env a session reason).1
| ps_revoke_all env a reason :
    nonblank reason = true -> pstep a (revoke_all env a reason).1
| ps_other a l l' :
    ledger a = Some l ->
    of_kind "PERMIT" (log_entries l') = of_kind "PERMIT" (log_entries l) ->
    pstep a {| tables := tables a; ledger := Some l' |}.

Record pinv a : Prop := {
  pi_core : core_inv (tables a);
  pi_log : forall l, ledger a = Some l ->
    replays (tables a) (of_kind "PERMIT" (log_entries l));
}.

Definition authority_new (l : option L) : PermitAuthority L :=
  {| tables := core_new; ledger := l |}.

Lemma pinv_new l :
  (forall k, l = Some k -> of_kind "PERMIT" (log_entries k) = []) -> pinv (authority_new l).
Proof.
  intros Hl. constructor; [apply core_new_inv|]. simpl. intros k Hk. rewrite (Hl k) by done.
  exists core_new. done.
Qed.

(** What an append leaves for the replay. *)
Lemma write_replay env c c' l ty id d l' ok :
  (forall k, l = Some k -> replays c (of_kind "PERMIT" (log_entries k))) ->
  (forall es, replays c es -> replays c' (es ++ [event_entry ty id d])) ->
  write_event env l ty "PERMIT" id d = (l', ok) ->
  forall k, l' = Some k ->
    replays (if ok then c' else c) (of_kind "PERMIT" (log_entries k)).
Proof.
  intros Hl Hc Hw k ->. destruct l as [l|]; [|done].
  apply write_event_entries in Hw as (l1 & [= <-] & Hlog).
  unfold of_kind. rewrite Hlog, filter_app.
  destruct ok.
  - rewrite filter_cons_True by done. by apply Hc, Hl.
  - rewrite filter_nil, app_nil_r. by apply Hl.
Qed.

Lemma pinv_register env a p audit :
  pinv a -> permit_ok p -> pinv (register env a p audit).1.
Proof.
  intros [Hc Hl] Hp. unfold register.
  destruct (dget (permits (tables a)) (p_permit_id p)) eqn:Hd.
  { destruct (ledger a) eqn:El; [destruct (permit_eqb _ _)|]; by constructor; simpl; rewrite ?El. }
  destruct (write_event _ _ _ _ _ _) as [l ok] eqn:Hw.
  pose proof (write_replay _ _ (add_permit (tables a) p) _ _ _ _ _ _ Hl
    (fun es He => replays_add _ es p audit Hc He Hp Hd) Hw) as Hr.
  destruct ok; constructor; simpl; try done. by apply core_inv_add.
Qed.

Lemma pinv_authorize env now a x peer :
  pinv a -> nonblank (action_id x) = true -> pinv (authorize env now a x peer).1.
Proof.
  intros [Hc Hl] Hx. pose proof (authorize_cases env now a x peer) as Ha.
  destruct (authorize env now a x peer) as [a' r]. simpl.
  destruct Ha as [(? & _ & ->)|[[_ ->]|(id & p & _ & Hp & Hb & Ha)]]; try done.
  destruct Ha as [(_ & -> & _)|(Hn & Hu & l & Hw & Ha)]; [done|].
  pose proof (write_replay _ _ (consume (tables a) id (action_id x)) _ _ _ _ _ _ Hl
    (fun es He => replays_consume _ es p id x peer now Hc He Hp Hb Hn Hu Hx) Hw) as Hr.
  destruct Ha as [[-> ->]|[-> ->]]; constructor; simpl; try done.
  by eapply core_inv_consume.
Qed.

Lemma pinv_revoke_locked env a id reason :
  pinv a -> is_Some (dget (permits (tables a)) id) -> revoked (tables a) !! id = None ->
  nonblank reason = true -> pinv (revoke_locked env a id reason).1.
Proof.
  intros [Hc Hl] Hp Hn Hre. unfold revoke_locked.
  destruct (write_event _ _ _ _ _ _) as [l ok] eqn:Hw.
  pose proof (write_replay _ _ (mark_revoked (tables a) id reason) _ _ _ _ _ _ Hl
    (fun es He => replays_revoke _ es id reason Hc He Hp Hn Hre) Hw) as Hr.
  constructor; simpl; [by apply core_inv_revoke|].
  intros k Hk. specialize (Hr k Hk). destruct ok; [done|]. by apply replays_unlogged.
Qed.

Lemma pinv_revoke_each env a targets reason :
  pinv a -> NoDup targets -> nonblank reason = true ->
  (forall id, id ∈ targets -> is_Some (dget (permits (tables a)) id) /\
                              revoked (tables a) !! id = None) ->
  pinv (revoke_each env a targets reason).1.
Proof.
  revert a. induction targets as [|id ts IH]; intros a Ha Hnd Hre Ht; [done|]. simpl.
  apply NoDup_cons in Hnd as [Hni Hnd]. destruct (Ht id) as [Hp Hn]; [by left|].
  pose proof (pinv_revoke_locked (env id) a id reason Ha Hp Hn Hre) as Ha'.
  destruct (revoke_locked (env id) a id reason) as [a' r] eqn:E. simpl in Ha'.
  destruct r; [|done]. apply IH; [done|done|done|]. intros j Hj.
  destruct (Ht j) as [Hpj Hnj]; [by right|].
  assert (tables a' = mark_revoked (tables a) id reason) as ->.
  { unfold revoke_locked in E. destruct (write_event _ _ _ _ _ _). by simplify_eq/=. }
  simpl. split; [done|]. rewrite lookup_insert_ne; [done|]. by intros ->.
Qed.
End Reach.

Section Targets.
Context `{EventLog L Env} `{Crypto}.
Implicit Types (a : PermitAuthority L).

Lemma all_targets_in c id :
  core_inv c -> id ∈ all_targets c <-> is_Some (dget (permits c) id) /\ revoked c !! id = None.
Proof.
  intros Hc. unfold all_targets. rewrite list_elem_of_filter, dkeys_dget.
  unfold unrevoked. rewrite bool_decide_eq_true. naive_solver.
Qed.

Lemma session_targets_in c s id :
  core_inv c -> id ∈ session_targets c s ->
  is_Some (dget (permits c) id) /\ revoked c !! id = None.
Proof.
  intros Hc. unfold session_targets, dkeys. rewrite list_elem_of_fmap.
  intros ([k p] & -> & [Hb Hin]%list_elem_of_filter). simpl in *. breflect.
  unfold unrevoked in *. breflect. split; [|done]. eexists. apply dget_Some; [apply Hc|exact Hin].
Qed.

Lemma session_targets_nodup c s : core_inv c -> NoDup (session_targets c s).
Proof.
  intros Hc. unfold session_targets, dkeys. eapply sublist_NoDup; [exact (ci_wf _ Hc)|].
  apply fmap_sublist, sublist_filter.
Qed.

Lemma all_targets_nodup c : core_inv c -> NoDup (all_targets c).
Proof. intros Hc. unfold all_targets. apply NoDup_filter, Hc. Qed.

Lemma pinv_revoke_all env a reason :
  pinv a -> nonblank reason = true -> pinv (revoke_all env a reason).1.
Proof.
  intros Ha Hr. unfold revoke_all.
  pose proof (pinv_revoke_each env a (all_targets (tables a)) reason Ha
    (all_targets_nodup _ (pi_core _ Ha)) Hr) as Hi.
  destruct (revoke_each env a (all_targets (tables a)) reason). simpl in *. apply Hi.
  intros id Hid. by apply all_targets_in; [apply Ha|].
Qed.

Lemma pinv_revoke_session env a s reason :
  pinv a -> nonblank reason = true -> pinv (revoke_session env a s reason).1.
Proof.
  intros Ha Hr. unfold revoke_session.
  pose proof (pinv_revoke_each env a (session_targets (tables a) s) reason Ha
    (session_targets_nodup _ s (pi_core _ Ha)) Hr) as Hi.
  destruct (revoke_each env a _ reason). simpl in *. apply Hi.
  intros id Hid. by eapply session_targets_in; [apply Ha|].
Qed.

Lemma pinv_step a a' : pinv a -> pstep a a' -> pinv a'.
Proof.
  intros Ha Hs. destruct Hs as [env a p audit Hp|env now a x peer Hx|env a s r Hr|env a r Hr
    |a l l' Hl Hlog].
  - by apply pinv_register.
  - by apply pinv_authorize.
  - by apply pinv_revoke_session.
  - by apply pinv_revoke_all.
  - constructor; simpl; [apply Ha|]. intros k [= <-]. rewrite Hlog. by apply Ha.
Qed.

Lemma pinv_reach l a :
  (forall k, l = Some k -> of_kind "PERMIT" (log_entries k) = []) ->
  rtc pstep (authority_new l) a -> pinv a.
Proof. intros Hl. apply reach_inv; [by apply pinv_new | exact pinv_step]. Qed.

(** A complete [revoke_each] revokes its targets and touches nothing else. *)
Lemma revoke_each_tables env a targets reason a' :
  revoke_each env a targets reason = (a', Ok tt) ->
  permits (tables a') = permits (tables a) /\ uses (tables a') = uses (tables a) /\
  consumed (tables a') = consumed (tables a) /\
  forall id, is_Some (revoked (tables a') !! id) <->
    is_Some (revoked (tables a) !! id) \/ id ∈ targets.
Proof.
  revert a. induction targets as [|id ts IH]; intros a; simpl.
  - intros [= <-]. repeat (split; [done|]). intros id. rewrite elem_of_nil. naive_solver.
  - unfold revoke_locked. destruct (write_event _ _ _ _ _ _) as [l ok].
    destruct ok; [|done]. intros (Hp & Hu & Hc & Hr)%IH. simpl in *.
    repeat (split; [done|]). intros j. rewrite Hr, lookup_insert, elem_of_cons.
    case_decide; subst; [naive_solver|]. naive_solver.
Qed.
(** What [revoke_each] has revoked when it ends, or stops at a failed append. *)
Lemma revoke_each_prefix env a targets reason a' r :
  revoke_each env a targets reason = (a', r) ->
  exists k, (k <= length targets)%nat /\
    (forall id, is_Some (revoked (tables a') !! id) <->
       is_Some (revoked (tables a) !! id) \/ id ∈ take k targets) /\
    permits (tables a') = permits (tables a) /\ uses (tables a') = uses (tables a) /\
    consumed (tables a') = consumed (tables a) /\
    match r with Ok _ => k = length targets | Err e => e = LedgerFailed /\ (0 < k)%nat end.
Proof.
  revert a. induction targets as [|id ts IH]; intros a; cbn [revoke_each].
  - intros [= <- <-]. exists 0%nat. split_and!; try done. intros i. rewrite elem_of_nil. tauto.
  - unfold revoke_locked. destruct (write_event _ _ _ _ _ _) as [l []].
    + intros (k & Hk & Hr & Hp & Hu & Hc & Hm)%IH. cbn in *. exists (S k).
      split; [lia|]. split; [|split_and!; try done; destruct r; [by rewrite Hm|naive_solver lia]].
      intros i. rewrite Hr, lookup_insert. cbn. rewrite elem_of_cons.
      destruct (decide (id = i)); subst; naive_solver.
    + intros [= <- <-]. exists 1%nat. cbn. split; [lia|]. split_and!; try done; [|lia].
      intros i. rewrite lookup_insert, elem_of_cons, elem_of_nil.
      destruct (decide (id = i)); subst; naive_solver.
Qed.
End Targets.

(** ** Theorems *)

Section Theorems.
Context `{EventLog L Env} `{Crypto}.
Implicit Types (a : PermitAuthority L).

(** C25: [authorize] allows an action only under a registered permit that is
    unexpired and unrevoked and matches the peer, principal, session, body,
    snapshot, capability and intent; either the action was already charged to
    this permit and nothing changes, or a use is left, the event is appended
    and the action is charged. In every other case nothing is charged. The
    authorization returned is the permit's, never the caller's. *)
Theorem authorize_sound env now a x peer a' d :
  authorize env now a x peer = (a', Ok d) ->
  if d_allowed d then
    exists id p, approval_id (authorization x) = Some id /\
      dget (permits (tables a)) id = Some p /\ bound now (tables a) x peer id p /\
      d_authorization d = {| principal_id := p_principal_id p; approved := true;
        approval_id := Some (p_permit_id p); scopes := p_capabilities p;
        provenance := default [] (p_authorization_provenance p) |} /\
      ((consumed (tables a) !! action_id x = Some id /\ a' = a) \/
       (consumed (tables a) !! action_id x = None /\ uses_of (tables a) id < p_max_uses p /\
        tables a' = consume (tables a) id (action_id x) /\
        forall l, ledger a = Some l -> exists l', ledger a' = Some l' /\
          log_entries l' = (log_entries l ++
            [event_entry "PERMIT_CONSUMED" id (consumed_payload id x peer)])%list))
  else a' = a /\ approved (d_authorization d) = false /\ scopes (d_authorization d) = [].
Proof.
  intros Ha. pose proof (authorize_cases env now a x peer) as Hc. rewrite Ha in Hc.
  destruct Hc as [(code & [= ->] & ->)|[[? _]|(id & p & Hid & Hp & Hb & Hc)]]; [done|done|].
  destruct Hc as [([= ->] & -> & Hx)|(Hx & Hu & l & Hw & [[[= ->] ->]|[? _]])]; [| |done];
    simpl; exists id, p; repeat (split; [done|]); [by left|right].
  repeat (split; [done|]). intros k Hk. rewrite Hk in Hw. simpl in Hw.
  by apply write_event_entries in Hw.
Qed.

(** In every reachable state each permit has authorized at most
    [max_uses] distinct actions: its counter is the number of action ids
    charged to it, each id is charged to one permit, and the bound holds. *)
Theorem permit_uses_bounded l a id p :
  (forall k, l = Some k -> of_kind "PERMIT" (log_entries k) = []) ->
  rtc pstep (authority_new l) a -> dget (permits (tables a)) id = Some p ->
  uses_of (tables a) id =
    Z.of_nat (size (base.filter (fun kv => kv.2 = id) (consumed (tables a)))) /\
  uses_of (tables a) id <= p_max_uses p /\ p_permit_id p = id /\ permit_ok p.
Proof.
  intros Hl Hr Hp. destruct (pi_core _ (pinv_reach l a Hl Hr)) as [_ Hk Hu Hm _].
  split; [apply Hu|]. split; [by apply Hm|]. by apply Hk.
Qed.

(** Crash recovery. Whatever calls were made and whichever appends
    failed, the permit events in the ledger always restore, and restore to
    the permits, uses and charged actions the authority held in memory. *)
Theorem permits_restore l a k :
  (forall k, l = Some k -> of_kind "PERMIT" (log_entries k) = []) ->
  rtc pstep (authority_new l) a -> ledger a = Some k ->
  exists c, restore (of_kind "PERMIT" (log_entries k)) = Ok c /\
    permits c = map (fun kv => (kv.1, canon_permit kv.2)) (permits (tables a)) /\
    uses c = uses (tables a) /\ consumed c = consumed (tables a) /\
    revoked c ⊆ revoked (tables a).
Proof. intros Hl Hr Hk. exact (pi_log _ (pinv_reach l a Hl Hr) k Hk). Qed.

(** A restart is a new trust generation. Once the daemon started from a
    ledger, every permit of that ledger is revoked and no request, from any
    peer and at any time, is authorized under it. *)
Theorem restart_revokes env (k : L) a :
  start env k = Ok a ->
  forall id, is_Some (dget (permits (tables a)) id) -> is_Some (revoked (tables a) !! id) /\
    forall env' now x peer, approval_id (authorization x) = Some id ->
      exists r, authorize env' now a x peer = (a, r) /\
        forall d, r = Ok d -> d_allowed d = false.
Proof.
  unfold start. destruct (log_read k "PERMIT") as [k1 es]. intros Hs.
  destruct es as [es|]; [|done]. cbn [of_option rbind] in Hs.
  destruct (restore es) as [c|]; [|done]. cbn [rbind] in Hs. unfold revoke_all in Hs.
  destruct (revoke_each env _ _ _) as [a1 [[]|e]] eqn:He; [|done].
  cbn [map_err rbind] in Hs. injection Hs as <-.
  apply revoke_each_tables in He as (Hp & _ & _ & Hr). cbn [tables] in Hp, Hr.
  assert (Hall : forall id, is_Some (dget (permits (tables a1)) id) ->
                            is_Some (revoked (tables a1) !! id)).
  { intros id Hid. apply Hr. destruct (revoked c !! id) eqn:E; [left; by eexists|right].
    unfold all_targets. apply list_elem_of_filter. unfold unrevoked.
    by rewrite bool_decide_eq_true, dkeys_dget, <- Hp. }
  intros id Hid. split; [by apply Hall|]. intros env' now x peer Hx.
  pose proof (authorize_cases env' now a1 x peer) as Hc.
  destruct (authorize env' now a1 x peer) as [a' r'].
  destruct Hc as [(code & -> & ->)|[[-> ->]|(id' & p & Hid' & Hp' & Hb & _)]].
  - eexists. split; [done|]. by intros d [= <-].
  - eexists. split; [done|]. by intros d [=].
  - exfalso. assert (id' = id) as -> by congruence.
    destruct (Hall id Hid) as [? Hx']. by rewrite (bd_revoked _ _ _ _ _ _ Hb) in Hx'.
Qed.

(** Retrying is free. Once an action was allowed, the same request is
    allowed again with the same decision, and neither the tables nor the
    ledger change, as long as the permit still matches. *)
Theorem authorize_idempotent env now a x peer a' d env' now' :
  authorize env now a x peer = (a', Ok d) -> d_allowed d = true ->
  (forall id p, dget (permits (tables a)) id = Some p ->
     approval_id (authorization x) = Some id -> us now' < us (p_expires_at p)) ->
  authorize env' now' a' x peer = (a', Ok d).
Proof.
  intros Ha Hd Hexp. pose proof (authorize_cases env now a x peer) as Hc. rewrite Ha in Hc.
  destruct Hc as [(code & [= ->] & _)|[[? _]|(id & p & Hx & Hp & Hb & Hc)]]; [done|done|].
  assert (Hsame : permits (tables a') = permits (tables a) /\
                  revoked (tables a') = revoked (tables a) /\
                  consumed (tables a') !! action_id x = Some id /\ d = allow p).
  { destruct Hc as [([= ->] & -> & Hk)|(_ & _ & l & _ & [[[= ->] ->]|[? _]])]; [done| |done].
    simpl. by rewrite lookup_insert_eq. }
  destruct Hsame as (H1 & H2 & H3 & ->). unfold authorize. rewrite Hx.
  assert (Hne : truthy_str id = true).
  { unfold authorize in Ha. rewrite Hx in Ha. destruct (truthy_str id); [done|]. by simplify_eq. }
  rewrite Hne, H1, Hp. cbn [negb].
  assert (Hb' : permit_matches now' (tables a') x peer id p = Ok tt).
  { apply permit_matches_ok. destruct Hb. constructor; try done; [by eapply Hexp|congruence]. }
  by rewrite Hb', H3, String.eqb_refl.
Qed.

(** Revoking the permits of a session revokes, in registration order, its
    unused and unrevoked ones and nothing else, and answers their number. If an
    append fails it stops there: the permit of that append is revoked, those
    after it are not. *)
Theorem revoke_session_exact env a session reason a' r :
  revoke_session env a session reason = (a', r) ->
  let targets := session_targets (tables a) session in
  exists k, (forall id, is_Some (revoked (tables a') !! id) <->
      is_Some (revoked (tables a) !! id) \/ id ∈ take k targets) /\
    permits (tables a') = permits (tables a) /\ uses (tables a') = uses (tables a) /\
    consumed (tables a') = consumed (tables a) /\
    match r with
    | Ok n => k = length targets /\ n = Z.of_nat k
    | Err e => e = LedgerFailed /\ (0 < k <= length targets)%nat
    end.
Proof.
  unfold revoke_session. destruct (revoke_each _ _ _ _) as [a1 r1] eqn:E.
  apply revoke_each_prefix in E as (k & Hk & Hr & Hp & Hu & Hc & Hm). intros [= <- <-].
  exists k. do 4 (split; [done|]). destruct r1 as [[]|e]; cbn; [by subst k|]. naive_solver.
Qed.
End Theorems.

(** ** A concrete permit, with a constant stand-in for SHA-256 *)

Definition demo_crypto : Crypto :=
  {| hmac_hex := fun k m => k +:+ ":" +:+ m;
     sha256_hex := fun _ => "0123456789abcdef0123456789abcdef0123456789abcdef0123456789abcdef" |}.

Definition demo_permit : ExecutionPermit :=
  {| p_permit_id := "approval-1"; p_principal_id := "operator-1"; p_peer_uid := 1000;
     p_body_id := "arm-1"; p_body_snapshot_hash := "sha256:body"; p_capabilities := ["arm.move"];
     p_action_intent_hash := "sha256:0123456789abcdef0123456789abcdef0123456789abcdef0123456789abcdef";
     p_expires_at := DT 1700000600000000 0; p_max_uses := 1; p_session_id := Some "session_1";
     p_authorization_provenance := None |}.

Definition demo_peer : PeerCredentials := {| pid := 10; uid := 1000; gid := 1000 |}.
Definition demo_now : datetime := DT 1700000000000000 0.

Lemma demo_permit_ok : permit_ok demo_permit.
Proof. constructor; vm_compute; [reflexivity|intuition congruence]. Qed.

Definition demo_registered : PermitAuthority (list entry) :=
  (register (Env := bool) true (authority_new (Some [])) demo_permit None).1.
Definition demo_authorized : PermitAuthority (list entry) :=
  (authorize (Env := bool) (H0 := demo_crypto) true demo_now demo_registered demo_action demo_peer).1.

Lemma demo_log_empty (k : list entry) :
  Some [] = Some k -> of_kind "PERMIT" (log_entries (Env := bool) k) = [].
Proof. by intros [= <-]. Qed.

Lemma demo_authorized_reach :
  rtc (pstep (Env := bool) (H0 := demo_crypto)) (authority_new (Some [])) demo_authorized.
Proof.
  eapply rtc_l; [apply (ps_register (H0 := demo_crypto) true _ demo_permit None), demo_permit_ok|].
  eapply rtc_l; [apply (ps_authorize (H0 := demo_crypto) true demo_now _ demo_action demo_peer);
                 vm_compute; reflexivity|].
  apply rtc_refl.
Qed.

Lemma authorize_sound_witness :
  exists id p, approval_id (authorization demo_action) = Some id /\
    dget (permits (tables demo_registered)) id = Some p /\
    bound (H := demo_crypto) demo_now (tables demo_registered) demo_action demo_peer id p.
Proof.
  destruct (authorize_sound (Env := bool) (H0 := demo_crypto) true demo_now demo_registered
              demo_action demo_peer demo_authorized (allow demo_permit))
    as (id & p & H1 & H2 & H3 & _).
  - vm_compute. reflexivity.
  - exists id, p. split; [exact H1|]. split; [exact H2|exact H3].
Defined.

Lemma permit_uses_bounded_witness :
  uses_of (tables demo_authorized) "approval-1" = 1 /\
  uses_of (tables demo_authorized) "approval-1" <= p_max_uses demo_permit.
Proof.
  destruct (permit_uses_bounded (Env := bool) (H0 := demo_crypto) (Some []) demo_authorized
              "approval-1" demo_permit) as (_ & H2 & _).
  - exact demo_log_empty.
  - exact demo_authorized_reach.
  - vm_compute. reflexivity.
  - split; [vm_compute; reflexivity|exact H2].
Defined.

Lemma permits_restore_witness :
  exists k c, ledger demo_authorized = Some k /\
    restore (of_kind "PERMIT" (log_entries (Env := bool) k)) = Ok c /\
    consumed c = {["action_1" := "approval-1"]}.
Proof.
  destruct (ledger demo_authorized) as [k|] eqn:E; [|vm_compute in E; discriminate E].
  destruct (permits_restore (Env := bool) (H0 := demo_crypto) (Some []) demo_authorized k)
    as (c & H1 & _ & _ & H4 & _).
  - exact demo_log_empty.
  - exact demo_authorized_reach.
  - exact E.
  - exists k, c. split; [reflexivity|]. split; [exact H1|]. rewrite H4. vm_compute. reflexivity.
Defined.

Definition demo_log : list entry := default [] (ledger demo_authorized).
Definition demo_restarted : PermitAuthority (list entry) :=
  match start (Env := bool) (fun _ => true) demo_log with
  | Ok a => a | Err _ => authority_new None end.

Lemma restart_revokes_witness :
  is_Some (revoked (tables demo_restarted) !! "approval-1").
Proof.
  apply (restart_revokes (Env := bool) (H0 := demo_crypto) (fun _ => true) demo_log demo_restarted).
  - vm_compute. reflexivity.
  - exists demo_permit. vm_compute. reflexivity.
Defined.

Lemma authorize_idempotent_witness :
  authorize (Env := bool) (H0 := demo_crypto) false demo_now demo_authorized demo_action demo_peer
  = (demo_authorized, Ok (allow demo_permit)).
Proof.
  apply (authorize_idempotent (Env := bool) (H0 := demo_crypto) true demo_now demo_registered
           demo_action demo_peer demo_authorized (allow demo_permit) false demo_now).
  - vm_compute. reflexivity.
  - reflexivity.
  - intros id p Hp Hid. injection Hid as <-. vm_compute in Hp. injection Hp as <-.
    vm_compute. reflexivity.
Defined.

(** A session with two permits, and a ledger that refuses the first event. *)
Definition demo_permit_2 : ExecutionPermit :=
  {| p_permit_id := "approval-2"; p_principal_id := p_principal_id demo_permit;
     p_peer_uid := p_peer_uid demo_permit; p_body_id := p_body_id demo_permit;
     p_body_snapshot_hash := p_body_snapshot_hash demo_permit;
     p_capabilities := p_capabilities demo_permit;
     p_action_intent_hash := p_action_intent_hash demo_permit;
     p_expires_at := p_expires_at demo_permit; p_max_uses := 1;
     p_session_id := p_session_id demo_permit; p_authorization_provenance := None |}.

Definition demo_both : PermitAuthority (list entry) :=
  (register (Env := bool) true demo_registered demo_permit_2 None).1.

Lemma revoke_session_exact_witness :
  let a' := (revoke_session (fun _ => false) demo_both "session_1" "session_lost").1 in
  is_Some (revoked (tables a') !! "approval-1") /\ revoked (tables a') !! "approval-2" = None.
Proof.
  destruct (revoke_session (fun _ => false) demo_both "session_1" "session_lost") as [a' r] eqn:E.
  destruct (revoke_session_exact (fun _ => false) demo_both "session_1" "session_lost" a' r E)
    as (k & Hk & _).
  assert (Hx : a' = (revoke_session (fun _ => false) demo_both "session_1" "session_lost").1)
    by (rewrite E; reflexivity).
  split.
  - rewrite Hx. vm_compute. by eexists.
  - rewrite Hx. vm_compute. reflexivity.
Defined.
