(* ===== verification/Sessions.v ===== *)
(** Agent sessions: src/src/rosclaw/daemon/session_manager.py.

    [SessionManager] is the dictionary of sessions; every method body runs
    under one lock and is one function on it. A [SessionError] is its code,
    returned with the state it leaves: an overdue session is marked LOST by the
    very call that refuses it. [time.monotonic] is in microseconds. *)

From S2P Require Export Permits.

Definition SESSION_SCHEMA_VERSION : string := "rosclaw.daemon.session.v1".
Definition DEFAULT_SESSION_TTL_MS : Z := 10000.
Definition MIN_SESSION_TTL_MS : Z := 300.
Definition MAX_SESSION_TTL_MS : Z := 3600000.

Inductive SessionState := ACTIVE | LOST | CLOSED.

Definition SessionState_value (s : SessionState) : string :=
  match s with ACTIVE => "ACTIVE" | LOST => "LOST" | CLOSED => "CLOSED" end.

#[export] Instance SessionState_eq_dec : EqDecision SessionState.
Proof. solve_decision. Defined.

Record AgentSession := {
  ss_session_id : string;
  ss_actor_id : string;
  ss_agent_framework : string;
  ss_peer_uid : Z;
  ss_body_scope : list string;
  ss_capability_scope : list string;
  ss_ttl_ms : Z;
  ss_created_at : datetime;
  ss_last_heartbeat : datetime;
  ss_expires_at : datetime;
  ss_expires_monotonic : Z;
  ss_state : SessionState;
  ss_loss_reason : option string;
}.

Definition AgentSession_to_dict (s : AgentSession) : dict json :=
  [("schema_version", JStr SESSION_SCHEMA_VERSION);
   ("session_id", JStr (ss_session_id s));
   ("actor_id", JStr (ss_actor_id s));
   ("agent_framework", JStr (ss_agent_framework s));
   ("peer_uid", JInt (ss_peer_uid s));
   ("body_scope", JList (map JStr (ss_body_scope s)));
   ("capability_scope", JList (map JStr (ss_capability_scope s)));
   ("ttl_ms", JInt (ss_ttl_ms s));
   ("state", JStr (SessionState_value (ss_state s)));
   ("created_at", JStr (iso (ss_created_at s)));
   ("last_heartbeat", JStr (iso (ss_last_heartbeat s)));
   ("expires_at", JStr (iso (ss_expires_at s)));
   ("loss_reason", opt_text_json (ss_loss_reason s))].

(** A [SessionError] by its code. *)
Definition session_result := result string.

(** [_identifier], [_scope] and [_ttl]. *)
Definition identifier (s : string) : session_result string :=
  guard! printable 256 s else "INVALID_SESSION" in Ok s.

Definition scope (l : list string) : session_result (list string) :=
  guard! negb (bool_decide (l = [])) else "INVALID_SESSION" in
  let* ids := mapr identifier l in
  let normalized := sorted_set ids in
  guard! bool_decide ("*" ∉ normalized) else "INVALID_SESSION" in
  Ok normalized.

Definition session_ttl (ttl : Z) : session_result Z :=
  guard! (MIN_SESSION_TTL_MS <=? ttl) && (ttl <=? MAX_SESSION_TTL_MS) else "INVALID_SESSION" in
  Ok ttl.

Abbreviation SessionManager := (dict AgentSession).

Definition set_session (m : SessionManager) (s : AgentSession) : SessionManager :=
  dset m (ss_session_id s) s.

Definition with_state (s : AgentSession) (st : SessionState) (reason : string) : AgentSession :=
  {| ss_session_id := ss_session_id s; ss_actor_id := ss_actor_id s;
     ss_agent_framework := ss_agent_framework s; ss_peer_uid := ss_peer_uid s;
     ss_body_scope := ss_body_scope s; ss_capability_scope := ss_capability_scope s;
     ss_ttl_ms := ss_ttl_ms s; ss_created_at := ss_created_at s;
     ss_last_heartbeat := ss_last_heartbeat s; ss_expires_at := ss_expires_at s;
     ss_expires_monotonic := ss_expires_monotonic s; ss_state := st;
     ss_loss_reason := Some reason |}.

Definition lose (s : AgentSession) : AgentSession := with_state s LOST "heartbeat_timeout".

(** A session as created or renewed at the clock readings [now] and [mono]. *)
Definition renewed (s : AgentSession) (now : datetime) (mono : Z) : AgentSession :=
  {| ss_session_id := ss_session_id s; ss_actor_id := ss_actor_id s;
     ss_agent_framework := ss_agent_framework s; ss_peer_uid := ss_peer_uid s;
     ss_body_scope := ss_body_scope s; ss_capability_scope := ss_capability_scope s;
     ss_ttl_ms := ss_ttl_ms s; ss_created_at := ss_created_at s;
     ss_last_heartbeat := now; ss_expires_at := dt_add now (ss_ttl_ms s * 1000);
     ss_expires_monotonic := mono + ss_ttl_ms s * 1000; ss_state := ss_state s;
     ss_loss_reason := ss_loss_reason s |}.

(** [actual == expected] of [create_session]. *)
Definition same_request (s t : AgentSession) : bool :=
  String.eqb (ss_actor_id s) (ss_actor_id t)
  && String.eqb (ss_agent_framework s) (ss_agent_framework t)
  && (ss_peer_uid s =? ss_peer_uid t)
  && bool_decide (ss_body_scope s = ss_body_scope t)
  && bool_decide (ss_capability_scope s = ss_capability_scope t)
  && (ss_ttl_ms s =? ss_ttl_ms t).

Definition create_session (now : datetime) (mono : Z) (m : SessionManager)
    (session_id actor_id agent_framework : string) (body_scope capability_scope : list string)
    (ttl_ms : Z) (peer : PeerCredentials) : SessionManager * session_result AgentSession :=
  let request :=
    let* sid := identifier session_id in
    let* actor := identifier actor_id in
    let* framework := identifier agent_framework in
    let* bodies := scope body_scope in
    let* capabilities := scope capability_scope in
    let* ttl := session_ttl ttl_ms in
    Ok {| ss_session_id := sid; ss_actor_id := actor; ss_agent_framework := framework;
          ss_peer_uid := uid peer; ss_body_scope := bodies; ss_capability_scope := capabilities;
          ss_ttl_ms := ttl; ss_created_at := now; ss_last_heartbeat := now;
          ss_expires_at := dt_add now (ttl * 1000);
          ss_expires_monotonic := mono + ttl * 1000; ss_state := ACTIVE;
          ss_loss_reason := None |} in
  match request with
  | Err e => (m, Err e)
  | Ok s =>
      match dget m (ss_session_id s) with
      | Some existing =>
          if bool_decide (ss_state existing = ACTIVE) && same_request existing s
          then (m, Ok existing) else (m, Err "SESSION_ID_CONFLICT")
      | None => (set_session m s, Ok s)
      end
  end.

Definition adopt_action (now : datetime) (mono : Z) (m : SessionManager) (a : ActionEnvelope)
    (peer : PeerCredentials) : SessionManager * session_result AgentSession :=
  create_session now mono m (session_id a) (actor_id a) (agent_framework a) [body_id a]
    [capability_id a] (Z.max DEFAULT_SESSION_TTL_MS (lease_ttl_ms a)) peer.

(** [_get]; [require_action] looks the action's session id up directly. *)
Definition get_by_id (m : SessionManager) (id : string) : session_result AgentSession :=
  let* id := identifier id in of_option (dget m id) "SESSION_NOT_FOUND".

Definition require_owner (s : AgentSession) (peer : PeerCredentials) : session_result unit :=
  require (uid peer =? ss_peer_uid s) "SESSION_OWNERSHIP_MISMATCH".

(** The checks [require_action] and [heartbeat] share, then [k]; an overdue
    session is lost. *)
Definition live_session (mono : Z) (m : SessionManager) (s : AgentSession) (peer : PeerCredentials)
    (k : SessionManager * session_result AgentSession)
  : SessionManager * session_result AgentSession :=
  match require_owner s peer with
  | Err e => (m, Err e)
  | Ok _ =>
      if bool_decide (ss_state s <> ACTIVE) then (m, Err "SESSION_NOT_ACTIVE")
      else if ss_expires_monotonic s <=? mono
      then (set_session m (lose s), Err "SESSION_EXPIRED")
      else k
  end.

Definition require_action (mono : Z) (m : SessionManager) (a : ActionEnvelope)
    (peer : PeerCredentials) : SessionManager * session_result AgentSession :=
  match dget m (session_id a) with
  | None => (m, Err "SESSION_NOT_FOUND")
  | Some s =>
      live_session mono m s peer
        (m, guard! String.eqb (ss_actor_id s) (actor_id a) else "SESSION_ACTOR_MISMATCH" in
            guard! bool_decide (body_id a ∈ ss_body_scope s) else "SESSION_BODY_SCOPE_MISMATCH" in
            guard! bool_decide (capability_id a ∈ ss_capability_scope s)
              else "SESSION_CAPABILITY_SCOPE_MISMATCH" in
            Ok s)
  end.

(** The lease is checked at the clock reading [mono] and renewed at [mono']. *)
Definition heartbeat (now : datetime) (mono mono' : Z) (m : SessionManager) (id : string)
    (peer : PeerCredentials) : SessionManager * session_result AgentSession :=
  match get_by_id m id with
  | Err e => (m, Err e)
  | Ok s => let s' := renewed s now mono' in
            live_session mono m s peer (set_session m s', Ok s')
  end.

Definition close_session (m : SessionManager) (id : string) (peer : PeerCredentials)
    (reason : string) : SessionManager * session_result AgentSession :=
  match (let* s := get_by_id m id in let* _ := require_owner s peer in Ok s) with
  | Err e => (m, Err e)
  | Ok s => if bool_decide (ss_state s = ACTIVE)
            then let s' := with_state s CLOSED (prefix_of 256 reason) in (set_session m s', Ok s')
            else (m, Ok s)
  end.

Definition overdue (mono : Z) (s : AgentSession) : bool :=
  bool_decide (ss_state s = ACTIVE) && (ss_expires_monotonic s <=? mono).

(** The sessions that became LOST, and the table. *)
Definition expire_sessions (mono : Z) (m : SessionManager) : SessionManager * list AgentSession :=
  (map (fun kv => (kv.1, if overdue mono kv.2 then lose kv.2 else kv.2)) m,
   map lose (base.filter (fun s => overdue mono s = true) (dvals m))).

Definition get_session (m : SessionManager) (id : string) (peer : PeerCredentials)
  : session_result AgentSession :=
  let* s := get_by_id m id in let* _ := require_owner s peer in Ok s.

Definition count_state (m : SessionManager) (st : SessionState) : Z :=
  Z.of_nat (length (base.filter (fun s => ss_state s = st) (dvals m))).

(** [status]: total, active, lost, closed. *)
Definition session_status (m : SessionManager) : Z * Z * Z * Z :=
  (Z.of_nat (length m), count_state m ACTIVE, count_state m LOST, count_state m CLOSED).

(** ** Steps *)

Inductive sstep : SessionManager -> SessionManager -> Prop :=
| s_create now mono m sid actor fw bodies caps ttl peer :
    sstep m (create_session now mono m sid actor fw bodies caps ttl peer).1
| s_adopt now mono m a peer : sstep m (adopt_action now mono m a peer).1
| s_require mono m a peer : sstep m (require_action mono m a peer).1
| s_heartbeat now mono mono' m id peer : sstep m (heartbeat now mono mono' m id peer).1
| s_close m id peer reason : sstep m (close_session m id peer reason).1
| s_expire mono m : sstep m (expire_sessions mono m).1.

(** ** Invariant *)

(** A session as [create_session] makes them. *)
Record session_ok (id : string) (s : AgentSession) : Prop := {
  so_id : ss_session_id s = id;
  so_names : forallb (printable 256) [ss_session_id s; ss_actor_id s; ss_agent_framework s] = true;
  so_bodies : ss_body_scope s <> [] /\ ("*" ∉ ss_body_scope s) /\
              StronglySorted str_lt (ss_body_scope s);
  so_caps : ss_capability_scope s <> [] /\ ("*" ∉ ss_capability_scope s) /\
            StronglySorted str_lt (ss_capability_scope s);
  so_ttl : MIN_SESSION_TTL_MS <= ss_ttl_ms s <= MAX_SESSION_TTL_MS;
  so_reason : ss_loss_reason s = None <-> ss_state s = ACTIVE;
}.

Record smgr_inv (m : SessionManager) : Prop := {
  si_wf : dwf m;
  si_ok : forall id s, dget m id = Some s -> session_ok id s;
}.

(** Who owns a session and what it may do never changes. *)
Definition identity (s : AgentSession) :=
  (ss_session_id s, ss_actor_id s, ss_agent_framework s, ss_peer_uid s,
   ss_body_scope s, ss_capability_scope s, ss_ttl_ms s, ss_created_at s).

(** What a step may do to an existing session. *)
Definition evolves (s s' : AgentSession) : Prop :=
  identity s' = identity s /\ (ss_state s <> ACTIVE -> s' = s).

Lemma evolves_refl s : evolves s s.
Proof. done. Qed.

Lemma identifier_ok s t : identifier s = Ok t -> t = s /\ printable 256 s = true.
Proof. unfold identifier. intros Hi. ok_inv Hi. by subst. Qed.

Lemma scope_ok l t :
  scope l = Ok t -> t = sorted_set l /\ t <> [] /\ ("*" ∉ t) /\ StronglySorted str_lt t.
Proof.
  unfold scope. intros Hs. ok_inv Hs. breflect. subst t.
  assert (Hl : a0 = l).
  { clear -Ha0. revert a0 Ha0. induction l as [|x l IH]; intros ys Hy; cbn [mapr] in Hy; ok_inv Hy.
    - done.
    - apply identifier_ok in Ha as [-> _]. subst ys. f_equal. by apply IH. }
  subst a0. split; [done|]. split; [|split; [done|apply sorted_set_sorted]].
  intros He. destruct l as [|x l]; [done|].
  assert (Hx : x ∈ sorted_set (x :: l)) by (apply elem_of_sorted_set; left).
  rewrite He in Hx. inversion Hx.
Qed.

Lemma session_ttl_ok t t' :
  session_ttl t = Ok t' -> t' = t /\ MIN_SESSION_TTL_MS <= t <= MAX_SESSION_TTL_MS.
Proof. unfold session_ttl. intros Ht. ok_inv Ht. breflect. subst. lia. Qed.

Lemma lose_ok id s : session_ok id s -> session_ok id (lose s).
Proof. intros [? ? ? ? ? ?]. by constructor. Qed.

Lemma with_state_ok id s st r : st <> ACTIVE -> session_ok id s -> session_ok id (with_state s st r).
Proof. intros Hs [? ? ? ? ? ?]. by constructor. Qed.

Lemma renewed_ok id s now mono : session_ok id s -> session_ok id (renewed s now mono).
Proof. intros [? ? ? ? ? ?]. by constructor. Qed.

(** The four ways [create_session] ends. *)
Lemma create_cases now mono m sid actor fw bodies caps ttl peer :
  let '(m', r) := create_session now mono m sid actor fw bodies caps ttl peer in
  (exists e, r = Err e /\ m' = m) \/
  (exists s, r = Ok s /\ m' = m /\ dget m sid = Some s /\ ss_state s = ACTIVE /\
     ss_peer_uid s = uid peer /\ ss_actor_id s = actor) \/
  (exists s, r = Ok s /\ m' = set_session m s /\ dget m sid = None /\ session_ok sid s /\
     ss_state s = ACTIVE /\ ss_peer_uid s = uid peer /\ ss_actor_id s = actor).
Proof.
  unfold create_session.
  destruct (rbind (identifier sid) _) as [s|e] eqn:Hq; [|left; eauto].
  ok_inv Hq. apply identifier_ok in Ha as [-> Hs], Ha0 as [-> Ha], Ha1 as [-> Hf].
  apply scope_ok in Ha2 as (_ & Hb), Ha3 as (_ & Hc). apply session_ttl_ok in Ha4 as [-> Ht].
  assert (Hok : session_ok sid s).
  { subst s. constructor; simpl; try done. by rewrite Hs, Ha, Hf. }
  rewrite (so_id _ _ Hok).
  destruct (dget m sid) as [x|] eqn:Hx.
  - destruct (bool_decide (ss_state x = ACTIVE) && same_request x s) eqn:E; [|left; eauto].
    breflect. right. left. exists x. unfold same_request in *. breflect.
    subst s. simpl in *. repeat match goal with
      HH : String.eqb _ _ = true |- _ => apply String.eqb_eq in HH end.
    repeat (split; [done|]). done.
  - right. right. exists s. subst s. auto 10.
Qed.

Lemma get_by_id_ok m id s : get_by_id m id = Ok s -> dget m id = Some s.
Proof. unfold get_by_id. intros Hg. ok_inv Hg. by apply identifier_ok in Ha as [-> _]. Qed.

(** What a checked call leaves behind. *)
Lemma live_session_cases mono m s peer k :
  (uid peer <> ss_peer_uid s /\
   live_session mono m s peer k = (m, Err "SESSION_OWNERSHIP_MISMATCH")) \/
  (ss_state s <> ACTIVE /\ live_session mono m s peer k = (m, Err "SESSION_NOT_ACTIVE")) \/
  (uid peer = ss_peer_uid s /\ ss_state s = ACTIVE /\ ss_expires_monotonic s <= mono /\
   live_session mono m s peer k = (set_session m (lose s), Err "SESSION_EXPIRED")) \/
  (uid peer = ss_peer_uid s /\ ss_state s = ACTIVE /\ mono < ss_expires_monotonic s /\
   live_session mono m s peer k = k).
Proof.
  unfold live_session, require_owner, require.
  destruct (uid peer =? ss_peer_uid s) eqn:Hu; breflect; [|by left].
  case_bool_decide as Hs; [by auto|].
  destruct (ss_expires_monotonic s <=? mono) eqn:Hm; breflect; auto 10.
Qed.

(** Replacing a session by one of the same name. *)
Lemma smgr_inv_set m id s : smgr_inv m -> session_ok id s -> smgr_inv (set_session m s).
Proof.
  intros [Hw Ho] Hs. constructor; [by apply dwf_dset|]. unfold set_session.
  intros id' s'. rewrite dget_dset, (so_id _ _ Hs). case_decide; [|apply Ho].
  intros [= <-]. by subst.
Qed.

Lemma dget_set_session m id s id' :
  ss_session_id s = id -> dget (set_session m s) id' = if decide (id = id') then Some s else dget m id'.
Proof. intros <-. apply dget_dset. Qed.

Lemma dget_expired mono m id :
  dget (expire_sessions mono m).1 id =
  (fun s => if overdue mono s then lose s else s) <$> dget m id.
Proof.
  simpl. induction m as [|[k s] m IH]; simpl; [done|]. by case_decide.
Qed.

Lemma overdue_spec mono s :
  overdue mono s = true <-> ss_state s = ACTIVE /\ ss_expires_monotonic s <= mono.
Proof. unfold overdue. rewrite andb_true_iff, bool_decide_eq_true, Z.leb_le. done. Qed.

Lemma smgr_inv_expire mono m : smgr_inv m -> smgr_inv (expire_sessions mono m).1.
Proof.
  intros [Hw Ho]. constructor.
  - unfold dwf, dkeys in *. simpl. rewrite <- list_fmap_compose. done.
  - intros id s. rewrite dget_expired. destruct (dget m id) as [x|] eqn:Hx; [|done].
    simpl. intros [= <-]. specialize (Ho _ _ Hx). case_match; [by apply lose_ok|done].
Qed.

Lemma evolves_trans s t u : evolves s t -> evolves t u -> evolves s u.
Proof.
  intros [H1 H2] [H3 H4]. split; [congruence|]. intros Hs. rewrite <- (H2 Hs). apply H4.
  by rewrite (H2 Hs).
Qed.

Lemma set_session_evolves m s s' :
  smgr_inv m -> dget m (ss_session_id s) = Some s -> evolves s s' ->
  forall id x, dget m id = Some x -> exists x', dget (set_session m s') id = Some x' /\ evolves x x'.
Proof.
  intros Hi Hs He id x Hx.
  assert (Hid : ss_session_id s' = ss_session_id s) by (destruct He as [He _]; by injection He).
  rewrite (dget_set_session _ _ _ _ Hid).
  case_decide; [subst id; simplify_eq; eauto|eauto using evolves_refl].
Qed.

Lemma live_session_step mono m s peer s' r id :
  smgr_inv m -> dget m id = Some s -> session_ok id s' -> evolves s s' ->
  let m' := (live_session mono m s peer (set_session m s', r)).1 in
  smgr_inv m' /\ forall i x, dget m i = Some x -> exists x', dget m' i = Some x' /\ evolves x x'.
Proof.
  intros Hi Hs Hok He. pose proof (si_ok _ Hi _ _ Hs) as Hso.
  assert (Hid : dget m (ss_session_id s) = Some s) by (by rewrite (so_id _ _ Hso)).
  simpl. destruct (live_session_cases mono m s peer (set_session m s', r))
    as [[_ ->]|[[_ ->]|[(_ & Ha & _ & ->)|(_ & _ & _ & ->)]]]; simpl.
  - eauto using evolves_refl.
  - eauto using evolves_refl.
  - split; [eapply smgr_inv_set; [done|by apply lose_ok]|].
    apply (set_session_evolves m s); [done|done|]. by split.
  - split; [by eapply smgr_inv_set|]. by apply (set_session_evolves m s).
Qed.

Lemma live_session_keep mono m s peer r id :
  smgr_inv m -> dget m id = Some s ->
  let m' := (live_session mono m s peer (m, r)).1 in
  smgr_inv m' /\ forall i x, dget m i = Some x -> exists x', dget m' i = Some x' /\ evolves x x'.
Proof.
  intros Hi Hs. pose proof (si_ok _ Hi _ _ Hs) as Hso.
  assert (Hid : dget m (ss_session_id s) = Some s) by (by rewrite (so_id _ _ Hso)).
  simpl. destruct (live_session_cases mono m s peer (m, r))
    as [[_ ->]|[[_ ->]|[(_ & Ha & _ & ->)|(_ & _ & _ & ->)]]]; simpl; eauto using evolves_refl.
  split; [eapply smgr_inv_set; [done|by apply lose_ok]|].
  apply (set_session_evolves m s); [done|done|]. by split.
Qed.

Lemma create_step now mono m sid actor fw bodies caps ttl peer :
  smgr_inv m ->
  let m' := (create_session now mono m sid actor fw bodies caps ttl peer).1 in
  smgr_inv m' /\ forall i x, dget m i = Some x -> exists x', dget m' i = Some x' /\ evolves x x'.
Proof.
  intros Hi. pose proof (create_cases now mono m sid actor fw bodies caps ttl peer) as Hc.
  destruct (create_session now mono m sid actor fw bodies caps ttl peer) as [m' r]. simpl.
  destruct Hc as [(e & _ & ->)|[(s & _ & -> & _)|(s & _ & -> & Hn & Hok & _)]];
    [eauto using evolves_refl..|].
  split; [by eapply smgr_inv_set|]. intros i x Hx.
  rewrite (dget_set_session _ _ _ _ (so_id _ _ Hok)).
  case_decide; [congruence|eauto using evolves_refl].
Qed.

(** No step breaks the table's invariant, forgets a session, changes its owner
    or scopes, or touches a session that is no longer ACTIVE. *)
Lemma sstep_effect m m' :
  smgr_inv m -> sstep m m' ->
  smgr_inv m' /\ forall i x, dget m i = Some x -> exists x', dget m' i = Some x' /\ evolves x x'.
Proof.
  intros Hi Hs. destruct Hs as [now mono m sid actor fw bodies caps ttl peer|now mono m a peer
    |mono m a peer|now mono mono' m id peer|m id peer reason|mono m].
  - by apply create_step.
  - by apply create_step.
  - unfold require_action. destruct (dget m (session_id a)) as [s|] eqn:Hs;
      [|eauto using evolves_refl]. by eapply live_session_keep.
  - unfold heartbeat. destruct (get_by_id m id) as [s|e] eqn:Hs; [|eauto using evolves_refl].
    apply get_by_id_ok in Hs. pose proof (si_ok _ Hi _ _ Hs) as Hok.
    unfold live_session. destruct (require_owner s peer); [|eauto using evolves_refl].
    case_bool_decide as Ha; [eauto using evolves_refl|].
    assert (Hid : dget m (ss_session_id s) = Some s) by (by rewrite (so_id _ _ Hok)).
    case_match; simpl; (split; [eapply smgr_inv_set; eauto using lose_ok, renewed_ok|]);
      apply (set_session_evolves m s); try done; by split.
  - unfold close_session. destruct (rbind (get_by_id m id) _) as [s|e] eqn:Hs;
      [|eauto using evolves_refl].
    ok_inv Hs. subst s. apply get_by_id_ok in Ha.
    pose proof (si_ok _ Hi _ _ Ha) as Hok.
    case_bool_decide as Hst; simpl; [|eauto using evolves_refl].
    split; [eapply smgr_inv_set; [done|by apply with_state_ok]|].
    apply (set_session_evolves m a); [done|by rewrite (so_id _ _ Hok)|]. by split.
  - split; [by apply smgr_inv_expire|]. intros i x Hx. rewrite dget_expired, Hx. simpl.
    eexists. split; [done|]. destruct (overdue mono x) eqn:Ho; [|apply evolves_refl].
    apply overdue_spec in Ho as [Ho _]. by split.
Qed.

Lemma sstep_reach m m' :
  smgr_inv m -> rtc sstep m m' ->
  smgr_inv m' /\ forall i x, dget m i = Some x -> exists x', dget m' i = Some x' /\ evolves x x'.
Proof.
  intros Hi Hr. induction Hr as [m|m m1 m2 Hs _ IH]; [eauto using evolves_refl|].
  destruct (sstep_effect _ _ Hi Hs) as [Hi1 He1]. destruct (IH Hi1) as [Hi2 He2].
  split; [done|]. intros i x Hx. destruct (He1 i x Hx) as (x1 & Hx1 & H1).
  destruct (He2 i x1 Hx1) as (x2 & Hx2 & H2). eauto using evolves_trans.
Qed.

Lemma smgr_inv_nil : smgr_inv [].
Proof. constructor; [constructor|done]. Qed.

(** ** Theorems *)

(** [require_action] succeeds exactly for a session that is ACTIVE, owned
    by the authenticated peer, not overdue, of the action's actor, and whose
    scopes hold the action's body and capability; success changes nothing, and
    a refusal changes nothing but marking an overdue session LOST. *)
Theorem require_action_sound mono m a peer m' r :
  require_action mono m a peer = (m', r) ->
  (forall s, r = Ok s <-> dget m (session_id a) = Some s /\ uid peer = ss_peer_uid s /\
     ss_state s = ACTIVE /\ mono < ss_expires_monotonic s /\ ss_actor_id s = actor_id a /\
     body_id a ∈ ss_body_scope s /\ capability_id a ∈ ss_capability_scope s) /\
  (m' = m \/ r = Err "SESSION_EXPIRED" /\ exists s, dget m (session_id a) = Some s /\
     overdue mono s = true /\ m' = set_session m (lose s)).
Proof.
  unfold require_action. destruct (dget m (session_id a)) as [s|] eqn:Hs;
    [|intros [= <- <-]; split; [naive_solver|by left]].
  match goal with |- live_session _ _ _ _ (_, ?k) = _ -> _ => set (chk := k) end.
  assert (Hchk : forall t, chk = Ok t <-> t = s /\ ss_actor_id s = actor_id a /\
            body_id a ∈ ss_body_scope s /\ capability_id a ∈ ss_capability_scope s).
  { intros t. unfold chk. split.
    - intros Hc. ok_inv Hc. apply String.eqb_eq in Ha. breflect. by subst.
    - intros (-> & -> & Hb & Hc). rewrite String.eqb_refl, !bool_decide_eq_true_2 by done. done. }
  destruct (live_session_cases mono m s peer (m, chk))
    as [[Hu E]|[[Ha E]|[(Hu & Ha & Hm & E)|(Hu & Ha & Hm & E)]]]; rewrite E; intros [= <- <-].
  - split; [|by left]. intros t. split; [done|]. by intros ([= <-] & Hu' & _).
  - split; [|by left]. intros t. split; [done|]. by intros ([= <-] & _ & Ha' & _).
  - split; [|right; split; [done|]; exists s; rewrite overdue_spec; auto].
    intros t. split; [done|]. intros ([= <-] & _ & _ & Hlt & _). lia.
  - split; [|by left]. intros t. rewrite Hchk. naive_solver.
Qed.

(** Whatever calls follow, a session is never forgotten, never changes
    its owner, actor, scopes or lease length, and once LOST or CLOSED it stays
    exactly as it is: it cannot be revived by a heartbeat or recreated. *)
Theorem session_terminal_stable m m' id s :
  rtc sstep [] m -> rtc sstep m m' -> dget m id = Some s ->
  exists s', dget m' id = Some s' /\ identity s' = identity s /\ session_ok id s' /\
    (ss_state s <> ACTIVE -> s' = s).
Proof.
  intros Hr Hr' Hs. apply sstep_reach in Hr as [Hi _]; [|apply smgr_inv_nil].
  destruct (sstep_reach _ _ Hi Hr') as [Hi' He].
  destruct (He _ _ Hs) as (s' & Hs' & Hid & Hst). exists s'.
  do 2 (split; [done|]). split; [by apply (si_ok _ Hi')|done].
Qed.

(** [expire_sessions] loses exactly the ACTIVE sessions whose lease has
    run out, reports each of them once, leaves all others alone, and afterwards
    no ACTIVE session is overdue. *)
Theorem expire_sessions_exact mono m :
  smgr_inv m ->
  let '(m', lost) := expire_sessions mono m in
  (forall id, dget m' id =
     (fun s => if overdue mono s then lose s else s) <$> dget m id) /\
  (forall x, x ∈ lost <-> exists id s, dget m id = Some s /\ overdue mono s = true /\ x = lose s) /\
  (forall id s, dget m' id = Some s -> ss_state s = ACTIVE -> mono < ss_expires_monotonic s) /\
  (expire_sessions mono m').2 = [].
Proof.
  intros Hi. destruct (expire_sessions mono m) as [m' lost] eqn:E.
  pose proof (dget_expired mono m) as Hd. rewrite E in Hd. simpl in Hd.
  assert (Hact : forall id s, dget m' id = Some s -> ss_state s = ACTIVE ->
                              mono < ss_expires_monotonic s).
  { intros id s. rewrite Hd. destruct (dget m id) as [x|]; simpl; [|done].
    intros [= <-]. destruct (overdue mono x) eqn:Ho; [done|].
    intros Ha. destruct (Z.leb_spec (ss_expires_monotonic x) mono) as [Hle|]; [|done].
    by rewrite (proj2 (overdue_spec mono x)) in Ho. }
  split; [done|]. split; [|split; [done|]].
  - assert (lost = (expire_sessions mono m).2) as -> by (by rewrite E).
    intros x. simpl. change (map lose ?l) with (lose <$> l). rewrite list_elem_of_fmap.
    setoid_rewrite list_elem_of_filter. unfold dvals. setoid_rewrite list_elem_of_fmap. split.
    + intros (s & -> & Ho & ([k s'] & -> & Hin)). exists k, s'.
      split; [|done]. by apply dget_Some; [apply Hi|].
    + intros (id & s & Hs & Ho & ->). exists s. split; [done|]. split; [done|].
      exists (id, s). split; [done|]. by apply dget_in.
  - assert (Hi' : smgr_inv m') by (pose proof (smgr_inv_expire mono m Hi); by rewrite E in *).
    simpl. destruct (base.filter _ _) as [|s l] eqn:Hf; [done|]. exfalso.
    assert (Hin : s ∈ base.filter (fun s => overdue mono s = true) (dvals m'))
      by (rewrite Hf; left).
    apply list_elem_of_filter in Hin as [Ho Hin]. apply list_elem_of_fmap in Hin as ([k x] & -> & Hin).
    apply overdue_spec in Ho as [Ha Hm]. simpl in *.
    assert (mono < ss_expires_monotonic x); [|lia].
    eapply (Hact k); [by apply dget_Some; [apply Hi'|]|done].
Qed.

(** A session lost inside [require_action] or [heartbeat] is never
    reported: once such a call answered SESSION_EXPIRED, the session is LOST
    and no later [expire_sessions] lists it, so a caller that relies on that
    list alone never handles its loss. *)
Theorem silent_expiry mono m a peer m1 m2 mono' :
  smgr_inv m -> require_action mono m a peer = (m1, Err "SESSION_EXPIRED") -> rtc sstep m1 m2 ->
  exists s, dget m2 (session_id a) = Some s /\ ss_state s = LOST /\
    (forall x, x ∈ (expire_sessions mono' m2).2 -> ss_session_id x <> session_id a).
Proof.
  intros Hi Hr Hr'. unfold require_action in Hr.
  destruct (dget m (session_id a)) as [s|] eqn:Hs; [|done].
  pose proof (si_ok _ Hi _ _ Hs) as Hok.
  match type of Hr with live_session _ _ _ _ ?k = _ => destruct (live_session_cases mono m s peer k)
    as [[_ E]|[[_ E]|[(_ & Ha & Hm & E)|(_ & _ & _ & E)]]] end; rewrite E in Hr; try done.
  2: { injection Hr as _ Hr. unfold require in Hr. repeat (case_match; simpl in Hr; try done). }
  injection Hr as <-.
  assert (Hi1 : smgr_inv (set_session m (lose s))) by (eapply smgr_inv_set; eauto using lose_ok).
  destruct (sstep_reach _ _ Hi1 Hr') as [Hi2 He].
  destruct (He (session_id a) (lose s)) as (s' & Hs' & _ & Heq).
  { rewrite (dget_set_session _ _ _ _ (so_id _ _ (lose_ok _ _ Hok))). by rewrite decide_True. }
  rewrite Heq in Hs' by done. exists (lose s). split; [done|]. split; [done|].
  intros x Hx Hid. simpl in Hx. apply list_elem_of_fmap in Hx as (y & -> & [Ho Hin]%list_elem_of_filter).
  apply list_elem_of_fmap in Hin as ([k z] & -> & Hin). simpl in *.
  apply (dget_Some _ _ _ (si_wf _ Hi2)) in Hin.
  assert (k = session_id a) as -> by (rewrite <- Hid; symmetry; apply (si_ok _ Hi2 _ _ Hin)).
  rewrite Hs' in Hin. injection Hin as <-. by apply overdue_spec in Ho as [Ho _].
Qed.

(** ** A concrete session *)

Definition demo_sessions : SessionManager :=
  (create_session demo_now 0 [] "session_1" "agent-1" "openclaw" ["arm-1"] ["arm.move"] 10000
     demo_peer).1.
Definition demo_session : AgentSession :=
  match dget demo_sessions "session_1" with Some s => s | None =>
    {| ss_session_id := ""; ss_actor_id := ""; ss_agent_framework := ""; ss_peer_uid := 0;
       ss_body_scope := []; ss_capability_scope := []; ss_ttl_ms := 0; ss_created_at := demo_now;
       ss_last_heartbeat := demo_now; ss_expires_at := demo_now; ss_expires_monotonic := 0;
       ss_state := CLOSED; ss_loss_reason := None |} end.

Lemma demo_sessions_reach : rtc sstep [] demo_sessions.
Proof. eapply rtc_l; [apply s_create|]. apply rtc_refl. Qed.

Lemma require_action_sound_witness :
  dget demo_sessions "session_1" = Some demo_session /\ 5 < ss_expires_monotonic demo_session.
Proof.
  destruct (require_action_sound 5 demo_sessions demo_action demo_peer demo_sessions
              (Ok demo_session)) as [Hok _].
  - vm_compute. reflexivity.
  - destruct (proj1 (Hok demo_session) eq_refl) as (H1 & _ & _ & H2 & _). split; assumption.
Defined.

Lemma session_terminal_stable_witness :
  exists s', dget (expire_sessions 20000000 demo_sessions).1 "session_1" = Some s' /\
    identity s' = identity demo_session.
Proof.
  destruct (session_terminal_stable demo_sessions (expire_sessions 20000000 demo_sessions).1
              "session_1" demo_session) as (s' & H1 & H2 & _).
  - exact demo_sessions_reach.
  - eapply rtc_l; [apply s_expire|]. apply rtc_refl.
  - vm_compute. reflexivity.
  - exists s'. split; assumption.
Defined.

Lemma expire_sessions_exact_witness :
  (expire_sessions 20000000 (expire_sessions 20000000 demo_sessions).1).2 = [].
Proof.
  apply (expire_sessions_exact 20000000 demo_sessions).
  exact (proj1 (sstep_reach _ _ smgr_inv_nil demo_sessions_reach)).
Defined.

Lemma silent_expiry_witness :
  exists s, dget (require_action 20000000 demo_sessions demo_action demo_peer).1 "session_1" = Some s
    /\ ss_state s = LOST.
Proof.
  destruct (silent_expiry 20000000 demo_sessions demo_action demo_peer
              (require_action 20000000 demo_sessions demo_action demo_peer).1
              (require_action 20000000 demo_sessions demo_action demo_peer).1 0)
    as (s & H1 & H2 & _).
  - exact (proj1 (sstep_reach _ _ smgr_inv_nil demo_sessions_reach)).
  - vm_compute. reflexivity.
  - apply rtc_refl.
  - exists s. split; assumption.
Defined.
