(* ===== verification/Jobs.v ===== *)
(** Action jobs: the queue entries of src/src/rosclaw/daemon/service.py and their
    durable form.

    [ActionJob] is [_ActionJob]. The events the daemon appends for a job are
    [submitted_entry], [started_entry] and [terminal_entry];
    [decode_persisted_job] reads them back after a restart and
    [validate_persisted_receipt] re-checks the stored receipt. Restored jobs
    are proved equal to the ones that were persisted, and a receipt validates
    exactly when its final state is one the daemon accepts. *)

From S2P Require Export Sessions.
From S2P Require Import Gateway.

(** ** Jobs *)

Inductive JobState := J_QUEUED | J_RUNNING | J_FINISHED | J_CANCELLED.

Definition JobState_value (s : JobState) : string :=
  match s with
  | J_QUEUED => "QUEUED" | J_RUNNING => "RUNNING"
  | J_FINISHED => "FINISHED" | J_CANCELLED => "CANCELLED"
  end.

#[export] Instance JobState_eq_dec : EqDecision JobState.
Proof. solve_decision. Defined.

(** [state in {"QUEUED", "RUNNING"}] and [state in {"FINISHED", "CANCELLED"}]. *)
Definition active_state (s : JobState) : bool :=
  match s with J_QUEUED | J_RUNNING => true | _ => false end.

(** [terminal_override]: the state, code and message forced on the job. *)
Record override := { ov_state : ActionState; ov_code : string; ov_message : string }.

(** [_ActionJob]; the future is kept by ControlPlane.v. *)
Record ActionJob := {
  j_action : ActionEnvelope;
  j_peer : PeerCredentials;
  j_state : JobState;
  j_submitted_at : datetime;
  j_started_at : option datetime;
  j_finished_at : option datetime;
  j_receipt : option (dict json);
  j_lease_expires_at : option datetime;
  j_lease_expires_monotonic : Z;
  j_last_lease_renewed_at : option datetime;
  j_session_lost : bool;
  j_terminal_override : option override;
  j_stop_requested : bool;
  j_stop_receipt : option (dict json);
  j_stop_completed : bool;
}.

(** The ["action_lease"] entry of [to_dict]. *)
Definition job_lease (j : ActionJob) : dict json :=
  [("ttl_ms", JInt (lease_ttl_ms (j_action j)));
   ("renew_interval_ms", JInt (renew_interval_ms (j_action j)));
   ("last_renewed_at", iso_opt (j_last_lease_renewed_at j));
   ("expires_at", iso_opt (j_lease_expires_at j));
   ("active", JBool (active_state (j_state j)
                     && bool_decide (j_terminal_override j = None)))].

(** [_ActionJob.to_dict] *)
Definition first_error (receipt : dict json) : json :=
  match dget receipt "errors" with Some (JList (e :: _)) => e | _ => JObj [] end.

Definition ActionJob_to_dict (j : ActionJob) : dict json :=
  let receipt := default [] (j_receipt j) in
  [("action_id", JStr (action_id (j_action j)));
   ("state", JStr (JobState_value (j_state j)));
   ("scheduler_state", JStr (JobState_value (j_state j)));
   ("final_state", get_default receipt "final_state" JNull);
   ("error_code", match first_error receipt with
                  | JObj e => get_default e "code" JNull | _ => JNull end);
   ("execution_mode", JStr (se_value (execution_mode (j_action j))));
   ("body_id", JStr (body_id (j_action j)));
   ("capability_id", JStr (capability_id (j_action j)));
   ("submitted_at", JStr (iso (j_submitted_at j)));
   ("started_at", iso_opt (j_started_at j));
   ("finished_at", iso_opt (j_finished_at j));
   ("session_id", JStr (session_id (j_action j)));
   ("orphan_policy", JStr (se_value (orphan_policy (j_action j))));
   ("action_lease", JObj (job_lease j));
   ("receipt", opt_dict_json (j_receipt j))].

(** A job as [request_action] and the decoder construct it. *)
Definition ActionJob_new (a : ActionEnvelope) (peer : PeerCredentials)
    (submitted renewed expires : datetime) (mono : Z) : ActionJob :=
  {| j_action := a; j_peer := peer; j_state := J_QUEUED; j_submitted_at := submitted;
     j_started_at := None; j_finished_at := None; j_receipt := None;
     j_lease_expires_at := Some expires; j_lease_expires_monotonic := mono;
     j_last_lease_renewed_at := Some renewed; j_session_lost := false;
     j_terminal_override := None; j_stop_requested := false; j_stop_receipt := None;
     j_stop_completed := false |}.

Definition start_job (at_ : datetime) (j : ActionJob) : ActionJob :=
  {| j_action := j_action j; j_peer := j_peer j; j_state := J_RUNNING;
     j_submitted_at := j_submitted_at j; j_started_at := Some at_;
     j_finished_at := j_finished_at j; j_receipt := j_receipt j;
     j_lease_expires_at := j_lease_expires_at j;
     j_lease_expires_monotonic := j_lease_expires_monotonic j;
     j_last_lease_renewed_at := j_last_lease_renewed_at j; j_session_lost := j_session_lost j;
     j_terminal_override := j_terminal_override j; j_stop_requested := j_stop_requested j;
     j_stop_receipt := j_stop_receipt j; j_stop_completed := j_stop_completed j |}.

Definition finish_job (st : JobState) (at_ : datetime) (receipt : dict json) (j : ActionJob)
  : ActionJob :=
  {| j_action := j_action j; j_peer := j_peer j; j_state := st;
     j_submitted_at := j_submitted_at j; j_started_at := j_started_at j;
     j_finished_at := Some at_; j_receipt := Some receipt;
     j_lease_expires_at := j_lease_expires_at j;
     j_lease_expires_monotonic := j_lease_expires_monotonic j;
     j_last_lease_renewed_at := j_last_lease_renewed_at j; j_session_lost := j_session_lost j;
     j_terminal_override := j_terminal_override j; j_stop_requested := j_stop_requested j;
     j_stop_receipt := j_stop_receipt j; j_stop_completed := j_stop_completed j |}.

(** ** Persistence *)

Definition PeerCredentials_to_dict (p : PeerCredentials) : dict json :=
  [("pid", JInt (pid p)); ("uid", JInt (uid p)); ("gid", JInt (gid p))].

Definition action_entry (ty id : string) (d : dict json) : entry :=
  {| en_type := ty; en_kind := "ACTION"; en_id := id; en_payload := d |}.

Definition submitted_entry (j : ActionJob) : entry :=
  action_entry "ACTION_SUBMITTED" (action_id (j_action j))
    [("action", ActionEnvelope_to_dict (j_action j));
     ("peer", JObj (PeerCredentials_to_dict (j_peer j)));
     ("submitted_at", JStr (iso (j_submitted_at j)));
     ("action_lease", JObj (job_lease j))].

Definition started_entry (j : ActionJob) : entry :=
  action_entry "ACTION_STARTED" (action_id (j_action j))
    [("started_at", iso_opt (j_started_at j))].

(** [_persist_terminal_job]'s event; [None] where it raises because the job has
    no receipt or no finishing time. *)
Definition terminal_entry (j : ActionJob) : option entry :=
  receipt ← j_receipt j; at_ ← j_finished_at j;
  Some (action_entry "ACTION_TERMINAL" (action_id (j_action j))
          [("scheduler_state", JStr (JobState_value (j_state j)));
           ("finished_at", JStr (iso at_));
           ("receipt", JObj receipt)]).

(** ** Restoring *)

(** [LedgerIntegrityError], or an exception the decoder does not translate. *)
Inductive restore_exn := Integrity | Uncaught (e : pyexc).

(** [except (KeyError, TypeError, ValueError) as exc: raise LedgerIntegrityError] *)
Definition as_integrity (e : pyexc) : restore_exn :=
  match e with KeyError | TypeError | ValueError => Integrity | _ => Uncaught e end.

Definition parse_persisted_time (j : option json) : result pyexc datetime :=
  let* s := of_option (j ← j; as_str j) ValueError in
  let* d := of_option (parse_aware s) ValueError in
  Ok (dt_utc d).

Definition persisted_int (j : option json) : result pyexc Z :=
  match j with
  | Some (JInt z) => guard! 0 <=? z else ValueError in Ok z
  | _ => Err ValueError
  end.

Definition persisted_string_list (j : option json) : result pyexc (list string) :=
  match j with
  | Some (JList ((_ :: _) as l)) =>
      let* ss := of_option (mapM as_str l) ValueError in
      guard! forallb truthy_str ss && bool_decide (ss = sorted_set ss) else ValueError in Ok ss
  | _ => Err ValueError
  end.

Definition persisted_peer (raw : dict json) : result pyexc PeerCredentials :=
  let* p := persisted_int (dget raw "pid") in
  let* u := persisted_int (dget raw "uid") in
  let* g := persisted_int (dget raw "gid") in
  Ok {| pid := p; uid := u; gid := g |}.

(** [last_renewed_at] and [lease_expires_at] of a submission. *)
Definition persisted_lease (a : ActionEnvelope) (submitted : datetime) (raw : option json)
  : result pyexc (datetime * datetime) :=
  match raw with
  | None | Some JNull => Ok (submitted, dt_add submitted (lease_ttl_ms a * 1000))
  | Some (JObj l) =>
      let* renewed := parse_persisted_time (dget l "last_renewed_at") in
      let* expires := parse_persisted_time (dget l "expires_at") in
      guard! py_eqb (get_default l "ttl_ms" JNull) (JInt (lease_ttl_ms a))
             && py_eqb (get_default l "renew_interval_ms" JNull) (JInt (renew_interval_ms a))
             && dt_lt renewed expires else ValueError in
      Ok (renewed, expires)
  | Some _ => Err ValueError
  end.

Definition decode_submission (now : datetime) (uuid : string) (e : entry)
  : result restore_exn ActionJob :=
  let d := en_payload e in
  let* raw_action := of_option (j ← dget d "action"; as_obj j) Integrity in
  let* raw_peer := of_option (j ← dget d "peer"; as_obj j) Integrity in
  let* job := map_err as_integrity
    (let* a := ActionEnvelope_from_dict now uuid (JObj raw_action) in
     let* peer := persisted_peer raw_peer in
     let* submitted := parse_persisted_time (dget d "submitted_at") in
     let* lease := persisted_lease a submitted (dget d "action_lease") in
     Ok (ActionJob_new a peer submitted lease.1 lease.2 0)) in
  guard! String.eqb (action_id (j_action job)) (en_id e) else Integrity in
  Ok job.

Definition accepted_final_state (s : ActionState) : bool :=
  match s with
  | COMPLETED | BLOCKED | FAILED | CANCELLED | TIMED_OUT | DEGRADED => true | _ => false
  end.

(** [trust_level] recomputed from the action's mode. *)
Definition expected_trust (m : ExecutionMode) (v : bool) : string :=
  match m with
  | FIXTURE => "SYNTHETIC" | REPLAY => "RECORDED" | SIMULATION => "SIMULATED"
  | _ => if v then "VERIFIED" else "UNVERIFIED"
  end.

(** [d.get(k) is b] *)
Definition bool_at (d : dict json) (k : string) (b : bool) : bool :=
  match dget d k with Some (JBool c) => Bool.eqb c b | _ => false end.

Definition enum_at {T} `{StrEnum T} (d : dict json) (k : string) : result pyexc T :=
  of_option (j ← dget d k; s ← as_str j; se_parse s) ValueError.

Definition validate_persisted_receipt (a : ActionEnvelope) (receipt : dict json) (st : JobState)
  : result restore_exn unit :=
  guard! str_at receipt "schema_version" RECEIPT_SCHEMA_VERSION
         && str_at receipt "action_id" (action_id a)
         && str_at receipt "mode" (se_value (execution_mode a))
         && str_at receipt "execution_mode" (se_value (execution_mode a))
         && str_at receipt "body_id" (body_id a)
         && str_at receipt "body_snapshot_hash" (body_snapshot_hash a)
         && str_at receipt "capability_id" (capability_id a) else Integrity in
  let* t := map_err as_integrity
    (let* final := enum_at (T := ActionState) receipt "final_state" in
     let* level := enum_at (T := EvidenceLevel) receipt "evidence_level" in
     let* started := parse_persisted_time (dget receipt "started_at") in
     let* finished := parse_persisted_time (dget receipt "finished_at") in
     Ok (final, level, started, finished)) in
  let '(final, level, started, finished) := t in
  guard! accepted_final_state final else Integrity in
  guard! negb (bool_decide (st = J_CANCELLED) && negb (bool_decide (final = CANCELLED)))
    else Integrity in
  guard! negb (dt_lt finished started) else Integrity in
  guard! is_obj (get_default receipt "dispatch_result" JNull)
         && is_list (get_default receipt "errors" JNull) else Integrity in
  let v := negb (bool_decide (execution_mode a = FIXTURE)) && strong_evidence level in
  require (bool_at receipt "verified" v
           && str_at receipt "trust_level" (expected_trust (execution_mode a) v)
           && bool_at receipt "usable_for_real_execution"
                (bool_decide (execution_mode a = REAL) && bool_decide (final = COMPLETED) && v))
    Integrity.

(** [scheduler_state in {"FINISHED", "CANCELLED"}]; a list or an object is not
    hashable. *)
Definition scheduler_state_of (j : option json) : result restore_exn JobState :=
  match j with
  | Some (JStr s) =>
      if String.eqb s "FINISHED" then Ok J_FINISHED
      else if String.eqb s "CANCELLED" then Ok J_CANCELLED else Err Integrity
  | Some (JList _) | Some (JObj _) => Err (Uncaught TypeError)
  | _ => Err Integrity
  end.

(** One iteration of [_decode_persisted_job]. *)
Definition decode_step (now : datetime) (uuid entity_id : string) (job : option ActionJob)
    (e : entry) : result restore_exn (option ActionJob) :=
  let d := en_payload e in
  guard! String.eqb (en_id e) entity_id else Integrity in
  if String.eqb (en_type e) "ACTION_SUBMITTED" then
    guard! match job with None => true | Some _ => false end else Integrity in
    let* j := decode_submission now uuid e in Ok (Some j)
  else match job with
  | None => Err Integrity
  | Some j =>
      if String.eqb (en_type e) "ACTION_STARTED" then
        guard! bool_decide (j_state j = J_QUEUED) else Integrity in
        let* at_ := map_err Uncaught (parse_persisted_time (dget d "started_at")) in
        Ok (Some (start_job at_ j))
      else if String.eqb (en_type e) "ACTION_TERMINAL" then
        guard! active_state (j_state j) else Integrity in
        let* st := scheduler_state_of (dget d "scheduler_state") in
        let* receipt := of_option (r ← dget d "receipt"; as_obj r) Integrity in
        let* _ := validate_persisted_receipt (j_action j) receipt st in
        let* at_ := map_err Uncaught (parse_persisted_time (dget d "finished_at")) in
        Ok (Some (finish_job st at_ receipt j))
      else Err Integrity
  end.

(** [_decode_persisted_job]; Python reads [events[0]] of an empty list. *)
Definition decode_persisted_job (now : datetime) (uuid : string) (es : list entry)
  : result restore_exn ActionJob :=
  match es with
  | [] => Err (Uncaught Unmodelled)
  | e :: _ =>
      let* job := foldr_result (decode_step now uuid (en_id e)) es None in
      of_option job Integrity
  end.

(** [grouped] of [_restore_jobs_from_ledger]: events by entity, in order of
    first appearance. *)
Definition group_events (es : list entry) : dict (list entry) :=
  fold_left (fun g e => dset g (en_id e) ((default [] (dget g (en_id e)) ++ [e])%list)) es [].

Definition restore_jobs (now : datetime) (uuid : string) (es : list entry)
  : result restore_exn (dict ActionJob) :=
  foldr_result (fun jobs g => let* j := decode_persisted_job now uuid g.2 in
                              Ok (dset jobs g.1 j)) (group_events es) [].

(** ** An action as it is read back *)

Definition canon_authorization (z : AuthorizationContext) : AuthorizationContext :=
  {| principal_id := principal_id z; approved := approved z; approval_id := approval_id z;
     scopes := scopes z; provenance := canon_dict (provenance z) |}.

(** The keys of every object inside the action are sorted. *)
Definition canon_action (a : ActionEnvelope) : ActionEnvelope :=
  {| actor_id := actor_id a; agent_framework := agent_framework a; session_id := session_id a;
     body_id := body_id a; capability_id := capability_id a;
     arguments := canon_dict (arguments a);
     execution_mode := execution_mode a; schema_version := schema_version a;
     action_id := action_id a; body_snapshot_hash := body_snapshot_hash a;
     authorization := canon_authorization (authorization a); risk_class := risk_class a;
     deadline_at := deadline_at a; lease_ttl_ms := lease_ttl_ms a;
     renew_interval_ms := renew_interval_ms a; orphan_policy := orphan_policy a;
     stop_capability := stop_capability a; parent_trace_id := parent_trace_id a;
     expected_effect := canon (expected_effect a);
     verification_policy := verification_policy a |}.

(** Canonical form changes lookups only by [canon]. *)
Lemma dict_or_empty_canon d : dict_or_empty (JObj (canon_dict d)) = Ok (canon_dict d).
Proof. unfold dict_or_empty. simpl. by destruct (canon_dict d). Qed.

Lemma canon_str_list l : canon (JList (map JStr l)) = JList (map JStr l).
Proof. simpl. by rewrite canon_strings. Qed.

Ltac canon_eval :=
  rewrite ?dget_canon_dict, ?dget_lit_eq;
  cbn [dget_lit String.eqb Ascii.eqb Bool.eqb fmap option_fmap option_map].

Lemma AuthorizationContext_canon z :
  AuthorizationContext_from_dict (canon (AuthorizationContext_to_dict z))
  = Ok (canon_authorization z).
Proof.
  unfold AuthorizationContext_to_dict. rewrite canon_JObj.
  unfold AuthorizationContext_from_dict. rewrite dict_or_empty_canon. cbn [rbind].
  unfold get_default. destruct z as [pid ap aid sc pv]. canon_eval.
  destruct pv as [|kv pv]; cbn [app principal_id approved approval_id scopes provenance];
    canon_eval; cbn [canon py_str rbind]; rewrite canon_strings;
    (replace (canon (opt_text_json aid)) with (opt_text_json aid) by (by destruct aid));
    rewrite opt_text_json_id; cbn [rbind py_iter]; rewrite py_str_list; done.
Qed.

Lemma VerificationPolicy_canon p :
  policy_ok p -> VerificationPolicy_from_dict (canon (VerificationPolicy_to_dict p)) = Ok p.
Proof.
  intros Hp. rewrite <- (VerificationPolicy_round_trip p Hp).
  unfold VerificationPolicy_to_dict. rewrite canon_JObj. unfold VerificationPolicy_from_dict.
  rewrite dict_or_empty_canon. unfold get_default. cbn [rbind dict_or_empty truthy].
  by canon_eval.
Qed.

(** What the daemon's decoder needs of an action to read it back. *)
Record storable (a : ActionEnvelope) : Prop := {
  sa_ok : envelope_ok a;
  sa_policy : policy_ok (verification_policy a);
  sa_deadline : forall d, deadline_at a = Some d -> dt_wf d;
}.

Lemma canon_action_ok a : envelope_ok a -> envelope_ok (canon_action a).
Proof. intros [? ? ? ? ? ?]. by constructor. Qed.

Lemma canon_JStr s : canon (JStr s) = JStr s.
Proof. done. Qed.

Lemma as_obj_canon j d : as_obj j = Some d -> as_obj (canon j) = Some (canon_dict d).
Proof. destruct j; try done. by intros [= <-]. Qed.

(** Reading back a persisted action. *)
Lemma action_from_stored now uuid a :
  storable a ->
  exists d, as_obj (canon (ActionEnvelope_to_dict a)) = Some d /\
    ActionEnvelope_from_dict now uuid (JObj d) = Ok (canon_action a).
Proof.
  intros [Hok Hp Hd]. unfold ActionEnvelope_to_dict. rewrite canon_JObj. eexists. split; [done|].
  destruct (ok_deadline _ Hok) as [dl Hdl]. specialize (Hd _ Hdl).
  unfold ActionEnvelope_from_dict. cbn [as_obj of_option rbind]. unfold get_default. canon_eval.
  rewrite Hdl. unfold iso_opt at 1. cbn [canon py_str rbind].
  assert (Haid : truthy (JStr (action_id a)) = true).
  { destruct Hok as [Hids _ _ _ _ _]. simpl in Hids. breflect.
    simpl. apply truthy_str_true. intros He. rewrite He in *. done. }
  rewrite Haid. cbn [rbind py_dict]. rewrite se_upper_mode, se_parse_value.
  cbn [of_option rbind py_dict]. rewrite AuthorizationContext_canon. cbn [rbind].
  pose proof (parse_datetime_iso dl Hd) as Hpd. unfold iso_opt in Hpd. rewrite Hpd.
  cbn [rbind]. rewrite se_upper_orphan, se_parse_value. cbn [of_option rbind].
  replace (canon (opt_text_json (parent_trace_id a))) with (opt_text_json (parent_trace_id a))
    by (by destruct (parent_trace_id a)).
  rewrite opt_text_json_id. cbn [rbind]. rewrite VerificationPolicy_canon by done. cbn [rbind].
  etrans; [|exact (post_init_id now (canon_action a) (canon_action_ok a Hok))].
  unfold canon_action. rewrite Hdl. done.
Qed.

(** ** Overriding a receipt *)

Definition dict_update (d e : dict json) : dict json :=
  fold_left (fun d kv => dset d kv.1 kv.2) e d.

Definition safety_stop_of (j : ActionJob) : json :=
  match j_stop_receipt j with
  | Some ((_ :: _) as d) => JObj d
  | _ => JObj [("final_status", JStr "UNKNOWN");
               ("error", JStr "safety-stop request did not complete before receipt finalization")]
  end.

(** [_apply_terminal_override]; [t1] and [t2] are its two clock readings, [Err]
    is [list] applied to something that cannot be iterated. *)
Definition apply_terminal_override (t1 t2 : datetime) (ov : override) (j : ActionJob)
    (receipt : dict json) : result pyexc (dict json) :=
  let* errors := py_iter (get_default receipt "errors" (JList [])) in
  let* transitions := py_iter (get_default receipt "transitions" (JList [])) in
  Ok (dict_update receipt
    [("final_state", JStr (se_value (ov_state ov)));
     ("errors", JList (errors ++ [JObj (error_entry (ov_code ov) (ov_message ov))])%list);
     ("transitions", JList (transitions ++
        [JObj [("state", JStr (se_value (ov_state ov))); ("at", JStr (iso t1));
               ("reason", JStr (ov_code ov))]])%list);
     ("finished_at", JStr (iso t2));
     ("usable_for_real_execution", JBool false);
     ("safety_stop", safety_stop_of j)]).

Lemma dget_update d e k :
  dwf e -> dget (dict_update d e) k = match dget e k with Some v => Some v | None => dget d k end.
Proof.
  unfold dict_update, dwf, dkeys. revert d.
  induction e as [|[k' v] e IH]; intros d Hn; simpl; [done|].
  apply NoDup_cons in Hn as [Hni Hn]. rewrite IH by done. simpl. rewrite dget_dset.
  destruct (decide (k' = k)) as [->|]; [|done].
  destruct (dget e k) eqn:E; [|done]. destruct Hni. apply dkeys_dget. by eexists.
Qed.

(** ** Which receipts survive a restart *)

(** [d] is the dictionary of a receipt of action [a]: what it says of the
    action, its state, evidence and times, and trust fields that follow. *)
Record receipt_about (a : ActionEnvelope) (d : dict json) (final : ActionState)
    (level : EvidenceLevel) (started finished : datetime) : Prop := {
  ra_schema : dget d "schema_version" = Some (JStr RECEIPT_SCHEMA_VERSION);
  ra_id : dget d "action_id" = Some (JStr (action_id a));
  ra_mode : dget d "mode" = Some (JStr (se_value (execution_mode a)));
  ra_mode' : dget d "execution_mode" = Some (JStr (se_value (execution_mode a)));
  ra_body : dget d "body_id" = Some (JStr (body_id a));
  ra_hash : dget d "body_snapshot_hash" = Some (JStr (body_snapshot_hash a));
  ra_cap : dget d "capability_id" = Some (JStr (capability_id a));
  ra_final : dget d "final_state" = Some (JStr (se_value final));
  ra_level : dget d "evidence_level" = Some (JStr (se_value level));
  ra_started : dget d "started_at" = Some (JStr (iso started));
  ra_finished : dget d "finished_at" = Some (JStr (iso finished));
  ra_dispatch : exists o, dget d "dispatch_result" = Some (JObj o);
  ra_errors : exists l, dget d "errors" = Some (JList l);
  ra_transitions : exists l, dget d "transitions" = Some (JList l);
  ra_verified : dget d "verified" =
    Some (JBool (negb (bool_decide (execution_mode a = FIXTURE)) && strong_evidence level));
  ra_trust : dget d "trust_level" = Some (JStr (expected_trust (execution_mode a)
    (negb (bool_decide (execution_mode a = FIXTURE)) && strong_evidence level)));
  ra_usable : dget d "usable_for_real_execution" =
    Some (JBool (bool_decide (execution_mode a = REAL) && bool_decide (final = COMPLETED)
                 && (negb (bool_decide (execution_mode a = FIXTURE)) && strong_evidence level)));
}.

(** A receipt of the gateway. *)
Record receipt_for (a : ActionEnvelope) (r : ExecutionReceipt) : Prop := {
  rf_schema : r_schema_version r = RECEIPT_SCHEMA_VERSION;
  rf_id : r_action_id r = action_id a;
  rf_mode : r_mode r = execution_mode a;
  rf_body : r_body_id r = body_id a;
  rf_hash : r_body_snapshot_hash r = body_snapshot_hash a;
  rf_cap : r_capability_id r = capability_id a;
}.

Definition receipt_dict (r : ExecutionReceipt) : dict json :=
  default [] (as_obj (ExecutionReceipt_to_dict r)).

Lemma verified_eq r :
  verified r = negb (bool_decide (r_mode r = FIXTURE)) && strong_evidence (r_evidence_level r).
Proof. unfold verified. by case_bool_decide. Qed.

Lemma receipt_for_about a r :
  receipt_for a r ->
  receipt_about a (receipt_dict r) (r_final_state r) (r_evidence_level r) (r_started_at r)
    (r_finished_at r).
Proof.
  intros [Hs Hi Hm Hb Hh Hc].
  constructor; unfold receipt_dict; cbn [as_obj ExecutionReceipt_to_dict default from_option id];
    rewrite dget_lit_eq; cbn [dget_lit String.eqb Ascii.eqb Bool.eqb]; try congruence; eauto.
  - by rewrite verified_eq, Hm.
  - unfold trust_level. rewrite verified_eq, Hm. by destruct (execution_mode a).
  - unfold usable_for_real_execution. by rewrite verified_eq, Hm.
Qed.

Lemma override_about t1 t2 ov j a d final level started finished d' :
  receipt_about a d final level started finished -> ov_state ov <> COMPLETED ->
  apply_terminal_override t1 t2 ov j d = Ok d' ->
  receipt_about a d' (ov_state ov) level started t2.
Proof.
  intros [Hs Hi Hm Hm' Hb Hh Hc Hf Hl Hst Hfi Hd [es He] [ts Ht] Hv Htr Hu] Hne Ho.
  unfold apply_terminal_override, get_default in Ho. rewrite He, Ht in Ho.
  cbn [py_iter rbind] in Ho.
  match type of Ho with Ok ?x = Ok _ => assert (Heq : x = d') by (by injection Ho) end.
  assert (Hk : forall k, dget d' k =
    match dget_lit [("final_state", JStr (se_value (ov_state ov)));
     ("errors", JList (es ++ [JObj (error_entry (ov_code ov) (ov_message ov))])%list);
     ("transitions", JList (ts ++
        [JObj [("state", JStr (se_value (ov_state ov))); ("at", JStr (iso t1));
               ("reason", JStr (ov_code ov))]])%list);
     ("finished_at", JStr (iso t2)); ("usable_for_real_execution", JBool false);
     ("safety_stop", safety_stop_of j)] k with Some v => Some v | None => dget d k end).
  { intros k. rewrite <- Heq, dget_update, dget_lit_eq; [done|].
    unfold dwf. cbn. apply (bool_decide_unpack _). by vm_compute. }
  constructor; try (rewrite Hk); try (setoid_rewrite Hk);
    cbn [dget_lit String.eqb Ascii.eqb Bool.eqb]; eauto.
  by rewrite (bool_decide_eq_false_2 (ov_state ov = COMPLETED)), andb_false_r by done.
Qed.

Lemma override_total t1 t2 ov j a d final level started finished :
  receipt_about a d final level started finished ->
  exists d', apply_terminal_override t1 t2 ov j d = Ok d'.
Proof.
  intros Ha. unfold apply_terminal_override, get_default.
  destruct (ra_errors _ _ _ _ _ _ Ha) as [es ->], (ra_transitions _ _ _ _ _ _ Ha) as [ts ->].
  cbn [py_iter rbind]. eauto.
Qed.

(** ** Reading a job back *)

Lemma str_at_canon d k s t :
  dget d k = Some (JStr t) -> str_at (canon_dict d) k s = String.eqb t s.
Proof. intros Hd. unfold str_at. by rewrite dget_canon_dict, Hd. Qed.

Lemma bool_at_canon d k b c : dget d k = Some (JBool c) -> bool_at (canon_dict d) k b = Bool.eqb c b.
Proof. intros Hd. unfold bool_at. by rewrite dget_canon_dict, Hd. Qed.

Lemma enum_at_canon {T} `{StrEnum T} d k (x : T) :
  dget d k = Some (JStr (se_value x)) -> enum_at (canon_dict d) k = Ok x.
Proof.
  intros Hd. unfold enum_at. rewrite dget_canon_dict, Hd. simpl. by rewrite se_parse_value.
Qed.

Lemma time_canon d k t :
  dt_wf t -> dget d k = Some (JStr (iso t)) ->
  parse_persisted_time (dget (canon_dict d) k) = Ok (dt_utc t).
Proof.
  intros Ht Hd. unfold parse_persisted_time. rewrite dget_canon_dict, Hd.
  cbn [fmap option_fmap option_map mbind option_bind canon as_str of_option rbind].
  by rewrite parse_aware_iso.
Qed.

(** What the final checks of [validate_persisted_receipt] decide on. *)
Definition restorable (final : ActionState) (st : JobState) (started finished : datetime) : bool :=
  accepted_final_state final
  && negb (bool_decide (st = J_CANCELLED) && negb (bool_decide (final = CANCELLED)))
  && negb (dt_lt finished started).

Lemma dt_lt_utc x y : dt_lt (dt_utc x) (dt_utc y) = dt_lt x y.
Proof. done. Qed.

Lemma validate_stored a d final level started finished st :
  receipt_about a d final level started finished -> dt_wf started -> dt_wf finished ->
  validate_persisted_receipt a (canon_dict d) st =
  if restorable final st started finished then Ok tt else Err Integrity.
Proof.
  intros [Hs Hi Hm Hm' Hb Hh Hc Hf Hl Hst Hfi [o Hd] [es He] _ Hv Htr Hu] Hw1 Hw2.
  unfold validate_persisted_receipt.
  rewrite !(str_at_canon _ _ _ _ Hs), !(str_at_canon _ _ _ _ Hi), !(str_at_canon _ _ _ _ Hm),
    !(str_at_canon _ _ _ _ Hm'), !(str_at_canon _ _ _ _ Hb), !(str_at_canon _ _ _ _ Hh),
    !(str_at_canon _ _ _ _ Hc), !String.eqb_refl. cbn [andb require rbind].
  rewrite (enum_at_canon _ _ _ Hf), (enum_at_canon _ _ _ Hl), (time_canon _ _ _ Hw1 Hst),
    (time_canon _ _ _ Hw2 Hfi). cbn [rbind map_err]. rewrite dt_lt_utc.
  unfold restorable. destruct (accepted_final_state final); cbn [andb require rbind]; [|done].
  destruct (negb (_ && _)); cbn [andb require rbind]; [|done].
  destruct (dt_lt finished started); cbn [negb require rbind]; [done|].
  unfold get_default. rewrite !dget_canon_dict, Hd, He. cbn [fmap option_fmap option_map].
  rewrite canon_JObj. cbn [canon is_obj is_list andb require rbind].
  rewrite (bool_at_canon _ _ _ _ Hv), (bool_at_canon _ _ _ _ Hu), (str_at_canon _ _ _ _ Htr).
  by rewrite !eqb_reflx, String.eqb_refl.
Qed.

(** The action matters only through the fields the receipt repeats. *)
Lemma validate_canon_action a d st :
  validate_persisted_receipt (canon_action a) d st = validate_persisted_receipt a d st.
Proof. done. Qed.

Definition peer_ok (p : PeerCredentials) : Prop := 0 <= pid p /\ 0 <= uid p /\ 0 <= gid p.

Lemma persisted_peer_canon p :
  peer_ok p -> persisted_peer (canon_dict (PeerCredentials_to_dict p)) = Ok p.
Proof.
  intros (Hp & Hu & Hg). unfold persisted_peer, PeerCredentials_to_dict. canon_eval.
  cbn [canon persisted_int]. unfold require.
  rewrite !(proj2 (Z.leb_le 0 _)) by done. by destruct p.
Qed.

Lemma float_eq_Z z : float_eq (float_of_Z z) (float_of_Z z) = true.
Proof. unfold float_eq, float_cmp, float_of_Z, dec_compare. by rewrite Z.compare_refl. Qed.

Lemma py_eqb_int z : py_eqb (JInt z) (JInt z) = true.
Proof. apply float_eq_Z. Qed.

(** A freshly submitted job whose clock readings are proper. *)
Record submission (j : ActionJob) (renewed expires : datetime) : Prop := {
  sb_new : j = ActionJob_new (j_action j) (j_peer j) (j_submitted_at j) renewed expires
                 (j_lease_expires_monotonic j);
  sb_action : storable (j_action j);
  sb_peer : peer_ok (j_peer j);
  sb_times : dt_wf (j_submitted_at j) /\ dt_wf renewed /\ dt_wf expires;
  sb_lease : us renewed < us expires;
}.

(** A job read back: instants in UTC, objects with sorted keys, no monotonic
    lease. *)
Definition restored_submission (j : ActionJob) (renewed expires : datetime) : ActionJob :=
  ActionJob_new (canon_action (j_action j)) (j_peer j) (dt_utc (j_submitted_at j))
    (dt_utc renewed) (dt_utc expires) 0.

Lemma persisted_lease_canon j renewed expires :
  submission j renewed expires ->
  persisted_lease (canon_action (j_action j)) (dt_utc (j_submitted_at j))
    (canon <$> dget (en_payload (submitted_entry j)) "action_lease")
  = Ok (dt_utc renewed, dt_utc expires).
Proof.
  intros [Hn _ _ (_ & Hr & Hx) Hlt]. rewrite Hn. unfold submitted_entry, action_entry.
  cbn [en_payload]. rewrite dget_lit_eq.
  cbn [dget_lit String.eqb Ascii.eqb Bool.eqb fmap option_fmap option_map].
  rewrite canon_JObj. unfold persisted_lease.
  rewrite (time_canon _ _ renewed), (time_canon _ _ expires) by done. cbn [rbind].
  unfold get_default, job_lease. canon_eval.
  cbn [canon ActionJob_new j_action canon_action lease_ttl_ms renew_interval_ms].
  rewrite !py_eqb_int, dt_lt_utc. unfold dt_lt. rewrite (proj2 (Z.ltb_lt _ _)) by done. done.
Qed.

Lemma decode_submitted now uuid j renewed expires :
  submission j renewed expires ->
  decode_submission now uuid (stored (submitted_entry j)) =
  Ok (restored_submission j renewed expires).
Proof.
  intros Hs. pose proof (persisted_lease_canon _ _ _ Hs) as Hl.
  destruct Hs as [_ Ha Hp (Ht & _) _].
  destruct (action_from_stored now uuid (j_action j) Ha) as (d & Hd & Hf).
  unfold decode_submission, stored. cbn [en_payload en_id].
  rewrite !dget_canon_dict.
  replace (canon <$> dget (en_payload (submitted_entry j)) "action")
    with (Some (canon (ActionEnvelope_to_dict (j_action j)))) by done.
  replace (canon <$> dget (en_payload (submitted_entry j)) "peer")
    with (Some (canon (JObj (PeerCredentials_to_dict (j_peer j))))) by done.
  cbn [mbind option_bind of_option rbind]. rewrite Hd, canon_JObj. cbn [as_obj of_option rbind].
  rewrite Hf. cbn [rbind]. rewrite persisted_peer_canon by done. cbn [rbind].
  rewrite <- dget_canon_dict, (time_canon _ _ (j_submitted_at j)) by done. cbn [rbind].
  rewrite Hl. cbn [rbind map_err fst snd].
  change (action_id (j_action (ActionJob_new _ _ _ _ _ _))) with (action_id (j_action j)).
  rewrite String.eqb_refl. done.
Qed.

(** The events of a job submitted as [j], started at [started] and finished
    with [fin]: state, time and receipt. *)
Definition with_start (started : option datetime) (j : ActionJob) : ActionJob :=
  match started with Some t => start_job t j | None => j end.

Definition job_history (j : ActionJob) (started : option datetime)
    (fin : option (JobState * datetime * dict json)) : list entry :=
  (submitted_entry j
   :: (if started is Some _ then [started_entry (with_start started j)] else [])
   ++ match fin with
      | Some (st, t, d) => option_list (terminal_entry (finish_job st t d (with_start started j)))
      | None => []
      end)%list.

(** The job after reading that history back. *)
Definition restored_job (j : ActionJob) (renewed expires : datetime) (started : option datetime)
    (fin : option (JobState * datetime * dict json)) : ActionJob :=
  let j1 := with_start (dt_utc <$> started) (restored_submission j renewed expires) in
  match fin with
  | Some (st, t, d) => finish_job st (dt_utc t) (canon_dict d) j1
  | None => j1
  end.

Lemma stored_names ty id d :
  en_type (stored (action_entry ty id d)) = ty /\ en_id (stored (action_entry ty id d)) = id.
Proof. done. Qed.

Lemma decode_step_submitted now uuid j renewed expires :
  submission j renewed expires ->
  decode_step now uuid (action_id (j_action j)) None (stored (submitted_entry j)) =
  Ok (Some (restored_submission j renewed expires)).
Proof.
  intros Hs. unfold decode_step.
  change (en_type (stored (submitted_entry j))) with "ACTION_SUBMITTED".
  change (en_id (stored (submitted_entry j))) with (action_id (j_action j)).
  rewrite !String.eqb_refl. cbn [require rbind].
  by rewrite (decode_submitted _ _ _ renewed expires).
Qed.

Lemma decode_step_started now uuid j j' t :
  dt_wf t -> j_state j' = J_QUEUED ->
  decode_step now uuid (action_id (j_action j)) (Some j') (stored (started_entry (start_job t j)))
  = Ok (Some (start_job (dt_utc t) j')).
Proof.
  intros Ht Hq. unfold decode_step.
  change (en_type (stored (started_entry (start_job t j)))) with "ACTION_STARTED".
  change (en_id (stored (started_entry (start_job t j)))) with (action_id (j_action j)).
  rewrite !String.eqb_refl. cbn [require rbind].
  cbn [String.eqb Ascii.eqb Bool.eqb]. rewrite Hq. cbn [bool_decide require rbind].
  change (en_payload (stored (started_entry (start_job t j))))
    with (canon_dict [("started_at", JStr (iso t))]).
  rewrite (time_canon _ _ t) by done. done.
Qed.

(** A job state the daemon writes in a terminal event. *)
Lemma scheduler_state_value st :
  active_state st = false -> scheduler_state_of (Some (JStr (JobState_value st))) = Ok st.
Proof. by destruct st. Qed.

(** The terminal event is accepted exactly when its receipt validates. *)
Lemma decode_step_terminal now uuid j j' st t d final level started finished :
  j_action j' = canon_action (j_action j) -> active_state (j_state j') = true ->
  active_state st = false -> dt_wf t ->
  receipt_about (j_action j) d final level started finished -> dt_wf started -> dt_wf finished ->
  exists e, terminal_entry (finish_job st t d j) = Some e /\
    decode_step now uuid (action_id (j_action j)) (Some j') (stored e) =
    if restorable final st started finished
    then Ok (Some (finish_job st (dt_utc t) (canon_dict d) j')) else Err Integrity.
Proof.
  intros Ha Hj Hst Ht Hd Hw1 Hw2. eexists. split; [reflexivity|]. unfold decode_step.
  match goal with |- context [stored (action_entry ?ty ?id ?p)] =>
    rewrite (proj1 (stored_names ty id p)), (proj2 (stored_names ty id p));
    change (en_payload (stored (action_entry ty id p))) with (canon_dict p) end.
  change (action_id (j_action (finish_job st t d j))) with (action_id (j_action j)).
  rewrite String.eqb_refl. cbn [require rbind String.eqb Ascii.eqb Bool.eqb].
  rewrite Hj. cbn [require rbind]. rewrite (time_canon _ _ t) by done.
  rewrite !dget_canon_dict, !dget_lit_eq.
  cbn [dget_lit String.eqb Ascii.eqb Bool.eqb fmap option_fmap option_map mbind option_bind].
  rewrite canon_JStr, canon_JObj. cbn [finish_job j_state].
  rewrite scheduler_state_value by done. cbn [rbind as_obj of_option].
  rewrite Ha, validate_canon_action, (validate_stored _ _ final level started finished) by done.
  by destruct (restorable final st started finished).
Qed.

Lemma with_start_action started j : j_action (with_start started j) = j_action j.
Proof. by destruct started. Qed.

Lemma with_start_active started j :
  j_state j = J_QUEUED -> active_state (j_state (with_start started j)) = true.
Proof. by destruct started; simpl; [|intros ->]. Qed.

(** Decoding the events before the terminal one. *)
Lemma decode_prefix now uuid j renewed expires started :
  submission j renewed expires -> (forall t, started = Some t -> dt_wf t) ->
  foldr_result (decode_step now uuid (action_id (j_action j)))
    (map stored (job_history j started None)) None =
  Ok (Some (with_start (dt_utc <$> started) (restored_submission j renewed expires))).
Proof.
  intros Hs Ht. unfold job_history. rewrite app_nil_r. cbn [map foldr_result].
  rewrite (decode_step_submitted _ _ _ renewed expires) by done. cbn [rbind].
  destruct started as [t|]; [|done]. cbn [map foldr_result with_start].
  rewrite decode_step_started; [done|by apply Ht|done].
Qed.

Lemma job_history_fin j started st t d :
  job_history j started (Some (st, t, d)) =
  (job_history j started None
   ++ option_list (terminal_entry (finish_job st t d (with_start started j))))%list.
Proof. unfold job_history. by rewrite app_nil_r. Qed.

(** The history of a job decodes to the restored job, or is refused when the
    terminal receipt is not restorable. *)
Lemma decode_history now uuid j renewed expires started fin final level s f :
  submission j renewed expires -> (forall t, started = Some t -> dt_wf t) ->
  (forall st t d, fin = Some (st, t, d) -> active_state st = false /\ dt_wf t /\
     receipt_about (j_action j) d final level s f /\ dt_wf s /\ dt_wf f) ->
  decode_persisted_job now uuid (map stored (job_history j started fin)) =
  if match fin with Some (st, _, _) => restorable final st s f | None => true end
  then Ok (restored_job j renewed expires started fin) else Err Integrity.
Proof.
  intros Hs Ht Hf. unfold decode_persisted_job.
  change (map stored (job_history j started fin)) with
    (stored (submitted_entry j) :: tail (map stored (job_history j started fin))) at 1.
  cbv beta iota. change (en_id (stored (submitted_entry j))) with (action_id (j_action j)).
  destruct fin as [[[st t] d]|]; [|by rewrite (decode_prefix _ _ _ renewed expires)].
  destruct (Hf _ _ _ eq_refl) as (Hst & Hwt & Hd & Hws & Hwf).
  rewrite job_history_fin, map_app, foldr_result_app, (decode_prefix _ _ _ renewed expires) by done.
  cbn [rbind].
  destruct (decode_step_terminal now uuid (with_start started j)
    (with_start (dt_utc <$> started) (restored_submission j renewed expires))
    st t d final level s f) as (e & He & Hdec);
    rewrite ?with_start_action; try done; [by apply with_start_active|].
  rewrite He. change (map stored (option_list (Some e))) with [stored e]. cbn [foldr_result].
  rewrite with_start_action in Hdec. rewrite Hdec.
  by destruct (restorable final st s f).
Qed.

(** ** Restoring the whole table *)

Lemma dget_group es id :
  dget (group_events es) id =
  match base.filter (fun e => en_id e = id) es with [] => None | l => Some l end.
Proof.
  unfold group_events.
  induction es as [|e es IH] using rev_ind; [done|].
  rewrite fold_left_app, filter_app, filter_cons, filter_nil. cbn [fold_left].
  rewrite dget_dset. destruct (decide (en_id e = id)) as [<-|Hne].
  - rewrite IH. by destruct (base.filter _ es).
  - rewrite app_nil_r. apply IH.
Qed.

(** One undecodable group refuses the whole table. *)
Lemma restore_jobs_refused now uuid es id x :
  base.filter (fun e => en_id e = id) es <> [] ->
  decode_persisted_job now uuid (base.filter (fun e => en_id e = id) es) = Err x ->
  is_ok (restore_jobs now uuid es) = false.
Proof.
  intros Hne Hx. unfold restore_jobs.
  assert (Hg : (id, base.filter (fun e => en_id e = id) es) ∈ group_events es).
  { apply dget_in. rewrite dget_group. by destruct (base.filter _ es). }
  remember (@nil (string * ActionJob)) as acc eqn:Hacc. clear Hacc. revert acc.
  induction (group_events es) as [|g gs IH]; [by inversion Hg|].
  intros acc. cbn [foldr_result]. apply elem_of_cons in Hg as [<-|Hg].
  - cbn [snd fst]. by rewrite Hx.
  - destruct (decode_persisted_job now uuid g.2) as [j|e]; cbn [rbind]; [by apply IH|done].
Qed.

(** ** What decoding guarantees *)

(** A receipt that repeats action [a] and claims no trust its mode and evidence do not
    give, for a job that ended in state [st]. *)
Record receipt_fits (a : ActionEnvelope) (receipt : dict json) (st : JobState) : Prop := {
  rf_names : Forall (fun kv => dget receipt kv.1 = Some (JStr kv.2))
    [("schema_version", "rosclaw.receipt.v1"); ("action_id", action_id a); ("body_id", body_id a);
     ("body_snapshot_hash", body_snapshot_hash a); ("capability_id", capability_id a);
     ("mode", se_value (execution_mode a)); ("execution_mode", se_value (execution_mode a))];
  rf_times : exists s f ds df, dget receipt "started_at" = Some (JStr s) /\ parse_aware s = Some ds /\
    dget receipt "finished_at" = Some (JStr f) /\ parse_aware f = Some df /\ us ds <= us df;
  rf_shape : (exists d, dget receipt "dispatch_result" = Some (JObj d)) /\
    (exists l, dget receipt "errors" = Some (JList l));
  rf_claims : exists final level v u,
    dget receipt "final_state" = Some (JStr (se_value (T := ActionState) final)) /\
    final ∈ [COMPLETED; BLOCKED; FAILED; CANCELLED; TIMED_OUT; DEGRADED] /\
    (st = J_CANCELLED -> final = CANCELLED) /\
    dget receipt "evidence_level" = Some (JStr (se_value (T := EvidenceLevel) level)) /\
    dget receipt "verified" = Some (JBool v) /\
    (v = true <-> execution_mode a <> FIXTURE /\ level ∈ [PHYSICALLY_OBSERVED; TASK_VERIFIED]) /\
    dget receipt "usable_for_real_execution" = Some (JBool u) /\
    (u = true <-> execution_mode a = REAL /\ final = COMPLETED /\ v = true) /\
    dget receipt "trust_level" = Some (JStr match execution_mode a with
      | FIXTURE => "SYNTHETIC" | REPLAY => "RECORDED" | SIMULATION => "SIMULATED"
      | DRY_RUN | SHADOW | REAL => if v then "VERIFIED" else "UNVERIFIED" end);
}.

Lemma str_at_spec d k s : str_at d k s = true <-> dget d k = Some (JStr s).
Proof.
  unfold str_at. destruct (dget d k) as [[]|]; try done. rewrite String.eqb_eq. naive_solver.
Qed.

Lemma bool_at_spec d k b : bool_at d k b = true <-> dget d k = Some (JBool b).
Proof. unfold bool_at. destruct (dget d k) as [[]|]; try done. rewrite Bool.eqb_true_iff. naive_solver. Qed.

Lemma enum_at_ok {T} `{StrEnum T} d k (x : T) :
  enum_at d k = Ok x -> dget d k = Some (JStr (se_value x)).
Proof.
  unfold enum_at. destruct (dget d k) as [[]|]; try done. simpl.
  destruct (se_parse s) eqn:E; [|done]. intros [= <-]. by apply se_parse_some in E as <-.
Qed.

Lemma persisted_time_ok j t : parse_persisted_time j = Ok t ->
  exists s d, j = Some (JStr s) /\ parse_aware s = Some d /\ us t = us d.
Proof.
  destruct j as [[]|]; try done. unfold parse_persisted_time. simpl.
  destruct (parse_aware s) as [d|] eqn:E; [|done]. intros [= <-]. eauto.
Qed.

Lemma receipt_claims a receipt final level v u :
  v = negb (bool_decide (execution_mode a = FIXTURE)) && strong_evidence level ->
  u = bool_decide (execution_mode a = REAL) && bool_decide (final = COMPLETED) && v ->
  (v = true <-> execution_mode a <> FIXTURE /\ level ∈ [PHYSICALLY_OBSERVED; TASK_VERIFIED]) /\
  (u = true <-> execution_mode a = REAL /\ final = COMPLETED /\ v = true) /\
  (dget receipt "trust_level" = Some (JStr (expected_trust (execution_mode a) v)) ->
   dget receipt "trust_level" = Some (JStr match execution_mode a with
      | FIXTURE => "SYNTHETIC" | REPLAY => "RECORDED" | SIMULATION => "SIMULATED"
      | DRY_RUN | SHADOW | REAL => if v then "VERIFIED" else "UNVERIFIED" end)).
Proof.
  intros Hv Hu. unfold strong_evidence in Hv. split_and!.
  - rewrite Hv, andb_true_iff, negb_true_iff, bool_decide_eq_false, orb_true_iff, !bool_decide_eq_true. set_solver.
  - rewrite Hu, !andb_true_iff, !bool_decide_eq_true. tauto.
  - by destruct (execution_mode a).
Qed.

Lemma validated_fits a receipt st : validate_persisted_receipt a receipt st = Ok tt -> receipt_fits a receipt st.
Proof.
  unfold validate_persisted_receipt. intros Hv. apply rbind_ok in Hv as ([] & H1%require_ok & Hv).
  rewrite !andb_true_iff, !str_at_spec in H1. destruct H1 as ((((((? & ?) & ?) & ?) & ?) & ?) & ?).
  apply rbind_ok in Hv as ([[[final level] started] finished] & Ht & Hv).
  destruct (let* final := _ in _) as [t|] eqn:Et; [|done]. injection Ht as ->.
  apply rbind_ok in Et as (f & Hf%enum_at_ok & Et). apply rbind_ok in Et as (l & Hl%enum_at_ok & Et).
  apply rbind_ok in Et as (ds & (s1 & d1 & Hs1 & Hp1 & Hu1)%persisted_time_ok & Et).
  apply rbind_ok in Et as (df & (s2 & d2 & Hs2 & Hp2 & Hu2)%persisted_time_ok & [= -> -> -> ->]).
  apply rbind_ok in Hv as ([] & Hacc%require_ok & Hv). apply rbind_ok in Hv as ([] & Hcan%require_ok & Hv).
  apply rbind_ok in Hv as ([] & Hord%require_ok & Hv). apply rbind_ok in Hv as ([] & Hshape%require_ok & Hv).
  apply require_ok in Hv. rewrite !andb_true_iff, !bool_at_spec, str_at_spec in Hv. destruct Hv as ((Hver & Htr) & Hus).
  destruct (receipt_claims a receipt final level _ _ eq_refl eq_refl) as (Hv & Hu & Ht).
  constructor.
  - repeat constructor; done.
  - exists s1, s2, d1, d2. unfold dt_lt in Hord. rewrite negb_true_iff in Hord. breflect. split_and!; try done. lia.
  - unfold get_default in Hshape. rewrite andb_true_iff in Hshape. destruct Hshape as [Hd He].
    destruct (dget receipt "dispatch_result") as [[]|]; try done.
    destruct (dget receipt "errors") as [[]|]; try done. eauto.
  - eexists final, level, _, _. split_and!; [exact Hf| |  |exact Hl|exact Hver|exact Hv|exact Hus|exact Hu|by apply Ht].
    + clear -Hacc. destruct final; try done; set_solver.
    + intros ->. rewrite bool_decide_eq_true_2 in Hcan by done. simpl in Hcan.
      rewrite negb_involutive in Hcan. by apply bool_decide_eq_true in Hcan.
Qed.

(** A job as the decoder may produce it, whatever the ledger holds. *)
Record decoded_ok (id : string) (j : ActionJob) : Prop := {
  do_action : envelope_ok (j_action j);
  do_id : action_id (j_action j) = id;
  do_peer : peer_ok (j_peer j);
  do_running : j_state j = J_RUNNING -> is_Some (j_started_at j);
  do_active : active_state (j_state j) = true -> j_receipt j = None /\ j_finished_at j = None;
  do_terminal : active_state (j_state j) = false ->
    is_Some (j_finished_at j) /\ exists receipt, j_receipt j = Some receipt /\
      receipt_fits (j_action j) receipt (j_state j);
}.

Lemma persisted_int_ok j z : persisted_int j = Ok z -> 0 <= z.
Proof.
  destruct j as [[| |i| | | |]|]; try done. simpl. intros Hp. ok_inv Hp. subst. by apply Z.leb_le.
Qed.

Lemma persisted_peer_ok d p : persisted_peer d = Ok p -> peer_ok p.
Proof.
  unfold persisted_peer. intros Hp. ok_inv Hp. subst p.
  repeat split; simpl; by eapply persisted_int_ok.
Qed.

Lemma decode_submission_ok now uuid e j :
  decode_submission now uuid e = Ok j -> decoded_ok (en_id e) j.
Proof.
  unfold decode_submission. intros Hd. ok_inv Hd. subst.
  repeat match goal with HH : String.eqb _ _ = true |- _ => apply String.eqb_eq in HH end.
  constructor; cbn [ActionJob_new j_action j_peer j_state j_started_at j_receipt j_finished_at] in *;
    try done; [by eapply envelope_from_dict_ok|by eapply persisted_peer_ok].
Qed.

Lemma decode_step_ok now uuid id job e job' :
  (forall j, job = Some j -> decoded_ok id j) ->
  decode_step now uuid id job e = Ok job' -> exists j, job' = Some j /\ decoded_ok id j.
Proof.
  intros Hj Hd. unfold decode_step in Hd. ok_inv Hd. apply String.eqb_eq in Ha as Hid.
  destruct (String.eqb (en_type e) "ACTION_SUBMITTED").
  { ok_inv Hd. subst job'. eexists. split; [done|]. rewrite <- Hid.
    by eapply decode_submission_ok. }
  destruct job as [j|]; [|done]. specialize (Hj _ eq_refl).
  destruct (String.eqb (en_type e) "ACTION_STARTED").
  { ok_inv Hd. breflect. subst job'. eexists. split; [done|].
    destruct Hj as [? ? ? _ Ha' _]. rewrite Ha0 in Ha'. specialize (Ha' eq_refl).
    by constructor. }
  destruct (String.eqb (en_type e) "ACTION_TERMINAL"); [|done].
  ok_inv Hd. subst job'. eexists. split; [done|]. destruct Hj as [? ? ? ? ? ?].
  assert (Hst : active_state a1 = false).
  { destruct (dget (en_payload e) "scheduler_state") as [[]|]; try done. simpl in Ha1.
    repeat (case_match; try done); injection Ha1 as <-; done. }
  constructor; cbn [finish_job j_action j_peer j_state j_started_at j_receipt j_finished_at];
    try done; try (by rewrite Hst); [by intros ->|].
  intros _. split; [done|]. eexists. split; [done|]. apply validated_fits. by destruct a3.
Qed.

Lemma decode_persisted_ok now uuid e es j :
  decode_persisted_job now uuid (e :: es) = Ok j -> decoded_ok (en_id e) j.
Proof.
  unfold decode_persisted_job. intros Hd. ok_inv Hd. subst a.
  assert (Hgen : forall l job, (forall j, job = Some j -> decoded_ok (en_id e) j) ->
    foldr_result (decode_step now uuid (en_id e)) l job = Ok (Some j) -> decoded_ok (en_id e) j).
  { clear. induction l as [|x l IH]; intros job Hj Hf; cbn [foldr_result] in Hf; [by ok_inv Hf; auto|].
    apply rbind_ok in Hf as (job1 & H1 & Hf).
    destruct (decode_step_ok _ _ _ _ _ _ Hj H1) as (j1 & -> & Hok).
    eapply IH; [|exact Hf]. by intros ? [= <-]. }
  by apply (Hgen (e :: es) None).
Qed.

Lemma restore_jobs_ok now uuid es jobs id j :
  restore_jobs now uuid es = Ok jobs -> dget jobs id = Some j -> decoded_ok id j.
Proof.
  unfold restore_jobs.
  assert (Hg : Forall (fun g => exists e l, g.2 = e :: l /\ en_id e = g.1) (group_events es)).
  { apply Forall_forall. intros [k l] Hin.
    assert (Hnd : dwf (group_events es)).
    { unfold group_events. assert (Hw : dwf (@nil (string * list entry))) by constructor.
      revert Hw. generalize (@nil (string * list entry)). clear. induction es; simpl; auto.
      intros. apply IHes. by apply dwf_dset. }
    apply (dget_Some _ _ _ Hnd) in Hin. rewrite dget_group in Hin.
    destruct (base.filter (fun e => en_id e = k) es) as [|e l'] eqn:Hf; [done|].
    injection Hin as <-. simpl. exists e, l'. split; [done|].
    assert (He : e ∈ base.filter (fun e => en_id e = k) es) by (rewrite Hf; left).
    by apply list_elem_of_filter in He as [? _]. }
  assert (Hacc : forall k x, dget (@nil (string * ActionJob)) k = Some x -> decoded_ok k x) by done.
  revert Hacc. generalize (@nil (string * ActionJob)).
  induction Hg as [|[k l] gs (e & l' & Hl & He) _ IH]; intros acc Hacc; cbn [foldr_result].
  - intros [= <-]. apply Hacc.
  - simpl in Hl, He. subst l k. cbn [fst snd].
    destruct (decode_persisted_job now uuid (e :: l')) as [x|] eqn:Hd; [|done]. cbn [rbind].
    apply IH. intros k y. rewrite dget_dset. case_decide; [|apply Hacc].
    intros [= <-]. subst k. by eapply decode_persisted_ok.
Qed.

(** ** Equality with a stored value *)

(** Distinct keys and no NaN: what the ledger can store of a Python value. *)
Fixpoint jwf (j : json) : bool :=
  match j with
  | JFloat f => negb (bool_decide (f = NaN))
  | JList l => forallb jwf l
  | JObj d => bool_decide (dwf d) && forallb (fun kv => jwf kv.2) d
  | _ => true
  end.

Lemma py_eqb_list l r :
  py_eqb (JList l) (JList r) = true <-> Forall2 (fun x y => py_eqb x y = true) l r.
Proof.
  cbn [py_eqb]. revert r. induction l as [|x l IH]; intros [|y r]; simpl.
  - by split.
  - split; [done|by inversion 1].
  - split; [done|by inversion 1].
  - rewrite andb_true_iff, IH. split; [intros []; by constructor|by inversion 1].
Qed.

Lemma py_eqb_obj d e :
  py_eqb (JObj d) (JObj e) = true <->
  length d = length e /\ forall k x, (k, x) ∈ d -> exists y, dget e k = Some y /\ py_eqb x y = true.
Proof.
  cbn [py_eqb]. rewrite andb_true_iff, Nat.eqb_eq.
  apply and_iff_compat_l. generalize e. clear e. intros e.
  induction d as [|[k x] d IH]; simpl.
  - split; [intros _ k x Hin; inversion Hin|done].
  - rewrite andb_true_iff, IH. split.
    + intros [Hx Hd] k' x' [[= -> ->]|Hin]%elem_of_cons; [|by apply Hd].
      destruct (dget e k); [eauto|done].
    + intros Hd. split; [|intros; apply Hd; by right].
      destruct (Hd k x) as (y & -> & Hy); [left|done].
Qed.

Lemma py_eqb_canon j : jwf j = true -> py_eqb (canon j) j = true.
Proof.
  induction j as [|b|z|f|s|l IH|d IH] using json_nested_ind; intros Hj; try done.
  - by destruct b.
  - apply py_eqb_int.
  - cbn. unfold float_eq. simpl in Hj. destruct f as [m e|n|]; simpl.
    + unfold dec_compare. by rewrite Z.compare_refl.
    + by rewrite eqb_reflx.
    + by rewrite bool_decide_eq_true_2 in Hj.
  - simpl. apply String.eqb_refl.
  - cbn [canon]. apply py_eqb_list. cbn [jwf] in Hj. rewrite forallb_forall in Hj.
    induction IH as [|x l Hx _ IHl]; simpl; constructor.
    + apply Hx, Hj. by left.
    + apply IHl. intros y Hy. apply Hj. by right.
  - cbn [canon jwf] in *. breflect. rename H0 into Hv. apply py_eqb_obj. split.
    + rewrite sort_keys_perm. by rewrite length_map.
    + intros k x Hin. rewrite sort_keys_perm in Hin.
      apply list_elem_of_fmap in Hin as ([k' y] & [= -> ->] & Hin). exists y.
      split; [by apply dget_Some|]. rewrite Forall_forall in IH. apply (IH _ Hin).
      rewrite forallb_forall in Hv. apply (Hv (k', y)), list_elem_of_In, Hin.
Qed.

(** What a decoded request satisfies besides its contract: [json.loads] builds
    dictionaries, and a NaN could not have been stored. *)
Definition action_jwf (a : ActionEnvelope) : bool :=
  jwf (JObj (arguments a)) && jwf (expected_effect a)
  && jwf (JObj (provenance (authorization a)))
  && negb (bool_decide (timeout_sec (verification_policy a) = NaN)).

Lemma py_eqb_same_str l : Forall2 (fun x y => py_eqb x y = true) (map JStr l) (map JStr l).
Proof. induction l; simpl; constructor; [apply String.eqb_refl|done]. Qed.

Lemma canon_dict_eq d : jwf (JObj d) = true -> py_eqb (JObj (canon_dict d)) (JObj d) = true.
Proof. intros Hd. rewrite <- canon_JObj. by apply py_eqb_canon. Qed.

Lemma py_eqb_opt_text o : py_eqb (opt_text_json o) (opt_text_json o) = true.
Proof. destruct o; simpl; [apply String.eqb_refl|done]. Qed.

Lemma py_eqb_authorization z :
  jwf (JObj (provenance z)) = true ->
  py_eqb (AuthorizationContext_to_dict (canon_authorization z)) (AuthorizationContext_to_dict z)
  = true.
Proof.
  intros Hz%canon_dict_eq. unfold AuthorizationContext_to_dict. apply py_eqb_obj.
  destruct z as [pid ap aid sc pv].
  cbn [canon_authorization principal_id approved approval_id scopes provenance] in *.
  assert (Hrest : forall k x, (k, x) ∈ [("principal_id", JStr pid); ("approved", JBool ap);
            ("approval_id", opt_text_json aid); ("scopes", JList (map JStr sc))] ->
    exists y, dget_lit [("principal_id", JStr pid); ("approved", JBool ap);
            ("approval_id", opt_text_json aid); ("scopes", JList (map JStr sc))] k = Some y /\
      py_eqb x y = true).
  { intros k x Hin.
    repeat (apply elem_of_cons in Hin as [[= -> ->]|Hin]; [eexists; split; [reflexivity|]|]);
      [apply String.eqb_refl|by destruct ap|apply py_eqb_opt_text
      |apply py_eqb_list, py_eqb_same_str|inversion Hin]. }
  destruct pv as [|kv pv].
  - split; [done|]. intros k x Hin. rewrite dget_lit_eq. by apply Hrest.
  - destruct (canon_dict_cons kv pv) as (kv' & pv' & E). rewrite E in *. split; [done|].
    intros k x [Hin|Hin]%elem_of_app.
    + destruct (Hrest _ _ Hin) as (y & Hy & Hxy). exists y.
      rewrite dget_app, dget_lit_eq, Hy. done.
    + apply list_elem_of_singleton in Hin as [= -> ->]. rewrite dget_lit_eq. eauto.
Qed.

Lemma py_eqb_policy p :
  timeout_sec p <> NaN ->
  py_eqb (VerificationPolicy_to_dict p) (VerificationPolicy_to_dict p) = true.
Proof.
  intros Hp. unfold VerificationPolicy_to_dict. apply py_eqb_obj. split; [done|].
  intros k x Hin. rewrite dget_lit_eq.
  repeat (apply elem_of_cons in Hin as [[= -> ->]|Hin]; [eexists; split; [reflexivity|]|]);
    [apply String.eqb_refl| |by destruct (fail_closed p)|inversion Hin].
  apply (py_eqb_canon (JFloat (timeout_sec p))). simpl. by rewrite bool_decide_eq_false_2.
Qed.

(** [a.to_dict() == b.to_dict()] of a stored action and the original. *)
Lemma same_action_stored a :
  action_jwf a = true ->
  py_eqb (ActionEnvelope_to_dict (canon_action a)) (ActionEnvelope_to_dict a) = true.
Proof.
  unfold action_jwf. intros Hj. breflect. unfold ActionEnvelope_to_dict.
  apply py_eqb_obj. split; [done|]. intros k x Hin. rewrite dget_lit_eq.
  repeat (apply elem_of_cons in Hin as [[= -> ->]|Hin]; [eexists; split; [reflexivity|]|]);
    try (apply String.eqb_refl); try apply py_eqb_int; try (inversion Hin; done).
  - by apply canon_dict_eq.
  - by apply py_eqb_authorization.
  - cbn [canon_action deadline_at]. destruct (deadline_at a); [apply String.eqb_refl|done].
  - apply py_eqb_opt_text.
  - by apply py_eqb_canon.
  - by apply py_eqb_policy.
Qed.

(** ** Theorems *)


(** A terminal receipt whose final state is ORPHANED cannot be read back:
    once the daemon has persisted one, as it does for every action stopped
    because its session was lost, the next start refuses the whole ledger. *)
Theorem orphaned_receipt_blocks_restart now uuid es j renewed expires started st t d level s f :
  submission j renewed expires -> (forall t, started = Some t -> dt_wf t) ->
  active_state st = false -> dt_wf t -> dt_wf s -> dt_wf f ->
  receipt_about (j_action j) d ORPHANED level s f ->
  base.filter (fun e => en_id e = action_id (j_action j)) es =
    map stored (job_history j started (Some (st, t, d))) ->
  is_ok (restore_jobs now uuid es) = false.
Proof.
  intros Hs Ht Hst Hwt Hws Hwf Hd He.
  apply (restore_jobs_refused _ _ _ (action_id (j_action j)) Integrity); rewrite He; [done|].
  rewrite (decode_history _ _ _ renewed expires _ _ ORPHANED level s f); [done|done|done|].
  by intros ? ? ? [= <- <- <-].
Qed.

(** C31: whatever the ledger holds, a job that decodes satisfies the action
    contract, belongs to the entity it was filed under and to a proper peer,
    has a receipt and a finishing time exactly when it is terminal, and that
    receipt repeats the action, is in a final state (CANCELLED for a cancelled
    job), did not finish before it started, is verified exactly on strong
    evidence outside FIXTURE, usable for real execution exactly when moreover
    REAL and COMPLETED, and names the trust its mode and evidence give. *)
Theorem decoded_job_ok now uuid es jobs id j :
  restore_jobs now uuid es = Ok jobs -> dget jobs id = Some j -> decoded_ok id j.
Proof. apply restore_jobs_ok. Qed.

(** ** A concrete job *)

Definition demo_job : ActionJob :=
  ActionJob_new demo_action demo_peer demo_now demo_now (dt_add demo_now 10000000) 10000000.

Lemma demo_submission : submission demo_job demo_now (dt_add demo_now 10000000).
Proof.
  constructor; [done| |vm_compute; intuition congruence..].
  constructor; [constructor; try (vm_compute; intuition congruence); by eexists|by vm_compute|].
  intros d [= <-]. vm_compute. intuition congruence.
Qed.

Definition demo_refusal (st : ActionState) : ExecutionReceipt :=
  failure_receipt demo_env demo_action st "AGENT_SESSION_LOST" "session lost" [] None.

Lemma demo_refusal_about st :
  receipt_about (j_action demo_job) (receipt_dict (demo_refusal st)) st REQUESTED
    (started_now demo_env) (finished_now demo_env).
Proof. apply (receipt_for_about demo_action). by constructor. Qed.


Lemma orphaned_receipt_blocks_restart_witness :
  is_ok (restore_jobs demo_now ""
    (map stored (job_history demo_job None
       (Some (J_FINISHED, demo_now, receipt_dict (demo_refusal ORPHANED)))))) = false.
Proof.
  apply (orphaned_receipt_blocks_restart demo_now "" _ demo_job demo_now
    (dt_add demo_now 10000000) None J_FINISHED demo_now (receipt_dict (demo_refusal ORPHANED))
    REQUESTED (started_now demo_env) (finished_now demo_env)).
  - exact demo_submission.
  - discriminate.
  - reflexivity.
  - vm_compute. intuition congruence.
  - vm_compute. intuition congruence.
  - vm_compute. intuition congruence.
  - exact (demo_refusal_about ORPHANED).
  - vm_compute. reflexivity.
Defined.

Lemma decoded_job_ok_witness :
  exists j, decoded_ok "action_1" j.
Proof.
  destruct (restore_jobs demo_now "" (map stored (job_history demo_job None None))) as [jobs|] eqn:E;
    [|exfalso; vm_compute in E; discriminate].
  destruct (dget jobs "action_1") as [j|] eqn:Ej.
  - exists j. exact (decoded_job_ok demo_now "" (map stored (job_history demo_job None None)) jobs
      "action_1" j E Ej).
  - exfalso. vm_compute in E. injection E as <-. vm_compute in Ej. discriminate.
Defined.
