(* ===== verification/ControlPlane.v ===== *)
(** The daemon control plane: src/src/rosclaw/daemon/service.py,
    class [DaemonControlPlane], with its [SupervisionState] of daemon/health.py.

    [plane] is the object's state: its permit authority (whose ledger is the
    daemon's ledger), sessions, gateway and E-stop latch of the runtime, job
    objects, futures of the thread pool, queue slots and recovery state. A job
    object is a location of [heap]; [jobs] maps action ids to locations, so a
    thread keeps its job when the table forgets it.

    Each block the code runs under [self._lock], and each call between two
    blocks, is a method of type [st plane cp_exn _]; a handler is their
    composition. [cstep] interleaves the blocks of all threads. Clock readings,
    the outcome of each ledger append, of the executor pool and of the runtime's
    stop path come from an [io]. *)

From S2P Require Export Jobs.
From S2P Require Export Gateway.

Inductive SupervisionState :=
| STARTING | READY | ARMED | SUP_DEGRADED | DISARMED | ESTOPPED | SUP_FAILED | STOPPING.

Definition SupervisionState_value (s : SupervisionState) : string :=
  match s with
  | STARTING => "STARTING" | READY => "READY" | ARMED => "ARMED" | SUP_DEGRADED => "DEGRADED"
  | DISARMED => "DISARMED" | ESTOPPED => "ESTOPPED" | SUP_FAILED => "FAILED"
  | STOPPING => "STOPPING"
  end.

#[export] Instance SupervisionState_eq_dec : EqDecision SupervisionState.
Proof. solve_decision. Defined.

(** [ControlPlaneError] by its code, or another exception. *)
Inductive cp_exn := ControlPlaneError (code : string) | Raised.

(** Where the pool thread of a job stands. [R_pending] is a future not yet
    started; [R_armed z] holds the authorization of an allowed permit;
    [R_submit x] is about to call [runtime.submit_action x];
    [R_report d] and [R_finish d] hold the receipt before and after the check
    for an override; [R_return] has left the last block but not the future. *)
Inductive run_phase :=
| R_pending | R_cancelled | R_begin | R_authorize | R_armed (z : AuthorizationContext)
| R_submit (x : ActionEnvelope) | R_report (d : dict json) | R_stop (d : dict json)
| R_finish (d : dict json) | R_return | R_done.

(** A future whose slot of the queue is not yet free. *)
Definition holds_slot (p : run_phase) : bool :=
  match p with R_cancelled | R_done => false | _ => true end.

Record config := {
  c_euid : Z;                 (* [os.geteuid()] *)
  c_max_queued : Z;
  c_max_retained : Z;
  c_instance : string;
}.

Definition queue_capacity (c : config) : Z := Z.max 1 (c_max_queued c).
Definition retained_capacity (c : config) : Z :=
  Z.max (queue_capacity c) (Z.max 1 (c_max_retained c)).

(** What [runtime.request_emergency_stop] answers. *)
Inductive stop_outcome := StopReceipt (d : dict json) | StopInvalid | StopRaised (message : string).

Record plane {X L : Type} := {
  pa : PermitAuthority L;
  sess : SessionManager;
  gwy : ActionGateway X;
  latched : bool;
  heap : gmap nat ActionJob;
  jobs : dict nat;
  futures : gmap nat run_phase;
  slots : Z;
  evicted : Z;
  supervision : SupervisionState;
  running : bool;
  closed : bool;
  hw_actions : Z;
  stop_requests : Z;
  rec_required : bool;
  rec_ids : list string;
  rec_real : list string;
  ledger_failed : bool;
}.
Arguments plane : clear implicits.

(** The world as one handler sees it: the n-th reading of each clock, the
    outcome of the append of an event type for an entity, the gateway's
    environment, whether the pool takes a task, and the stop path. *)
Record io {Env : Type} := {
  clock : nat -> datetime;
  mono : nat -> Z;
  append_env : string -> string -> Env;
  gw_env : exec_env;
  pool_accepts : bool;
  stop_result : stop_outcome;
  fresh_id : string;
  decision_message : string -> string;   (* the text of a permit decision, by its code *)
}.
Arguments io : clear implicits.

Section Plane.
Context {X : Type} `{EL : EventLog L Env} `{Crypto} (cfg : config).
Abbreviation plane := (plane X L).
Abbreviation io := (io Env).
Abbreviation M := (st plane cp_exn).
Implicit Types (s : plane) (w : io).

(** ** Field updates *)

Definition set_pa (v : PermitAuthority L) s : plane :=
  {| pa := v; sess := sess s; gwy := gwy s; latched := latched s; heap := heap s; jobs := jobs s;
     futures := futures s; slots := slots s; evicted := evicted s; supervision := supervision s;
     running := running s; closed := closed s; hw_actions := hw_actions s;
     stop_requests := stop_requests s; rec_required := rec_required s; rec_ids := rec_ids s;
     rec_real := rec_real s; ledger_failed := ledger_failed s |}.
Definition set_sess (v : SessionManager) s : plane :=
  {| pa := pa s; sess := v; gwy := gwy s; latched := latched s; heap := heap s; jobs := jobs s;
     futures := futures s; slots := slots s; evicted := evicted s; supervision := supervision s;
     running := running s; closed := closed s; hw_actions := hw_actions s;
     stop_requests := stop_requests s; rec_required := rec_required s; rec_ids := rec_ids s;
     rec_real := rec_real s; ledger_failed := ledger_failed s |}.
Definition set_gwy (v : ActionGateway X) s : plane :=
  {| pa := pa s; sess := sess s; gwy := v; latched := latched s; heap := heap s; jobs := jobs s;
     futures := futures s; slots := slots s; evicted := evicted s; supervision := supervision s;
     running := running s; closed := closed s; hw_actions := hw_actions s;
     stop_requests := stop_requests s; rec_required := rec_required s; rec_ids := rec_ids s;
     rec_real := rec_real s; ledger_failed := ledger_failed s |}.
Definition set_latched (v : bool) s : plane :=
  {| pa := pa s; sess := sess s; gwy := gwy s; latched := v; heap := heap s; jobs := jobs s;
     futures := futures s; slots := slots s; evicted := evicted s; supervision := supervision s;
     running := running s; closed := closed s; hw_actions := hw_actions s;
     stop_requests := stop_requests s; rec_required := rec_required s; rec_ids := rec_ids s;
     rec_real := rec_real s; ledger_failed := ledger_failed s |}.
Definition set_heap (v : gmap nat ActionJob) s : plane :=
  {| pa := pa s; sess := sess s; gwy := gwy s; latched := latched s; heap := v; jobs := jobs s;
     futures := futures s; slots := slots s; evicted := evicted s; supervision := supervision s;
     running := running s; closed := closed s; hw_actions := hw_actions s;
     stop_requests := stop_requests s; rec_required := rec_required s; rec_ids := rec_ids s;
     rec_real := rec_real s; ledger_failed := ledger_failed s |}.
Definition set_jobs (v : dict nat) s : plane :=
  {| pa := pa s; sess := sess s; gwy := gwy s; latched := latched s; heap := heap s; jobs := v;
     futures := futures s; slots := slots s; evicted := evicted s; supervision := supervision s;
     running := running s; closed := closed s; hw_actions := hw_actions s;
     stop_requests := stop_requests s; rec_required := rec_required s; rec_ids := rec_ids s;
     rec_real := rec_real s; ledger_failed := ledger_failed s |}.
Definition set_futures (v : gmap nat run_phase) s : plane :=
  {| pa := pa s; sess := sess s; gwy := gwy s; latched := latched s; heap := heap s;
     jobs := jobs s; futures := v; slots := slots s; evicted := evicted s;
     supervision := supervision s; running := running s; closed := closed s;
     hw_actions := hw_actions s; stop_requests := stop_requests s;
     rec_required := rec_required s; rec_ids := rec_ids s; rec_real := rec_real s;
     ledger_failed := ledger_failed s |}.
Definition set_slots (v : Z) s : plane :=
  {| pa := pa s; sess := sess s; gwy := gwy s; latched := latched s; heap := heap s;
     jobs := jobs s; futures := futures s; slots := v; evicted := evicted s;
     supervision := supervision s; running := running s; closed := closed s;
     hw_actions := hw_actions s; stop_requests := stop_requests s;
     rec_required := rec_required s; rec_ids := rec_ids s; rec_real := rec_real s;
     ledger_failed := ledger_failed s |}.
Definition set_evicted (v : Z) s : plane :=
  {| pa := pa s; sess := sess s; gwy := gwy s; latched := latched s; heap := heap s;
     jobs := jobs s; futures := futures s; slots := slots s; evicted := v;
     supervision := supervision s; running := running s; closed := closed s;
     hw_actions := hw_actions s; stop_requests := stop_requests s;
     rec_required := rec_required s; rec_ids := rec_ids s; rec_real := rec_real s;
     ledger_failed := ledger_failed s |}.
Definition set_supervision (v : SupervisionState) s : plane :=
  {| pa := pa s; sess := sess s; gwy := gwy s; latched := latched s; heap := heap s;
     jobs := jobs s; futures := futures s; slots := slots s; evicted := evicted s;
     supervision := v; running := running s; closed := closed s; hw_actions := hw_actions s;
     stop_requests := stop_requests s; rec_required := rec_required s; rec_ids := rec_ids s;
     rec_real := rec_real s; ledger_failed := ledger_failed s |}.
Definition set_running (v : bool) s : plane :=
  {| pa := pa s; sess := sess s; gwy := gwy s; latched := latched s; heap := heap s;
     jobs := jobs s; futures := futures s; slots := slots s; evicted := evicted s;
     supervision := supervision s; running := v; closed := closed s; hw_actions := hw_actions s;
     stop_requests := stop_requests s; rec_required := rec_required s; rec_ids := rec_ids s;
     rec_real := rec_real s; ledger_failed := ledger_failed s |}.
Definition set_closed (v : bool) s : plane :=
  {| pa := pa s; sess := sess s; gwy := gwy s; latched := latched s; heap := heap s;
     jobs := jobs s; futures := futures s; slots := slots s; evicted := evicted s;
     supervision := supervision s; running := running s; closed := v; hw_actions := hw_actions s;
     stop_requests := stop_requests s; rec_required := rec_required s; rec_ids := rec_ids s;
     rec_real := rec_real s; ledger_failed := ledger_failed s |}.
Definition set_hw_actions (v : Z) s : plane :=
  {| pa := pa s; sess := sess s; gwy := gwy s; latched := latched s; heap := heap s;
     jobs := jobs s; futures := futures s; slots := slots s; evicted := evicted s;
     supervision := supervision s; running := running s; closed := closed s; hw_actions := v;
     stop_requests := stop_requests s; rec_required := rec_required s; rec_ids := rec_ids s;
     rec_real := rec_real s; ledger_failed := ledger_failed s |}.
Definition set_stop_requests (v : Z) s : plane :=
  {| pa := pa s; sess := sess s; gwy := gwy s; latched := latched s; heap := heap s;
     jobs := jobs s; futures := futures s; slots := slots s; evicted := evicted s;
     supervision := supervision s; running := running s; closed := closed s;
     hw_actions := hw_actions s; stop_requests := v; rec_required := rec_required s;
     rec_ids := rec_ids s; rec_real := rec_real s; ledger_failed := ledger_failed s |}.
Definition set_rec_required (v : bool) s : plane :=
  {| pa := pa s; sess := sess s; gwy := gwy s; latched := latched s; heap := heap s;
     jobs := jobs s; futures := futures s; slots := slots s; evicted := evicted s;
     supervision := supervision s; running := running s; closed := closed s;
     hw_actions := hw_actions s; stop_requests := stop_requests s; rec_required := v;
     rec_ids := rec_ids s; rec_real := rec_real s; ledger_failed := ledger_failed s |}.
Definition set_rec_ids (v : list string) s : plane :=
  {| pa := pa s; sess := sess s; gwy := gwy s; latched := latched s; heap := heap s;
     jobs := jobs s; futures := futures s; slots := slots s; evicted := evicted s;
     supervision := supervision s; running := running s; closed := closed s;
     hw_actions := hw_actions s; stop_requests := stop_requests s;
     rec_required := rec_required s; rec_ids := v; rec_real := rec_real s;
     ledger_failed := ledger_failed s |}.
Definition set_rec_real (v : list string) s : plane :=
  {| pa := pa s; sess := sess s; gwy := gwy s; latched := latched s; heap := heap s;
     jobs := jobs s; futures := futures s; slots := slots s; evicted := evicted s;
     supervision := supervision s; running := running s; closed := closed s;
     hw_actions := hw_actions s; stop_requests := stop_requests s;
     rec_required := rec_required s; rec_ids := rec_ids s; rec_real := v;
     ledger_failed := ledger_failed s |}.
Definition set_ledger_failed (v : bool) s : plane :=
  {| pa := pa s; sess := sess s; gwy := gwy s; latched := latched s; heap := heap s;
     jobs := jobs s; futures := futures s; slots := slots s; evicted := evicted s;
     supervision := supervision s; running := running s; closed := closed s;
     hw_actions := hw_actions s; stop_requests := stop_requests s;
     rec_required := rec_required s; rec_ids := rec_ids s; rec_real := rec_real s;
     ledger_failed := v |}.

Definition modify_job (loc : nat) (f : ActionJob -> ActionJob) s : plane :=
  set_heap (alter f loc (heap s)) s.

Definition log_of s : option L := ledger (pa s).

Definition raise {A} (code : string) : M A := st_raise (ControlPlaneError code).
Definition guard (b : bool) (code : string) : M unit := st_guard b (ControlPlaneError code).

(** ** Ledger *)

(** [if self.ledger is not None: self.ledger.append(...)]: did it succeed? *)
Definition append_event w (ty kind id : string) (d : dict json) : M bool :=
  fun s => let '(l, ok) := write_event (append_env w ty id) (log_of s) ty kind id d in
           (set_pa {| tables := tables (pa s); ledger := l |} s, Ok ok).

(** [_mark_ledger_failure_locked]; the text of the failure is left out. *)
Definition mark_ledger_failure : M unit := st_set (set_ledger_failed true).

(** An append whose failure is only recorded: [_append_session_event],
    [_append_lease_event] and [_append_supervision_event]. *)
Definition append_or_mark w (ty kind id : string) (d : dict json) : M unit :=
  do! ok <- append_event w ty kind id d;
  if ok : bool then st_ret tt else mark_ledger_failure.

Definition append_session_event w (ty : string) (x : AgentSession) (extra : dict json) : M unit :=
  append_or_mark w ty "SESSION" (ss_session_id x)
    (dict_update [("session", JObj (AgentSession_to_dict x))] extra).

Definition append_lease_event w (id session ty : string) (lease : dict json) : M unit :=
  append_or_mark w ty "ACTION_LEASE" id [("session_id", JStr session); ("lease", JObj lease)].

Definition append_supervision_event w (ty reason : string) (peer : PeerCredentials) : M unit :=
  append_or_mark w ty "SUPERVISION" (c_instance cfg)
    [("reason", JStr reason); ("peer", JObj (PeerCredentials_to_dict peer));
     ("at", JStr (iso (clock w 0)))].

(** [_persist_terminal_job]: false where it raises. *)
Definition persist_terminal_job w (loc : nat) : M bool :=
  do! l <- st_get log_of;
  match l with
  | None => st_ret true
  | Some _ =>
      do! h <- st_get heap;
      match j ← h !! loc; terminal_entry j with
      | Some e => append_event w (en_type e) (en_kind e) (en_id e) (en_payload e)
      | None => st_ret false
      end
  end.

(** ** Checks *)

Definition require_running : M unit :=
  do! s <- st_get id;
  guard (running s && negb (closed s)) "DAEMON_STOPPING".

Definition require_daemon_uid (peer : PeerCredentials) : M unit :=
  guard (uid peer =? c_euid cfg) "PERMISSION_DENIED".

(** [_reason] and [_identifier] of a text. *)
Definition check_reason (v : string) : M string :=
  run! guard (nonblank v && (len v <=? 1024)) "INVALID_ARGUMENT"; st_ret (strip v).

Definition check_identifier (v : string) : M string :=
  run! guard (printable 256 v) "INVALID_ARGUMENT"; st_ret (strip v).

(** [_require_job_owner]; the daemon itself calls without a peer. *)
Definition job_owner_ok (j : ActionJob) (peer : option PeerCredentials) : bool :=
  match peer with
  | None => true
  | Some p => (uid p =? uid (j_peer j)) || (uid p =? c_euid cfg)
  end.

Definition require_job_owner (j : ActionJob) (peer : option PeerCredentials) : M unit :=
  guard (job_owner_ok j peer) "ACTION_OWNERSHIP_MISMATCH".

(** A [SessionError] re-raised under its code. *)
Definition of_session {A} (f : SessionManager -> SessionManager * session_result A) : M A :=
  fun s => let '(m, r) := f (sess s) in (set_sess m s, map_err ControlPlaneError r).

(** ** Looking a job up *)

(** [_load_persisted_job]: a fresh object for an action only the ledger knows. *)
Definition load_persisted_job w (id : string) : M (option ActionJob) :=
  fun s => match log_of s with
  | None => (s, Ok None)
  | Some l =>
      let '(l, es) := log_read l "ACTION" in
      let s := set_pa {| tables := tables (pa s); ledger := Some l |} s in
      match es with
      | None => (set_ledger_failed true s, Err (ControlPlaneError "LEDGER_UNAVAILABLE"))
      | Some es =>
          match base.filter (fun e => en_id e = id) es with
          | [] => (s, Ok None)
          | es => match decode_persisted_job (clock w 0) (fresh_id w) es with
                  | Ok j => (s, Ok (Some j))
                  | Err _ => (s, Err Raised)
                  end
          end
      end
  end.

(** [self._jobs.get(id) or self._load_persisted_job(id)]: the job and, if the
    table has it, its location. *)
Definition find_job w (id : string) : M (option (option nat * ActionJob)) :=
  do! s <- st_get (fun s => s);
  match loc ← dget (jobs s) id; j ← heap s !! loc; Some (loc, j) with
  | Some (loc, j) => st_ret (Some (Some loc, j))
  | None => do! j <- load_persisted_job w id; st_ret (pair None <$> j)
  end.

(** [Future.cancel]; its done callback releases the queue slot. *)
Definition release_slot s : plane := set_slots (slots s + 1) s.

Definition future_cancel (loc : nat) : M bool :=
  do! f <- st_get (fun s => futures s !! loc);
  match f with
  | Some R_pending =>
      run! st_set (fun s => release_slot (set_futures (<[loc := R_cancelled]> (futures s)) s));
      st_ret true
  | Some R_cancelled => st_ret true
  | _ => st_ret false
  end.

(** [runtime.action_gateway.reject(...)] *)
Definition gateway_reject w (a : ActionEnvelope) (code message : string) (state : ActionState)
  : M ExecutionReceipt :=
  fun s => let '(g, r) := reject (gwy s) (gw_env w) a code message state in
           (set_gwy g s, Ok r).

Definition gateway_discard (id : string) : M unit :=
  st_set (fun s => set_gwy (discard_receipt (gwy s) id).1 s).

(** Store a terminal receipt in the job object. *)
Definition finish_at w (loc : nat) (st : JobState) (r : dict json) : M unit :=
  st_set (modify_job loc (finish_job st (clock w 1) r)).

(** ** Requesting an action *)

(** The loop of [_evict_terminal_jobs_locked] over a snapshot of the table. *)
Definition evict_one (id : string) : M unit :=
  run! st_set (fun s => set_jobs (dpop (jobs s) id) s);
  run! gateway_discard id;
  st_set (fun s => set_evicted (evicted s + 1) s).

Fixpoint evict_loop (target : Z) (items : dict nat) : M unit :=
  match items with
  | [] => st_ret tt
  | (id, loc) :: rest =>
      do! s <- st_get (fun s => s);
      if Z.of_nat (length (jobs s)) <=? target then st_ret tt
      else match heap s !! loc with
      | None => evict_loop target rest
      | Some j =>
          if active_state (j_state j)
             || bool_decide (execution_mode (j_action j) = REAL)
                && bool_decide (log_of s = None)
          then evict_loop target rest
          else run! evict_one id; evict_loop target rest
      end
  end.

Definition evict_terminal_jobs (reserve_slot : bool) : M unit :=
  let target := Z.max 0 (retained_capacity cfg - (if reserve_slot then 1 else 0)) in
  do! s <- st_get (fun s => s); evict_loop target (jobs s).

(** The session part of [request_action]: an unknown session is adopted. *)
Definition admit_session w (a : ActionEnvelope) (peer : PeerCredentials) : M unit :=
  do! first <- (fun s => let '(m, r) := require_action (mono w 0) (sess s) a peer in
                         (set_sess m s, Ok r));
  run! match first with
       | Ok _ => st_ret tt
       | Err code =>
           if String.eqb code "SESSION_NOT_FOUND" then
             do! _ <- of_session (fun m => adopt_action (clock w 0) (mono w 1) m a peer); st_ret tt
           else raise code
       end;
  do! _ <- of_session (fun m => require_action (mono w 2) m a peer); st_ret tt.

(** [_queue_slots.acquire(blocking=False)] *)
Definition acquire_slot : M bool :=
  do! n <- st_get slots;
  if 0 <? n then run! st_set (set_slots (n - 1)); st_ret true else st_ret false.

(** The ["ACTION_SUBMITTED"] event and the new table entry. [clock 1] is the
    reading for the lease, [clock 2] the default of [submitted_at]. *)
Definition enqueue w (a : ActionEnvelope) (peer : PeerCredentials) : M nat :=
  run! evict_terminal_jobs true;
  do! s <- st_get (fun s => s);
  run! guard (negb (retained_capacity cfg <=? Z.of_nat (length (jobs s)))) "ACTION_HISTORY_FULL";
  let ttl := lease_ttl_ms a * 1000 in
  let j := ActionJob_new a peer (clock w 2) (clock w 1) (dt_add (clock w 1) ttl) (mono w 3 + ttl) in
  let e := submitted_entry j in
  do! ok <- append_event w (en_type e) (en_kind e) (en_id e) (en_payload e);
  run! (if ok : bool then st_ret tt
        else run! mark_ledger_failure; raise "LEDGER_UNAVAILABLE");
  let loc := fresh (dom (heap s)) in
  run! st_set (fun s => set_jobs (dset (jobs s) (action_id a) loc)
                          (set_heap (<[loc := j]> (heap s)) s));
  st_ret loc.

(** [except Exception: self._jobs.pop(...); self._queue_slots.release(); raise] *)
Definition undo_enqueue (a : ActionEnvelope) (e : cp_exn) : M nat :=
  run! st_set (fun s => release_slot (set_jobs (dpop (jobs s) (action_id a)) s)); st_raise e.

(** The executor refused the task. *)
Definition scheduling_failed w (a : ActionEnvelope) (loc : nat) : M unit :=
  do! r <- gateway_reject w a "DAEMON_SCHEDULING_FAILED"
    "rosclawd could not schedule the action; no executor dispatch occurred." FAILED;
  run! finish_at w loc J_FINISHED (receipt_dict r);
  do! ok <- persist_terminal_job w loc;
  run! (if ok : bool then st_ret tt else mark_ledger_failure);
  st_set release_slot.

Definition job_dict (loc : nat) : M (dict json) :=
  do! s <- st_get (fun s => s);
  st_ret (match heap s !! loc with Some j => ActionJob_to_dict j | None => [] end).

Definition job_lease_at (loc : nat) : M (dict json) :=
  do! s <- st_get (fun s => s);
  st_ret (match heap s !! loc with Some j => job_lease j | None => [] end).

(** [self._executor.submit(self._run_action, job)] and what follows it. *)
Definition schedule w (a : ActionEnvelope) (loc : nat) : M (dict json) :=
  if pool_accepts w then
    run! st_set (fun s => set_futures (<[loc := R_pending]> (futures s)) s);
    do! lease <- job_lease_at loc;
    run! append_lease_event w (action_id a) (session_id a) "ACTION_LEASE_CREATED" lease;
    job_dict loc
  else run! scheduling_failed w a loc; job_dict loc.

(** The part of [request_action] under the lock. *)
Definition request_locked w (a : ActionEnvelope) (peer : PeerCredentials) : M (dict json) :=
  run! require_running;
  do! existing <- find_job w (action_id a);
  match existing with
  | Some (_, j) =>
      run! require_job_owner j (Some peer);
      run! guard (py_eqb (ActionEnvelope_to_dict (j_action j)) (ActionEnvelope_to_dict a))
        "ACTION_ID_CONFLICT";
      st_ret (ActionJob_to_dict j)
  | None =>
      run! guard (match deadline_at a with Some d => dt_lt (clock w 0) d | None => false end)
        "ACTION_DEADLINE_EXPIRED";
      do! s <- st_get (fun s => s);
      run! guard (negb (ledger_failed s)) "LEDGER_UNAVAILABLE";
      run! guard (negb (bool_decide (execution_mode a = REAL) && rec_required s))
        "RECOVERY_REVIEW_REQUIRED";
      do! free <- acquire_slot;
      run! guard free "ACTION_QUEUE_FULL";
      do! loc <- st_try (enqueue w a peer) (undo_enqueue a);
      schedule w a loc
  end.

(** [len(action_id) > 256 or any(ord(c) < 0x20 ...)] *)
Definition action_id_ok (a : ActionEnvelope) : bool :=
  (len (action_id a) <=? 256) && negb (has_ctrl (action_id a)).

Definition request_action w (a : ActionEnvelope) (peer : PeerCredentials) : M (dict json) :=
  run! guard (action_id_ok a) "INVALID_ACTION";
  run! admit_session w a peer;
  request_locked w a peer.

(** ** Reading and cancelling *)

Definition get_action_status w (id : string) (peer : option PeerCredentials) : M (dict json) :=
  do! found <- find_job w id;
  match found with
  | None => raise "ACTION_NOT_FOUND"
  | Some (_, j) => run! require_job_owner j peer; st_ret (ActionJob_to_dict j)
  end.

Definition get_execution_receipt w (id : string) (peer : option PeerCredentials)
  : M (dict json) :=
  do! status <- get_action_status w id peer;
  match dget status "receipt" with
  | Some (JObj r) => st_ret [("action_id", JStr id); ("receipt", JObj r)]
  | _ => raise "ACTION_NOT_FINISHED"
  end.

(** [cancel_action]. A queued job with a future is always one of the table. *)
Definition cancel_reply (id : string) (cancelled : bool) (st : JobState) (rest : dict json)
  : dict json :=
  ([("action_id", JStr id); ("cancelled", JBool cancelled); ("state", JStr (JobState_value st))] ++ rest)%list.

Definition not_cancelled (id : string) (st : JobState) : dict json :=
  cancel_reply id false st
    [("code", JStr "ACTIVE_ACTION_REQUIRES_EMERGENCY_STOP");
     ("message", JStr ("The action has started. Cancellation is not reported as a physical stop; "
                       +:+ "use emergency_stop when motion may be active."))].

Definition cancel_queued w (id : string) (loc : nat) (j : ActionJob) : M (dict json) :=
  do! r <- gateway_reject w (j_action j) "ACTION_CANCELLED_BEFORE_DISPATCH"
    "Action was cancelled while queued; no executor was dispatched." CANCELLED;
  run! finish_at w loc J_CANCELLED (receipt_dict r);
  do! ok <- persist_terminal_job w loc;
  if ok : bool then st_ret (cancel_reply id true J_CANCELLED [("receipt", JObj (receipt_dict r))])
  else run! mark_ledger_failure; raise "LEDGER_UNAVAILABLE".

Definition cancel_action w (id : string) (peer : option PeerCredentials) : M (dict json) :=
  do! found <- find_job w id;
  match found with
  | None => raise "ACTION_NOT_FOUND"
  | Some (loc, j) =>
      run! require_job_owner j peer;
      if negb (active_state (j_state j))
      then st_ret (cancel_reply id (bool_decide (j_state j = J_CANCELLED)) (j_state j)
                     [("message", JStr "Action is already terminal.")])
      else match loc with
      | Some loc =>
          if bool_decide (j_state j = J_QUEUED) then
            do! cancelled <- future_cancel loc;
            if cancelled : bool then cancel_queued w id loc j
            else st_ret (not_cancelled id (j_state j))
          else st_ret (not_cancelled id (j_state j))
      | None => st_ret (not_cancelled id (j_state j))
      end
  end.

(** ** Stopping *)

(** The first block of [emergency_stop] and of [_request_safety_stop]. *)
Definition enter_estop : M unit :=
  st_set (fun s => set_supervision ESTOPPED (set_stop_requests (stop_requests s + 1) s)).

(** [runtime.request_emergency_stop(...)]: the latch is set before anything of
    it can fail. *)
Definition runtime_stop w : M stop_outcome :=
  run! st_set (set_latched true); st_ret (stop_result w).

Definition emergency_stop w (source : string) (peer : PeerCredentials) : M (dict json) :=
  run! enter_estop;
  do! o <- runtime_stop w;
  match o with
  | StopReceipt d => st_ret (dict_update d
      [("authenticated_peer", JObj (PeerCredentials_to_dict peer));
       ("requested_source", JStr source)])
  | StopInvalid => raise "INVALID_ESTOP_RECEIPT"
  | StopRaised _ => st_raise Raised
  end.

Definition request_safety_stop w : M (dict json) :=
  run! enter_estop;
  do! o <- runtime_stop w;
  st_ret match o with
  | StopReceipt d => d
  | StopInvalid => [("final_status", JStr "FAILED"); ("error", JStr "invalid stop receipt")]
  | StopRaised m => [("final_status", JStr "FAILED"); ("error", JStr (prefix_of 512 m))]
  end.

(** Updates of a job object. *)
Definition set_override (ov : override) (j : ActionJob) : ActionJob :=
  {| j_action := j_action j; j_peer := j_peer j; j_state := j_state j;
     j_submitted_at := j_submitted_at j; j_started_at := j_started_at j;
     j_finished_at := j_finished_at j; j_receipt := j_receipt j;
     j_lease_expires_at := j_lease_expires_at j;
     j_lease_expires_monotonic := j_lease_expires_monotonic j;
     j_last_lease_renewed_at := j_last_lease_renewed_at j; j_session_lost := j_session_lost j;
     j_terminal_override := Some ov; j_stop_requested := j_stop_requested j;
     j_stop_receipt := j_stop_receipt j; j_stop_completed := j_stop_completed j |}.

Definition set_session_lost (j : ActionJob) : ActionJob :=
  {| j_action := j_action j; j_peer := j_peer j; j_state := j_state j;
     j_submitted_at := j_submitted_at j; j_started_at := j_started_at j;
     j_finished_at := j_finished_at j; j_receipt := j_receipt j;
     j_lease_expires_at := j_lease_expires_at j;
     j_lease_expires_monotonic := j_lease_expires_monotonic j;
     j_last_lease_renewed_at := j_last_lease_renewed_at j; j_session_lost := true;
     j_terminal_override := j_terminal_override j; j_stop_requested := j_stop_requested j;
     j_stop_receipt := j_stop_receipt j; j_stop_completed := j_stop_completed j |}.

Definition set_stop (requested : bool) (receipt : option (dict json)) (completed : bool)
    (j : ActionJob) : ActionJob :=
  {| j_action := j_action j; j_peer := j_peer j; j_state := j_state j;
     j_submitted_at := j_submitted_at j; j_started_at := j_started_at j;
     j_finished_at := j_finished_at j; j_receipt := j_receipt j;
     j_lease_expires_at := j_lease_expires_at j;
     j_lease_expires_monotonic := j_lease_expires_monotonic j;
     j_last_lease_renewed_at := j_last_lease_renewed_at j; j_session_lost := j_session_lost j;
     j_terminal_override := j_terminal_override j; j_stop_requested := requested;
     j_stop_receipt := receipt; j_stop_completed := completed |}.

Definition renew_lease (now : datetime) (mono : Z) (j : ActionJob) : ActionJob :=
  {| j_action := j_action j; j_peer := j_peer j; j_state := j_state j;
     j_submitted_at := j_submitted_at j; j_started_at := j_started_at j;
     j_finished_at := j_finished_at j; j_receipt := j_receipt j;
     j_lease_expires_at := Some (dt_add now (lease_ttl_ms (j_action j) * 1000));
     j_lease_expires_monotonic := mono + lease_ttl_ms (j_action j) * 1000;
     j_last_lease_renewed_at := Some now; j_session_lost := j_session_lost j;
     j_terminal_override := j_terminal_override j; j_stop_requested := j_stop_requested j;
     j_stop_receipt := j_stop_receipt j; j_stop_completed := j_stop_completed j |}.

(** [_stop_overridden_action]: the first caller stops the runtime, the others
    wait for it, at most two seconds. *)
Definition stop_lead (loc : nat) : M bool :=
  do! s <- st_get (fun s => s);
  match heap s !! loc with
  | Some j => if j_stop_requested j then st_ret false
              else run! st_set (modify_job loc
                     (fun j => set_stop true (j_stop_receipt j) (j_stop_completed j) j));
                   st_ret true
  | None => st_ret false
  end.

Definition stop_record (loc : nat) (d : dict json) : M unit :=
  st_set (modify_job loc (fun j => set_stop (j_stop_requested j) (Some d) true j)).

Definition stop_overridden_action w (loc : nat) : M unit :=
  do! leader <- stop_lead loc;
  if leader : bool then do! d <- request_safety_stop w; stop_record loc d else st_ret tt.

(** [_finish_overridden_job_locked]; nothing without an override. *)
Definition finish_overridden_job w (loc : nat) : M unit :=
  do! s <- st_get (fun s => s);
  match j ← heap s !! loc; pair j <$> j_terminal_override j with
  | Some (j, ov) =>
      do! r <- gateway_reject w (j_action j) (ov_code ov) (ov_message ov) (ov_state ov);
      run! finish_at w loc J_FINISHED (receipt_dict r);
      do! ok <- persist_terminal_job w loc;
      if ok : bool then st_ret tt else mark_ledger_failure
  | None => st_ret tt
  end.

Definition terminalize_queued_override w (loc : nat) : M unit :=
  do! s <- st_get (fun s => s);
  match heap s !! loc with
  | Some j =>
      if bool_decide (j_state j = J_QUEUED) then
        do! cancelled <- future_cancel loc;
        if cancelled : bool then finish_overridden_job w loc else st_ret tt
      else st_ret tt
  | None => st_ret tt
  end.

(** ** Running an action *)

Definition set_phase (loc : nat) (p : run_phase) : M unit :=
  st_set (fun s => set_futures (<[loc := p]> (futures s)) s).

(** The pool takes the task. *)
Definition run_take (loc : nat) : M unit :=
  do! s <- st_get (fun s => s);
  match futures s !! loc with Some R_pending => set_phase loc R_begin | _ => st_ret tt end.

Definition expired_queued (code message : string) : override :=
  {| ov_state := TIMED_OUT; ov_code := code; ov_message := message |}.

(** The override the first block of [_run_action] finds or makes. *)
Definition begin_override w (j : ActionJob) : option override :=
  match j_terminal_override j with
  | Some ov => Some ov
  | None =>
      if match deadline_at (j_action j) with Some d => dt_le d (clock w 0) | None => true end
      then Some (expired_queued "ACTION_DEADLINE_EXPIRED"
                   "Action expired while queued; no executor dispatch occurred.")
      else if j_lease_expires_monotonic j <=? mono w 0
      then Some (expired_queued "ACTION_LEASE_EXPIRED"
                   "Action lease expired while queued; no executor dispatch occurred.")
      else None
  end.

Definition started_failed w (loc : nat) (a : ActionEnvelope) : M unit :=
  run! mark_ledger_failure;
  do! r <- gateway_reject w a "DAEMON_LEDGER_WRITE_FAILED"
    ("rosclawd could not durably record action start; no executor dispatch occurred and no "
     +:+ "physical outcome is claimed.") FAILED;
  run! finish_at w loc J_FINISHED (receipt_dict r);
  set_phase loc R_return.

(** The first block of [_run_action]. *)
Definition run_begin w (loc : nat) : M unit :=
  do! s <- st_get (fun s => s);
  match heap s !! loc with
  | None => st_ret tt
  | Some j =>
      match begin_override w j with
      | Some ov =>
          run! st_set (modify_job loc (set_override ov));
          run! finish_overridden_job w loc;
          set_phase loc R_return
      | None =>
          run! st_set (modify_job loc (start_job (clock w 2)));
          let e := started_entry (start_job (clock w 2) j) in
          do! ok <- append_event w (en_type e) (en_kind e) (en_id e) (en_payload e);
          if ok : bool
          then set_phase loc (if bool_decide (execution_mode (j_action j) = REAL)
                              then R_authorize else R_submit (j_action j))
          else started_failed w loc (j_action j)
      end
  end.

(** A refusal before dispatch. *)
Definition report_reject w (loc : nat) (a : ActionEnvelope) (code message : string)
    (state : ActionState) : M unit :=
  do! r <- gateway_reject w a code message state; set_phase loc (R_report (receipt_dict r)).

Definition action_failed w (loc : nat) (a : ActionEnvelope) : M unit :=
  report_reject w loc a "DAEMON_ACTION_FAILED"
    ("rosclawd failed before a valid execution receipt was produced; no successful physical "
     +:+ "outcome is claimed.") FAILED.

(** [self.permits.authorize(action, job.peer)] for a REAL action. *)
Definition run_authorize w (loc : nat) : M unit :=
  fun s => match heap s !! loc with
  | None => (s, Ok tt)
  | Some j =>
      let a := j_action j in
      let '(p, r) := authorize (append_env w "PERMIT_CONSUMED" (action_id a)) (clock w 0) (pa s)
                       a (j_peer j) in
      let s := set_pa p s in
      match r with
      | Err LedgerFailed => st_bind mark_ledger_failure (fun _ => action_failed w loc a) s
      | Err PermitValueError => action_failed w loc a s
      | Ok d => if d_allowed d then set_phase loc (R_armed (d_authorization d)) s
                else report_reject w loc a (d_code d) (decision_message w (d_code d)) BLOCKED s
      end
  end.

(** The check that the daemon is armed, and the authorized envelope. *)
Definition authorized_payload (a : ActionEnvelope) (z : AuthorizationContext) : json :=
  JObj (dset (default [] (as_obj (ActionEnvelope_to_dict a))) "authorization"
          (AuthorizationContext_to_dict z)).

Definition run_armed w (loc : nat) (z : AuthorizationContext) : M unit :=
  do! s <- st_get (fun s => s);
  match heap s !! loc with
  | None => st_ret tt
  | Some j =>
      if bool_decide (supervision s = ARMED) then
        match ActionEnvelope_from_dict (clock w 0) (fresh_id w) (authorized_payload (j_action j) z)
        with
        | Ok x => set_phase loc (R_submit x)
        | Err _ => action_failed w loc (j_action j)
        end
      else report_reject w loc (j_action j) "RUNTIME_DISARMED"
             ("rosclawd must be explicitly armed by its service UID before REAL executor "
              +:+ "dispatch") BLOCKED
  end.

(** [Runtime.submit_action] of core/runtime.py. *)
Definition runtime_submit w (ev : nat) (a : ActionEnvelope) (lease : option ResourceLease)
    (run : X -> result string ActionExecutionResult) : M ExecutionReceipt :=
  fun s =>
    if latched s && (bool_decide (execution_mode a = SHADOW) || bool_decide (execution_mode a = REAL))
    then gateway_reject w a "EMERGENCY_STOP_LATCHED"
           ("Real or shadow execution remains blocked after emergency stop; an authorized "
            +:+ "operator must reinitialize the runtime.") BLOCKED s
    else let '(g, r) := submit (gwy s) (gw_env w) ev a lease run in (set_gwy g s, Ok r).

Definition run_submit w (loc : nat) (x : ActionEnvelope) (lease : option ResourceLease)
    (run : X -> result string ActionExecutionResult) : M unit :=
  do! r <- runtime_submit w loc x lease run; set_phase loc (R_report (receipt_dict r)).

(** [overridden = job.terminal_override is not None] *)
Definition run_report (loc : nat) (d : dict json) : M unit :=
  do! s <- st_get (fun s => s);
  set_phase loc (if bool_decide (is_Some (j ← heap s !! loc; j_terminal_override j))
                 then R_stop d else R_finish d).

Definition run_stop w (loc : nat) (d : dict json) : M unit :=
  run! stop_overridden_action w loc; set_phase loc (R_finish d).

(** [_merge_recovery_requirement_locked] *)
Definition merge_recovery (ids real_ids : list string) : M unit :=
  st_set (fun s => set_rec_required true
    (set_rec_ids (sorted_union (rec_ids s) ids)
       (set_rec_real (sorted_union (rec_real s) real_ids) s))).

(** The terminal receipt could not be stored. *)
Definition terminal_write_failed w (loc : nat) (a : ActionEnvelope) : M (dict json) :=
  run! mark_ledger_failure;
  run! (if bool_decide (execution_mode a = REAL) then
          run! merge_recovery [action_id a] [action_id a];
          run! st_set (fun s => set_stop_requests (stop_requests s + 1) s);
          do! _ <- runtime_stop w; st_ret tt
        else st_ret tt);
  run! gateway_discard (action_id a);
  do! r <- gateway_reject w a "DAEMON_LEDGER_TERMINAL_WRITE_FAILED"
    ("The executor returned, but rosclawd could not durably record the terminal receipt. The "
     +:+ "physical outcome is not trusted.") FAILED;
  run! finish_at w loc J_FINISHED (receipt_dict r);
  st_ret (receipt_dict r).

(** [receipt.get("dispatch_result", {}).get("accepted") is True] *)
Definition dispatch_accepted (d : dict json) : bool :=
  is_true_at "accepted" (get_default d "dispatch_result" (JObj [])).

(** The last block of [_run_action]. *)
Definition run_finish w (loc : nat) (d : dict json) : M unit :=
  do! s <- st_get (fun s => s);
  match heap s !! loc with
  | None => st_ret tt
  | Some j =>
      match match j_terminal_override j with
            | Some ov => apply_terminal_override (clock w 3) (clock w 4) ov j d
            | None => Ok d
            end with
      | Err _ => set_phase loc R_return
      | Ok receipt =>
          run! finish_at w loc J_FINISHED receipt;
          do! ok <- persist_terminal_job w loc;
          do! payload <- (if ok : bool then st_ret receipt
                          else terminal_write_failed w loc (j_action j));
          run! (if bool_decide (execution_mode (j_action j) = REAL) && dispatch_accepted payload
                then st_set (fun s => set_hw_actions (hw_actions s + 1) s) else st_ret tt);
          set_phase loc R_return
      end
  end.

(** The future completes and its callback releases the slot. *)
Definition run_return (loc : nat) : M unit :=
  do! s <- st_get (fun s => s);
  match futures s !! loc with
  | Some R_return => run! set_phase loc R_done; st_set release_slot
  | _ => st_ret tt
  end.

(** ** Lost sessions and the watchdog *)

Definition orphaned (p : OrphanPolicy) : override :=
  {| ov_state := ORPHANED; ov_code := "AGENT_SESSION_LOST";
     ov_message := "Owning Agent Session was lost; orphan policy " +:+ se_value p
                   +:+ " was applied." |}.

Definition owned_active (session : string) (j : ActionJob) : bool :=
  String.eqb (session_id (j_action j)) session && active_state (j_state j).

(** A running job that may continue without its session. *)
Definition may_continue (j : ActionJob) : bool :=
  bool_decide (j_state j = J_RUNNING)
  && bool_decide (orphan_policy (j_action j) = CONTINUE_UNTIL_DEADLINE).

(** The loop body of [_handle_lost_session]. *)
Definition lose_job (session : string) (j : ActionJob) : ActionJob :=
  if owned_active session j then
    let j := set_session_lost j in
    if may_continue j then j
    else match j_terminal_override j with
         | Some _ => j
         | None => set_override (orphaned (orphan_policy (j_action j))) j
         end
  else j.

(** Locations of the table's jobs that satisfy [p], in order. *)
Definition job_locs (p : ActionJob -> bool) s : list nat :=
  base.filter (fun loc => match heap s !! loc with Some j => p j | None => false end = true)
    (dvals (jobs s)).

Definition update_jobs (f : ActionJob -> ActionJob) : M unit :=
  do! s <- st_get (fun s => s); st_each (fun loc => st_set (modify_job loc f)) (dvals (jobs s)).

(** The block of [_handle_lost_session]: the queued and the running jobs to
    terminate. *)
Definition lose_jobs (session : string) : M (list nat * list nat) :=
  do! s <- st_get (fun s => s);
  let hit j := owned_active session j && negb (may_continue j) in
  let queued := job_locs (fun j => hit j && bool_decide (j_state j = J_QUEUED)) s in
  let running := job_locs (fun j => hit j && bool_decide (j_state j = J_RUNNING)) s in
  run! update_jobs (lose_job session);
  st_ret (queued, running).

(** [self.permits.revoke_session(...)]; -1 where it raised. *)
Definition revoke_for_session w (x : AgentSession) : M Z :=
  fun s =>
    let '(p, r) := revoke_session (append_env w "PERMIT_REVOKED") (pa s) (ss_session_id x)
                     ("session_" +:+ lower (SessionState_value (ss_state x))) in
    let s := set_pa p s in
    match r with
    | Ok n => (s, Ok n)
    | Err _ => (set_ledger_failed true s, Ok (-1))
    end.

Definition handle_lost_session w (x : AgentSession) : M unit :=
  do! revoked <- revoke_for_session w x;
  do! hit <- lose_jobs (ss_session_id x);
  run! st_each (terminalize_queued_override w) hit.1;
  run! st_each (stop_overridden_action w) hit.2;
  append_session_event w
    (if bool_decide (ss_state x = LOST) then "SESSION_LOST" else "SESSION_CLOSED") x
    [("revoked_permits", JInt revoked)].

(** The override the watchdog sets on one job. *)
Definition watch_override w (j : ActionJob) : option override :=
  if negb (active_state (j_state j)) || bool_decide (is_Some (j_terminal_override j)) then None
  else if deadline_expired (clock w 0) (j_action j)
  then Some {| ov_state := TIMED_OUT; ov_code := "ACTION_DEADLINE_EXPIRED";
               ov_message := "Action exceeded its immutable deadline; safety stop requested." |}
  else if (j_lease_expires_monotonic j <=? mono w 0)
          && negb (j_session_lost j
                   && bool_decide (orphan_policy (j_action j) = CONTINUE_UNTIL_DEADLINE))
  then Some {| ov_state := TIMED_OUT; ov_code := "ACTION_LEASE_EXPIRED";
               ov_message := "Action lease was not renewed; safety stop requested." |}
  else None.

Definition watch_job w (j : ActionJob) : ActionJob :=
  match watch_override w j with Some ov => set_override ov j | None => j end.

(** The block of [_watchdog_tick]. *)
Definition watch_jobs w : M (list nat * list nat) :=
  do! s <- st_get (fun s => s);
  if negb (running s) || closed s then st_ret ([], []) else
  let hit j := bool_decide (is_Some (watch_override w j)) in
  let queued := job_locs (fun j => hit j && bool_decide (j_state j = J_QUEUED)) s in
  let running := job_locs (fun j => hit j && negb (bool_decide (j_state j = J_QUEUED))) s in
  run! update_jobs (watch_job w);
  st_ret (queued, running).

Definition watchdog_tick w : M unit :=
  do! expired <- (fun s => let '(m, lost) := expire_sessions (mono w 1) (sess s) in
                           (set_sess m s, Ok lost));
  run! st_each (handle_lost_session w) expired;
  do! hit <- watch_jobs w;
  run! st_each (terminalize_queued_override w) hit.1;
  st_each (stop_overridden_action w) hit.2.

(** [_on_worker_generation_change] *)
Definition on_worker_generation_change w (worker : string) (old : option string) : M unit :=
  match old with
  | None => st_ret tt
  | Some _ =>
      run! (fun s =>
        let '(p, r) := revoke_all (append_env w "PERMIT_REVOKED") (pa s)
                         ("worker_generation_changed:" +:+ worker) in
        (match r with Ok _ => set_pa p s | Err _ => set_ledger_failed true (set_pa p s) end, Ok tt));
      do! _ <- request_safety_stop w; st_ret tt
  end.

(** ** Session methods *)

Definition cp_create_session w (session_id actor_id agent_framework : string)
    (body_scope capability_scope : list string) (ttl_ms : Z) (peer : PeerCredentials)
  : M AgentSession :=
  run! require_running;
  do! x <- of_session (fun m => create_session (clock w 0) (mono w 0) m session_id actor_id
                                  agent_framework body_scope capability_scope ttl_ms peer);
  run! append_session_event w "SESSION_CREATED" x [];
  st_ret x.

Definition heartbeat_session w (id : string) (peer : PeerCredentials) : M AgentSession :=
  run! require_running;
  st_try (of_session (fun m => heartbeat (clock w 0) (mono w 0) (mono w 1) m id peer))
    (fun e =>
       match e with
       | ControlPlaneError code =>
           run! (if String.eqb code "SESSION_EXPIRED" then
                   do! s <- st_get (fun s => s);
                   match get_session (sess s) id peer with
                   | Ok x => handle_lost_session w x
                   | Err _ => st_ret tt
                   end
                 else st_ret tt);
           st_raise e
       | Raised => st_raise e
       end).

Definition cp_close_session w (id reason : string) (peer : PeerCredentials) : M AgentSession :=
  run! require_running;
  do! x <- of_session (fun m => close_session m id peer reason);
  run! handle_lost_session w x;
  st_ret x.

Definition cp_get_session (id : string) (peer : PeerCredentials) : M AgentSession :=
  of_session (fun m => (m, get_session m id peer)).

(** The block of [renew_action_lease]; a job only the ledger knows is renewed
    as an object nothing refers to. *)
Definition renew_locked w (id session : string) (peer : PeerCredentials) : M (dict json) :=
  do! found <- find_job w id;
  match found with
  | None => raise "ACTION_NOT_FOUND"
  | Some (loc, j) =>
      run! require_job_owner j (Some peer);
      run! guard (String.eqb (session_id (j_action j)) session) "ACTION_SESSION_MISMATCH";
      run! guard (active_state (j_state j) && bool_decide (j_terminal_override j = None))
        "ACTION_NOT_ACTIVE";
      let session_peer := if uid peer =? c_euid cfg then j_peer j else peer in
      do! _ <- of_session (fun m => heartbeat (clock w 1) (mono w 0) (mono w 1) m session
                                      session_peer);
      run! match loc with
           | Some loc => st_set (modify_job loc (renew_lease (clock w 2) (mono w 2)))
           | None => st_ret tt
           end;
      st_ret (job_lease (renew_lease (clock w 2) (mono w 2) j))
  end.

Definition renew_action_lease w (id session : string) (peer : PeerCredentials) : M (dict json) :=
  run! require_running;
  do! lease <- renew_locked w id session peer;
  run! append_lease_event w id session "ACTION_LEASE_RENEWED" lease;
  st_ret lease.

(** ** Arming and permits *)

(** The block of [_arm_core]. *)
Definition arm_locked : M unit :=
  do! s <- st_get (fun s => s);
  run! guard (negb (rec_required s)) "RECOVERY_REVIEW_REQUIRED";
  run! guard (negb (latched s)) "EMERGENCY_STOP_LATCHED";
  run! guard (running s && negb (closed s)) "DAEMON_STOPPING";
  st_set (set_supervision ARMED).

Definition arm_core w (reason : string) (peer : PeerCredentials) : M unit :=
  do! normalized <- check_reason reason;
  run! arm_locked;
  append_supervision_event w "RUNTIME_ARMED" normalized peer.

Definition arm_runtime w (reason : string) (peer : PeerCredentials) : M unit :=
  run! require_daemon_uid peer; arm_core w reason peer.

Definition disarm_core w (reason : string) (peer : PeerCredentials) : M (dict json) :=
  do! normalized <- check_reason reason;
  do! receipt <- request_safety_stop w;
  run! st_set (set_supervision ESTOPPED);
  run! append_supervision_event w "RUNTIME_DISARMED" normalized peer;
  st_ret receipt.

Definition disarm_runtime w (reason : string) (peer : PeerCredentials) : M (dict json) :=
  run! require_daemon_uid peer; disarm_core w reason peer.

Definition MIN_OPERATOR_PERMIT_TTL_SEC : pyfloat := Fin 1 0.
Definition MAX_OPERATOR_PERMIT_TTL_SEC : pyfloat := Fin 300 0.

(** The checks of [_issue_permit_core] before its block. *)
Definition permit_request_ok (a : ActionEnvelope) (target_uid : Z) (ttl : pyfloat) : M unit :=
  run! guard (0 <=? target_uid) "INVALID_ARGUMENT";
  run! guard (is_finite ttl && float_le MIN_OPERATOR_PERMIT_TTL_SEC ttl
              && float_le ttl MAX_OPERATOR_PERMIT_TTL_SEC) "INVALID_ARGUMENT";
  run! guard (bool_decide (execution_mode a = REAL) || bool_decide (execution_mode a = SHADOW))
    "PERMIT_REAL_ACTION_REQUIRED";
  run! guard (nonblank (body_snapshot_hash a)) "INVALID_ACTION";
  guard (action_id_ok a) "INVALID_ACTION".

(** A permit for exactly one use of the action, and its audit record. *)
Definition permit_for w (a : ActionEnvelope) (principal : string) (target_uid : Z)
    (expires : datetime) (h : string) (context : dict json) : ExecutionPermit :=
  {| p_permit_id := "permit_" +:+ fresh_id w; p_principal_id := principal;
     p_peer_uid := target_uid; p_body_id := body_id a;
     p_body_snapshot_hash := body_snapshot_hash a; p_capabilities := [capability_id a];
     p_action_intent_hash := h; p_expires_at := expires; p_max_uses := 1;
     p_session_id := Some (session_id a); p_authorization_provenance := Some context |}.

Definition approval_record w (reason : string) (operator : PeerCredentials) (target_uid : Z)
    (context : dict json) : dict json :=
  ([("schema_version", JStr "rosclaw.daemon.operator_approval.v1");
    ("reason", JStr reason);
    ("operator_peer", JObj (PeerCredentials_to_dict operator));
    ("target_peer_uid", JInt target_uid);
    ("daemon_instance_id", JStr (c_instance cfg));
    ("issued_at", JStr (iso (clock w 0)))]
   ++ match context with [] => [] | _ => [("provenance", JObj context)] end)%list.

(** The block of [_issue_permit_core]. *)
Definition issue_locked w (a : ActionEnvelope) (reason principal : string) (target_uid : Z)
    (expires : datetime) (operator : PeerCredentials) (context : dict json) : M ExecutionPermit :=
  do! s <- st_get (fun s => s);
  run! guard (bool_decide (supervision s = ARMED)) "RUNTIME_DISARMED";
  run! guard (negb (rec_required s)) "RECOVERY_REVIEW_REQUIRED";
  run! guard (negb (ledger_failed s)) "LEDGER_UNAVAILABLE";
  run! guard (negb (latched s)) "EMERGENCY_STOP_LATCHED";
  let mode := if bool_decide (execution_mode a = REAL) then REAL else SHADOW in
  run! guard (bool_decide (is_Some (executors (gwy s) !! (capability_id a, mode))))
    "REAL_EXECUTOR_UNAVAILABLE";
  match action_intent_hash a with
  | None => st_raise Raised
  | Some h =>
      match permit_post_init (permit_for w a principal target_uid expires h context) with
      | Err _ => st_raise Raised
      | Ok p =>
          fun s =>
            let '(x, r) := register (append_env w "PERMIT_REGISTERED" (p_permit_id p)) (pa s) p
                             (Some (approval_record w reason operator target_uid context)) in
            match r with
            | Ok _ => (set_pa x s, Ok p)
            | Err _ => (set_ledger_failed true (set_pa x s),
                        Err (ControlPlaneError "LEDGER_UNAVAILABLE"))
            end
      end
  end.

Definition issue_permit_core w (a : ActionEnvelope) (principal_id : string) (target_uid : Z)
    (ttl : pyfloat) (reason : string) (operator : PeerCredentials) (context : dict json)
  : M (ExecutionPermit * json) :=
  run! require_running;
  do! reason <- check_reason reason;
  do! principal <- check_identifier principal_id;
  run! permit_request_ok a target_uid ttl;
  do! l <- st_get log_of;
  run! guard (bool_decide (is_Some l)) "PERMIT_LEDGER_REQUIRED";
  do! _ <- of_session (fun m => require_action (mono w 0) m a
                                  {| pid := 0; uid := target_uid; gid := 0 |});
  match deadline_at a with
  | None => raise "ACTION_DEADLINE_EXPIRED"
  | Some d =>
      run! guard (dt_lt (clock w 0) d) "ACTION_DEADLINE_EXPIRED";
      let expires := dt_min (dt_add (clock w 0) (float_us ttl)) d in
      do! p <- issue_locked w a reason principal target_uid expires operator context;
      st_ret (p, authorized_payload a
                   {| principal_id := principal; approved := true;
                      approval_id := Some (p_permit_id p); scopes := [capability_id a];
                      provenance := [] |})
  end.

Definition issue_execution_permit w (a : ActionEnvelope) (principal_id : string) (target_uid : Z)
    (ttl : pyfloat) (reason : string) (peer : PeerCredentials) (context : dict json)
  : M (ExecutionPermit * json) :=
  run! require_daemon_uid peer;
  issue_permit_core w a principal_id target_uid ttl reason peer context.

(** ** Recovery *)

Definition clear_recovery : M unit :=
  st_set (fun s => set_rec_required false (set_rec_ids [] (set_rec_real [] s))).

Definition strings_json (l : list string) : json := JList (map JStr l).

Definition recovery_entry (ty : string) (d : dict json) : entry :=
  {| en_type := ty; en_kind := "RECOVERY"; en_id := "rosclawd"; en_payload := d |}.

Definition acknowledged_entry w (ids real : list string) (reason : string)
    (peer : PeerCredentials) : entry :=
  recovery_entry "RECOVERY_ACKNOWLEDGED"
    [("action_ids", strings_json ids); ("real_action_ids", strings_json real);
     ("reason", JStr reason); ("acknowledged_at", JStr (iso (clock w 0)));
     ("peer", JObj (PeerCredentials_to_dict peer))].

(** [acknowledge_recovery]: whether a review was pending. *)
Definition acknowledge_recovery w (reason : string) (peer : PeerCredentials) : M bool :=
  run! guard (uid peer =? c_euid cfg) "PERMISSION_DENIED";
  let normalized := strip reason in
  run! guard (truthy_str normalized && (len normalized <=? 1024)) "INVALID_ARGUMENT";
  do! s <- st_get (fun s => s);
  if negb (rec_required s) then st_ret false
  else
    run! guard (bool_decide (is_Some (log_of s))) "RECOVERY_LEDGER_REQUIRED";
    let e := acknowledged_entry w (rec_ids s) (rec_real s) normalized peer in
    do! ok <- append_event w (en_type e) (en_kind e) (en_id e) (en_payload e);
    if ok : bool then run! clear_recovery; st_ret true
    else run! mark_ledger_failure; raise "LEDGER_UNAVAILABLE".

Definition RECOVERY_REASON : string := "interrupted_real_action_outcome_unknown".

Definition required_entry w (ids real : list string) : entry :=
  recovery_entry "RECOVERY_REQUIRED"
    [("action_ids", strings_json ids); ("real_action_ids", strings_json real);
     ("required_at", JStr (iso (clock w 0))); ("reason", JStr RECOVERY_REASON)].

(** The recovery fields while [_restore_recovery_from_ledger] runs. *)
Record recovery := { r_required : bool; r_ids : list string; r_real : list string }.

(** One event of [_restore_recovery_from_ledger]; [mode_of] gives the mode of
    the restored jobs. *)
Definition restore_required (mode_of : string -> option ExecutionMode) (r : recovery)
    (d : dict json) : result restore_exn recovery :=
  let* t := map_err as_integrity
    (let* ids := persisted_string_list (dget d "action_ids") in
     let* real := persisted_string_list (dget d "real_action_ids") in
     let* _ := parse_persisted_time (dget d "required_at") in
     Ok (ids, real)) in
  let '(ids, real) := t in
  guard! str_at d "reason" RECOVERY_REASON && subset_of real ids
         && forallb (fun i => bool_decide (is_Some (mode_of i))) ids
         && forallb (fun i => bool_decide (mode_of i = Some REAL)) real else Integrity in
  guard! negb (r_required r) || subset_of (r_ids r) ids && subset_of (r_real r) real
    else Integrity in
  Ok {| r_required := true; r_ids := sorted_union (r_ids r) ids;
        r_real := sorted_union (r_real r) real |}.

Definition restore_acknowledged (r : recovery) (d : dict json) : result restore_exn recovery :=
  guard! r_required r else Integrity in
  let* t := map_err as_integrity
    (let* ids := persisted_string_list (dget d "action_ids") in
     let* real := persisted_string_list (dget d "real_action_ids") in
     let* _ := parse_persisted_time (dget d "acknowledged_at") in
     let* raw := of_option (j ← dget d "peer"; as_obj j) ValueError in
     let* peer := persisted_peer raw in
     Ok (ids, real, peer)) in
  let '(ids, real, peer) := t in
  guard! bool_decide (ids = r_ids r) && bool_decide (real = r_real r)
         && match dget d "reason" with
            | Some (JStr reason) => nonblank reason && (len reason <=? 1024)
            | _ => false
            end
         && (uid peer =? c_euid cfg) else Integrity in
  Ok {| r_required := false; r_ids := []; r_real := [] |}.

Definition restore_recovery_step (mode_of : string -> option ExecutionMode) (r : recovery)
    (e : entry) : result restore_exn recovery :=
  if String.eqb (en_type e) "RECOVERY_REQUIRED" then restore_required mode_of r (en_payload e)
  else if String.eqb (en_type e) "RECOVERY_ACKNOWLEDGED"
  then restore_acknowledged r (en_payload e)
  else Err Integrity.

Definition recovery_none : recovery := {| r_required := false; r_ids := []; r_real := [] |}.

Definition restore_recovery (mode_of : string -> option ExecutionMode) (es : list entry)
  : result restore_exn recovery :=
  foldr_result (restore_recovery_step mode_of) es recovery_none.

(** ** Starting *)

(** [__init__] without a ledger. *)
Definition plane_new (g : ActionGateway X) (p : PermitAuthority L) : plane :=
  {| pa := p; sess := []; gwy := g; latched := false; heap := ∅; jobs := []; futures := ∅;
     slots := queue_capacity cfg; evicted := 0; supervision := STARTING; running := false;
     closed := false; hw_actions := 0; stop_requests := 0; rec_required := false; rec_ids := [];
     rec_real := []; ledger_failed := false |}.

(** Place restored jobs in the heap. *)
Definition place_jobs (js : dict ActionJob) : gmap nat ActionJob * dict nat :=
  (list_to_map (imap (fun i kv => (i, kv.2)) js), imap (fun i kv => (kv.1, i)) js).

(** [__init__] with a ledger; Operator.v adds the proposals it invalidates. *)
Definition plane_restore w (g : ActionGateway X) (l : L) : result restore_exn plane :=
  let* p := map_err (fun _ => Integrity) (start (append_env w "PERMIT_REVOKED") l) in
  let* l := of_option (ledger p) Integrity in
  let '(l, es) := log_read l "ACTION" in
  let* es := of_option es Integrity in
  let* js := restore_jobs (clock w 0) (fresh_id w) es in
  let '(l, rs) := log_read l "RECOVERY" in
  let* rs := of_option rs Integrity in
  let mode_of id := (fun j => execution_mode (j_action j)) <$> dget js id in
  let* r := restore_recovery mode_of (base.filter (fun e => en_id e = "rosclawd") rs) in
  let '(h, t) := place_jobs js in
  Ok (set_heap h (set_jobs t (set_rec_required (r_required r) (set_rec_ids (r_ids r)
        (set_rec_real (r_real r) (plane_new g {| tables := tables p; ledger := Some l |})))))).

Definition interrupted_real (j : ActionJob) : bool :=
  bool_decide (j_state j = J_RUNNING) && bool_decide (execution_mode (j_action j) = REAL).

(** The first part of [_recover_incomplete_jobs_locked]: interrupted REAL work
    becomes a pending review. *)
Definition require_review w : M unit :=
  do! s <- st_get (fun s => s);
  let unknown := sorted_set (omap (fun loc => (fun j => action_id (j_action j)) <$> heap s !! loc)
                               (job_locs interrupted_real s)) in
  match unknown with
  | [] => st_ret tt
  | _ =>
      let ids := sorted_union (rec_ids s) unknown in
      let real := sorted_union (rec_real s) unknown in
      run! (if negb (rec_required s) || negb (bool_decide (ids = rec_ids s))
               || negb (bool_decide (real = rec_real s))
            then let e := required_entry w ids real in
                 do! ok <- append_event w (en_type e) (en_kind e) (en_id e) (en_payload e);
                 st_guard ok Raised
            else st_ret tt);
      merge_recovery ids real
  end.

(** The outcome written for one incomplete job. *)
Definition recovery_outcome (j : ActionJob) : string * string * ActionState * JobState :=
  if interrupted_real j then
    ("DAEMON_RESTART_OUTCOME_UNKNOWN",
     "rosclawd restarted after REAL dispatch began. The physical outcome is unknown; E-Stop was "
     +:+ "requested and operator review is required.", FAILED, J_FINISHED)
  else if bool_decide (j_state j = J_RUNNING) then
    ("DAEMON_RESTART_INTERRUPTED",
     "rosclawd restarted before the action produced a terminal receipt.", FAILED, J_FINISHED)
  else
    ("DAEMON_RESTART_CANCELLED_BEFORE_DISPATCH",
     "rosclawd restarted while the action was queued; no executor dispatch is claimed.",
     CANCELLED, J_CANCELLED).

Definition recover_job w (loc : nat) : M unit :=
  do! s <- st_get (fun s => s);
  match heap s !! loc with
  | None => st_ret tt
  | Some j =>
      let '(code, message, final, st) := recovery_outcome j in
      do! r <- gateway_reject w (j_action j) code message final;
      run! finish_at w loc st (receipt_dict r);
      do! ok <- persist_terminal_job w loc;
      st_guard ok Raised
  end.

(** [_recover_incomplete_jobs_locked] *)
Definition recover_incomplete_jobs w : M unit :=
  do! s <- st_get (fun s => s);
  match log_of s with
  | None => st_ret tt
  | Some _ =>
      let incomplete := job_locs (fun j => active_state (j_state j)) s in
      run! require_review w;
      do! s <- st_get (fun s => s);
      run! (if rec_required s then
              run! st_set (fun s => set_stop_requests (stop_requests s + 1) s);
              do! _ <- runtime_stop w; st_ret tt
            else st_ret tt);
      st_each (recover_job w) incomplete
  end.

(** [start]; the watchdog and worker threads are left out. *)
Definition cp_start w : M unit :=
  do! s <- st_get (fun s => s);
  if closed s then st_raise Raised
  else if running s then st_ret tt
  else
    run! recover_incomplete_jobs w;
    run! evict_terminal_jobs false;
    st_set (fun s => set_running true (set_supervision DISARMED s)).

(** ** Closing *)

(** The first block of [close]: the queued jobs that have a future. *)
Definition close_begin : M (list nat) :=
  do! s <- st_get (fun s => s);
  run! st_set (fun s => set_running false (set_closed true (set_supervision STOPPING s)));
  st_ret (base.filter (fun loc => bool_decide (is_Some (futures s !! loc)) = true)
            (job_locs (fun j => bool_decide (j_state j = J_QUEUED)) s)).

(** [self._executor.shutdown(cancel_futures=True)] on the pending futures. *)
Definition pool_shutdown : M unit :=
  do! s <- st_get (fun s => s);
  st_each (fun loc => do! _ <- future_cancel loc; st_ret tt) (map_to_list (futures s)).*1.

Definition cp_close w : M unit :=
  do! s <- st_get (fun s => s);
  if closed s then st_ret tt
  else
    do! queued <- close_begin;
    run! st_each (fun loc =>
           do! s <- st_get (fun s => s);
           match heap s !! loc with
           | Some j => st_suppress (do! _ <- cancel_action w (action_id (j_action j)) None; st_ret tt)
           | None => st_ret tt
           end) queued;
    do! _ <- runtime_stop w;
    pool_shutdown.

(** ** Interleavings

    One step is one block of one thread, or one call between two blocks.
    Requests carry actions and peers the daemon decoded. *)

Definition foreign_kind (kind : string) : bool :=
  negb (bool_decide (kind ∈ ["ACTION"; "PERMIT"; "RECOVERY"])).

Inductive cstep : plane -> plane -> Prop :=
| c_session s m : sstep (sess s) m -> cstep s (set_sess m s)
| c_revoke_session s env session reason :
    nonblank reason = true ->
    cstep s (set_pa (revoke_session env (pa s) session reason).1 s)
| c_revoke_all s env reason :
    nonblank reason = true -> cstep s (set_pa (revoke_all env (pa s) reason).1 s)
| c_note s w ty kind id d :
    foreign_kind kind = true -> cstep s (append_or_mark w ty kind id d s).1
| c_mark s : cstep s (set_ledger_failed true s)
| c_request s w a peer :
    storable a -> peer_ok peer -> cstep s (request_locked w a peer s).1
| c_status s w id peer : cstep s (get_action_status w id peer s).1
| c_cancel s w id peer : cstep s (cancel_action w id peer s).1
| c_renew s w id session peer : cstep s (renew_locked w id session peer s).1
| c_arm s : cstep s (arm_locked s).1
| c_estop s : cstep s (enter_estop s).1
| c_disarmed s : cstep s (set_supervision ESTOPPED s)
| c_latch s : cstep s (set_latched true s)
| c_issue s w a reason principal target expires operator context :
    dt_wf expires ->
    cstep s (issue_locked w a reason principal target expires operator context s).1
| c_acknowledge s w reason peer : cstep s (acknowledge_recovery w reason peer s).1
| c_lose s session : cstep s (lose_jobs session s).1
| c_terminalize s w loc : cstep s (terminalize_queued_override w loc s).1
| c_stop_lead s loc : cstep s (stop_lead loc s).1
| c_stop_record s loc d : cstep s (stop_record loc d s).1
| c_watch s w : cstep s (watch_jobs w s).1
| c_take s loc : cstep s (run_take loc s).1
| c_begin s w loc : futures s !! loc = Some R_begin -> cstep s (run_begin w loc s).1
| c_authorize s w loc : futures s !! loc = Some R_authorize -> cstep s (run_authorize w loc s).1
| c_armed s w loc z : futures s !! loc = Some (R_armed z) -> cstep s (run_armed w loc z s).1
| c_submit s w loc x lease run :
    futures s !! loc = Some (R_submit x) -> cstep s (run_submit w loc x lease run s).1
| c_report s loc d : futures s !! loc = Some (R_report d) -> cstep s (run_report loc d s).1
| c_stopped s loc d : futures s !! loc = Some (R_stop d) -> cstep s (set_phase loc (R_finish d) s).1
| c_finish s w loc d : futures s !! loc = Some (R_finish d) -> cstep s (run_finish w loc d s).1
| c_return s loc : cstep s (run_return loc s).1
| c_close s : cstep s (close_begin s).1
| c_shutdown s : cstep s (pool_shutdown s).1.
End Plane.
