(* ===== verification/Queue.v ===== *)
(** The queue of the control plane: what every reachable [plane] satisfies.

    [winv] ties the action table, the job objects, their futures and the free
    slots together; [good] says that a step keeps it and changes no job that is
    terminal. Each block of ControlPlane.v is shown [good] once. *)

From S2P Require Export ControlPlane.

Section Calls.
Context {X : Type} `{EL : EventLog L Env} `{Crypto} (cfg : config).
Abbreviation plane := (plane X L).
Abbreviation io := (io Env).
Abbreviation M := (st plane cp_exn).
Implicit Types (s : plane) (w : io).

(** ** Calls that leave the queue alone *)

Lemma set_pa_id s : set_pa (pa s) s = s.
Proof. by destruct s. Qed.

Lemma append_event_eq w ty kind id d s :
  exists l ok, append_event w ty kind id d s =
    (set_pa {| tables := tables (pa s); ledger := l |} s, Ok ok) /\
    (is_Some (log_of s) -> is_Some l).
Proof.
  unfold append_event, log_of, write_event. destruct (ledger (pa s)) as [l|].
  - destruct (log_append _ _ _) as [l' ok]. do 2 eexists. split; [done|]. by eexists.
  - do 2 eexists. by split.
Qed.

Lemma gateway_reject_eq w a code message st s :
  exists g r, gateway_reject w a code message st s = (set_gwy g s, Ok r).
Proof. unfold gateway_reject. destruct (reject _ _ _ _ _ _) as [g r]. eauto. Qed.

Lemma persist_terminal_eq w loc s :
  exists p ok, persist_terminal_job w loc s = (set_pa p s, Ok ok) /\
    (is_Some (log_of s) -> is_Some (ledger p)).
Proof.
  unfold persist_terminal_job, st_bind, st_get, st_ret.
  destruct (log_of s) as [l|] eqn:E; [|exists (pa s), true; by rewrite set_pa_id].
  destruct (_ ≫= _) as [e|].
  - destruct (append_event_eq w (en_type e) (en_kind e) (en_id e) (en_payload e) s)
      as (p & ok & -> & Hl). do 2 eexists. split; [done|]. intros _. apply Hl. rewrite E. by eexists.
  - exists (pa s), false. rewrite set_pa_id. split; [done|]. intros _. unfold log_of in E.
    rewrite E. by eexists.
Qed.

Lemma load_persisted_eq w id s :
  exists p b r, load_persisted_job w id s = (set_ledger_failed b (set_pa p s), r).
Proof.
  unfold load_persisted_job.
  assert (Hid : exists p b, s = set_ledger_failed b (set_pa p s))
    by (exists (pa s), (ledger_failed s); by destruct s).
  destruct (log_of s) as [l|].
  2: { destruct Hid as (p & b & E). exists p, b, (Ok None). by rewrite <- E. }
  destruct (log_read l "ACTION") as [l' [es|]];
    [|exists {| tables := tables (pa s); ledger := Some l' |}, true; eauto].
  exists {| tables := tables (pa s); ledger := Some l' |}, (ledger_failed s).
  destruct (base.filter _ es); [eexists; by destruct s|].
  destruct (decode_persisted_job _ _ _); eexists; by destruct s.
Qed.
End Calls.

(** Symbolic execution of a method: open the monad, name the results of the
    calls that leave the queue alone, split the conditionals. *)
Ltac sx_calls :=
  match goal with
  | |- context [append_event ?w ?ty ?k ?id ?d ?s] =>
      destruct (append_event_eq w ty k id d s) as (?l & ?ok & -> & ?Hlog)
  | |- context [gateway_reject ?w ?a ?c ?m ?st ?s] =>
      destruct (gateway_reject_eq w a c m st s) as (?g & ?r & ->)
  | |- context [persist_terminal_job ?w ?loc ?s] =>
      destruct (persist_terminal_eq w loc s) as (?p & ?ok & -> & ?Hlog)
  end.

Ltac sx :=
  repeat first
    [ progress (unfold st_bind, st_ret, st_raise, st_get, st_set, guard, raise, st_guard,
                mark_ledger_failure, finish_at, gateway_discard, set_phase;
                cbn beta iota zeta delta [fst snd])
    | sx_calls ].

Ltac sx_if :=
  match goal with |- context [if ?b then _ else _] => destruct b eqn:? end; sx.

Section Queue.
Context {X : Type} `{EL : EventLog L Env} `{Crypto} (cfg : config).
Abbreviation plane := (plane X L).
Abbreviation io := (io Env).
Abbreviation M := (st plane cp_exn).
Implicit Types (s : plane) (w : io).

(** The bound on the table: the capacity, or what a restart read back. *)
Variable B : Z.
Hypothesis HB : retained_capacity cfg <= B.

(** ** The table, the futures and the slots *)

(** What a job may be while its future is in a phase; a restored job has no
    future. *)
Definition phase_ok (p : option run_phase) (j : ActionJob) : Prop :=
  match p with
  | None => True
  | Some (R_pending | R_begin) => j_state j = J_QUEUED
  | Some R_cancelled => j_state j <> J_RUNNING
  | Some (R_return | R_done) => j_state j <> J_QUEUED
  | Some _ => j_state j = J_RUNNING
  end.

Definition terminal_ok (j : ActionJob) : Prop :=
  active_state (j_state j) = false -> is_Some (j_receipt j) /\ is_Some (j_finished_at j).

(** Futures that hold a slot. *)
Definition live (f : gmap nat run_phase) : Z :=
  Z.of_nat (size (base.filter (fun kv => holds_slot kv.2 = true) f)).

Record core_ok (h : gmap nat ActionJob) (t : dict nat) (f : gmap nat run_phase) (n : Z) : Prop := {
  co_keys : dwf t;
  co_jobs : forall id loc, dget t id = Some loc ->
    exists j, h !! loc = Some j /\ action_id (j_action j) = id;
  co_heap : forall loc j, h !! loc = Some j -> phase_ok (f !! loc) j /\ terminal_ok j;
  co_futures : forall loc, is_Some (f !! loc) -> is_Some (h !! loc);
  co_slots : n + live f = queue_capacity cfg;
  co_free : 0 <= n;
  co_size : Z.of_nat (length t) <= B;
}.

Definition winv s : Prop := core_ok (heap s) (jobs s) (futures s) (slots s).

(** What may happen to a job object: its action and owner never change, and a
    terminal job keeps its state, receipt and time. *)
Definition job_evolves (j j' : ActionJob) : Prop :=
  j_action j' = j_action j /\ j_peer j' = j_peer j /\ j_submitted_at j' = j_submitted_at j /\
  (active_state (j_state j) = false ->
     j_state j' = j_state j /\ j_receipt j' = j_receipt j /\ j_finished_at j' = j_finished_at j).

Definition heap_evolves (h h' : gmap nat ActionJob) : Prop :=
  forall loc j, h !! loc = Some j -> exists j', h' !! loc = Some j' /\ job_evolves j j'.

#[local] Instance job_evolves_po : PreOrder job_evolves.
Proof.
  split; [by intros j|]. intros a b c (H1 & H2 & H3 & H4) (H5 & H6 & H7 & H8).
  split; [congruence|]. split; [congruence|]. split; [congruence|]. intros Ha.
  destruct (H4 Ha) as (E1 & E2 & E3). rewrite <- E1 in Ha. destruct (H8 Ha) as (? & ? & ?).
  repeat split; congruence.
Qed.

#[local] Instance heap_evolves_po : PreOrder heap_evolves.
Proof.
  split.
  - intros h loc j Hj. exists j. by split.
  - intros h1 h2 h3 H1 H2 loc j Hj. destruct (H1 _ _ Hj) as (j2 & Hj2 & He).
    destruct (H2 _ _ Hj2) as (j3 & Hj3 & He'). exists j3. split; [done|by etrans].
Qed.

(** One step: from a good state to a good state, evolving every job. *)
Definition good s s' : Prop := winv s -> winv s' /\ heap_evolves (heap s) (heap s').

#[local] Instance good_po : PreOrder good.
Proof.
  split; [by intros s Hs|]. intros a b c H1 H2 Ha. destruct (H1 Ha) as [Hb E1].
  destruct (H2 Hb) as [Hc E2]. split; [done|by etrans].
Qed.

Definition b2z (b : bool) : Z := if b then 1 else 0.

Definition held (p : option run_phase) : Z :=
  match p with Some p => b2z (holds_slot p) | None => 0 end.

Lemma live_insert f loc p : live (<[loc := p]> f) = live f - held (f !! loc) + b2z (holds_slot p).
Proof.
  unfold live, held, b2z.
  assert (Hd : forall q, f !! loc = Some q -> holds_slot q = true ->
    size (base.filter (fun kv : nat * run_phase => holds_slot kv.2 = true) f) =
    S (size (base.filter (fun kv : nat * run_phase => holds_slot kv.2 = true) (delete loc f)))).
  { intros q Hq Hh. rewrite <- (insert_delete_id f loc q Hq) at 1.
    rewrite map_filter_insert_True by done. rewrite map_size_insert_None; [done|].
    apply map_lookup_filter_None. left. apply lookup_delete_eq. }
  assert (Hn : (forall q, f !! loc = Some q -> holds_slot q = false) ->
    base.filter (fun kv : nat * run_phase => holds_slot kv.2 = true) f =
    base.filter (fun kv : nat * run_phase => holds_slot kv.2 = true) (delete loc f)).
  { intros Hq. rewrite map_filter_delete_not; [done|].
    intros y Hy. simpl. by rewrite (Hq _ Hy). }
  rewrite map_filter_insert. destruct (holds_slot p) eqn:Ep.
  - rewrite decide_True by done. rewrite <- insert_delete_eq, map_size_insert_None by apply lookup_delete_eq.
    rewrite <- map_filter_delete.
    destruct (f !! loc) as [q|] eqn:Eq; [destruct (holds_slot q) eqn:Eh|].
    + rewrite (Hd q) by done. lia.
    + rewrite Hn; [lia|]. by intros ? [= <-].
    + rewrite Hn; [lia|done].
  - rewrite decide_False by (simpl; congruence).
    destruct (f !! loc) as [q|] eqn:Eq; [destruct (holds_slot q) eqn:Eh|].
    + rewrite (Hd q) by done. lia.
    + rewrite <- Hn; [lia|]. by intros ? [= <-].
    + rewrite <- Hn; [lia|done].
Qed.

(** ** Changing one job *)

Lemma core_update h t f n loc j j' p n' :
  core_ok h t f n -> h !! loc = Some j -> j_action j' = j_action j ->
  phase_ok (Some p) j' -> terminal_ok j' -> n' = n + held (f !! loc) - b2z (holds_slot p) ->
  0 <= n' -> core_ok (<[loc := j']> h) t (<[loc := p]> f) n'.
Proof.
  intros [Hk Hj Hh Hf Hs Hn Hz] Hl Ha Hp Ht -> Hn'. constructor; [done|..].
  - intros id l Hd. destruct (Hj _ _ Hd) as (x & Hx & Hid).
    destruct (decide (loc = l)) as [<-|Hne].
    + exists j'. rewrite lookup_insert_eq. split; [done|]. simplify_eq. by rewrite Ha.
    + exists x. by rewrite lookup_insert_ne.
  - intros l x. destruct (decide (loc = l)) as [<-|Hne].
    + rewrite !lookup_insert_eq. intros [= <-]. done.
    + rewrite !lookup_insert_ne by done. apply Hh.
  - intros l. destruct (decide (loc = l)) as [<-|Hne].
    + rewrite !lookup_insert_eq. intros _. by eexists.
    + rewrite !lookup_insert_ne by done. apply Hf.
  - rewrite live_insert. lia.
  - done.
  - done.
Qed.

Lemma core_job h t f n loc j j' :
  core_ok h t f n -> h !! loc = Some j -> j_action j' = j_action j ->
  phase_ok (f !! loc) j' -> terminal_ok j' -> core_ok (<[loc := j']> h) t f n.
Proof.
  intros Hc Hl Ha Hp Ht. destruct (f !! loc) as [p|] eqn:E.
  - assert (Hu : core_ok (<[loc := j']> h) t (<[loc := p]> f) n).
    { eapply core_update; eauto; [|apply Hc]. rewrite E. unfold held. lia. }
    by rewrite (insert_id f loc p E) in Hu.
  - destruct Hc as [Hk Hj Hh Hf Hs Hn Hz]. constructor; try done.
    + intros id l Hd. destruct (Hj _ _ Hd) as (x & Hx & Hid).
      destruct (decide (loc = l)) as [<-|Hne].
      * exists j'. rewrite lookup_insert_eq. split; [done|]. simplify_eq. by rewrite Ha.
      * exists x. by rewrite lookup_insert_ne.
    + intros l x. destruct (decide (loc = l)) as [<-|Hne].
      * rewrite lookup_insert_eq. intros [= <-]. by rewrite E.
      * rewrite lookup_insert_ne by done. apply Hh.
    + intros l Hl'. destruct (decide (loc = l)) as [<-|Hne]; [rewrite lookup_insert_eq; by eexists|].
      rewrite lookup_insert_ne by done. by apply Hf.
Qed.

Lemma core_phase h t f n loc j p n' :
  core_ok h t f n -> h !! loc = Some j -> phase_ok (Some p) j ->
  n' = n + held (f !! loc) - b2z (holds_slot p) -> 0 <= n' ->
  core_ok h t (<[loc := p]> f) n'.
Proof.
  intros Hc Hl Hp Hn Hn'.
  assert (Hu : core_ok (<[loc := j]> h) t (<[loc := p]> f) n').
  { eapply core_update; eauto. apply (co_heap _ _ _ _ Hc _ _ Hl). }
  by rewrite (insert_id h loc j Hl) in Hu.
Qed.

Lemma evolves_update h loc j j' :
  h !! loc = Some j -> job_evolves j j' -> heap_evolves h (<[loc := j']> h).
Proof.
  intros Hl He l x Hx. destruct (decide (loc = l)) as [<-|Hne].
  - exists j'. rewrite lookup_insert_eq. split; [done|]. by simplify_eq.
  - exists x. rewrite lookup_insert_ne by done. by split.
Qed.

Lemma alter_at {A} (f : A -> A) (h : gmap nat A) loc j :
  h !! loc = Some j -> alter f loc h = <[loc := f j]> h.
Proof.
  intros Hl. apply map_eq. intros i. destruct (decide (loc = i)) as [<-|Hne].
  - by rewrite lookup_alter_eq, lookup_insert_eq, Hl.
  - by rewrite lookup_alter_ne, lookup_insert_ne.
Qed.

Lemma core_shrink h t t' f n :
  core_ok h t f n -> dwf t' -> (forall id l, dget t' id = Some l -> dget t id = Some l) ->
  (length t' <= length t)%nat -> core_ok h t' f n.
Proof.
  intros [Hk Hj Hh Hf Hs Hn Hz] Hw Hsub Hl. constructor; try done; [|lia].
  intros id loc Hd. by apply Hj, Hsub.
Qed.

Lemma core_alloc h t f n loc j :
  core_ok h t f n -> h !! loc = None -> terminal_ok j -> Z.of_nat (length t) < B ->
  core_ok (<[loc := j]> h) (dset t (action_id (j_action j)) loc) f n.
Proof.
  intros [Hk Hj Hh Hf Hs Hn Hz] Hl Ht Hlt.
  assert (Hfl : f !! loc = None).
  { destruct (f !! loc) eqn:E; [|done]. destruct (Hf loc) as [? Hx]; [by eexists|congruence]. }
  constructor; try done.
  - by apply dwf_dset.
  - intros id l. rewrite dget_dset. case_decide as Hid; [intros [= <-]|].
    + exists j. by rewrite lookup_insert_eq.
    + intros Hd. destruct (Hj _ _ Hd) as (x & Hx & He). exists x.
      rewrite lookup_insert_ne; [done|]. intros <-. congruence.
  - intros l x. destruct (decide (loc = l)) as [<-|Hne].
    + rewrite lookup_insert_eq, Hfl. intros [= <-]. done.
    + rewrite lookup_insert_ne by done. apply Hh.
  - intros l Hx. destruct (decide (loc = l)) as [<-|Hne].
    + rewrite lookup_insert_eq. by eexists.
    + rewrite lookup_insert_ne by done. by apply Hf.
  - rewrite length_dset. destruct (dhas _ _); lia.
Qed.

Lemma evolves_alloc h loc j : h !! loc = None -> heap_evolves h (<[loc := j]> h).
Proof.
  intros Hl l x Hx. exists x. rewrite lookup_insert_ne; [by split|]. intros <-. congruence.
Qed.

(** A step that leaves the four components alone. *)
Lemma good_frame s s' :
  heap s' = heap s -> jobs s' = jobs s -> futures s' = futures s -> slots s' = slots s ->
  good s s'.
Proof. intros E1 E2 E3 E4 Hw. unfold winv. rewrite E1, E2, E3, E4. by split. Qed.

Lemma append_or_mark_frame w ty kind id d s : good s (append_or_mark w ty kind id d s).1.
Proof. unfold append_or_mark. sx. destruct ok; by apply good_frame. Qed.

Lemma find_job_eq w id s :
  exists p b r, find_job w id s = (set_ledger_failed b (set_pa p s), r) /\
    forall loc j, r = Ok (Some (Some loc, j)) -> dget (jobs s) id = Some loc /\ heap s !! loc = Some j.
Proof.
  unfold find_job, st_bind, st_get, st_ret. cbn beta iota.
  destruct (dget (jobs s) id ≫= _) as [[loc j]|] eqn:E.
  - exists (pa s), (ledger_failed s). eexists. split; [by destruct s|].
    intros loc' j' [= -> ->]. destruct (dget (jobs s) id) as [l|]; [|done]. simpl in E.
    destruct (heap s !! l) eqn:El; [|done]. simpl in E. by simplify_eq.
  - destruct (load_persisted_eq w id s) as (p & b & r & ->).
    exists p, b. destruct r as [[x|]|e]; eexists; (split; [reflexivity|]); by intros loc j [=].
Qed.

(** Eviction only forgets table entries. *)
Record shrinks s s' : Prop := {
  sh_heap : heap s' = heap s;
  sh_futures : futures s' = futures s;
  sh_slots : slots s' = slots s;
  sh_keys : dwf (jobs s) -> dwf (jobs s');
  sh_size : (length (jobs s') <= length (jobs s))%nat;
  sh_jobs : forall id l, dwf (jobs s) -> dget (jobs s') id = Some l -> dget (jobs s) id = Some l;
}.

#[local] Instance shrinks_po : PreOrder shrinks.
Proof.
  split; [by constructor|]. intros a b c [] []. constructor; try congruence; auto; lia.
Qed.

Lemma shrinks_frame s s' :
  heap s' = heap s -> futures s' = futures s -> slots s' = slots s -> jobs s' = jobs s ->
  shrinks s s'.
Proof. intros E1 E2 E3 E4. constructor; by rewrite ?E4. Qed.

Lemma shrinks_evict_loop target items : keeps shrinks (evict_loop target items).
Proof.
  induction items as [|[id loc] items IH]; [apply keeps_ret, _|].
  cbn [evict_loop]. apply keeps_bind; [apply _|apply keeps_get, _|]. intros s0.
  case_match; [apply keeps_ret, _|]. case_match; [|done]. case_match; [done|].
  apply keeps_bind; [apply _| |done]. intros s. unfold evict_one. sx.
  constructor; cbn; try done; [by apply dwf_dpop|apply length_dpop_le|].
  intros i l Hw Hd. destruct (decide (id = i)) as [->|Hne].
  - by rewrite dget_dpop_eq in Hd.
  - by rewrite dget_dpop_ne in Hd.
Qed.

Lemma shrinks_evict b : keeps shrinks (evict_terminal_jobs cfg b).
Proof.
  apply keeps_bind; [apply _|apply keeps_get, _|]. intros s. apply shrinks_evict_loop.
Qed.

(** ** Requests *)

(** The job a request creates. *)
Definition requested_job w (a : ActionEnvelope) (peer : PeerCredentials) : ActionJob :=
  ActionJob_new a peer (clock w 2) (clock w 1) (dt_add (clock w 1) (lease_ttl_ms a * 1000))
    (mono w 3 + lease_ttl_ms a * 1000).

Definition fresh_loc s : nat := fresh (dom (heap s)).

Lemma fresh_loc_free s : heap s !! fresh_loc s = None.
Proof. apply not_elem_of_dom. unfold fresh_loc. apply (is_fresh (dom (heap s))). Qed.

Lemma enqueue_spec w a peer s s' r :
  enqueue cfg w a peer s = (s', r) ->
  (exists e, r = Err e /\ shrinks s s') \/
  (exists s1, r = Ok (fresh_loc s) /\ shrinks s s1 /\
     Z.of_nat (length (jobs s1)) < retained_capacity cfg /\
     heap s' = <[fresh_loc s := requested_job w a peer]> (heap s) /\
     jobs s' = dset (jobs s1) (action_id a) (fresh_loc s) /\
     futures s' = futures s /\ slots s' = slots s).
Proof.
  unfold enqueue. pose proof (shrinks_evict true s) as Hs.
  unfold st_bind at 1. destruct (evict_terminal_jobs cfg true s) as [s1 [u|e]]; simpl in Hs.
  2: { intros [= <- <-]. left. eauto. }
  sx. destruct (retained_capacity cfg <=? _) eqn:Hc; breflect; cbn; sx.
  { intros [= <- <-]. left. eauto. }
  destruct ok; cbn; intros [= <- <-].
  - right. exists s1. unfold fresh_loc. rewrite <- (sh_heap _ _ Hs). cbn.
    repeat (split; [done|]). split; [|apply Hs]. apply Hs.
  - left. eexists. split; [done|]. etrans; [exact Hs|]. by apply shrinks_frame.
Qed.

Lemma good_job_state loc f s j :
  heap s !! loc = Some j -> job_evolves j (f j) -> phase_ok (futures s !! loc) (f j) ->
  terminal_ok (f j) -> good s (modify_job loc f s).
Proof.
  intros Hl He Hp Ht Hw. split.
  - unfold winv, modify_job. cbn. rewrite (alter_at _ _ _ _ Hl).
    eapply core_job; eauto. apply He.
  - cbn. rewrite (alter_at _ _ _ _ Hl). by eapply evolves_update.
Qed.

Lemma good_request w a peer : keeps good (request_locked cfg w a peer).
Proof.
  apply keeps_bind; [apply _|intros s; unfold require_running; sx; by destruct (_ && _)|].
  intros _ s. unfold st_bind at 1.
  destruct (find_job_eq w (action_id a) s) as (p & b & r & -> & _).
  set (s0 := set_ledger_failed b (set_pa p s)).
  assert (H0 : good s s0) by (by apply good_frame).
  destruct r as [[[loc j]|]|e]; [| |exact H0].
  - unfold require_job_owner. sx. do 2 (sx_if; [|exact H0]). exact H0.
  - sx. do 3 (sx_if; [|exact H0]). unfold acquire_slot. sx.
    destruct (0 <? slots s0) eqn:Hn; [|exact H0]. breflect. cbn beta iota.
    unfold st_try. destruct (enqueue cfg w a peer (set_slots (slots s0 - 1) s0)) as [s1 r] eqn:He.
    apply enqueue_spec in He as [(e & -> & Hs)|(s2 & -> & Hs & Hcap & Eh & Ej & Ef & Es)].
    + (* the submission was refused *)
      unfold undo_enqueue. sx. intros Hw. destruct Hs as [Eh Ef Es Hk Hz Hd]. cbn in *.
      split; [|by rewrite Eh].
      unfold winv. cbn. rewrite Eh, Ef, Es. replace (slots s - 1 + 1) with (slots s) by lia.
      apply (core_shrink _ (jobs s)); [done|apply dwf_dpop, Hk, Hw| |];
        [|etrans; [apply length_dpop_le|exact Hz]].
      intros i l. destruct (decide (action_id a = i)) as [<-|Hne].
      { by rewrite dget_dpop_eq. }
      rewrite dget_dpop_ne by done. apply Hd, Hw.
    + (* the job is in the table *)
      set (loc := fresh_loc _) in *. set (j := requested_job w a peer) in *.
      assert (Hfree : heap s !! loc = None) by (unfold loc, fresh_loc; apply (fresh_loc_free s)).
      destruct Hs as [_ _ _ Hk Hz Hd]. cbn in Eh, Ef, Es, Hk, Hz, Hd.
      assert (Hc : winv s -> core_ok (<[loc := j]> (heap s)) (jobs s1) (futures s) (slots s)).
      { intros Hw. rewrite Ej. apply core_alloc; [|done|done|lia].
        apply (core_shrink _ (jobs s)); [done|apply Hk, Hw| |exact Hz].
        intros i l. apply Hd, Hw. }
      assert (Hfl : winv s -> futures s !! loc = None).
      { intros Hw. destruct (futures s !! loc) eqn:E; [|done].
        destruct (co_futures _ _ _ _ Hw loc) as [? Hx]; [by eexists|congruence]. }
      unfold schedule. destruct (pool_accepts w).
      * sx. unfold job_lease_at, append_lease_event, append_or_mark. sx. unfold job_dict. sx.
        intros Hw.
        assert (Hg : core_ok (<[loc := j]> (heap s)) (jobs s1) (<[loc := R_pending]> (futures s))
                       (slots s - 1)).
        { eapply core_phase; [by apply Hc|by rewrite lookup_insert_eq|done| |].
          - rewrite Hfl by done. cbn. lia.
          - cbn in Hn. lia. }
        destruct ok; cbn; (split; [unfold winv; cbn; by rewrite Eh, Ef, Es|]);
          rewrite Eh; by apply evolves_alloc.
      * unfold scheduling_failed. sx. unfold job_dict.
        intros Hw.
        assert (Hg : forall r, core_ok (alter (finish_job J_FINISHED (clock w 1) r) loc
                       (<[loc := j]> (heap s))) (jobs s1) (futures s) (slots s)).
        { intros r'. rewrite (alter_at _ _ _ j) by apply lookup_insert_eq.
          eapply core_job; [exact (Hc Hw)|apply lookup_insert_eq|done| |].
          - by rewrite Hfl.
          - intros _. split; by eexists. }
        destruct ok; cbn; (split; [unfold winv; cbn; rewrite Eh, Ef, Es;
            replace (slots s - 1 + 1) with (slots s) by lia; apply Hg|]);
          rewrite Eh, (alter_at _ _ _ j), insert_insert_eq by apply lookup_insert_eq;
          by apply evolves_alloc.
Qed.

(** ** Reading, cancelling, renewing *)

Lemma good_find_frame w id s p b r :
  find_job w id s = (set_ledger_failed b (set_pa p s), r) -> good s (set_ledger_failed b (set_pa p s)).
Proof. intros _. by apply good_frame. Qed.

Lemma good_status w id peer : keeps good (get_action_status cfg w id peer).
Proof.
  intros s. unfold get_action_status. sx.
  destruct (find_job_eq w id s) as (p & b & r & Hf & _). rewrite Hf.
  apply good_find_frame in Hf. destruct r as [[[loc j]|]|e]; [|exact Hf..].
  unfold require_job_owner. sx. by sx_if.
Qed.

(** What [future_cancel] answers, and what it changes. *)
Lemma future_cancel_spec loc s s' r :
  future_cancel loc s = (s', r) ->
  (r = Ok true /\ futures s !! loc = Some R_pending /\
     s' = release_slot (set_futures (<[loc := R_cancelled]> (futures s)) s)) \/
  (r = Ok true /\ futures s !! loc = Some R_cancelled /\ s' = s) \/ (r = Ok false /\ s' = s).
Proof.
  unfold future_cancel. sx. destruct (futures s !! loc) as [[]|]; intros [= <- <-]; auto.
Qed.

(** Finishing a queued job whose future was just cancelled. *)
Lemma core_cancel_finish s s1 loc j st t d :
  future_cancel loc s = (s1, Ok true) -> heap s !! loc = Some j -> j_state j = J_QUEUED ->
  active_state st = false -> winv s ->
  core_ok (alter (finish_job st t d) loc (heap s)) (jobs s) (futures s1) (slots s1) /\
  heap_evolves (heap s) (alter (finish_job st t d) loc (heap s)) /\
  heap s1 = heap s /\ jobs s1 = jobs s.
Proof.
  intros Hc Hl Hq Hst Hw. rewrite (alter_at _ _ _ _ Hl).
  assert (Hn : finish_job st t d j = finish_job st t d j) by done.
  assert (Hp : phase_ok (Some R_cancelled) (finish_job st t d j)) by (simpl; by intros ->).
  assert (Ht : terminal_ok (finish_job st t d j)) by (intros _; split; by eexists).
  assert (He : heap_evolves (heap s) (<[loc := finish_job st t d j]> (heap s))).
  { apply (evolves_update _ _ j); [done|]. repeat (split; [done|]). by rewrite Hq. }
  apply future_cancel_spec in Hc as [(_ & Hf & ->)|[(_ & Hf & ->)|[? _]]]; [| |done].
  - split; [|done]. cbn. eapply core_update; try done; [rewrite Hf; cbn; lia|].
    pose proof (co_free _ _ _ _ Hw). lia.
  - split; [|done]. eapply core_job; try done. by rewrite Hf.
Qed.

Lemma good_cancel w id peer : keeps good (cancel_action cfg w id peer).
Proof.
  intros s. unfold cancel_action. sx.
  destruct (find_job_eq w id s) as (p & b & r & Hf & Hloc). rewrite Hf.
  apply good_find_frame in Hf. set (s0 := set_ledger_failed b (set_pa p s)) in *.
  destruct r as [[[loc j]|]|e]; [|exact Hf..].
  unfold require_job_owner. sx. sx_if; [|exact Hf]. sx_if; [exact Hf|].
  destruct loc as [loc|]; [|exact Hf]. destruct (Hloc loc j eq_refl) as [_ Hl].
  sx_if; [|exact Hf]. breflect.
  destruct (future_cancel loc s0) as [s1 r] eqn:Hc.
  pose proof (future_cancel_spec _ _ _ _ Hc) as [(-> & _)|[(-> & _)|[-> ->]]]; [| |exact Hf].
  all: unfold cancel_queued; sx; intros Hw;
    (destruct (core_cancel_finish s0 s1 loc j J_CANCELLED (clock w 1)
                 (receipt_dict r) Hc Hl) as (H1 & H2 & Eh & Ej); [done..|]);
    destruct ok; cbn; (split; [unfold winv; cbn|cbn]); rewrite ?Eh, ?Ej; done.
Qed.

Lemma soft_evolves j j' :
  j_action j' = j_action j -> j_peer j' = j_peer j -> j_submitted_at j' = j_submitted_at j ->
  j_state j' = j_state j -> j_receipt j' = j_receipt j -> j_finished_at j' = j_finished_at j ->
  job_evolves j j'.
Proof. by repeat split. Qed.

(** An update that touches neither state nor receipt. *)
Definition soft (f : ActionJob -> ActionJob) : Prop := forall j,
  j_action (f j) = j_action j /\ j_peer (f j) = j_peer j /\
  j_submitted_at (f j) = j_submitted_at j /\ j_started_at (f j) = j_started_at j /\
  j_state (f j) = j_state j /\ j_receipt (f j) = j_receipt j /\
  j_finished_at (f j) = j_finished_at j.

Lemma good_soft f loc s : soft f -> good s (modify_job loc f s).
Proof.
  intros Hf Hw. destruct (heap s !! loc) as [j|] eqn:Hl.
  - destruct (Hf j) as (H1 & H2 & H3 & _ & H4 & H5 & H6).
    destruct (co_heap _ _ _ _ Hw _ _ Hl) as [Hp Ht].
    eapply good_job_state; eauto.
    + by apply soft_evolves.
    + unfold phase_ok in *. by rewrite H4.
    + unfold terminal_ok in *. by rewrite H4, H5, H6.
  - split; [|cbn]; [unfold winv, modify_job; cbn|]; by rewrite alter_id by congruence.
Qed.

Lemma good_update_jobs f : soft f -> keeps good (update_jobs f).
Proof.
  intros Hf. apply keeps_bind; [apply _|apply keeps_get, _|]. intros s.
  apply keeps_each; [apply _|]. intros loc. apply keeps_set. intros s'. by apply good_soft.
Qed.

Lemma soft_override ov : soft (set_override ov).
Proof. by repeat split. Qed.
Lemma soft_lost : soft set_session_lost.
Proof. by repeat split. Qed.
Lemma soft_stop f g h : soft (fun j => set_stop (f j) (g j) (h j) j).
Proof. by repeat split. Qed.
Lemma soft_renew now m : soft (renew_lease now m).
Proof. by repeat split. Qed.

Lemma soft_lose session : soft (lose_job session).
Proof.
  intros j. unfold lose_job. destruct (owned_active session j); [|by repeat split].
  cbv zeta. destruct (may_continue _); [by repeat split|].
  destruct (j_terminal_override _); by repeat split.
Qed.

Lemma soft_watch w : soft (watch_job w).
Proof. intros j. unfold watch_job. destruct (watch_override w j); by repeat split. Qed.

Lemma good_lose session : keeps good (lose_jobs session).
Proof.
  apply keeps_bind; [apply _|apply keeps_get, _|]. intros s.
  apply keeps_bind; [apply _|apply good_update_jobs, soft_lose|]. intros _. apply keeps_ret, _.
Qed.

Lemma good_watch w : keeps good (watch_jobs w).
Proof.
  apply keeps_bind; [apply _|apply keeps_get, _|]. intros s. case_match; [apply keeps_ret, _|].
  apply keeps_bind; [apply _|apply good_update_jobs, soft_watch|]. intros _. apply keeps_ret, _.
Qed.

Lemma of_session_frame {A} (f : SessionManager -> SessionManager * session_result A) s :
  exists m r, of_session f s = (set_sess m s, r).
Proof. unfold of_session. destruct (f (sess s)) as [m r]. eauto. Qed.

Lemma good_renew w id session peer : keeps good (renew_locked cfg w id session peer).
Proof.
  intros s. unfold renew_locked. sx.
  destruct (find_job_eq w id s) as (p & b & r & Hf & Hloc). rewrite Hf.
  apply good_find_frame in Hf. set (s0 := set_ledger_failed b (set_pa p s)) in *.
  destruct r as [[[loc j]|]|e]; [|exact Hf..].
  unfold require_job_owner. sx. do 3 (sx_if; [|exact Hf]).
  match goal with |- context [of_session ?f s0] =>
         destruct (of_session_frame f s0) as (m & r & ->) end.
  destruct r as [x|e]; [|etrans; [exact Hf|by apply good_frame]].
  destruct loc as [loc|]; sx; [|etrans; [exact Hf|by apply good_frame]].
  etrans; [exact Hf|]; etrans; [|apply good_soft, soft_renew]; by apply good_frame.
Qed.

(** ** Stopping and running *)

Lemma finish_overridden_eq w loc s :
  exists p g b, (exists t d, finish_overridden_job w loc s =
      (set_ledger_failed b (set_pa p (modify_job loc (finish_job J_FINISHED t d) (set_gwy g s))),
       Ok tt)) \/
    finish_overridden_job w loc s = (s, Ok tt) /\
      (forall j, heap s !! loc = Some j -> j_terminal_override j = None).
Proof.
  unfold finish_overridden_job. sx. destruct (heap s !! loc) as [j|] eqn:Hl.
  2: { exists (pa s), (gwy s), false. right. by split. }
  cbn [mbind option_bind]. destruct (j_terminal_override j) as [ov|] eqn:Hov.
  2: { exists (pa s), (gwy s), false. right. split; [done|]. by intros ? [= <-]. }
  cbn [fmap option_fmap option_map]. sx. destruct ok; sx; exists p, g.
  - exists (ledger_failed s). left. by do 2 eexists.
  - exists true. left. by do 2 eexists.
Qed.

Lemma good_terminalize w loc : keeps good (terminalize_queued_override w loc).
Proof.
  intros s. unfold terminalize_queued_override. sx. destruct (heap s !! loc) as [j|] eqn:Hl; [|done].
  sx_if; [|done]. breflect.
  destruct (future_cancel loc s) as [s1 r] eqn:Hc.
  pose proof (future_cancel_spec _ _ _ _ Hc) as [(-> & Hf & Es)|[(-> & Hf & Es)|[-> ->]]]; [| |done].
  all: destruct (finish_overridden_eq w loc s1) as (p & g & b & [(t & d & ->)|[-> _]]); cbn;
    intros Hw.
  all: destruct (core_cancel_finish s s1 loc j J_FINISHED (clock w 1) [] Hc Hl)
         as (_ & _ & Eh & Ej); [done..|].
  1,3: destruct (core_cancel_finish s s1 loc j J_FINISHED t d Hc Hl)
         as (H1 & H2 & _); [done..|]; split; [unfold winv; cbn|cbn]; rewrite ?Eh, ?Ej; done.
  - split; [|by rewrite Eh]. unfold winv. rewrite Es. cbn.
    eapply core_phase; [exact Hw|exact Hl| | |].
    + cbn. congruence.
    + rewrite Hf. cbn. lia.
    + pose proof (co_free _ _ _ _ Hw). lia.
  - by rewrite Es.
Qed.

Lemma good_stop_lead loc : keeps good (stop_lead loc).
Proof.
  intros s. unfold stop_lead. sx. destruct (heap s !! loc) as [j|]; [|done].
  sx_if; [done|]. apply good_soft, soft_stop.
Qed.

Lemma good_stop_record loc d : keeps good (stop_record loc d).
Proof. intros s. apply good_soft, soft_stop. Qed.

(** Moving a job's thread from one phase to the next. *)
Lemma good_phase s loc p q j :
  heap s !! loc = Some j -> futures s !! loc = Some p -> phase_ok (Some q) j ->
  holds_slot p = true -> holds_slot q = true -> good s (set_futures (<[loc := q]> (futures s)) s).
Proof.
  intros Hl Hf Hq Hp Hs Hw. split; [|done]. unfold winv. cbn.
  eapply core_phase; [exact Hw|exact Hl|exact Hq| |apply Hw].
  rewrite Hf. cbn. rewrite Hp, Hs. cbn. lia.
Qed.

(** The job behind a future. *)
Lemma future_job s loc p :
  winv s -> futures s !! loc = Some p ->
  exists j, heap s !! loc = Some j /\ phase_ok (Some p) j /\ terminal_ok j.
Proof.
  intros Hw Hf. destruct (co_futures _ _ _ _ Hw loc) as [j Hj]; [by eexists|].
  exists j. split; [done|]. rewrite <- Hf. by apply (co_heap _ _ _ _ Hw).
Qed.

Lemma good_take loc : keeps good (run_take loc).
Proof.
  intros s. unfold run_take. sx. destruct (futures s !! loc) as [[]|] eqn:Hf; try done.
  intros Hw. destruct (future_job _ _ _ Hw Hf) as (j & Hl & Hp & _).
  by eapply good_phase.
Qed.

Lemma good_return loc : keeps good (run_return loc).
Proof.
  intros s. unfold run_return. sx. destruct (futures s !! loc) as [[]|] eqn:Hf; try done.
  intros Hw. destruct (future_job _ _ _ Hw Hf) as (j & Hl & Hp & _).
  split; [|done]. unfold winv. cbn. eapply core_phase; [exact Hw|exact Hl|exact Hp| |].
  - rewrite Hf. cbn. lia.
  - pose proof (co_free _ _ _ _ Hw). lia.
Qed.

(** The thread's job ends [f j] and its phase [q]. *)
Lemma good_job_phase s s' loc p q j f :
  heap s !! loc = Some j -> futures s !! loc = Some p -> job_evolves j (f j) ->
  phase_ok (Some q) (f j) -> terminal_ok (f j) -> holds_slot p = true -> holds_slot q = true ->
  heap s' = alter f loc (heap s) -> jobs s' = jobs s ->
  futures s' = <[loc := q]> (futures s) -> slots s' = slots s -> good s s'.
Proof.
  intros Hl Hf He Hq Ht Hp Hs Eh Ej Ef Es Hw. rewrite (alter_at _ _ _ _ Hl) in Eh.
  unfold winv. rewrite Eh, Ej, Ef, Es. split; [|by apply (evolves_update _ _ j)].
  eapply core_update; eauto; [apply He| |apply Hw].
  rewrite Hf. cbn. rewrite Hp, Hs. cbn. lia.
Qed.

Lemma alter_alter {A} (f g : A -> A) (h : gmap nat A) loc :
  alter f loc (alter g loc h) = alter (fun x => f (g x)) loc h.
Proof.
  apply map_eq. intros i. destruct (decide (loc = i)) as [<-|].
  - rewrite !lookup_alter_eq. by destruct (h !! loc).
  - by rewrite !lookup_alter_ne.
Qed.

Lemma finish_evolves st t d j : active_state (j_state j) = true ->
  job_evolves j (finish_job st t d j) /\ terminal_ok (finish_job st t d j).
Proof.
  intros Ha. split; [repeat (split; [done|]); congruence|]. intros _. split; by eexists.
Qed.

Lemma good_begin w loc s :
  futures s !! loc = Some R_begin -> good s (run_begin w loc s).1.
Proof.
  intros Hf Hw. refine ((_ : good s _) Hw). unfold run_begin. sx.
  destruct (heap s !! loc) as [j|] eqn:Hl; [|done].
  destruct (future_job _ _ _ Hw Hf) as (j0 & Hl0 & Hq & _). simplify_eq. cbn in Hq.
  assert (Ha : active_state (j_state j) = true) by (by rewrite Hq).
  destruct (begin_override w j) as [ov|] eqn:Hov.
  - sx. set (s1 := modify_job loc (set_override ov) s).
    destruct (finish_overridden_eq w loc s1) as (p & g & b & [(t & d & ->)|[_ Hn]]).
    + cbn. eapply (good_job_phase _ _ loc R_begin R_return j
        (fun x => finish_job J_FINISHED t d (set_override ov x))); try done.
      * repeat (split; [done|]). congruence.
      * cbn. by rewrite alter_alter.
    + assert (Hl1 : heap s1 !! loc = Some (set_override ov j))
        by (cbn; by rewrite lookup_alter_eq, Hl).
      by specialize (Hn _ Hl1).
  - sx. destruct ok.
    + sx. eapply (good_job_phase _ _ loc R_begin _ j (start_job (clock w 2))); try done.
      * repeat (split; [done|]). congruence.
      * by case_bool_decide.
      * by case_bool_decide.
    + unfold started_failed. sx.
      eapply (good_job_phase _ _ loc R_begin R_return j
        (fun x => finish_job J_FINISHED (clock w 1) (receipt_dict r) (start_job (clock w 2) x)));
        try done.
      * repeat (split; [done|]). congruence.
      * cbn. by rewrite alter_alter.
Qed.

Definition running_phase (p : run_phase) : bool :=
  match p with
  | R_authorize | R_armed _ | R_submit _ | R_report _ | R_stop _ | R_finish _ => true
  | _ => false
  end.

(** The thread of a running job moves on; whatever else changed is not the
    queue's. *)
Lemma good_run s s' loc p q :
  futures s !! loc = Some p -> running_phase p = true -> running_phase q = true ->
  heap s' = heap s -> jobs s' = jobs s -> futures s' = <[loc := q]> (futures s) ->
  slots s' = slots s -> good s s'.
Proof.
  intros Hf Hp Hq Eh Ej Ef Es Hw. destruct (future_job _ _ _ Hw Hf) as (j & Hl & Hj & Ht).
  refine (good_job_phase s s' loc p q j (fun j => j) Hl Hf _ _ Ht _ _ _ Ej Ef Es Hw);
    [by split| | | |].
  - destruct p; cbn in Hp; try discriminate Hp; destruct q; cbn in Hq, Hj; try discriminate Hq;
      exact Hj.
  - by destruct p.
  - by destruct q.
  - rewrite Eh, (alter_at _ _ _ _ Hl). by rewrite insert_id.
Qed.

Ltac next_phase :=
  eapply good_run; [eassumption|done| |reflexivity|reflexivity|reflexivity|reflexivity]; try done.

Lemma good_reject w loc a code message st s p :
  futures s !! loc = Some p -> running_phase p = true ->
  good s (report_reject w loc a code message st s).1.
Proof. intros Hf Hp. unfold report_reject. sx. next_phase. Qed.

Lemma good_authorize w loc s :
  futures s !! loc = Some R_authorize -> good s (run_authorize w loc s).1.
Proof.
  intros Hf. unfold run_authorize. destruct (heap s !! loc) as [j|]; [|done].
  destruct (authorize _ _ _ _ _) as [p [d|[]]].
  - destruct (d_allowed d); [sx; next_phase|].
    by apply (good_reject w loc _ _ _ _ (set_pa p s) R_authorize).
  - by apply (good_reject w loc _ _ _ _ (set_pa p s) R_authorize).
  - by apply (good_reject w loc _ _ _ _ (set_ledger_failed true (set_pa p s)) R_authorize).
Qed.

Lemma good_armed w loc z s :
  futures s !! loc = Some (R_armed z) -> good s (run_armed w loc z s).1.
Proof.
  intros Hf. unfold run_armed. sx. destruct (heap s !! loc) as [j|]; [|done].
  case_bool_decide; [|by eapply good_reject].
  destruct (ActionEnvelope_from_dict _ _ _); [sx; next_phase|by eapply good_reject].
Qed.

Lemma runtime_submit_eq w ev a lease run s :
  exists g r, runtime_submit w ev a lease run s = (set_gwy g s, Ok r).
Proof.
  unfold runtime_submit. destruct (_ && _); [apply gateway_reject_eq|].
  destruct (submit _ _ _ _ _ _) as [g r]. eauto.
Qed.

Lemma good_submit w loc x lease run s :
  futures s !! loc = Some (R_submit x) -> good s (run_submit w loc x lease run s).1.
Proof.
  intros Hf. unfold run_submit. sx.
  destruct (runtime_submit_eq w loc x lease run s) as (g & r & ->). sx. next_phase.
Qed.

Lemma good_report loc d s :
  futures s !! loc = Some (R_report d) -> good s (run_report loc d s).1.
Proof. intros Hf. unfold run_report. sx. next_phase. by case_bool_decide. Qed.

(** Storing the receipt of a running job. *)
Lemma good_store w loc d j s :
  futures s !! loc = Some (R_finish d) -> heap s !! loc = Some j -> j_state j = J_RUNNING ->
  forall s' r t, heap s' = alter (finish_job J_FINISHED t r) loc (heap s) ->
  jobs s' = jobs s -> futures s' = <[loc := R_return]> (futures s) -> slots s' = slots s ->
  good s s'.
Proof.
  intros Hf Hl Hj s' r t Eh Ej Ef Es.
  destruct (finish_evolves J_FINISHED t r j) as [He Ht]; [by rewrite Hj|].
  by eapply (good_job_phase s s' loc (R_finish d) R_return j (finish_job J_FINISHED t r)).
Qed.

Lemma good_finish w loc d s :
  futures s !! loc = Some (R_finish d) -> good s (run_finish w loc d s).1.
Proof.
  intros Hf Hw. refine ((_ : good s _) Hw). unfold run_finish. sx.
  destruct (heap s !! loc) as [j|] eqn:Hl; [|done].
  destruct (future_job _ _ _ Hw Hf) as (j0 & Hl0 & Hq & Ht). simplify_eq. cbn in Hq.
  destruct (match j_terminal_override j with Some _ => _ | None => _ end) as [receipt|e].
  2: { sx. by eapply (good_job_phase _ _ loc (R_finish d) R_return j (fun j => j));
         try done; [congruence|]; cbn; rewrite (alter_at _ _ _ _ Hl), insert_id. }
  sx. destruct ok; sx.
  - sx_if; by eapply good_store.
  - unfold terminal_write_failed, merge_recovery, runtime_stop. sx.
    destruct (bool_decide (execution_mode (j_action j) = REAL)); sx;
      try (destruct (dispatch_accepted _); sx);
      (eapply (good_store w loc d j s Hf Hl Hq _ (receipt_dict r) (clock w 1)); try done;
       cbn; rewrite alter_alter; reflexivity).
Qed.

(** A pending future cancelled by the pool leaves its job queued. *)
Lemma good_future_cancel loc : keeps good (future_cancel loc).
Proof.
  intros s. destruct (future_cancel loc s) as [s' r] eqn:Hc. cbn [fst].
  apply future_cancel_spec in Hc as [(_ & Hf & ->)|[(_ & _ & ->)|[_ ->]]]; [|done..].
  intros Hw. destruct (future_job _ _ _ Hw Hf) as (j & Hl & Hq & _). split; [|done].
  unfold winv. cbn. eapply core_phase; [exact Hw|exact Hl| | |].
  - cbn in *. congruence.
  - rewrite Hf. cbn. lia.
  - pose proof (co_free _ _ _ _ Hw). lia.
Qed.

Lemma good_shutdown : keeps good pool_shutdown.
Proof.
  apply keeps_bind; [apply _|apply keeps_get, _|]. intros s.
  apply keeps_each; [apply _|]. intros loc. apply keeps_bind; [apply _|apply good_future_cancel|].
  intros _. apply keeps_ret, _.
Qed.

Lemma good_issue w a reason principal target expires operator context :
  keeps good (issue_locked cfg w a reason principal target expires operator context).
Proof.
  intros s. unfold issue_locked. sx. do 5 (sx_if; [|done]).
  all: destruct (action_intent_hash a); [|done].
  all: destruct (permit_post_init _); [|done].
  all: destruct (register _ _ _ _) as [x [u|e]]; by apply good_frame.
Qed.

Lemma good_acknowledge w reason peer : keeps good (acknowledge_recovery cfg w reason peer).
Proof.
  intros s. unfold acknowledge_recovery. sx. do 2 (sx_if; [|done]). sx_if; [done|].
  sx_if; [|done]. destruct ok; sx; by apply good_frame.
Qed.

Lemma good_arm : keeps good arm_locked.
Proof. intros s. unfold arm_locked. sx. do 3 (sx_if; [|done]). all: by apply good_frame. Qed.

Lemma cstep_good s s' : cstep cfg s s' -> good s s'.
Proof.
  intros Hs. destruct Hs; try (by apply good_frame).
  - apply append_or_mark_frame.
  - apply good_request.
  - apply good_status.
  - apply good_cancel.
  - apply good_renew.
  - apply good_arm.
  - apply good_issue.
  - apply good_acknowledge.
  - apply good_lose.
  - apply good_terminalize.
  - apply good_stop_lead.
  - apply good_stop_record.
  - apply good_watch.
  - apply good_take.
  - by apply good_begin.
  - by apply good_authorize.
  - by apply good_armed.
  - by apply good_submit.
  - by apply good_report.
  - unfold set_phase. sx. next_phase.
  - by apply good_finish.
  - apply good_return.
  - apply good_shutdown.
Qed.

Lemma reach_good s s' : rtc (cstep cfg) s s' -> good s s'.
Proof.
  induction 1 as [s|s s1 s2 Hs _ IH]; [reflexivity|]. etrans; [by apply cstep_good|done].
Qed.
End Queue.
