(* ===== verification/Restart.v ===== *)
(** Starting the daemon: [plane_new], [plane_restore] and [start] lead to a
    state in which the queue is sound, and what a restart does with the work an
    earlier daemon left behind. *)

From S2P Require Export Queue.

(** Walk over a method for [keeps]; what is left are its calls. *)
Ltac keeps_go :=
  repeat match goal with
    | |- keeps _ (st_bind _ _) => apply keeps_bind; [apply _| |intros ?]
    | |- keeps _ (st_ret _) => apply keeps_ret, _
    | |- keeps _ (st_raise _) => apply keeps_raise, _
    | |- keeps _ (raise _) => apply keeps_raise, _
    | |- keeps _ (st_get _) => apply keeps_get, _
    | |- keeps _ (guard _ _) => apply keeps_guard, _
    | |- keeps _ (st_suppress _) => apply keeps_suppress; [apply _|]
    | |- keeps _ (st_each _ _) => apply keeps_each; [apply _|intros ?]
    | |- keeps _ (match _ with _ => _ end) => case_match
    end.

Section Boot.
Context {X : Type} `{EL : EventLog L Env} `{Crypto} (cfg : config).
Abbreviation plane := (plane X L).
Abbreviation io := (io Env).
Abbreviation M := (st plane cp_exn).
Implicit Types (s : plane) (w : io).

(** A daemon that has started, in memory or from its ledger. *)
Inductive boot : plane -> Prop :=
| boot_memory w (g : ActionGateway X) (p : PermitAuthority L) s :
    ledger p = None -> cp_start cfg w (plane_new cfg g p) = (s, Ok tt) -> boot s
| boot_ledger w (g : ActionGateway X) (l : L) s0 s :
    plane_restore cfg w g l = Ok s0 -> cp_start cfg w s0 = (s, Ok tt) -> boot s.

Definition reachable s : Prop := exists s0, boot s0 /\ rtc (cstep cfg) s0 s.

Lemma winv_new B (g : ActionGateway X) (p : PermitAuthority L) : retained_capacity cfg <= B -> winv cfg B (plane_new cfg g p).
Proof.
  intros HB. unfold winv, plane_new. cbn. constructor; try done.
  - constructor.
  - intros loc [? Hx]. done.
  - unfold live. rewrite map_filter_empty, map_size_empty. lia.
  - unfold queue_capacity. lia.
  - unfold retained_capacity, queue_capacity in HB. simpl. lia.
Qed.

(** ** Restored tables *)

Lemma restore_jobs_dwf now uuid es js : restore_jobs now uuid es = Ok js -> dwf js.
Proof.
  unfold restore_jobs.
  assert (Hw : dwf (@nil (string * ActionJob))) by constructor. revert Hw.
  generalize (@nil (string * ActionJob)). induction (group_events es) as [|g gs IH]; intros d Hw Hr.
  - by injection Hr as <-.
  - cbn [foldr_result] in Hr. apply rbind_ok in Hr as (d' & Hd & Hr). ok_inv Hd.
    eapply IH; [|exact Hr]. subst d'. by apply dwf_dset.
Qed.

Lemma imap_keys (js : dict ActionJob) (k : nat) :
  (imap (fun i kv => (kv.1, (k + i)%nat)) js).*1 = js.*1.
Proof.
  revert k. induction js as [|[id j] js IH]; intros k; [done|].
  rewrite imap_cons, !fmap_cons. cbn [fst]. f_equal. rewrite <- (IH (S k)). f_equal.
  apply imap_ext. intros i [x y] _. simpl. f_equal. lia.
Qed.

Lemma place_lookup js id loc :
  dwf js -> dget (place_jobs js).2 id = Some loc ->
  exists j, (place_jobs js).1 !! loc = Some j /\ dget js id = Some j.
Proof.
  intros Hw Hd. apply dget_in in Hd. unfold place_jobs in *. simpl in *.
  apply elem_of_lookup_imap_1 in Hd as (i & [id' j] & [= -> ->] & Hi). simpl in *.
  exists j. split.
  - apply elem_of_list_to_map_1.
    + assert (Hf : (imap (fun i (kv : string * ActionJob) => (i, kv.2)) js).*1 = seq 0 (length js)).
      { rewrite fmap_imap. clear. change (@fst nat ActionJob) with (@fst nat ActionJob).
        assert (Hg : forall k, imap (fun i (kv : string * ActionJob) => (k + i)%nat) js
                               = seq k (length js)).
        { induction js as [|x js IH]; intros k; [done|]. rewrite imap_cons. simpl.
          rewrite Nat.add_0_r. f_equal. rewrite <- (IH (S k)). apply imap_ext. intros. simpl. lia. }
        rewrite <- (Hg 0%nat). apply imap_ext. by intros. }
      rewrite Hf. apply NoDup_seq.
    + apply elem_of_lookup_imap_2 with (f := fun i (kv : string * ActionJob) => (i, kv.2)) in Hi.
      exact Hi.
  - by apply dget_Some; [|eapply list_elem_of_lookup_2].
Qed.

Lemma place_heap js loc j :
  (place_jobs js).1 !! loc = Some j -> exists id, (id, j) ∈ js.
Proof.
  unfold place_jobs. simpl. intros Hl. apply elem_of_list_to_map_2 in Hl.
  apply elem_of_lookup_imap_1 in Hl as (i & [id x] & [= -> ->] & Hi).
  exists id. by eapply list_elem_of_lookup_2.
Qed.

Lemma place_length js : length (place_jobs js).2 = length js.
Proof. unfold place_jobs. simpl. apply length_imap. Qed.

Lemma place_dwf js : dwf js -> dwf (place_jobs js).2.
Proof. unfold dwf, dkeys. intros Hn. rewrite <- (imap_keys js 0) in Hn. exact Hn. Qed.

(** What a restart reads back. *)
Lemma plane_restore_inv w g l s :
  plane_restore cfg w g l = Ok s ->
  exists (js : dict ActionJob) (p : PermitAuthority L) lg r,
    dwf js /\ (forall id j, dget js id = Some j -> decoded_ok id j) /\
    s = set_heap (place_jobs js).1 (set_jobs (place_jobs js).2
          (set_rec_required (r_required r) (set_rec_ids (r_ids r) (set_rec_real (r_real r)
            (plane_new cfg g {| tables := tables p; ledger := Some lg |}))))).
Proof.
  unfold plane_restore. intros Hr.
  apply rbind_ok in Hr as (p & _ & Hr). apply rbind_ok in Hr as (l1 & _ & Hr).
  destruct (log_read l1 "ACTION") as [l2 es]. apply rbind_ok in Hr as (es1 & _ & Hr).
  apply rbind_ok in Hr as (js & Hjs & Hr).
  destruct (log_read l2 "RECOVERY") as [l3 rs]. apply rbind_ok in Hr as (rs1 & _ & Hr).
  apply rbind_ok in Hr as (r & _ & Hr). cbv zeta in Hr.
  destruct (place_jobs js) as [h t] eqn:E. injection Hr as <-.
  exists js, p, l3, r. rewrite E. split; [by eapply restore_jobs_dwf|]. split; [|done].
  intros id j. by eapply restore_jobs_ok.
Qed.

Lemma winv_restored w g l s :
  plane_restore cfg w g l = Ok s ->
  exists B, retained_capacity cfg <= B /\ winv cfg B s /\ futures s = ∅ /\ is_Some (log_of s) /\
    latched s = false /\ running s = false.
Proof.
  intros Hr. destruct (plane_restore_inv _ _ _ _ Hr) as (js & p & lg & r & Hw & Hok & ->).
  exists (Z.max (retained_capacity cfg) (Z.of_nat (length js))).
  split; [lia|]. split; [|repeat split; by eexists].
  destruct (winv_new (retained_capacity cfg) g p) as [_ _ _ _ Hs Hn _]; [lia|].
  constructor; cbn; try done.
  - by apply place_dwf.
  - intros id loc Hd. destruct (place_lookup _ _ _ Hw Hd) as (j & Hj & Hid).
    exists j. split; [done|]. by apply (do_id _ _ (Hok _ _ Hid)).
  - intros loc j Hl. split; [done|]. intros Ha.
    destruct (place_heap _ _ _ Hl) as (id & Hin). apply (dget_Some _ _ _ Hw) in Hin.
    destruct (do_terminal _ _ (Hok _ _ Hin) Ha) as (Hf & d & Hd & _). split; [by eexists|done].
  - intros loc [? Hx]. done.
  - rewrite length_imap. lia.
Qed.

(** ** The effect of recovery *)

(** What recovery leaves alone. *)
Record same_queue s s' : Prop := {
  sq_jobs : jobs s' = jobs s;
  sq_futures : futures s' = futures s;
  sq_slots : slots s' = slots s;
  sq_log : is_Some (log_of s) -> is_Some (log_of s');
  sq_latched : latched s = true -> latched s' = true;
  sq_sup : supervision s' = supervision s;
}.

#[local] Instance same_queue_po : PreOrder same_queue.
Proof. split; [by constructor|]. intros a b c [] []. constructor; try congruence; auto. Qed.

Lemma recover_job_spec w loc s s' :
  recover_job w loc s = (s', Ok tt) ->
  same_queue s s' /\ rec_required s' = rec_required s /\ rec_real s' = rec_real s /\
  (forall j, heap s !! loc = Some j -> exists d,
     heap s' = <[loc := finish_job (recovery_outcome j).2 (clock w 1) d j]> (heap s)) /\
  (heap s !! loc = None -> s' = s).
Proof.
  unfold recover_job. sx. destruct (heap s !! loc) as [j|] eqn:Hl; [|by intros [= <-]].
  destruct (recovery_outcome j) as [[[code message] final] st] eqn:Ho. sx.
  destruct ok; intros [= <-]. split; [by constructor|]. do 2 (split; [done|]). split; [|done].
  intros ? [= <-]. exists (receipt_dict r). cbn. by rewrite Ho, (alter_at _ _ _ _ Hl).
Qed.

(** The recovery of distinct locations. *)
Lemma recover_each w locs s s' :
  NoDup locs -> st_each (recover_job w) locs s = (s', Ok tt) ->
  same_queue s s' /\ rec_required s' = rec_required s /\ rec_real s' = rec_real s /\
  (forall loc, loc ∉ locs -> heap s' !! loc = heap s !! loc) /\
  (forall loc j, loc ∈ locs -> heap s !! loc = Some j -> exists d,
     heap s' !! loc = Some (finish_job (recovery_outcome j).2 (clock w 1) d j)).
Proof.
  revert s. induction locs as [|loc locs IH]; intros s Hn.
  { intros [= <-]. split; [done|]. do 3 (split; [done|]). intros loc j Hin. inversion Hin. }
  apply NoDup_cons in Hn as [Hni Hn]. cbn [st_each]. unfold st_bind at 1.
  destruct (recover_job w loc s) as [s1 [[]|e]] eqn:Hr; [|done]. intros He.
  destruct (recover_job_spec _ _ _ _ Hr) as (Hq & E1 & E2 & Hj & Hnone).
  destruct (IH s1 Hn He) as (Hq' & E1' & E2' & Hout & Hin).
  split; [by etrans|]. split; [congruence|]. split; [congruence|].
  assert (Hother : forall l, l <> loc -> heap s1 !! l = heap s !! l).
  { intros l Hne. destruct (heap s !! loc) as [j|] eqn:Hl; [|by rewrite Hnone].
    destruct (Hj j eq_refl) as (d & ->). by rewrite lookup_insert_ne. }
  split.
  - intros l Hl. apply not_elem_of_cons in Hl as [Hne Hl]. by rewrite Hout, Hother.
  - intros l j [->|Hl]%elem_of_cons Hlj.
    + destruct (Hj _ Hlj) as (d & Eh). exists d.
      rewrite Hout by done. by rewrite Eh, lookup_insert_eq.
    + apply Hin; [done|]. rewrite Hother; [done|]. by intros ->.
Qed.


Lemma table_injective B s id id' loc :
  winv cfg B s -> dget (jobs s) id = Some loc -> dget (jobs s) id' = Some loc -> id = id'.
Proof.
  intros Hw H1 H2. destruct (co_jobs _ _ _ _ _ _ Hw _ _ H1) as (j & Hj & <-).
  destruct (co_jobs _ _ _ _ _ _ Hw _ _ H2) as (j' & Hj' & <-). congruence.
Qed.


Lemma NoDup_snd {A C} (l : list (A * C)) :
  NoDup l.*1 -> (forall x y c, (x, c) ∈ l -> (y, c) ∈ l -> x = y) -> NoDup l.*2.
Proof.
  induction l as [|[x c] l IH]; simpl; [constructor|].
  intros [Hni Hn]%NoDup_cons Hinj. constructor.
  - intros ([y c'] & [= ->] & Hin)%list_elem_of_fmap. apply Hni.
    assert (x = y) as -> by (eapply Hinj; [left|right; exact Hin]).
    apply list_elem_of_fmap. by exists (y, c').
  - apply IH; [done|]. intros a b d Ha Hb. eapply Hinj; right; eassumption.
Qed.

Lemma job_locs_NoDup B p s : winv cfg B s -> NoDup (job_locs p s).
Proof.
  intros Hw. unfold job_locs. apply NoDup_filter, NoDup_snd; [apply Hw|].
  intros x y loc Hx Hy. pose proof (co_keys _ _ _ _ _ _ Hw) as Hk.
  eapply table_injective; [done|by apply dget_Some|by apply dget_Some].
Qed.

Lemma elem_job_locs B p s loc :
  winv cfg B s -> loc ∈ job_locs p s <->
  exists id j, dget (jobs s) id = Some loc /\ heap s !! loc = Some j /\ p j = true.
Proof.
  intros Hw. unfold job_locs. rewrite list_elem_of_filter. split.
  - intros [Hp Hin]. unfold dvals in Hin. apply list_elem_of_fmap in Hin as ([id l] & -> & Hin).
    apply (dget_Some _ _ _ (co_keys _ _ _ _ _ _ Hw)) in Hin. simpl in *.
    destruct (heap s !! l) as [j|] eqn:E; [|done]. eauto 10.
  - intros (id & j & Hd & Hl & Hp). rewrite Hl. split; [done|]. by eapply dvals_in.
Qed.

(** The pending review [require_review] leaves. *)
Lemma require_review_spec B w s s' :
  winv cfg B s -> require_review w s = (s', Ok tt) ->
  same_queue s s' /\ heap s' = heap s /\
  (rec_required s = true -> rec_required s' = true) /\
  (forall id, id ∈ rec_real s -> id ∈ rec_real s') /\
  (forall id loc j, dget (jobs s) id = Some loc -> heap s !! loc = Some j ->
     interrupted_real j = true -> rec_required s' = true /\ id ∈ rec_real s').
Proof.
  intros Hw. unfold require_review. sx.
  set (unknown := sorted_set (omap (fun loc => (fun j => action_id (j_action j)) <$> heap s !! loc)
                               (job_locs interrupted_real s))).
  assert (Hu : forall id loc j, dget (jobs s) id = Some loc -> heap s !! loc = Some j ->
            interrupted_real j = true -> id ∈ unknown).
  { intros id loc j Hd Hl Hp. apply elem_of_sorted_set, list_elem_of_omap.
    exists loc. split; [by apply (elem_job_locs B); eauto 10|].
    destruct (co_jobs _ _ _ _ _ _ Hw _ _ Hd) as (j' & Hj' & Hid).
    rewrite Hl in *. injection Hj' as <-. simpl. by rewrite Hid. }
  destruct unknown as [|u us] eqn:E.
  { intros [= <-]. split; [done|]. do 3 (split; [done|]). intros id loc j H1 H2 H3.
    specialize (Hu _ _ _ H1 H2 H3). inversion Hu. }
  assert (Hend : forall s1, same_queue s s1 -> heap s1 = heap s -> rec_real s1 = rec_real s ->
    merge_recovery (sorted_union (rec_ids s) (u :: us)) (sorted_union (rec_real s) (u :: us)) s1
      = (s', Ok tt) ->
    same_queue s s' /\ heap s' = heap s /\ (rec_required s = true -> rec_required s' = true) /\
    (forall id, id ∈ rec_real s -> id ∈ rec_real s') /\
    (forall id loc j, dget (jobs s) id = Some loc -> heap s !! loc = Some j ->
       interrupted_real j = true -> rec_required s' = true /\ id ∈ rec_real s')).
  { intros s1 Hq Hh Hre. unfold merge_recovery. sx. intros [= <-]. cbn.
    split; [etrans; [exact Hq|by constructor]|]. split; [done|]. split; [done|].
    unfold sorted_union. split.
    - intros id Hid. apply elem_of_sorted_set, elem_of_app. left. by rewrite Hre.
    - intros id loc j H1 H2 H3. split; [done|]. apply elem_of_sorted_set, elem_of_app. right.
      apply elem_of_sorted_set, elem_of_app. right. eauto. }
  sx_if; [|by apply Hend]. destruct ok; [|done]. sx. apply Hend; [|done|done].
  by constructor.
Qed.

(** ** Eviction at the start *)

Lemma length_dpop_has {V} (d : dict V) k :
  dwf d -> is_Some (dget d k) -> S (length (dpop d k)) = length d.
Proof.
  unfold dwf, dkeys. induction d as [|[k' v] d IH]; simpl; [intros _ [? Hx]; done|].
  intros [Hni Hn]%NoDup_cons. case_decide as Hk; simpl.
  - intros _. subst k'. f_equal. clear IH Hn. induction d as [|[k2 v2] d IH]; [done|]. simpl in *.
    apply not_elem_of_cons in Hni as [Hne Hni]. rewrite decide_False by done. simpl. by rewrite IH.
  - intros Hs. by rewrite IH.
Qed.

Lemma evict_loop_frame target items :
  keeps (fun s s' => is_Some (log_of s) -> is_Some (log_of s') /\ rec_required s' = rec_required s /\
           rec_real s' = rec_real s /\ latched s' = latched s /\ closed s' = closed s)
    (evict_loop (X := X) (L := L) target items).
Proof.
  set (R := fun s s' : plane => _).
  assert (Hpo : PreOrder R).
  { split; [intros s Hs; repeat (split; [done|]); done|]. intros a b c H1 H2 Ha.
    destruct (H1 Ha) as (Hb & E1 & E2 & E3 & E4). destruct (H2 Hb) as (Hc & F1 & F2 & F3 & F4).
    split; [done|]. repeat split; congruence. }
  induction items as [|[id loc] items IH]; [apply keeps_ret, _|].
  cbn [evict_loop]. apply keeps_bind; [apply _|apply keeps_get, _|]. intros s0.
  case_match; [apply keeps_ret, _|]. case_match; [|done]. case_match; [done|].
  apply keeps_bind; [apply _| |done]. intros s Hs. unfold evict_one. sx. auto.
Qed.

(** Terminal jobs of a daemon with a ledger are forgotten until the table
    fits. *)
Lemma evict_loop_bound target items s :
  0 <= target -> dwf (jobs s) -> is_Some (log_of s) -> NoDup items.*1 ->
  (forall id loc, (id, loc) ∈ items -> is_Some (dget (jobs s) id) /\
     exists j, heap s !! loc = Some j /\ active_state (j_state j) = false) ->
  Z.of_nat (length (jobs s)) - target <= Z.of_nat (length items) ->
  Z.of_nat (length (jobs (evict_loop (X := X) (L := L) target items s).1)) <= target.
Proof.
  intros Ht. revert s. induction items as [|[id loc] items IH]; intros s Hw Hl Hn Hi Hlen.
  { simpl in *. lia. }
  cbn [evict_loop]. sx. destruct (Z.of_nat (length (jobs s)) <=? target) eqn:E; breflect; [done|].
  destruct (Hi id loc) as ([l Hd] & j & Hj & Ha); [left|]. rewrite Hj.
  rewrite Ha. rewrite (bool_decide_eq_false_2 (log_of s = None))
    by (destruct Hl as [? ->]; done). rewrite andb_false_r. cbn [orb]. unfold evict_one. sx.
  apply NoDup_cons in Hn as [Hni Hn].
  pose proof (length_dpop_has (jobs s) id Hw) as Hp. rewrite Hd in Hp.
  specialize (Hp ltac:(by eexists)).
  apply IH; cbn; try done.
  - by apply dwf_dpop.
  - intros id' loc' Hin. destruct (Hi id' loc') as (Hd' & Hx); [by right|]. split; [|done].
    assert (Hne : id <> id').
    { intros <-. apply Hni. apply list_elem_of_fmap. by exists (id, loc'). }
    by rewrite dget_dpop_ne.
  - simpl in Hlen. lia.
Qed.

(** ** [start] *)

(** What [start] leaves of a plane just restored. *)
Record started s0 s : Prop := {
  sd_jobs : forall id loc j, dget (jobs s0) id = Some loc -> heap s0 !! loc = Some j ->
    exists j', heap s !! loc = Some j' /\ active_state (j_state j') = false /\
      (active_state (j_state j) = false -> j' = j) /\
      (active_state (j_state j) = true -> exists t d,
         j' = finish_job (recovery_outcome j).2 t d j);
  sd_review : (rec_required s0 = true \/ exists id loc j, dget (jobs s0) id = Some loc /\
      heap s0 !! loc = Some j /\ interrupted_real j = true) ->
    rec_required s = true /\ latched s = true;
  sd_ids : forall id loc j, dget (jobs s0) id = Some loc -> heap s0 !! loc = Some j ->
    interrupted_real j = true -> id ∈ rec_real s;
  sd_bound : Z.of_nat (length (jobs s)) <= retained_capacity cfg;
  sd_running : running s = true /\ supervision s = DISARMED;
  sd_winv : winv cfg (retained_capacity cfg) s;
}.

Lemma recover_incomplete_spec B w s0 s :
  winv cfg B s0 -> futures s0 = ∅ -> is_Some (log_of s0) ->
  recover_incomplete_jobs w s0 = (s, Ok tt) ->
  exists s1 s2, require_review w s0 = (s1, Ok tt) /\ same_queue s1 s2 /\ heap s2 = heap s1 /\
    rec_required s2 = rec_required s1 /\ rec_real s2 = rec_real s1 /\
    (rec_required s1 = true -> latched s2 = true) /\
    st_each (recover_job w) (job_locs (fun j => active_state (j_state j)) s0) s2 = (s, Ok tt).
Proof.
  intros Hw Hf [l Hl]. unfold recover_incomplete_jobs. sx. rewrite Hl.
  destruct (require_review w s0) as [s1 [[]|e]] eqn:Hr; [|done]. unfold runtime_stop. sx.
  destruct (rec_required s1) eqn:E; intros Hs.
  - exists s1. eexists. split; [done|].
    refine (conj _ (conj _ (conj _ (conj _ (conj _ Hs))))); [by constructor|done..].
  - exists s1, s1. split; [done|]. refine (conj _ (conj _ (conj _ (conj _ (conj _ Hs)))));
      [by constructor|done|done|done|congruence].
Qed.

Lemma outcome_terminal j : active_state (recovery_outcome j).2 = false.
Proof. unfold recovery_outcome. by repeat case_match. Qed.

Lemma recovered_winv B w s2 s (locs : list nat) :
  winv cfg B s2 -> futures s2 = ∅ -> same_queue s2 s ->
  (forall loc, loc ∉ locs -> heap s !! loc = heap s2 !! loc) ->
  (forall loc j, loc ∈ locs -> heap s2 !! loc = Some j -> exists d,
     heap s !! loc = Some (finish_job (recovery_outcome j).2 (clock w 1) d j)) ->
  (forall loc, loc ∈ locs -> is_Some (heap s2 !! loc)) ->
  winv cfg B s.
Proof.
  intros [Hk Hj Hh Hf Hs Hn Hz] He [Ej Ef Es _ _ _] Hout Hin Hex. unfold winv.
  rewrite Ej, Ef, Es. rewrite He in *.
  assert (Hpt : forall loc j, heap s2 !! loc = Some j -> exists j', heap s !! loc = Some j' /\
            j_action j' = j_action j).
  { intros loc j Hl. destruct (decide (loc ∈ locs)) as [Hi|Hi].
    - destruct (Hin _ _ Hi Hl) as (d & ->). by eexists.
    - rewrite Hout by done. eauto. }
  constructor; try done.
  - intros id loc Hd. destruct (Hj _ _ Hd) as (j & Hl & <-).
    destruct (Hpt _ _ Hl) as (j' & Hl' & E). exists j'. by rewrite E.
  - intros loc j Hl. split; [done|]. destruct (decide (loc ∈ locs)) as [Hi|Hi].
    + destruct (Hex _ Hi) as [x Hx]. destruct (Hin _ _ Hi Hx) as (d & Hd). simplify_eq.
      intros _. split; by eexists.
    + rewrite Hout in Hl by done. by apply Hh in Hl as [_ ?].
  - intros loc [? Hx]. done.
Qed.

Lemma start_spec B w s0 s :
  retained_capacity cfg <= B -> winv cfg B s0 -> futures s0 = ∅ -> is_Some (log_of s0) ->
  running s0 = false -> cp_start cfg w s0 = (s, Ok tt) -> started s0 s.
Proof.
  intros HB Hw Hf Hl Hrun. unfold cp_start. sx.
  destruct (closed s0); [done|]. rewrite Hrun.
  destruct (recover_incomplete_jobs w s0) as [s3 [[]|e]] eqn:Hrec; [|done].
  destruct (evict_terminal_jobs cfg false s3) as [s4 [[]|e]] eqn:Hev; [|done].
  intros [= <-].
  destruct (recover_incomplete_spec B w s0 s3 Hw Hf Hl Hrec)
    as (s1 & s2 & Hr & Hq2 & Eh2 & Er2 & Ere2 & Hlat & Hloop).
  destruct (require_review_spec B w s0 s1 Hw Hr) as (Hq1 & Eh1 & Hkeep & _ & Hnew).
  destruct (recover_each _ _ _ _ (job_locs_NoDup B _ s0 Hw) Hloop)
    as (Hq3 & Er3 & Ere3 & Hout & Hin).
  rewrite Eh2, Eh1 in Hout, Hin.
  assert (Hq : same_queue s0 s3) by (etrans; [exact Hq1|]; by etrans).
  pose proof (fun loc => elem_job_locs B (fun j => active_state (j_state j)) s0 loc Hw) as Hloc.
  assert (Hjobs : forall id loc j, dget (jobs s0) id = Some loc -> heap s0 !! loc = Some j ->
    exists j', heap s3 !! loc = Some j' /\ active_state (j_state j') = false /\
      (active_state (j_state j) = false -> j' = j) /\
      (active_state (j_state j) = true -> exists t d,
         j' = finish_job (recovery_outcome j).2 t d j)).
  { intros id loc j Hd Hj. destruct (active_state (j_state j)) eqn:Ha.
    - destruct (Hin loc j) as (d & Hd'); [by apply Hloc; eauto 10|done|].
      eexists. split; [exact Hd'|]. split; [apply outcome_terminal|]. split; [done|eauto].
    - exists j. rewrite Hout; [by rewrite Hj|].
      intros (id' & j' & _ & Hj' & Ha')%Hloc. congruence. }
  assert (Hw3 : winv cfg B s3).
  { assert (Hw2 : winv cfg B s2).
    { unfold winv in *. destruct Hq2 as [-> -> -> _ _ _], Hq1 as [-> -> -> _ _ _].
      by rewrite Eh2, Eh1. }
    eapply (recovered_winv B w s2); [exact Hw2| |exact Hq3| | |].
    - by rewrite (sq_futures _ _ Hq2), (sq_futures _ _ Hq1).
    - by rewrite Eh2, Eh1.
    - by rewrite Eh2, Eh1.
    - intros loc (_ & j & _ & Hj & _)%Hloc. rewrite Eh2, Eh1, Hj. by eexists. }
  assert (Hlog3 : is_Some (log_of s3)) by (by apply (sq_log _ _ Hq)).
  pose proof (shrinks_evict cfg false s3) as Hsh. rewrite Hev in Hsh. simpl in Hsh.
  destruct Hsh as [Eh Ef Es Hk Hz Hd].
  assert (Hfr : rec_required s4 = rec_required s3 /\ rec_real s4 = rec_real s3 /\
                latched s4 = latched s3).
  { unfold evict_terminal_jobs in Hev.
    pose proof (evict_loop_frame (Z.max 0 (retained_capacity cfg - 0)) (jobs s3) s3 Hlog3) as Hfr.
    unfold st_bind, st_get in Hev. rewrite Hev in Hfr. simpl in Hfr. tauto. }
  destruct Hfr as (Fr & Fre & Fl).
  assert (Hbound : Z.of_nat (length (jobs s4)) <= retained_capacity cfg).
  { unfold evict_terminal_jobs in Hev. unfold st_bind, st_get in Hev.
    pose proof (co_keys _ _ _ _ _ _ Hw3) as Hk3.
    assert (Hcap : 0 <= retained_capacity cfg) by (unfold retained_capacity; lia).
    pose proof (evict_loop_bound (Z.max 0 (retained_capacity cfg - 0)) (jobs s3) s3) as Hb.
    rewrite Hev in Hb. simpl in Hb.
    replace (retained_capacity cfg) with (Z.max 0 (retained_capacity cfg - 0)) by lia.
    apply Hb; try done; try lia.
    intros id loc Hi. apply (dget_Some _ _ _ Hk3) in Hi. split; [by eexists|].
    rewrite (sq_jobs _ _ Hq) in Hi. destruct (co_jobs _ _ _ _ _ _ Hw _ _ Hi) as (j & Hj & _).
    destruct (Hjobs _ _ _ Hi Hj) as (j' & ? & ? & _). eauto. }
  constructor; cbn.
  - intros id loc j Hd' Hj. rewrite Eh. eauto.
  - intros Hor. rewrite Fr, Fl, Er3, Er2.
    assert (Hreq : rec_required s1 = true).
    { destruct Hor as [Hr0|(id & loc & j & H1 & H2 & H3)]; [by apply Hkeep|].
      by apply (Hnew _ _ _ H1 H2 H3). }
    split; [done|]. apply (sq_latched _ _ Hq3). by apply Hlat.
  - intros id loc j H1 H2 H3. rewrite Fre, Ere3, Ere2. by apply (Hnew _ _ _ H1 H2 H3).
  - done.
  - done.
  - unfold winv. cbn. rewrite Eh, Ef, Es. destruct Hw3 as [Hk3 Hj3 Hh3 Hf3 Hs3 Hn3 _].
    constructor; try done; [by apply Hk|]. intros id loc Hi. by apply Hj3, Hd.
Qed.

Lemma boot_winv s : boot s -> winv cfg (retained_capacity cfg) s.
Proof.
  intros Hb. destruct Hb as [w g p s Hl Hs|w g l s0 s Hr Hs].
  - unfold cp_start in Hs. revert Hs. sx. cbn [plane_new closed running].
    unfold recover_incomplete_jobs, evict_terminal_jobs. sx.
    unfold log_of at 1. cbn [plane_new pa]. rewrite Hl. cbn [evict_loop plane_new jobs]. sx.
    intros [= <-]. exact (winv_new _ g p (Z.le_refl _)).
  - destruct (winv_restored _ _ _ _ Hr) as (B & HB & Hw & Hf & Hlog & _ & Hrun).
    by apply (start_spec B w s0 s HB Hw Hf Hlog Hrun Hs).
Qed.

Lemma reachable_winv s : reachable s -> winv cfg (retained_capacity cfg) s.
Proof.
  intros (s0 & Hb%boot_winv & Hr). by apply (reach_good cfg _ (Z.le_refl _) _ _ Hr).
Qed.

(** ** Handlers are sequences of steps *)

Abbreviation steps := (rtc (cstep (X := X) (L := L) cfg)).

Lemma keeps_step {A} (m : M A) : (forall s, cstep cfg s (m s).1) -> keeps steps m.
Proof. intros Hm s. by apply rtc_once. Qed.

Lemma keeps_session {A} (f : SessionManager -> SessionManager * session_result A) :
  (forall m, sstep m (f m).1) -> keeps steps (of_session f).
Proof.
  intros Hf. apply keeps_step. intros s. unfold of_session. specialize (Hf (sess s)).
  destruct (f (sess s)) as [m r]. by apply c_session.
Qed.

Lemma steps_estop : keeps steps enter_estop.
Proof. apply keeps_step. apply c_estop. Qed.
Lemma steps_runtime_stop w : keeps steps (runtime_stop w).
Proof. apply keeps_bind; [apply _| |]; [(apply keeps_step; intros ?; apply c_latch)|]. intros _. keeps_go. Qed.
Lemma steps_safety_stop w : keeps steps (request_safety_stop w).
Proof. unfold request_safety_stop. keeps_go; [apply steps_estop|apply steps_runtime_stop]. Qed.

Lemma steps_note w ty kind id d : foreign_kind kind = true -> keeps steps (append_or_mark w ty kind id d).
Proof. intros Hk. apply keeps_step. intros s. by apply c_note. Qed.

Lemma steps_stop_overridden w loc : keeps steps (stop_overridden_action w loc).
Proof.
  unfold stop_overridden_action. keeps_go; [(apply keeps_step; intros ?; apply c_stop_lead)|apply steps_safety_stop|].
  apply keeps_step. intros s. apply c_stop_record.
Qed.

Lemma steps_terminalize w loc : keeps steps (terminalize_queued_override w loc).
Proof. apply keeps_step. intros s. apply c_terminalize. Qed.

Lemma steps_lost w x : keeps steps (handle_lost_session w x).
Proof.
  unfold handle_lost_session. keeps_go.
  - intros s. unfold revoke_for_session.
    assert (Hr : nonblank ("session_" +:+ lower (SessionState_value (ss_state x))) = true)
      by (by destruct (ss_state x)).
    pose proof (c_revoke_session cfg s (append_env w "PERMIT_REVOKED") (ss_session_id x) _ Hr) as Hs.
    destruct (revoke_session _ _ _ _) as [p [n|e]]; simpl in *; [by apply rtc_once|].
    eapply rtc_l; [exact Hs|]. apply rtc_once, c_mark.
  - apply keeps_step. intros s. apply c_lose.
  - apply steps_terminalize.
  - apply steps_stop_overridden.
  - by apply steps_note.
Qed.

Lemma steps_admit w a peer : keeps steps (admit_session w a peer).
Proof.
  unfold admit_session. keeps_go.
  - intros s. pose proof (s_require (mono w 0) (sess s) a peer) as Hs.
    destruct (require_action (mono w 0) (sess s) a peer) as [m r]. by apply rtc_once, c_session.
  - apply keeps_session. intros m. apply s_adopt.
  - apply keeps_session. intros m. apply s_require.
Qed.

Lemma steps_close w : keeps steps (cp_close cfg w).
Proof.
  unfold cp_close. keeps_go.
  - (apply keeps_step; intros ?; apply c_close).
  - apply keeps_step. intros s. apply c_cancel.
  - apply steps_runtime_stop.
  - (apply keeps_step; intros ?; apply c_shutdown).
Qed.

(** The session methods that end a session go through [_handle_lost_session]. *)
Lemma steps_heartbeat w id peer : keeps steps (heartbeat_session w id peer).
Proof.
  unfold heartbeat_session, require_running. keeps_go. apply keeps_try; [apply _| |].
  - apply keeps_session. intros m. apply s_heartbeat.
  - intros [code|]; keeps_go. apply steps_lost.
Qed.

Lemma steps_issue w a principal target ttl reason operator context :
  (forall n, dt_wf (clock w n)) -> (forall d, deadline_at a = Some d -> dt_wf d) ->
  (forall n, dt_wf (dt_add (clock w n) (float_us ttl))) ->
  keeps steps (issue_permit_core cfg w a principal target ttl reason operator context).
Proof.
  intros Hc Hd Ht. unfold issue_permit_core, require_running, check_reason, check_identifier,
    permit_request_ok. keeps_go.
  - apply keeps_session. intros m. apply s_require.
  - apply keeps_step. intros s. apply c_issue. unfold dt_min. case_match; eauto.
Qed.

Lemma steps_request w a peer : storable a -> peer_ok peer -> keeps steps (request_action cfg w a peer).
Proof.
  intros Ha Hp. unfold request_action. keeps_go; [apply steps_admit|]. apply keeps_step. intros s.
  by apply c_request.
Qed.

Lemma steps_status w id peer : keeps steps (get_action_status cfg w id peer).
Proof. apply keeps_step. intros s. apply c_status. Qed.

Lemma steps_receipt w id peer : keeps steps (get_execution_receipt cfg w id peer).
Proof. unfold get_execution_receipt. keeps_go. apply steps_status. Qed.

Lemma steps_cancel w id peer : keeps steps (cancel_action cfg w id peer).
Proof. apply keeps_step. intros s. apply c_cancel. Qed.

Lemma steps_renew w id session peer : keeps steps (renew_action_lease cfg w id session peer).
Proof.
  unfold renew_action_lease, require_running. keeps_go; [|by apply steps_note].
  apply keeps_step. intros s. apply c_renew.
Qed.

Lemma steps_create_session w id actor framework bodies caps ttl peer :
  keeps steps (cp_create_session w id actor framework bodies caps ttl peer).
Proof.
  unfold cp_create_session, require_running, append_session_event. keeps_go; [|by apply steps_note].
  apply keeps_session. intros m. apply s_create.
Qed.

Lemma steps_close_session w session reason peer : keeps steps (cp_close_session w session reason peer).
Proof.
  unfold cp_close_session, require_running. keeps_go; [|apply steps_lost].
  apply keeps_session. intros m. apply s_close.
Qed.

Lemma steps_emergency w source peer : keeps steps (emergency_stop w source peer).
Proof. unfold emergency_stop. keeps_go; [apply steps_estop|apply steps_runtime_stop]. Qed.

Lemma steps_arm w reason peer : keeps steps (arm_runtime cfg w reason peer).
Proof.
  unfold arm_runtime, require_daemon_uid, arm_core, check_reason. keeps_go;
    [(apply keeps_step; intros ?; apply c_arm)|by apply steps_note].
Qed.

Lemma steps_disarm w reason peer : keeps steps (disarm_runtime cfg w reason peer).
Proof.
  unfold disarm_runtime, require_daemon_uid, disarm_core, check_reason. keeps_go;
    [apply steps_safety_stop|(apply keeps_step; intros ?; apply c_disarmed)|by apply steps_note].
Qed.

Lemma steps_acknowledge w reason peer : keeps steps (acknowledge_recovery cfg w reason peer).
Proof. apply keeps_step. intros s. apply c_acknowledge. Qed.

Lemma steps_tick w : keeps steps (watchdog_tick w).
Proof.
  unfold watchdog_tick. keeps_go.
  - intros s. pose proof (s_expire (mono w 1) (sess s)) as Hs.
    destruct (expire_sessions (mono w 1) (sess s)) as [m lost]. by apply rtc_once, c_session.
  - apply steps_lost.
  - apply keeps_step. intros s. apply c_watch.
  - apply steps_terminalize.
  - apply steps_stop_overridden.
Qed.

(** Every handler of the daemon is a sequence of the steps the interleaving
    semantics is built from, whatever the clocks, the ledger, the pool and the
    stop path do; so what holds of all reachable states holds after it. *)
Theorem handlers_are_steps w a peer id session reason source :
  storable a -> peer_ok peer ->
  keeps steps (request_action cfg w a peer) /\ keeps steps (cancel_action cfg w id (Some peer)) /\
  keeps steps (get_execution_receipt cfg w id (Some peer)) /\
  keeps steps (renew_action_lease cfg w id session peer) /\
  keeps steps (heartbeat_session w session peer) /\
  keeps steps (cp_close_session w session reason peer) /\
  keeps steps (emergency_stop w source peer) /\ keeps steps (arm_runtime cfg w reason peer) /\
  keeps steps (disarm_runtime cfg w reason peer) /\
  keeps steps (acknowledge_recovery cfg w reason peer) /\
  keeps steps (watchdog_tick w) /\ keeps steps (cp_close cfg w).
Proof.
  intros Ha Hp. split_and!; auto using steps_request, steps_cancel, steps_receipt, steps_renew,
    steps_heartbeat, steps_close_session, steps_emergency, steps_arm, steps_disarm,
    steps_acknowledge, steps_tick, steps_close.
Qed.

(** ** Theorems *)

(** In every reachable state the free slots and the futures not yet done add
    up to the queue's capacity, so the queue never holds more; the table never
    exceeds the retained capacity; each entry is a job of its own id; and a
    queued job with a pending future is really queued. *)
Theorem queue_bounded s :
  reachable s ->
  slots s + live (futures s) = queue_capacity cfg /\ 0 <= slots s /\
  live (futures s) <= queue_capacity cfg /\
  Z.of_nat (length (jobs s)) <= retained_capacity cfg /\
  (forall id loc, dget (jobs s) id = Some loc ->
     exists j, heap s !! loc = Some j /\ action_id (j_action j) = id) /\
  (forall loc p, futures s !! loc = Some p -> exists j, heap s !! loc = Some j /\ phase_ok (Some p) j).
Proof.
  intros Hr%reachable_winv. pose proof Hr as [Hk Hj Hh Hf Hs Hn Hz].
  do 2 (split; [done|]). split; [lia|]. do 2 (split; [done|]).
  intros loc p Hp. destruct (Hf loc) as [j Hl]; [by eexists|]. exists j. split; [done|].
  rewrite <- Hp. by apply Hh.
Qed.

(** A job object never changes its action, owner or submission time, and
    once it is FINISHED or CANCELLED it has a receipt and keeps that receipt,
    its state and its finishing time, whatever threads, watchdog and clients
    do afterwards. *)
Theorem terminal_job_stable s s' loc j :
  reachable s -> rtc (cstep cfg) s s' -> heap s !! loc = Some j ->
  exists j', heap s' !! loc = Some j' /\ job_evolves j j' /\
    (active_state (j_state j) = false -> exists d, j_receipt j = Some d /\ j_receipt j' = Some d).
Proof.
  intros Hw%reachable_winv Hr Hl. destruct (reach_good cfg _ (Z.le_refl _) _ _ Hr Hw) as [_ He].
  destruct (He _ _ Hl) as (j' & Hl' & Hj). exists j'. do 2 (split; [done|]). intros Ha.
  destruct (co_heap _ _ _ _ _ _ Hw _ _ Hl) as [_ Ht]. destruct (Ht Ha) as [[d Hd] _].
  exists d. split; [done|]. destruct Hj as (_ & _ & _ & Hj). destruct (Hj Ha) as (_ & -> & _). done.
Qed.

(** C29: a daemon that starts on a ledger leaves no job of its predecessor
    unfinished: terminal jobs are as they were; a job that was running is
    FINISHED and one that was only queued is CANCELLED, both with a receipt.
    If REAL work was interrupted, now or before an unacknowledged restart, a
    recovery review is pending, names every such action, and the runtime is
    emergency-stopped; the daemon is disarmed and its table within bounds. *)
Theorem restart_recovers w w' g l s0 s :
  plane_restore cfg w g l = Ok s0 -> cp_start cfg w' s0 = (s, Ok tt) ->
  started s0 s.
Proof.
  intros Hr Hs. destruct (winv_restored _ _ _ _ Hr) as (B & HB & Hw & Hf & Hl & _ & Hrun).
  by apply (start_spec B w').
Qed.
End Boot.

(** ** A concrete daemon on a list as its ledger: it starts, takes one REAL
    action, and a thread of the pool begins it. *)

Definition demo_cfg : config :=
  {| c_euid := 1000; c_max_queued := 2; c_max_retained := 8; c_instance := "daemon_1" |}.

Definition demo_io : io bool :=
  {| clock := fun _ => demo_now; mono := fun _ => 0; append_env := fun _ _ => true;
     gw_env := demo_env; pool_accepts := true; stop_result := StopReceipt [];
     fresh_id := "00000000000000000000000000000001"; decision_message := fun c => c |}.

Definition demo_boot : plane unit (list entry) :=
  match plane_restore (X := unit) (L := list entry) demo_cfg demo_io ActionGateway_new [] with
  | Ok s => (cp_start demo_cfg demo_io s).1
  | Err _ => plane_new demo_cfg ActionGateway_new (authority_new None)
  end.

Definition demo_queued : plane unit (list entry) :=
  (request_locked demo_cfg demo_io demo_action demo_peer demo_boot).1.

Definition demo_taken : plane unit (list entry) := (run_take 0 demo_queued).1.
Definition demo_begun : plane unit (list entry) := (run_begin demo_io 0 demo_taken).1.

Lemma demo_boot_ok : boot demo_cfg demo_boot.
Proof.
  destruct (plane_restore (X := unit) (L := list entry) demo_cfg demo_io ActionGateway_new [])
    as [s0|] eqn:E; [|vm_compute in E; discriminate].
  apply (boot_ledger demo_cfg demo_io ActionGateway_new [] s0 demo_boot E).
  unfold demo_boot. rewrite E. injection E as <-. vm_compute. reflexivity.
Qed.

Lemma demo_begun_reach : reachable (H := demo_crypto) demo_cfg demo_begun.
Proof.
  exists demo_boot. split; [exact demo_boot_ok|].
  apply (rtc_l _ _ demo_queued).
  { apply (c_request (H := demo_crypto) demo_cfg demo_boot demo_io demo_action demo_peer).
    - apply (sb_action _ _ _ demo_submission).
    - vm_compute. intuition congruence. }
  apply (rtc_l _ _ demo_taken); [apply (c_take (H := demo_crypto) demo_cfg demo_queued 0)|].
  apply (rtc_l _ _ demo_begun); [|apply rtc_refl].
  apply (c_begin (H := demo_crypto) demo_cfg demo_taken demo_io 0). vm_compute. reflexivity.
Qed.

Lemma handlers_are_steps_witness :
  rtc (cstep (H := demo_crypto) demo_cfg) demo_boot
    (request_action demo_cfg demo_io demo_action demo_peer demo_boot).1.
Proof.
  apply (proj1 (handlers_are_steps (H := demo_crypto) (X := unit) (L := list entry) demo_cfg demo_io
    demo_action demo_peer "action_1" "session_1" "operator request" "console"
    (sb_action _ _ _ demo_submission) ltac:(vm_compute; intuition congruence))).
Defined.

Lemma queue_bounded_witness :
  slots demo_begun + live (futures demo_begun) = 2 /\ slots demo_begun = 1.
Proof.
  split; [exact (proj1 (queue_bounded (H := demo_crypto) demo_cfg demo_begun demo_begun_reach))|].
  vm_compute. reflexivity.
Defined.

(** A second daemon, on the ledger of the first, which stopped after beginning
    the REAL action. *)
Definition demo_interrupted : list entry := default [] (log_of demo_begun).

Definition demo_restored : result restore_exn (plane unit (list entry)) :=
  plane_restore demo_cfg demo_io ActionGateway_new demo_interrupted.

Definition demo_restarted_plane : plane unit (list entry) :=
  match demo_restored with
  | Ok s => (cp_start demo_cfg demo_io s).1
  | Err _ => demo_begun
  end.

Lemma restart_recovers_witness :
  match demo_restored with
  | Ok s0 => started demo_cfg s0 demo_restarted_plane /\
             rec_real demo_restarted_plane = ["action_1"] /\ latched demo_restarted_plane = true
  | Err _ => False
  end.
Proof.
  unfold demo_restarted_plane. destruct demo_restored as [s0|] eqn:E.
  - split.
    + apply (restart_recovers demo_cfg demo_io demo_io ActionGateway_new demo_interrupted); [exact E|].
      vm_compute in E. injection E as <-. vm_compute. reflexivity.
    + vm_compute in E. injection E as <-. split; vm_compute; reflexivity.
  - vm_compute in E. discriminate.
Defined.

Lemma terminal_job_stable_witness :
  exists j, heap demo_begun !! 0%nat = Some j /\ j_state j = J_RUNNING /\
    exists j', heap demo_begun !! 0%nat = Some j' /\ job_evolves j j'.
Proof.
  destruct (heap demo_begun !! 0%nat) as [j|] eqn:E; [|vm_compute in E; discriminate].
  exists j. split; [reflexivity|]. split; [vm_compute in E; injection E as <-; reflexivity|].
  destruct (terminal_job_stable (H := demo_crypto) demo_cfg demo_begun demo_begun 0 j
    demo_begun_reach (rtc_refl _ _) E) as (j' & Hj & He & _).
  exists j'. split; [rewrite <- E; exact Hj|exact He].
Defined.
