(* ===== verification/Frame.v ===== *)
(** What every step of the control plane respects, whoever takes it.

    [frame]: the permit authority moves only by its own steps, the ledger only
    grows, the E-stop latch and the ledger failure are never undone.
    [quietly]: futures stay or move forward into a phase that promises nothing
    about a permit. [tabled]: the action table stays and no job object appears
    or changes its action. [Tolerant] collects what a relation must allow for
    [calls_go] to walk over a method. *)

From S2P Require Export Restart.

(** ** The permit authority only gains *)

Section Authority.
Context `{EventLog L Env} `{Crypto}.
Implicit Types (a : PermitAuthority L).

(** Permits and charges stay, revocations are final. *)
Record tables_grow (c c' : core) : Prop := {
  tg_permits : forall id p, dget (permits c) id = Some p -> dget (permits c') id = Some p;
  tg_consumed : forall x id, consumed c !! x = Some id -> consumed c' !! x = Some id;
  tg_revoked : forall id, is_Some (revoked c !! id) -> is_Some (revoked c' !! id);
}.

#[export] Instance tables_grow_po : PreOrder tables_grow.
Proof. split; [by constructor|]. intros a b c [] []. constructor; eauto. Qed.

Lemma grow_revoke c id reason : tables_grow c (mark_revoked c id reason).
Proof.
  constructor; cbn; try done. intros i Hi. rewrite lookup_insert. by case_decide.
Qed.

Lemma grow_revoke_each env a targets reason :
  tables_grow (tables a) (tables (revoke_each env a targets reason).1).
Proof.
  revert a. induction targets as [|id ts IH]; intros a; [done|]. cbn [revoke_each].
  unfold revoke_locked. destruct (write_event _ _ _ _ _ _) as [l []]; cbn.
  - etrans; [apply (grow_revoke _ id reason)|].
    apply (IH {| tables := mark_revoked (tables a) id reason; ledger := l |}).
  - apply grow_revoke.
Qed.

Lemma grow_register env a p audit : tables_grow (tables a) (tables (register env a p audit).1).
Proof.
  unfold register. destruct (dget _ _) eqn:Hd; [by destruct (ledger a); [case_match|]|].
  destruct (write_event _ _ _ _ _ _) as [l []]; [|done]. constructor; cbn; try done.
  intros id q Hq. rewrite dget_dset. case_decide; [congruence|done].
Qed.

Lemma grow_authorize env now a x peer :
  tables_grow (tables a) (tables (authorize env now a x peer).1).
Proof.
  pose proof (authorize_cases env now a x peer) as Ha.
  destruct (authorize env now a x peer) as [a' r]. cbn.
  destruct Ha as [(? & _ & ->)|[[_ ->]|(id & p & _ & _ & _ & [(_ & -> & _)|(Hn & _ & l & _ & Ha)])]];
    try done.
  destruct Ha as [[_ ->]|[_ ->]]; [|done]. constructor; cbn; try done.
  intros y i Hy. rewrite lookup_insert_ne; [done|]. intros <-. congruence.
Qed.

Lemma grow_step a a' : pstep a a' -> tables_grow (tables a) (tables a').
Proof.
  intros [ | |env x session reason _|env x reason _| ].
  - apply grow_register.
  - apply grow_authorize.
  - unfold revoke_session. pose proof (grow_revoke_each env x (session_targets (tables x) session) reason).
    by destruct (revoke_each _ _ _ _).
  - unfold revoke_all. pose proof (grow_revoke_each env x (all_targets (tables x)) reason).
    by destruct (revoke_each _ _ _ _).
  - done.
Qed.

Lemma grow_steps a a' : rtc pstep a a' -> tables_grow (tables a) (tables a').
Proof. induction 1 as [|? ? ? Hs _ IH]; [done|]. etrans; [by apply grow_step|done]. Qed.

(** ** The ledger only grows *)

Definition log_grows (o o' : option L) : Prop :=
  match o, o' with
  | None, None => True
  | Some l, Some l' => exists es, log_entries l' = (log_entries l ++ es)%list
  | _, _ => False
  end.

#[export] Instance log_grows_po : PreOrder log_grows.
Proof.
  split.
  - intros [l|]; [|done]. exists []. by rewrite app_nil_r.
  - intros [a|] [b|] [c|] H1 H2; try done. destruct H1 as [x Hx], H2 as [y Hy].
    exists (x ++ y)%list. by rewrite Hy, Hx, app_assoc.
Qed.

Lemma grows_write env l ty kind id d : log_grows l (write_event env l ty kind id d).1.
Proof.
  unfold write_event. destruct l as [l|]; [|done]. destruct (log_append _ _ _) as [l' []] eqn:E; cbn.
  - apply log_append_true in E. eauto.
  - apply log_append_false in E. exists []. by rewrite E, app_nil_r.
Qed.

Lemma grows_revoke_each env a targets reason :
  log_grows (ledger a) (ledger (revoke_each env a targets reason).1).
Proof.
  revert a. induction targets as [|id ts IH]; intros a; [done|]. cbn [revoke_each].
  unfold revoke_locked.
  pose proof (grows_write (env id) (ledger a) "PERMIT_REVOKED" "PERMIT" id
    [("permit_id", JStr id); ("reason", JStr reason)]) as Hw.
  destruct (write_event _ _ _ _ _ _) as [l []]; cbn in *; [|done]. etrans; [exact Hw|].
  apply (IH {| tables := mark_revoked (tables a) id reason; ledger := l |}).
Qed.

Lemma grows_register env a p audit : log_grows (ledger a) (ledger (register env a p audit).1).
Proof.
  unfold register. destruct (dget _ _) eqn:Hd.
  { destruct (ledger a) as [l|] eqn:E; [destruct (permit_eqb _ _)|]; cbn [fst]; rewrite E; reflexivity. }
  pose proof (grows_write env (ledger a) "PERMIT_REGISTERED" "PERMIT" (p_permit_id p)
    (registered_payload p audit)) as Hw.
  by destruct (write_event _ _ _ _ _ _) as [l []].
Qed.

Lemma grows_authorize env now a x peer :
  log_grows (ledger a) (ledger (authorize env now a x peer).1).
Proof.
  pose proof (authorize_cases env now a x peer) as Ha.
  destruct (authorize env now a x peer) as [a' r]. cbn.
  destruct Ha as [(? & _ & ->)|[[_ ->]|(id & p & _ & _ & _ & [(_ & -> & _)|(Hn & _ & l & Hw & Ha)])]];
    try done.
  pose proof (grows_write env (ledger a) "PERMIT_CONSUMED" "PERMIT" id (consumed_payload id x peer)) as Hg.
  rewrite Hw in Hg. by destruct Ha as [[_ ->]|[_ ->]].
Qed.
End Authority.

Section Frame.
Context {X : Type} `{EL : EventLog L Env} `{Crypto} (cfg : config).
Abbreviation plane := (plane X L).
Abbreviation io := (io Env).
Abbreviation M := (st plane cp_exn).
Implicit Types (s : plane) (w : io).

(** A pending review goes on with at least its actions. *)
Definition reviewing s s' : Prop :=
  rec_required s' = true /\ rec_ids s ⊆ rec_ids s' /\ rec_real s ⊆ rec_real s'.

(** The daemon's own user acknowledged it, on the ledger, for all its actions. *)
Definition acknowledged s s' : Prop :=
  exists l l' es w ids real reason peer,
    log_of s = Some l /\ log_of s' = Some l' /\ log_entries l' = (log_entries l ++ es)%list /\
    stored (acknowledged_entry w ids real reason peer) ∈ es /\ uid peer = c_euid cfg /\
    rec_ids s ⊆ ids /\ rec_real s ⊆ real.

(** What every step respects. *)
Record frame s s' : Prop := {
  fr_permits : rtc pstep (pa s) (pa s');
  fr_log : log_grows (log_of s) (log_of s');
  fr_latched : latched s = true -> latched s' = true;
  fr_failed : ledger_failed s = true -> ledger_failed s' = true;
  fr_review : rec_required s = true -> reviewing s s' \/ acknowledged s s';
}.

Lemma acknowledged_later a b c :
  acknowledged a b -> log_grows (log_of b) (log_of c) -> acknowledged a c.
Proof.
  intros (l & l' & es & w & ids & real & reason & peer & Ea & Eb & He & Hin & Hr) Hg.
  rewrite Eb in Hg. destruct (log_of c) as [k|] eqn:Ec; [|done]. destruct Hg as [es' Hes].
  exists l, k, (es ++ es')%list, w, ids, real, reason, peer. do 2 (split; [done|]).
  split; [by rewrite Hes, He, app_assoc|]. split; [apply elem_of_app; by left|done].
Qed.

Lemma acknowledged_earlier a b c :
  reviewing a b -> log_grows (log_of a) (log_of b) -> acknowledged b c -> acknowledged a c.
Proof.
  intros (_ & Hi & Hr) Hg (l & l' & es & w & ids & real & reason & peer & Eb & Ec & He & Hin & Hu & Hi' & Hr').
  rewrite Eb in Hg. destruct (log_of a) as [k|] eqn:Ea; [|done]. destruct Hg as [es' Hes].
  exists k, l', (es' ++ es)%list, w, ids, real, reason, peer. do 2 (split; [done|]).
  split; [by rewrite He, Hes, app_assoc|]. split; [apply elem_of_app; by right|].
  split; [done|]. split; set_solver.
Qed.

#[export] Instance frame_po : PreOrder frame.
Proof.
  split; [intros s; constructor; try done; by left|].
  intros a b c [] []. constructor; eauto; [by etrans|by etrans|]. intros Ha.
  destruct (fr_review0 Ha) as [Hab|Hab]; [|right; by eapply acknowledged_later].
  destruct (fr_review1 (proj1 Hab)) as [Hbc|Hbc]; [left|right; by eapply acknowledged_earlier].
  destruct Hab as (? & ? & ?), Hbc as (? & ? & ?). split; [done|]. split; set_solver.
Qed.

Lemma frame_same s s' :
  pa s' = pa s -> latched s' = latched s -> ledger_failed s' = ledger_failed s ->
  rec_required s' = rec_required s -> rec_ids s' = rec_ids s -> rec_real s' = rec_real s -> frame s s'.
Proof.
  intros E1 E2 E3 E4 E5 E6. constructor; rewrite ?E2, ?E3, ?E1; try done.
  - unfold log_of. by rewrite E1.
  - intros Hr. left. unfold reviewing. by rewrite E4, E5, E6.
Qed.

Lemma frame_set (f : plane -> plane) :
  (forall s, pa (f s) = pa s) -> (forall s, latched s = true -> latched (f s) = true) ->
  (forall s, ledger_failed s = true -> ledger_failed (f s) = true) ->
  (forall s, rec_required s = true -> reviewing s (f s)) ->
  keeps frame (st_set (E := cp_exn) f).
Proof.
  intros E1 E2 E3 E4 s. cbn. constructor; [by rewrite E1| |auto..]. unfold log_of. by rewrite E1.
Qed.

Ltac frame_fields :=
  constructor; try done; cbn; try done; try (intros ?; left; unfold reviewing; cbn; split_and!; done).

(** An append to the ledger by anyone but the permit authority. *)
Lemma frame_append w ty kind id d : kind <> "PERMIT" -> keeps frame (append_event w ty kind id d).
Proof.
  intros Hk s. unfold append_event.
  pose proof (grows_write (append_env w ty id) (log_of s) ty kind id d) as Hg.
  destruct (write_event _ _ _ _ _ _) as [l ok] eqn:Hw. cbn in *. frame_fields.
  unfold log_of in *. destruct (pa s) as [t [k|]]; cbn in *.
  - destruct l as [l|]; [|by destruct Hg]. apply rtc_once.
    apply (ps_other {| tables := t; ledger := Some k |} k l); [done|].
    apply write_event_entries in Hw as (? & [= <-] & ->). unfold of_kind. rewrite filter_app.
    destruct ok; [rewrite filter_cons_False by done|]; by rewrite filter_nil, app_nil_r.
  - by injection Hw as <- _.
Qed.

Lemma frame_mark : keeps frame mark_ledger_failure.
Proof. apply frame_set; done. Qed.

Lemma frame_reject w a code message st : keeps frame (gateway_reject w a code message st).
Proof.
  intros s. destruct (gateway_reject_eq w a code message st s) as (g & r & ->). by apply frame_same.
Qed.

Lemma frame_discard id : keeps frame (gateway_discard (X := X) (L := L) id).
Proof. apply frame_set; done. Qed.
Lemma frame_finish_at w loc st r : keeps frame (finish_at w loc st r).
Proof. apply frame_set; done. Qed.
Lemma frame_phase loc p : keeps frame (set_phase (X := X) (L := L) loc p).
Proof. apply frame_set; done. Qed.

Lemma frame_persist w loc : keeps frame (persist_terminal_job w loc).
Proof.
  apply keeps_bind; [apply _|apply keeps_get, _|]. intros [l|]; [|apply keeps_ret, _].
  apply keeps_bind; [apply _|apply keeps_get, _|]. intros h.
  destruct (h !! loc) as [j|]; [|apply keeps_ret, _]. cbn [mbind option_bind].
  destruct (terminal_entry j) as [e|] eqn:He; [|apply keeps_ret, _].
  apply frame_append. unfold terminal_entry in He.
  destruct (j_receipt j), (j_finished_at j); cbn in He; try discriminate He. by injection He as <-.
Qed.

Lemma frame_read s l kind l' es :
  ledger (pa s) = Some l -> log_read l kind = (l', es) ->
  frame s (set_pa {| tables := tables (pa s); ledger := Some l' |} s).
Proof.
  intros Hl Hr%log_read_entries. destruct Hr as [Hr _]. frame_fields.
  - destruct (pa s) as [t o]. cbn in *. subst o. apply rtc_once.
    apply (ps_other {| tables := t; ledger := Some l |} l l'); [done|]. by rewrite Hr.
  - unfold log_of. rewrite Hl. cbn. exists []. by rewrite Hr, app_nil_r.
Qed.

Lemma frame_load w id : keeps frame (load_persisted_job w id).
Proof.
  intros s. unfold load_persisted_job, log_of. destruct (ledger (pa s)) as [l|] eqn:El; [|done].
  destruct (log_read l "ACTION") as [l' es] eqn:Er. pose proof (frame_read _ _ _ _ _ El Er) as Hf.
  destruct es as [es|].
  - destruct (base.filter _ es); [exact Hf|]. by destruct (decode_persisted_job _ _ _).
  - cbn [fst]. etrans; [exact Hf|]. frame_fields.
Qed.

Lemma frame_find w id : keeps frame (find_job w id).
Proof.
  apply keeps_bind; [apply _|apply keeps_get, _|]. intros s. destruct (_ ≫= _) as [[loc j]|];
    [apply keeps_ret, _|]. apply keeps_bind; [apply _|apply frame_load|]. intros j. apply keeps_ret, _.
Qed.

Lemma frame_session {A} (f : SessionManager -> SessionManager * session_result A) :
  keeps frame (of_session f).
Proof. intros s. destruct (of_session_frame f s) as (m & r & ->). by apply frame_same. Qed.

Lemma frame_merge ids real : keeps frame (merge_recovery (X := X) (L := L) ids real).
Proof.
  apply frame_set; try done. intros s _. split; [done|]. cbn.
  split; intros x Hx; apply elem_of_sorted_union; by left.
Qed.

Lemma frame_stop w : keeps frame (runtime_stop w).
Proof. apply keeps_bind; [apply _|by apply frame_set|]. intros _. apply keeps_ret, _. Qed.

(** Open the monad; the leaves are the calls above and plain field updates. *)
Ltac frame_go :=
  repeat match goal with
    | |- keeps _ (st_bind _ _) => apply keeps_bind; [apply _| |intros ?]
    | |- keeps _ (st_try _ _) => apply keeps_try; [apply _| |intros ?]
    | |- keeps _ (st_ret _) => apply keeps_ret, _
    | |- keeps _ (st_raise _) => apply keeps_raise, _
    | |- keeps _ (raise _) => apply keeps_raise, _
    | |- keeps _ (st_get _) => apply keeps_get, _
    | |- keeps _ (guard _ _) => apply keeps_guard, _
    | |- keeps _ (st_guard _ _) => apply keeps_guard, _
    | |- keeps _ (st_each _ _) => apply keeps_each; [apply _|intros ?]
    | |- keeps _ (append_event _ _ _ _ _) => apply frame_append
    | |- keeps _ mark_ledger_failure => apply frame_mark
    | |- keeps _ (gateway_reject _ _ _ _ _) => apply frame_reject
    | |- keeps _ (gateway_discard _) => apply frame_discard
    | |- keeps _ (finish_at _ _ _ _) => apply frame_finish_at
    | |- keeps _ (set_phase _ _) => apply frame_phase
    | |- keeps _ (persist_terminal_job _ _) => apply frame_persist
    | |- keeps _ (find_job _ _) => apply frame_find
    | |- keeps _ (of_session _) => apply frame_session
    | |- keeps _ (runtime_stop _) => apply frame_stop
    | |- keeps _ (merge_recovery _ _) => apply frame_merge
    | |- keeps _ (st_set _) => by apply frame_set
    | |- keeps _ (match _ with _ => _ end) => case_match
    end; try done.

Lemma frame_note w ty kind id d : kind <> "PERMIT" -> keeps frame (append_or_mark w ty kind id d).
Proof. intros Hk. unfold append_or_mark. frame_go. Qed.

Lemma frame_future_cancel loc : keeps frame (future_cancel (X := X) (L := L) loc).
Proof. unfold future_cancel. frame_go. Qed.

Lemma frame_evict b : keeps frame (evict_terminal_jobs (X := X) cfg b).
Proof.
  unfold evict_terminal_jobs. frame_go.
  match goal with |- keeps _ (evict_loop _ ?l) => induction l as [|[id loc] items IH] end.
  - apply keeps_ret, _.
  - cbn [evict_loop]. unfold evict_one. frame_go.
Qed.

Lemma frame_schedule w a loc : keeps frame (schedule w a loc).
Proof.
  unfold schedule, job_dict, job_lease_at, append_lease_event, scheduling_failed. frame_go.
  by apply frame_note.
Qed.

Lemma frame_request w a peer : keeps frame (request_locked cfg w a peer).
Proof.
  unfold request_locked, require_running, require_job_owner, acquire_slot, undo_enqueue, enqueue,
    schedule, job_dict, job_lease_at, append_lease_event, scheduling_failed. frame_go.
  - apply frame_evict.
  - by apply frame_note.
Qed.

Lemma frame_status w id peer : keeps frame (get_action_status cfg w id peer).
Proof. unfold get_action_status, require_job_owner. frame_go. Qed.

Lemma frame_cancel w id peer : keeps frame (cancel_action cfg w id peer).
Proof.
  unfold cancel_action, require_job_owner, cancel_queued. frame_go. apply frame_future_cancel.
Qed.

Lemma frame_renew w id session peer : keeps frame (renew_locked cfg w id session peer).
Proof. unfold renew_locked, require_job_owner. frame_go. Qed.

(** The pieces of [acknowledge_recovery] after its guards. *)
Lemma acknowledge_eq w reason peer s :
  let normalized := strip reason in
  acknowledge_recovery cfg w reason peer s =
  if negb (uid peer =? c_euid cfg) then (s, Err (ControlPlaneError "PERMISSION_DENIED"))
  else if negb (truthy_str normalized && (len normalized <=? 1024))
  then (s, Err (ControlPlaneError "INVALID_ARGUMENT"))
  else if negb (rec_required s) then (s, Ok false)
  else match log_of s with
  | None => (s, Err (ControlPlaneError "RECOVERY_LEDGER_REQUIRED"))
  | Some l =>
      let e := acknowledged_entry w (rec_ids s) (rec_real s) normalized peer in
      let '(l, ok) := write_event (append_env w (en_type e) (en_id e)) (Some l)
                        (en_type e) (en_kind e) (en_id e) (en_payload e) in
      let s1 := set_pa {| tables := tables (pa s); ledger := l |} s in
      if ok then ((clear_recovery s1).1, Ok true)
      else (set_ledger_failed true s1, Err (ControlPlaneError "LEDGER_UNAVAILABLE"))
  end.
Proof.
  cbv zeta. unfold acknowledge_recovery, guard, st_guard, st_bind, st_get, st_ret.
  destruct (uid peer =? c_euid cfg); [|done].
  destruct (truthy_str (strip reason) && (len (strip reason) <=? 1024)); [|done].
  cbn [negb]. destruct (rec_required s); [|done]. cbn [negb]. unfold append_event.
  destruct (log_of s) as [l|] eqn:El; [|done].
  rewrite bool_decide_eq_true_2 by (by eexists). unfold st_ret. cbn beta iota zeta. rewrite El.
  match goal with |- context [write_event ?e ?l ?t ?k ?i ?d] =>
    destruct (write_event e l t k i d) as [lo ok] end.
  by destruct ok.
Qed.

Lemma frame_acknowledge w reason peer : keeps frame (acknowledge_recovery cfg w reason peer).
Proof.
  intros s. rewrite acknowledge_eq. destruct (uid peer =? c_euid cfg) eqn:Hu; [|done].
  apply Z.eqb_eq in Hu. cbn [negb]. do 2 (destruct (negb _); [done|]).
  destruct (log_of s) as [l|] eqn:El; [|done]. cbv zeta.
  set (e := acknowledged_entry w (rec_ids s) (rec_real s) (strip reason) peer).
  pose proof (frame_append w (en_type e) (en_kind e) (en_id e) (en_payload e)) as Hf.
  specialize (Hf ltac:(done) s). unfold append_event in Hf. rewrite El in Hf.
  destruct (write_event _ _ _ _ _ _) as [lo []] eqn:Hw; cbn [fst] in Hf |- *.
  - constructor; try apply Hf. intros _. right.
    apply write_event_entries in Hw as (l1 & -> & Hes).
    exists l, l1, [stored e], w, (rec_ids s), (rec_real s), (strip reason), peer.
    do 2 (split; [done|]). split; [exact Hes|]. split; [by left|]. done.
  - etrans; [exact Hf|]. frame_fields.
Qed.

Lemma frame_update f : keeps frame (update_jobs (X := X) (L := L) f).
Proof. unfold update_jobs. frame_go. Qed.

Lemma frame_finish_overridden w loc : keeps frame (finish_overridden_job w loc).
Proof. unfold finish_overridden_job. frame_go. Qed.

Lemma frame_terminalize w loc : keeps frame (terminalize_queued_override w loc).
Proof.
  unfold terminalize_queued_override. frame_go; [apply frame_future_cancel|].
  apply frame_finish_overridden.
Qed.

Lemma frame_begin w loc : keeps frame (run_begin w loc).
Proof.
  unfold run_begin, started_failed. frame_go. apply frame_finish_overridden.
Qed.

Lemma frame_report_reject w loc a code message st :
  keeps frame (report_reject w loc a code message st).
Proof. unfold report_reject. frame_go. Qed.

Lemma frame_armed w loc z : keeps frame (run_armed w loc z).
Proof. unfold run_armed, action_failed. frame_go; apply frame_report_reject. Qed.

Lemma frame_submit w loc x lease run : keeps frame (run_submit w loc x lease run).
Proof.
  unfold run_submit. frame_go. intros s.
  destruct (runtime_submit_eq w loc x lease run s) as (g & r & ->). by apply frame_same.
Qed.

Lemma frame_finish w loc d : keeps frame (run_finish w loc d).
Proof. unfold run_finish, terminal_write_failed. frame_go. Qed.

Lemma frame_register s w p audit x r :
  permit_ok p -> register (append_env w "PERMIT_REGISTERED" (p_permit_id p)) (pa s) p audit = (x, r) ->
  frame s (set_pa x s).
Proof.
  intros Hp Hr. frame_fields.
  - apply rtc_once. replace x with (register (append_env w "PERMIT_REGISTERED" (p_permit_id p))
      (pa s) p audit).1 by (by rewrite Hr). by apply ps_register.
  - pose proof (grows_register (append_env w "PERMIT_REGISTERED" (p_permit_id p)) (pa s) p audit) as Hg.
    by rewrite Hr in Hg.
Qed.

Lemma post_init_same p q : permit_post_init p = Ok q -> q = p.
Proof. unfold permit_post_init. intros Hp. by ok_inv Hp. Qed.

Lemma frame_issue w a reason principal target expires operator context :
  dt_wf expires ->
  keeps frame (issue_locked cfg w a reason principal target expires operator context).
Proof.
  intros Hwf. unfold issue_locked. frame_go.
  intros s'. match goal with Hp : permit_post_init _ = Ok ?q |- _ =>
    assert (Hok : permit_ok q) by (apply post_init_same in Hp as Hq; subst q; by constructor) end.
  destruct (register _ _ _ _) as [x r] eqn:Hr. pose proof (frame_register _ _ _ _ _ _ Hok Hr) as Hf.
  destruct r as [u|e]; [exact Hf|]. cbn. etrans; [exact Hf|]. frame_fields.
Qed.

Lemma frame_revoke_session s env session reason :
  nonblank reason = true -> frame s (set_pa (revoke_session env (pa s) session reason).1 s).
Proof.
  intros Hr. frame_fields.
  - by apply rtc_once, ps_revoke_session.
  - unfold revoke_session, log_of. pose proof (grows_revoke_each env (pa s)
      (session_targets (tables (pa s)) session) reason). by destruct (revoke_each _ _ _ _).
Qed.

Lemma frame_revoke_all s env reason :
  nonblank reason = true -> frame s (set_pa (revoke_all env (pa s) reason).1 s).
Proof.
  intros Hr. frame_fields.
  - by apply rtc_once, ps_revoke_all.
  - unfold revoke_all, log_of. pose proof (grows_revoke_each env (pa s)
      (all_targets (tables (pa s))) reason). by destruct (revoke_each _ _ _ _).
Qed.

Lemma frame_authorize w loc s :
  (forall j, heap s !! loc = Some j -> nonblank (action_id (j_action j)) = true) ->
  frame s (run_authorize w loc s).1.
Proof.
  intros Hid. unfold run_authorize. destruct (heap s !! loc) as [j|]; [|done].
  pose proof (ps_authorize (append_env w "PERMIT_CONSUMED" (action_id (j_action j))) (clock w 0)
    (pa s) (j_action j) (j_peer j) (Hid j eq_refl)) as Hs.
  pose proof (grows_authorize (append_env w "PERMIT_CONSUMED" (action_id (j_action j))) (clock w 0)
    (pa s) (j_action j) (j_peer j)) as Hg.
  destruct (authorize _ _ _ _ _) as [p r]. cbn in Hs, Hg.
  assert (Hf : frame s (set_pa p s)) by (frame_fields; by apply rtc_once).
  destruct r as [d|[]].
  - destruct (d_allowed d).
    + etrans; [exact Hf|apply frame_phase].
    + etrans; [exact Hf|apply frame_report_reject].
  - etrans; [exact Hf|apply frame_report_reject].
  - etrans; [exact Hf|]. generalize (set_pa p s).
    apply keeps_bind; [apply _|apply frame_mark|]. intros _. apply frame_report_reject.
Qed.

Lemma frame_arm : keeps frame (arm_locked (X := X) (L := L)).
Proof. unfold arm_locked. frame_go. Qed.

Lemma frame_lose session : keeps frame (lose_jobs (X := X) (L := L) session).
Proof. unfold lose_jobs. frame_go. apply frame_update. Qed.

Lemma frame_watch w : keeps frame (watch_jobs w).
Proof. unfold watch_jobs. frame_go. apply frame_update. Qed.

Lemma frame_stop_lead loc : keeps frame (stop_lead (X := X) (L := L) loc).
Proof. unfold stop_lead. frame_go. Qed.

Lemma frame_take loc : keeps frame (run_take (X := X) (L := L) loc).
Proof. unfold run_take. frame_go. Qed.

Lemma frame_return loc : keeps frame (run_return (X := X) (L := L) loc).
Proof. unfold run_return. frame_go. Qed.

Lemma frame_shutdown : keeps frame (pool_shutdown (X := X) (L := L)).
Proof. unfold pool_shutdown. frame_go. apply frame_future_cancel. Qed.

Lemma frame_start w : keeps frame (cp_start cfg w).
Proof.
  unfold cp_start, recover_incomplete_jobs, require_review, recover_job. frame_go.
  apply frame_evict.
Qed.

(** ** The steps *)

(** The action whose permit is asked for is one the contract accepts. *)
Definition ids_ok s : Prop := forall loc j,
  futures s !! loc = Some R_authorize -> heap s !! loc = Some j ->
  nonblank (action_id (j_action j)) = true.

Lemma step_frame s s' : ids_ok s -> cstep cfg s s' -> frame s s'.
Proof.
  intros Hid Hs. destruct Hs; try (by apply frame_same).
  - by apply frame_revoke_session.
  - by apply frame_revoke_all.
  - apply frame_note. intros ->. done.
  - frame_fields.
  - apply frame_request.
  - apply frame_status.
  - apply frame_cancel.
  - apply frame_renew.
  - apply frame_arm.
  - frame_fields.
  - by apply frame_issue.
  - apply frame_acknowledge.
  - apply frame_lose.
  - apply frame_terminalize.
  - apply frame_stop_lead.
  - apply frame_watch.
  - apply frame_take.
  - apply frame_begin.
  - apply frame_authorize. by eauto.
  - apply frame_armed.
  - apply frame_submit.
  - apply frame_finish.
  - apply frame_return.
  - apply frame_shutdown.
Qed.

(** ** How a job's thread moves *)

Definition phase_rank (p : run_phase) : Z :=
  match p with
  | R_pending => 0 | R_begin => 1 | R_authorize => 2 | R_armed _ => 3 | R_submit _ => 4
  | R_report _ => 5 | R_stop _ => 6 | R_finish _ => 7 | R_return => 8 | R_cancelled | R_done => 9
  end.

(** The phases that promise nothing about the permit. *)
Definition quiet (p : run_phase) : bool :=
  match p with R_authorize | R_armed _ | R_submit _ => false | _ => true end.

(** A future stays, or moves forward into a quiet phase. *)
Definition advances (a b : option run_phase) : Prop :=
  a = b \/ exists p q, a = Some p /\ b = Some q /\ quiet q = true /\ phase_rank p < phase_rank q.

Definition quietly s s' : Prop := forall loc, advances (futures s !! loc) (futures s' !! loc).

#[export] Instance quietly_po : PreOrder quietly.
Proof.
  split; [by intros s loc; left|]. intros a b c H1 H2 loc.
  destruct (H1 loc) as [E1|(p & q & E1 & E2 & Hq & Hr)],
    (H2 loc) as [E3|(p' & q' & E3 & E4 & Hq' & Hr')].
  - left. congruence.
  - right. exists p', q'. rewrite E1. auto.
  - right. exists p, q. rewrite <- E3. auto.
  - right. exists p, q'. simplify_eq. repeat split; try done. lia.
Qed.

Lemma quietly_same s s' : futures s' = futures s -> quietly s s'.
Proof. intros E loc. left. by rewrite E. Qed.

Lemma quietly_move s s' loc p q :
  futures s !! loc = Some p -> futures s' = <[loc := q]> (futures s) -> quiet q = true ->
  phase_rank p < phase_rank q -> quietly s s'.
Proof.
  intros Hf E Hq Hr l. rewrite E. destruct (decide (loc = l)) as [<-|Hne].
  - right. exists p, q. by rewrite lookup_insert_eq.
  - left. by rewrite lookup_insert_ne.
Qed.

(** ** Walking over a method for any relation that tolerates the calls a method
    makes: it must not mind changes outside the queue, nor an update of a job
    that keeps its action. *)
Class Tolerant (R : plane -> plane -> Prop) := {
  tl_po :: PreOrder R;
  tl_same : forall s s', heap s' = heap s -> jobs s' = jobs s -> futures s' = futures s -> R s s';
  tl_modify : forall loc f s, (forall j, j_action (f j) = j_action j) -> R s (modify_job loc f s);
}.

Section Tolerant.
Context (R : plane -> plane -> Prop) `{!Tolerant R}.

Lemma tl_set (f : plane -> plane) :
  (forall s, heap (f s) = heap s) -> (forall s, jobs (f s) = jobs s) ->
  (forall s, futures (f s) = futures s) -> keeps R (st_set (E := cp_exn) f).
Proof. intros E1 E2 E3 s. apply tl_same; [apply E1|apply E2|apply E3]. Qed.

Lemma tl_job loc f : (forall j, j_action (f j) = j_action j) ->
  keeps R (st_set (E := cp_exn) (modify_job (X := X) (L := L) loc f)).
Proof. intros Hf s. by apply tl_modify. Qed.

Lemma tl_append w ty kind id d : keeps R (append_event w ty kind id d).
Proof. intros s. sx_calls. by apply tl_same. Qed.
Lemma tl_reject w a code message st : keeps R (gateway_reject w a code message st).
Proof. intros s. sx_calls. by apply tl_same. Qed.
Lemma tl_persist w loc : keeps R (persist_terminal_job w loc).
Proof. intros s. sx_calls. by apply tl_same. Qed.
Lemma tl_find w id : keeps R (find_job w id).
Proof. intros s. destruct (find_job_eq w id s) as (p & b & r & -> & _). by apply tl_same. Qed.
Lemma tl_session {A} (f : SessionManager -> SessionManager * session_result A) :
  keeps R (of_session f).
Proof. intros s. destruct (of_session_frame f s) as (m & r & ->). by apply tl_same. Qed.
Lemma tl_submit w ev a lease run : keeps R (runtime_submit w ev a lease run).
Proof. intros s. destruct (runtime_submit_eq w ev a lease run s) as (g & r & ->). by apply tl_same. Qed.
End Tolerant.
End Frame.

Ltac calls_go :=
  repeat match goal with
    | |- keeps _ (st_bind _ _) => apply keeps_bind; [apply _| |intros ?]
    | |- keeps _ (st_ret _) => apply keeps_ret, _
    | |- keeps _ (st_raise _) => apply keeps_raise, _
    | |- keeps _ (raise _) => apply keeps_raise, _
    | |- keeps _ (st_get _) => apply keeps_get, _
    | |- keeps _ (guard _ _) => apply keeps_guard, _
    | |- keeps _ (st_guard _ _) => apply keeps_guard, _
    | |- keeps _ (st_each _ _) => apply keeps_each; [apply _|intros ?]
    | |- keeps _ (append_event _ _ _ _ _) => apply tl_append, _
    | |- keeps ?R mark_ledger_failure => by apply (tl_set R)
    | |- keeps _ (gateway_reject _ _ _ _ _) => apply tl_reject, _
    | |- keeps ?R (gateway_discard _) => by apply (tl_set R)
    | |- keeps _ (runtime_submit _ _ _ _ _) => apply tl_submit, _
    | |- keeps ?R (finish_at _ ?l _ _) => apply (tl_job R l); try (intros ?; reflexivity)
    | |- keeps _ (persist_terminal_job _ _) => apply tl_persist, _
    | |- keeps _ (find_job _ _) => apply tl_find, _
    | |- keeps _ (of_session _) => apply tl_session, _
    | |- keeps ?R (st_set (modify_job ?l ?f)) => apply (tl_job R l f); try (intros ?; reflexivity)
    | |- keeps ?R (st_set _) => by apply (tl_set R)
    | |- keeps _ (match _ with _ => _ end) => case_match
    end; try done.

Section Walk.
Context {X : Type} `{EL : EventLog L Env} `{Crypto} (cfg : config).
Abbreviation plane := (plane X L).
Abbreviation io := (io Env).
Abbreviation M := (st plane cp_exn).
Implicit Types (s : plane) (w : io).

Lemma soft_action f : soft f -> forall j, j_action (f j) = j_action j.
Proof. intros Hf j. apply Hf. Qed.

(** The methods that no thread of a job runs. [future_cancel] is what is left
    to show for the relation. *)
Section Methods.
Context (R : plane -> plane -> Prop) `{!Tolerant R}.
Context (Hcancel : forall loc, keeps R (future_cancel (X := X) (L := L) loc)).

Lemma tl_finish_overridden w loc : keeps R (finish_overridden_job w loc).
Proof. unfold finish_overridden_job. calls_go. Qed.
Lemma tl_note w ty kind id d : keeps R (append_or_mark w ty kind id d).
Proof. unfold append_or_mark. calls_go. Qed.
Lemma tl_status w id peer : keeps R (get_action_status cfg w id peer).
Proof. unfold get_action_status, require_job_owner. calls_go. Qed.
Lemma tl_cancel w id peer : keeps R (cancel_action cfg w id peer).
Proof. unfold cancel_action, require_job_owner, cancel_queued. calls_go. Qed.
Lemma tl_renew w id session peer : keeps R (renew_locked cfg w id session peer).
Proof. unfold renew_locked, require_job_owner. calls_go. Qed.
Lemma tl_arm : keeps R (arm_locked (X := X) (L := L)).
Proof. unfold arm_locked. calls_go. Qed.
Lemma tl_acknowledge w reason peer : keeps R (acknowledge_recovery cfg w reason peer).
Proof. unfold acknowledge_recovery, clear_recovery. calls_go. Qed.
Lemma tl_update f : (forall j, j_action (f j) = j_action j) ->
  keeps R (update_jobs (X := X) (L := L) f).
Proof. intros Hf. unfold update_jobs. calls_go. Qed.
Lemma tl_lose session : keeps R (lose_jobs (X := X) (L := L) session).
Proof.
  unfold lose_jobs. calls_go. apply tl_update, soft_action, soft_lose.
Qed.
Lemma tl_watch w : keeps R (watch_jobs w).
Proof.
  unfold watch_jobs. calls_go. apply tl_update, soft_action, soft_watch.
Qed.
Lemma tl_terminalize w loc : keeps R (terminalize_queued_override w loc).
Proof.
  unfold terminalize_queued_override. calls_go. apply tl_finish_overridden.
Qed.
Lemma tl_stop_lead loc : keeps R (stop_lead (X := X) (L := L) loc).
Proof. unfold stop_lead. calls_go. Qed.
Lemma tl_shutdown : keeps R (pool_shutdown (X := X) (L := L)).
Proof. unfold pool_shutdown. calls_go. Qed.
Lemma tl_issue w a reason principal target expires operator context :
  keeps R (issue_locked cfg w a reason principal target expires operator context).
Proof.
  unfold issue_locked. calls_go.
  intros s'. destruct (register _ _ _ _) as [x []]; by apply tl_same.
Qed.
End Methods.

#[export] Instance quietly_tolerant : Tolerant (quietly (X := X) (L := L)).
Proof. split; [apply _|..]; intros; by apply quietly_same. Qed.

Lemma quietly_future_cancel loc : keeps quietly (future_cancel (X := X) (L := L) loc).
Proof.
  intros s. destruct (future_cancel loc s) as [s' r] eqn:Hc. cbn [fst].
  apply future_cancel_spec in Hc as [(_ & Hf & ->)|[(_ & _ & ->)|[_ ->]]]; [|done..].
  by eapply quietly_move.
Qed.

Lemma quietly_take loc : keeps quietly (run_take (X := X) (L := L) loc).
Proof.
  intros s. unfold run_take. sx. destruct (futures s !! loc) as [[]|] eqn:Hf; try done.
  by eapply quietly_move.
Qed.
Lemma quietly_return loc : keeps quietly (run_return (X := X) (L := L) loc).
Proof.
  intros s. unfold run_return. sx. destruct (futures s !! loc) as [[]|] eqn:Hf; try done.
  by eapply quietly_move.
Qed.
Lemma quietly_submit w loc x lease run s :
  futures s !! loc = Some (R_submit x) -> quietly s (run_submit w loc x lease run s).1.
Proof.
  intros Hf. unfold run_submit. sx.
  destruct (runtime_submit_eq w loc x lease run s) as (g & r & ->). sx. by eapply quietly_move.
Qed.
Lemma quietly_report loc d s :
  futures s !! loc = Some (R_report d) -> quietly s (run_report loc d s).1.
Proof.
  intros Hf. unfold run_report. sx. case_bool_decide; by eapply quietly_move.
Qed.

(** ** The table and the objects *)

(** Everything but a request and an eviction: the table stays, and no job
    object appears or changes its action. *)
Record tabled s s' : Prop := {
  tb_jobs : jobs s' = jobs s;
  tb_heap : forall loc j', heap s' !! loc = Some j' ->
    exists j, heap s !! loc = Some j /\ j_action j' = j_action j;
}.

#[export] Instance tabled_po : PreOrder tabled.
Proof.
  split; [by split; eauto|]. intros a b c [J1 H1] [J2 H2]. split; [congruence|].
  intros loc j3 (j2 & Hj2 & E2)%H2. apply H1 in Hj2 as (j1 & Hj1 & E1). exists j1. split; congruence.
Qed.

Lemma tabled_same s s' : jobs s' = jobs s -> heap s' = heap s -> tabled s s'.
Proof. intros E1 E2. split; [done|]. rewrite E2. eauto. Qed.

#[export] Instance tabled_tolerant : Tolerant tabled.
Proof.
  split; [apply _| |].
  - intros s s' E1 E2 _. by apply tabled_same.
  - intros loc f s Hf. split; [done|]. intros l j'. cbn. rewrite lookup_alter.
    case_decide as Hl; [subst l|by eauto]. destruct (heap s !! loc) as [j|] eqn:E; [|done].
    intros [= <-]. exists j. by split.
Qed.

Lemma tabled_future_cancel loc : keeps tabled (future_cancel (X := X) (L := L) loc).
Proof.
  intros s. destruct (future_cancel loc s) as [s' r] eqn:Hc. cbn [fst].
  apply future_cancel_spec in Hc as [(_ & Hf & ->)|[(_ & _ & ->)|[_ ->]]]; by apply tabled_same.
Qed.

Lemma tabled_phase loc p : keeps tabled (set_phase (X := X) (L := L) loc p).
Proof. intros s. by apply tabled_same. Qed.

Ltac tabled_go := calls_go; try apply tabled_phase.

Lemma tabled_reject w loc a code message st : keeps tabled (report_reject w loc a code message st).
Proof. unfold report_reject. tabled_go. Qed.

Lemma tabled_begin w loc : keeps tabled (run_begin w loc).
Proof.
  unfold run_begin, started_failed. tabled_go. apply tl_finish_overridden, _.
Qed.

Lemma tabled_authorize w loc : keeps tabled (run_authorize w loc).
Proof.
  intros s. unfold run_authorize. destruct (heap s !! loc) as [j|]; [|done].
  destruct (authorize _ _ _ _ _) as [p r].
  assert (Hp : tabled s (set_pa p s)) by (by apply tabled_same).
  destruct r as [d|[]]; (etrans; [exact Hp|]).
  - destruct (d_allowed d); [apply tabled_phase|apply tabled_reject].
  - apply tabled_reject.
  - apply keeps_bind; [apply _|by apply (tl_set tabled)|]. intros _. apply tabled_reject.
Qed.

Lemma tabled_armed w loc z : keeps tabled (run_armed w loc z).
Proof. unfold run_armed, action_failed. tabled_go; apply tabled_reject. Qed.

Lemma tabled_submit w loc x lease run : keeps tabled (run_submit w loc x lease run).
Proof. unfold run_submit. tabled_go. Qed.

Lemma tabled_finish w loc d : keeps tabled (run_finish w loc d).
Proof.
  unfold run_finish, terminal_write_failed, merge_recovery, runtime_stop. tabled_go.
Qed.

Lemma tabled_take loc : keeps tabled (run_take (X := X) (L := L) loc).
Proof. unfold run_take. tabled_go. Qed.

Lemma tabled_return loc : keeps tabled (run_return (X := X) (L := L) loc).
Proof. unfold run_return. calls_go; try apply tabled_phase; by apply (tl_set tabled). Qed.

Lemma step_tabled s s' :
  cstep cfg s s' -> tabled s s' \/
  exists w a peer, storable a /\ peer_ok peer /\ s' = (request_locked cfg w a peer s).1.
Proof.
  intros Hs. destruct Hs; try (left; by apply tabled_same); try (right; by eauto 10); left.
  - apply tl_note, _.
  - apply tl_status, _.
  - apply tl_cancel; [apply _|apply tabled_future_cancel].
  - apply tl_renew, _.
  - apply tl_arm, _.
  - apply tl_issue, _.
  - apply tl_acknowledge, _.
  - apply tl_lose, _.
  - apply tl_terminalize; [apply _|apply tabled_future_cancel].
  - apply tl_stop_lead, _.
  - by apply (tl_job tabled).
  - apply tl_watch, _.
  - apply tabled_take.
  - apply tabled_begin.
  - apply tabled_authorize.
  - apply tabled_armed.
  - apply tabled_submit.
  - apply tabled_finish.
  - apply tabled_return.
  - apply tl_shutdown; [apply _|apply tabled_future_cancel].
Qed.

(** ** The steps of a job's own thread *)

Lemma quietly_reject w loc a code message st s p :
  futures s !! loc = Some p -> phase_rank p < 5 -> quietly s (report_reject w loc a code message st s).1.
Proof. intros Hf Hp. unfold report_reject. sx. by eapply quietly_move. Qed.

Lemma begin_futures w loc s :
  futures s !! loc = Some R_begin ->
  quietly s (run_begin w loc s).1 \/
  exists j, heap s !! loc = Some j /\
    futures (run_begin w loc s).1 =
      <[loc := if bool_decide (execution_mode (j_action j) = REAL)
               then R_authorize else R_submit (j_action j)]> (futures s).
Proof.
  intros Hf. unfold run_begin. sx. destruct (heap s !! loc) as [j|] eqn:Hl; [|by left].
  destruct (begin_override w j) as [ov|].
  - left. sx. set (s1 := modify_job loc (set_override ov) s).
    destruct (finish_overridden_eq w loc s1) as (p & g & b & [(t & d & ->)|[-> _]]); cbn;
      by eapply quietly_move.
  - sx. destruct ok.
    + right. exists j. split; [done|]. sx. by case_bool_decide.
    + left. unfold started_failed. sx. by eapply quietly_move.
Qed.

(** A permit that authorizes the job's action, charged for it: every binding
    of the permit, and the authorization the executor will see. *)
Record charged (c : core) (j : ActionJob) (z : AuthorizationContext) (id : string)
    (p : ExecutionPermit) : Prop := {
  ch_claimed : approval_id (authorization (j_action j)) = Some id;
  ch_permit : dget (permits c) id = Some p;
  ch_consumed : consumed c !! action_id (j_action j) = Some id;
  ch_context : z = d_authorization (allow p);
  ch_peer : uid (j_peer j) = p_peer_uid p;
  ch_principal : principal_id (authorization (j_action j)) = p_principal_id p;
  ch_session : forall x, p_session_id p = Some x -> session_id (j_action j) = x;
  ch_body : body_id (j_action j) = p_body_id p;
  ch_snapshot : body_snapshot_hash (j_action j) = p_body_snapshot_hash p;
  ch_scope : capability_id (j_action j) ∈ p_capabilities p;
  ch_intent : action_intent_hash (j_action j) = Some (p_action_intent_hash p);
}.

Lemma charged_grow c c' j j' z id p :
  tables_grow c c' -> j_action j' = j_action j -> j_peer j' = j_peer j ->
  charged c j z id p -> charged c' j' z id p.
Proof. intros [Hp Hc _] Ea Ep []. constructor; rewrite ?Ea, ?Ep; auto. Qed.

Lemma authorize_futures w loc s :
  futures s !! loc = Some R_authorize ->
  quietly s (run_authorize w loc s).1 \/
  exists j id p, heap s !! loc = Some j /\
    futures (run_authorize w loc s).1 = <[loc := R_armed (d_authorization (allow p))]> (futures s) /\
    charged (tables (pa (run_authorize w loc s).1)) j (d_authorization (allow p)) id p.
Proof.
  intros Hf. unfold run_authorize. destruct (heap s !! loc) as [j|] eqn:Hl; [|by left].
  pose proof (authorize_cases (append_env w "PERMIT_CONSUMED" (action_id (j_action j))) (clock w 0)
    (pa s) (j_action j) (j_peer j)) as Ha.
  destruct (authorize _ _ _ _ _) as [q r].
  assert (Hq : forall code message st (s0 : plane), futures s0 = futures s ->
    quietly s (report_reject w loc (j_action j) code message st s0).1).
  { intros code message st s0 E. etrans; [apply (quietly_same s s0 E)|].
    eapply quietly_reject; [by rewrite E|done]. }
  destruct Ha as [(code & -> & ->)|[[-> ->]|(id & p & Hid & Hp & [] & Ha)]].
  - left. cbn. by apply Hq.
  - left. by apply Hq.
  - destruct Ha as [(-> & -> & Hc)|(Hc & _ & l & _ & [[-> ->]|[-> ->]])].
    + right. exists j, id, p. split; [done|]. cbn. split; [done|]. by constructor.
    + right. exists j, id, p. split; [done|]. cbn. split; [done|].
      constructor; try done. cbn. by rewrite lookup_insert_eq.
    + left. unfold st_bind, mark_ledger_failure, st_set. by apply Hq.
Qed.

Lemma armed_futures w loc z s :
  futures s !! loc = Some (R_armed z) ->
  quietly s (run_armed w loc z s).1 \/
  exists j x, heap s !! loc = Some j /\ supervision s = ARMED /\
    ActionEnvelope_from_dict (clock w 0) (fresh_id w) (authorized_payload (j_action j) z) = Ok x /\
    futures (run_armed w loc z s).1 = <[loc := R_submit x]> (futures s).
Proof.
  intros Hf. unfold run_armed. sx. destruct (heap s !! loc) as [j|] eqn:Hl; [|by left].
  case_bool_decide; [|left; by eapply quietly_reject].
  destruct (ActionEnvelope_from_dict _ _ _) as [x|e] eqn:E; [|left; by eapply quietly_reject].
  right. by exists j, x.
Qed.

Lemma quietly_finish w loc d s :
  futures s !! loc = Some (R_finish d) -> quietly s (run_finish w loc d s).1.
Proof.
  intros Hf. unfold run_finish. sx. destruct (heap s !! loc) as [j|]; [|done].
  destruct (match j_terminal_override j with Some _ => _ | None => _ end) as [receipt|e]; sx.
  2: by eapply quietly_move.
  destruct ok; sx.
  - sx_if; by eapply quietly_move.
  - unfold terminal_write_failed, merge_recovery, runtime_stop. sx.
    destruct (bool_decide (execution_mode (j_action j) = REAL)); sx;
      try (destruct (dispatch_accepted _); sx); by eapply quietly_move.
Qed.

(** The authorized envelope is the job's own action under its permit. *)
Lemma authorized_payload_decodes now uuid a z x :
  storable a -> ActionEnvelope_from_dict now uuid (authorized_payload a z) = Ok x ->
  x = with_authorization a z.
Proof.
  intros [Hok Hp Hd] Hx.
  assert (E : authorized_payload a z = ActionEnvelope_to_dict (with_authorization a z)) by reflexivity.
  rewrite E in Hx. destruct (ok_deadline _ Hok) as [d Hdl].
  rewrite (ActionEnvelope_round_trip now uuid (with_authorization a z) d) in Hx;
    [by injection Hx as <-|by destruct Hok|done|done|by apply Hd].
Qed.

(** Starting changes no action and makes no object. *)
Definition objects s s' : Prop := forall loc j', heap s' !! loc = Some j' ->
  exists j, heap s !! loc = Some j /\ j_action j' = j_action j.

#[export] Instance objects_tolerant : Tolerant objects.
Proof.
  split; [split| |].
  - intros s loc j Hj. eauto.
  - intros a b c H1 H2 loc j3 (j2 & Hj2 & E2)%H2. apply H1 in Hj2 as (j1 & Hj1 & E1).
    exists j1. split; congruence.
  - intros s s' E _ _ loc j. rewrite E. eauto.
  - intros loc f s Hf l j'. apply (tb_heap _ _ (tl_modify (R := tabled) loc f s Hf)).
Qed.

Lemma objects_start w : keeps objects (cp_start cfg w).
Proof.
  unfold cp_start, recover_incomplete_jobs, require_review, merge_recovery, recover_job, runtime_stop.
  calls_go. intros s' loc j Hj. rewrite (sh_heap _ _ (shrinks_evict cfg false s')) in Hj. eauto.
Qed.

Lemma quietly_start w : keeps (quietly (X := X) (L := L)) (cp_start cfg w).
Proof.
  unfold cp_start, recover_incomplete_jobs, require_review, merge_recovery, recover_job, runtime_stop.
  calls_go. intros s'. apply quietly_same, (sh_futures _ _ (shrinks_evict cfg false s')).
Qed.
End Walk.
