(* ===== verification/Dispatch.v ===== *)
(** What the control plane lets through: which actions reach an executor, under
    which permit, how often, and what an emergency stop and a pending recovery
    review refuse.

    [request_spec] says when a request is taken; [history] that an action id is
    taken once; [threads_ok] what each phase of a job's thread has already
    established; [sound] that all of it holds in every reachable state. *)

From S2P Require Export Frame.

Section Dispatch.
Context {X : Type} `{EL : EventLog L Env} `{Crypto} (cfg : config).
Abbreviation plane := (plane X L).
Abbreviation io := (io Env).
Abbreviation M := (st plane cp_exn).
Implicit Types (s : plane) (w : io).
Abbreviation frame := (Frame.frame (X := X) (EL := EL) cfg).

(** ** Requests *)

(** The ledger has seen an action of that id. *)
Definition taken (l : L) (id : string) : Prop :=
  exists e, e ∈ log_entries l /\ en_kind e = "ACTION" /\ en_id e = id.

Lemma taken_grows l l' id : log_grows (Some l) (Some l') -> taken l id -> taken l' id.
Proof.
  intros [es E] (e & He & Hk). exists e. split; [|done]. rewrite E. apply elem_of_app. by left.
Qed.

(** Without a ledger the table keeps the jobs of REAL actions. *)
Record spares s s' : Prop := {
  sp_heap : heap s' = heap s;
  sp_log : log_of s' = log_of s;
  sp_futures : futures s' = futures s;
  sp_keys : dwf (jobs s) -> dwf (jobs s');
  sp_sub : forall id loc, dwf (jobs s) -> dget (jobs s') id = Some loc -> dget (jobs s) id = Some loc;
  sp_real : forall id loc j, dwf (jobs s) -> log_of s = None -> heap s !! loc = Some j ->
    execution_mode (j_action j) = REAL -> dget (jobs s) id = Some loc ->
    dget (jobs s') id = Some loc;
}.

Lemma spares_refl s : spares s s.
Proof. by constructor. Qed.

Lemma spares_trans a b c : spares a b -> spares b c -> spares a c.
Proof.
  intros [H1 H2 H3 H4 H5 H6] [G1 G2 G3 G4 G5 G6]. constructor; try congruence; eauto.
  intros id loc j Hw Hn Hh Hm Hd. apply (G6 id loc j);
    [by apply H4|congruence|by rewrite H1|done|by apply (H6 id loc j)].
Qed.

Lemma spares_evict_one id loc j s :
  (forall l, dget (jobs s) id = Some l -> l = loc) -> heap s !! loc = Some j ->
  (execution_mode (j_action j) = REAL -> log_of s <> None) -> spares s (evict_one id s).1.
Proof.
  intros Hid Hl Hm. unfold evict_one. sx. constructor; cbn; try done.
  - by apply dwf_dpop.
  - intros i l Hw. destruct (decide (id = i)) as [<-|Hne]; [by rewrite dget_dpop_eq|].
    by rewrite dget_dpop_ne.
  - intros i l x Hw Hn Hx Hr Hd. destruct (decide (id = i)) as [<-|Hne].
    + apply Hid in Hd as ->. simplify_eq. by destruct (Hm Hr).
    + by rewrite dget_dpop_ne.
Qed.

Lemma spares_evict_loop target items s :
  dwf (jobs s) ->
  (forall id loc, (id, loc) ∈ items -> forall l, dget (jobs s) id = Some l -> l = loc) ->
  spares s (evict_loop target items s).1.
Proof.
  revert s. induction items as [|[id loc] items IH]; intros s Hw Hi; [apply spares_refl|].
  cbn [evict_loop]. sx. case_match; [apply spares_refl|].
  assert (Hi' : forall i l0, (i, l0) ∈ items -> forall l, dget (jobs s) i = Some l -> l = l0)
    by (intros; eapply Hi; [by right|done]).
  destruct (heap s !! loc) as [j|] eqn:Hl; [|by apply IH].
  sx_if; [by apply IH|]. apply orb_false_iff in Heqb as [_ Hm].
  pose proof (spares_evict_one id loc j s) as Hs.
  destruct (evict_one id s) as [s1 r] eqn:E. cbn in Hs.
  assert (Hsp : spares s s1).
  { refine (Hs _ Hl _); [by apply Hi; left|]. intros Hr Hn. rewrite Hr, Hn in Hm. done. }
  assert (Hr : r = Ok tt) by (unfold evict_one in E; revert E; sx; by intros [= _ <-]). subst r.
  cbn. eapply spares_trans; [exact Hsp|]. apply IH; [by apply Hsp|].
  intros i l0 Hin l Hd. eapply Hi'; [exact Hin|]. by apply (sp_sub _ _ Hsp).
Qed.

Lemma spares_evict b s : dwf (jobs s) -> spares s (evict_terminal_jobs cfg b s).1.
Proof.
  intros Hw. unfold evict_terminal_jobs. sx. apply spares_evict_loop; [done|].
  intros id loc Hin l Hd. apply (dget_Some _ _ _ Hw) in Hin. congruence.
Qed.

(** A job no request may take: nobody holds its id. *)
Lemma find_job_none w id s s' :
  (forall i loc, dget (jobs s) i = Some loc -> is_Some (heap s !! loc)) ->
  find_job w id s = (s', Ok None) ->
  dget (jobs s) id = None /\ (forall l, log_of s = Some l -> ~ taken l id) /\
  jobs s' = jobs s /\ heap s' = heap s /\ futures s' = futures s /\ slots s' = slots s /\
  ledger_failed s' = ledger_failed s /\ rec_required s' = rec_required s.
Proof.
  intros Hh. unfold find_job. sx. destruct (dget (jobs s) id) as [loc|] eqn:Hd.
  { destruct (Hh _ _ Hd) as [j Hj]. cbn [mbind option_bind]. rewrite Hj. by cbn. }
  cbn [mbind option_bind]. destruct (load_persisted_job w id s) as [s1 [o|e]] eqn:E; [|done].
  destruct o as [j|]; [done|]. intros [= <-]. split; [done|]. revert E. unfold load_persisted_job.
  destruct (log_of s) as [l|] eqn:El; [|by intros [= <-]].
  destruct (log_read l "ACTION") as [l' es] eqn:Er. apply log_read_entries in Er as [_ Hes].
  destruct es as [es|]; [|done]. specialize (Hes es eq_refl). subst es.
  destruct (base.filter (fun e => en_id e = id) _) as [|e es] eqn:Ef; [|by destruct (decode_persisted_job _ _ _)].
  intros [= <-]. split; [|done]. intros ? [= <-] (e & He & Hk & Hid).
  assert (Hin : e ∈ base.filter (fun e => en_id e = id) (of_kind "ACTION" (log_entries l))).
  { apply list_elem_of_filter. split; [done|]. by apply list_elem_of_filter. }
  rewrite Ef in Hin. by apply elem_of_nil in Hin.
Qed.

Lemma enqueue_taken w a peer s s' loc l :
  enqueue cfg w a peer s = (s', Ok loc) -> log_of s' = Some l -> taken l (action_id a).
Proof.
  unfold enqueue, st_bind at 1. destruct (evict_terminal_jobs cfg true s) as [s1 [u|e]]; [|done].
  unfold st_bind at 1, st_get. cbn beta iota.
  unfold st_bind at 1, guard, st_guard, st_ret. destruct (negb _); [|done]. cbn beta iota zeta.
  unfold st_bind at 1, append_event. cbn beta iota zeta.
  match goal with |- context [write_event ?e ?l ?t ?k ?i ?d] =>
    destruct (write_event e l t k i d) as [lo ok] eqn:Hw end.
  destruct ok; sx; [|done]. intros [= <- <-]. cbn. intros ->. destruct (log_of s1) as [l1|]; [|done].
  apply write_event_entries in Hw as (? & [= <-] & E).
  eexists. split; [rewrite E; apply elem_of_app; right; by left|]. done.
Qed.

(** What [schedule] leaves of the objects. *)
Lemma schedule_eq w a loc s s' r j :
  heap s !! loc = Some j -> schedule w a loc s = (s', r) ->
  jobs s' = jobs s /\
  exists j', heap s' = <[loc := j']> (heap s) /\ j_action j' = j_action j /\ j_peer j' = j_peer j /\
    (if pool_accepts w then j' = j /\ futures s' = <[loc := R_pending]> (futures s)
     else j_state j' = J_FINISHED /\ futures s' = futures s).
Proof.
  intros Hl. unfold schedule, job_dict, job_lease_at, append_lease_event, append_or_mark.
  destruct (pool_accepts w).
  - sx. destruct ok; sx; intros [= <- <-]; (split; [done|]); exists j; cbn;
      by rewrite insert_id.
  - unfold scheduling_failed. sx. destruct ok; sx; intros [= <- <-]; (split; [done|]); cbn;
      eexists; by rewrite (alter_at _ _ _ _ Hl).
Qed.

(** [enqueue], with what it keeps of the table. *)
Lemma enqueue_cases w a peer s s' r :
  dwf (jobs s) -> enqueue cfg w a peer s = (s', r) ->
  exists s1, spares s s1 /\ futures s' = futures s /\
    ((exists e, r = Err e /\ heap s' = heap s /\ jobs s' = jobs s1) \/
     (r = Ok (fresh_loc s) /\ heap s' = <[fresh_loc s := requested_job w a peer]> (heap s) /\
      jobs s' = dset (jobs s1) (action_id a) (fresh_loc s))).
Proof.
  intros Hk. unfold enqueue. pose proof (spares_evict true s Hk) as Hs.
  unfold st_bind at 1. destruct (evict_terminal_jobs cfg true s) as [s1 [u|e]]; simpl in Hs.
  2: { intros [= <- <-]. exists s1. split; [done|]. split; [apply Hs|]. left. exists e.
       split; [done|]. by split; [apply Hs|]. }
  intros He. exists s1. split; [exact Hs|]. revert He.
  assert (Hfl : fresh (dom (heap s1)) = fresh_loc s) by (unfold fresh_loc; by rewrite (sp_heap _ _ Hs)).
  sx. destruct (retained_capacity cfg <=? _) eqn:Hc; cbn; sx.
  { intros [= <- <-]. split; [apply Hs|]. left. eexists. split; [done|]. by split; [apply Hs|]. }
  destruct ok; cbn; intros [= <- <-]; (split; [apply Hs|]).
  - right. cbn. rewrite Hfl, (sp_heap _ _ Hs). done.
  - left. eexists. split; [done|]. by split; [apply Hs|].
Qed.

(** A request that was accepted: nobody had its id, the daemon was fit for it,
    and its job is in the table, in the objects and in the ledger. *)
Record accepted w (a : ActionEnvelope) (peer : PeerCredentials) s s' (loc : nat) (j : ActionJob)
  : Prop := {
  ac_running : running s = true /\ closed s = false;
  ac_absent : dget (jobs s) (action_id a) = None;
  ac_untaken : forall l, log_of s = Some l -> ~ taken l (action_id a);
  ac_deadline : exists d, deadline_at a = Some d /\ us (clock w 0) < us d;
  ac_ledger : ledger_failed s = false;
  ac_review : execution_mode a = REAL -> rec_required s = false;
  ac_slot : 0 < slots s;
  ac_free : heap s !! loc = None;
  ac_heap : heap s' = <[loc := j]> (heap s);
  ac_job : j_action j = a /\ j_peer j = peer;
  ac_taken : forall l, log_of s' = Some l -> taken l (action_id a);
  ac_real : forall id l x, log_of s = None -> heap s !! l = Some x ->
    execution_mode (j_action x) = REAL -> dget (jobs s) id = Some l -> dget (jobs s') id = Some l;
  ac_table : dget (jobs s') (action_id a) = Some loc;
  ac_futures : if pool_accepts w then futures s' = <[loc := R_pending]> (futures s)
               else futures s' = futures s;
}.

(** A request that was not: no job appears and no REAL job is forgotten. *)
Record unaccepted s s' : Prop := {
  un_heap : heap s' = heap s;
  un_futures : futures s' = futures s;
  un_real : forall id l x, log_of s = None -> heap s !! l = Some x ->
    execution_mode (j_action x) = REAL -> dget (jobs s) id = Some l -> dget (jobs s') id = Some l;
}.

Lemma unaccepted_same s s' :
  heap s' = heap s -> futures s' = futures s -> jobs s' = jobs s -> unaccepted s s'.
Proof. intros E1 E2 E3. constructor; rewrite ?E3; auto. Qed.

Lemma require_running_eq s :
  require_running s = (s, if running s && negb (closed s) then Ok tt
                          else Err (ControlPlaneError "DAEMON_STOPPING")).
Proof. unfold require_running. sx. by destruct (_ && _). Qed.

Lemma request_spec B w a peer s s' r :
  winv cfg B s -> request_locked cfg w a peer s = (s', r) ->
  unaccepted s s' \/ exists loc j, accepted w a peer s s' loc j.
Proof.
  intros Hw. pose proof (co_keys _ _ _ _ _ _ Hw) as Hk. unfold request_locked.
  unfold st_bind at 1. rewrite require_running_eq.
  destruct (running s && negb (closed s)) eqn:Hrun;
    [|intros [= <- <-]; left; by apply unaccepted_same].
  apply andb_true_iff in Hrun as [Hrun Hcl]. apply negb_true_iff in Hcl.
  cbn beta iota. unfold st_bind at 1.
  assert (Hh : forall i loc, dget (jobs s) i = Some loc -> is_Some (heap s !! loc)).
  { intros i loc Hd. destruct (co_jobs _ _ _ _ _ _ Hw _ _ Hd) as (x & Hx & _). eauto. }
  destruct (find_job w (action_id a) s) as [s0 [[[loc j]|]|e]] eqn:Hf.
  - destruct (find_job_eq w (action_id a) s) as (p & b & r' & Hf' & _). rewrite Hf in Hf'.
    injection Hf' as ->. unfold require_job_owner. sx.
    repeat (sx_if; [|intros [= <- <-]; left; by apply unaccepted_same]).
    intros [= <- <-]. left. by apply unaccepted_same.
  - destruct (find_job_none _ _ _ _ Hh Hf) as (Hab & Hun & Ej & Eh & Ef & Es & Efl & Err).
    pose proof (frame_find cfg w (action_id a) s) as Hfr. rewrite Hf in Hfr. cbn in Hfr.
    assert (Elog : log_of s0 = None <-> log_of s = None).
    { pose proof (fr_log _ _ _ Hfr) as Hg. destruct (log_of s), (log_of s0); cbn in Hg; done. }
    assert (Hno : unaccepted s s0) by (by apply unaccepted_same).
    sx. destruct (match deadline_at a with Some d => _ | None => false end) eqn:Hdl; cbn beta iota;
      [|intros [= <- <-]; by left].
    sx. rewrite Efl. destruct (ledger_failed s) eqn:Hlf; cbn beta iota zeta delta [negb];
      [intros [= <- <-]; by left|]. sx. rewrite Err.
    destruct (bool_decide (execution_mode a = REAL) && rec_required s) eqn:Hre;
      cbn beta iota zeta delta [negb]; [intros [= <- <-]; by left|].
    unfold acquire_slot. sx. destruct (0 <? slots s0) eqn:Hs; cbn beta iota; [|intros [= <- <-]; by left].
    sx. unfold st_try. set (s1 := set_slots (slots s0 - 1) s0).
    assert (Hk1 : dwf (jobs s1)) by (cbn; by rewrite Ej).
    destruct (enqueue cfg w a peer s1) as [s2 r2] eqn:He.
    destruct (enqueue_cases w a peer s1 s2 r2 Hk1 He) as (s3 & Hsp & Ef2 & Hcase).
    assert (Hreal : forall id l x, log_of s = None -> heap s !! l = Some x ->
      execution_mode (j_action x) = REAL -> dget (jobs s) id = Some l -> dget (jobs s3) id = Some l).
    { intros id l x Hn Hx Hm Hd. apply (sp_real _ _ Hsp id l x); try done; cbn;
        [by apply Elog|by rewrite Eh|by rewrite Ej]. }
    destruct Hcase as [(e & -> & Eh2 & Ej2)|(-> & Eh2 & Ej2)].
    + unfold undo_enqueue. sx. intros [= <- <-]. left. constructor; cbn; [by rewrite Eh2|by rewrite Ef2|].
      intros id l x Hn Hx Hm Hd. rewrite dget_dpop_ne; [rewrite Ej2; by apply (Hreal _ _ x)|intros ?; subst; congruence].
    + intros Hsc. assert (Hfree : heap s !! fresh_loc s1 = None)
        by (rewrite <- Eh; apply (fresh_loc_free s1)).
      destruct (schedule_eq w a (fresh_loc s1) s2 s' r (requested_job w a peer))
        as (Ej' & j & Eh' & Eja & Ejp & Hpool); [by rewrite Eh2, lookup_insert_eq|exact Hsc|].
      right. exists (fresh_loc s1), j. constructor; try done.
      * destruct (deadline_at a) as [d|]; [|done]. exists d. split; [done|].
        unfold dt_lt in Hdl. by apply Z.ltb_lt.
      * intros Hm. rewrite Hm in Hre. cbn in Hre. done.
      * rewrite Es in Hs. by apply Z.ltb_lt.
      * rewrite Eh', Eh2. cbn. rewrite insert_insert_eq. by rewrite Eh.
      * intros l Hl. pose proof (frame_schedule cfg w a (fresh_loc s1) s2) as Hfs. rewrite Hsc in Hfs.
        pose proof (fr_log _ _ _ Hfs) as Hg. cbn in Hg. rewrite Hl in Hg.
        destruct (log_of s2) as [l2|] eqn:El2; [|done]. eapply taken_grows; [exact Hg|].
        by eapply enqueue_taken.
      * intros id l x Hn Hx Hm Hd. rewrite Ej', Ej2, dget_dset. destruct (decide (action_id a = id)) as [<-|Hne]; [congruence|].
        by apply (Hreal _ _ x).
      * rewrite Ej', Ej2, dget_dset. by rewrite decide_True.
      * destruct (pool_accepts w); destruct Hpool as [_ ->]; by rewrite Ef2; cbn; rewrite Ef.
  - pose proof (find_job_eq w (action_id a) s) as (p & b & r' & Hf' & _). rewrite Hf in Hf'.
    injection Hf' as ->. intros [= <- <-]. left. by apply unaccepted_same.
Qed.

(** ** Every action id is taken once *)

Record history s : Prop := {
  hi_logged : forall l loc j, log_of s = Some l -> heap s !! loc = Some j ->
    taken l (action_id (j_action j));
  hi_kept : forall loc j, log_of s = None -> heap s !! loc = Some j ->
    execution_mode (j_action j) = REAL -> dget (jobs s) (action_id (j_action j)) = Some loc;
  hi_once : forall l1 l2 j1 j2, heap s !! l1 = Some j1 -> heap s !! l2 = Some j2 ->
    action_id (j_action j1) = action_id (j_action j2) ->
    is_Some (log_of s) \/ execution_mode (j_action j1) = REAL /\ execution_mode (j_action j2) = REAL ->
    l1 = l2;
}.

Lemma log_none s s' : frame s s' -> log_of s' = None <-> log_of s = None.
Proof. intros [_ Hg _ _ _]. destruct (log_of s), (log_of s'); cbn in Hg; done. Qed.

Lemma log_some s s' : frame s s' -> is_Some (log_of s') <-> is_Some (log_of s).
Proof.
  intros Hf. pose proof (log_none _ _ Hf) as Hn. rewrite <- !not_eq_None_Some. by rewrite Hn.
Qed.

Lemma history_tabled s s' : frame s s' -> tabled s s' -> history s -> history s'.
Proof.
  intros Hf [Ej Hb] [Hl Hk Ho]. pose proof (fr_log _ _ _ Hf) as Hg. constructor.
  - intros l loc j' El Hj'. destruct (Hb _ _ Hj') as (j & Hj & ->).
    destruct (log_of s) as [l0|] eqn:E0; rewrite El in Hg; [|done].
    eapply taken_grows; [exact Hg|]. by eapply Hl.
  - intros loc j' En Hj' Hm. destruct (Hb _ _ Hj') as (j & Hj & E). rewrite E in *. rewrite Ej.
    apply Hk; try done. by apply (log_none s s').
  - intros l1 l2 j1 j2 H1 H2 He Hm. destruct (Hb _ _ H1) as (x1 & Hx1 & E1).
    destruct (Hb _ _ H2) as (x2 & Hx2 & E2). rewrite E1, E2, (log_some s s' Hf) in *. by eapply Ho.
Qed.

Lemma history_request B w a peer s :
  winv cfg B s -> history s -> history (request_locked cfg w a peer s).1.
Proof.
  intros Hw Hh. destruct (request_locked cfg w a peer s) as [s' r] eqn:Hr.
  pose proof (frame_request cfg w a peer s) as Hf. rewrite Hr in Hf. cbn in *.
  pose proof (fr_log _ _ _ Hf) as Hg. pose proof Hh as [Hl Hk Ho].
  destruct (request_spec B w a peer s s' r Hw Hr) as [[Eh _ Hreal]|(loc & j & Ha)].
  - constructor; rewrite ?Eh.
    + intros l loc j El Hj. destruct (log_of s) as [l0|] eqn:E0; rewrite El in Hg; [|done].
      eapply taken_grows; [exact Hg|]. by eapply Hl.
    + intros loc j En Hj Hm. apply (log_none s s' Hf) in En. eapply Hreal; eauto.
    + intros l1 l2 j1 j2 H1 H2 He Hm. rewrite (log_some s s' Hf) in Hm. by eapply Ho.
  - destruct Ha as [_ Hab Hun _ _ _ _ Hfree Eh [Ea _] Htk Hreal Htab _].
    assert (Hold : forall l x, heap s !! l = Some x -> action_id (j_action x) = action_id a ->
      is_Some (log_of s) \/ execution_mode (j_action x) = REAL -> False).
    { intros l x Hx E Hc. destruct (log_of s) as [l0|] eqn:E0.
      - apply (Hun l0 eq_refl). rewrite <- E. by eapply Hl.
      - destruct Hc as [[? ?]|Hc]; [done|]. specialize (Hk l x eq_refl Hx Hc). congruence. }
    constructor; rewrite ?Eh.
    + intros l' x y El Hy. destruct (decide (loc = x)) as [<-|Hne].
      * rewrite lookup_insert_eq in Hy. injection Hy as <-. rewrite Ea. by apply Htk.
      * rewrite lookup_insert_ne in Hy by done.
        destruct (log_of s) as [l0|] eqn:E0; rewrite El in Hg; [|done].
        eapply taken_grows; [exact Hg|]. by eapply Hl.
    + intros x y En Hy Hm. apply (log_none s s' Hf) in En. destruct (decide (loc = x)) as [<-|Hne].
      * rewrite lookup_insert_eq in Hy. injection Hy as <-. by rewrite Ea.
      * rewrite lookup_insert_ne in Hy by done. eapply Hreal; eauto.
    + intros l1 l2 j1 j2 H1 H2 He Hm. rewrite (log_some s s' Hf) in Hm.
      destruct (decide (loc = l1)) as [<-|Hn1], (decide (loc = l2)) as [<-|Hn2]; [done|..].
      * rewrite lookup_insert_eq in H1. rewrite lookup_insert_ne in H2 by done. injection H1 as <-.
        destruct (Hold _ _ H2); [congruence|tauto].
      * rewrite lookup_insert_eq in H2. rewrite lookup_insert_ne in H1 by done. injection H2 as <-.
        destruct (Hold _ _ H1); [congruence|tauto].
      * rewrite lookup_insert_ne in H1, H2 by done. by eapply Ho.
Qed.

(** ** What a job's thread has established *)

Definition phase_holds (c : core) (j : ActionJob) (p : run_phase) : Prop :=
  let a := j_action j in
  match p with
  | R_authorize => execution_mode a = REAL
  | R_armed z => execution_mode a = REAL /\ exists id q, charged c j z id q
  | R_submit x =>
      if bool_decide (execution_mode a = REAL)
      then exists z id q, charged c j z id q /\ x = with_authorization a z
      else x = a
  | _ => True
  end.

Lemma phase_holds_grow c c' j j' p :
  tables_grow c c' -> j_action j' = j_action j -> j_peer j' = j_peer j ->
  phase_holds c j p -> phase_holds c' j' p.
Proof.
  intros Hg Ea Ep. unfold phase_holds. rewrite Ea. destruct p; try done.
  - intros (Hm & id & q & Hc). split; [done|]. exists id, q. by eapply charged_grow.
  - case_bool_decide; [|done]. intros (z & id & q & Hc & Hx). exists z, id, q.
    split; [by eapply charged_grow|done].
Qed.

Definition threads_ok s : Prop := forall loc p, futures s !! loc = Some p ->
  exists j, heap s !! loc = Some j /\ storable (j_action j) /\ phase_holds (tables (pa s)) j p.

Lemma quiet_holds c j p : quiet p = true -> phase_holds c j p.
Proof. by destruct p. Qed.

Lemma threads_quiet s s' :
  frame s s' -> heap_evolves (heap s) (heap s') -> quietly s s' -> threads_ok s -> threads_ok s'.
Proof.
  intros Hf He Hq Ht loc p Hp.
  assert (Hj : exists q, futures s !! loc = Some q /\ (p = q \/ quiet p = true)).
  { destruct (Hq loc) as [E|(q & p' & E1 & E2 & Hqp & _)]; [rewrite <- E in Hp; eauto|].
    exists q. split; [done|]. right. congruence. }
  destruct Hj as (q & Hfq & Hpq). destruct (Ht _ _ Hfq) as (j & Hl & Hs & Hh).
  destruct (He _ _ Hl) as (j' & Hl' & Ea & Ep & _). exists j'. split; [done|].
  split; [by rewrite Ea|]. destruct Hpq as [->|Hqu]; [|by apply quiet_holds].
  eapply phase_holds_grow; eauto. apply grow_steps, Hf.
Qed.

Lemma threads_move s s' loc p q :
  frame s s' -> heap_evolves (heap s) (heap s') -> futures s !! loc = Some p ->
  futures s' = <[loc := q]> (futures s) ->
  (forall j j', heap s !! loc = Some j -> heap s' !! loc = Some j' -> storable (j_action j) ->
     phase_holds (tables (pa s)) j p -> j_action j' = j_action j -> j_peer j' = j_peer j ->
     phase_holds (tables (pa s')) j' q) ->
  threads_ok s -> threads_ok s'.
Proof.
  intros Hf He Hp Ef Hq Ht l r Hr. rewrite Ef in Hr. destruct (decide (loc = l)) as [<-|Hne].
  - rewrite lookup_insert_eq in Hr. injection Hr as <-.
    destruct (Ht _ _ Hp) as (j & Hl & Hs & Hh). destruct (He _ _ Hl) as (j' & Hl' & Ea & Ep & _).
    exists j'. split; [done|]. split; [by rewrite Ea|]. by eapply Hq.
  - rewrite lookup_insert_ne in Hr by done.
    destruct (Ht _ _ Hr) as (j & Hl & Hs & Hh). destruct (He _ _ Hl) as (j' & Hl' & Ea & Ep & _).
    exists j'. split; [done|]. split; [by rewrite Ea|]. eapply phase_holds_grow; eauto.
    apply grow_steps, Hf.
Qed.

Lemma ids_threads s : threads_ok s -> ids_ok s.
Proof.
  intros Ht loc j Hf Hl. destruct (Ht _ _ Hf) as (x & Hx & [Hok _ _] & _). simplify_eq.
  pose proof (ok_ids _ Hok) as Hi. by apply andb_true_iff in Hi as [_ [Hi _]%andb_true_iff].
Qed.

(** ** All steps *)

(** How the futures of a step's own job move; any other step moves quietly. *)
Inductive thread_step s s' : Prop :=
| ts_quiet : quietly s s' -> thread_step s s'
| ts_request w a peer : storable a -> peer_ok peer -> s' = (request_locked cfg w a peer s).1 -> thread_step s s'
| ts_begin loc j : futures s !! loc = Some R_begin -> heap s !! loc = Some j ->
    futures s' = <[loc := if bool_decide (execution_mode (j_action j) = REAL)
                          then R_authorize else R_submit (j_action j)]> (futures s) ->
    thread_step s s'
| ts_authorize loc j id p : futures s !! loc = Some R_authorize -> heap s !! loc = Some j ->
    futures s' = <[loc := R_armed (d_authorization (allow p))]> (futures s) ->
    charged (tables (pa s')) j (d_authorization (allow p)) id p -> thread_step s s'
| ts_armed w loc z j x : futures s !! loc = Some (R_armed z) -> heap s !! loc = Some j ->
    supervision s = ARMED ->
    ActionEnvelope_from_dict (clock w 0) (fresh_id w) (authorized_payload (j_action j) z) = Ok x ->
    futures s' = <[loc := R_submit x]> (futures s) -> thread_step s s'.

Lemma step_threads s s' : cstep cfg s s' -> thread_step s s'.
Proof.
  intros Hs. destruct Hs; try (apply ts_quiet; by apply quietly_same); try by eapply ts_request.
  - apply ts_quiet, tl_note, _.
  - apply ts_quiet, tl_status, _.
  - apply ts_quiet, tl_cancel; [apply _|apply quietly_future_cancel].
  - apply ts_quiet, tl_renew, _.
  - apply ts_quiet, tl_arm, _.
  - apply ts_quiet, tl_issue, _.
  - apply ts_quiet, tl_acknowledge, _.
  - apply ts_quiet, tl_lose, _.
  - apply ts_quiet, tl_terminalize; [apply _|apply quietly_future_cancel].
  - apply ts_quiet, tl_stop_lead, _.
  - apply ts_quiet, tl_watch, _.
  - apply ts_quiet, quietly_take.
  - destruct (begin_futures w loc s) as [Hq|(j & Hj & Ef)]; [done|by apply ts_quiet|].
    by eapply ts_begin.
  - destruct (authorize_futures w loc s) as [Hq|(j & id & p & Hj & Ef & Hc)];
      [done|by apply ts_quiet|]. by eapply ts_authorize.
  - destruct (armed_futures w loc z s) as [Hq|(j & x & Hj & Ha & Hx & Ef)];
      [done|by apply ts_quiet|]. by eapply ts_armed.
  - by apply ts_quiet, quietly_submit.
  - by apply ts_quiet, quietly_report.
  - apply ts_quiet. unfold set_phase. sx. by eapply quietly_move.
  - by apply ts_quiet, quietly_finish.
  - apply ts_quiet, quietly_return.
  - apply ts_quiet, tl_shutdown; [apply _|apply quietly_future_cancel].
Qed.

Record sound B s : Prop := {
  sn_winv : winv cfg B s;
  sn_history : history s;
  sn_threads : threads_ok s;
}.

Lemma threads_request B w a peer s :
  retained_capacity cfg <= B -> winv cfg B s -> storable a -> peer_ok peer -> threads_ok s ->
  threads_ok (request_locked cfg w a peer s).1.
Proof.
  intros HB Hw Hst Hpo Ht. destruct (request_locked cfg w a peer s) as [s' r] eqn:Hr.
  pose proof (frame_request cfg w a peer s) as Hf.
  pose proof (good_request cfg B HB w a peer s Hw) as [_ He]. rewrite Hr in Hf, He. cbn in *.
  destruct (request_spec B w a peer s s' r Hw Hr) as [[Eh Ef _]|(loc & j & Ha)].
  - apply (threads_quiet s); auto. by apply quietly_same.
  - intros l p Hp. destruct Ha as [_ _ _ _ _ _ _ Hfree Eh [Ea _] _ _ _ Hfut].
    assert (Hcase : futures s !! l = Some p \/ l = loc /\ p = R_pending).
    { destruct (pool_accepts w); rewrite Hfut in Hp; [|by left].
      destruct (decide (loc = l)) as [<-|Hne]; [rewrite lookup_insert_eq in Hp; right; by simplify_eq|].
      rewrite lookup_insert_ne in Hp by done. by left. }
    destruct Hcase as [Hold|[-> ->]].
    + destruct (Ht _ _ Hold) as (x & Hx & Hs & Hh). destruct (He _ _ Hx) as (x' & Hx' & Ex & Ep & _).
      exists x'. split; [done|]. split; [by rewrite Ex|]. eapply phase_holds_grow; eauto.
      apply grow_steps, Hf.
    + exists j. rewrite Eh, lookup_insert_eq, Ea. done.
Qed.

Lemma sound_step B s s' :
  retained_capacity cfg <= B -> sound B s -> cstep cfg s s' -> sound B s' /\ frame s s'.
Proof.
  intros HB [Hw Hh Ht] Hs. pose proof (step_frame cfg s s' (ids_threads s Ht) Hs) as Hf.
  destruct (cstep_good cfg B HB s s' Hs Hw) as [Hw' He]. split; [|done]. constructor; [done|..].
  - destruct (step_tabled cfg s s' Hs) as [Htb|(w & a & peer & _ & _ & ->)].
    + by eapply history_tabled.
    + by eapply history_request.
  - destruct (step_threads s s' Hs) as [Hq|w a peer Hst Hpo ->|loc j Hfu Hl Ef|loc j id p Hfu Hl Ef Hc
      |w loc z j x Hfu Hl Har Hx Ef].
    + by eapply threads_quiet.
    + by eapply threads_request.
    + eapply (threads_move s s' loc); eauto. intros x x' Hx Hx' _ _ Ea _. simplify_eq.
      unfold phase_holds. rewrite Ea. by case_bool_decide.
    + eapply (threads_move s s' loc); eauto. intros x x' Hx Hx' _ Hm Ea Ep. simplify_eq.
      cbn in Hm |- *. rewrite Ea. split; [done|]. exists id, p. by eapply charged_grow.
    + eapply (threads_move s s' loc); eauto. intros y y' Hy Hy' Hst (Hm & id & q & Hc) Ea Ep.
      simplify_eq. unfold phase_holds. rewrite Ea, bool_decide_eq_true_2 by done.
      exists z, id, q. split; [|by eapply authorized_payload_decodes].
      eapply charged_grow; eauto. apply grow_steps, Hf.
Qed.

Lemma sound_steps B s s' :
  retained_capacity cfg <= B -> sound B s -> rtc (cstep cfg) s s' -> sound B s' /\ frame s s'.
Proof.
  intros HB Hs Hr. induction Hr as [s|s s1 s2 H1 _ IH]; [done|].
  destruct (sound_step B s s1 HB Hs H1) as [Hs1 Hf1]. destruct (IH Hs1) as [Hs2 Hf2].
  split; [done|by etrans].
Qed.

(** A thread never goes back. *)
Lemma phases_forward s s' loc p :
  cstep cfg s s' -> winv cfg (retained_capacity cfg) s -> futures s !! loc = Some p ->
  exists q, futures s' !! loc = Some q /\ (p = q \/ phase_rank p < phase_rank q).
Proof.
  intros Hs Hw Hp.
  assert (Hmove : forall l q r, futures s !! l = Some q -> phase_rank q < phase_rank r ->
    futures s' = <[l := r]> (futures s) ->
    exists q, futures s' !! loc = Some q /\ (p = q \/ phase_rank p < phase_rank q)).
  { intros l q r Hq Hr E. rewrite E. destruct (decide (l = loc)) as [<-|Hne].
    - rewrite lookup_insert_eq. exists r. split; [done|]. right. replace p with q by congruence. exact Hr.
    - rewrite lookup_insert_ne by done. exists p. auto. }
  destruct (step_threads s s' Hs) as [Hq|w a peer _ _ ->|l j Hfu _ Ef|l j id q Hfu _ Ef _
      |w l z j x Hfu _ _ _ Ef]; [..|by apply (Hmove _ _ _ Hfu) in Ef|by apply (Hmove _ _ _ Hfu) in Ef].
  - destruct (Hq loc) as [E|(q & p' & E1 & E2 & _ & Hr)]; [rewrite <- E; eauto|].
    exists p'. split; [done|]. right. congruence.
  - destruct (request_locked cfg w a peer s) as [s' r] eqn:Hr. cbn in *.
    destruct (request_spec _ w a peer s s' r Hw Hr) as [[_ Ef _]|(l & j & Ha)]; [rewrite Ef; eauto|].
    pose proof (ac_futures _ _ _ _ _ _ _ Ha) as Ef. destruct (pool_accepts w); [|rewrite Ef; eauto].
    rewrite Ef, lookup_insert_ne; [eauto|]. intros <-.
    destruct (co_futures _ _ _ _ _ _ Hw l) as [x Hx]; [by eexists|].
    pose proof (ac_free _ _ _ _ _ _ _ Ha). congruence.
  - eapply Hmove; [exact Hfu| |exact Ef]. case_bool_decide; cbn; lia.
Qed.

(** ** A daemon that has started *)

Lemma restored_taken now uuid es js id :
  restore_jobs now uuid es = Ok js -> is_Some (dget js id) ->
  exists e, e ∈ es /\ en_id e = id.
Proof.
  intros Hr Hs.
  assert (Hg : is_Some (dget (group_events es) id)).
  { revert Hr Hs. unfold restore_jobs.
    assert (Hacc : is_Some (dget (@nil (string * ActionJob)) id) -> is_Some (dget (group_events es) id))
      by (by intros [? ?]).
    assert (Hall : forall g, g ∈ group_events es -> is_Some (dget (group_events es) g.1)).
    { intros [k l] Hin. apply dkeys_dget. unfold dkeys. apply list_elem_of_fmap. by exists (k, l). }
    revert Hacc Hall. generalize (@nil (string * ActionJob)).
    generalize (dget (group_events es)). intros G.
    induction (group_events es) as [|g gs IH]; intros acc Hacc Hall Hr Hs; cbn [foldr_result] in Hr.
    - injection Hr as <-. auto.
    - apply rbind_ok in Hr as (acc' & Ha & Hr). apply rbind_ok in Ha as (x & _ & [= <-]).
      eapply IH; [|intros; apply Hall; by right|exact Hr|exact Hs].
      rewrite dget_dset. destruct (decide (g.1 = id)) as [<-|Hne]; [|exact Hacc].
      intros _. apply Hall. by left. }
  rewrite dget_group in Hg. destruct (base.filter (fun e => en_id e = id) es) as [|e l] eqn:Hf;
    [by destruct Hg|].
  exists e. assert (He : e ∈ base.filter (fun e => en_id e = id) es) by (rewrite Hf; left).
  by apply list_elem_of_filter in He as [? ?].
Qed.

Lemma place_index js loc j :
  (place_jobs js).1 !! loc = Some j -> exists id, js !! loc = Some (id, j).
Proof.
  unfold place_jobs. simpl. intros Hl. apply elem_of_list_to_map_2 in Hl.
  apply elem_of_lookup_imap_1 in Hl as (i & [id x] & [= -> ->] & Hi). by exists id.
Qed.

(** The state a restart reads back has its history on the ledger. *)
Lemma restored_history w g l s : plane_restore cfg w g l = Ok s -> history s.
Proof.
  intros Hr. unfold plane_restore in Hr.
  apply rbind_ok in Hr as (p & _ & Hr). apply rbind_ok in Hr as (l1 & _ & Hr).
  destruct (log_read l1 "ACTION") as [l2 es] eqn:E2. apply rbind_ok in Hr as (es1 & Hes & Hr).
  apply rbind_ok in Hr as (js & Hjs & Hr).
  destruct (log_read l2 "RECOVERY") as [l3 rs] eqn:E3. apply rbind_ok in Hr as (rs1 & _ & Hr).
  apply rbind_ok in Hr as (r & _ & Hr). cbv zeta in Hr.
  destruct (place_jobs js) as [h t] eqn:E. injection Hr as <-.
  apply log_read_entries in E2 as [E2 He2]. apply log_read_entries in E3 as [E3 _].
  assert (Hw : dwf js) by (by eapply restore_jobs_dwf).
  assert (Hix : forall loc j, h !! loc = Some j ->
    js !! loc = Some (action_id (j_action j), j) /\ is_Some (dget js (action_id (j_action j)))).
  { intros loc j Hj. destruct (place_index js loc j) as [id Hi]; [by rewrite E|].
    assert (Hd : dget js id = Some j)
      by (apply (dget_Some _ _ _ Hw); by eapply list_elem_of_lookup_2).
    pose proof (do_id _ _ (restore_jobs_ok _ _ _ _ _ _ Hjs Hd)) as Hid. rewrite Hid. eauto. }
  constructor; cbn.
  - intros l' loc j [= <-] Hj. destruct (Hix _ _ Hj) as [_ Hs].
    destruct (restored_taken _ _ _ _ _ Hjs Hs) as (e & He & Hid).
    destruct es as [es|]; [|done]. injection Hes as ->. specialize (He2 es1 eq_refl). subst es1.
    apply list_elem_of_filter in He as [Hk He]. exists e. split; [by rewrite E3, E2|done].
  - done.
  - intros a b j1 j2 H1 H2 Hid _. destruct (Hix _ _ H1) as [I1 _], (Hix _ _ H2) as [I2 _].
    eapply (NoDup_lookup js.*1); [exact Hw|rewrite list_lookup_fmap, I1; reflexivity|].
    by rewrite list_lookup_fmap, I2, Hid.
Qed.

Lemma history_objects s s' :
  frame s s' -> objects s s' -> is_Some (log_of s) -> history s -> history s'.
Proof.
  intros Hf Hb Hlog [Hl Hk Ho]. pose proof (fr_log _ _ _ Hf) as Hg. constructor.
  - intros l loc j' El Hj'. destruct (Hb _ _ Hj') as (j & Hj & ->).
    destruct (log_of s) as [l0|] eqn:E0; rewrite El in Hg; [|done].
    eapply taken_grows; [exact Hg|]. by eapply Hl.
  - intros loc j' En. apply (log_none s s' Hf) in En. rewrite En in Hlog. by destruct Hlog.
  - intros l1 l2 j1 j2 H1 H2 He Hm. destruct (Hb _ _ H1) as (x1 & Hx1 & E1).
    destruct (Hb _ _ H2) as (x2 & Hx2 & E2). rewrite E1, E2 in *. eapply Ho; eauto.
Qed.

Lemma boot_sound s : boot cfg s -> sound (retained_capacity cfg) s.
Proof.
  intros Hb. pose proof (boot_winv cfg s Hb) as Hw. destruct Hb as [w g p s Hl Hs|w g l s0 s Hr Hs].
  - assert (Hh : heap s = ∅ /\ futures s = ∅).
    { unfold cp_start in Hs. revert Hs. sx. cbn [plane_new closed running].
      unfold recover_incomplete_jobs, evict_terminal_jobs. sx.
      unfold log_of at 1. cbn [plane_new pa]. rewrite Hl. cbn [evict_loop plane_new jobs]. sx.
      by intros [= <-]. }
    destruct Hh as [Eh Ef]. constructor; [done|constructor; rewrite Eh; by intros|].
    intros loc q. by rewrite Ef.
  - destruct (winv_restored _ _ _ _ _ Hr) as (B & HB & Hw0 & Hf0 & Hlog & _ & Hrun).
    pose proof (frame_start cfg w s0) as Hfr. pose proof (objects_start cfg w s0) as Hob.
    pose proof (quietly_start cfg w s0) as Hq. rewrite Hs in Hfr, Hob, Hq. cbn [fst] in Hfr, Hob, Hq. constructor; [done| |].
    + apply (history_objects s0); auto. by eapply restored_history.
    + intros loc q Hp.
      destruct (Hq loc) as [E|(x & p & E & _)]; rewrite Hf0, lookup_empty in E; congruence.
Qed.

Lemma reachable_sound s : reachable cfg s -> sound (retained_capacity cfg) s.
Proof.
  intros (s0 & Hb%boot_sound & Hr). by apply (sound_steps _ _ _ (Z.le_refl _) Hb Hr).
Qed.

(** ** Theorems *)

(** What [charged] gives the executor's envelope. *)
Lemma charged_scope c j z id p :
  charged c j z id p ->
  approved z = true /\ approval_id z = Some (p_permit_id p) /\ capability_id (j_action j) ∈ scopes z.
Proof. intros []. subst z. done. Qed.

(** A thread comes to the dispatch of a REAL action only in an armed daemon. *)
Lemma submit_armed s s' loc x :
  sound (retained_capacity cfg) s -> cstep cfg s s' ->
  futures s' !! loc = Some (R_submit x) -> execution_mode x = REAL ->
  futures s !! loc = Some (R_submit x) \/ supervision s = ARMED.
Proof.
  intros [Hw _ _] Hs Hf Hm.
  assert (Hat : forall l q, futures s' = <[l := q]> (futures s) ->
    futures s !! loc = Some (R_submit x) \/ q = R_submit x).
  { intros l q E. rewrite E in Hf. destruct (decide (l = loc)) as [<-|Hne].
    - rewrite lookup_insert_eq in Hf. right. congruence.
    - rewrite lookup_insert_ne in Hf by done. by left. }
  destruct (step_threads s s' Hs) as [Hq|w a peer _ _ ->|l j _ _ Ef|l j id q _ _ Ef _
    |w l z j y _ _ Ha _ Ef].
  - destruct (Hq loc) as [E|(q & p & _ & E & Hqu & _)]; [left; congruence|].
    rewrite E in Hf. injection Hf as ->. done.
  - destruct (request_locked cfg w a peer s) as [s' r] eqn:Hr. cbn [fst] in *.
    destruct (request_spec _ w a peer s s' r Hw Hr) as [[_ Ef _]|(l & j & Hac)];
      [left; by rewrite Ef in Hf|].
    pose proof (ac_futures _ _ _ _ _ _ _ Hac) as Ef. destruct (pool_accepts w);
      [|left; by rewrite Ef in Hf]. destruct (Hat _ _ Ef) as [|Hx]; [by left|discriminate Hx].
  - destruct (Hat _ _ Ef) as [|E]; [by left|]. case_bool_decide; [done|]. congruence.
  - destruct (Hat _ _ Ef) as [|Hx]; [by left|discriminate Hx].
  - by right.
Qed.

(** C4: whatever clients, threads, watchdog and ledger do, a REAL action is at
    the executor's door only as the action of a job, under a permit that its
    peer, session, body, snapshot, capability and intent match, that was charged
    for this very action id and whose scope the executor will see; and its
    thread came there while the daemon was armed. *)
Theorem real_dispatch_authorized s s' loc x :
  reachable cfg s -> cstep cfg s s' ->
  futures s' !! loc = Some (R_submit x) -> execution_mode x = REAL ->
  (futures s !! loc = Some (R_submit x) \/ supervision s = ARMED) /\
  exists j z id p, heap s' !! loc = Some j /\ x = with_authorization (j_action j) z /\
    charged (tables (pa s')) j z id p /\
    approved z = true /\ approval_id z = Some (p_permit_id p) /\ capability_id x ∈ scopes z.
Proof.
  intros Hr%reachable_sound Hs Hf Hm. split; [by eapply submit_armed|].
  destruct (sound_step _ _ _ (Z.le_refl _) Hr Hs) as [[_ _ Ht] _].
  destruct (Ht _ _ Hf) as (j & Hj & _ & Hp). cbn in Hp. case_bool_decide as Hmj; [|congruence].
  destruct Hp as (z & id & p & Hc & ->). exists j, z, id, p. do 3 (split; [done|]).
  by eapply charged_scope.
Qed.

(** The thread of a job is past the dispatch, or the job never had one in this
    daemon: it was restored, or the pool refused it. *)
Definition past (o : option run_phase) : Prop :=
  match o with Some p => 4 < phase_rank p | None => True end.

Lemma past_step s s' loc :
  sound (retained_capacity cfg) s -> cstep cfg s s' -> is_Some (heap s !! loc) ->
  past (futures s !! loc) -> past (futures s' !! loc).
Proof.
  intros Hs H1 [j Hj] Hp. destruct (futures s !! loc) as [p|] eqn:Ef.
  - destruct (phases_forward s s' loc p H1 (sn_winv _ _ Hs) Ef) as (q & -> & [<-|Hlt]); cbn in *; lia.
  - assert (Hother : forall l q r, futures s !! l = Some q -> futures s' = <[l := r]> (futures s) ->
      past (futures s' !! loc)).
    { intros l q r Hl E. rewrite E, lookup_insert_ne by congruence. by rewrite Ef. }
    destruct (step_threads s s' H1) as [Hq|w a peer _ _ ->|l x Hl _ E|l x id q Hl _ E _
      |w l z x y Hl _ _ _ E]; [| |by eapply Hother..].
    + destruct (Hq loc) as [E|(q & p & E & _)]; [by rewrite <- E, Ef|congruence].
    + destruct (request_locked cfg w a peer s) as [s' r] eqn:Hr. cbn [fst] in *.
      destruct (request_spec _ w a peer s s' r (sn_winv _ _ Hs) Hr) as [[_ E _]|(l & x & Ha)];
        [by rewrite E, Ef|].
      pose proof (ac_futures _ _ _ _ _ _ _ Ha) as E. pose proof (ac_free _ _ _ _ _ _ _ Ha) as Hfree.
      destruct (pool_accepts w); rewrite E; [|by rewrite Ef].
      rewrite lookup_insert_ne; [by rewrite Ef|]. congruence.
Qed.

Lemma past_steps s s' loc :
  sound (retained_capacity cfg) s -> rtc (cstep cfg) s s' -> is_Some (heap s !! loc) ->
  past (futures s !! loc) -> past (futures s' !! loc).
Proof.
  intros Hs Hr. induction Hr as [s|s s1 s2 H1 _ IH]; intros Hh Hp; [done|].
  destruct (cstep_good cfg _ (Z.le_refl _) s s1 H1 (sn_winv _ _ Hs)) as [_ He].
  apply IH; [by apply (sound_step _ _ _ (Z.le_refl _) Hs H1)| |by eapply past_step].
  destruct Hh as [j Hj]. destruct (He _ _ Hj) as (j' & Hj' & _). eauto.
Qed.

(** C5: a REAL action reaches the executor at most once. Once a thread has
    passed the dispatch of a REAL job, or the job was read back after a restart,
    no thread, for this or any other job object, stands before the dispatch of a
    REAL action of that id again: neither a resubmission nor an eviction from
    the table brings it back. *)
Theorem real_dispatched_once s s' l1 l2 j x :
  reachable cfg s -> rtc (cstep cfg) s s' ->
  heap s !! l1 = Some j -> execution_mode (j_action j) = REAL -> past (futures s !! l1) ->
  futures s' !! l2 = Some (R_submit x) -> execution_mode x = REAL ->
  action_id x <> action_id (j_action j).
Proof.
  intros Hr%reachable_sound Hs Hj Hm Hp Hx Hmx Hid.
  destruct (sound_steps _ _ _ (Z.le_refl _) Hr Hs) as [[_ [_ _ Ho] Ht] _].
  pose proof (past_steps s s' l1 Hr Hs (ex_intro _ _ Hj) Hp) as Hp'.
  destruct (reach_good cfg _ (Z.le_refl _) s s' Hs (sn_winv _ _ Hr)) as [_ He].
  destruct (He _ _ Hj) as (j1 & Hj1 & E1 & _).
  destruct (Ht _ _ Hx) as (j2 & Hj2 & _ & Hp2). cbn in Hp2.
  assert (E2 : action_id x = action_id (j_action j2) /\ execution_mode (j_action j2) = REAL).
  { case_bool_decide; [|congruence]. by destruct Hp2 as (z & ? & ? & _ & ->). }
  destruct E2 as [E2 Em2].
  assert (l1 = l2) as <-.
  { eapply Ho; eauto; [congruence|]. right. by rewrite E1. }
  rewrite Hx in Hp'. cbn in Hp'. lia.
Qed.

(** C22: an emergency stop is final. Once the latch is set it stays set; the
    daemon cannot be armed and issues no permit; and a SHADOW or REAL action
    that a thread submits is answered without the executor having any say. *)
Theorem estop_final s s' :
  reachable cfg s -> latched s = true -> rtc (cstep cfg) s s' ->
  latched s' = true /\
  (exists e, arm_locked s' = (s', Err (ControlPlaneError e))) /\
  (forall w a reason principal target expires operator context,
     exists e, issue_locked cfg w a reason principal target expires operator context s' = (s', Err e)) /\
  (forall w ev x lease run run', execution_mode x = REAL \/ execution_mode x = SHADOW ->
     runtime_submit w ev x lease run s' = runtime_submit w ev x lease run' s' /\
     exists g r, runtime_submit w ev x lease run s' = (set_gwy g s', Ok r) /\
       inflight g = inflight (gwy s') /\
       (receipts (gwy s') !! action_id x = Some r \/ r_final_state r = BLOCKED)).
Proof.
  intros Hr%reachable_sound Hl Hs.
  destruct (sound_steps _ _ _ (Z.le_refl _) Hr Hs) as [_ Hf].
  pose proof (fr_latched _ _ _ Hf Hl) as Hl'. split; [done|]. split; [|split].
  - unfold arm_locked. sx. destruct (rec_required s'); [by eexists|]. cbn. rewrite Hl'. by eexists.
  - intros. unfold issue_locked. sx. do 3 (sx_if; [|by eexists]). rewrite Hl'. by eexists.
  - intros w ev x lease run run' Hm. unfold runtime_submit. rewrite Hl'.
    assert (Hb : bool_decide (execution_mode x = SHADOW) || bool_decide (execution_mode x = REAL) = true)
      by (destruct Hm as [-> | ->]; done).
    rewrite Hb. cbn [andb]. split; [done|]. unfold gateway_reject, reject.
    destruct (receipts (gwy s') !! action_id x) as [r|]; do 2 eexists; (split; [reflexivity|]); auto.
Qed.

(** C23: interrupted REAL work stays under review until the daemon's own user
    acknowledges it on the ledger for every action under review. Until then the
    daemon cannot be armed, issues no permit and takes no new REAL action,
    whoever asks. *)
Theorem recovery_gate s s' :
  reachable cfg s -> rec_required s = true -> rtc (cstep cfg) s s' ->
  (reviewing s s' \/ acknowledged cfg s s') /\
  (rec_required s' = true ->
   arm_locked s' = (s', Err (ControlPlaneError "RECOVERY_REVIEW_REQUIRED")) /\
   (forall w a reason principal target expires operator context,
      exists e, issue_locked cfg w a reason principal target expires operator context s' = (s', Err e)) /\
   (forall w a peer, execution_mode a = REAL ->
      heap (request_locked cfg w a peer s').1 = heap s')).
Proof.
  intros Hr%reachable_sound Hq Hs.
  destruct (sound_steps _ _ _ (Z.le_refl _) Hr Hs) as [Hr' Hf].
  split; [by apply (fr_review _ _ _ Hf)|]. intros Hq'. split; [|split].
  - unfold arm_locked. sx. by rewrite Hq'.
  - intros. unfold issue_locked. sx. sx_if; [|by eexists]. rewrite Hq'. by eexists.
  - intros w a peer Hm. destruct (request_locked cfg w a peer s') as [s1 r] eqn:Hrq.
    destruct (request_spec _ w a peer s' s1 r (sn_winv _ _ Hr') Hrq) as [Hun|(loc & j & Ha)];
      [apply Hun|]. pose proof (ac_review _ _ _ _ _ _ _ Ha Hm). congruence.
Qed.

(** A request for an id the table holds changes nothing: the owner gets
    the job if the action is the same and a conflict if it is not, anyone else
    is refused. Any other request is either accepted, which needs a running
    daemon with a sound ledger and a free slot, a deadline ahead, no pending
    review for REAL work and an id neither the table nor the ledger knows, and
    then its job is in the table, queued and on the ledger; or it leaves every
    job object and every future as they were. *)
Theorem request_outcome w a peer s s' r :
  reachable cfg s -> request_locked cfg w a peer s = (s', r) ->
  (unaccepted s s' \/ exists loc j, accepted w a peer s s' loc j) /\
  (forall loc j, running s = true -> closed s = false -> dget (jobs s) (action_id a) = Some loc ->
     heap s !! loc = Some j ->
     s' = s /\
     r = if job_owner_ok cfg j (Some peer)
         then if py_eqb (ActionEnvelope_to_dict (j_action j)) (ActionEnvelope_to_dict a)
              then Ok (ActionJob_to_dict j) else Err (ControlPlaneError "ACTION_ID_CONFLICT")
         else Err (ControlPlaneError "ACTION_OWNERSHIP_MISMATCH")).
Proof.
  intros Hr%reachable_sound Hq. split; [by eapply (request_spec _ _ _ _ _ _ _ (sn_winv _ _ Hr))|].
  intros loc j H1 H2 Hd Hj. revert Hq. unfold request_locked. unfold st_bind at 1.
  rewrite require_running_eq, H1, H2. cbn [andb negb]. unfold st_bind at 1, find_job.
  unfold st_bind at 1, st_get. rewrite Hd. cbn [mbind option_bind]. rewrite Hj.
  cbn [mbind option_bind]. unfold st_ret, require_job_owner, guard, st_guard, st_bind.
  destruct (job_owner_ok cfg j (Some peer)); [|by intros [= <- <-]].
  by destruct (py_eqb _ _); intros [= <- <-].
Qed.

(** The jobs a lost session owns. *)
Lemma update_jobs_at f s loc :
  NoDup (dvals (jobs s)) ->
  heap (update_jobs f s).1 !! loc =
    if decide (loc ∈ dvals (jobs s)) then f <$> heap s !! loc else heap s !! loc.
Proof.
  unfold update_jobs. sx. generalize (dvals (jobs s)). intros l Hn. revert s.
  induction Hn as [|x l Hx Hn IH]; intros s.
  - rewrite decide_False by apply not_elem_of_nil. done.
  - cbn [st_each]. sx. rewrite IH. cbn. destruct (decide (x = loc)) as [->|Hne].
    + rewrite decide_False by done. rewrite decide_True by left. by rewrite lookup_alter_eq.
    + rewrite lookup_alter_ne by done. destruct (decide (loc ∈ l)).
      * by rewrite decide_True by (by right).
      * rewrite decide_False; [done|]. rewrite elem_of_cons. naive_solver.
Qed.

Lemma update_jobs_ok f s : (update_jobs f s).2 = Ok tt.
Proof.
  unfold update_jobs. sx. generalize (dvals (jobs s)). intros l. revert s.
  induction l as [|x l IH]; intros s; [done|]. cbn [st_each]. sx. apply IH.
Qed.

Lemma table_NoDup B s : winv cfg B s -> NoDup (dvals (jobs s)).
Proof.
  intros Hw. apply NoDup_snd; [apply Hw|]. intros x y loc Hx Hy.
  pose proof (co_keys _ _ _ _ _ _ Hw) as Hk.
  eapply table_injective; [exact Hw|by apply dget_Some|by apply dget_Some].
Qed.

(** When a session is lost or closed, exactly its queued and running jobs
    are marked. A running job whose policy lets it continue keeps going; every
    other gets a terminal override, ORPHANED unless it had one, and is listed
    for cancellation if it is queued and for a safety stop if it is running. *)
Theorem lost_session_marks session s s' r :
  reachable cfg s -> lose_jobs session s = (s', r) ->
  exists queued running, r = Ok (queued, running) /\
  forall id loc j, dget (jobs s) id = Some loc -> heap s !! loc = Some j ->
  exists j', heap s' !! loc = Some j' /\
    (if owned_active session j then
       j_session_lost j' = true /\
       (if may_continue j
        then j_terminal_override j' = j_terminal_override j /\ ~ loc ∈ queued /\ ~ loc ∈ running
        else j_terminal_override j' =
               Some (default (orphaned (orphan_policy (j_action j))) (j_terminal_override j)) /\
             (loc ∈ queued <-> j_state j = J_QUEUED) /\ (loc ∈ running <-> j_state j = J_RUNNING))
     else j' = j /\ ~ loc ∈ queued /\ ~ loc ∈ running).
Proof.
  intros Hr%reachable_sound Hq. pose proof (sn_winv _ _ Hr) as Hw.
  pose proof (update_jobs_at (lose_job session) s) as Hat.
  revert Hq. unfold lose_jobs. unfold st_bind at 1, st_get. unfold st_bind.
  destruct (update_jobs (lose_job session) s) as [s1 r1] eqn:Hu.
  assert (r1 = Ok tt) as -> by (pose proof (update_jobs_ok (lose_job session) s) as E; by rewrite Hu in E).
  intros [= <- <-]. do 2 eexists. split; [reflexivity|]. intros id loc j Hd Hj.
  exists (lose_job session j). cbn [fst] in Hat. split.
  { rewrite Hat, Hj by (by eapply table_NoDup). rewrite decide_True; [done|]. by eapply dvals_in. }
  assert (Hin : forall p, loc ∈ job_locs p s <-> p j = true).
  { intros p. rewrite (elem_job_locs _ _ _ _ _ Hw). split; [|eauto 10].
    intros (id' & j' & _ & Hj' & Hp). by simplify_eq. }
  unfold lose_job. destruct (owned_active session j) eqn:Ho; cbn;
    [|by rewrite !Hin, Ho].
  replace (may_continue (set_session_lost j)) with (may_continue j) by reflexivity.
  destruct (may_continue j) eqn:Hm; cbn; rewrite !Hin, Ho, Hm; cbn; [done|].
  destruct (j_terminal_override j) as [ov|] eqn:Hov; cbn; rewrite ?Hov, !bool_decide_eq_true;
    split_and!; done.
Qed.

(** What a failed append of a job's terminal event leaves. *)
Lemma persist_fails w loc s j l :
  heap s !! loc = Some j -> log_of s = Some l ->
  (forall l e, (log_append (append_env w "ACTION_TERMINAL" (action_id (j_action j))) l e).2 = false) ->
  exists p, persist_terminal_job w loc s = (set_pa p s, Ok false).
Proof.
  intros Hj Hl Hf. unfold persist_terminal_job, st_bind, st_get. rewrite Hl. cbn beta iota. rewrite Hj.
  cbn [mbind option_bind]. destruct (terminal_entry j) as [e|] eqn:He.
  2: { exists (pa s). unfold st_ret. by rewrite set_pa_id. }
  unfold terminal_entry in He. destruct (j_receipt j) as [rc|]; [|done].
  destruct (j_finished_at j) as [at_|]; [|done]. cbn in He. injection He as <-.
  unfold append_event, write_event. rewrite Hl. cbn [en_type en_kind en_id en_payload action_entry].
  match goal with |- context [log_append ?e ?l ?x] => specialize (Hf l x); destruct (log_append e l x) as [l' ok] end.
  cbn in Hf. subst ok. by eexists.
Qed.

(** C24: if the outcome of a REAL action cannot be put on the ledger, its job
    does not end with the executor's receipt: it FAILs with a receipt that
    claims nothing, the emergency stop is latched, the ledger is marked failed
    and the action is under recovery review, so that neither this daemon nor
    the next takes REAL work before a human looked. *)
Theorem unrecorded_outcome_stops w loc d s j l :
  heap s !! loc = Some j ->
  execution_mode (j_action j) = REAL -> j_terminal_override j = None -> log_of s = Some l ->
  inflight (gwy s) !! action_id (j_action j) = None ->
  (forall l e, (log_append (append_env w "ACTION_TERMINAL" (action_id (j_action j))) l e).2 = false) ->
  exists s' j', run_finish w loc d s = (s', Ok tt) /\ heap s' !! loc = Some j' /\
    j_state j' = J_FINISHED /\
    j_receipt j' = Some (receipt_dict (failure_receipt (gw_env w) (j_action j) FAILED
      "DAEMON_LEDGER_TERMINAL_WRITE_FAILED"
      ("The executor returned, but rosclawd could not durably record the terminal receipt. The "
       +:+ "physical outcome is not trusted.") [] None)) /\
    latched s' = true /\ ledger_failed s' = true /\ rec_required s' = true /\
    action_id (j_action j) ∈ rec_real s' /\ hw_actions s' = hw_actions s.
Proof.
  intros Hj Hm Ho Hl Hin Hfail. unfold run_finish. unfold st_bind at 1, st_get. rewrite Hj, Ho.
  unfold st_bind at 1, finish_at, st_set at 1.
  set (s1 := modify_job loc (finish_job J_FINISHED (clock w 1) d) s).
  assert (Hj1 : heap s1 !! loc = Some (finish_job J_FINISHED (clock w 1) d j))
    by (cbn; by rewrite lookup_alter_eq, Hj).
  destruct (persist_fails w loc s1 _ l Hj1 Hl Hfail) as (p & Hp).
  unfold st_bind at 1. rewrite Hp. unfold st_bind at 1, terminal_write_failed.
  rewrite bool_decide_eq_true_2 by done.
  unfold merge_recovery, runtime_stop, gateway_discard, mark_ledger_failure, st_bind, st_set, st_ret.
  unfold gateway_reject. cbn [gwy set_gwy set_latched set_stop_requests set_rec_required set_rec_ids
    set_rec_real set_ledger_failed set_pa modify_job set_heap s1].
  unfold discard_receipt. rewrite Hin. unfold reject. cbn [fst receipts]. rewrite lookup_delete_eq.
  cbn beta iota zeta. cbn [andb].
  assert (Hd : forall msg, dispatch_accepted (receipt_dict (failure_receipt (gw_env w) (j_action j) FAILED
    "DAEMON_LEDGER_TERMINAL_WRITE_FAILED" msg [] None)) = false) by reflexivity.
  unfold finish_at, st_set. cbn beta iota zeta. rewrite Hd. cbn [andb]. unfold set_phase, st_set.
  do 2 eexists. split; [reflexivity|]. cbn.
  rewrite !lookup_alter_eq, Hj. split; [reflexivity|]. split; [reflexivity|]. split; [reflexivity|].
  do 3 (split; [reflexivity|]). split; [|reflexivity]. apply elem_of_sorted_union. right. by left.
Qed.

End Dispatch.

(** ** Concrete runs

    A daemon without a ledger, whose authority holds a permit of two uses; it
    is armed and takes two REAL actions to the executor's door. *)

Definition with_action_id (a : ActionEnvelope) (id : string) : ActionEnvelope :=
  {| actor_id := actor_id a; agent_framework := agent_framework a; session_id := session_id a;
     body_id := body_id a; capability_id := capability_id a; arguments := arguments a;
     execution_mode := execution_mode a; schema_version := schema_version a; action_id := id;
     body_snapshot_hash := body_snapshot_hash a; authorization := authorization a;
     risk_class := risk_class a; deadline_at := deadline_at a; lease_ttl_ms := lease_ttl_ms a;
     renew_interval_ms := renew_interval_ms a; orphan_policy := orphan_policy a;
     stop_capability := stop_capability a; parent_trace_id := parent_trace_id a;
     expected_effect := expected_effect a; verification_policy := verification_policy a |}.

Definition demo_second : ActionEnvelope := with_action_id demo_action "action_2".

Definition twice (p : ExecutionPermit) : ExecutionPermit :=
  {| p_permit_id := p_permit_id p; p_principal_id := p_principal_id p; p_peer_uid := p_peer_uid p;
     p_body_id := p_body_id p; p_body_snapshot_hash := p_body_snapshot_hash p;
     p_capabilities := p_capabilities p; p_action_intent_hash := p_action_intent_hash p;
     p_expires_at := p_expires_at p; p_max_uses := 2; p_session_id := p_session_id p;
     p_authorization_provenance := p_authorization_provenance p |}.

Definition demo_granted : PermitAuthority (list entry) :=
  (register (Env := bool) true (authority_new None) (twice demo_permit) None).1.

Definition demo_context : AuthorizationContext := d_authorization (allow demo_permit).

Abbreviation dplane := (plane unit (list entry)).

Definition demo_started : dplane :=
  (cp_start demo_cfg demo_io (plane_new demo_cfg ActionGateway_new demo_granted)).1.
Definition demo_armed : dplane := (arm_locked demo_started).1.

(** One thread, from the request to the executor's door. *)
Definition to_queue (a : ActionEnvelope) (s : dplane) : dplane :=
  (request_locked demo_cfg demo_io a demo_peer s).1.
Definition to_take (loc : nat) (s : dplane) : dplane := (run_take loc s).1.
Definition to_begin (loc : nat) (s : dplane) : dplane := (run_begin demo_io loc s).1.
Definition to_authorize (loc : nat) (s : dplane) : dplane :=
  (run_authorize (H := demo_crypto) demo_io loc s).1.
Definition to_door (loc : nat) (s : dplane) : dplane := (run_armed demo_io loc demo_context s).1.
Definition to_report (loc : nat) (x : ActionEnvelope) (s : dplane) : dplane :=
  (run_submit demo_io loc x None (fun _ => Ok demo_result) s).1.

Definition demo_allowed : dplane :=
  to_authorize 0 (to_begin 0 (to_take 0 (to_queue demo_action demo_armed))).
Definition demo_door : dplane := to_door 0 demo_allowed.
Definition demo_reported : dplane := to_report 0 (with_authorization demo_action demo_context) demo_door.
Definition demo_later : dplane :=
  to_door 1 (to_authorize 1 (to_begin 1 (to_take 1 (to_queue demo_second demo_reported)))).

Abbreviation dstep := (cstep (H := demo_crypto) (X := unit) (L := list entry) demo_cfg).
Abbreviation dreach := (reachable (H := demo_crypto) (X := unit) (L := list entry) demo_cfg).

Lemma reach_next s s' : dreach s -> dstep s s' -> dreach s'.
Proof. intros (s0 & Hb & Hr) Hs. exists s0. split; [done|]. by eapply rtc_r. Qed.

Lemma demo_armed_reach : dreach demo_armed.
Proof.
  apply (reach_next demo_started); [|apply c_arm]. exists demo_started. split; [|apply rtc_refl].
  apply (boot_memory demo_cfg demo_io ActionGateway_new demo_granted); [reflexivity|].
  vm_compute. reflexivity.
Qed.

Lemma demo_request_step a s : storable a -> dstep s (to_queue a s).
Proof. intros Ha. apply c_request; [exact Ha|]. vm_compute. intuition congruence. Qed.

Lemma demo_allowed_reach : dreach demo_allowed.
Proof.
  set (s1 := to_queue demo_action demo_armed). set (s2 := to_take 0 s1). set (s3 := to_begin 0 s2).
  apply (reach_next s3); [|apply (c_authorize (H := demo_crypto)); vm_compute; reflexivity].
  apply (reach_next s2); [|apply c_begin; vm_compute; reflexivity].
  apply (reach_next s1); [|apply c_take].
  apply (reach_next demo_armed); [exact demo_armed_reach|].
  apply demo_request_step, (sb_action _ _ _ demo_submission).
Qed.

Lemma demo_door_step : dstep demo_allowed demo_door.
Proof. apply (c_armed demo_cfg demo_allowed demo_io 0 demo_context). vm_compute. reflexivity. Qed.

Lemma demo_reported_reach : dreach demo_reported.
Proof.
  apply (reach_next demo_door).
  - apply (reach_next demo_allowed); [exact demo_allowed_reach|exact demo_door_step].
  - apply (c_submit demo_cfg demo_door demo_io 0). vm_compute. reflexivity.
Qed.

Lemma demo_second_storable : storable demo_second.
Proof.
  destruct (sb_action _ _ _ demo_submission) as [[H1 H2 H3 H4 H5 H6] Hp Hd].
  constructor; [constructor; try done; by vm_compute|done|done].
Qed.

Lemma demo_later_steps : rtc dstep demo_reported demo_later.
Proof.
  set (s1 := to_queue demo_second demo_reported). set (s2 := to_take 1 s1).
  set (s3 := to_begin 1 s2). set (s4 := to_authorize 1 s3).
  apply (rtc_l _ _ s1); [apply demo_request_step, demo_second_storable|].
  apply (rtc_l _ _ s2); [apply c_take|].
  apply (rtc_l _ _ s3); [apply c_begin; vm_compute; reflexivity|].
  apply (rtc_l _ _ s4); [apply (c_authorize (H := demo_crypto)); vm_compute; reflexivity|].
  apply (rtc_l _ _ demo_later); [|apply rtc_refl].
  apply (c_armed demo_cfg s4 demo_io 1 demo_context). vm_compute. reflexivity.
Qed.

Lemma real_dispatch_authorized_witness :
  exists j z id p, heap demo_door !! 0%nat = Some j /\
    charged (H := demo_crypto) (tables (pa demo_door)) j z id p /\ capability_id demo_action ∈ scopes z.
Proof.
  destruct (real_dispatch_authorized (H := demo_crypto) demo_cfg demo_allowed demo_door 0
    (with_authorization demo_action demo_context) demo_allowed_reach demo_door_step)
    as (_ & j & z & id & p & H1 & _ & H2 & _ & _ & H3).
  - vm_compute. reflexivity.
  - reflexivity.
  - exists j, z, id, p. split; [exact H1|]. split; [exact H2|exact H3].
Defined.

Lemma real_dispatched_once_witness :
  exists j, heap demo_reported !! 0%nat = Some j /\
    action_id demo_second <> action_id (j_action j).
Proof.
  destruct (heap demo_reported !! 0%nat) as [j|] eqn:E; [|exfalso; vm_compute in E; discriminate].
  exists j. split; [reflexivity|].
  apply (real_dispatched_once (H := demo_crypto) demo_cfg demo_reported demo_later 0 1 j
    (with_authorization demo_second demo_context) demo_reported_reach demo_later_steps E).
  - vm_compute in E. injection E as <-. reflexivity.
  - vm_compute. reflexivity.
  - vm_compute. reflexivity.
  - reflexivity.
Defined.

(** The latch of a daemon that was stopped at the door. *)
Definition demo_stopped : dplane := set_latched true demo_door.

Lemma estop_final_witness :
  dreach demo_stopped /\ latched demo_stopped = true /\
  exists e, arm_locked demo_stopped = (demo_stopped, Err (ControlPlaneError e)).
Proof.
  assert (Hr : dreach demo_stopped).
  { apply (reach_next demo_door); [|apply c_latch].
    apply (reach_next demo_allowed); [exact demo_allowed_reach|exact demo_door_step]. }
  split; [exact Hr|].
  destruct (estop_final (H := demo_crypto) demo_cfg demo_stopped demo_stopped Hr eq_refl
    (rtc_refl _ _)) as (H1 & H2 & _).
  split; [exact H1|exact H2].
Defined.

Lemma recovery_gate_witness :
  rec_required demo_restarted_plane = true /\
  arm_locked demo_restarted_plane =
    (demo_restarted_plane, Err (ControlPlaneError "RECOVERY_REVIEW_REQUIRED")).
Proof.
  assert (Hq : rec_required demo_restarted_plane = true) by (vm_compute; reflexivity).
  split; [exact Hq|].
  apply (recovery_gate (H := demo_crypto) demo_cfg demo_restarted_plane demo_restarted_plane);
    [|exact Hq|apply rtc_refl|exact Hq].
  exists demo_restarted_plane. split; [|apply rtc_refl].
  destruct demo_restored as [s0|] eqn:E; [|exfalso; vm_compute in E; discriminate].
  apply (boot_ledger demo_cfg demo_io ActionGateway_new demo_interrupted s0 demo_restarted_plane E).
  unfold demo_restarted_plane. rewrite E. vm_compute in E. injection E as <-. vm_compute. reflexivity.
Defined.

Lemma request_outcome_witness :
  exists loc j, accepted demo_io demo_action demo_peer demo_armed
    (to_queue demo_action demo_armed) loc j.
Proof.
  destruct (request_locked demo_cfg demo_io demo_action demo_peer demo_armed) as [s' r] eqn:E.
  destruct (request_outcome (H := demo_crypto) demo_cfg demo_io demo_action demo_peer demo_armed s' r
    demo_armed_reach E) as [[Hu|Ha] _].
  - exfalso. pose proof (un_heap _ _ Hu) as Hh.
    assert (Hx : heap (to_queue demo_action demo_armed) = heap demo_armed)
      by (unfold to_queue; rewrite E; exact Hh).
    vm_compute in Hx. discriminate.
  - unfold to_queue. rewrite E. exact Ha.
Defined.

Lemma lost_session_marks_witness :
  exists queued, (lose_jobs "session_1" demo_begun).2 = Ok (queued, [0%nat]).
Proof.
  destruct (lose_jobs "session_1" demo_begun) as [s' r] eqn:E.
  destruct (lost_session_marks (H := demo_crypto) demo_cfg "session_1" demo_begun s' r
    demo_begun_reach E) as (queued & running & Hr & _).
  exists queued. cbn. rewrite Hr.
  assert (Hx : (lose_jobs "session_1" demo_begun).2 = Ok ([], [0%nat])) by (vm_compute; reflexivity).
  rewrite E in Hx. cbn in Hx. rewrite Hr in Hx. injection Hx as <- <-. reflexivity.
Defined.

(** A ledger that refuses the terminal event. *)
Definition demo_refusing : io bool :=
  {| clock := fun _ => demo_now; mono := fun _ => 0;
     append_env := fun ty _ => negb (String.eqb ty "ACTION_TERMINAL");
     gw_env := demo_env; pool_accepts := true; stop_result := StopReceipt [];
     fresh_id := "00000000000000000000000000000001"; decision_message := fun c => c |}.

Lemma unrecorded_outcome_stops_witness :
  latched (run_finish demo_refusing 0 [] demo_begun).1 = true.
Proof.
  destruct (heap demo_begun !! 0%nat) as [j|] eqn:E; [|exfalso; vm_compute in E; discriminate].
  destruct (log_of demo_begun) as [l|] eqn:El; [|exfalso; vm_compute in El; discriminate].
  assert (Hm : execution_mode (j_action j) = REAL /\ j_terminal_override j = None /\
    inflight (gwy demo_begun) !! action_id (j_action j) = None)
    by (vm_compute in E; injection E as <-; split; [|split]; vm_compute; reflexivity).
  destruct Hm as (Hm & Ho & Hi).
  destruct (unrecorded_outcome_stops demo_refusing 0 [] demo_begun j l E Hm Ho El Hi)
    as (s' & j' & Hs & _ & _ & _ & Hl & _); [intros ? ?; reflexivity|].
  rewrite Hs. exact Hl.
Defined.

(** The emergency stop is not one block: a thread that arms the daemon between
    the block that enters ESTOPPED and the latch leaves it ARMED, with the stop
    latched. The latch alone then refuses what [estop_final] says. *)
Lemma arming_overtakes_estop :
  exists s s1 s2 s3 : dplane, dreach s /\
    s1 = (enter_estop s).1 /\ s2 = (arm_locked s1).1 /\ s3 = (runtime_stop demo_io s2).1 /\
    supervision s1 = ESTOPPED /\ supervision s3 = ARMED /\ latched s3 = true.
Proof.
  exists demo_armed, (enter_estop demo_armed).1, (arm_locked (enter_estop demo_armed).1).1,
    (runtime_stop demo_io (arm_locked (enter_estop demo_armed).1).1).1.
  split; [exact demo_armed_reach|]. vm_compute. intuition reflexivity.
Qed.
