(* ===== verification/Proposals.v ===== *)
(** Operator proposals: src/src/rosclaw/operator/store.py and
    src/src/rosclaw/operator/protocol.py.

    [OperatorProposalStore] is a dictionary of proposals by request id and the
    index of their actions. Each method body runs under one lock and is one
    function; a raised exception is [Err], returned with the store it leaves.
    A proposal object is known by its request id, which a store never gives to
    two objects. Clock readings, the identifier and the nonce of a new proposal
    come from a [creation]. *)

From S2P Require Export Jobs.

(** ** ProposalState *)

Inductive ProposalState :=
| P_CREATED | P_PRESENTED | P_ACCEPTED | P_PERMIT_ISSUED | P_SUBMITTED | P_TERMINAL
| P_DECLINED | P_CANCELLED | P_EXPIRED | P_INVALIDATED.

Definition ProposalState_value (s : ProposalState) : string :=
  match s with
  | P_CREATED => "CREATED" | P_PRESENTED => "PRESENTED" | P_ACCEPTED => "ACCEPTED"
  | P_PERMIT_ISSUED => "PERMIT_ISSUED" | P_SUBMITTED => "SUBMITTED" | P_TERMINAL => "TERMINAL"
  | P_DECLINED => "DECLINED" | P_CANCELLED => "CANCELLED" | P_EXPIRED => "EXPIRED"
  | P_INVALIDATED => "INVALIDATED"
  end.

#[export] Instance ProposalState_eq_dec : EqDecision ProposalState.
Proof. solve_decision. Defined.

Definition ProposalState_all : list ProposalState :=
  [P_CREATED; P_PRESENTED; P_ACCEPTED; P_PERMIT_ISSUED; P_SUBMITTED; P_TERMINAL; P_DECLINED;
   P_CANCELLED; P_EXPIRED; P_INVALIDATED].

#[export, program] Instance ProposalState_enum : StrEnum ProposalState := {|
  se_members := ProposalState_all; se_value := ProposalState_value |}.
Next Obligation. intros x; destruct x; unfold ProposalState_all; set_solver. Qed.
Next Obligation. by intros [] []. Qed.

Inductive OperatorDecision := D_ACCEPT | D_DECLINE.

Definition OperatorDecision_value (d : OperatorDecision) : string :=
  match d with D_ACCEPT => "ACCEPT" | D_DECLINE => "DECLINE" end.

(** [_TERMINAL_PROPOSAL_STATES], and the states awaiting a decision. *)
Definition terminal_state (s : ProposalState) : bool :=
  match s with
  | P_TERMINAL | P_DECLINED | P_CANCELLED | P_EXPIRED | P_INVALIDATED => true
  | _ => false
  end.

Definition pending_state (s : ProposalState) : bool :=
  match s with P_CREATED | P_PRESENTED => true | _ => false end.

(** ** OperatorProposal *)

Definition OPERATOR_PROPOSAL_SCHEMA_VERSION : string := "rosclaw.operator.proposal.v1".

Record OperatorProposal := {
  pr_request_id : string;
  pr_action : ActionEnvelope;
  pr_intent_hash : string;
  pr_display : dict json;
  pr_origin : PeerCredentials;
  pr_created_at : datetime;
  pr_expires_at : datetime;
  pr_nonce : string;
  pr_instance : string;
  pr_state : ProposalState;
  pr_principal : option string;
  pr_channel : option string;
  pr_reason : option string;
  pr_decided_at : option datetime;
  pr_failure_code : option string;
  pr_failure_message : option string;
  pr_transitions : list (ProposalState * datetime);
  pr_audited : Z;                             (* audited_transition_count *)
  pr_client_reference : dict string;
  pr_decision_receipt : option (dict json);
}.

(** Everything but the lifecycle of a proposal. *)
Definition request_part (p : OperatorProposal) :=
  (pr_request_id p, pr_action p, pr_intent_hash p, pr_display p, pr_origin p, pr_created_at p,
   pr_expires_at p, pr_nonce p, pr_instance p, pr_client_reference p).

(** [_iso] *)
Definition utc_iso (d : datetime) : string := iso (dt_utc d).
Definition utc_iso_opt (d : option datetime) : json :=
  match d with Some d => JStr (utc_iso d) | None => JNull end.

Definition transition_json (t : ProposalState * datetime) : json :=
  JObj [("state", JStr (ProposalState_value t.1)); ("at", JStr (utc_iso t.2))].

(** [_to_dict] *)
Definition proposal_dict (include_challenge : bool) (p : OperatorProposal) : dict json :=
  let a := pr_action p in
  ([("schema_version", JStr OPERATOR_PROPOSAL_SCHEMA_VERSION);
    ("request_id", JStr (pr_request_id p));
    ("action_id", JStr (action_id a));
    ("action_intent_hash", JStr (pr_intent_hash p));
    ("body_id", JStr (body_id a));
    ("body_snapshot_hash", JStr (body_snapshot_hash a));
    ("capability_id", JStr (capability_id a));
    ("execution_mode", JStr (se_value (execution_mode a)));
    ("risk_class", JStr (risk_class a));
    ("deadline_at", iso_opt (deadline_at a));
    ("display", JObj (pr_display p));
    ("origin", JObj [("uid", JInt (uid (pr_origin p))); ("pid", JInt (pid (pr_origin p)))]);
    ("daemon_instance_id", JStr (pr_instance p));
    ("state", JStr (ProposalState_value (pr_state p)));
    ("created_at", JStr (utc_iso (pr_created_at p)));
    ("expires_at", JStr (utc_iso (pr_expires_at p)));
    ("operator_principal", opt_text_json (pr_principal p));
    ("decision_channel", opt_text_json (pr_channel p));
    ("decision_reason", opt_text_json (pr_reason p));
    ("decided_at", utc_iso_opt (pr_decided_at p));
    ("failure", match pr_failure_code p with
                | Some c => if truthy_str c
                            then JObj [("code", JStr c);
                                       ("message", opt_text_json (pr_failure_message p))]
                            else JNull
                | None => JNull
                end);
    ("transitions", JList (map transition_json (pr_transitions p)));
    ("client_reference", JObj (map (fun kv => (kv.1, JStr kv.2)) (pr_client_reference p)));
    ("decision_receipt", match pr_decision_receipt p with
                         | Some ((_ :: _) as d) => JObj d
                         | _ => JNull
                         end)]
   ++ if include_challenge then [("challenge_nonce", JStr (pr_nonce p))] else [])%list.

Definition public_dict : OperatorProposal -> dict json := proposal_dict false.
Definition operator_dict : OperatorProposal -> dict json := proposal_dict true.

(** Assignments to the lifecycle of a proposal. *)
Definition with_lifecycle (p : OperatorProposal) (st : ProposalState)
    (principal channel reason : option string) (decided : option datetime)
    (code message : option string) (at_ : datetime) : OperatorProposal :=
  {| pr_request_id := pr_request_id p; pr_action := pr_action p;
     pr_intent_hash := pr_intent_hash p; pr_display := pr_display p; pr_origin := pr_origin p;
     pr_created_at := pr_created_at p; pr_expires_at := pr_expires_at p; pr_nonce := pr_nonce p;
     pr_instance := pr_instance p; pr_state := st; pr_principal := principal;
     pr_channel := channel; pr_reason := reason; pr_decided_at := decided;
     pr_failure_code := code; pr_failure_message := message;
     pr_transitions := (pr_transitions p ++ [(st, at_)])%list; pr_audited := pr_audited p;
     pr_client_reference := pr_client_reference p;
     pr_decision_receipt := pr_decision_receipt p |}.

Definition with_audit (p : OperatorProposal) (audited : Z) (receipt : option (dict json))
  : OperatorProposal :=
  {| pr_request_id := pr_request_id p; pr_action := pr_action p;
     pr_intent_hash := pr_intent_hash p; pr_display := pr_display p; pr_origin := pr_origin p;
     pr_created_at := pr_created_at p; pr_expires_at := pr_expires_at p; pr_nonce := pr_nonce p;
     pr_instance := pr_instance p; pr_state := pr_state p; pr_principal := pr_principal p;
     pr_channel := pr_channel p; pr_reason := pr_reason p; pr_decided_at := pr_decided_at p;
     pr_failure_code := pr_failure_code p; pr_failure_message := pr_failure_message p;
     pr_transitions := pr_transitions p; pr_audited := audited;
     pr_client_reference := pr_client_reference p; pr_decision_receipt := receipt |}.

(** [proposal.audited_transition_count = len(proposal.transitions)] *)
Definition audited (p : OperatorProposal) : OperatorProposal :=
  with_audit p (Z.of_nat (length (pr_transitions p))) (pr_decision_receipt p).

Definition with_receipt (d : dict json) (p : OperatorProposal) : OperatorProposal :=
  with_audit p (pr_audited p) (Some d).

(** ** OperatorProposalStore *)

(** [OperatorProposalError] by its code, or another exception. *)
Inductive prop_exn := OperatorProposalError (code : string) | ProposalRaised.

Definition MIN_PROPOSAL_TTL_SEC : pyfloat := Fin 5 0.
Definition MAX_PROPOSAL_TTL_SEC : pyfloat := Fin 300 0.
Definition MAX_DISPLAY_BYTES : Z := 32768.

Record OperatorProposalStore := {
  ps_capacity : Z;
  ps_proposals : dict OperatorProposal;
  ps_requests : dict string;                  (* _action_requests *)
}.

Definition store_new (capacity : Z) : result pyexc OperatorProposalStore :=
  guard! 1 <=? capacity else ValueError in
  Ok {| ps_capacity := capacity; ps_proposals := []; ps_requests := [] |}.

(** What one call of [create] reads from outside. *)
Record creation := {
  cr_now : datetime;
  cr_uuid : string;       (* [uuid.uuid4().hex] of the request *)
  cr_nonce : string;      (* [secrets.token_urlsafe(32)] *)
  cr_default : datetime;  (* the clock and identifier [ActionEnvelope.from_dict] *)
  cr_fresh : string;      (* would use for missing fields *)
}.

(** [_ttl]: seconds, in microseconds. *)
Definition proposal_ttl (v : pyfloat) : result prop_exn Z :=
  guard! is_finite v && float_le MIN_PROPOSAL_TTL_SEC v && float_le v MAX_PROPOSAL_TTL_SEC
    else OperatorProposalError "INVALID_PROPOSAL_TTL" in
  Ok (float_us v).

(** [len(s.encode("utf-8"))] for code points below 256. *)
Fixpoint utf8_len (s : string) : Z :=
  match s with
  | EmptyString => 0
  | String c s' => (if ord c <? 128 then 1 else 2) + utf8_len s'
  end.

(** [_display] *)
Definition proposal_display (d : dict json) : result prop_exn (dict json) :=
  let* text := of_option (dumps (JObj d)) (OperatorProposalError "INVALID_PROPOSAL_DISPLAY") in
  guard! utf8_len text <=? MAX_DISPLAY_BYTES else OperatorProposalError "INVALID_PROPOSAL_DISPLAY" in
  Ok d.

(** [_client_reference] *)
Definition reference_item (kv : string * string) : result prop_exn unit :=
  guard! bool_decide (kv.1 ∈ ["agent_request_id"; "mission_id"])
    else OperatorProposalError "INVALID_CLIENT_REFERENCE" in
  require (truthy_str kv.2 && (len kv.2 <=? 128)) (OperatorProposalError "INVALID_CLIENT_REFERENCE").

Definition client_reference (r : option (dict string)) : result prop_exn (dict string) :=
  match r with
  | None => Ok []
  | Some d => let* _ := mapr reference_item d in Ok d
  end.

(** [_expire_locked] *)
Definition lapsed (now : datetime) (p : OperatorProposal) : bool :=
  pending_state (pr_state p)
  && (dt_le (pr_expires_at p) now
      || match deadline_at (pr_action p) with Some d => dt_le d now | None => true end).

Definition expire (now : datetime) (p : OperatorProposal) : OperatorProposal :=
  if lapsed now p
  then with_lifecycle p P_EXPIRED (pr_principal p) (pr_channel p) (pr_reason p) (Some (dt_utc now))
         (Some "PROPOSAL_EXPIRED")
         (Some "Operator proposal expired before a trusted decision") (dt_utc now)
  else p.

Definition set_proposals (s : OperatorProposalStore) (d : dict OperatorProposal)
  : OperatorProposalStore :=
  {| ps_capacity := ps_capacity s; ps_proposals := d; ps_requests := ps_requests s |}.

Definition put_proposal (s : OperatorProposalStore) (p : OperatorProposal) : OperatorProposalStore :=
  set_proposals s (dset (ps_proposals s) (pr_request_id p) p).

(** The loop of [_evict_terminal_locked] over a snapshot of the table. *)
Fixpoint drop_terminal (items : dict OperatorProposal) (s : OperatorProposalStore)
  : OperatorProposalStore :=
  match items with
  | [] => s
  | (id, p) :: rest =>
      if terminal_state (pr_state p) then
        let s := {| ps_capacity := ps_capacity s; ps_proposals := dpop (ps_proposals s) id;
                    ps_requests := dpop (ps_requests s) (action_id (pr_action p)) |} in
        if Z.of_nat (length (ps_proposals s)) <? ps_capacity s then s else drop_terminal rest s
      else drop_terminal rest s
  end.

Definition full (s : OperatorProposalStore) : bool :=
  ps_capacity s <=? Z.of_nat (length (ps_proposals s)).

Definition evict_terminal (s : OperatorProposalStore) : OperatorProposalStore :=
  if full s then drop_terminal (ps_proposals s) s else s.

Section Store.
Context `{Crypto}.

(** The part of [create] before the lock: the action with no approval claims,
    and the expiry of its proposal. *)
Definition normalize_request (c : creation) (a : ActionEnvelope) (display : dict json)
    (ttl : pyfloat) : result prop_exn (ActionEnvelope * datetime) :=
  let* ttl := proposal_ttl ttl in
  guard! bool_decide (execution_mode a = REAL) || bool_decide (execution_mode a = SHADOW)
    else OperatorProposalError "PROPOSAL_REAL_ACTION_REQUIRED" in
  guard! nonblank (body_snapshot_hash a)
    else OperatorProposalError "PROPOSAL_BODY_SNAPSHOT_REQUIRED" in
  let* _ := proposal_display display in
  match deadline_at a with
  | None => Err (OperatorProposalError "ACTION_DEADLINE_EXPIRED")
  | Some d =>
      guard! dt_lt (cr_now c) d else OperatorProposalError "ACTION_DEADLINE_EXPIRED" in
      let* x := map_err (fun _ => ProposalRaised)
                  (ActionEnvelope_from_dict (cr_default c) (cr_fresh c) (ActionEnvelope_to_dict a)) in
      Ok (with_authorization x AuthorizationContext_default,
          dt_min (dt_add (dt_utc (cr_now c)) ttl) d)
  end.

Definition proposal_of (c : creation) (x : ActionEnvelope) (h : string) (display : dict json)
    (origin : PeerCredentials) (instance : string) (expires : datetime) (reference : dict string)
  : OperatorProposal :=
  {| pr_request_id := "proposal_" +:+ cr_uuid c; pr_action := x; pr_intent_hash := h;
     pr_display := display; pr_origin := origin; pr_created_at := dt_utc (cr_now c);
     pr_expires_at := expires; pr_nonce := cr_nonce c; pr_instance := instance;
     pr_state := P_CREATED; pr_principal := None; pr_channel := None; pr_reason := None;
     pr_decided_at := None; pr_failure_code := None; pr_failure_message := None;
     pr_transitions := [(P_CREATED, dt_utc (cr_now c))]; pr_audited := 0;
     pr_client_reference := reference; pr_decision_receipt := None |}.

Definition add_proposal (s : OperatorProposalStore) (p : OperatorProposal) : OperatorProposalStore :=
  {| ps_capacity := ps_capacity s;
     ps_proposals := dset (ps_proposals s) (pr_request_id p) p;
     ps_requests := dset (ps_requests s) (action_id (pr_action p)) (pr_request_id p) |}.

(** The proposal of [create] for an action no proposal is about. *)
Definition insert_proposal (c : creation) (s : OperatorProposalStore) (x : ActionEnvelope)
    (display : dict json) (origin : PeerCredentials) (instance : string) (expires : datetime)
    (reference : option (dict string))
  : OperatorProposalStore * result prop_exn OperatorProposal :=
  let s := evict_terminal s in
  match (guard! negb (full s) else OperatorProposalError "PROPOSAL_STORE_FULL" in
         let* h := of_option (action_intent_hash x) ProposalRaised in
         let* r := client_reference reference in
         Ok (proposal_of c x h display origin instance expires r)) with
  | Ok p => (add_proposal s p, Ok p)
  | Err e => (s, Err e)
  end.

(** [create] *)
Definition create_proposal (c : creation) (s : OperatorProposalStore) (a : ActionEnvelope)
    (display : dict json) (origin : PeerCredentials) (instance : string) (ttl : pyfloat)
    (reference : option (dict string))
  : OperatorProposalStore * result prop_exn OperatorProposal :=
  match normalize_request c a display ttl with
  | Err e => (s, Err e)
  | Ok (x, expires) =>
      match dget (ps_requests s) (action_id x) with
      | Some id =>
          (s, let* p := of_option (dget (ps_proposals s) id) ProposalRaised in
              let* h := of_option (action_intent_hash x) ProposalRaised in
              guard! String.eqb (pr_intent_hash p) h
                else OperatorProposalError "PROPOSAL_ACTION_ID_CONFLICT" in
              Ok p)
      | None => insert_proposal c s x display origin instance expires reference
      end
  end.
End Store.

(** [get] *)
Definition get_proposal (now : datetime) (s : OperatorProposalStore) (id : string)
  : OperatorProposalStore * result prop_exn OperatorProposal :=
  match dget (ps_proposals s) id with
  | None => (s, Err (OperatorProposalError "PROPOSAL_NOT_FOUND"))
  | Some p => let p := expire now p in (put_proposal s p, Ok p)
  end.

(** [all] and [pending]: every lapsed proposal expires first. *)
Definition expire_all (now : datetime) (s : OperatorProposalStore) : OperatorProposalStore :=
  set_proposals s (map (fun kv => (kv.1, expire now kv.2)) (ps_proposals s)).

Definition all_proposals (now : datetime) (s : OperatorProposalStore)
  : OperatorProposalStore * list OperatorProposal :=
  let s := expire_all now s in (s, dvals (ps_proposals s)).

Definition pending_proposals (now : datetime) (s : OperatorProposalStore)
  : OperatorProposalStore * list OperatorProposal :=
  let s := expire_all now s in
  (s, base.filter (fun p => pending_state (pr_state p) = true) (dvals (ps_proposals s))).

(** The optional arguments of [transition]. *)
Record change := {
  ch_principal : option string;
  ch_channel : option string;
  ch_reason : option string;
  ch_code : option string;
  ch_message : option string;
}.

Definition change_none : change :=
  {| ch_principal := None; ch_channel := None; ch_reason := None; ch_code := None;
     ch_message := None |}.

(** [new or old] *)
Definition or_keep (new old : option string) : option string :=
  match new with Some s => if truthy_str s then Some s else old | None => old end.

Definition deciding_state (st : ProposalState) : bool :=
  match st with P_ACCEPTED | P_DECLINED | P_CANCELLED | P_INVALIDATED => true | _ => false end.

Definition moved (now : datetime) (st : ProposalState) (c : change) (p : OperatorProposal)
  : OperatorProposal :=
  with_lifecycle p st (or_keep (ch_principal c) (pr_principal p))
    (or_keep (ch_channel c) (pr_channel p)) (or_keep (ch_reason c) (pr_reason p))
    (if deciding_state st then Some (dt_utc now) else pr_decided_at p)
    (ch_code c) (ch_message c) (dt_utc now).

(** [transition] of the proposal with request id [id]. *)
Definition transition (now : datetime) (s : OperatorProposalStore) (id : string)
    (st : ProposalState) (c : change) : OperatorProposalStore * result prop_exn OperatorProposal :=
  match dget (ps_proposals s) id with
  | None => (s, Err (OperatorProposalError "PROPOSAL_NOT_FOUND"))
  | Some p => let p := moved now st c p in (put_proposal s p, Ok p)
  end.

Definition count_proposals (s : OperatorProposalStore) (st : ProposalState) : Z :=
  Z.of_nat (length (base.filter (fun p => pr_state p = st) (dvals (ps_proposals s)))).

(** [status] *)
Definition store_status (now : datetime) (s : OperatorProposalStore)
  : OperatorProposalStore * dict Z :=
  let s := expire_all now s in
  (s, ("total", Z.of_nat (length (ps_proposals s))) :: ("capacity", ps_capacity s)
        :: map (fun st => (lower (ProposalState_value st), count_proposals s st))
             ProposalState_all).

(** ** Invariant *)

(** A proposal as [create] makes it, and the log of its states. *)
Record proposal_ok `{Crypto} (p : OperatorProposal) : Prop := {
  po_hash : action_intent_hash (pr_action p) = Some (pr_intent_hash p);
  po_mode : execution_mode (pr_action p) = REAL \/ execution_mode (pr_action p) = SHADOW;
  po_claims : authorization (pr_action p) = AuthorizationContext_default;
  po_storable : storable (pr_action p);
  po_expiry : exists d, deadline_at (pr_action p) = Some d /\ us (pr_expires_at p) <= us d;
  po_log : fst <$> last (pr_transitions p) = Some (pr_state p);
  po_audited : 0 <= pr_audited p <= Z.of_nat (length (pr_transitions p));
}.

Record store_inv `{Crypto} (s : OperatorProposalStore) : Prop := {
  st_cap : 1 <= ps_capacity s;
  st_len : Z.of_nat (length (ps_proposals s)) <= ps_capacity s;
  st_wf : dwf (ps_proposals s);
  st_rwf : dwf (ps_requests s);
  st_ok : forall id p, dget (ps_proposals s) id = Some p ->
    pr_request_id p = id /\ proposal_ok p /\ dget (ps_requests s) (action_id (pr_action p)) = Some id;
  st_req : forall x id, dget (ps_requests s) x = Some id ->
    exists p, dget (ps_proposals s) id = Some p /\ action_id (pr_action p) = x;
}.

(** What a call may do to a proposal: its request never changes, its log
    only grows. *)
Definition p_evolves (p p' : OperatorProposal) : Prop :=
  request_part p' = request_part p /\ pr_transitions p `prefix_of` pr_transitions p'.

(** Calls of the store, and the two assignments the control plane makes to a
    proposal object. A fresh request id is unused. *)
Inductive store_step `{Crypto} : OperatorProposalStore -> OperatorProposalStore -> Prop :=
| ss_create s c a display origin instance ttl reference :
    storable a -> dget (ps_proposals s) ("proposal_" +:+ cr_uuid c) = None ->
    store_step s (create_proposal c s a display origin instance ttl reference).1
| ss_get s now id : store_step s (get_proposal now s id).1
| ss_expire s now : store_step s (expire_all now s)
| ss_transition s now id st c : store_step s (transition now s id st c).1
| ss_audit s id p : dget (ps_proposals s) id = Some p -> store_step s (put_proposal s (audited p))
| ss_receipt s id p d :
    dget (ps_proposals s) id = Some p -> store_step s (put_proposal s (with_receipt d p)).

Section Invariant.
Context `{Crypto}.
Implicit Types (s : OperatorProposalStore) (p : OperatorProposal).

Lemma with_authorization_storable a z : storable a -> storable (with_authorization a z).
Proof. intros [[? ? ? ? ? ?] ? ?]. constructor; [by constructor|done|done]. Qed.

Lemma fields_of_request p p' : request_part p' = request_part p ->
  pr_request_id p' = pr_request_id p /\ pr_action p' = pr_action p /\
  pr_intent_hash p' = pr_intent_hash p /\ pr_expires_at p' = pr_expires_at p.
Proof. unfold request_part. intros [=]. auto. Qed.

Lemma last_snoc_fst {A B} (l : list (A * B)) x : fst <$> last (l ++ [x]) = Some x.1.
Proof. by rewrite last_snoc. Qed.

Lemma lifecycle_ok p st pr ch re de co me at_ :
  proposal_ok p -> proposal_ok (with_lifecycle p st pr ch re de co me at_).
Proof.
  intros [? ? ? ? ? ? ?]. constructor; try done.
  - simpl. by rewrite last_snoc_fst.
  - simpl. rewrite length_app. simpl. lia.
Qed.

Lemma lifecycle_evolves p st pr ch re de co me at_ :
  p_evolves p (with_lifecycle p st pr ch re de co me at_).
Proof. split; [done|]. by eexists. Qed.

Lemma evolves_p_refl p : p_evolves p p.
Proof. done. Qed.

Lemma expire_ok now p : proposal_ok p -> proposal_ok (expire now p).
Proof. unfold expire. case_match; [apply lifecycle_ok|done]. Qed.

Lemma expire_evolves now p : p_evolves p (expire now p).
Proof. unfold expire. case_match; [apply lifecycle_evolves|done]. Qed.

Lemma moved_ok now st c p : proposal_ok p -> proposal_ok (moved now st c p).
Proof. apply lifecycle_ok. Qed.

Lemma audited_ok p : proposal_ok p -> proposal_ok (audited p).
Proof. intros [? ? ? ? ? ? ?]. constructor; try done. simpl. lia. Qed.

Lemma with_receipt_ok d p : proposal_ok p -> proposal_ok (with_receipt d p).
Proof. intros [? ? ? ? ? ? ?]. by constructor. Qed.

(** Changing one proposal in place. *)
Lemma put_inv s id p p' :
  store_inv s -> dget (ps_proposals s) id = Some p -> p_evolves p p' -> proposal_ok p' ->
  store_inv (put_proposal s p').
Proof.
  intros [Hc Hl Hw Hr Hok Hreq] Hp [Hev _] Hp'.
  destruct (fields_of_request _ _ Hev) as (Hid & Ha & _).
  destruct (Hok _ _ Hp) as (Hid0 & _ & Hi). subst id.
  constructor; simpl; try done.
  - rewrite length_dset. assert (dhas (ps_proposals s) (pr_request_id p') = true) as ->; [|done].
    apply dhas_true. rewrite Hid, Hp. by eexists.
  - by apply dwf_dset.
  - intros id q. rewrite dget_dset, Hid. case_decide; [|apply Hok].
    intros [= <-]. subst. by rewrite Ha.
  - intros x id Hx. destruct (Hreq _ _ Hx) as (q & Hq & Haq). rewrite dget_dset, Hid.
    case_decide; [|by eexists]. subst id. exists p'. split; [done|]. rewrite Ha.
    rewrite Hp in Hq. by injection Hq as <-.
Qed.

Lemma dget_map_vals {A} (f : A -> A) (d : dict A) k :
  dget (map (fun kv => (kv.1, f kv.2)) d) k = f <$> dget d k.
Proof. induction d as [|[k' v] d IH]; simpl; [done|]. by case_decide. Qed.

Lemma expire_all_inv now s : store_inv s -> store_inv (expire_all now s).
Proof.
  intros [Hc Hl Hw Hr Hok Hreq]. constructor; simpl; try done.
  - by rewrite length_map.
  - unfold dwf, dkeys. by rewrite <- list_fmap_compose.
  - intros id p. rewrite dget_map_vals. intros (q & Hq & ->)%fmap_Some.
    destruct (Hok _ _ Hq) as (Hid & Hpo & Hi).
    destruct (fields_of_request _ _ (proj1 (expire_evolves now q))) as (-> & -> & _).
    split_and!; [done|by apply expire_ok|done].
  - intros x id Hx. destruct (Hreq _ _ Hx) as (q & Hq & Ha). exists (expire now q).
    rewrite dget_map_vals, Hq. split; [done|].
    by destruct (fields_of_request _ _ (proj1 (expire_evolves now q))) as (_ & -> & _).
Qed.

(** One round of the eviction loop. *)
Lemma drop_one_inv s id p :
  store_inv s -> dget (ps_proposals s) id = Some p ->
  store_inv {| ps_capacity := ps_capacity s; ps_proposals := dpop (ps_proposals s) id;
               ps_requests := dpop (ps_requests s) (action_id (pr_action p)) |}.
Proof.
  intros [Hc Hl Hw Hr Hok Hreq] Hp. destruct (Hok _ _ Hp) as (_ & _ & Hi).
  constructor; simpl; auto with rosclaw.
  - pose proof (length_dpop_le (ps_proposals s) id). lia.
  - intros id' q Hq. destruct (decide (id = id')) as [->|Hne]; [by rewrite dget_dpop_eq in Hq|].
    rewrite dget_dpop_ne in Hq by done. destruct (Hok _ _ Hq) as (? & ? & Hi').
    split_and!; [done|done|]. rewrite dget_dpop_ne; [done|]. intros He. rewrite He in Hi. congruence.
  - intros x id' Hx. destruct (decide (action_id (pr_action p) = x)) as [<-|Hne];
      [by rewrite dget_dpop_eq in Hx|].
    rewrite dget_dpop_ne in Hx by done. destruct (Hreq _ _ Hx) as (q & Hq & Ha).
    exists q. split; [|done]. rewrite dget_dpop_ne; [done|]. intros <-. congruence.
Qed.

(** What eviction leaves: every proposal that is gone was terminal, and a
    proposal that stays is unchanged. *)
Record thins s s' : Prop := {
  th_capacity : ps_capacity s' = ps_capacity s;
  th_kept : forall id p, dget (ps_proposals s') id = Some p -> dget (ps_proposals s) id = Some p;
  th_gone : forall id p, dget (ps_proposals s) id = Some p -> dget (ps_proposals s') id = None ->
    terminal_state (pr_state p) = true;
  th_index : forall x, is_Some (dget (ps_requests s') x) -> is_Some (dget (ps_requests s) x);
}.

Lemma drop_terminal_spec items : forall s,
  store_inv s -> dwf items ->
  (forall id p, (id, p) ∈ items -> dget (ps_proposals s) id = Some p) ->
  store_inv (drop_terminal items s) /\ thins s (drop_terminal items s).
Proof.
  induction items as [|[id p] items IH]; intros s Hs Hw Hin; simpl.
  - split; [done|]. constructor; try done. congruence.
  - apply NoDup_cons in Hw as [Hni Hw].
    pose proof (Hin id p ltac:(left)) as Hp.
    destruct (terminal_state (pr_state p)) eqn:Ht.
    2: { apply IH; [done|done|]. intros. apply Hin. by right. }
    pose proof (drop_one_inv s id p Hs Hp) as Hs1. simpl.
    match goal with |- context [drop_terminal items ?x] => set (s1 := x) in * end.
    assert (H1 : thins s s1).
    { constructor; simpl; [done| | |].
      - intros id' q. destruct (decide (id = id')) as [->|]; [by rewrite dget_dpop_eq|].
        by rewrite dget_dpop_ne.
      - intros id' q Hq. destruct (decide (id = id')) as [->|]; [congruence|].
        rewrite dget_dpop_ne by done. congruence.
      - intros x. destruct (decide (action_id (pr_action p) = x)) as [<-|];
          [rewrite dget_dpop_eq; by intros [? ?]|by rewrite dget_dpop_ne]. }
    case_match; [done|].
    destruct (IH s1 Hs1 Hw) as [Hi [Hc Hk Hg Hx]].
    { intros id' q Hq. simpl. rewrite dget_dpop_ne; [apply Hin; by right|].
      intros ->. apply Hni, list_elem_of_fmap. by exists (id', q). }
    split; [done|]. destruct H1 as [Hc1 Hk1 Hg1 Hx1]. constructor; [congruence|auto| |auto].
    intros id' q Hq Hq'. destruct (dget (ps_proposals s1) id') as [q'|] eqn:E; [|eauto].
    pose proof (Hk1 _ _ E). assert (q' = q) as -> by congruence. eauto.
Qed.

Lemma evict_terminal_spec s :
  store_inv s -> store_inv (evict_terminal s) /\ thins s (evict_terminal s).
Proof.
  intros Hs. unfold evict_terminal. destruct (full s).
  - apply drop_terminal_spec; [done|apply Hs|]. intros id p Hin.
    apply dget_Some; [apply Hs|done].
  - split; [done|]. constructor; try done. congruence.
Qed.

Lemma normalize_ok c a display ttl x expires :
  storable a -> normalize_request c a display ttl = Ok (x, expires) ->
  x = with_authorization a AuthorizationContext_default /\
  (execution_mode a = REAL \/ execution_mode a = SHADOW) /\ nonblank (body_snapshot_hash a) = true /\
  exists d, deadline_at a = Some d /\ us (cr_now c) < us d /\ us expires <= us d /\
    expires = dt_min (dt_add (dt_utc (cr_now c)) (float_us ttl)) d.
Proof.
  intros Ha Hn. unfold normalize_request in Hn. ok_inv Hn.
  destruct (deadline_at a) as [d|] eqn:Hd; [|done]. ok_inv Hn.
  destruct Ha as [Hok Hpol Hwf]. specialize (Hwf _ Hd).
  rewrite (ActionEnvelope_round_trip _ _ a d) in Ha5 by done. injection Ha5 as <-.
  unfold proposal_ttl in Ha0. ok_inv Ha0. subst.
  split; [done|]. split; [|split; [done|]].
  { breflect. apply orb_true_iff in Ha1 as [?|?]; breflect; auto. }
  exists d. split; [done|]. unfold dt_lt in Ha4. breflect.
  split; [done|]. split; [|done]. unfold dt_min, dt_lt.
  case_match; breflect; simpl in *; lia.
Qed.

(** The ways [create] ends: refused, the proposal that is already there, or a
    new pending one. *)
Lemma proposal_create_cases c s a display origin instance ttl reference s' r :
  store_inv s -> storable a -> dget (ps_proposals s) ("proposal_" +:+ cr_uuid c) = None ->
  create_proposal c s a display origin instance ttl reference = (s', r) ->
  store_inv s' /\ thins s (evict_terminal s) /\
  ((exists e, r = Err e /\ (s' = s \/ s' = evict_terminal s)) \/
   (exists p, r = Ok p /\ s' = s /\ dget (ps_proposals s) (pr_request_id p) = Some p /\
      action_id (pr_action p) = action_id a /\
      action_intent_hash (with_authorization a AuthorizationContext_default)
        = Some (pr_intent_hash p)) \/
   (exists p, r = Ok p /\ s' = add_proposal (evict_terminal s) p /\ proposal_ok p /\
      dget (ps_requests s) (action_id a) = None /\
      pr_request_id p = "proposal_" +:+ cr_uuid c /\
      pr_action p = with_authorization a AuthorizationContext_default /\
      pr_state p = P_CREATED /\ pr_origin p = origin /\ pr_nonce p = cr_nonce c /\
      pr_instance p = instance /\ pr_audited p = 0)).
Proof.
  intros Hs Ha Hf E. unfold create_proposal in E.
  destruct (evict_terminal_spec s Hs) as [Hi Hth].
  destruct (normalize_request c a display ttl) as [[x expires]|e] eqn:Hn.
  2: { injection E as <- <-. split_and!; [done|done|]. left. eauto. }
  apply normalize_ok in Hn as (-> & Hm & _ & d & Hd & Hnow & Hle & _); [|done].
  cbn [action_id with_authorization] in E.
  destruct (dget (ps_requests s) (action_id a)) as [id|] eqn:Hq.
  - injection E as <- <-. split_and!; [done|done|].
    destruct (st_req _ Hs _ _ Hq) as (p & Hp & Hpa). rewrite Hp. cbn [of_option rbind].
    destruct (action_intent_hash (with_authorization a AuthorizationContext_default)) as [h|] eqn:Hh;
      cbn [of_option rbind]; [|left; eauto].
    unfold require. destruct (String.eqb_spec (pr_intent_hash p) h) as [<-|]; cbn [rbind];
      [|left; eauto].
    right. left. exists p. destruct (st_ok _ Hs _ _ Hp) as (-> & _). eauto.
  - unfold insert_proposal in E.
    match type of E with (match ?m with _ => _ end) = _ => destruct m as [p|e] eqn:Hm' end.
    2: { injection E as <- <-. split_and!; [done|done|]. left. eauto. }
    injection E as <- <-. ok_inv Hm'. unfold full in *. breflect.
    assert (Hpo : proposal_ok p).
    { subst p. constructor; cbn; try done; [by apply with_authorization_storable|]. exists d. rewrite Hd. split; [done|lia]. }
    assert (Hp1 : dget (ps_proposals (evict_terminal s)) (pr_request_id p) = None).
    { subst p. cbn [pr_request_id proposal_of].
      destruct (dget (ps_proposals (evict_terminal s)) ("proposal_" +:+ cr_uuid c)) eqn:E; [|done].
      apply (th_kept _ _ Hth) in E. congruence. }
    assert (Hp2 : dget (ps_requests (evict_terminal s)) (action_id a) = None).
    { destruct (dget (ps_requests (evict_terminal s)) (action_id a)) eqn:E; [|done].
      destruct (th_index _ _ Hth (action_id a)) as [? Hx]; [by eexists|]. congruence. }
    assert (Hpa : action_id (pr_action p) = action_id a) by (by subst p).
    split_and!; [|done|].
    + destruct Hi as [Hc Hl Hw Hr Hok Hreq]. constructor; cbn; auto with rosclaw.
      * rewrite length_dset. case_match; lia.
      * intros id q. rewrite dget_dset. case_decide as Hd'.
        -- intros [= <-]. subst id. split_and!; [done|done|]. by rewrite dget_dset_eq.
        -- intros Hq'. destruct (Hok _ _ Hq') as (? & ? & Hx). split_and!; [done|done|].
           rewrite dget_dset_ne; [done|]. rewrite Hpa. congruence.
      * intros y id. rewrite dget_dset, Hpa. case_decide as Hd'.
        -- intros [= <-]. exists p. rewrite dget_dset_eq. split; [done|]. congruence.
        -- intros Hy. destruct (Hreq _ _ Hy) as (q & Hq' & Hqa). exists q. split; [|done].
           rewrite dget_dset_ne; [done|]. congruence.
    + right. right. exists p. split_and!; try done; by subst p.
Qed.

Lemma get_inv now s id : store_inv s -> store_inv (get_proposal now s id).1.
Proof.
  intros Hs. unfold get_proposal. destruct (dget _ id) as [p|] eqn:Hp; [|done].
  eapply put_inv; [done|exact Hp|apply expire_evolves|apply expire_ok, (st_ok _ Hs _ _ Hp)].
Qed.

Lemma transition_inv now s id st c : store_inv s -> store_inv (transition now s id st c).1.
Proof.
  intros Hs. unfold transition. destruct (dget _ id) as [p|] eqn:Hp; [|done].
  eapply put_inv; [done|exact Hp|apply lifecycle_evolves|apply moved_ok, (st_ok _ Hs _ _ Hp)].
Qed.

Lemma store_step_inv s s' : store_step s s' -> store_inv s -> store_inv s'.
Proof.
  intros [s0 c a d o i t r Ha Hf|s0 now id|s0 now|s0 now id st c|s0 id p Hp|s0 id p d Hp] Hs.
  - destruct (create_proposal _ _ _ _ _ _ _ _) as [s1 r1] eqn:E. cbn [fst].
    by apply proposal_create_cases in E as (? & _).
  - by apply get_inv.
  - by apply expire_all_inv.
  - by apply transition_inv.
  - eapply put_inv; [done|exact Hp|done|apply audited_ok, (st_ok _ Hs _ _ Hp)].
  - eapply put_inv; [done|exact Hp|done|apply with_receipt_ok, (st_ok _ Hs _ _ Hp)].
Qed.

Lemma store_new_inv n s : store_new n = Ok s -> store_inv s.
Proof.
  unfold store_new. intros Hn. ok_inv Hn. breflect. subst.
  constructor; cbn; try done; [lia|apply NoDup_nil_2|apply NoDup_nil_2].
Qed.
End Invariant.

(** ** The store over its lifetime *)

Section Lifetime.
Context `{Crypto}.
Implicit Types (s : OperatorProposalStore) (p : OperatorProposal).

Lemma drop_terminal_capacity items : forall s, ps_capacity (drop_terminal items s) = ps_capacity s.
Proof.
  induction items as [|[id p] items IH]; intros s; simpl; [done|].
  destruct (terminal_state _); [|apply IH]. case_match; [done|]. by rewrite IH.
Qed.

Lemma evict_capacity s : ps_capacity (evict_terminal s) = ps_capacity s.
Proof. unfold evict_terminal. destruct (full s); [apply drop_terminal_capacity|done]. Qed.

(** What one call of the store leaves of a proposal. *)
Definition remains s s' : Prop :=
  forall id p, dget (ps_proposals s) id = Some p ->
    match dget (ps_proposals s') id with
    | Some p' => p_evolves p p'
    | None => terminal_state (pr_state p) = true /\ full s = true
    end.

Lemma remains_put s id p p' :
  store_inv s -> dget (ps_proposals s) id = Some p -> p_evolves p p' -> remains s (put_proposal s p').
Proof.
  intros Hs Hp Hev k q Hq. cbn. destruct (fields_of_request _ _ (proj1 Hev)) as (Hid & _).
  destruct (st_ok _ Hs _ _ Hp) as (<- & _). rewrite dget_dset, Hid.
  case_decide as Hk; [|by rewrite Hq]. subst k. by simplify_eq.
Qed.

Lemma remains_thins s s' : thins s s' -> s' = evict_terminal s -> remains s s'.
Proof.
  intros Ht -> id p Hp. destruct (dget (ps_proposals (evict_terminal s)) id) as [q|] eqn:E.
  - apply (th_kept _ _ Ht) in E. by simplify_eq.
  - split; [by eapply th_gone|]. destruct (full s) eqn:F; [done|].
    unfold evict_terminal in E. rewrite F in E. congruence.
Qed.

Lemma remains_refl s : remains s s.
Proof. intros id p Hp. by rewrite Hp. Qed.

(** The ways one call changes the table of proposals. *)
Lemma store_step_cases s s' : store_step s s' -> store_inv s ->
  ps_capacity s' = ps_capacity s /\ remains s s' /\
  forall id p', dget (ps_proposals s) id = None -> dget (ps_proposals s') id = Some p' -> pr_state p' = P_CREATED.
Proof.
  intros Hstep Hs.
  assert (Hput : forall id p p', dget (ps_proposals s) id = Some p -> p_evolves p p' ->
    ps_capacity (put_proposal s p') = ps_capacity s /\ remains s (put_proposal s p') /\
    forall k q, dget (ps_proposals s) k = None -> dget (ps_proposals (put_proposal s p')) k = Some q -> pr_state q = P_CREATED).
  { intros id p p' Hp Hev. split; [done|]. split; [by eapply remains_put|]. intros k q Hk. cbn.
    destruct (fields_of_request _ _ (proj1 Hev)) as (Hid & _). destruct (st_ok _ Hs _ _ Hp) as (<- & _).
    rewrite dget_dset, Hid. case_decide; [congruence|]. congruence. }
  destruct Hstep as [s c a d o i t r Ha Hf|s now id|s now|s now id st c|s id p Hp|s id p d Hp].
  - destruct (create_proposal _ _ _ _ _ _ _ _) as [s1 r1] eqn:E. cbn [fst].
    destruct (evict_terminal_spec s Hs) as [Hi _].
    apply proposal_create_cases in E as (_ & Ht & [(e & _ & [->| ->])|[(p & _ & -> & _)|
      (p & _ & -> & _ & _ & Hid & _ & Hst & _)]]); [..|done|done|done].
    + split; [done|]. split; [apply remains_refl|congruence].
    + split; [apply evict_capacity|]. split; [by apply remains_thins|].
      intros id p Hn Hp. apply (th_kept _ _ Ht) in Hp. congruence.
    + split; [done|]. split; [apply remains_refl|congruence].
    + split; [apply evict_capacity|]. rewrite <- Hid in Hf. split.
      * intros k q Hq. cbn. rewrite dget_dset. case_decide; [congruence|]. by apply (remains_thins s).
      * intros k q Hn. cbn. rewrite dget_dset. case_decide; [by intros [= <-]|].
        intros Hq. apply (th_kept _ _ Ht) in Hq. congruence.
  - unfold get_proposal. destruct (dget (ps_proposals s) id) as [p|] eqn:Hp.
    + apply (Hput id p); [done|apply expire_evolves].
    + split; [done|]. split; [apply remains_refl|cbn; congruence].
  - split; [done|]. split.
    + intros id p Hp. cbn. rewrite dget_map_vals, Hp. apply expire_evolves.
    + intros id p' Hn. cbn. by rewrite dget_map_vals, Hn.
  - unfold transition. destruct (dget (ps_proposals s) id) as [p|] eqn:Hp.
    + apply (Hput id p); [done|apply lifecycle_evolves].
    + split; [done|]. split; [apply remains_refl|cbn; congruence].
  - by apply (Hput id p).
  - by apply (Hput id p).
Qed.

Lemma store_steps_inv n s0 s : store_new n = Ok s0 -> rtc store_step s0 s -> store_inv s /\ ps_capacity s = n.
Proof.
  intros Hn. apply (reach_inv store_step (fun s => store_inv s /\ ps_capacity s = n)).
  - split; [by eapply store_new_inv|]. unfold store_new in Hn. ok_inv Hn. by subst s0.
  - intros x y [Hx Hc] Hs. split; [by eapply store_step_inv|]. destruct (store_step_cases _ _ Hs Hx) as [Hc' _]. congruence.
Qed.

(** C20: the proposal store, whatever calls its lock lets in, in whatever order and to whatever
    states they move the proposals: it never holds more than its capacity nor two proposals of
    one action; each is a REAL or SHADOW action without the caller's approval claims, hashed
    as it stands, expiring no later than its deadline, in the state its log ends with. A call
    never changes what was requested, shown to the operator or challenged, and only adds to
    the log; it forgets a proposal only in a terminal state and when the store is full; a
    proposal it adds is CREATED. Asking again for an action that has a proposal returns that
    one, and only if the intent is the same. *)
Theorem proposal_store_sound n s0 s s' :
  store_new n = Ok s0 -> rtc store_step s0 s -> store_step s s' ->
  Z.of_nat (length (ps_proposals s)) <= n /\
  (forall id p, dget (ps_proposals s) id = Some p ->
     pr_request_id p = id /\ (execution_mode (pr_action p) = REAL \/ execution_mode (pr_action p) = SHADOW) /\
     authorization (pr_action p) = AuthorizationContext_default /\
     action_intent_hash (pr_action p) = Some (pr_intent_hash p) /\
     (exists d, deadline_at (pr_action p) = Some d /\ us (pr_expires_at p) <= us d) /\
     fst <$> last (pr_transitions p) = Some (pr_state p) /\
     (forall id' q, dget (ps_proposals s) id' = Some q -> action_id (pr_action q) = action_id (pr_action p) -> id' = id) /\
     match dget (ps_proposals s') id with
     | Some q => pr_action q = pr_action p /\ pr_intent_hash q = pr_intent_hash p /\ pr_display q = pr_display p /\
         pr_origin q = pr_origin p /\ pr_expires_at q = pr_expires_at p /\ pr_nonce q = pr_nonce p /\
         pr_instance q = pr_instance p /\ pr_transitions p `prefix_of` pr_transitions q
     | None => pr_state p ∈ [P_DECLINED; P_CANCELLED; P_EXPIRED; P_INVALIDATED; P_TERMINAL] /\
         n <= Z.of_nat (length (ps_proposals s))
     end /\
     forall c a display origin instance ttl reference q,
       storable a -> dget (ps_proposals s) ("proposal_" +:+ cr_uuid c) = None -> action_id a = action_id (pr_action p) ->
       (create_proposal c s a display origin instance ttl reference).2 = Ok q ->
       q = p /\ action_intent_hash (with_authorization a AuthorizationContext_default) = Some (pr_intent_hash p) /\
       (create_proposal c s a display origin instance ttl reference).1 = s) /\
  (forall id p', dget (ps_proposals s) id = None -> dget (ps_proposals s') id = Some p' -> pr_state p' = P_CREATED).
Proof.
  intros Hn Hr Hstep. destruct (store_steps_inv _ _ _ Hn Hr) as [Hs Hc].
  destruct (store_step_cases _ _ Hstep Hs) as (_ & Hrem & Hnew). split; [|split; [|exact Hnew]].
  { pose proof (st_len _ Hs). lia. }
  intros id p Hp. destruct (st_ok _ Hs _ _ Hp) as (Hid & [Hh Hm Hcl _ Hx Hlog _] & Hreq).
  assert (Hone : forall id' q, dget (ps_proposals s) id' = Some q ->
    action_id (pr_action q) = action_id (pr_action p) -> id' = id).
  { intros id' q Hq Hqa. destruct (st_ok _ Hs _ _ Hq) as (_ & _ & Hreq'). rewrite Hqa in Hreq'. congruence. }
  split_and!; try done.
  - specialize (Hrem _ _ Hp). destruct (dget (ps_proposals s') id) as [q|].
    + destruct Hrem as [Hev Hl]. unfold request_part in Hev. injection Hev. intros. by split_and!.
    + destruct Hrem as [Ht Hf]. unfold full in Hf. breflect. split; [|lia].
      destruct (pr_state p); try done; set_solver.
  - intros c a display origin instance ttl reference q Ha Hf Hx' Hq.
    destruct (create_proposal _ _ _ _ _ _ _ _) as [s1 r] eqn:E. cbn in Hq. subst r.
    apply proposal_create_cases in E as (_ & _ & [(e & [=] & _)|[(q' & [= <-] & -> & Hin & Hqa & Hqh)|
      (q' & _ & _ & _ & Hnone & _)]]); [|by rewrite Hx', Hreq in Hnone|done|done|done].
    assert (pr_request_id q = id) as Hqi by (eapply Hone; [exact Hin|congruence]).
    rewrite Hqi, Hp in Hin. injection Hin as <-. by split_and!.
Qed.
End Lifetime.

(** ** A store of one proposal *)

Section Full.
#[local] Existing Instance toy_crypto.

(** Another action of the same robot, for the store to take in turn. *)
Definition next_action : ActionEnvelope :=
  {| actor_id := actor_id demo_action; agent_framework := agent_framework demo_action; session_id := session_id demo_action;
     body_id := body_id demo_action; capability_id := capability_id demo_action; arguments := arguments demo_action;
     execution_mode := execution_mode demo_action; schema_version := schema_version demo_action; action_id := "action_2";
     body_snapshot_hash := body_snapshot_hash demo_action; authorization := authorization demo_action;
     risk_class := risk_class demo_action; deadline_at := deadline_at demo_action; lease_ttl_ms := lease_ttl_ms demo_action;
     renew_interval_ms := renew_interval_ms demo_action; orphan_policy := orphan_policy demo_action;
     stop_capability := stop_capability demo_action; parent_trace_id := parent_trace_id demo_action;
     expected_effect := expected_effect demo_action; verification_policy := verification_policy demo_action |}.

Definition fresh_call (n : string) : creation :=
  {| cr_now := demo_now; cr_uuid := n; cr_nonce := "nonce_" +:+ n; cr_default := demo_now; cr_fresh := n |}.
Definition shown_display : dict json := [("title", JStr "Move"); ("summary", JStr "Move the arm"); ("risk_tier", JStr "R2")].
Definition ask (n : string) (a : ActionEnvelope) (s : OperatorProposalStore) : OperatorProposalStore :=
  (create_proposal (fresh_call n) s a shown_display demo_peer "daemon_1" (Fin 60 0) None).1.

Definition small_store : OperatorProposalStore := {| ps_capacity := 1; ps_proposals := []; ps_requests := [] |}.
Definition asked : OperatorProposalStore := Eval vm_compute in ask "1" demo_action small_store.
Definition withdrawn : OperatorProposalStore := Eval vm_compute in (transition demo_now asked "proposal_1" P_CANCELLED change_none).1.

(** While the proposal is pending the store is full; once it is cancelled the next action
    takes its place. *)
Example one_at_a_time :
  (dkeys (ps_proposals (ask "2" next_action asked)), dkeys (ps_proposals (ask "2" next_action withdrawn))) =
  (["proposal_1"], ["proposal_2"]).
Proof. vm_compute. reflexivity. Qed.

Lemma demo_storables : storable demo_action /\ storable next_action.
Proof.
  split; (constructor; [constructor; try (vm_compute; intuition congruence); by eexists|by vm_compute|]);
    intros d [= <-]; vm_compute; intuition congruence.
Qed.

Lemma proposal_store_sound_witness :
  dget (ps_proposals (ask "2" next_action withdrawn)) "proposal_1" = None /\
  exists p, dget (ps_proposals withdrawn) "proposal_1" = Some p /\
    pr_state p ∈ [P_DECLINED; P_CANCELLED; P_EXPIRED; P_INVALIDATED; P_TERMINAL] /\
    action_intent_hash (pr_action p) = Some (pr_intent_hash p) /\ authorization (pr_action p) = AuthorizationContext_default.
Proof.
  assert (Hr : rtc store_step small_store withdrawn).
  { apply (rtc_l _ _ asked).
    - change asked with (ask "1" demo_action small_store). apply ss_create; [apply demo_storables|reflexivity].
    - apply rtc_once. change withdrawn with (transition demo_now asked "proposal_1" P_CANCELLED change_none).1. apply ss_transition. }
  assert (Hs : store_step withdrawn (ask "2" next_action withdrawn))
    by (apply ss_create; [apply demo_storables|reflexivity]).
  destruct (proposal_store_sound 1 small_store withdrawn (ask "2" next_action withdrawn) eq_refl Hr Hs) as (_ & H & _).
  destruct (dget (ps_proposals withdrawn) "proposal_1") as [p|] eqn:Hp; [|vm_compute in Hp; discriminate Hp].
  destruct (H "proposal_1" p Hp) as (_ & _ & Hcl & Hh & _ & _ & _ & Hg & _).
  assert (Hn : dget (ps_proposals (ask "2" next_action withdrawn)) "proposal_1" = None) by (vm_compute; reflexivity).
  rewrite Hn in Hg. split; [exact Hn|]. exists p. split; [reflexivity|]. split; [apply Hg|]. split; [exact Hh|exact Hcl].
Defined.
End Full.
