(* ===== verification/Decisions.v ===== *)
(** The operator decision protocol: src/src/rosclaw/contracts/operator/decision.py,
    the signing identity of daemon/identity.py, and the persistent enrollment
    registry of daemon/operator_registry.py.

    Ed25519 and PEM parsing are the third-party package behind [Signatures];
    what is proved about signatures rests on its named law. Bytes are texts of
    code points below 256. [str()] of a list or an object is not modelled: a
    proof that has one where a text belongs is [Unmodelled]. *)

From S2P Require Export Proposals.

(** ** Base 64 (RFC 4648), as [base64.b64encode] and
    [base64.b64decode(validate=True)]: [None] where it raises [ValueError]. *)

Definition byte (z : Z) : ascii := ascii_of_N (Z.to_N z).

Definition b64_char (z : Z) : ascii :=
  byte (if z <? 26 then z + 65 else if z <? 52 then z + 71 else if z <? 62 then z - 4
        else if z =? 62 then 43 else 47).

Definition b64_value (c : ascii) : option Z :=
  let o := ord c in
  if (65 <=? o) && (o <=? 90) then Some (o - 65)
  else if (97 <=? o) && (o <=? 122) then Some (o - 71)
  else if (48 <=? o) && (o <=? 57) then Some (o + 4)
  else if o =? 43 then Some 62
  else if o =? 47 then Some 63
  else None.

Definition pad : ascii := "="%char.

Fixpoint b64_encode (s : string) : string :=
  match s with
  | EmptyString => EmptyString
  | String a EmptyString =>
      String (b64_char (ord a / 4)) (String (b64_char (ord a mod 4 * 16))
        (String pad (String pad EmptyString)))
  | String a (String b EmptyString) =>
      String (b64_char (ord a / 4)) (String (b64_char (ord a mod 4 * 16 + ord b / 16))
        (String (b64_char (ord b mod 16 * 4)) (String pad EmptyString)))
  | String a (String b (String c r)) =>
      String (b64_char (ord a / 4)) (String (b64_char (ord a mod 4 * 16 + ord b / 16))
        (String (b64_char (ord b mod 16 * 4 + ord c / 64))
          (String (b64_char (ord c mod 64)) (b64_encode r))))
  end.

Fixpoint b64_decode (s : string) : option string :=
  match s with
  | EmptyString => Some EmptyString
  | String a (String b (String c (String d r))) =>
      x ← b64_value a; y ← b64_value b;
      match b64_value c with
      | Some z =>
          match b64_value d with
          | Some t =>
              r ← b64_decode r;
              Some (String (byte (x * 4 + y / 16)) (String (byte (y mod 16 * 16 + z / 4))
                      (String (byte (z mod 4 * 64 + t)) r)))
          | None =>
              if bool_decide (d = pad) && negb (truthy_str r)
              then Some (String (byte (x * 4 + y / 16))
                           (String (byte (y mod 16 * 16 + z / 4)) EmptyString))
              else None
          end
      | None =>
          if bool_decide (c = pad) && bool_decide (d = pad) && negb (truthy_str r)
          then Some (String (byte (x * 4 + y / 16)) EmptyString) else None
      end
  | _ => None
  end.

Example b64_ex : map b64_encode ["M"; "Ma"; "Man"] = ["TQ=="; "TWE="; "TWFu"].
Proof. reflexivity. Qed.

Lemma byte_ord c : byte (ord c) = c.
Proof. unfold byte, ord. by rewrite N2Z.id, ascii_N_embedding. Qed.

Lemma ord_bounds c : 0 <= ord c < 256.
Proof. unfold ord. pose proof (N_ascii_bounded c). lia. Qed.

Lemma b64_value_char z : 0 <= z < 64 -> b64_value (b64_char z) = Some z.
Proof.
  intros Hz.
  assert (Ha : forallb (fun z => bool_decide (b64_value (b64_char z) = Some z)) (seqZ 0 64) = true)
    by (vm_compute; reflexivity).
  rewrite forallb_forall in Ha. specialize (Ha z). rewrite bool_decide_eq_true in Ha. apply Ha.
  apply list_elem_of_In, elem_of_seqZ. lia.
Qed.

Lemma pad_value : b64_value pad = None.
Proof. reflexivity. Qed.

Lemma byte_eq z c : z = ord c -> byte z = c.
Proof. intros ->. apply byte_ord. Qed.

(** Whatever is encoded decodes to itself. *)
Lemma b64_decode_encode s : b64_decode (b64_encode s) = Some s.
Proof.
  enough (Hn : forall n s, (String.length s <= n)%nat -> b64_decode (b64_encode s) = Some s)
    by (eapply Hn; reflexivity).
  clear s. induction n as [|n IH]; intros [|a [|b [|c r]]] Hl; cbn [String.length] in Hl;
    try lia; try done; cbn [b64_encode b64_decode];
    pose proof (ord_bounds a); try pose proof (ord_bounds b); try pose proof (ord_bounds c);
    rewrite ?b64_value_char by (Z.to_euclidean_division_equations; lia); cbn [mbind option_bind];
    rewrite ?pad_value; cbn [mbind option_bind andb truthy_str String.eqb negb].
  - rewrite bool_decide_true by done. cbn [andb]. do 2 f_equal.
    apply byte_eq. Z.to_euclidean_division_equations; lia.
  - rewrite bool_decide_true by done. cbn [andb]. do 2 f_equal; [|f_equal];
      apply byte_eq; Z.to_euclidean_division_equations; lia.
  - rewrite IH by lia. cbn [mbind option_bind]. do 2 f_equal; [|f_equal; [|f_equal]];
      try (apply byte_eq; Z.to_euclidean_division_equations; lia).
Qed.

(** ** Ed25519 *)

(** The [cryptography] package: public keys as PEM text, signatures as bytes. *)
Class Signatures := {
  private_key : Type;
  valid_pem : string -> bool;                       (* [public_key_from_pem] returns *)
  public_pem : private_key -> string;
  ed_sign : private_key -> string -> string;
  ed_verify : string -> string -> string -> bool;   (* PEM, signature, payload *)
}.

(** What the package promises: a key verifies what its private key signed. *)
Definition sign_law `{Signatures} : Prop :=
  forall k m, ed_verify (public_pem k) (ed_sign k m) m = true.

(** [canonical_json]: texts are the only scalars the protocol signs, and for
    them [json.dumps] with and without [allow_nan] agree. *)
Definition canonical_text (d : dict json) : result pyexc string :=
  of_option (dumps (JObj d)) ValueError.

Section Protocol.
Context `{Crypto} `{Signatures}.

(** [key_fingerprint], [sign_b64] and [verify_b64]. *)
Definition key_fingerprint (pem : string) : string := prefix_of 16 (sha256_hex pem).
Definition sign_b64 (k : private_key) (payload : string) : string := b64_encode (ed_sign k payload).
Definition verify_b64 (pem payload signature : string) : bool :=
  match b64_decode signature with
  | None => false
  | Some sig => valid_pem pem && ed_verify pem sig payload
  end.

(** [DaemonIdentity] *)
Record DaemonIdentity := { di_key : private_key; di_pem : string }.
Definition key_id_of (i : DaemonIdentity) : string := key_fingerprint (di_pem i).

(** ** The display hash *)

Record display_fields := {
  df_request_id : string; df_title : string; df_summary : string; df_risk_tier : string;
  df_parameters : dict json; df_body_hash : string; df_expires_at : string;
}.

(** The fields a V3 card binds in addition. *)
Record exact_fields := {
  ef_capability_id : string; ef_mission_id : string; ef_mode : string;
  ef_context_revision : option Z; ef_context_hash : string; ef_expected_effect : string;
  ef_action_intent_hash : string;
}.

Definition exact_none : exact_fields :=
  {| ef_capability_id := ""; ef_mission_id := ""; ef_mode := ""; ef_context_revision := None;
     ef_context_hash := ""; ef_expected_effect := ""; ef_action_intent_hash := "" |}.

Definition if_text (k s : string) : dict json := if truthy_str s then [(k, JStr s)] else [].

Definition exact_dict (e : exact_fields) : dict json :=
  (if_text "capability_id" (ef_capability_id e) ++ if_text "mission_id" (ef_mission_id e)
   ++ if_text "mode" (ef_mode e)
   ++ match ef_context_revision e with Some z => [("context_revision", JInt z)] | None => [] end
   ++ if_text "context_hash" (ef_context_hash e)
   ++ if_text "expected_effect" (ef_expected_effect e)
   ++ if_text "action_intent_hash" (ef_action_intent_hash e))%list.

Definition compute_display_hash (f : display_fields) (e : exact_fields) : result pyexc string :=
  let* text := canonical_text
    ([("request_id", JStr (df_request_id f)); ("title", JStr (df_title f));
      ("summary", JStr (df_summary f)); ("risk_tier", JStr (df_risk_tier f));
      ("parameters", JObj (df_parameters f)); ("body_hash", JStr (df_body_hash f));
      ("expires_at", JStr (df_expires_at f))]
     ++ match exact_dict e with [] => [] | x => [("exact", JObj x)] end)%list in
  Ok (prefix_of 16 (sha256_hex text)).

(** ** DecisionChallengeV1 *)

Definition PROTOCOL_VERSION_CHALLENGE : string := "decision-challenge/1".
Definition PROTOCOL_VERSION_RECEIPT : string := "decision-receipt/1".
Definition PROTOCOL_VERSION_PROOF : string := "operator-decision-proof/1".

Record DecisionChallenge := {
  dc_proposal_id : string; dc_nonce : string; dc_display_hash : string; dc_mode : string;
  dc_capability_id : string; dc_args_hash : string; dc_issued_at : string;
  dc_expires_at : string; dc_instance : string; dc_agent_request_id : string;
  dc_mission_id : string; dc_version : string;
}.

Definition challenge_fields (c : DecisionChallenge) : dict string :=
  [("protocol_version", dc_version c); ("proposal_id", dc_proposal_id c);
   ("agent_request_id", dc_agent_request_id c); ("mission_id", dc_mission_id c);
   ("execution_mode", dc_mode c); ("capability_id", dc_capability_id c);
   ("canonical_args_hash", dc_args_hash c); ("display_hash", dc_display_hash c);
   ("challenge_nonce", dc_nonce c); ("issued_at", dc_issued_at c);
   ("expires_at", dc_expires_at c); ("daemon_instance_id", dc_instance c)].

Definition texts (d : dict string) : dict json := map (fun kv => (kv.1, JStr kv.2)) d.

Definition challenge_payload (c : DecisionChallenge) : dict json := texts (challenge_fields c).

(** [str(data[k])] and [str(data.get(k, ""))]. *)
Definition text_at (d : dict json) (k : string) : result pyexc string :=
  let* j := of_option (dget d k) KeyError in py_str j.
Definition text_or_empty (d : dict json) (k : string) : result pyexc string :=
  py_str (get_default d k (JStr "")).

Definition DecisionChallenge_from_dict (d : dict json) : result pyexc DecisionChallenge :=
  let* version := text_or_empty d "protocol_version" in
  guard! String.eqb version PROTOCOL_VERSION_CHALLENGE else ValueError in
  let* proposal_id := text_at d "proposal_id" in
  let* nonce := text_at d "challenge_nonce" in
  let* display_hash := text_at d "display_hash" in
  let* mode := text_at d "execution_mode" in
  let* capability := text_at d "capability_id" in
  let* args_hash := text_at d "canonical_args_hash" in
  let* issued := text_at d "issued_at" in
  let* expires := text_at d "expires_at" in
  let* instance := text_at d "daemon_instance_id" in
  let* agent_request := text_or_empty d "agent_request_id" in
  let* mission := text_or_empty d "mission_id" in
  Ok {| dc_proposal_id := proposal_id; dc_nonce := nonce; dc_display_hash := display_hash;
        dc_mode := mode; dc_capability_id := capability; dc_args_hash := args_hash;
        dc_issued_at := issued; dc_expires_at := expires; dc_instance := instance;
        dc_agent_request_id := agent_request; dc_mission_id := mission;
        dc_version := PROTOCOL_VERSION_CHALLENGE |}.

(** ** OperatorDecisionProofV1 *)

Record DecisionProof := {
  dp_enrollment_id : string; dp_challenge : DecisionChallenge; dp_decision : string;
  dp_decided_at : string; dp_method : string; dp_signature : string; dp_version : string;
}.

Definition proof_payload (p : DecisionProof) : dict json :=
  [("protocol_version", JStr (dp_version p)); ("enrollment_id", JStr (dp_enrollment_id p));
   ("challenge", JObj (challenge_payload (dp_challenge p)));
   ("decision", JStr (dp_decision p)); ("decided_at", JStr (dp_decided_at p));
   ("human_confirmation_method", JStr (dp_method p))].

Definition DecisionProof_to_dict (p : DecisionProof) : dict json :=
  (proof_payload p ++ [("signature_b64", JStr (dp_signature p))])%list.

Definition DecisionProof_from_dict (d : dict json) : result pyexc DecisionProof :=
  let* version := text_or_empty d "protocol_version" in
  guard! String.eqb version PROTOCOL_VERSION_PROOF else ValueError in
  let* enrollment := text_at d "enrollment_id" in
  let* raw := of_option (dget d "challenge") KeyError in
  let* raw := py_dict raw in
  let* challenge := DecisionChallenge_from_dict raw in
  let* decision := text_at d "decision" in
  let* decided := text_at d "decided_at" in
  let* method := text_or_empty d "human_confirmation_method" in
  let* signature := text_at d "signature_b64" in
  Ok {| dp_enrollment_id := enrollment; dp_challenge := challenge; dp_decision := upper decision;
        dp_decided_at := decided; dp_method := method; dp_signature := signature;
        dp_version := PROTOCOL_VERSION_PROOF |}.

(** ** DecisionReceiptV1 *)

Record DecisionReceipt := {
  dr_proposal_id : string; dr_decision : string; dr_enrollment_id : string;
  dr_principal : string; dr_method : string; dr_nonce : string; dr_decided_at : string;
  dr_expires_at : string; dr_instance : string; dr_key_id : string;
  dr_agent_request_id : string; dr_mission_id : string; dr_mode : string;
  dr_capability_id : string; dr_args_hash : string; dr_display_hash : string;
  dr_signature : string; dr_version : string;
}.

Definition receipt_payload (r : DecisionReceipt) : dict json :=
  texts [("protocol_version", dr_version r); ("proposal_id", dr_proposal_id r);
   ("agent_request_id", dr_agent_request_id r); ("mission_id", dr_mission_id r);
   ("execution_mode", dr_mode r); ("capability_id", dr_capability_id r);
   ("canonical_args_hash", dr_args_hash r); ("display_hash", dr_display_hash r);
   ("decision", dr_decision r); ("operator_enrollment_id", dr_enrollment_id r);
   ("operator_principal", dr_principal r); ("human_confirmation_method", dr_method r);
   ("challenge_nonce", dr_nonce r); ("decided_at", dr_decided_at r);
   ("expires_at", dr_expires_at r); ("daemon_instance_id", dr_instance r);
   ("daemon_key_id", dr_key_id r)].

Definition with_signature (r : DecisionReceipt) (s : string) : DecisionReceipt :=
  {| dr_proposal_id := dr_proposal_id r; dr_decision := dr_decision r;
     dr_enrollment_id := dr_enrollment_id r; dr_principal := dr_principal r;
     dr_method := dr_method r; dr_nonce := dr_nonce r; dr_decided_at := dr_decided_at r;
     dr_expires_at := dr_expires_at r; dr_instance := dr_instance r; dr_key_id := dr_key_id r;
     dr_agent_request_id := dr_agent_request_id r; dr_mission_id := dr_mission_id r;
     dr_mode := dr_mode r; dr_capability_id := dr_capability_id r;
     dr_args_hash := dr_args_hash r; dr_display_hash := dr_display_hash r;
     dr_signature := s; dr_version := dr_version r |}.

Definition sign_receipt (k : private_key) (r : DecisionReceipt) : result pyexc DecisionReceipt :=
  let* text := canonical_text (receipt_payload r) in Ok (with_signature r (sign_b64 k text)).

Definition verify_signature (pem : string) (r : DecisionReceipt) : result pyexc bool :=
  if truthy_str (dr_signature r)
  then let* text := canonical_text (receipt_payload r) in
       Ok (verify_b64 pem text (dr_signature r))
  else Ok false.

Definition DecisionReceipt_to_dict (r : DecisionReceipt) : dict json :=
  (receipt_payload r ++ [("signature_b64", JStr (dr_signature r))])%list.

Definition receipt_id (r : DecisionReceipt) : result pyexc string :=
  let* text := canonical_text
    (texts [("proposal_id", dr_proposal_id r); ("challenge_nonce", dr_nonce r)]) in
  Ok (prefix_of 24 (sha256_hex text)).

Definition DecisionReceipt_from_dict (d : dict json) : result pyexc DecisionReceipt :=
  let* version := text_or_empty d "protocol_version" in
  guard! String.eqb version PROTOCOL_VERSION_RECEIPT else ValueError in
  let* proposal_id := text_at d "proposal_id" in
  let* decision := text_at d "decision" in
  let* enrollment := text_at d "operator_enrollment_id" in
  let* principal := text_at d "operator_principal" in
  let* method := text_or_empty d "human_confirmation_method" in
  let* nonce := text_at d "challenge_nonce" in
  let* decided := text_at d "decided_at" in
  let* expires := text_at d "expires_at" in
  let* instance := text_at d "daemon_instance_id" in
  let* key := text_at d "daemon_key_id" in
  let* agent_request := text_or_empty d "agent_request_id" in
  let* mission := text_or_empty d "mission_id" in
  let* mode := text_or_empty d "execution_mode" in
  let* capability := text_or_empty d "capability_id" in
  let* args_hash := text_or_empty d "canonical_args_hash" in
  let* display_hash := text_or_empty d "display_hash" in
  let* signature := text_or_empty d "signature_b64" in
  Ok {| dr_proposal_id := proposal_id; dr_decision := upper decision;
        dr_enrollment_id := enrollment; dr_principal := principal; dr_method := method;
        dr_nonce := nonce; dr_decided_at := decided; dr_expires_at := expires;
        dr_instance := instance; dr_key_id := key; dr_agent_request_id := agent_request;
        dr_mission_id := mission; dr_mode := mode; dr_capability_id := capability;
        dr_args_hash := args_hash; dr_display_hash := display_hash; dr_signature := signature;
        dr_version := PROTOCOL_VERSION_RECEIPT |}.
End Protocol.

(** ** What the protocol's texts bind *)

Section Binding.
Context `{Crypto} `{Signatures}.

Lemma texts_same (d d' : dict string) : dkeys d = dkeys d' -> Forall2 same_field (texts d) (texts d').
Proof.
  revert d'. induction d as [|[k v] d IH]; intros [|[k' v'] d'] Hk; try done.
  unfold dkeys in *. rewrite !fmap_cons in Hk. injection Hk as -> Hk.
  constructor; [|by apply IH]. split; [done|]. apply separate_str.
Qed.

Lemma texts_keys (d : dict string) : dkeys (texts d) = dkeys d.
Proof. unfold dkeys, texts. by rewrite <- list_fmap_compose. Qed.

Lemma texts_dumps (d : dict string) : is_Some (dumps (JObj (texts d))).
Proof.
  rewrite dumps_JObj. assert (Hp : is_Some (mapM dump_entry (texts d))).
  { apply mapM_is_Some_2, Forall_forall. intros [k x]. unfold texts.
    intros ([k' v] & [= -> ->] & _)%list_elem_of_fmap. by eexists. }
  destruct Hp as [ps ->]. by eexists.
Qed.

Lemma quote_eq s s' : quote s = quote s' -> s = s'.
Proof.
  intros Hq. assert (Hq' : quote s +:+ "" = quote s' +:+ "") by (by rewrite Hq).
  by apply quote_inj in Hq' as [-> _].
Qed.

Lemma dumps_str_inj s s' : dumps (JStr s) = dumps (JStr s') -> s = s'.
Proof. intros Hd. by apply Some_inj, quote_eq in Hd. Qed.

Lemma texts_inj (d d' : dict string) t : dwf d -> dkeys d = dkeys d' ->
  dumps (JObj (texts d)) = Some t -> dumps (JObj (texts d')) = Some t -> d = d'.
Proof.
  intros Hw Hk Ht Ht'.
  assert (Hf : Forall2 (fun kv kv' : string * json => kv.1 = kv'.1 /\ dumps kv.2 = dumps kv'.2)
                 (texts d) (texts d')).
  { eapply dumps_obj_inj; [by unfold dwf; rewrite texts_keys|by apply texts_same|done|done]. }
  clear -Hf. revert d' Hf. induction d as [|[k v] d IH]; intros [|[k' v'] d'] Hf; inversion Hf; subst.
  - done.
  - f_equal; [|by apply IH]. simpl in *. destruct H2 as [-> Hd].
    by apply dumps_str_inj in Hd as ->.
Qed.

Lemma challenge_inj c c' : challenge_fields c = challenge_fields c' -> c = c'.
Proof. destruct c, c'. unfold challenge_fields. simpl. by intros [=]; subst. Qed.

(** A signed proof commits to the enrollment, the whole challenge, the decision
    and its time. *)
Lemma proof_text_inj p p' t :
  canonical_text (proof_payload p) = Ok t -> canonical_text (proof_payload p') = Ok t ->
  dp_enrollment_id p = dp_enrollment_id p' /\ dp_challenge p = dp_challenge p' /\
  dp_decision p = dp_decision p' /\ dp_decided_at p = dp_decided_at p' /\
  dp_method p = dp_method p'.
Proof.
  unfold canonical_text. rewrite !of_option_ok. intros Ht Ht'.
  assert (Hc : Forall2 same_field (challenge_payload (dp_challenge p))
                 (challenge_payload (dp_challenge p'))) by (by apply texts_same).
  assert (Hf : Forall2 (fun kv kv' : string * json => kv.1 = kv'.1 /\ dumps kv.2 = dumps kv'.2)
                 (proof_payload p) (proof_payload p')).
  { eapply dumps_obj_inj; [|  |exact Ht|exact Ht'].
    - apply (bool_decide_unpack _). vm_compute. exact I.
    - unfold proof_payload.
      repeat (constructor; [split; [done|first [apply separate_str|by apply separate_obj]]|]);
        constructor. }
  unfold proof_payload in Hf.
  repeat match goal with
  | HH : Forall2 _ (_ :: _) (_ :: _) |- _ => apply Forall2_cons in HH as [[_ ?] HH]
  end. simpl fst in *. simpl snd in *.
  destruct (texts_dumps (challenge_fields (dp_challenge p))) as [u Hu].
  assert (dp_challenge p = dp_challenge p') as ->.
  { apply challenge_inj. eapply texts_inj; [|done|exact Hu|].
    - apply (bool_decide_unpack _). vm_compute. exact I.
    - unfold challenge_payload in *. congruence. }
  repeat match goal with
  | HH : dumps (JStr _) = dumps (JStr _) |- _ => apply dumps_str_inj in HH
  end. auto.
Qed.

Definition unsigned (r : DecisionReceipt) : DecisionReceipt := with_signature r "".

Lemma receipt_text_inj r r' t :
  canonical_text (receipt_payload r) = Ok t -> canonical_text (receipt_payload r') = Ok t ->
  unsigned r = unsigned r'.
Proof.
  unfold canonical_text, receipt_payload. rewrite !of_option_ok. intros Ht Ht'.
  eapply texts_inj in Ht; [|  |  |exact Ht'].
  - destruct r, r'. unfold unsigned, with_signature. simpl in *. injection Ht. by intros; subst.
  - apply (bool_decide_unpack _). vm_compute. exact I.
  - done.
Qed.

Lemma receipt_dict_round_trip r :
  dr_version r = PROTOCOL_VERSION_RECEIPT -> upper (dr_decision r) = dr_decision r ->
  DecisionReceipt_from_dict (DecisionReceipt_to_dict r) = Ok r.
Proof.
  destruct r. simpl. intros -> Hu. unfold DecisionReceipt_from_dict, DecisionReceipt_to_dict,
    receipt_payload, text_at, text_or_empty, get_default, texts.
  cbn [map app fst snd dr_proposal_id dr_decision dr_enrollment_id dr_principal dr_method dr_nonce
    dr_decided_at dr_expires_at dr_instance dr_key_id dr_agent_request_id dr_mission_id dr_mode
    dr_capability_id dr_args_hash dr_display_hash dr_signature dr_version].
  dget_eval. cbn [of_option rbind py_str]. rewrite String.eqb_refl. cbn [require rbind].
  by rewrite Hu.
Qed.

Lemma challenge_round_trip c :
  dc_version c = PROTOCOL_VERSION_CHALLENGE ->
  DecisionChallenge_from_dict (challenge_payload c) = Ok c.
Proof.
  destruct c. simpl. intros ->. unfold DecisionChallenge_from_dict, challenge_payload,
    challenge_fields, text_at, text_or_empty, get_default, texts.
  cbn [map fst snd dc_proposal_id dc_nonce dc_display_hash dc_mode dc_capability_id dc_args_hash
    dc_issued_at dc_expires_at dc_instance dc_agent_request_id dc_mission_id dc_version].
  dget_eval. cbn [of_option rbind py_str]. rewrite String.eqb_refl. by cbn [require rbind].
Qed.

Lemma proof_dict_round_trip p :
  dp_version p = PROTOCOL_VERSION_PROOF -> upper (dp_decision p) = dp_decision p ->
  dc_version (dp_challenge p) = PROTOCOL_VERSION_CHALLENGE ->
  DecisionProof_from_dict (DecisionProof_to_dict p) = Ok p.
Proof.
  destruct p. simpl. intros -> Hu Hc. unfold DecisionProof_from_dict, DecisionProof_to_dict,
    proof_payload, text_at, text_or_empty, get_default.
  cbn [app dp_enrollment_id dp_challenge dp_decision dp_decided_at dp_method dp_signature dp_version].
  dget_eval. cbn [of_option rbind py_str py_dict]. rewrite String.eqb_refl. cbn [require rbind].
  rewrite challenge_round_trip by done. cbn [rbind]. by rewrite Hu.
Qed.

Lemma verify_own k m : sign_law -> valid_pem (public_pem k) = true ->
  verify_b64 (public_pem k) m (sign_b64 k m) = true.
Proof.
  intros Hl Hv. unfold verify_b64, sign_b64. by rewrite b64_decode_encode, Hv, Hl.
Qed.
End Binding.

(** ** The enrollment registry: daemon/operator_registry.py

    The registry file is the mode of the file and its JSON value ([None] for
    text that is not JSON). A [save_outcome] is how one [_save] ends; every
    operation has changed the memory before it saves. *)

(** [RegistryError] by its code, or another exception. *)
Inductive reg_exn := RegistryError (code : string) | RegistryRaised.

(** A dataclass checks no types: all but the two fields the loader looks at are
    whatever the file holds. *)
Record EnrollmentRecord := {
  er_id : string;
  er_pem : string;
  er_uid : json;
  er_purpose : json;
  er_created_at : json;
  er_status : json;
  er_version : json;
  er_revoked_at : json;
}.

Definition EnrollmentRecord_fields (r : EnrollmentRecord) : dict json :=
  [("enrollment_id", JStr (er_id r)); ("public_key_pem", JStr (er_pem r));
   ("operator_uid", er_uid r); ("purpose", er_purpose r); ("created_at", er_created_at r);
   ("status", er_status r); ("version", er_version r); ("revoked_at", er_revoked_at r)].

Definition EnrollmentRecord_public_dict `{Crypto} (r : EnrollmentRecord) : dict json :=
  (dpop (EnrollmentRecord_fields r) "public_key_pem"
   ++ [("fingerprint", JStr (key_fingerprint (er_pem r)))])%list.

Definition is_active (r : EnrollmentRecord) : bool := py_eqb (er_status r) (JStr "active").
Definition is_revoked (r : EnrollmentRecord) : bool := py_eqb (er_status r) (JStr "revoked").

Inductive save_outcome := Saved | SymlinkRefused | SaveRaised (replaced : bool).

Record OperatorRegistry := {
  rg_durable : bool;                          (* [path is not None] *)
  rg_records : dict EnrollmentRecord;
  rg_burned : list string;                    (* a set, in order *)
  rg_file : option (Z * option json);
}.

Definition registry_json (g : OperatorRegistry) : json :=
  JObj [("enrollments",
         JList (map (fun r => JObj (EnrollmentRecord_fields r)) (dvals (rg_records g))));
        ("burned_nonces", JList (map JStr (rg_burned g)))].

Definition set_file (g : OperatorRegistry) (f : option (Z * option json)) : OperatorRegistry :=
  {| rg_durable := rg_durable g; rg_records := rg_records g; rg_burned := rg_burned g;
     rg_file := f |}.

Section Registry.
Context `{Signatures}.

(** [EnrollmentRecord( **raw )] and the check of its key. Values that no save
    writes where a set or a dictionary key is needed are not modelled. *)
Definition hashable (j : json) : bool :=
  match j with JList _ | JObj _ => false | _ => true end.

Definition record_of (raw : json) : result reg_exn EnrollmentRecord :=
  let* d := of_option (as_obj raw) (RegistryError "REGISTRY_CORRUPT") in
  let field k := of_option (dget d k) (RegistryError "REGISTRY_CORRUPT") in
  guard! subset_of (dkeys d) ["enrollment_id"; "public_key_pem"; "operator_uid"; "purpose";
                              "created_at"; "status"; "version"; "revoked_at"]
    else RegistryError "REGISTRY_CORRUPT" in
  let* id := field "enrollment_id" in
  let* pem := field "public_key_pem" in
  let* op_uid := field "operator_uid" in
  let* purpose := field "purpose" in
  let* created := field "created_at" in
  let* pem := of_option (as_str pem) RegistryRaised in
  guard! valid_pem pem else RegistryError "REGISTRY_CORRUPT" in
  let* id := of_option (as_str id) RegistryRaised in
  guard! hashable op_uid else RegistryRaised in
  Ok {| er_id := id; er_pem := pem; er_uid := op_uid; er_purpose := purpose;
        er_created_at := created; er_status := get_default d "status" (JStr "active");
        er_version := get_default d "version" (JInt 1);
        er_revoked_at := get_default d "revoked_at" (JStr "") |}.

Definition corrupt (e : pyexc) : reg_exn :=
  match e with TypeError | KeyError | ValueError => RegistryError "REGISTRY_CORRUPT"
             | _ => RegistryRaised end.

Definition nonce_of (j : json) : result reg_exn string :=
  match j with
  | JStr s => Ok s
  | JList _ | JObj _ => Err (RegistryError "REGISTRY_CORRUPT")
  | _ => Err RegistryRaised
  end.

(** [_load] *)
Definition registry_load (mode : Z) (content : option json)
  : result reg_exn (dict EnrollmentRecord * list string) :=
  guard! Z.land mode 63 =? 0 else RegistryError "REGISTRY_PERMISSIONS" in
  let* data := of_option content (RegistryError "REGISTRY_CORRUPT") in
  let* d := of_option (as_obj data) RegistryRaised in
  let* raws := map_err corrupt (py_iter (get_default d "enrollments" (JList []))) in
  let* rs := mapr record_of raws in
  let* ns := map_err corrupt (py_iter (get_default d "burned_nonces" (JList []))) in
  let* ns := mapr nonce_of ns in
  Ok (foldl (fun m r => dset m (er_id r) r) [] rs, sorted_set ns).

(** [OperatorRegistry(path)] *)
Definition registry_open (durable : bool) (file : option (Z * option json))
  : result reg_exn OperatorRegistry :=
  match durable, file with
  | true, Some (mode, content) =>
      let* t := registry_load mode content in
      Ok {| rg_durable := true; rg_records := t.1; rg_burned := t.2; rg_file := file |}
  | _, _ => Ok {| rg_durable := durable; rg_records := []; rg_burned := []; rg_file := file |}
  end.

Abbreviation R := (st OperatorRegistry reg_exn).

(** [_save]; the file is created with mode 0600. *)
Definition registry_save (o : save_outcome) : R unit := fun g =>
  if negb (rg_durable g) then (g, Ok tt)
  else
    let written := set_file g (Some (384, Some (registry_json g))) in
    match o with
    | Saved => (written, Ok tt)
    | SymlinkRefused => (g, Err (RegistryError "REGISTRY_SYMLINK"))
    | SaveRaised replaced => (if replaced then written else g, Err RegistryRaised)
    end.

Definition put_record (r : EnrollmentRecord) (g : OperatorRegistry) : OperatorRegistry :=
  {| rg_durable := rg_durable g; rg_records := dset (rg_records g) (er_id r) r;
     rg_burned := rg_burned g; rg_file := rg_file g |}.

(** [register]; [at_] is [datetime.now(UTC).isoformat()]. *)
Definition registry_register (o : save_outcome) (at_ id pem : string) (operator_uid : Z)
    (purpose : string) : R EnrollmentRecord :=
  run! st_guard (valid_pem pem) RegistryRaised;
  do! existing <- st_get (fun g => dget (rg_records g) id);
  match existing with
  | Some r =>
      run! st_guard (String.eqb (er_pem r) pem) (RegistryError "ENROLLMENT_KEY_CONFLICT");
      run! st_guard (negb (is_revoked r)) (RegistryError "ENROLLMENT_REVOKED");
      st_ret r
  | None =>
      let r := {| er_id := id; er_pem := pem; er_uid := JInt operator_uid;
                  er_purpose := JStr purpose; er_created_at := JStr at_;
                  er_status := JStr "active"; er_version := JInt 1; er_revoked_at := JStr "" |} in
      run! st_set (put_record r);
      run! registry_save o;
      st_ret r
  end.

Definition revoked_record (at_ : string) (r : EnrollmentRecord) : EnrollmentRecord :=
  {| er_id := er_id r; er_pem := er_pem r; er_uid := er_uid r; er_purpose := er_purpose r;
     er_created_at := er_created_at r; er_status := JStr "revoked"; er_version := er_version r;
     er_revoked_at := JStr at_ |}.

(** [revoke] *)
Definition registry_revoke (o : save_outcome) (at_ id : string) : R EnrollmentRecord :=
  do! existing <- st_get (fun g => dget (rg_records g) id);
  match existing with
  | None => st_raise (RegistryError "ENROLLMENT_UNKNOWN")
  | Some r =>
      run! st_set (fun g => {| rg_durable := rg_durable g;
                               rg_records := dset (rg_records g) id (revoked_record at_ r);
                               rg_burned := rg_burned g; rg_file := rg_file g |});
      run! registry_save o;
      st_ret (revoked_record at_ r)
  end.

(** [active], [list] and [active_operator_uids] *)
Definition registry_active (g : OperatorRegistry) (id : string) : option EnrollmentRecord :=
  r ← dget (rg_records g) id; if is_active r then Some r else None.

Definition registry_list (g : OperatorRegistry) : list EnrollmentRecord := dvals (rg_records g).

Definition active_operator_uids (g : OperatorRegistry) : list json :=
  map er_uid (base.filter (fun r => is_active r = true) (registry_list g)).

Definition uid_in (u : Z) (l : list json) : bool := existsb (fun j => py_eqb (JInt u) j) l.

(** [burn_nonce] *)
Definition registry_burn (o : save_outcome) (nonce : string) : R unit :=
  do! seen <- st_get (fun g => bool_decide (nonce ∈ rg_burned g));
  run! st_guard (negb seen) (RegistryError "NONCE_REPLAY");
  run! st_set (fun g => {| rg_durable := rg_durable g; rg_records := rg_records g;
                           rg_burned := sset_add nonce (rg_burned g); rg_file := rg_file g |});
  registry_save o.
End Registry.

(** ** What the registry remembers *)

Section Durable.
Context `{Signatures}.
Implicit Types (g : OperatorRegistry) (r : EnrollmentRecord).

Definition record_ok (id : string) r : Prop :=
  er_id r = id /\ valid_pem (er_pem r) = true /\ hashable (er_uid r) = true.

Definition content_ok (rs : dict EnrollmentRecord) (ns : list string) : Prop :=
  dwf rs /\ (forall id r, dget rs id = Some r -> record_ok id r) /\ StronglySorted str_lt ns.

(** The file, when there is one, loads, and what it loads satisfies [P]. *)
Definition file_holds (P : dict EnrollmentRecord -> list string -> Prop)
    (f : option (Z * option json)) : Prop :=
  forall mode c, f = Some (mode, c) -> exists rs ns, registry_load mode c = Ok (rs, ns) /\ P rs ns.

Record reg_inv g : Prop := {
  ri_memory : content_ok (rg_records g) (rg_burned g);
  ri_file : file_holds content_ok (rg_file g);
}.

Inductive reg_step : OperatorRegistry -> OperatorRegistry -> Prop :=
| rs_register g o at_ id pem u purpose : reg_step g (registry_register o at_ id pem u purpose g).1
| rs_revoke g o at_ id : reg_step g (registry_revoke o at_ id g).1
| rs_burn g o n : reg_step g (registry_burn o n g).1
| rs_restart g g' : registry_open (rg_durable g) (rg_file g) = Ok g' -> reg_step g g'.

Lemma record_of_fields id r : record_ok id r -> record_of (JObj (EnrollmentRecord_fields r)) = Ok r.
Proof.
  intros (_ & Hv & Hh). destruct r as [i p u pu ca st ve rv]. simpl in Hv, Hh.
  unfold record_of, EnrollmentRecord_fields, get_default.
  cbn [as_obj of_option rbind er_id er_pem er_uid er_purpose er_created_at er_status er_version
    er_revoked_at]. dget_eval. cbn [of_option rbind as_str].
  match goal with |- context [require ?b _] => assert (b = true) as -> by (vm_compute; reflexivity) end.
  cbn [require rbind]. rewrite Hv. cbn [require rbind]. by rewrite Hh.
Qed.

Lemma collect_records (rs acc : dict EnrollmentRecord) :
  dwf (acc ++ rs) -> (forall id r, (id, r) ∈ rs -> er_id r = id) ->
  foldl (fun m r => dset m (er_id r) r) acc (dvals rs) = (acc ++ rs)%list.
Proof.
  revert acc. induction rs as [|[id r] rs IH]; intros acc Hw Hk; simpl; [by rewrite app_nil_r|].
  rewrite (Hk id r) by left. rewrite dset_fresh.
  - rewrite IH; [by rewrite <- app_assoc|by rewrite <- app_assoc|]. intros. apply Hk. by right.
  - apply dget_None. unfold dwf, dkeys in *. rewrite fmap_app in Hw. simpl in Hw.
    apply NoDup_app in Hw as (_ & Hw & _). intros Hin. apply (Hw _ Hin). left.
Qed.

Lemma load_saved g : content_ok (rg_records g) (rg_burned g) ->
  registry_load 384 (Some (registry_json g)) = Ok (rg_records g, rg_burned g).
Proof.
  intros (Hw & Hr & Hs). unfold registry_load, registry_json, get_default.
  cbn [of_option as_obj rbind]. dget_eval. cbn [py_iter map_err rbind].
  assert (Hm : mapr record_of (map (fun r => JObj (EnrollmentRecord_fields r)) (dvals (rg_records g)))
               = Ok (dvals (rg_records g))).
  { assert (Ha : Forall (fun r => record_of (JObj (EnrollmentRecord_fields r)) = Ok r)
                   (dvals (rg_records g))).
    { apply Forall_forall. intros r ([id r'] & -> & Hin)%list_elem_of_fmap.
      eapply record_of_fields, Hr, dget_Some; done. }
    induction Ha as [|r l Hr' _ IH]; [done|]. cbn [map mapr]. by rewrite Hr', IH. }
  assert (Hn : mapr nonce_of (map JStr (rg_burned g)) = Ok (rg_burned g)).
  { clear. induction (rg_burned g) as [|n l IH]; [done|]. cbn [map mapr nonce_of rbind]. by rewrite IH. }
  rewrite Hm. cbn [rbind]. rewrite Hn. change (Z.land 384 63 =? 0) with true.
  cbn [rbind require]. f_equal. f_equal.
  - apply (collect_records _ []); [done|]. intros id r Hin. apply (Hr id r), dget_Some; done.
  - by apply sorted_set_id.
Qed.

(** A property of the remembered content that no operation takes back. *)
Record stable (P : dict EnrollmentRecord -> list string -> Prop) : Prop := {
  sb_add : forall rs ns r, P rs ns -> dget rs (er_id r) = None -> P (dset rs (er_id r) r) ns;
  sb_revoke : forall rs ns id r at_, P rs ns -> dget rs id = Some r ->
    P (dset rs id (revoked_record at_ r)) ns;
  sb_burn : forall rs ns n, P rs ns -> P rs (sset_add n ns);
}.

Definition remembers (P : dict EnrollmentRecord -> list string -> Prop) g : Prop :=
  P (rg_records g) (rg_burned g) /\ file_holds P (rg_file g).

(** Saving the memory, however it ends. *)
Lemma save_keeps P o g : 
  content_ok (rg_records g) (rg_burned g) -> P (rg_records g) (rg_burned g) ->
  file_holds P (rg_file g) ->
  let g' := (registry_save o g).1 in
  rg_records g' = rg_records g /\ rg_burned g' = rg_burned g /\ rg_durable g' = rg_durable g /\
  file_holds P (rg_file g') /\ (rg_file g' = None -> rg_file g = None).
Proof.
  intros Hc HP Hf. unfold registry_save.
  destruct (rg_durable g) eqn:Hd; cbn [negb fst]; [|done].
  assert (Hw : file_holds P (Some (384, Some (registry_json g)))).
  { intros mode c [= <- <-]. exists (rg_records g), (rg_burned g). split; [by apply load_saved|done]. }
  destruct o as [| |[]]; cbn [fst set_file rg_records rg_burned rg_durable rg_file]; done.
Qed.

Lemma save_Ok g g' o :
  content_ok (rg_records g) (rg_burned g) -> rg_durable g = true ->
  registry_save o g = (g', Ok tt) -> rg_file g' = Some (384, Some (registry_json g)).
Proof. intros _ Hd. unfold registry_save. rewrite Hd. cbn. destruct o; by intros [= <-]. Qed.

Lemma content_add rs ns r : content_ok rs ns -> record_ok (er_id r) r ->
  content_ok (dset rs (er_id r) r) ns.
Proof.
  intros (Hw & Hr & Hs) Ho. split_and!; [by apply dwf_dset| |done].
  intros id q. rewrite dget_dset. case_decide; [|apply Hr]. intros [= <-]. by subst.
Qed.

Lemma content_revoke rs ns id r at_ : content_ok rs ns -> dget rs id = Some r ->
  content_ok (dset rs id (revoked_record at_ r)) ns.
Proof.
  intros Hc Hd. assert (Hc' := Hc). destruct Hc' as (_ & Hr & _).
  destruct (Hr _ _ Hd) as (<- & ? & ?). apply (content_add rs ns (revoked_record at_ r)); done.
Qed.

Lemma content_burn rs ns n : content_ok rs ns -> content_ok rs (sset_add n ns).
Proof. intros (Hw & Hr & Hs). split_and!; [done|done|by apply sset_add_sorted]. Qed.

(** What an operation does to the memory before it saves. *)
Lemma step_memory P g g' : stable P -> reg_inv g -> remembers P g ->
  (rg_durable g = true -> rg_file g <> None) -> reg_step g g' ->
  (rg_durable g = true) ->
  reg_inv g' /\ remembers P g' /\ rg_durable g' = true /\ rg_file g' <> None.
Proof.
  intros [Ha Hv Hb] [Hm Hf] [HP HPf] Hfile Hstep Hd. specialize (Hfile Hd).
  assert (Hsave : forall o g1, rg_durable g1 = true -> rg_file g1 = rg_file g ->
    content_ok (rg_records g1) (rg_burned g1) -> P (rg_records g1) (rg_burned g1) ->
    reg_inv (registry_save o g1).1 /\ remembers P (registry_save o g1).1 /\
    rg_durable (registry_save o g1).1 = true /\ rg_file (registry_save o g1).1 <> None).
  { intros o g1 Hd1 Hf1 Hc1 HP1.
    destruct (save_keeps P o g1) as (Er & Eb & Ed & Ef & En); [done|done|by rewrite Hf1|].
    destruct (save_keeps content_ok o g1) as (_ & _ & _ & Ec & _); [done|done|by rewrite Hf1|].
    split_and!.
    - constructor; [by rewrite Er, Eb|done].
    - split; [by rewrite Er, Eb|done].
    - congruence.
    - intros Hn. apply En in Hn. congruence. }
  destruct Hstep as [g o at_ id pem u purpose|g o at_ id|g o n|g g' Ho].
  - unfold registry_register, st_bind, st_guard, st_get.
    destruct (valid_pem pem) eqn:Hp; cbn [st_ret]; [|done].
    destruct (dget (rg_records g) id) as [r|] eqn:Hr.
    + destruct (String.eqb _ _); cbn; [|done]. by destruct (negb _).
    + cbn [st_set]. match goal with |- context [registry_save o ?x] =>
        specialize (Hsave o x); destruct (registry_save o x) as [g2 [[]|e]] end;
        cbn [fst st_ret put_record rg_records rg_burned rg_durable rg_file er_id] in *;
        (apply Hsave; [done|done| |by apply (Ha _ _ (Build_EnrollmentRecord id pem _ _ _ _ _ _))];
         by apply (content_add _ _ (Build_EnrollmentRecord id pem _ _ _ _ _ _))).
  - unfold registry_revoke, st_bind, st_get.
    destruct (dget (rg_records g) id) as [r|] eqn:Hr; [|done].
    cbn [st_set]. match goal with |- context [registry_save o ?x] =>
      specialize (Hsave o x); destruct (registry_save o x) as [g2 [[]|e]] end;
      cbn [fst st_ret rg_records rg_burned rg_durable rg_file] in *;
      (apply Hsave; [done|done|by apply content_revoke|by apply Hv]).
  - unfold registry_burn, st_bind, st_get, st_guard.
    destruct (negb _); cbn [st_ret st_raise]; [|done].
    cbn [st_set]. apply Hsave; cbn; [done|done|by apply content_burn|by apply Hb].
  - rewrite Hd in Ho. unfold registry_open in Ho.
    destruct (rg_file g) as [[mode c]|] eqn:Ef; [|done].
    destruct (Hf _ _ eq_refl) as (rs & ns & Hl & Hc). rewrite Hl in Ho. injection Ho as <-.
    destruct (HPf _ _ eq_refl) as (rs' & ns' & Hl' & HP'). rewrite Hl in Hl'.
    injection Hl' as <- <-. split_and!; try done.
Qed.

Lemma steps_memory P g g' : stable P -> reg_inv g -> remembers P g ->
  rg_durable g = true -> rg_file g <> None -> rtc reg_step g g' -> remembers P g'.
Proof.
  intros HP Hi Hr Hd Hf Hs. induction Hs as [|g g1 g' H1 Hs IH]; [done|].
  destruct (step_memory P g g1) as (Hi1 & Hr1 & Hd1 & Hf1); try done. by apply IH.
Qed.

Definition keeps_key (id pem : string) (rs : dict EnrollmentRecord) (ns : list string) : Prop :=
  exists r, dget rs id = Some r /\ er_pem r = pem.
Definition keeps_revoked (id pem : string) (rs : dict EnrollmentRecord) (ns : list string) : Prop :=
  exists r, dget rs id = Some r /\ er_pem r = pem /\ er_status r = JStr "revoked".
Definition keeps_burned (n : string) (rs : dict EnrollmentRecord) (ns : list string) : Prop := n ∈ ns.

Lemma stable_key id pem : stable (keeps_key id pem).
Proof.
  constructor.
  - intros rs ns r (q & Hq & Hp) Hn. exists q. rewrite dget_dset. case_decide; [congruence|done].
  - intros rs ns id' r at_ (q & Hq & Hp) Hr. unfold keeps_key. rewrite dget_dset.
    case_decide as Hd; [|by exists q]. subst id'. exists (revoked_record at_ r).
    split; [done|]. simpl. congruence.
  - done.
Qed.

Lemma stable_revoked id pem : stable (keeps_revoked id pem).
Proof.
  constructor.
  - intros rs ns r (q & Hq & Hp) Hn. exists q. rewrite dget_dset. case_decide; [congruence|done].
  - intros rs ns id' r at_ (q & Hq & Hp & Hst) Hr. unfold keeps_revoked. rewrite dget_dset.
    case_decide as Hd; [|by exists q]. subst id'. exists (revoked_record at_ r).
    split; [done|]. simpl. split; [congruence|done].
  - done.
Qed.

Lemma stable_burned n : stable (keeps_burned n).
Proof. constructor; [done|done|]. intros rs ns m Hn. apply elem_of_sset_add. by right. Qed.

(** A successful save puts what it saved out of reach of any later failure. *)
Lemma saved_remembers P o g g' :
  content_ok (rg_records g) (rg_burned g) -> rg_durable g = true ->
  file_holds content_ok (rg_file g) -> P (rg_records g) (rg_burned g) ->
  registry_save o g = (g', Ok tt) ->
  reg_inv g' /\ remembers P g' /\ rg_durable g' = true /\ rg_file g' <> None.
Proof.
  intros Hc Hd Hf HP Hs. pose proof (save_Ok _ _ _ Hc Hd Hs) as Hfile.
  destruct (save_keeps content_ok o g Hc Hc Hf) as (Er & Eb & Ed & Ef & _).
  rewrite Hs in *. cbn [fst] in *. split_and!.
  - constructor; [by rewrite Er, Eb|done].
  - split; [by rewrite Er, Eb|]. rewrite Hfile. intros m c [= <- <-].
    exists (rg_records g), (rg_burned g). split; [by apply load_saved|done].
  - congruence.
  - by rewrite Hfile.
Qed.

(** C21: what the registry has stored it remembers: after a revocation that
    returned, the enrollment is never active again; after a nonce was burned it
    is refused for ever; and the key registered under an identifier never
    changes; all of this whatever calls follow, whatever saves fail and however
    often the daemon restarts. *)
Theorem registry_durable g g1 g2 o at_ id pem u purpose n r :
  reg_inv g -> rg_durable g = true -> rtc reg_step g1 g2 ->
  (registry_revoke o at_ id g = (g1, Ok r) ->
     registry_active g2 id = None /\
     exists r2, dget (rg_records g2) id = Some r2 /\ er_pem r2 = er_pem r) /\
  (dget (rg_records g) id = None -> registry_register o at_ id pem u purpose g = (g1, Ok r) ->
     exists r2, dget (rg_records g2) id = Some r2 /\ er_pem r2 = pem) /\
  (registry_burn o n g = (g1, Ok tt) ->
     forall o', registry_burn o' n g2 = (g2, Err (RegistryError "NONCE_REPLAY"))).
Proof.
  intros [Hc Hf] Hd Hs. split_and!.
  - unfold registry_revoke, st_bind, st_get. destruct (dget (rg_records g) id) as [q|] eqn:Hq; [|done].
    cbn [st_set]. destruct (registry_save o _) as [g3 [[]|]] eqn:E; intros [= <- <-].
    apply (saved_remembers (keeps_revoked id (er_pem q))) in E as (Hi & Hr & Hd3 & Hf3);
      [|by apply content_revoke|done|done|].
    2: { exists (revoked_record at_ q). cbn. by rewrite dget_dset_eq. }
    destruct (steps_memory _ _ _ (stable_revoked id _) Hi Hr Hd3 Hf3 Hs) as [(r2 & H2 & Hp & Hst) _].
    unfold registry_active. rewrite H2. split; [|by exists r2].
    simpl. unfold is_active. by rewrite Hst.
  - intros Hn. unfold registry_register, st_bind, st_get, st_guard.
    destruct (valid_pem pem) eqn:Hv; [|done]. cbn [st_ret]. rewrite Hn. cbn [st_set].
    destruct (registry_save o _) as [g3 [[]|]] eqn:E; intros [= <- <-].
    apply (saved_remembers (keeps_key id pem)) in E as (Hi & Hr & Hd3 & Hf3);
      [|by apply (content_add _ _ (Build_EnrollmentRecord id pem _ _ _ _ _ _))|done|done|].
    2: { eexists. cbn. rewrite dget_dset_eq. by split. }
    by destruct (steps_memory _ _ _ (stable_key id pem) Hi Hr Hd3 Hf3 Hs) as [Hk _].
  - unfold registry_burn, st_bind, st_get, st_guard. intros E o'.
    destruct (negb _); [|done]. cbn [st_ret st_set] in E.
    apply (saved_remembers (keeps_burned n)) in E as (Hi & Hr & Hd3 & Hf3);
      [|by apply content_burn|done|done|by apply elem_of_sset_add; left].
    destruct (steps_memory _ _ _ (stable_burned n) Hi Hr Hd3 Hf3 Hs) as [Hb _].
    by rewrite bool_decide_true.
Qed.
End Durable.

(** A decision receipt the daemon signs survives its dictionary form and
    verifies under the daemon's key, and no other receipt has the signed text:
    the signature covers every field. *)
Theorem receipt_authentic `{Crypto} `{Signatures} (k : private_key) (r : DecisionReceipt) :
  sign_law -> valid_pem (public_pem k) = true ->
  dr_version r = PROTOCOL_VERSION_RECEIPT -> upper (dr_decision r) = dr_decision r ->
  ed_sign k (default "" (dumps (JObj (receipt_payload r)))) <> "" ->
  exists s, sign_receipt k r = Ok s /\ unsigned s = unsigned r /\
    DecisionReceipt_from_dict (DecisionReceipt_to_dict s) = Ok s /\
    verify_signature (public_pem k) s = Ok true /\
    (forall r', canonical_text (receipt_payload r') = canonical_text (receipt_payload s) ->
       unsigned r' = unsigned s).
Proof.
  intros Hl Hv Hver Hu Hne. unfold sign_receipt, canonical_text.
  assert (Ht : exists t, dumps (JObj (receipt_payload r)) = Some t) by apply texts_dumps.
  destruct Ht as [t Ht]. rewrite Ht in *. cbn [of_option rbind default from_option id] in *.
  eexists. split; [done|]. set (s := with_signature r (sign_b64 k t)).
  assert (Hs : receipt_payload s = receipt_payload r) by done.
  split_and!; [done|by apply receipt_dict_round_trip| |].
  - unfold verify_signature. cbn [s dr_signature with_signature].
    assert (truthy_str (sign_b64 k t) = true) as ->.
    { unfold sign_b64, truthy_str. apply negb_true_iff, String.eqb_neq. intros He.
      apply Hne. assert (Hb := b64_decode_encode (ed_sign k t)). rewrite He in Hb.
      cbn in Hb. by injection Hb. }
    unfold canonical_text. rewrite Hs, Ht. cbn [of_option rbind]. by rewrite verify_own.
  - intros r' Hr'. rewrite Hs, Ht in Hr'. cbn [of_option] in Hr'.
    rewrite (receipt_text_inj r' s t); [done|done|]. unfold canonical_text. by rewrite Hs, Ht.
Qed.

(** ** Concrete instances *)

Definition demo_signatures : Signatures := {|
  private_key := string;
  valid_pem := truthy_str;
  public_pem := fun k => k;
  ed_sign := fun k m => k +:+ ":" +:+ m;
  ed_verify := fun pem sig m => String.eqb sig (pem +:+ ":" +:+ m);
|}.

Lemma demo_sign_law : @sign_law demo_signatures.
Proof. intros k m. apply String.eqb_refl. Qed.

Definition demo_registry : OperatorRegistry :=
  {| rg_durable := true; rg_records := []; rg_burned := []; rg_file := None |}.

Lemma demo_registry_inv : @reg_inv demo_signatures demo_registry.
Proof.
  constructor; [|done]. split_and!; [apply NoDup_nil_2|done|constructor].
Qed.

Definition demo_enrolled : OperatorRegistry :=
  (registry_register (H := demo_signatures) Saved "2026-01-01" "op" "pem" 501 "operator-decision"
     demo_registry).1.

Definition demo_operator : EnrollmentRecord :=
  {| er_id := "op"; er_pem := "pem"; er_uid := JInt 501; er_purpose := JStr "operator-decision";
     er_created_at := JStr "2026-01-01"; er_status := JStr "active"; er_version := JInt 1;
     er_revoked_at := JStr "" |}.

(** A registration is reported again without being stored again. *)
Lemma retried_registration_lost :
  exists g1 g2 g3 : OperatorRegistry,
    let register o := registry_register (H := demo_signatures) o "2026-01-01" "op" "pem" 501
                        "operator-decision" in
    register (SaveRaised false) demo_registry = (g1, Err RegistryRaised) /\
    register Saved g1 = (g2, Ok demo_operator) /\
    registry_open (H := demo_signatures) (rg_durable g2) (rg_file g2) = Ok g3 /\
    registry_active g3 "op" = None.
Proof. do 3 eexists. split_and!; vm_compute; reflexivity. Qed.

Lemma registry_durable_witness :
  let revoked := (registry_revoke Saved "2026-01-02" "op" demo_enrolled).1 in
  registry_active revoked "op" = None /\
  registry_burn Saved "n"
    (registry_burn Saved "n" demo_registry).1
  = ((registry_burn Saved "n" demo_registry).1,
     Err (RegistryError "NONCE_REPLAY")).
Proof.
  assert (Hi : @reg_inv demo_signatures demo_enrolled).
  { pose proof demo_registry_inv as [Hm _].
    constructor; [apply (content_add (H := demo_signatures) [] [] demo_operator); [exact Hm|done]|].
    intros mode c [= <- <-]. exists (rg_records demo_enrolled), (rg_burned demo_enrolled).
    split; [vm_compute; reflexivity|].
    apply (content_add (H := demo_signatures) [] [] demo_operator); [exact Hm|done]. }
  split.
  - destruct (registry_durable (H := demo_signatures) demo_enrolled
      (registry_revoke Saved "2026-01-02" "op" demo_enrolled).1 _ Saved
      "2026-01-02" "op" "" 0 "" "" (revoked_record "2026-01-02" demo_operator)
      Hi eq_refl (rtc_refl _ _)) as ((Hr & _) & _ & _); [vm_compute; reflexivity|exact Hr].
  - destruct (registry_durable (H := demo_signatures) demo_registry
      (registry_burn Saved "n" demo_registry).1 _ Saved
      "" "" "" 0 "" "n" demo_operator demo_registry_inv eq_refl (rtc_refl _ _)) as (_ & _ & Hb).
    apply Hb. vm_compute. reflexivity.
Defined.

Definition demo_receipt : DecisionReceipt :=
  {| dr_proposal_id := "proposal_1"; dr_decision := "ACCEPT"; dr_enrollment_id := "op";
     dr_principal := "alice"; dr_method := "tty-yn"; dr_nonce := "nonce"; dr_decided_at := "";
     dr_expires_at := ""; dr_instance := "daemon_1"; dr_key_id := "k"; dr_agent_request_id := "";
     dr_mission_id := ""; dr_mode := "REAL"; dr_capability_id := "arm.move"; dr_args_hash := "h";
     dr_display_hash := "d"; dr_signature := ""; dr_version := PROTOCOL_VERSION_RECEIPT |}.

Lemma receipt_authentic_witness :
  exists s, @sign_receipt demo_signatures "daemon" demo_receipt = Ok s /\
    @verify_signature demo_signatures "daemon" s = Ok true.
Proof.
  destruct (@receipt_authentic demo_crypto demo_signatures "daemon" demo_receipt)
    as (s & Hs & _ & _ & Hv & _);
    [exact demo_sign_law|reflexivity|reflexivity|vm_compute; reflexivity|vm_compute; discriminate|].
  by exists s.
Defined.
