(* ===== verification/Operator.v ===== *)
(** Operator proposals in the control plane: the proposal, enrollment and
    decision methods of [DaemonControlPlane] in src/src/rosclaw/daemon/service.py.

    [oplane] adds the proposal store and the enrollment registry to the [plane]
    of ControlPlane.v; a method there is used here through [lift]. A method
    holds a proposal by its request id. An [oio] gives each control-plane call a
    decision makes its own [io], the outcome of a registry save, and the text of
    an exception. *)

From S2P Require Export Dispatch.
From S2P Require Export Decisions.

Record oplane {X L : Type} := {
  base : plane X L;
  props : OperatorProposalStore;
  reg : OperatorRegistry;
}.
Arguments oplane : clear implicits.

Record oio {Env : Type} := {
  call : nat -> io Env;               (* the n-th call of the control plane *)
  o_creation : creation;
  o_save : save_outcome;
  o_stamp : string;                   (* [datetime.now(UTC).isoformat()] *)
  moved_at : string -> ProposalState -> datetime;  (* the clock at each [transition] *)
  o_pid : Z;                          (* [os.getpid()] and [os.getegid()] *)
  o_gid : Z;
  error_text : cp_exn -> string;      (* [exc.message] or [str(exc)] *)
}.
Arguments oio : clear implicits.

Section Operator.
Context {X : Type} `{EL : EventLog L Env} `{Crypto} `{Signatures}.
Context (cfg : config) (ident : DaemonIdentity).
Abbreviation plane := (plane X L).
Abbreviation oplane := (oplane X L).
Abbreviation oio := (oio Env).
Abbreviation M := (st oplane cp_exn).
Implicit Types (s : oplane) (o : oio) (p : OperatorProposal).

Definition set_base (v : plane) s : oplane := {| base := v; props := props s; reg := reg s |}.
Definition set_props (v : OperatorProposalStore) s : oplane :=
  {| base := base s; props := v; reg := reg s |}.
Definition set_reg (v : OperatorRegistry) s : oplane :=
  {| base := base s; props := props s; reg := v |}.

Definition lift {A} (m : st plane cp_exn A) : M A :=
  fun s => let '(b, r) := m (base s) in (set_base b s, r).

(** A store call whose [OperatorProposalError] is re-raised under its code. *)
Definition store_exn (e : prop_exn) : cp_exn :=
  match e with OperatorProposalError code => ControlPlaneError code | ProposalRaised => Raised end.

Definition of_store {A} (f : OperatorProposalStore -> OperatorProposalStore * result prop_exn A)
  : M A := fun s => let '(q, r) := f (props s) in (set_props q s, map_err store_exn r).

(** One whose error is not caught. *)
Definition of_store_raw {A} (f : OperatorProposalStore -> OperatorProposalStore * result prop_exn A)
  : M A := fun s => let '(q, r) := f (props s) in (set_props q s, map_err (fun _ => Raised) r).

Definition reg_cp_exn (e : reg_exn) : cp_exn :=
  match e with RegistryError code => ControlPlaneError code | RegistryRaised => Raised end.

Definition of_registry {A} (m : st OperatorRegistry reg_exn A) : M A :=
  fun s => let '(g, r) := m (reg s) in (set_reg g s, map_err reg_cp_exn r).

Definition o_raise {A} (code : string) : M A := st_raise (ControlPlaneError code).
Definition o_guard (b : bool) (code : string) : M unit := st_guard b (ControlPlaneError code).

(** [except ControlPlaneError: h] *)
Definition catching {A} (m : M A) (h : string -> M A) : M A :=
  st_try m (fun e => match e with ControlPlaneError code => h code | Raised => st_raise Raised end).

(** The proposal object a method holds. *)
Definition proposal (id : string) : M OperatorProposal := fun s =>
  (s, of_option (dget (ps_proposals (props s)) id) Raised).

Definition state_of s (id : string) : option ProposalState :=
  pr_state <$> dget (ps_proposals (props s)) id.

Definition assign (f : OperatorProposal -> OperatorProposal) (id : string) : M unit :=
  do! p <- proposal id; st_set (fun s => set_props (put_proposal (props s) (f p)) s).

(** ** Events *)

(** [_append_operator_event] *)
Definition operator_payload p : dict json :=
  [("request_id", JStr (pr_request_id p)); ("action_id", JStr (action_id (pr_action p)));
   ("action_intent_hash", JStr (pr_intent_hash p));
   ("state", JStr (ProposalState_value (pr_state p)));
   ("operator_principal", opt_text_json (pr_principal p));
   ("decision_channel", opt_text_json (pr_channel p));
   ("decision_reason", opt_text_json (pr_reason p));
   ("decided_at", utc_iso_opt (pr_decided_at p)); ("daemon_instance_id", JStr (pr_instance p))].

Definition append_operator_event o (ty id : string) (extra : dict json) : M unit :=
  do! l <- lift (st_get log_of);
  run! o_guard (bool_decide (is_Some l)) "PROPOSAL_LEDGER_REQUIRED";
  do! p <- proposal id;
  do! ok <- lift (append_event (call o 0) ty "OPERATOR_PROPOSAL" id
                    (dict_update (operator_payload p) extra));
  if ok : bool then assign audited id
  else run! lift mark_ledger_failure; o_raise "LEDGER_UNAVAILABLE".

(** [_audit_expired_operator_proposal] *)
Definition audit_expired o (id : string) : M unit :=
  do! p <- proposal id;
  if bool_decide (pr_state p = P_EXPIRED) && (pr_audited p <? Z.of_nat (length (pr_transitions p)))
  then append_operator_event o "OPERATOR_PROPOSAL_EXPIRED" id [] else st_ret tt.

(** [self.operator_proposals.transition(...)] *)
Definition move o (id : string) (st : ProposalState) (c : change) : M unit :=
  do! _ <- of_store_raw (fun q => transition (moved_at o id st) q id st c); st_ret tt.

(** [_invalidate_operator_proposal] *)
Definition invalidate o (id code message : string) : M unit :=
  run! move o id P_INVALIDATED
    {| ch_principal := None; ch_channel := None; ch_reason := None; ch_code := Some code;
       ch_message := Some (prefix_of 1024 message) |};
  append_operator_event o "OPERATOR_PROPOSAL_INVALIDATED" id [].

(** [_synchronize_operator_proposal] *)
Definition done_state (d : dict json) : bool :=
  str_at d "state" "FINISHED" || str_at d "state" "CANCELLED".

Definition synchronize o (id : string) : M unit :=
  do! p <- proposal id;
  if bool_decide (pr_state p = P_SUBMITTED) then
    do! status <- catching (do! d <- lift (get_action_status cfg (call o 1)
                                             (action_id (pr_action p)) (Some (pr_origin p)));
                            st_ret (Some d))
                    (fun _ => st_ret None);
    match status with
    | Some d =>
        if done_state d then
          run! move o id P_TERMINAL change_none;
          append_operator_event o "OPERATOR_PROPOSAL_TERMINAL" id
            [("action_id", JStr (action_id (pr_action p)));
             ("action_state", get_default d "state" JNull);
             ("final_state", get_default d "final_state" JNull)]
        else st_ret tt
    | None => st_ret tt
    end
  else st_ret tt.

Definition dispatched_state (st : ProposalState) : bool :=
  match st with P_SUBMITTED | P_TERMINAL => true | _ => false end.
Definition injected_state (st : ProposalState) : bool :=
  match st with P_PERMIT_ISSUED | P_SUBMITTED | P_TERMINAL => true | _ => false end.

(** [_operator_submission_result] *)
Definition submission_result o (id : string) : M (dict json) :=
  do! p <- proposal id;
  let result : dict json :=
    [("proposal", JObj (public_dict p)); ("decision", JStr (ProposalState_value (pr_state p)));
     ("command_dispatched", JBool (dispatched_state (pr_state p)));
     ("permit_injected", JBool (injected_state (pr_state p))); ("permit_exposed", JBool false)] in
  if dispatched_state (pr_state p) then
    catching (do! d <- lift (get_action_status cfg (call o 1) (action_id (pr_action p))
                               (Some (pr_origin p)));
              st_ret (result ++ [("action", JObj d)])%list)
      (fun _ => st_ret result)
  else st_ret result.

(** ** Creating, reading and cancelling *)

(** [min(3_600_000, max(60_000, int(float(ttl_sec) * 1000) + 10_000, lease))] *)
Definition proposal_session_ttl (ttl : pyfloat) (a : ActionEnvelope) : Z :=
  Z.min 3600000 (Z.max (Z.max 60000 (float_us ttl / 1000 + 10000)) (lease_ttl_ms a)).

Definition ledger_failure_change : change :=
  {| ch_principal := None; ch_channel := None; ch_reason := None;
     ch_code := Some "LEDGER_UNAVAILABLE";
     ch_message := Some "Proposal creation could not be recorded durably" |}.

Definition create_operator_proposal o (a : ActionEnvelope) (display : dict json) (ttl : pyfloat)
    (peer : PeerCredentials) (reference : option (dict string)) : M (dict json) :=
  run! lift require_running;
  do! l <- lift (st_get log_of);
  run! o_guard (bool_decide (is_Some l)) "PROPOSAL_LEDGER_REQUIRED";
  do! p <- of_store (fun q => create_proposal (o_creation o) q a display peer (c_instance cfg) ttl
                                reference);
  let id := pr_request_id p in
  if negb (pr_audited p =? 0) then submission_result o id
  else
    let x := pr_action p in
    do! session <- lift (of_session (fun m =>
      create_session (clock (call o 0) 0) (mono (call o 0) 0) m (session_id x) (actor_id x)
        (agent_framework x) [body_id x] [capability_id x] (proposal_session_ttl ttl a) peer));
    run! lift (append_session_event (call o 0) "SESSION_CREATED" session []);
    do! ok <- lift (append_event (call o 0) "OPERATOR_PROPOSAL_CREATED" "OPERATOR_PROPOSAL" id
                      [("proposal", JObj (operator_dict p)); ("action", ActionEnvelope_to_dict x)]);
    if ok : bool then
      run! assign audited id;
      do! p <- proposal id;
      st_ret [("proposal", JObj (public_dict p)); ("decision", JStr "APPROVAL_PENDING");
              ("command_dispatched", JBool false); ("permit_exposed", JBool false)]
    else
      run! lift mark_ledger_failure;
      run! move o id P_INVALIDATED ledger_failure_change;
      o_raise "LEDGER_UNAVAILABLE".

(** [_require_proposal_reader] and [_require_operator_reader] *)
Definition require_proposal_reader p (peer : PeerCredentials) : M unit :=
  o_guard ((uid peer =? uid (pr_origin p)) || (uid peer =? c_euid cfg))
    "PROPOSAL_OWNERSHIP_MISMATCH".

Definition require_operator_reader (peer : PeerCredentials) : M unit :=
  do! g <- st_get reg;
  o_guard ((uid peer =? c_euid cfg) || uid_in (uid peer) (active_operator_uids g))
    "PERMISSION_DENIED".

Definition fetch o (id : string) : M OperatorProposal :=
  of_store (fun q => get_proposal (clock (call o 0) 0) q id).

Definition get_operator_proposal o (id : string) (peer : PeerCredentials) : M (dict json) :=
  do! p <- fetch o id;
  run! require_proposal_reader p peer;
  run! audit_expired o id;
  run! synchronize o id;
  do! p <- proposal id;
  st_ret [("proposal", JObj (public_dict p)); ("permit_exposed", JBool false)].

Definition cancel_operator_proposal o (id : string) (peer : PeerCredentials) : M (dict json) :=
  run! lift require_running;
  do! p <- fetch o id;
  run! require_proposal_reader p peer;
  run! audit_expired o id;
  if bool_decide (pr_state p = P_CANCELLED) then submission_result o id
  else
    run! o_guard (pending_state (pr_state p)) "PROPOSAL_NOT_PENDING";
    run! move o id P_CANCELLED change_none;
    run! append_operator_event o "OPERATOR_PROPOSAL_CANCELLED" id [];
    run! catching
      (do! session <- lift (of_session (fun m =>
         close_session m (session_id (pr_action p)) (pr_origin p) "operator_proposal_cancelled"));
       lift (append_session_event (call o 0) "SESSION_CLOSED" session []))
      (fun _ => st_ret tt);
    submission_result o id.

(** The loop that presents a proposal still CREATED: what it does once it has seen that
    state, and the whole. The method holds no [_operator_decision_lock], so another
    handler may run between the two; see [declined_then_submitted] in Verdict.v. *)
Definition show o (id : string) : M unit :=
  run! move o id P_PRESENTED change_none;
  append_operator_event o "OPERATOR_PROPOSAL_PRESENTED" id [].

Definition present o (id : string) : M unit :=
  do! p <- proposal id;
  if bool_decide (pr_state p = P_CREATED) then show o id else st_ret tt.

Fixpoint dicts_of (ids : list string) : M (list json) :=
  match ids with
  | [] => st_ret []
  | id :: ids => do! p <- proposal id; do! l <- dicts_of ids; st_ret (JObj (operator_dict p) :: l)
  end.

Definition list_pending_operator_proposals o (peer : PeerCredentials) : M (dict json) :=
  run! require_operator_reader peer;
  do! pending <- of_store (fun q => let '(q, l) := pending_proposals (clock (call o 0) 0) q in
                                    (q, Ok (map pr_request_id l)));
  do! everything <- of_store (fun q => let '(q, l) := all_proposals (clock (call o 0) 2) q in
                                       (q, Ok (map pr_request_id l)));
  run! st_each (audit_expired o) everything;
  run! st_each (present o) pending;
  do! l <- dicts_of pending;
  st_ret [("schema_version", JStr "rosclaw.operator.pending-list.v1"); ("proposals", JList l);
          ("count", JInt (Z.of_nat (length pending)))].

(** ** Enrollments *)

(** [_append_operator_enrollment_event] *)
Definition append_enrollment_event o (ty : string) (r : EnrollmentRecord) : M unit :=
  do! ok <- lift (append_event (call o 0) ty "OPERATOR_ENROLLMENT" (er_id r)
                    [("enrollment", JObj (EnrollmentRecord_public_dict r))]);
  if ok : bool then st_ret tt else run! lift mark_ledger_failure; o_raise "LEDGER_UNAVAILABLE".

Definition enrollment_dict (r : EnrollmentRecord) : dict json :=
  dict_update [("schema_version", JStr "rosclaw.operator.enrollment.v2")]
    (EnrollmentRecord_public_dict r).

Definition register_operator_enrollment o (id pem : string) (operator_uid : Z) (purpose : string)
    (peer : PeerCredentials) : M (dict json) :=
  run! lift (require_daemon_uid cfg peer);
  do! id <- lift (check_identifier id);
  run! o_guard (0 <=? operator_uid) "INVALID_ARGUMENT";
  do! r <- of_registry (registry_register (o_save o) (o_stamp o) id pem operator_uid purpose);
  run! append_enrollment_event o "OPERATOR_ENROLLMENT_REGISTERED" r;
  st_ret (dset (enrollment_dict r) "registered" (JBool true)).

Definition revoke_operator_enrollment o (id : string) (peer : PeerCredentials) : M (dict json) :=
  run! lift (require_daemon_uid cfg peer);
  do! id <- lift (check_identifier id);
  do! r <- of_registry (registry_revoke (o_save o) (o_stamp o) id);
  run! append_enrollment_event o "OPERATOR_ENROLLMENT_REVOKED" r;
  st_ret (enrollment_dict r).

Definition list_operator_enrollments (peer : PeerCredentials) : M (dict json) :=
  run! lift (require_daemon_uid cfg peer);
  do! g <- st_get reg;
  st_ret [("schema_version", JStr "rosclaw.operator.enrollment-list.v1");
          ("enrollments", JList (map (fun r => JObj (EnrollmentRecord_public_dict r))
                                   (registry_list g)))].

Definition daemon_identity_dict : dict json :=
  [("schema_version", JStr "rosclaw.daemon.identity.v1");
   ("daemon_instance_id", JStr (c_instance cfg)); ("daemon_key_id", JStr (key_id_of ident));
   ("public_key_pem", JStr (di_pem ident))].

(** ** The challenge *)

Definition reference_at p (k : string) : string := default "" (dget (pr_client_reference p) k).

(** [_proposal_display_hash] *)
Definition proposal_display_hash p : result pyexc string :=
  let d := pr_display p in
  let shown := reference_at p "agent_request_id" in
  let* title := py_str (get_default d "title" (JStr "")) in
  let* summary := py_str (get_default d "summary" (JStr "")) in
  let* risk := py_str (get_default d "risk_tier" (JStr "")) in
  let* parameters := py_dict (get_default d "parameters" (JObj [])) in
  compute_display_hash
    {| df_request_id := if truthy_str shown then shown else pr_request_id p; df_title := title;
       df_summary := summary; df_risk_tier := risk; df_parameters := parameters;
       df_body_hash := body_snapshot_hash (pr_action p); df_expires_at := iso (pr_expires_at p) |}
    exact_none.

(** [_operator_challenge_for] *)
Definition operator_challenge_for p : result pyexc DecisionChallenge :=
  let* h := proposal_display_hash p in
  Ok {| dc_proposal_id := pr_request_id p; dc_nonce := pr_nonce p; dc_display_hash := h;
        dc_mode := se_value (execution_mode (pr_action p));
        dc_capability_id := capability_id (pr_action p); dc_args_hash := pr_intent_hash p;
        dc_issued_at := iso (pr_created_at p); dc_expires_at := iso (pr_expires_at p);
        dc_instance := c_instance cfg; dc_agent_request_id := reference_at p "agent_request_id";
        dc_mission_id := reference_at p "mission_id"; dc_version := PROTOCOL_VERSION_CHALLENGE |}.

Definition raising {A} (r : result pyexc A) : M A := fun s => (s, map_err (fun _ => Raised) r).

Definition get_operator_challenge o (id : string) (peer : PeerCredentials) : M (dict json) :=
  run! require_operator_reader peer;
  do! p <- fetch o id;
  run! audit_expired o id;
  run! o_guard (pending_state (pr_state p)) "PROPOSAL_NOT_PENDING";
  do! c <- raising (operator_challenge_for p);
  st_ret [("challenge", JObj (challenge_payload c))].

(** ** Deciding *)

(** What the caller sends: the normalized request, and its proof. *)
Record decision_request := {
  rq_id : string; rq_decision : OperatorDecision; rq_principal : string; rq_channel : string;
  rq_reason : string; rq_proof : DecisionProof;
}.

Definition parse_decision (v : string) : M OperatorDecision :=
  if String.eqb (upper v) "ACCEPT" then st_ret D_ACCEPT
  else if String.eqb (upper v) "DECLINE" then st_ret D_DECLINE
  else o_raise "INVALID_OPERATOR_DECISION".

Definition proof_exn (e : pyexc) : cp_exn :=
  match e with
  | ValueError | KeyError | TypeError => ControlPlaneError "INVALID_OPERATOR_PROOF"
  | _ => Raised
  end.

(** The part of [decide_operator_proposal] before the lock: the arguments, the
    enrollment and the signature. *)
Definition check_request (id decision principal_id channel reason : string)
    (peer : PeerCredentials) (proof : dict json) : M decision_request :=
  do! principal <- lift (check_identifier principal_id);
  do! channel <- lift (check_identifier channel);
  do! reason <- lift (check_reason reason);
  do! d <- parse_decision decision;
  do! pf <- (fun s => (s, map_err proof_exn (DecisionProof_from_dict proof)));
  run! o_guard (String.eqb (dp_decision pf) (OperatorDecision_value d))
    "OPERATOR_PROOF_DECISION_MISMATCH";
  do! g <- st_get reg;
  match registry_active g (dp_enrollment_id pf) with
  | None => o_raise "PERMISSION_DENIED"
  | Some r =>
      run! o_guard (py_eqb (JInt (uid peer)) (er_uid r)) "PERMISSION_DENIED";
      do! text <- raising (canonical_text (proof_payload pf));
      run! o_guard (verify_b64 (er_pem r) text (dp_signature pf)) "PERMISSION_DENIED";
      st_ret {| rq_id := id; rq_decision := d; rq_principal := principal; rq_channel := channel;
                rq_reason := reason; rq_proof := pf |}
  end.

(** Every field but the version must be the live proposal's. *)
Definition same_challenge (expected got : DecisionChallenge) : bool :=
  forallb (fun kv => String.eqb kv.1 "protocol_version"
                     || String.eqb (default "" (dget (challenge_fields got) kv.1)) kv.2)
    (challenge_fields expected).

(** [_require_decided_within_window] *)
Definition require_decided_within_window (pf : DecisionProof) p : M unit :=
  match parse_default_utc (dp_decided_at pf) with
  | None => o_raise "INVALID_OPERATOR_PROOF"
  | Some d =>
      run! o_guard (negb (dt_lt d (dt_add (pr_created_at p) (-60000000)))) "INVALID_OPERATOR_PROOF";
      o_guard (negb (dt_lt (pr_expires_at p) d)) "PROPOSAL_EXPIRED"
  end.

(** The checks of a pending proposal against the proof. *)
Definition check_pending o (q : decision_request) p : M unit :=
  let pf := rq_proof q in
  do! expected <- raising (operator_challenge_for p);
  run! o_guard (same_challenge expected (dp_challenge pf)) "OPERATOR_PROOF_CHALLENGE_MISMATCH";
  run! o_guard (String.eqb (dc_nonce (dp_challenge pf)) (pr_nonce p)) "PROPOSAL_CHALLENGE_MISMATCH";
  run! require_decided_within_window pf p;
  match action_intent_hash (pr_action p) with
  | None => st_raise Raised
  | Some h =>
      if String.eqb h (pr_intent_hash p) then st_ret tt
      else run! invalidate o (pr_request_id p) "PROPOSAL_MUTATED"
                  "Stored action changed after proposal creation";
           o_raise "PROPOSAL_MUTATED"
  end.

(** [_finalize_decision] *)
Definition unsigned_receipt (q : decision_request) p (display_hash : string) : DecisionReceipt :=
  {| dr_proposal_id := pr_request_id p; dr_decision := dp_decision (rq_proof q);
     dr_enrollment_id := dp_enrollment_id (rq_proof q); dr_principal := rq_principal q;
     dr_method := dp_method (rq_proof q); dr_nonce := pr_nonce p;
     dr_decided_at := dp_decided_at (rq_proof q); dr_expires_at := iso (pr_expires_at p);
     dr_instance := c_instance cfg; dr_key_id := key_id_of ident;
     dr_agent_request_id := reference_at p "agent_request_id";
     dr_mission_id := reference_at p "mission_id";
     dr_mode := se_value (execution_mode (pr_action p));
     dr_capability_id := capability_id (pr_action p); dr_args_hash := pr_intent_hash p;
     dr_display_hash := display_hash; dr_signature := "";
     dr_version := PROTOCOL_VERSION_RECEIPT |}.

Definition finalize_decision o (q : decision_request) p : M DecisionReceipt :=
  run! of_registry (registry_burn (o_save o) (pr_nonce p));
  do! r <- raising (let* h := proposal_display_hash p in
                    sign_receipt (di_key ident) (unsigned_receipt q p h));
  run! assign (with_receipt (DecisionReceipt_to_dict r)) (rq_id q);
  do! id <- raising (receipt_id r);
  run! append_operator_event o "OPERATOR_DECISION_RECEIPT_ISSUED" (rq_id q)
    [("receipt_id", JStr id); ("decision", JStr (dp_decision (rq_proof q)))];
  st_ret r.

Definition with_receipt_dict (d : dict json) (r : DecisionReceipt) : dict json :=
  dset d "decision_receipt" (JObj (DecisionReceipt_to_dict r)).

Definition decision_change (q : decision_request) : change :=
  {| ch_principal := Some (rq_principal q); ch_channel := Some (rq_channel q);
     ch_reason := Some (rq_reason q); ch_code := None; ch_message := None |}.

Definition decline o (q : decision_request) p : M (dict json) :=
  run! move o (rq_id q) P_DECLINED (decision_change q);
  run! append_operator_event o "OPERATOR_PROPOSAL_DECLINED" (rq_id q) [];
  do! r <- finalize_decision o q p;
  do! d <- submission_result o (rq_id q);
  st_ret (with_receipt_dict d r).

(** The first part of the [try]: the proposal is accepted and, if need be, the
    daemon armed; whether this decision armed it. *)
Definition accept_and_arm o (q : decision_request) : M bool :=
  run! move o (rq_id q) P_ACCEPTED (decision_change q);
  run! append_operator_event o "OPERATOR_PROPOSAL_ACCEPTED" (rq_id q) [];
  do! armed <- lift (st_get (fun b => bool_decide (supervision b = ARMED)));
  if armed : bool then st_ret false
  else
    run! lift (arm_core cfg (call o 2) ("Operator accepted proposal " +:+ rq_id q)
                 {| pid := o_pid o; uid := c_euid cfg; gid := o_gid o |});
    st_ret true.

Definition float_min (x y : pyfloat) : pyfloat := if float_lt y x then y else x.

(** [min(60.0, max(1.0, (expires_at - utc_now()).total_seconds()))] *)
Definition decision_permit_ttl (now : datetime) p : pyfloat :=
  float_min (Fin 60 0) (float_max (Fin 1 0) (Fin (us (pr_expires_at p) - us now) (-6))).

Definition approval_context (q : decision_request) p : dict json :=
  [("proposal_request_id", JStr (pr_request_id p));
   ("action_intent_hash", JStr (pr_intent_hash p)); ("decision_channel", JStr (rq_channel q));
   ("operator_principal", JStr (rq_principal q));
   ("operator_enrollment_id", JStr (dp_enrollment_id (rq_proof q)));
   ("human_confirmation_method", JStr (dp_method (rq_proof q)));
   ("decided_at", utc_iso_opt (pr_decided_at p)); ("via", JStr "operator_decision")].

(** The rest of the [try]: permit, request, SUBMITTED. The result is the
    ticket. *)
Definition accept_and_submit o (q : decision_request) : M (dict json) :=
  do! p <- proposal (rq_id q);
  do! issued <- lift (issue_permit_core cfg (call o 3) (pr_action p) (rq_principal q)
                        (uid (pr_origin p)) (decision_permit_ttl (clock (call o 0) 3) p) (rq_reason q)
                        {| pid := o_pid o; uid := c_euid cfg; gid := o_gid o |}
                        (approval_context q p));
  run! move o (rq_id q) P_PERMIT_ISSUED change_none;
  run! append_operator_event o "OPERATOR_PROPOSAL_PERMIT_ISSUED" (rq_id q)
    [("permit_id", JStr (p_permit_id issued.1))];
  do! x <- raising (ActionEnvelope_from_dict (clock (call o 4) 9) (fresh_id (call o 4)) issued.2);
  do! ticket <- lift (request_action cfg (call o 4) x (pr_origin p));
  run! move o (rq_id q) P_SUBMITTED change_none;
  run! append_operator_event o "OPERATOR_PROPOSAL_SUBMITTED" (rq_id q)
    [("action_id", JStr (action_id (pr_action p)))];
  st_ret ticket.

(** [self.permits.revoke_session(...)]; a failure is suppressed. *)
Definition revoke_failed_session o (session : string) : M unit :=
  lift (fun b => (set_pa (revoke_session (append_env (call o 5) "PERMIT_REVOKED") (pa b) session
                            "operator_proposal_submission_failed").1 b, Ok tt)).

(** The [except] of the decision: revoke, invalidate, disarm, re-raise. *)
Definition exn_code (e : cp_exn) : string :=
  match e with ControlPlaneError code => code | Raised => "PROPOSAL_SUBMISSION_FAILED" end.

Definition roll_back {A} o (q : decision_request) (session : string) (armed : bool) (e : cp_exn)
  : M A :=
  do! submitted <- st_get (fun s => bool_decide (state_of s (rq_id q) = Some P_SUBMITTED));
  run! revoke_failed_session o session;
  run! st_suppress (invalidate o (rq_id q) (exn_code e) (error_text o e));
  run! (if armed || submitted then
          st_suppress (do! _ <- lift (disarm_core cfg (call o 6)
                                        ("Rollback after proposal " +:+ rq_id q +:+ " failed")
                                        {| pid := o_pid o; uid := c_euid cfg; gid := o_gid o |});
                       st_ret tt)
        else st_ret tt);
  st_raise (match e with ControlPlaneError _ => e
                       | Raised => ControlPlaneError "PROPOSAL_SUBMISSION_FAILED" end).

(** The session must cover the action; otherwise the proposal is INVALIDATED. *)
Definition require_session o (q : decision_request) p : M unit :=
  catching (do! _ <- lift (of_session (fun m => require_action (mono (call o 0) 1) m (pr_action p)
                                                  (pr_origin p))); st_ret tt)
    (fun code => run! invalidate o (rq_id q) code (error_text o (ControlPlaneError code));
                 o_raise code).

Definition submit_accepted o (q : decision_request) p : M (dict json) :=
  run! require_session o q p;
  let session := session_id (pr_action p) in
  do! armed <- st_try (accept_and_arm o q) (roll_back o q session false);
  st_try (accept_and_submit o q) (roll_back o q session armed).

Definition accept o (q : decision_request) p : M (dict json) :=
  do! ticket <- submit_accepted o q p;
  do! r <- finalize_decision o q p;
  do! d <- submission_result o (rq_id q);
  st_ret (with_receipt_dict (dset d "action" (JObj ticket)) r).

(** The part under [_operator_decision_lock]. *)
Definition decide_locked o (q : decision_request) : M (dict json) :=
  do! p <- fetch o (rq_id q);
  run! o_guard (String.eqb (pr_instance p) (c_instance cfg)) "PROPOSAL_DAEMON_GENERATION_MISMATCH";
  if dispatched_state (pr_state p) then
    match rq_decision q with
    | D_ACCEPT => run! synchronize o (rq_id q); submission_result o (rq_id q)
    | D_DECLINE => o_raise "PROPOSAL_ALREADY_DECIDED"
    end
  else if bool_decide (pr_state p = P_DECLINED) then
    match rq_decision q with
    | D_DECLINE => submission_result o (rq_id q)
    | D_ACCEPT => o_raise "PROPOSAL_ALREADY_DECIDED"
    end
  else
    run! o_guard (pending_state (pr_state p)) "PROPOSAL_NOT_PENDING";
    run! check_pending o q p;
    match rq_decision q with
    | D_DECLINE => decline o q p
    | D_ACCEPT => accept o q p
    end.

Definition decide_operator_proposal o (id decision principal_id channel reason : string)
    (peer : PeerCredentials) (proof : dict json) : M (dict json) :=
  do! q <- check_request id decision principal_id channel reason peer proof;
  decide_locked o q.

(** ** Starting on a ledger *)

(** [_invalidate_previous_generation_operator_proposals]: the last state the
    ledger tells of each proposal. *)
Definition told_state (d : dict json) : option string :=
  match dget d "state" with
  | Some (JStr st) => Some st
  | _ => d ← dget d "proposal" ≫= as_obj; dget d "state" ≫= as_str
  end.

Definition latest_states (es : list entry) : dict (string * dict json) :=
  foldl (fun m e => match told_state (en_payload e) with
                    | Some st => dset m (en_id e) (st, en_payload e)
                    | None => m
                    end) [] es.

Definition invalidatable (st : string) : bool :=
  bool_decide (st ∈ ["CREATED"; "PRESENTED"; "ACCEPTED"; "PERMIT_ISSUED"]).

(** [payload.get("action_id") or payload["proposal"].get("action_id")] *)
Definition told_action (d : dict json) : json :=
  let direct := get_default d "action_id" JNull in
  if truthy direct then direct
  else match dget d "proposal" with
       | Some (JObj q) => get_default q "action_id" JNull
       | _ => JNull
       end.

Definition restarted_payload (id : string) (d : dict json) : dict json :=
  [("request_id", JStr id); ("action_id", told_action d);
   ("state", JStr (ProposalState_value P_INVALIDATED));
   ("failure_code", JStr "PROPOSAL_DAEMON_RESTARTED");
   ("failure_message",
     JStr "Pending operator decision was invalidated by daemon generation change");
   ("daemon_instance_id", JStr (c_instance cfg))].

Fixpoint close_each (w : io Env) (l : L) (items : dict (string * dict json))
  : result restore_exn L :=
  match items with
  | [] => Ok l
  | (id, (st, d)) :: rest =>
      if invalidatable st then
        let '(l, ok) := log_append (append_env w "OPERATOR_PROPOSAL_INVALIDATED" id) l
          {| en_type := "OPERATOR_PROPOSAL_INVALIDATED"; en_kind := "OPERATOR_PROPOSAL";
             en_id := id; en_payload := restarted_payload id d |} in
        if ok : bool then close_each w l rest else Err Integrity
      else close_each w l rest
  end.

Definition close_previous_proposals (w : io Env) (l : L) : result restore_exn L :=
  let '(l, es) := log_read l "OPERATOR_PROPOSAL" in
  let* es := of_option es Integrity in
  close_each w l (latest_states es).

(** [__init__] with a ledger and a state directory. *)
Definition oplane_restore (w : io Env) (g : ActionGateway X) (l : L) (capacity : Z)
    (file : option (Z * option json)) : result restore_exn oplane :=
  let* q := map_err (fun _ => Integrity) (store_new capacity) in
  let* r := map_err (fun _ => Integrity) (registry_open true file) in
  let* b := plane_restore cfg w g l in
  let* l := of_option (log_of b) Integrity in
  let* l := close_previous_proposals w l in
  Ok {| base := set_pa {| tables := tables (pa b); ledger := Some l |} b; props := q; reg := r |}.
End Operator.
