(* ===== verification/Consent.v ===== *)
(** What an operator decision guarantees: the methods of Operator.v keep the
    store sound, are sequences of steps of the control plane, and move a
    proposal only forward; an accepted decision is exactly what the operator
    signed, and one that fails leaves nothing half done. *)

From S2P Require Export Operator.

(** The lifecycle of a proposal. *)
Inductive life : ProposalState -> ProposalState -> Prop :=
| life_present : life P_CREATED P_PRESENTED
| life_decide a b :
    pending_state a = true -> b ∈ [P_ACCEPTED; P_DECLINED; P_CANCELLED; P_EXPIRED] -> life a b
| life_permit : life P_ACCEPTED P_PERMIT_ISSUED
| life_submit : life P_PERMIT_ISSUED P_SUBMITTED
| life_finish : life P_SUBMITTED P_TERMINAL
| life_invalidate a : life a P_INVALIDATED.

Lemma life_terminal a b : rtc life a b -> terminal_state a = true -> terminal_state b = true.
Proof.
  induction 1 as [|a b c Hl _ IH]; [done|]. intros Ha. apply IH.
  destruct Hl as [|a b Hp| | | |a]; try done. by destruct a.
Qed.

(** A proposal that was closed without being accepted is never submitted. *)
Lemma life_refused a b : rtc life a b ->
  a ∈ [P_DECLINED; P_CANCELLED; P_EXPIRED; P_INVALIDATED] -> b = a \/ b = P_INVALIDATED.
Proof.
  intros Hl Ha. assert (Hi : forall c, rtc life P_INVALIDATED c -> c = P_INVALIDATED).
  { intros c Hc. remember P_INVALIDATED as z eqn:Ez. induction Hc as [|x y z Hxy _ IH]; [done|].
    subst. inversion Hxy; subst; try done. all: by apply IH. }
  inversion Hl as [|x y z Hxy Hyz]; subst; [by left|]. right. apply Hi.
  assert (y = P_INVALIDATED) as <-; [|done].
  destruct a; try (exfalso; clear -Ha; set_solver); by inversion Hxy.
Qed.

Section Consent.
Context {X : Type} `{EL : EventLog L Env} `{Crypto} `{Signatures}.
Context (cfg : config) (ident : DaemonIdentity).
Abbreviation plane := (plane X L).
Abbreviation oplane := (oplane X L).
Abbreviation oio := (oio Env).
Abbreviation M := (st oplane cp_exn).
Abbreviation csteps := (rtc (cstep (X := X) (L := L) cfg)).
Implicit Types (s : oplane) (o : oio) (p : OperatorProposal).

Definition find s (id : string) : option OperatorProposal := dget (ps_proposals (props s)) id.

(** The store is sound and holds proposals of authenticated peers. *)
Definition oinv s : Prop :=
  store_inv (props s) /\ forall id p, find s id = Some p -> peer_ok (pr_origin p).

(** What every method but [create_operator_proposal] does. *)
Record orel s s' : Prop := {
  or_inv : oinv s';
  or_steps : csteps (base s) (base s');
  or_live : forall id p, find s id = Some p ->
    exists p', find s' id = Some p' /\ p_evolves p p' /\ rtc life (pr_state p) (pr_state p');
  or_none : forall id, find s id = None -> find s' id = None;
}.

Lemma orel_refl s : oinv s -> orel s s.
Proof. intros Hi. constructor; [done|done| |done]. intros id p Hp. by exists p. Qed.

Lemma orel_trans a b c : orel a b -> orel b c -> orel a c.
Proof.
  intros [Hi Hs Hl Hn] [Hi' Hs' Hl' Hn']. constructor; [done|by etrans| |auto].
  intros id p Hp. destruct (Hl _ _ Hp) as (p1 & Hp1 & [He1 Ht1] & Hr1).
  destruct (Hl' _ _ Hp1) as (p2 & Hp2 & [He2 Ht2] & Hr2). exists p2.
  split_and!; [done|split; [congruence|by etrans]|by etrans].
Qed.

(** The proposal [id] is the request [q], in state [st]; all since [s0]. *)
Definition holding s0 (id : string) q (st : ProposalState) s : Prop :=
  orel s0 s /\ exists p, find s id = Some p /\ pr_state p = st /\ request_part p = q.

Lemma holding_orel s0 id q st s : holding s0 id q st s -> orel s0 s.
Proof. by intros [? _]. Qed.

Lemma orel_base s b : oinv s -> csteps (base s) b -> orel s (set_base b s).
Proof. intros Hi Hs. constructor; [done|done| |done]. intros id p Hp. by exists p. Qed.

Lemma holding_base s0 id q st s b :
  holding s0 id q st s -> csteps (base s) b -> holding s0 id q st (set_base b s).
Proof.
  intros [Ho Hp] Hs. split; [|done]. eapply orel_trans; [exact Ho|].
  apply orel_base; [by apply (or_inv _ _ Ho)|done].
Qed.

(** Assigning to one proposal. *)
Lemma orel_put s p p' :
  oinv s -> find s (pr_request_id p) = Some p -> p_evolves p p' -> proposal_ok p' ->
  rtc life (pr_state p) (pr_state p') ->
  orel s (set_props (put_proposal (props s) p') s).
Proof.
  intros [Hi Ho] Hp Hev Hok Hl. destruct (fields_of_request _ _ (proj1 Hev)) as (Hid & _).
  assert (Hf : forall id, find (set_props (put_proposal (props s) p') s) id =
    if decide (pr_request_id p = id) then Some p' else find s id).
  { intros id. unfold find. cbn. rewrite dget_dset, Hid. done. }
  assert (Horg : pr_origin p' = pr_origin p).
  { destruct Hev as [He _]. unfold request_part in He. congruence. }
  constructor.
  - split; [by eapply put_inv|]. intros id x. rewrite Hf. case_decide; [|apply Ho].
    intros [= <-]. rewrite Horg. by eapply Ho.
  - done.
  - intros id x Hx. rewrite Hf. case_decide; subst; [|by exists x].
    exists p'. rewrite Hp in Hx. by injection Hx as <-.
  - intros id. rewrite Hf. case_decide; [congruence|done].
Qed.

Lemma proposal_id s id p : oinv s -> find s id = Some p -> pr_request_id p = id /\ proposal_ok p.
Proof. intros [Hi _] Hp. by destruct (st_ok _ Hi _ _ Hp) as (? & ? & _). Qed.

Lemma holding_put s0 id q st s p p' :
  holding s0 id q st s -> find s id = Some p -> p_evolves p p' -> proposal_ok p' ->
  rtc life (pr_state p) (pr_state p') ->
  holding s0 id q (pr_state p') (set_props (put_proposal (props s) p') s).
Proof.
  intros [Ho (x & Hx & Hst & Hq)] Hp Hev Hok Hl. rewrite Hp in Hx. injection Hx as <-.
  pose proof (or_inv _ _ Ho) as Hi. destruct (proposal_id _ _ _ Hi Hp) as [Hid _].
  split.
  - eapply orel_trans; [exact Ho|]. eapply orel_put; [done| |done..]. by rewrite Hid.
  - exists p'. destruct Hev as [He _]. unfold find. cbn.
    destruct (fields_of_request _ _ He) as (-> & _). rewrite Hid, dget_dset_eq.
    split_and!; [done|done|congruence].
Qed.

(** ** Triples of the shared parts *)

Lemma runs_lift {A} s0 id q z (m : st plane cp_exn A) :
  keeps csteps m ->
  runs (holding s0 id q z) (lift m) (fun _ => holding s0 id q z) (fun _ => holding s0 id q z).
Proof.
  intros Hm s Hs. unfold lift. specialize (Hm (base s)). destruct (m (base s)) as [b [a|e]];
    by apply holding_base.
Qed.

Lemma runs_then {A B} (m : M A) (k : M B) P Q F :
  runs P m (fun _ => P) F -> runs P k Q F -> runs P (run! m; k) Q F.
Proof. intros Hm Hk. by eapply runs_bind; [exact Hm|intros ?]. Qed.

Lemma runs_from {A} (m : M A) (P P' : oplane -> Prop) Q F :
  runs P' m Q F -> (forall s, P s -> P' s) -> runs P m Q F.
Proof. intros Hm HP s Hs. by apply Hm, HP. Qed.

Lemma runs_check P b code : runs P (o_guard (X := X) (L := L) b code) (fun _ s => b = true /\ P s) (fun _ => P).
Proof. by apply runs_guard. Qed.

Lemma runs_check_then {A} P b code (k : M A) Q F :
  (b = true -> runs P k Q F) -> (forall e s, P s -> F e s) ->
  runs P (run! o_guard b code; k) Q F.
Proof.
  intros Hk HF. eapply runs_bind.
  - eapply runs_weaken; [apply (runs_check P)|done|intros ? ? Hs; exact Hs|apply HF].
  - intros u. apply runs_pre. exact Hk.
Qed.

(** Naming the held proposal. *)
Lemma runs_named {A} s0 id q z (k : OperatorProposal -> M A) Q F :
  (forall p, pr_state p = z -> request_part p = q -> runs (holding s0 id q z) (k p) Q F) ->
  runs (holding s0 id q z) (do! p <- proposal id; k p) Q F.
Proof.
  intros Hk s Hs. assert (Hs' := Hs). destruct Hs' as (_ & p & Hp & Hz & Hq).
  unfold st_bind, proposal. unfold find in Hp. rewrite Hp. cbn. by apply Hk.
Qed.

(** An append of a foreign event whose failure is recorded before anything
    else happens. *)
Lemma runs_append {A} s0 id q z w ty kind eid d (k1 k2 : M A) Q F :
  foreign_kind kind = true ->
  runs (holding s0 id q z) k1 Q F -> runs (holding s0 id q z) k2 Q F ->
  runs (holding s0 id q z)
    (do! ok <- lift (append_event w ty kind eid d);
     if ok : bool then k1 else run! lift mark_ledger_failure; k2) Q F.
Proof.
  intros Hk H1 H2 s Hs. pose proof (c_note cfg (base s) w ty kind eid d Hk) as Hc.
  unfold append_or_mark, st_bind, lift in *. destruct (append_event w ty kind eid d (base s)) as [b [ok|e]] eqn:E.
  - destruct ok; cbn in Hc |- *.
    + apply H1. apply holding_base; [done|by apply rtc_once].
    + apply (H2 (set_base (set_ledger_failed true b) s)).
      apply (holding_base _ _ _ _ s); [done|by apply rtc_once].
  - exfalso. revert E. unfold append_event. by destruct (write_event _ _ _ _ _ _).
Qed.

Lemma runs_move s0 id q z z' o c : life z z' ->
  runs (holding s0 id q z) (move o id z' c) (fun _ => holding s0 id q z') (fun _ _ => False).
Proof.
  intros Hl s Hs. assert (Hs' := Hs). destruct Hs' as (Ho & p & Hp & Hz & Hq).
  unfold move, st_bind, of_store_raw, transition. unfold find in Hp. rewrite Hp. cbn [map_err st_ret].
  destruct (proposal_id _ _ _ (or_inv _ _ Ho) Hp) as [Hid Hok].
  apply (holding_put s0 id q z s p (moved (moved_at o id z') z' c p)); try done.
  - apply lifecycle_evolves.
  - by apply moved_ok.
  - rewrite Hz. by apply rtc_once.
Qed.

Lemma runs_assign s0 id q z f :
  (forall p, p_evolves p (f p)) -> (forall p, proposal_ok p -> proposal_ok (f p)) ->
  (forall p, pr_state (f p) = pr_state p) ->
  runs (holding s0 id q z) (assign f id) (fun _ => holding s0 id q z) (fun _ _ => False).
Proof.
  intros He Ho Hst s Hs. assert (Hs' := Hs). destruct Hs' as (Hor & p & Hp & Hz & Hq).
  unfold assign, st_bind, proposal, st_set. unfold find in Hp. rewrite Hp. cbn [of_option].
  destruct (proposal_id _ _ _ (or_inv _ _ Hor) Hp) as [_ Hok].
  pose proof (holding_put s0 id q z s p (f p) Hs Hp (He p) (Ho p Hok)) as HH.
  rewrite (Hst p), Hz in HH. by apply HH.
Qed.

Lemma runs_audited s0 id q z :
  runs (holding s0 id q z) (assign audited id) (fun _ => holding s0 id q z) (fun _ _ => False).
Proof. apply runs_assign; [done|apply audited_ok|done]. Qed.

(** [_append_operator_event]: nothing but the audit count changes. *)
Lemma runs_event s0 id q z o ty extra :
  runs (holding s0 id q z) (append_operator_event o ty id extra) (fun _ => holding s0 id q z)
    (fun _ => holding s0 id q z).
Proof.
  unfold append_operator_event. eapply runs_bind; [apply runs_lift, keeps_get, _|].
  intros l. apply runs_check_then; [intros _|done]. apply runs_named. intros p _ _.
  apply runs_append; [done| |by apply runs_raise].
  eapply runs_weaken; [apply runs_audited|done|done|done].
Qed.

Lemma runs_invalidate s0 id q z o code message :
  runs (holding s0 id q z) (invalidate o id code message)
    (fun _ => holding s0 id q P_INVALIDATED) (fun _ => holding s0 id q P_INVALIDATED).
Proof.
  unfold invalidate. eapply runs_bind.
  - eapply runs_weaken; [apply runs_move, life_invalidate|done|intros ? ? Hs; exact Hs|done].
  - intros ?. apply runs_event.
Qed.

Lemma runs_audit_expired s0 id q z o :
  runs (holding s0 id q z) (audit_expired o id) (fun _ => holding s0 id q z)
    (fun _ => holding s0 id q z).
Proof.
  unfold audit_expired. apply runs_named. intros p _ _. case_match; [apply runs_event|].
  by apply runs_ret.
Qed.

Lemma keeps_status w id peer : keeps csteps (get_action_status cfg w id peer).
Proof. apply keeps_step. intros s. apply c_status. Qed.

Lemma runs_catching {A} P (m : M A) h Q F :
  runs P m Q (fun e s => P s) -> (forall code, runs P (h code) Q F) -> (forall s, P s -> F Raised s) ->
  runs P (catching m h) Q F.
Proof.
  intros Hm Hh HF. eapply runs_try; [exact Hm|]. intros [code|]; [apply Hh|].
  by apply runs_raise.
Qed.

(** [_operator_submission_result] reads only. *)
Lemma runs_submission s0 id q z o :
  runs (holding s0 id q z) (submission_result cfg o id) (fun _ => holding s0 id q z)
    (fun _ => holding s0 id q z).
Proof.
  unfold submission_result. apply runs_named. intros p _ _. cbv zeta.
  case_match; [|by apply runs_ret]. apply runs_catching; [|intros; by apply runs_ret|done].
  eapply runs_bind; [apply runs_lift, keeps_status|]. intros d. by apply runs_ret.
Qed.

Lemma runs_synchronize s0 id q z o :
  runs (holding s0 id q z) (synchronize cfg o id)
    (fun _ s => exists z', holding s0 id q z' s /\ (z' = z \/ z = P_SUBMITTED /\ z' = P_TERMINAL))
    (fun _ s => exists z', holding s0 id q z' s /\ (z' = z \/ z = P_SUBMITTED /\ z' = P_TERMINAL)).
Proof.
  unfold synchronize. apply runs_named. intros p Hz _.
  case_bool_decide as Hd; [|apply runs_ret; intros s Hs; exists z; auto].
  rewrite Hd in Hz. subst z. eapply runs_bind.
  { apply runs_catching with (Q := fun _ => holding s0 id q P_SUBMITTED).
    - eapply runs_bind; [apply runs_lift, keeps_status|]. intros d. by apply runs_ret.
    - intros code. by apply runs_ret.
    - intros s Hs. exists P_SUBMITTED. auto. }
  intros [d|]; [|apply runs_ret; intros s Hs; exists P_SUBMITTED; auto].
  destruct (done_state d); [|apply runs_ret; intros s Hs; exists P_SUBMITTED; auto].
  eapply runs_bind.
  { eapply runs_weaken; [apply runs_move, life_finish|done|intros ? ? Hs; exact Hs|done]. }
  intros ?. eapply runs_weaken; [apply runs_event|done| |]; intros ? s Hs; exists P_TERMINAL; auto.
Qed.
(** ** Reading and cancelling *)

Definition start_at s0 s : Prop := s = s0 /\ oinv s0.

Lemma start_orel s0 s : start_at s0 s -> orel s0 s.
Proof. intros [-> Hi]. by apply orel_refl. Qed.

Lemma expire_life now p : rtc life (pr_state p) (pr_state (expire now p)).
Proof.
  unfold expire. destruct (lapsed now p) eqn:Hl; [|done]. apply rtc_once. simpl.
  unfold lapsed in Hl. apply andb_true_iff in Hl as [Hl _]. apply life_decide; [done|set_solver].
Qed.

Lemma runs_fetch s0 o id :
  runs (start_at s0) (fetch o id)
    (fun p s => (find s id = Some p /\
                 exists p0, find s0 id = Some p0 /\ p = expire (clock (call o 0) 0) p0) /\
                holding s0 id (request_part p) (pr_state p) s)
    (fun _ s => s = s0 /\ orel s0 s /\ find s0 id = None).
Proof.
  intros s [-> Hi]. unfold fetch, of_store, get_proposal.
  destruct (dget (ps_proposals (props s0)) id) as [p|] eqn:Hp; cbn [map_err].
  2: { assert (set_props (props s0) s0 = s0) as -> by by destruct s0.
       split; [done|]. split; [by apply orel_refl|done]. }
  set (p' := expire (clock (call o 0) 0) p).
  destruct (proposal_id _ _ _ Hi Hp) as [Hid Hok].
  assert (Hh : holding s0 id (request_part p) (pr_state p') (set_props (put_proposal (props s0) p') s0)).
  { eapply holding_put; [|exact Hp| | |apply expire_life].
    - split; [by apply orel_refl|]. by exists p.
    - apply expire_evolves.
    - by apply expire_ok. }
  assert (Hq : request_part p' = request_part p) by apply expire_evolves.
  split; [|by rewrite Hq]. assert (Hh' := Hh). destruct Hh' as (_ & x & Hx & _).
  split; [|by exists p]. unfold find. cbn.
  destruct (fields_of_request _ _ Hq) as (-> & _). by rewrite Hid, dget_dset_eq.
Qed.

(** What a handler keeps, whatever it returns. *)
Abbreviation keeping s0 m :=
  (runs (start_at s0) m (fun _ s => orel s0 s) (fun _ s => orel s0 s)) (only parsing).

Lemma runs_reader s0 id q z p peer :
  runs (holding s0 id q z) (require_proposal_reader cfg p peer) (fun _ => holding s0 id q z)
    (fun _ => holding s0 id q z).
Proof. by apply runs_guard. Qed.

Lemma holding_weak s0 id q z s : holding s0 id q z s -> orel s0 s.
Proof. by intros []. Qed.

Lemma runs_fetched {A} s0 o id (k : OperatorProposal -> M A) :
  (forall p p0, find s0 id = Some p0 -> p = expire (clock (call o 0) 0) p0 ->
     runs (holding s0 id (request_part p) (pr_state p)) (k p) (fun _ s => orel s0 s)
       (fun _ s => orel s0 s)) ->
  keeping s0 (do! p <- fetch o id; k p).
Proof.
  intros Hk. eapply runs_bind.
  - eapply runs_weaken; [apply runs_fetch|done|intros ? ? Hs; exact Hs|by intros ? ? (_ & ? & _)].
  - intros p s ((_ & p0 & Hp0 & He) & Hs). exact (Hk p p0 Hp0 He s Hs).
Qed.

Lemma keeping_get s0 o id peer : keeping s0 (get_operator_proposal cfg o id peer).
Proof.
  unfold get_operator_proposal. apply runs_fetched. intros p p0 _ _.
  apply runs_then.
  { eapply runs_weaken; [apply runs_reader|done|done|by intros ? ? []]. }
  apply runs_then.
  { eapply runs_weaken; [apply runs_audit_expired|done|done|by intros ? ? []]. }
  eapply runs_bind.
  { eapply runs_weaken; [apply runs_synchronize|done|intros ? ? Hs; exact Hs|].
    by intros ? ? (z & [] & _). }
  intros ?. intros s (z & Hs & _). destruct Hs as (Ho & x & Hx & _).
  unfold st_bind, proposal. unfold find in Hx. by rewrite Hx.
Qed.

Lemma keeps_session_event w ty x extra : keeps csteps (append_session_event w ty x extra).
Proof. by apply steps_note. Qed.

Lemma runs_running s0 :
  runs (start_at s0) (lift require_running) (fun _ => start_at s0) (fun _ s => orel s0 s).
Proof.
  intros s [-> Hi]. unfold lift. rewrite require_running_eq.
  assert (set_base (base s0) s0 = s0) as -> by by destruct s0.
  destruct (running (base s0) && _); [done|by apply orel_refl].
Qed.

Lemma keeping_cancel s0 o id peer : keeping s0 (cancel_operator_proposal cfg o id peer).
Proof.
  unfold cancel_operator_proposal. apply runs_then; [apply runs_running|].
  apply runs_fetched. intros p p0 _ _.
  apply runs_then.
  { eapply runs_weaken; [apply runs_reader|done|done|by intros ? ? []]. }
  apply runs_then.
  { eapply runs_weaken; [apply runs_audit_expired|done|done|by intros ? ? []]. }
  case_bool_decide as Hc.
  { eapply runs_weaken; [apply runs_submission|done|by intros ? ? []|by intros ? ? []]. }
  apply runs_check_then; [intros Hp|by intros ? ? []].
  eapply runs_bind.
  { eapply runs_weaken; [apply (runs_move s0 id (request_part p) (pr_state p) P_CANCELLED)|done|intros ? ? Hs; exact Hs|done].
    apply life_decide; [done|set_solver]. }
  intros ?. eapply runs_bind.
  { eapply runs_weaken; [apply runs_event|done|intros ? ? Hs; exact Hs|by intros ? ? []]. }
  intros ?. eapply runs_bind.
  { apply runs_catching with (Q := fun _ => holding s0 id (request_part p) P_CANCELLED).
    - eapply runs_bind; [apply runs_lift, keeps_session; intros m; apply s_close|].
      intros x. apply runs_lift, keeps_session_event.
    - intros code. by apply runs_ret.
    - by intros ? []. }
  intros ?. eapply runs_weaken; [apply runs_submission|done|by intros ? ? []|by intros ? ? []].
Qed.
(** ** Listing: every proposal may move *)

Lemma runs_any {A} s0 id (k : OperatorProposal -> M A) :
  (forall q z, runs (holding s0 id q z) (do! p <- proposal id; k p) (fun _ => orel s0)
                 (fun _ => orel s0)) ->
  runs (orel s0) (do! p <- proposal id; k p) (fun _ => orel s0) (fun _ => orel s0).
Proof.
  intros Hk s Ho. destruct (find s id) as [p|] eqn:Hp.
  - apply (Hk (request_part p) (pr_state p)). split; [done|]. by exists p.
  - unfold st_bind, proposal. unfold find in Hp. by rewrite Hp.
Qed.

Lemma orel_expire_all s now : oinv s -> orel s (set_props (expire_all now (props s)) s).
Proof.
  intros [Hi Ho].
  assert (Hf : forall id, find (set_props (expire_all now (props s)) s) id = expire now <$> find s id).
  { intros id. unfold find. cbn. apply dget_map_vals. }
  constructor.
  - split; [by apply expire_all_inv|]. intros id p. rewrite Hf. intros (p0 & Hp0 & ->)%fmap_Some.
    assert (pr_origin (expire now p0) = pr_origin p0) as ->; [|by eapply Ho].
    pose proof (proj1 (expire_evolves now p0)) as He. unfold request_part in He. congruence.
  - done.
  - intros id p Hp. rewrite Hf, Hp. eexists. split; [done|]. split; [apply expire_evolves|apply expire_life].
  - intros id Hn. by rewrite Hf, Hn.
Qed.

Lemma runs_present s0 o id :
  runs (orel s0) (present o id) (fun _ => orel s0) (fun _ => orel s0).
Proof.
  unfold present. apply runs_any. intros q z. apply runs_named. intros p Hz _.
  case_bool_decide as Hd; [|by apply runs_ret; intros ? []]. rewrite Hd in Hz. subst z.
  unfold show. eapply runs_bind.
  { eapply runs_weaken; [apply runs_move, life_present|done|intros ? ? Hs; exact Hs|done]. }
  intros ?. eapply runs_weaken; [apply runs_event|done|by intros ? ? []|by intros ? ? []].
Qed.

Lemma runs_audit_any s0 o id :
  runs (orel s0) (audit_expired o id) (fun _ => orel s0) (fun _ => orel s0).
Proof.
  unfold audit_expired. apply runs_any. intros q z.
  eapply runs_weaken; [apply runs_audit_expired|done|by intros ? ? []|by intros ? ? []].
Qed.

Lemma runs_dicts s0 ids :
  runs (orel s0) (dicts_of ids) (fun _ => orel s0) (fun _ => orel s0).
Proof.
  induction ids as [|id ids IH]; simpl; [by apply runs_ret|].
  apply runs_any. intros q z. apply runs_named. intros p _ _.
  apply (runs_from _ _ (orel s0)); [|apply holding_weak].
  eapply runs_bind; [exact IH|]. intros l. by apply runs_ret.
Qed.

Lemma keeping_list s0 o peer : keeping s0 (list_pending_operator_proposals cfg o peer).
Proof.
  unfold list_pending_operator_proposals.
  apply (runs_from _ _ (orel s0)); [|apply start_orel].
  assert (Hexp : forall now (g : OperatorProposalStore -> list string),
    runs (orel s0) (of_store (fun q => let '(q, l) := (expire_all now q, g (expire_all now q)) in
                                      (q, Ok l))) (fun _ => orel s0) (fun _ => orel s0)).
  { intros now g s Ho. unfold of_store. cbn. eapply orel_trans; [exact Ho|].
    by apply orel_expire_all, (or_inv _ _ Ho). }
  apply runs_then.
  { unfold require_operator_reader. eapply runs_bind; [by apply runs_get with (Q := fun _ => orel s0)|].
    intros g. by apply runs_guard. }
  eapply runs_bind.
  { apply (Hexp (clock (call o 0) 0) (fun q => map pr_request_id
      (base.filter (fun p => pending_state (pr_state p) = true) (dvals (ps_proposals q))))). }
  intros pending. eapply runs_bind.
  { apply (Hexp (clock (call o 0) 2) (fun q => map pr_request_id (dvals (ps_proposals q)))). }
  intros everything.
  apply runs_then; [apply runs_each; intros id; apply runs_audit_any|].
  apply runs_then; [apply runs_each; intros id; apply runs_present|].
  eapply runs_bind; [apply runs_dicts|]. intros l. by apply runs_ret.
Qed.

(** Enrollments and challenges. *)
Lemma runs_registry s0 {A} (m : st OperatorRegistry reg_exn A) :
  runs (orel s0) (of_registry m) (fun _ => orel s0) (fun _ => orel s0).
Proof.
  intros s Ho. unfold of_registry. destruct (m (reg s)) as [g [a|e]]; cbn;
    (eapply orel_trans; [exact Ho|]; constructor; [apply (or_inv _ _ Ho)|done| |done];
     intros id p Hp; by exists p).
Qed.

Lemma runs_lift_any s0 {A} (m : st plane cp_exn A) :
  keeps csteps m -> runs (orel s0) (lift m) (fun _ => orel s0) (fun _ => orel s0).
Proof.
  intros Hm s Ho. unfold lift. specialize (Hm (base s)). destruct (m (base s)) as [b [a|e]];
    (eapply orel_trans; [exact Ho|]; by apply orel_base; [apply (or_inv _ _ Ho)|]).
Qed.

Lemma runs_enrollment_event s0 o ty r :
  runs (orel s0) (append_enrollment_event o ty r) (fun _ => orel s0) (fun _ => orel s0).
Proof.
  intros s Ho. unfold append_enrollment_event.
  pose proof (c_note cfg (base s) (call o 0) ty "OPERATOR_ENROLLMENT" (er_id r)
    [("enrollment", JObj (EnrollmentRecord_public_dict r))] eq_refl) as Hc.
  unfold append_or_mark, st_bind, lift in *.
  destruct (append_event _ _ _ _ _ (base s)) as [b [ok|e]] eqn:E.
  - destruct ok; cbn in Hc |- *; (eapply orel_trans; [exact Ho|]).
    + apply orel_base; [apply (or_inv _ _ Ho)|by apply rtc_once].
    + apply (orel_base s (set_ledger_failed true b)); [apply (or_inv _ _ Ho)|by apply rtc_once].
  - exfalso. revert E. unfold append_event. by destruct (write_event _ _ _ _ _ _).
Qed.

Lemma keeps_identifier v : keeps csteps (check_identifier v).
Proof. unfold check_identifier. keeps_go. Qed.
Lemma keeps_reason v : keeps csteps (check_reason v).
Proof. unfold check_reason. keeps_go. Qed.
Lemma keeps_uid peer : keeps csteps (require_daemon_uid (X := X) (L := L) cfg peer).
Proof. unfold require_daemon_uid. keeps_go. Qed.

Lemma keeping_register s0 o id pem u purpose peer :
  keeping s0 (register_operator_enrollment cfg o id pem u purpose peer).
Proof.
  unfold register_operator_enrollment.
  apply (runs_from _ _ (orel s0)); [|apply start_orel].
  apply runs_then; [apply runs_lift_any, keeps_uid|].
  eapply runs_bind; [apply runs_lift_any, keeps_identifier|]. intros id'.
  apply runs_check_then; [intros _|done].
  eapply runs_bind; [apply runs_registry|]. intros r.
  apply runs_then; [apply runs_enrollment_event|]. by apply runs_ret.
Qed.

Lemma keeping_revoke s0 o id peer : keeping s0 (revoke_operator_enrollment cfg o id peer).
Proof.
  unfold revoke_operator_enrollment.
  apply (runs_from _ _ (orel s0)); [|apply start_orel].
  apply runs_then; [apply runs_lift_any, keeps_uid|].
  eapply runs_bind; [apply runs_lift_any, keeps_identifier|]. intros id'.
  eapply runs_bind; [apply runs_registry|]. intros r.
  apply runs_then; [apply runs_enrollment_event|]. by apply runs_ret.
Qed.

(** ** Deciding *)

(** States a proposal only passes through while it is decided. *)
Definition half (z : ProposalState) : bool :=
  match z with P_ACCEPTED | P_PERMIT_ISSUED => true | _ => false end.

(** Clocks and the permit's expiry are times Python can represent. *)
Definition world_ok o : Prop :=
  (forall n, dt_wf (clock (call o 3) n)) /\
  (forall n t, 1000000 <= t <= 60000000 -> dt_wf (dt_add (clock (call o 3) n) t)).

Lemma permit_ttl_bounds now p : 1000000 <= float_us (decision_permit_ttl now p) <= 60000000.
Proof.
  unfold decision_permit_ttl. set (d := us (pr_expires_at p) - us now).
  assert (H1 : float_lt (Fin 1 0) (Fin d (-6)) = (1000000 <? d)).
  { unfold float_lt, float_cmp, dec_compare. change (10 ^ _) with 1000000 at 1.
    change (10 ^ (-6 - _)) with 1. rewrite Z.mul_1_r. unfold Z.ltb. by destruct (_ ?= _). }
  assert (H2 : float_lt (Fin d (-6)) (Fin 60 0) = (d <? 60000000)).
  { unfold float_lt, float_cmp, dec_compare. change (10 ^ (-6 - _)) with 1.
    change (60 * 10 ^ _) with 60000000. rewrite Z.mul_1_r. unfold Z.ltb. by destruct (_ ?= _). }
  assert (Hu : float_us (Fin d (-6)) = d) by apply Z.mul_1_r.
  unfold float_max, float_min. rewrite H1. destruct (1000000 <? d) eqn:E1; breflect.
  - assert (H3 : float_lt (Fin d (-6)) (Fin 60 0) = (d <? 60000000)) by done.
    rewrite H3. destruct (d <? 60000000) eqn:E2; breflect; [rewrite Hu; lia|].
    change (float_us (Fin 60 0)) with 60000000. lia.
  - change (float_lt (Fin 1 0) (Fin 60 0)) with true. cbn iota.
    change (float_us (Fin 1 0)) with 1000000. lia.
Qed.

Lemma runs_raising {A} P (r : result pyexc A) :
  runs P (raising (X := X) (L := L) r) (fun a s => r = Ok a /\ P s) (fun _ => P).
Proof. intros s Hs. unfold raising. by destruct r. Qed.

Lemma runs_window s0 id q z pf p :
  runs (holding s0 id q z) (require_decided_within_window pf p) (fun _ => holding s0 id q z)
    (fun _ => holding s0 id q z).
Proof.
  unfold require_decided_within_window. case_match; [|by apply runs_raise].
  apply runs_check_then; [intros _|done]. by apply runs_guard.
Qed.

(** Where an unsuccessful check leaves the proposal. *)
Definition kept s0 id q z s : Prop := holding s0 id q z s \/ holding s0 id q P_INVALIDATED s.

Lemma runs_check_pending s0 id q z o rq p :
  pr_request_id p = id ->
  runs (holding s0 id q z) (check_pending cfg o rq p) (fun _ => holding s0 id q z)
    (fun _ => kept s0 id q z).
Proof.
  intros Hid. unfold check_pending. eapply runs_bind.
  { eapply runs_weaken; [apply runs_raising|done|intros ? ? Hs; exact Hs|by left]. }
  intros expected. apply runs_pre. intros _.
  apply runs_check_then; [intros _|by left]. apply runs_check_then; [intros _|by left].
  apply runs_then; [eapply runs_weaken; [apply runs_window|done|done|by left]|].
  case_match; [|apply runs_raise; by left]. case_match; [by apply runs_ret|].
  rewrite Hid. eapply runs_bind.
  { eapply runs_weaken; [apply runs_invalidate|done|intros ? ? Hs; exact Hs|by right]. }
  intros ?. apply runs_raise. by right.
Qed.

Lemma runs_finalize s0 id q z o rq p :
  rq_id rq = id ->
  runs (holding s0 id q z) (finalize_decision cfg ident o rq p) (fun _ => holding s0 id q z)
    (fun _ => holding s0 id q z).
Proof.
  intros Hid. unfold finalize_decision. rewrite Hid. apply runs_then.
  { intros s [Ho Hp]. unfold of_registry. destruct (registry_burn _ _ _) as [g [a|e]];
      (split; [|exact Hp]; eapply orel_trans; [exact Ho|]; constructor;
       [apply (or_inv _ _ Ho)|done| |done]; intros i x Hx; by exists x). }
  eapply runs_bind; [apply runs_raising|]. intros r. apply runs_pre. intros _.
  eapply runs_bind.
  { eapply runs_weaken; [apply (runs_assign s0 id q z)|done|intros ? ? Hs; exact Hs|done];
      [done|apply with_receipt_ok|done]. }
  intros ?. eapply runs_bind; [apply runs_raising|]. intros i. apply runs_pre. intros _.
  apply runs_then; [apply runs_event|]. by apply runs_ret.
Qed.

Lemma runs_decline s0 id q z o rq p :
  rq_id rq = id -> pending_state z = true ->
  runs (holding s0 id q z) (decline cfg ident o rq p) (fun _ => holding s0 id q P_DECLINED)
    (fun _ => holding s0 id q P_DECLINED).
Proof.
  intros Hid Hz. unfold decline. rewrite Hid. eapply runs_bind.
  { eapply runs_weaken; [apply (runs_move s0 id q z P_DECLINED)|done|intros ? ? Hs; exact Hs|done].
    apply life_decide; [done|set_solver]. }
  intros ?. apply runs_then; [apply runs_event|].
  eapply runs_bind; [by apply runs_finalize|]. intros r.
  eapply runs_bind; [apply runs_submission|]. intros d. by apply runs_ret.
Qed.

Lemma runs_require_session s0 id q z o rq p :
  rq_id rq = id ->
  runs (holding s0 id q z) (require_session o rq p) (fun _ => holding s0 id q z)
    (fun _ => kept s0 id q z).
Proof.
  intros Hid. unfold require_session. rewrite Hid. apply runs_catching; [| |by left].
  - eapply runs_bind; [apply runs_lift, keeps_session; intros m; apply s_require|].
    intros ?. by apply runs_ret.
  - intros code. eapply runs_bind.
    { eapply runs_weaken; [apply runs_invalidate|done|intros ? ? Hs; exact Hs|by right]. }
    intros ?. apply runs_raise. by right.
Qed.

Lemma keeps_arm_core w reason peer : keeps csteps (arm_core cfg w reason peer).
Proof.
  unfold arm_core, check_reason. keeps_go; [|by apply steps_note].
  apply keeps_step. intros b. apply c_arm.
Qed.

Lemma keeps_disarm_core w reason peer : keeps csteps (disarm_core cfg w reason peer).
Proof.
  unfold disarm_core, check_reason. keeps_go; [apply steps_safety_stop| |by apply steps_note].
  apply keeps_step. intros b. apply c_disarmed.
Qed.

Lemma runs_arm s0 id q z o rq :
  rq_id rq = id -> pending_state z = true ->
  runs (holding s0 id q z) (accept_and_arm cfg o rq) (fun _ => holding s0 id q P_ACCEPTED)
    (fun _ => holding s0 id q P_ACCEPTED).
Proof.
  intros Hid Hz. unfold accept_and_arm. rewrite Hid. eapply runs_bind.
  { eapply runs_weaken; [apply (runs_move s0 id q z P_ACCEPTED)|done|intros ? ? Hs; exact Hs|done].
    apply life_decide; [done|set_solver]. }
  intros ?. apply runs_then; [apply runs_event|].
  eapply runs_bind; [apply runs_lift, keeps_get, _|]. intros armed. case_match; [by apply runs_ret|].
  apply runs_then; [apply runs_lift, keeps_arm_core|]. by apply runs_ret.
Qed.

Lemma runs_rollback {A} s0 id q z o rq session armed e :
  rq_id rq = id ->
  runs (holding s0 id q z) (roll_back (A := A) cfg o rq session armed e)
    (fun _ _ => False) (fun _ => holding s0 id q P_INVALIDATED).
Proof.
  intros Hid. unfold roll_back. rewrite Hid.
  eapply runs_bind; [by apply runs_get with (Q := fun _ => holding s0 id q z)|]. intros submitted.
  eapply (runs_bind _ _ _ (fun _ => holding s0 id q z)).
  { intros s Hs. cbn. apply holding_base; [done|]. apply rtc_once. by apply c_revoke_session. }
  intros ?. eapply runs_bind.
  { eapply runs_try; [apply runs_invalidate|]. intros ?. apply runs_ret. intros s Hs. exact Hs. }
  intros ?. apply runs_then; [|by apply runs_raise].
  case_match; [|by apply runs_ret]. apply runs_suppress.
  eapply runs_bind; [apply runs_lift, keeps_disarm_core|]. intros ?. by apply runs_ret.
Qed.

Lemma holding_request s0 id q z s : holding s0 id q z s ->
  exists p, find s id = Some p /\ pr_state p = z /\ request_part p = q /\ proposal_ok p /\
    pr_request_id p = id /\ peer_ok (pr_origin p).
Proof.
  intros (Ho & p & Hp & Hz & Hq). destruct (or_inv _ _ Ho) as [Hi Hpeer].
  destruct (st_ok _ Hi _ _ Hp) as (Hid & Hok & _). exists p. split_and!; eauto.
Qed.

(** ** Issuing a permit *)

(** A registered permit for one use of exactly this action by this user. *)
Definition permit_in (b : plane) (id : string) (a : ActionEnvelope) (h : string) (target : Z) : Prop :=
  exists q, dget (permits (tables (pa b))) id = Some q /\ p_action_intent_hash q = h /\
    p_peer_uid q = target /\ p_max_uses q = 1 /\ p_session_id q = Some (session_id a) /\
    p_body_id q = body_id a /\ p_capabilities q = [capability_id a].

Definition permit_context (principal id : string) (a : ActionEnvelope) : AuthorizationContext :=
  {| principal_id := principal; approved := true; approval_id := Some id;
     scopes := [capability_id a]; provenance := [] |}.

Lemma register_in env a (p : ExecutionPermit) audit x :
  register env a p audit = (x, Ok tt) ->
  exists q, dget (permits (tables x)) (p_permit_id p) = Some q /\ (q = p \/ permit_eqb q p = true).
Proof.
  unfold register. destruct (dget (permits (tables a)) (p_permit_id p)) as [q|] eqn:Hq.
  - destruct (match ledger a with Some _ => permit_eqb q p | None => false end) eqn:He; [|done].
    intros [= <-]. exists q. split; [done|]. right. by destruct (ledger a).
  - destruct (write_event _ _ _ _ _ _) as [l []]; intros [= <-]. exists p. cbn.
    rewrite dget_dset_eq. auto.
Qed.

Lemma issue_locked_spec w a reason principal target expires operator context b b' (p : ExecutionPermit) :
  issue_locked cfg w a reason principal target expires operator context b = (b', Ok p) ->
  (supervision b = ARMED /\ rec_required b = false /\ latched b = false /\ ledger_failed b = false) /\
  exists h, action_intent_hash a = Some h /\
    p = permit_for w a principal target expires h context /\
    permit_in b' (p_permit_id p) a h target.
Proof.
  unfold issue_locked, ControlPlane.guard. intros Hi. st_inv Hi. unfold st_get in *. simplify_eq/=. breflect.
  split; [done|].
  destruct (action_intent_hash a) as [h|]; [|done].
  destruct (permit_post_init _) as [q|] eqn:Hq; [|done]. apply post_init_same in Hq. subst q.
  destruct (register _ _ _ _) as [x [[]|]] eqn:Hr; [|done]. injection Hi as <- <-.
  exists h. split_and!; [done|done|]. apply register_in in Hr as (q & Hq & He).
  exists q. cbn. split; [exact Hq|]. destruct He as [->|He]; [done|].
  unfold permit_eqb in He. breflect.
  repeat match goal with HH : String.eqb _ _ = true |- _ => apply String.eqb_eq in HH end. done.
Qed.

Lemma issue_spec w a principal target ttl reason operator context b b' issued :
  issue_permit_core cfg w a principal target ttl reason operator context b = (b', Ok issued) ->
  exists h, action_intent_hash a = Some h /\ permit_in b' (p_permit_id issued.1) a h target /\
    issued.2 = authorized_payload a (permit_context (strip principal) (p_permit_id issued.1) a).
Proof.
  unfold issue_permit_core, require_running, check_reason, check_identifier, permit_request_ok,
    ControlPlane.guard.
  intros Hi. st_inv Hi.
  destruct (deadline_at a) as [d|] eqn:Hd; [|done]. st_inv Hi.
  match goal with HH : issue_locked _ _ _ _ _ _ _ _ _ _ = _ |- _ =>
    apply issue_locked_spec in HH as (_ & h & Hh & Hp & Hin) end.
  simplify_eq/=. eauto.
Qed.
(** ** Submitting *)

Lemma keeps_request w a peer :
  storable a -> peer_ok peer -> keeps csteps (request_action cfg w a peer).
Proof.
  intros Ha Hp. unfold request_action. keeps_go; [apply steps_admit|].
  apply keeps_step. intros b. by apply c_request.
Qed.

Definition underway (z : ProposalState) : bool :=
  match z with P_ACCEPTED | P_PERMIT_ISSUED | P_SUBMITTED => true | _ => false end.

Definition interrupted s0 id q s : Prop := exists z, holding s0 id q z s /\ underway z = true.

Lemma interrupted_at s0 id q z s :
  underway z = true -> holding s0 id q z s -> interrupted s0 id q s.
Proof. intros Hz Hs. by exists z. Qed.

(** What an authorized action decodes to. *)
Lemma authorized_is now uuid (a : ActionEnvelope) z x :
  storable a -> ActionEnvelope_from_dict now uuid (authorized_payload a z) = Ok x ->
  x = with_authorization a z /\ storable x.
Proof.
  intros Ha Hx. apply authorized_payload_decodes in Hx as ->; [|done].
  split; [done|by apply with_authorization_storable].
Qed.

Lemma runs_issue s0 id q z w a principal target ttl reason operator context :
  (forall n, dt_wf (clock w n)) -> (forall d, deadline_at a = Some d -> dt_wf d) ->
  (forall n, dt_wf (dt_add (clock w n) (float_us ttl))) ->
  runs (holding s0 id q z)
    (lift (issue_permit_core cfg w a principal target ttl reason operator context))
    (fun issued s => (exists y, issued.2 = authorized_payload a y) /\ holding s0 id q z s)
    (fun _ => holding s0 id q z).
Proof.
  intros H1 H2 H3 s Hs. pose proof (steps_issue cfg w a principal target ttl reason operator context
    H1 H2 H3 (base s)) as Hk. unfold lift.
  destruct (issue_permit_core _ _ _ _ _ _ _ _ _ (base s)) as [b [issued|e]] eqn:E; cbn in Hk.
  - split; [|by apply holding_base]. apply issue_spec in E as (h & _ & _ & ->). by eexists.
  - by apply holding_base.
Qed.

Lemma runs_given {A} (m : M A) (P : oplane -> Prop) (c : Prop) Q F :
  (forall s, P s -> c) -> (c -> runs P m Q F) -> runs P m Q F.
Proof. intros Hc Hm s Hs. exact (Hm (Hc s Hs) s Hs). Qed.

Lemma holding_static s0 id q z s : holding s0 id q z s ->
  forall p, request_part p = q ->
    pr_request_id p = id /\ storable (pr_action p) /\ peer_ok (pr_origin p).
Proof.
  intros Hs p Hp. apply holding_request in Hs as (x & _ & _ & Hx & Hok & Hid & Hpeer).
  rewrite <- Hx in Hp. unfold request_part in Hp. injection Hp as E1 E2 _ _ E3 _ _ _ _ _.
  rewrite E1, E2, E3. split_and!; [done|apply Hok|done].
Qed.

Lemma runs_submit s0 id q o rq :
  rq_id rq = id -> world_ok o ->
  runs (holding s0 id q P_ACCEPTED) (accept_and_submit cfg o rq)
    (fun _ => holding s0 id q P_SUBMITTED) (fun _ => interrupted s0 id q).
Proof.
  intros Hid [Hw1 Hw2].
  apply (runs_given _ _ (forall p, request_part p = q ->
    pr_request_id p = id /\ storable (pr_action p) /\ peer_ok (pr_origin p))).
  { intros s Hs p. exact (holding_static _ _ _ _ _ Hs p). }
  intros Hq.
  unfold accept_and_submit. rewrite Hid. apply runs_named. intros p _ Hp.
  destruct (Hq _ Hp) as (_ & Hok & Hpeer).
  eapply runs_bind.
  { eapply runs_weaken; [apply runs_issue|done|intros ? ? Hs; exact Hs|by intros ? ?; apply interrupted_at].
    - done.
    - apply Hok.
    - intros n. apply Hw2, permit_ttl_bounds. }
  intros issued. apply runs_pre. intros (y & Hy). eapply runs_bind.
  { eapply runs_weaken; [apply runs_move, life_permit|done|intros ? ? Hs; exact Hs|done]. }
  intros ?. apply runs_then.
  { eapply runs_weaken; [apply runs_event|done|done|by intros ? ?; apply interrupted_at]. }
  eapply runs_bind.
  { eapply runs_weaken; [apply runs_raising|done|intros ? ? Hs; exact Hs|by intros ? ?; apply interrupted_at]. }
  intros x. apply runs_pre. intros Hx. rewrite Hy in Hx. apply authorized_is in Hx as [-> Hst]; [|done].
  eapply runs_bind.
  { eapply runs_weaken; [by apply runs_lift, keeps_request|done|intros ? ? Hs; exact Hs|by intros ? ?; apply interrupted_at]. }
  intros ticket. eapply runs_bind.
  { eapply runs_weaken; [apply runs_move, life_submit|done|intros ? ? Hs; exact Hs|done]. }
  intros ?. apply runs_then.
  { eapply runs_weaken; [apply runs_event|done|done|by intros ? ?; apply interrupted_at]. }
  by apply runs_ret.
Qed.

Lemma runs_submit_accepted s0 id q z o rq p :
  rq_id rq = id -> pending_state z = true -> world_ok o ->
  runs (holding s0 id q z) (submit_accepted cfg o rq p) (fun _ => holding s0 id q P_SUBMITTED)
    (fun _ => kept s0 id q z).
Proof.
  intros Hid Hz Hw. unfold submit_accepted. apply runs_then; [by apply runs_require_session|].
  cbv zeta. eapply runs_bind.
  { eapply runs_try; [by apply runs_arm|]. intros e.
    eapply runs_weaken; [by apply runs_rollback|done|done|by right]. }
  intros armed. cbn beta. eapply runs_try; [by apply runs_submit|]. intros e s (z' & Hs & _).
  revert s Hs. eapply runs_weaken; [by apply runs_rollback|done|done|by right].
Qed.

Lemma runs_accept s0 id q z o rq p :
  rq_id rq = id -> pending_state z = true -> world_ok o ->
  runs (holding s0 id q z) (accept cfg ident o rq p) (fun _ => holding s0 id q P_SUBMITTED)
    (fun _ s => kept s0 id q z s \/ holding s0 id q P_SUBMITTED s).
Proof.
  intros Hid Hz Hw. unfold accept. eapply runs_bind.
  { eapply runs_weaken; [by apply runs_submit_accepted|done|intros ? ? Hs; exact Hs|by left]. }
  intros ticket. cbn beta. eapply (runs_weaken _ _ _ _ (fun _ => holding s0 id q P_SUBMITTED) _
    (fun _ => holding s0 id q P_SUBMITTED)); [|done|done|by right].
  rewrite Hid. eapply runs_bind; [by apply runs_finalize|]. intros r.
  eapply runs_bind; [apply runs_submission|]. intros d. by apply runs_ret.
Qed.

(** Where a decision leaves the proposal it is about. *)
Definition decided_from s0 id q z s : Prop := exists z', holding s0 id q z' s /\
  (z' = z \/ half z' = false).

Lemma decided_at s0 id q z z' s :
  half z' = false -> holding s0 id q z' s -> decided_from s0 id q z s.
Proof. intros Hz Hs. exists z'. auto. Qed.

Lemma decided_same s0 id q z s : holding s0 id q z s -> decided_from s0 id q z s.
Proof. intros Hs. exists z. auto. Qed.

Lemma kept_decided s0 id q z s : kept s0 id q z s -> decided_from s0 id q z s.
Proof. intros [Hs|Hs]; [by apply decided_same|by apply (decided_at _ _ _ _ P_INVALIDATED s)]. Qed.

Lemma runs_fetched_to {A} s0 o id (k : OperatorProposal -> M A) Q F :
  (forall p p0, find s0 id = Some p0 -> p = expire (clock (call o 0) 0) p0 ->
     request_part p = request_part p0 -> pr_request_id p = id ->
     runs (holding s0 id (request_part p) (pr_state p)) (k p) Q F) ->
  (forall e s, orel s0 s -> find s0 id = None -> F e s) ->
  runs (start_at s0) (do! p <- fetch o id; k p) Q F.
Proof.
  intros Hk HF. eapply runs_bind.
  - eapply runs_weaken; [apply runs_fetch|done|intros ? ? Hs; exact Hs|].
    intros e s (_ & Ho & Hn). by apply HF.
  - intros p s ((_ & p0 & Hp0 & He) & Hs). eapply (Hk p p0); try done.
    + rewrite He. apply expire_evolves.
    + eapply holding_static; [exact Hs|done].
Qed.

(** The state of the proposal once lapsed ones have expired. *)
Definition decided s0 o (id : string) s : Prop :=
  exists p0, find s0 id = Some p0 /\
    decided_from s0 id (request_part p0) (pr_state (expire (clock (call o 0) 0) p0)) s.

Lemma runs_decide_locked s0 o rq :
  world_ok o ->
  runs (start_at s0) (decide_locked cfg ident o rq) (fun _ => decided s0 o (rq_id rq))
    (fun _ s => orel s0 s /\ find s0 (rq_id rq) = None \/ decided s0 o (rq_id rq) s).
Proof.
  intros Hw. unfold decide_locked. apply runs_fetched_to; [|by left].
  intros p p0 Hp0 Hp Hq Hid.
  eapply (runs_weaken _ _ _ _ (fun _ => decided_from s0 (rq_id rq) (request_part p) (pr_state p)) _
    (fun _ => decided_from s0 (rq_id rq) (request_part p) (pr_state p))); [|done| |].
  2: { intros ? s Hs. exists p0. split; [done|]. by rewrite <- Hp, <- Hq. }
  2: { intros ? s Hs. right. exists p0. split; [done|]. by rewrite <- Hp, <- Hq. }
  apply runs_check_then; [intros _|intros ?; apply decided_same].
  destruct (dispatched_state (pr_state p)) eqn:Hd.
  { destruct (rq_decision rq); [|apply runs_raise; apply decided_same]. eapply runs_bind.
    { eapply runs_weaken; [apply runs_synchronize|done|intros ? ? Hs; exact Hs|].
      intros ? s (z & Hs & [->|[_ ->]]); [by apply decided_same|by apply (decided_at _ _ _ _ P_TERMINAL s)]. }
    intros ? s (z & Hs & Hz). revert s Hs.
    assert (Hf : forall s, holding s0 (rq_id rq) (request_part p) z s ->
      decided_from s0 (rq_id rq) (request_part p) (pr_state p) s).
    { intros s. destruct Hz as [->|[_ ->]]; [apply decided_same|by apply decided_at]. }
    eapply runs_weaken; [apply runs_submission|done|auto|auto]. }
  case_bool_decide as Hdec.
  { destruct (rq_decision rq); [apply runs_raise; apply decided_same|].
    eapply runs_weaken; [apply runs_submission|done|intros ?; apply decided_same|intros ?; apply decided_same]. }
  apply runs_check_then; [intros Hpend|intros ?; apply decided_same].
  apply runs_then.
  { eapply runs_weaken; [by apply (runs_check_pending s0 (rq_id rq) (request_part p) (pr_state p))|done|done|intros ?; apply kept_decided]. }
  destruct (rq_decision rq).
  - eapply runs_weaken; [by apply (runs_accept s0 (rq_id rq) (request_part p) (pr_state p))|done| |].
    + intros ? s. by apply decided_at.
    + intros ? s [Hs|Hs]; [by apply kept_decided|by apply (decided_at _ _ _ _ P_SUBMITTED s)].
  - eapply runs_weaken; [by apply (runs_decline s0 (rq_id rq) (request_part p) (pr_state p))|done|intros ? s; by apply decided_at|intros ? s; by apply decided_at].
Qed.
End Consent.
