(* ===== verification/Verdict.v ===== *)
(** What the operator handlers guarantee together: each, run alone, is a sequence of
    steps of the control plane that only moves proposals forward; an accepted decision
    is what an enrolled operator signed; one that fails leaves nothing half
    done; a restart closes what was pending. *)

From S2P Require Export Consent.

Section Verdict.
Context {X : Type} `{EL : EventLog L Env} `{Crypto} `{Signatures}.
Context (cfg : config) (ident : DaemonIdentity).
Abbreviation plane := (plane X L).
Abbreviation oplane := (oplane X L).
Abbreviation oio := (oio Env).
Abbreviation M := (st oplane cp_exn).
Abbreviation csteps := (rtc (cstep (X := X) (L := L) cfg)).
Implicit Types (s : oplane) (o : oio) (p : OperatorProposal).

(** ** The handlers as steps *)

(** One call of the control plane, of an operator handler, or of the store's
    [status]. A new proposal's request id is fresh. *)
Inductive ostep : oplane -> oplane -> Prop :=
| o_plane s b : cstep cfg (base s) b -> ostep s (set_base b s)
| o_create s o a display ttl peer reference :
    storable a -> peer_ok peer -> find s ("proposal_" +:+ cr_uuid (o_creation o)) = None ->
    ostep s (create_operator_proposal cfg o a display ttl peer reference s).1
| o_get s o id peer : ostep s (get_operator_proposal cfg o id peer s).1
| o_cancel s o id peer : ostep s (cancel_operator_proposal cfg o id peer s).1
| o_list s o peer : ostep s (list_pending_operator_proposals cfg o peer s).1
| o_register s o id pem u purpose peer :
    ostep s (register_operator_enrollment cfg o id pem u purpose peer s).1
| o_revoke s o id peer : ostep s (revoke_operator_enrollment cfg o id peer s).1
| o_enrollments s peer : ostep s (list_operator_enrollments cfg peer s).1
| o_challenge s o id peer : ostep s (get_operator_challenge cfg o id peer s).1
| o_decide s o id decision principal channel reason peer proof :
    world_ok o ->
    ostep s (decide_operator_proposal cfg ident o id decision principal channel reason peer proof s).1
| o_expire s now : ostep s (set_props (store_status now (props s)).1 s).

(** What happens to the proposals: each stays and moves along [life], or was
    terminal and is forgotten; a new one begins as CREATED. *)
Record advances s s' : Prop := {
  av_inv : oinv s';
  av_steps : csteps (base s) (base s');
  av_kept : forall id p p', find s id = Some p -> find s' id = Some p' ->
    p_evolves p p' /\ rtc life (pr_state p) (pr_state p');
  av_gone : forall id p, find s id = Some p -> find s' id = None ->
    terminal_state (pr_state p) = true;
  av_new : forall id p', find s id = None -> find s' id = Some p' ->
    rtc life P_CREATED (pr_state p') /\ authorization (pr_action p') = AuthorizationContext_default;
}.

Lemma orel_advances s s' : orel cfg s s' -> advances s s'.
Proof.
  intros [Hi Hs Hl Hn]. constructor; [done|done| | |].
  - intros id p p' Hp Hp'. destruct (Hl _ _ Hp) as (x & Hx & ? & ?). by simplify_eq.
  - intros id p Hp Hp'. destruct (Hl _ _ Hp) as (x & Hx & _). congruence.
  - intros id p' Hp Hp'. apply Hn in Hp. congruence.
Qed.

Lemma advances_orel a b c : advances a b -> orel cfg b c -> advances a c.
Proof.
  intros [Hi Hs Hk Hg Hn] [Hi' Hs' Hl' Hn']. constructor; [done|by etrans| | |].
  - intros id p p' Hp Hp'. destruct (find b id) as [x|] eqn:Hx.
    2: { apply Hn' in Hx. congruence. }
    destruct (Hk _ _ _ Hp Hx) as [[He Ht] Hr].
    destruct (Hl' _ _ Hx) as (y & Hy & [He' Ht'] & Hr').
    assert (y = p') as -> by congruence.
    split; [split; [by rewrite He'|by etrans]|by etrans].
  - intros id p Hp Hp'. destruct (find b id) as [x|] eqn:Hx; [|by eapply Hg].
    destruct (Hl' _ _ Hx) as (y & Hy & _). congruence.
  - intros id p' Hp Hp'. destruct (find b id) as [x|] eqn:Hx.
    2: { apply Hn' in Hx. congruence. }
    destruct (Hn _ _ Hp Hx) as [Hr Ha].
    destruct (Hl' _ _ Hx) as (y & Hy & [He _] & Hr').
    assert (y = p') as -> by congruence.
    destruct (fields_of_request _ _ He) as (_ & -> & _). split; [by etrans|done].
Qed.

(** A handler that keeps [orel] advances, whatever it returns. *)
Lemma keeping_advances {A} (m : M A) s :
  oinv s -> runs (start_at s) m (fun _ t => orel cfg s t) (fun _ t => orel cfg s t) ->
  advances s (m s).1.
Proof.
  intros Hi Hm. apply orel_advances. specialize (Hm s (conj eq_refl Hi)).
  by destruct (m s) as [s' []].
Qed.

(** ** Creating *)

Lemma runs_ex {A B} (m : M A) (P : B -> oplane -> Prop) Q F :
  (forall x, runs (P x) m Q F) -> runs (fun s => exists x, P x s) m Q F.
Proof. intros Hm s [x Hs]. exact (Hm x s Hs). Qed.

(** Eviction, and one new proposal. *)
Lemma thins_advances s q :
  oinv s -> store_inv q -> thins (props s) q -> advances s (set_props q s).
Proof.
  intros [Hi Ho] Hq Ht. constructor; [|done| | |].
  - split; [done|]. intros id p Hp. apply (Ho id). by apply (th_kept _ _ Ht).
  - intros id p p' Hp Hp'. apply (th_kept _ _ Ht) in Hp'. unfold find in Hp. simplify_eq. done.
  - intros id p. apply (th_gone _ _ Ht).
  - intros id p' Hp Hp'. apply (th_kept _ _ Ht) in Hp'. unfold find in Hp. congruence.
Qed.

Lemma add_advances s q p :
  oinv s -> thins (props s) q -> store_inv (add_proposal q p) ->
  pr_state p = P_CREATED -> authorization (pr_action p) = AuthorizationContext_default ->
  peer_ok (pr_origin p) -> find s (pr_request_id p) = None ->
  advances s (set_props (add_proposal q p) s).
Proof.
  intros [Hi Ho] Ht Hq Hst Ha Hp0 Hn.
  assert (Hf : forall id, find (set_props (add_proposal q p) s) id =
    if decide (pr_request_id p = id) then Some p else dget (ps_proposals q) id).
  { intros id. unfold find. cbn. by rewrite dget_dset. }
  constructor; [|done| | |].
  - split; [done|]. intros id x. rewrite Hf. case_decide; [congruence|].
    intros Hx. apply (Ho id). by apply (th_kept _ _ Ht).
  - intros id x x' Hx. rewrite Hf. case_decide; [congruence|]. intros Hx'.
    apply (th_kept _ _ Ht) in Hx'. unfold find in Hx. simplify_eq. done.
  - intros id x Hx. rewrite Hf. case_decide; [done|]. by apply (th_gone _ _ Ht).
  - intros id x Hx. rewrite Hf. case_decide; [intros [= <-]; by rewrite Hst|].
    intros Hx'. apply (th_kept _ _ Ht) in Hx'. unfold find in Hx. congruence.
Qed.

Lemma runs_create s o a display ttl peer reference :
  storable a -> peer_ok peer -> find s ("proposal_" +:+ cr_uuid (o_creation o)) = None ->
  runs (start_at s)
    (of_store (fun q => create_proposal (o_creation o) q a display peer (c_instance cfg) ttl reference))
    (fun p t => exists s1, advances s s1 /\ holding cfg s1 (pr_request_id p) (request_part p) (pr_state p) t)
    (fun _ t => advances s t).
Proof.
  intros Ha Hp Hf t [-> Hi]. unfold of_store.
  assert (Heq : set_props (props s) s = s) by by destruct s.
  destruct (create_proposal _ _ _ _ _ _ _ _) as [q r] eqn:E.
  pose proof (evict_terminal_spec _ (proj1 Hi)) as [Hei _].
  apply proposal_create_cases in E as (Hq & Ht & [(e & -> & Hs)|[(p & -> & -> & Hin & _ & _)|
    (p & -> & -> & Hok & _ & Hid & Hx & Hst & Horg & _)]]);
    [| | |apply Hi|done|exact Hf]; cbn [map_err].
  - destruct Hs as [->|Hs]; subst; [|by apply thins_advances].
    rewrite Heq. by apply orel_advances, orel_refl.
  - rewrite Heq. exists s. split; [by apply orel_advances, orel_refl|]. split; [by apply orel_refl|].
    by exists p.
  - assert (Hadv : advances s (set_props (add_proposal (evict_terminal (props s)) p) s)).
    { apply add_advances; [done..| | |].
      - by rewrite Hx.
      - by rewrite Horg.
      - by rewrite Hid. }
    eexists. split; [exact Hadv|]. split; [apply orel_refl, Hadv|]. exists p.
    split; [|done]. unfold find. cbn. by rewrite dget_dset_eq.
Qed.

Lemma create_advances s o a display ttl peer reference :
  oinv s -> storable a -> peer_ok peer ->
  find s ("proposal_" +:+ cr_uuid (o_creation o)) = None ->
  advances s (create_operator_proposal cfg o a display ttl peer reference s).1.
Proof.
  intros Hi Ha Hp Hf.
  assert (Hr : runs (start_at s) (create_operator_proposal cfg o a display ttl peer reference)
    (fun _ t => advances s t) (fun _ t => advances s t)).
  2: { specialize (Hr s (conj eq_refl Hi)). by destruct (create_operator_proposal _ _ _ _ _ _ _ s) as [? []]. }
  unfold create_operator_proposal. eapply runs_bind.
  { eapply runs_weaken; [apply runs_running|done|intros ? ? Hs; exact Hs|].
    intros e t. apply orel_advances. }
  intros ?. eapply (runs_bind _ _ _ (fun _ => start_at s)).
  { intros t [-> _]. unfold lift, st_get. split; [by destruct s|done]. }
  intros l. apply runs_check_then; [intros _|intros e t Ht; by apply orel_advances, start_orel].
  eapply runs_bind; [by apply runs_create|]. intros p. apply runs_ex. intros s1.
  apply runs_pre. intros Hadv. cbv zeta.
  assert (HW : forall z t, holding cfg s1 (pr_request_id p) (request_part p) z t -> advances s t).
  { intros z t [Ht _]. by eapply advances_orel. }
  destruct (negb _).
  { eapply runs_weaken; [apply runs_submission|done|intros ?; apply HW|intros ?; apply HW]. }
  eapply runs_bind.
  { eapply runs_weaken; [apply runs_lift, keeps_session; intros m; apply s_create|done|
      intros ? ? Hs; exact Hs|intros ?; apply HW]. }
  intros x. apply runs_then.
  { eapply runs_weaken; [apply runs_lift, keeps_session_event|done|done|intros ?; apply HW]. }
  apply runs_append; [done| |].
  - eapply runs_bind.
    { eapply runs_weaken; [apply runs_audited|done|intros ? ? Hs; exact Hs|done]. }
    intros ?. apply runs_named. intros p' _ _. apply runs_ret. apply HW.
  - eapply runs_bind.
    { eapply runs_weaken; [apply runs_move, life_invalidate|done|intros ? ? Hs; exact Hs|done]. }
    intros ?. apply runs_raise. apply HW.
Qed.

(** ** Requests that only read *)

Lemma keeps_lift {A} (m : st plane cp_exn A) : keeps eq m -> keeps eq (lift m).
Proof.
  intros Hm s. unfold lift. specialize (Hm (base s)). destruct (m (base s)) as [b r].
  cbn in *. subst b. by destruct s.
Qed.

Lemma keeps_raising {A} (r : result pyexc A) : keeps eq (raising (X := X) (L := L) r).
Proof. by intros s. Qed.

Ltac reads_go :=
  repeat (progress keeps_go || apply keeps_lift || apply keeps_raising ||
          match goal with |- keeps _ (st_guard _ _) => apply keeps_guard, _ end).

Lemma check_request_reads id decision principal channel reason peer proof :
  keeps eq (check_request (X := X) (L := L) id decision principal channel reason peer proof).
Proof.
  unfold check_request, parse_decision, o_guard, o_raise, check_identifier, check_reason,
    ControlPlane.guard.
  reads_go. by intros ?.
Qed.

Lemma reads_keeping {A} s (m : M A) :
  keeps eq m -> runs (start_at s) m (fun _ t => start_at s t) (fun _ t => orel cfg s t).
Proof.
  intros Hm t [-> Hi]. specialize (Hm s). destruct (m s) as [t' [a|e]]; cbn in Hm; subst t'.
  - done.
  - by apply orel_refl.
Qed.

Lemma keeping_enrollments s peer :
  runs (start_at s) (list_operator_enrollments cfg peer) (fun _ t => orel cfg s t)
    (fun _ t => orel cfg s t).
Proof.
  eapply runs_weaken; [apply reads_keeping|done|intros ?; apply start_orel|done].
  unfold list_operator_enrollments, require_daemon_uid, ControlPlane.guard.
  reads_go.
Qed.

Lemma keeping_challenge s o id peer :
  runs (start_at s) (get_operator_challenge cfg o id peer) (fun _ t => orel cfg s t)
    (fun _ t => orel cfg s t).
Proof.
  unfold get_operator_challenge. eapply runs_bind.
  { eapply runs_weaken; [apply reads_keeping|done|intros ? ? Hs; exact Hs|done].
    unfold require_operator_reader, o_guard.
    reads_go. }
  intros ?. apply runs_fetched. intros p p0 _ _. apply runs_then.
  { eapply runs_weaken; [apply runs_audit_expired|done|done|by intros ? ? []]. }
  apply runs_check_then; [intros _|by intros ? ? []].
  eapply runs_bind.
  { eapply runs_weaken; [apply runs_raising|done|intros ? ? Hs; exact Hs|by intros ? ? []]. }
  intros c. apply runs_pre. intros _. by apply runs_ret; intros ? [].
Qed.

Lemma decided_orel s o id t : decided cfg s o id t -> orel cfg s t.
Proof. by intros (p & _ & z & [? _] & _). Qed.

Lemma check_request_names id decision principal channel reason peer proof s s' q :
  check_request (X := X) (L := L) id decision principal channel reason peer proof s = (s', Ok q) ->
  rq_id q = id.
Proof.
  unfold check_request. intros Hq. st_inv Hq. destruct (registry_active _ _); [|done].
  st_inv Hq. by subst q.
Qed.

Lemma keeping_decide s o id decision principal channel reason peer proof :
  world_ok o ->
  runs (start_at s) (decide_operator_proposal cfg ident o id decision principal channel reason peer proof)
    (fun _ t => orel cfg s t) (fun _ t => orel cfg s t).
Proof.
  intros Hw. unfold decide_operator_proposal. eapply runs_bind.
  { apply reads_keeping, check_request_reads. }
  intros q. eapply runs_weaken; [by apply runs_decide_locked|done| |].
  - intros ?. apply decided_orel.
  - intros ? t [[Ht _]|Ht]; [done|by eapply decided_orel].
Qed.

Lemma step_orel s b : oinv s -> cstep cfg (base s) b -> orel cfg s (set_base b s).
Proof. intros Hi Hs. apply orel_base; [done|by apply rtc_once]. Qed.

Lemma ostep_advances s s' : oinv s -> ostep s s' -> advances s s'.
Proof.
  intros Hi Hs.
  destruct Hs; [by apply orel_advances, step_orel|by apply create_advances|..|
                by apply orel_advances, orel_expire_all]; (apply keeping_advances; [done|]).
  - apply keeping_get.
  - apply keeping_cancel.
  - apply keeping_list.
  - apply keeping_register.
  - apply keeping_revoke.
  - apply keeping_enrollments.
  - apply keeping_challenge.
  - by apply keeping_decide.
Qed.

Lemma osteps_inv s s' : oinv s -> rtc ostep s s' -> oinv s' /\ csteps (base s) (base s').
Proof.
  intros Hi Hs. induction Hs as [s|s s1 s' Hs _ IH]; [done|].
  destruct (ostep_advances _ _ Hi Hs) as [Hi1 Hc _ _ _]. destruct (IH Hi1) as [? ?].
  split; [done|by etrans].
Qed.

(** ** An accepted decision *)

(** What [check_request] established about the caller and the proof. *)
Record vouched s (peer : PeerCredentials) (proof : dict json) (q : decision_request) : Prop := {
  vo_proof : DecisionProof_from_dict proof = Ok (rq_proof q);
  vo_decision : dp_decision (rq_proof q) = OperatorDecision_value (rq_decision q);
  vo_signer : exists r text,
    registry_active (reg s) (dp_enrollment_id (rq_proof q)) = Some r /\
    py_eqb (JInt (uid peer)) (er_uid r) = true /\
    canonical_text (proof_payload (rq_proof q)) = Ok text /\
    verify_b64 (er_pem r) text (dp_signature (rq_proof q)) = true;
}.

Lemma reads_state {A} (m : M A) s s' r : keeps eq m -> m s = (s', r) -> s' = s.
Proof. intros Hm E. specialize (Hm s). by rewrite E in Hm. Qed.

Lemma raising_ok {A} (r : result pyexc A) s s' a :
  raising r s = (s', Ok a) -> r = Ok a /\ s' = s.
Proof. unfold raising. destruct r; cbn [map_err]; [|done]. by intros [= <- <-]. Qed.

Lemma check_request_vouches id decision principal channel reason peer proof s s' q :
  check_request (X := X) (L := L) id decision principal channel reason peer proof s = (s', Ok q) ->
  s' = s /\ rq_id q = id /\ vouched s peer proof q.
Proof.
  intros Hq. pose proof (check_request_names _ _ _ _ _ _ _ _ _ _ Hq) as Hid.
  pose proof (reads_state _ _ _ _ (check_request_reads _ _ _ _ _ _ _) Hq) as ->.
  split; [done|]. split; [done|]. unfold check_request, o_guard in Hq. st_inv Hq.
  destruct (registry_active _ _) as [r|] eqn:Hr; [|done]. unfold o_guard in Hq. st_inv Hq.
  repeat match goal with
  | HH : lift _ _ = (?t, Ok _) |- _ =>
      apply reads_state in HH; [|unfold check_identifier, check_reason, ControlPlane.guard; reads_go]
  | HH : parse_decision _ _ = _ |- _ =>
      apply reads_state in HH; [|unfold parse_decision, o_raise; reads_go]
  end.
  unfold st_get in *.
  repeat match goal with
  | HH : raising _ _ = _ |- _ => apply raising_ok in HH as [? ?]
  | HH : _ = (_, _) |- _ => apply pair_equal_spec in HH as [? ?]
  end. subst.
  match goal with HH : map_err proof_exn ?x = Ok _ |- _ => destruct x eqn:Hp; [|done] end.
  cbn [map_err] in *. simplify_eq. match goal with HH : verify_b64 _ _ _ = true |- _ => rename HH into Hv end.
  constructor; cbn [rq_proof rq_decision]; [done| |exists r; eexists; split_and!; eassumption].
  by apply String.eqb_eq.
Qed.

(** The proof is about this proposal: its challenge is the proposal's own, and
    the decision was made while it was open. *)
Definition with_dc_version (c : DecisionChallenge) (v : string) : DecisionChallenge :=
  {| dc_proposal_id := dc_proposal_id c; dc_nonce := dc_nonce c;
     dc_display_hash := dc_display_hash c; dc_mode := dc_mode c;
     dc_capability_id := dc_capability_id c; dc_args_hash := dc_args_hash c;
     dc_issued_at := dc_issued_at c; dc_expires_at := dc_expires_at c;
     dc_instance := dc_instance c; dc_agent_request_id := dc_agent_request_id c;
     dc_mission_id := dc_mission_id c; dc_version := v |}.

Lemma same_challenge_eq c c' :
  same_challenge c c' = true -> c' = with_dc_version c (dc_version c').
Proof.
  unfold same_challenge. intros Hs. unfold challenge_fields at 2 in Hs.
  cbn [forallb fst snd] in Hs.
  repeat match type of Hs with context [String.eqb ?k "protocol_version"] =>
    let b := eval vm_compute in (String.eqb k "protocol_version") in
    change (String.eqb k "protocol_version") with b in Hs end.
  cbn [orb andb] in Hs.
  destruct c'. unfold challenge_fields in Hs. simpl in Hs. breflect.
  repeat match goal with HH : String.eqb _ _ = true |- _ => apply String.eqb_eq in HH end. by subst.
Qed.

Record about_proposal p (pf : DecisionProof) : Prop := {
  ab_challenge : exists c, operator_challenge_for cfg p = Ok c /\
    dp_challenge pf = with_dc_version c (dc_version (dp_challenge pf));
  ab_window : exists d, parse_default_utc (dp_decided_at pf) = Some d /\
    us (pr_created_at p) - 60000000 <= us d <= us (pr_expires_at p);
  ab_intent : action_intent_hash (pr_action p) = Some (pr_intent_hash p);
}.

Lemma runs_true {A} P (m : M A) Q : (forall s, P s -> match m s with (s', Ok a) => Q a s' | _ => True end) ->
  runs P m Q (fun _ _ => True).
Proof. intros Hm s Hs. specialize (Hm s Hs). by destruct (m s) as [? []]. Qed.

Lemma window_ok pf p s s' u :
  require_decided_within_window (X := X) (L := L) pf p s = (s', Ok u) ->
  s' = s /\ exists d, parse_default_utc (dp_decided_at pf) = Some d /\
    us (pr_created_at p) - 60000000 <= us d <= us (pr_expires_at p).
Proof.
  unfold require_decided_within_window, o_guard. intros Hw.
  destruct (parse_default_utc _) as [d|]; [|done]. st_inv Hw.
  subst. split; [done|].
  exists d. split; [done|]. unfold dt_lt in *. breflect. cbn [us dt_add] in *. lia.
Qed.

Lemma check_pending_ok o rq p s s' u :
  check_pending cfg o rq p s = (s', Ok u) -> s' = s /\ about_proposal p (rq_proof rq).
Proof.
  unfold check_pending, o_guard. intros Hc. st_inv Hc.
  match goal with HH : raising _ _ = _ |- _ => apply raising_ok in HH as [Hch ->] end.
  match goal with HH : require_decided_within_window _ _ _ = _ |- _ => apply window_ok in HH as [-> Hw] end.
  destruct (action_intent_hash (pr_action p)) as [h|] eqn:Hh; [|done].
  destruct (String.eqb_spec h (pr_intent_hash p)) as [->|].
  - injection Hc as <- _. subst. split; [done|]. constructor; [|done|done].
    eexists. split; [exact Hch|]. by apply same_challenge_eq.
  - unfold invalidate, st_raise, o_raise, st_bind in Hc. by repeat case_match.
Qed.

(** The permit and the request of an accepted proposal [p]: a permit for one use
    of exactly its action by its origin, and the submission of that action under
    that permit. *)
Record dispatched s s' o (rq : decision_request) p (ticket : dict json) : Prop := {
  di_steps : exists ttl context b1 b2 b3 b4 (q : ExecutionPermit) payload,
    csteps (base s) b1 /\
    issue_permit_core cfg (call o 3) (pr_action p) (rq_principal rq) (uid (pr_origin p)) ttl
      (rq_reason rq) {| pid := o_pid o; uid := c_euid cfg; gid := o_gid o |} context b1
      = (b2, Ok (q, payload)) /\
    1000000 <= float_us ttl <= 60000000 /\
    permit_in b2 (p_permit_id q) (pr_action p) (pr_intent_hash p) (uid (pr_origin p)) /\
    csteps b2 b3 /\
    request_action cfg (call o 4)
      (with_authorization (pr_action p)
         (permit_context (strip (rq_principal rq)) (p_permit_id q) (pr_action p)))
      (pr_origin p) b3 = (b4, Ok ticket) /\
    csteps b4 (base s');
}.

Lemma holding_steps s0 id q z s : holding cfg s0 id q z s -> csteps (base s0) (base s).
Proof. intros [Ho _]. apply (or_steps _ _ _ Ho). Qed.

(** A call of the control plane, with the states around it. *)
Lemma runs_marked {A} s0 id q z (m : st plane cp_exn A) :
  keeps csteps m ->
  runs (holding cfg s0 id q z) (lift m)
    (fun a s => exists b1 s1, csteps (base s0) b1 /\ m b1 = (base s1, Ok a) /\
                  holding cfg s1 id q z s) (fun _ _ => True).
Proof.
  intros Hm. apply runs_true. intros s Hs. pose proof (runs_lift cfg s0 id q z m Hm s Hs) as Hr.
  unfold lift in *. destruct (m (base s)) as [b [a|e]] eqn:E; [|done].
  exists (base s), (set_base b s). split_and!; [by eapply holding_steps|exact E|].
  split; [apply orel_refl, (or_inv _ _ _ (holding_orel _ _ _ _ _ _ Hr))|apply Hr].
Qed.

(** A transition and its event. *)
Lemma runs_moved s0 id q z z' o c ty (extra : dict json) {A} (k : M A) Q :
  life z z' -> runs (holding cfg s0 id q z') k Q (fun _ _ => True) ->
  runs (holding cfg s0 id q z) (run! move o id z' c; run! append_operator_event o ty id extra; k) Q
    (fun _ _ => True).
Proof.
  intros Hl Hk. apply runs_bind with (R := fun _ => holding cfg s0 id q z').
  { eapply runs_weaken; [by apply runs_move|done|done|done]. }
  intros ?. apply runs_then; [|exact Hk]. eapply runs_weaken; [apply runs_event|done|done|done].
Qed.

Lemma submit_dispatches s0 id o rq p :
  rq_id rq = id -> world_ok o ->
  runs (fun s => (proposal_ok p /\ peer_ok (pr_origin p)) /\
                 holding cfg s0 id (request_part p) P_ACCEPTED s)
    (accept_and_submit cfg o rq)
    (fun ticket s => dispatched s0 s o rq p ticket) (fun _ _ => True).
Proof.
  intros Hid [Hw1 Hw2]. apply runs_pre. intros [Hok Hpeer].
  unfold accept_and_submit. rewrite Hid. apply runs_named. intros p' _ Hp.
  destruct (fields_of_request _ _ Hp) as (Eid & Ea & _ & Ee).
  assert (Eo : pr_origin p' = pr_origin p) by (unfold request_part in Hp; congruence).
  rewrite Ea, Eo. eapply runs_bind.
  { apply runs_marked. apply steps_issue; [done|apply Hok|]. intros n. apply Hw2, permit_ttl_bounds. }
  intros [x payload]. apply runs_ex. intros b1. apply runs_ex. intros s1.
  apply runs_pre. intros Hs1. apply runs_pre. intros Hiss.
  pose proof (issue_spec _ _ _ _ _ _ _ _ _ _ _ _ Hiss) as (h & Hh & Hin & Hpay).
  cbn [fst snd] in *. rewrite (po_hash _ Hok) in Hh. injection Hh as <-.
  apply runs_moved; [apply life_permit|]. eapply runs_bind.
  { eapply runs_weaken; [apply runs_raising|done|intros ? ? Hs; exact Hs|done]. }
  intros y. apply runs_pre. intros Hy. rewrite Hpay in Hy.
  apply authorized_is in Hy as [-> Hst]; [|apply Hok].
  eapply runs_bind; [by apply runs_marked, keeps_request|].
  intros ticket. apply runs_ex. intros b3. apply runs_ex. intros s2.
  apply runs_pre. intros Hs3. apply runs_pre. intros Hreq.
  apply runs_moved; [apply life_submit|]. apply runs_ret. intros s Hs. apply holding_steps in Hs.
  constructor. do 8 eexists. split_and!; try eassumption; apply permit_ttl_bounds.
Qed.

(** ** The registry is touched only when the nonce is burned *)

Definition same_reg s s' : Prop := reg s' = reg s.

#[local] Instance same_reg_preorder : PreOrder same_reg.
Proof. split; [done|]. intros a b c Hab Hbc. unfold same_reg in *. congruence. Qed.

Lemma reg_lift {A} (m : st plane cp_exn A) : keeps same_reg (lift m).
Proof. intros s. unfold lift. by destruct (m (base s)). Qed.
Lemma reg_store {A} f : keeps same_reg (of_store (X := X) (L := L) (A := A) f).
Proof. intros s. unfold of_store. by destruct (f (props s)). Qed.
Lemma reg_store_raw {A} f : keeps same_reg (of_store_raw (X := X) (L := L) (A := A) f).
Proof. intros s. unfold of_store_raw. by destruct (f (props s)). Qed.
Lemma reg_proposal id : keeps same_reg (proposal (X := X) (L := L) id).
Proof. by intros s. Qed.
Lemma reg_raising {A} (r : result pyexc A) : keeps same_reg (raising (X := X) (L := L) r).
Proof. by intros s. Qed.

Ltac reg_go :=
  repeat (progress keeps_go || apply reg_lift || apply reg_store || apply reg_store_raw ||
    apply reg_proposal || apply reg_raising ||
    match goal with
    | |- keeps _ (st_guard _ _) => apply keeps_guard, _
    | |- keeps _ (st_set _) => apply keeps_set; intros ?; done
    | |- keeps _ (st_try _ _) => apply keeps_try; [apply _| |intros ?]
    end).

Lemma reg_event o ty id extra : keeps same_reg (append_operator_event (X := X) (L := L) o ty id extra).
Proof. unfold append_operator_event, assign, o_guard, o_raise. reg_go. Qed.
Lemma reg_move o id z c : keeps same_reg (move (X := X) (L := L) o id z c).
Proof. unfold move. reg_go. Qed.
Lemma reg_invalidate o id code msg : keeps same_reg (invalidate (X := X) (L := L) o id code msg).
Proof. unfold invalidate. reg_go; [apply reg_move|apply reg_event]. Qed.
Lemma reg_submission o id : keeps same_reg (submission_result cfg o id).
Proof. unfold submission_result, catching. reg_go. Qed.

Lemma reg_rollback {A} o rq session armed e :
  keeps same_reg (roll_back (X := X) (L := L) (A := A) cfg o rq session armed e).
Proof. unfold roll_back, revoke_failed_session. reg_go. apply reg_invalidate. Qed.

Lemma reg_submit o rq p : keeps same_reg (submit_accepted cfg o rq p).
Proof.
  unfold submit_accepted, require_session, accept_and_arm, accept_and_submit, catching, o_raise.
  cbv zeta. reg_go; first [apply reg_invalidate|apply reg_move|apply reg_event|apply reg_rollback].
Qed.

Lemma runs_ok {A} (m : M A) P Q F s s' a : runs P m Q F -> P s -> m s = (s', Ok a) -> Q a s'.
Proof. intros Hm Hs E. specialize (Hm s Hs). by rewrite E in Hm. Qed.

Lemma keeps_at {A} R (m : M A) s s' r : keeps R m -> m s = (s', r) -> R s s'.
Proof. intros Hm E. specialize (Hm s). by rewrite E in Hm. Qed.

Lemma burn_ok (o : save_outcome) n g g' u :
  registry_burn o n g = (g', Ok u) -> (n ∉ rg_burned g) /\ n ∈ rg_burned g'.
Proof.
  unfold registry_burn. intros E. st_inv E. unfold st_get, st_set in *. simplify_eq/=. breflect.
  split; [done|]. unfold registry_save in E.
  destruct (negb _); [|destruct o; try done]; injection E as <- _;
    apply elem_of_sset_add; by left.
Qed.

(** The receipt a decision returns, and the nonce it burned. *)
Record finalized s s' (rq : decision_request) p (r : DecisionReceipt) : Prop := {
  fi_fresh : pr_nonce p ∉ rg_burned (reg s);
  fi_burned : pr_nonce p ∈ rg_burned (reg s');
  fi_receipt : exists h, proposal_display_hash p = Ok h /\
    sign_receipt (di_key ident) (unsigned_receipt cfg ident rq p h) = Ok r;
}.

Lemma finalize_ok o rq p s s' r :
  finalize_decision cfg ident o rq p s = (s', Ok r) -> finalized s s' rq p r.
Proof.
  unfold finalize_decision. intros E. st_inv E. unfold of_registry in *.
  destruct (registry_burn _ _ _) as [g [u|]] eqn:Eb; [|done]. cbn [map_err] in *. simplify_eq.
  apply burn_ok in Eb as [Hn Hb].
  repeat match goal with HH : raising _ _ = _ |- _ => apply raising_ok in HH as [? ->] end. subst.
  match goal with HH : assign _ _ _ = _ |- _ => apply (keeps_at same_reg) in HH; [|unfold assign; reg_go] end.
  match goal with HH : append_operator_event _ _ _ _ _ = _ |- _ =>
    apply (keeps_at same_reg) in HH; [|apply reg_event] end.
  unfold same_reg in *. 
  constructor; [done| |].
  { repeat match goal with HH : reg ?a = reg _ |- context [reg ?a] => rewrite HH end. exact Hb. }
  match goal with HH : rbind _ _ = Ok _ |- _ => ok_inv HH end. eauto.
Qed.

Lemma origin_of_request p p' : request_part p' = request_part p -> pr_origin p' = pr_origin p.
Proof. unfold request_part. intros [=]. done. Qed.

Lemma rollback_fails {A} o rq session armed e P (Q : A -> oplane -> Prop) :
  runs P (roll_back cfg o rq session armed e) Q (fun _ _ => True).
Proof.
  apply runs_true. intros s _. destruct (roll_back _ _ _ _ _ _ _) as [s' [a|]] eqn:E; [|done].
  unfold roll_back in E. by st_inv E.
Qed.

Lemma submit_accepted_dispatches s0 id z o rq p :
  rq_id rq = id -> pending_state z = true -> world_ok o -> proposal_ok p -> peer_ok (pr_origin p) ->
  runs (holding cfg s0 id (request_part p) z) (submit_accepted cfg o rq p)
    (fun ticket s => dispatched s0 s o rq p ticket) (fun _ _ => True).
Proof.
  intros Hid Hz Hw Hok Hpeer. unfold submit_accepted. apply runs_then.
  { eapply runs_weaken; [by apply (runs_require_session cfg s0 id (request_part p) z)|done|done|done]. }
  cbv zeta. eapply runs_bind.
  { eapply runs_try; [by apply runs_arm|]. intros e. apply rollback_fails. }
  intros armed. apply runs_try with (G := fun _ _ => True); [|intros e; apply rollback_fails].
  apply runs_weaken with (P' := fun s => (proposal_ok p /\ peer_ok (pr_origin p)) /\
      holding cfg s0 id (request_part p) P_ACCEPTED s)
    (Q' := fun ticket s => dispatched s0 s o rq p ticket) (F' := fun _ _ => True);
    [by apply submit_dispatches|done|done|done].
Qed.

Lemma dispatched_later s0 s s' o rq p ticket :
  dispatched s0 s o rq p ticket -> csteps (base s) (base s') -> dispatched s0 s' o rq p ticket.
Proof.
  intros [(ttl & context & b1 & b2 & b3 & b4 & q & payload & H1 & H2 & H3 & H4 & H5 & H6 & H7)] Hs.
  constructor. exists ttl, context, b1, b2, b3, b4, q, payload. 
  refine (conj H1 (conj H2 (conj H3 (conj H4 (conj H5 (conj H6 _)))))). by etrans.
Qed.

(** What an accepted decision [d] on the pending proposal [p] rests on. *)
Record accepted s s' o (peer : PeerCredentials) (proof : dict json) (rq : decision_request) p
    (d : dict json) : Prop := {
  ac_vouched : vouched s peer proof rq;
  ac_about : about_proposal p (rq_proof rq);
  ac_dispatched : exists ticket, dispatched s s' o rq p ticket /\ dget d "action" = Some (JObj ticket);
  ac_final : exists r, finalized s s' rq p r /\
    dget d "decision_receipt" = Some (JObj (DecisionReceipt_to_dict r));
  ac_state : exists p', find s' (rq_id rq) = Some p' /\ pr_state p' = P_SUBMITTED /\
    request_part p' = request_part p;
}.

Lemma accept_ok s0 s s' z o rq p d :
  pending_state z = true -> world_ok o -> proposal_ok p -> peer_ok (pr_origin p) ->
  holding cfg s0 (rq_id rq) (request_part p) z s -> accept cfg ident o rq p s = (s', Ok d) ->
  (exists ticket, dispatched s0 s' o rq p ticket /\ dget d "action" = Some (JObj ticket)) /\
  (exists r, finalized s s' rq p r /\
     dget d "decision_receipt" = Some (JObj (DecisionReceipt_to_dict r))) /\
  holding cfg s0 (rq_id rq) (request_part p) P_SUBMITTED s'.
Proof.
  intros Hz Hw Hok Hpeer Hs E. unfold accept in E. st_inv E.
  rename a into ticket, a0 into r.
  match goal with HH : submit_accepted _ _ _ _ _ = (?x, _) |- _ => rename HH into E1, x into s1 end.
  match goal with HH : finalize_decision _ _ _ _ _ _ = (?x, _) |- _ => rename HH into E2, x into s2 end.
  match goal with HH : submission_result _ _ _ _ = _ |- _ => rename HH into E3 end. subst.
  pose proof (runs_ok _ _ _ _ _ _ _
    (submit_accepted_dispatches s0 _ z o rq p eq_refl Hz Hw Hok Hpeer) Hs E1) as Hd.
  pose proof (runs_ok _ _ _ _ _ _ _ (runs_submit_accepted cfg s0 _ _ z o rq p eq_refl Hz Hw) Hs E1) as H1.
  assert (H1' : holding cfg s1 (rq_id rq) (request_part p) P_SUBMITTED s1).
  { split; [apply orel_refl, (or_inv _ _ _ (holding_orel _ _ _ _ _ _ H1))|apply H1]. }
  assert (Hlast : forall s0, holding cfg s0 (rq_id rq) (request_part p) P_SUBMITTED s1 ->
    holding cfg s0 (rq_id rq) (request_part p) P_SUBMITTED s').
  { intros x Hx. eapply (runs_ok _ _ _ _ _ _ _ (runs_submission cfg x _ _ _ o)); [|exact E3].
    eapply (runs_ok _ _ _ _ _ _ _ (runs_finalize cfg ident x _ _ _ o rq p eq_refl)); [exact Hx|exact E2]. }
  pose proof (finalize_ok _ _ _ _ _ _ E2) as [Hf Hb Hr].
  apply (keeps_at same_reg) in E1; [|apply reg_submit]. apply (keeps_at same_reg) in E3; [|apply reg_submission].
  unfold same_reg in *. split_and!; [..|by apply Hlast].
  - exists ticket. split; [|unfold with_receipt_dict; by rewrite dget_dset_ne, dget_dset_eq].
    eapply dispatched_later; [exact Hd|]. eapply holding_steps. by apply Hlast.
  - exists r. split; [|unfold with_receipt_dict; by rewrite dget_dset_eq].
    constructor; [by rewrite <- E1|by rewrite E3|done].
Qed.

(** [_operator_decision_lock]: an accepting decision on a pending proposal. *)
Lemma decide_locked_accepts s o rq p0 s' d :
  oinv s -> world_ok o -> find s (rq_id rq) = Some p0 ->
  let p := expire (clock (call o 0) 0) p0 in
  pending_state (pr_state p) = true -> rq_decision rq = D_ACCEPT ->
  decide_locked cfg ident o rq s = (s', Ok d) ->
  exists s1, csteps (base s) (base s1) /\ reg s1 = reg s /\
    holding cfg s (rq_id rq) (request_part p) (pr_state p) s1 /\
    about_proposal p (rq_proof rq) /\ accept cfg ident o rq p s1 = (s', Ok d).
Proof.
  intros Hi Hw Hp0 p Hpend Hdec E. unfold decide_locked, o_guard in E. st_inv E. subst.
  match goal with HH : fetch _ _ _ = _ |- _ => rename HH into Ef end.
  pose proof (runs_ok _ _ _ _ _ _ _ (runs_fetch cfg s o (rq_id rq)) (conj eq_refl Hi) Ef)
    as [(Hf & p1 & Hp1 & Hp) Hs].
  rewrite Hp0 in Hp1. injection Hp1 as <-. fold p in Hp. subst a.
  apply (keeps_at same_reg) in Ef; [|apply reg_store].
  rewrite Hdec in E. destruct (dispatched_state (pr_state p)) eqn:Hd; [by destruct (pr_state p)|].
  case_bool_decide as Hx; [by rewrite Hx in Hpend|]. st_inv E. subst.
  match goal with HH : check_pending _ _ _ _ _ = _ |- _ => apply check_pending_ok in HH as [-> Hab] end.
  eexists. split_and!; [by eapply holding_steps|exact Ef|exact Hs|exact Hab|exact E].
Qed.

Lemma decide_accepts s o id decision principal channel reason peer proof s' d p0 :
  oinv s -> world_ok o -> find s id = Some p0 ->
  let p := expire (clock (call o 0) 0) p0 in
  pending_state (pr_state p) = true -> upper decision = "ACCEPT" ->
  decide_operator_proposal cfg ident o id decision principal channel reason peer proof s = (s', Ok d) ->
  exists rq, rq_id rq = id /\ accepted s s' o peer proof rq p d.
Proof.
  intros Hi Hw Hp0 p Hpend Hup E. unfold decide_operator_proposal in E. st_inv E.
  match goal with HH : check_request _ _ _ _ _ _ _ _ = (_, Ok ?q) |- _ => rename q into rq, HH into Eq end.
  assert (Hdec : rq_decision rq = D_ACCEPT).
  { unfold check_request, parse_decision in Eq. rewrite Hup, String.eqb_refl in Eq.
    st_inv Eq. destruct (registry_active _ _); [|done]. st_inv Eq. subst. by simplify_eq/=. }
  apply check_request_vouches in Eq as (-> & Hid & Hv). exists rq. split; [done|]. subst id.
  destruct (decide_locked_accepts _ _ _ _ _ _ Hi Hw Hp0 Hpend Hdec E) as (s1 & _ & Hr & Hs & Hab & Ea).
  assert (Hp : proposal_ok p /\ peer_ok (pr_origin p)).
  { apply holding_request in Hs as (x & _ & _ & Hx & _ & _ & Hpeer). split.
    - by apply expire_ok, (proposal_id s (rq_id rq)).
    - rewrite (origin_of_request _ _ Hx) in Hpeer. exact Hpeer. }
  destruct (accept_ok _ _ _ _ _ _ _ _ Hpend Hw (proj1 Hp) (proj2 Hp) Hs Ea) as (Hd & (r & Hfin & Hr') & _ & Hst).
  constructor; [done|done|done| |destruct Hst as (x & ? & ? & ?); eauto].
  exists r. split; [|done]. destruct Hfin as [Hf Hb Hfr]. constructor; [by rewrite <- Hr|done|done].
Qed.

(** ** A failed decision does not leave the daemon armed *)

Definition calm_base (b b' : plane) : Prop := supervision b' = ARMED -> supervision b = ARMED.
Definition calm s s' : Prop := calm_base (base s) (base s').

#[local] Instance calm_base_preorder : PreOrder calm_base.
Proof. split; [by intros ? ?|]. intros a b c Hab Hbc ?. by apply Hab, Hbc. Qed.
#[local] Instance calm_preorder : PreOrder calm.
Proof. split; [by intros ? ?|]. intros a b c Hab Hbc ?. by apply Hab, Hbc. Qed.

Lemma calm_lift {A} (m : st plane cp_exn A) : keeps calm_base m -> keeps calm (lift m).
Proof. intros Hm s. unfold lift. specialize (Hm (base s)). by destruct (m (base s)). Qed.
Lemma calm_store {A} f : keeps calm (of_store (X := X) (L := L) (A := A) f).
Proof. intros s. unfold of_store. by destruct (f (props s)); intros ?. Qed.
Lemma calm_store_raw {A} f : keeps calm (of_store_raw (X := X) (L := L) (A := A) f).
Proof. intros s. unfold of_store_raw. by destruct (f (props s)); intros ?. Qed.
Lemma calm_registry {A} (m : st OperatorRegistry reg_exn A) :
  keeps calm (of_registry (X := X) (L := L) m).
Proof. intros s. unfold of_registry. by destruct (m (reg s)); intros ?. Qed.
Lemma calm_proposal id : keeps calm (proposal (X := X) (L := L) id).
Proof. by intros s ?. Qed.
Lemma calm_raising {A} (r : result pyexc A) : keeps calm (raising (X := X) (L := L) r).
Proof. by intros s ?. Qed.

Lemma calm_append w ty kind id d : keeps calm_base (append_event (X := X) (L := L) w ty kind id d).
Proof. intros s. unfold append_event. by destruct (write_event _ _ _ _ _ _); intros ?. Qed.
Lemma calm_session {A} f : keeps calm_base (of_session (X := X) (L := L) (A := A) f).
Proof. intros s. unfold of_session. by destruct (f (sess s)); intros ?. Qed.

Ltac calm_go :=
  repeat (progress keeps_go || (apply calm_lift) || apply calm_store || apply calm_store_raw ||
    apply calm_registry || apply calm_proposal || apply calm_raising || apply calm_append ||
    apply calm_session ||
    match goal with
    | |- keeps _ (st_guard _ _) => apply keeps_guard, _
    | |- keeps _ (st_set _) => apply keeps_set; by intros ? ?
    | |- keeps _ (st_try _ _) => apply keeps_try; [apply _| |intros ?]
    end).

Lemma calm_status w id peer : keeps calm_base (get_action_status cfg w id peer).
Proof.
  unfold get_action_status, find_job, load_persisted_job, require_job_owner, ControlPlane.guard. calm_go.
  intros s. repeat case_match; by intros ?.
Qed.

Lemma calm_event o ty id extra : keeps calm (append_operator_event (X := X) (L := L) o ty id extra).
Proof. unfold append_operator_event, assign, o_guard, o_raise, mark_ledger_failure. calm_go. Qed.
Lemma calm_move o id z c : keeps calm (move (X := X) (L := L) o id z c).
Proof. unfold move. calm_go. Qed.
Lemma calm_invalidate o id code msg : keeps calm (invalidate (X := X) (L := L) o id code msg).
Proof. unfold invalidate. calm_go; [apply calm_move|apply calm_event]. Qed.
Lemma calm_submission o id : keeps calm (submission_result cfg o id).
Proof. unfold submission_result, catching. calm_go. apply calm_status. Qed.
Lemma calm_synchronize o id : keeps calm (synchronize cfg o id).
Proof. unfold synchronize, catching. calm_go; first [apply calm_status|apply calm_move|apply calm_event]. Qed.
Lemma calm_check_pending o rq p : keeps calm (check_pending cfg o rq p).
Proof.
  unfold check_pending, require_decided_within_window, o_guard, o_raise.
  calm_go; apply calm_invalidate.
Qed.
Lemma calm_finalize o rq p : keeps calm (finalize_decision cfg ident o rq p).
Proof. unfold finalize_decision, assign. calm_go. apply calm_event. Qed.
Lemma calm_decline o rq p : keeps calm (decline cfg ident o rq p).
Proof.
  unfold decline. calm_go; first [apply calm_move|apply calm_event|apply calm_finalize|apply calm_submission].
Qed.
Lemma calm_require_session o rq p : keeps calm (require_session (X := X) (L := L) o rq p).
Proof. unfold require_session, catching, o_raise. calm_go. apply calm_invalidate. Qed.
Lemma calm_rollback {A} o rq session armed e :
  keeps calm (roll_back (A := A) cfg o rq session armed e).
Proof.
  unfold roll_back, revoke_failed_session, disarm_core, check_reason, request_safety_stop, enter_estop,
    runtime_stop, append_supervision_event, append_or_mark, mark_ledger_failure, ControlPlane.guard.
  calm_go; first [apply calm_invalidate|by intros ? ?].
Qed.

Lemma length_sapp (a b : string) :
  String.length (a +:+ b) = (String.length a + String.length b)%nat.
Proof. induction a as [|c a IH]; [done|]. simpl. by rewrite IH. Qed.

Lemma nonblank_head c rest : is_space c = false -> nonblank (String c rest) = true.
Proof.
  intros Hc. unfold nonblank, strip. simpl. rewrite Hc. simpl. rewrite Hc. by case_match.
Qed.

Lemma calm_arm_fails s (w : io Env) reason peer e s' :
  lift (arm_core cfg w reason peer) s = (s', Err e) -> calm s s'.
Proof.
  unfold lift, arm_core, check_reason, arm_locked, append_supervision_event, append_or_mark,
    mark_ledger_failure, append_event, ControlPlane.guard, calm, st_bind, st_guard, st_ret, st_get,
    st_set, st_raise.
  intros E. repeat case_match; simplify_eq/=; by intros ?.
Qed.

Lemma disarm_estops w reason peer (b : plane) :
  nonblank reason = true -> len reason <= 1024 ->
  exists b' d, disarm_core cfg w reason peer b = (b', Ok d) /\ supervision b' = ESTOPPED.
Proof.
  intros Hn Hl. unfold disarm_core, check_reason, request_safety_stop, enter_estop, runtime_stop,
    append_supervision_event, append_or_mark, mark_ledger_failure, append_event, ControlPlane.guard,
    st_bind, st_guard, st_ret, st_get, st_set, st_raise.
  apply Z.leb_le in Hl. rewrite Hn, Hl. cbn [andb].
  destruct (write_event _ _ _ _ _ _) as [l []]; by eexists _, _.
Qed.

Lemma rollback_disarms {A} o rq session e P :
  len (rq_id rq) <= 900 ->
  runs P (roll_back (A := A) cfg o rq session true e) (fun _ _ => False)
    (fun _ s => supervision (base s) = ESTOPPED).
Proof.
  intros Hl. unfold roll_back. eapply runs_bind.
  { apply runs_get with (Q := fun _ _ => True). done. }
  intros submitted. eapply (runs_bind _ _ _ (fun _ _ => True)); [done|].
  intros ?. eapply (runs_bind _ _ _ (fun _ _ => True)).
  { intros s _. unfold st_suppress, st_try, st_ret. by destruct (invalidate _ _ _ _ s) as [? []]. }
  intros ?. eapply (runs_bind _ _ _ (fun _ s => supervision (base s) = ESTOPPED)); [|by intros; apply runs_raise].
  cbn [orb]. intros s _. unfold st_suppress, st_try, st_bind, lift.
  destruct (disarm_estops (call o 6) ("Rollback after proposal " +:+ rq_id rq +:+ " failed")
    {| pid := o_pid o; uid := c_euid cfg; gid := o_gid o |} (base s)) as (b & d & -> & Hb).
  - by apply nonblank_head.
  - unfold len in *. rewrite !length_sapp. simpl. lia.
  - done.
Qed.

(** Accepting while the daemon is not armed arms it, or fails. *)
Lemma arm_outcome o rq :
  runs (fun s => supervision (base s) <> ARMED) (accept_and_arm cfg o rq)
    (fun armed _ => armed = true) (fun _ s => supervision (base s) <> ARMED).
Proof.
  unfold accept_and_arm.
  assert (Hc : forall (A : Type) (m : M A), keeps calm m ->
    runs (fun s => supervision (base s) <> ARMED) m (fun _ s => supervision (base s) <> ARMED)
      (fun _ s => supervision (base s) <> ARMED)).
  { intros A m Hm s Hs. specialize (Hm s). destruct (m s) as [s' []]; intros Ha; by apply Hs, Hm. }
  eapply runs_bind; [apply Hc, calm_move|]. intros ?. eapply runs_bind; [apply Hc, calm_event|].
  intros ?. eapply (runs_bind _ _ _ (fun armed s => armed = false /\ supervision (base s) <> ARMED)).
  { intros s Hs. unfold lift, st_get. cbn. rewrite bool_decide_false; [|done]. split; [done|].
    by destruct s. }
  intros armed. apply runs_pre. intros ->. eapply (runs_bind _ _ _ (fun _ _ => True)).
  - intros s Hs. destruct (lift _ s) as [s' [?|e]] eqn:E; [done|].
    intros Ha. apply Hs. by apply (calm_arm_fails _ _ _ _ _ _ E).
  - intros ?. by apply runs_ret.
Qed.

(** The states a failing [submit_accepted] leaves behind. *)
Lemma submit_accepted_calm o rq p :
  len (rq_id rq) <= 900 ->
  runs (fun s => supervision (base s) <> ARMED) (submit_accepted cfg o rq p) (fun _ _ => True)
    (fun _ s => supervision (base s) <> ARMED).
Proof.
  intros Hl. unfold submit_accepted. eapply (runs_bind _ _ _ (fun _ s => supervision (base s) <> ARMED)).
  { intros s Hs. pose proof (calm_require_session o rq p s) as Hc.
    destruct (require_session _ _ _ s) as [s' []]; intros Ha; by apply Hs, Hc. }
  intros ?. cbv zeta. eapply (runs_bind _ _ _ (fun armed _ => armed = true)).
  { eapply runs_try; [apply arm_outcome|]. intros e s Hs.
    pose proof (calm_rollback (A := bool) o rq (session_id (pr_action p)) false e s) as Hc.
    destruct (roll_back _ _ _ _ _ _ s) as [s' [?|]] eqn:E; [|intros Ha; by apply Hs, Hc].
    exfalso. unfold roll_back in E. by st_inv E. }
  intros armed s ->. unfold st_try.
  destruct (accept_and_submit _ _ _ s) as [s1 [?|e]]; [done|].
  pose proof (rollback_disarms (A := dict json) o rq (session_id (pr_action p)) e
    (fun _ => True) Hl s1 I) as Hd.
  destruct (roll_back _ _ _ _ _ _ s1) as [s' [?|]]; [done|]. by rewrite Hd.
Qed.

Abbreviation unarmed := (fun s => supervision (base s) <> ARMED).

Lemma runs_calm {A} (m : M A) :
  keeps calm m -> runs unarmed m (fun _ => unarmed) (fun _ => unarmed).
Proof.
  intros Hm s Hs. specialize (Hm s). destruct (m s) as [s' []]; intros Ha; by apply Hs, Hm.
Qed.

Lemma runs_conj {A} (m : M A) P P' Q Q' F F' :
  runs P m Q F -> runs P' m Q' F' ->
  runs (fun s => P s /\ P' s) m (fun a s => Q a s /\ Q' a s) (fun e s => F e s /\ F' e s).
Proof.
  intros Hm Hm' s [Hs Hs']. specialize (Hm s Hs). specialize (Hm' s Hs').
  by destruct (m s) as [? []].
Qed.

(** The daemon is unarmed, or the proposal's action was submitted. *)
Definition stood_down id s : Prop := unarmed s \/ state_of s id = Some P_SUBMITTED.

Lemma holding_submitted s0 id q s : holding cfg s0 id q P_SUBMITTED s -> stood_down id s.
Proof. intros (_ & p & Hp & Hs & _). right. unfold state_of. unfold find in Hp. by rewrite Hp, <- Hs. Qed.

Lemma accept_stands_down s0 q z o rq p :
  pending_state z = true -> world_ok o -> len (rq_id rq) <= 900 ->
  runs (fun s => holding cfg s0 (rq_id rq) q z s /\ unarmed s) (accept cfg ident o rq p)
    (fun _ _ => True) (fun _ => stood_down (rq_id rq)).
Proof.
  intros Hz Hw Hl. unfold accept. eapply runs_bind.
  { eapply runs_weaken; [apply runs_conj; [by apply (runs_submit_accepted cfg s0 (rq_id rq) q z)
      |by apply submit_accepted_calm]|done|intros ? ? Hs; exact (proj1 Hs)|].
    intros ? ? [_ Hs]. by left. }
  intros ticket. cbn beta. eapply (runs_bind _ _ _ (fun _ => holding cfg s0 (rq_id rq) q P_SUBMITTED)).
  { eapply runs_weaken; [by apply (runs_finalize cfg ident s0 (rq_id rq) q P_SUBMITTED)|done|done|].
    intros ? s. apply holding_submitted. }
  intros r. eapply (runs_bind _ _ _ (fun _ _ => True)).
  { eapply runs_weaken; [apply (runs_submission cfg s0 (rq_id rq) q P_SUBMITTED)|done|done|].
    intros ? s. apply holding_submitted. }
  intros d. by apply runs_ret.
Qed.

Lemma decide_stands_down s0 o rq :
  world_ok o -> len (rq_id rq) <= 900 ->
  runs (fun s => start_at s0 s /\ unarmed s) (decide_locked cfg ident o rq)
    (fun _ _ => True) (fun _ => stood_down (rq_id rq)).
Proof.
  intros Hw Hl. unfold decide_locked. eapply runs_bind.
  { eapply runs_weaken; [apply runs_conj; [apply (runs_fetch cfg s0)|apply runs_calm, calm_store]|done| |].
    - intros p s [[_ Hs] Hu]. exact (conj Hs Hu).
    - intros e s [_ Hu]. by left. }
  intros p. cbn beta. apply (runs_given _ _ (pr_request_id p = rq_id rq)).
  { intros s [Hs _]. by destruct (holding_static _ _ _ _ _ _ Hs p eq_refl). }
  intros Hid. apply runs_check_then; [intros _|intros e s [_ Hu]; by left].
  assert (Hcalm : forall (A : Type) (m : M A), keeps calm m ->
    runs (fun s => holding cfg s0 (rq_id rq) (request_part p) (pr_state p) s /\ unarmed s) m
      (fun _ _ => True) (fun _ => stood_down (rq_id rq))).
  { intros A m Hm. eapply runs_weaken; [by apply runs_calm|by intros s [_ Hs]|done|].
    intros e s Hs. by left. }
  destruct (dispatched_state (pr_state p)).
  { destruct (rq_decision rq); apply Hcalm; unfold o_raise; calm_go;
      first [apply calm_synchronize|apply calm_submission]. }
  case_bool_decide.
  { destruct (rq_decision rq); apply Hcalm; unfold o_raise; calm_go; apply calm_submission. }
  apply runs_check_then; [intros Hz|intros e s [_ Hu]; by left].
  eapply runs_bind.
  { eapply runs_weaken; [apply runs_conj; [by apply (runs_check_pending cfg s0 (rq_id rq)
      (request_part p) (pr_state p))|apply runs_calm, calm_check_pending]|done|
      intros ? ? Hs; exact Hs|intros e s [_ Hu]; by left]. }
  intros ?. destruct (rq_decision rq); [by apply accept_stands_down|].
  apply Hcalm, calm_decline.
Qed.

(** ** A restart closes what was pending *)

Definition tell (m : dict (string * dict json)) (e : entry) : dict (string * dict json) :=
  match told_state (en_payload e) with
  | Some z => dset m (en_id e) (z, en_payload e)
  | None => m
  end.

Lemma latest_app es es' : latest_states (es ++ es') = foldl tell (latest_states es) es'.
Proof. unfold latest_states. by rewrite foldl_app. Qed.

Lemma latest_dwf es : dwf (latest_states es).
Proof.
  induction es as [|e es IH] using rev_ind; [apply NoDup_nil_2|]. rewrite latest_app. simpl.
  unfold tell. case_match; [by apply dwf_dset|done].
Qed.

Definition closing (id : string) (d : dict json) : entry :=
  stored {| en_type := "OPERATOR_PROPOSAL_INVALIDATED"; en_kind := "OPERATOR_PROPOSAL";
            en_id := id; en_payload := restarted_payload cfg id d |}.

Lemma told_closing id d : told_state (en_payload (closing id d)) = Some "INVALIDATED".
Proof. unfold told_state. cbn [closing stored en_payload]. rewrite dget_canon_dict. done. Qed.

Definition closing_of (kv : string * (string * dict json)) : entry := closing kv.1 kv.2.2.

(** The entries the loop appends. *)
Definition closings (items : dict (string * dict json)) : list entry :=
  map closing_of (base.filter (fun kv : string * (string * dict json) => invalidatable kv.2.1 = true) items).

Lemma close_each_entries (w : io Env) items : forall l l',
  close_each cfg w l items = Ok l' -> log_entries l' = (log_entries l ++ closings items)%list.
Proof.
  unfold closings. induction items as [|[id [z d]] items IH]; intros l l' Hc.
  - injection Hc as <-. by rewrite app_nil_r.
  - rewrite filter_cons. cbn [close_each fst snd] in *. destruct (invalidatable z) eqn:Hz.
    + rewrite decide_True by done. destruct (log_append _ _ _) as [l1 []] eqn:Ea; [|done].
      apply log_append_true in Ea. rewrite (IH _ _ Hc), Ea, <- app_assoc. done.
    + rewrite decide_False by congruence. by apply IH.
Qed.

Lemma tell_closing items : forall m id,
  (id ∈ map fst items ->
    exists d, dget (foldl tell m (map closing_of items)) id = Some ("INVALIDATED", d)) /\
  ((id ∉ map fst items) ->
    dget (foldl tell m (map closing_of items)) id = dget m id).
Proof.
  induction items as [|[k [z d]] items IH] using rev_ind; intros m id.
  - split; [by intros ?%elem_of_nil|done].
  - rewrite !map_app, foldl_app. cbn [map foldl]. change (closing_of (k, (z, d))) with (closing k d). unfold tell at 1 3.
    rewrite told_closing. cbn [closing stored en_id]. rewrite dget_dset.
    destruct (IH m id) as [Hin Hout]. split; intros Hid.
    + case_decide as Hk; [by eexists|]. apply Hin. set_solver.
    + rewrite decide_False by set_solver. apply Hout. set_solver.
Qed.

Lemma of_kind_closings items : of_kind "OPERATOR_PROPOSAL" (closings items) = closings items.
Proof.
  unfold of_kind, closings. induction (base.filter _ items) as [|kv l IH]; [done|].
  cbn [map]. rewrite filter_cons_True by done. by rewrite IH.
Qed.

Lemma of_kind_app kind es es' : of_kind kind (es ++ es') = (of_kind kind es ++ of_kind kind es')%list.
Proof. apply filter_app. Qed.

(** What the ledger says of a proposal after the restart. *)
Lemma close_previous_closes (w : io Env) (l l' : L) id :
  close_previous_proposals cfg w l = Ok l' ->
  let told x := latest_states (of_kind "OPERATOR_PROPOSAL" (log_entries x)) in
  match dget (told l) id with
  | Some (z, d) =>
      if invalidatable z then exists d', dget (told l') id = Some ("INVALIDATED", d')
      else dget (told l') id = Some (z, d)
  | None => dget (told l') id = None
  end.
Proof.
  unfold close_previous_proposals. intros Hc. cbv zeta.
  destruct (log_read l "OPERATOR_PROPOSAL") as [l1 r] eqn:Er.
  apply log_read_entries in Er as [El Hr].
  destruct r as [es|]; [|done]. cbn [of_option rbind] in Hc. rewrite (Hr _ eq_refl) in Hc.
  set (es0 := of_kind _ (log_entries l)) in *.
  apply close_each_entries in Hc. rewrite El in Hc.
  rewrite Hc, of_kind_app, of_kind_closings, latest_app. fold es0.
  unfold closings. set (items := base.filter _ (latest_states es0)).
  destruct (tell_closing items (latest_states es0) id) as [Hin Hout].
  assert (Hmem : id ∈ map fst items <-> exists z d, dget (latest_states es0) id = Some (z, d) /\ invalidatable z = true).
  { unfold items. rewrite list_elem_of_fmap. split.
    - intros ([k [z d]] & -> & Hk). apply list_elem_of_filter in Hk as [Hz Hk]. exists z, d.
      split; [|exact Hz]. apply dget_Some; [apply latest_dwf|done].
    - intros (z & d & Hd & Hz). exists (id, (z, d)). split; [done|]. apply list_elem_of_filter.
      split; [done|]. by apply dget_in. }
  destruct (dget (latest_states es0) id) as [[z d]|] eqn:Hd.
  - destruct (invalidatable z) eqn:Hz; [by apply Hin, Hmem; eauto|].
    apply Hout. intros Hx. apply Hmem in Hx as (z' & d' & Hd' & Hz'). congruence.
  - apply Hout. intros Hx. by apply Hmem in Hx as (z' & d' & Hd' & Hz').
Qed.

(** ** Guarantees *)

Lemma expire_half now p : half (pr_state p) = false -> half (pr_state (expire now p)) = false.
Proof. unfold expire. by case_match. Qed.

Lemma decided_spec s o id p0 s' :
  decided cfg s o id s' -> find s id = Some p0 -> half (pr_state p0) = false ->
  exists p', find s' id = Some p' /\ p_evolves p0 p' /\ rtc life (pr_state p0) (pr_state p') /\
    half (pr_state p') = false.
Proof.
  intros (x & Hx & z & [Ho (p' & Hp' & Hz & _)] & Hh) Hp Hhalf. rewrite Hp in Hx. injection Hx as <-.
  destruct (or_live _ _ _ Ho _ _ Hp) as (y & Hy & He & Hl). rewrite Hp' in Hy. injection Hy as <-.
  exists p'. split_and!; [done|exact He|exact Hl|]. rewrite Hz.
  destruct Hh as [->|Hh]; [by apply expire_half|done].
Qed.

(** C6: an accepting decision that succeeds on a pending proposal rests on the
    operator's own consent to exactly that proposal: the proof is signed under
    an active enrollment with the caller's uid, its challenge is the proposal's
    own, and it was made while the proposal was open. The daemon then issued a
    one-use permit for exactly the recorded action, submitted that action under
    it for the proposal's origin, burned the nonce, which no earlier decision
    had used, and signed a receipt. *)
Theorem accepted_decision s o id decision principal channel reason peer proof s' d p0 :
  oinv s -> world_ok o -> find s id = Some p0 ->
  pending_state (pr_state (expire (clock (call o 0) 0) p0)) = true -> upper decision = "ACCEPT" ->
  decide_operator_proposal cfg ident o id decision principal channel reason peer proof s = (s', Ok d) ->
  exists rq, rq_id rq = id /\
    accepted s s' o peer proof rq (expire (clock (call o 0) 0) p0) d.
Proof. intros Hi Hw Hp Hz Hu E. by eapply decide_accepts. Qed.

(** C7: a decision never stops halfway, however it fails: the proposal is not
    left ACCEPTED or PERMIT_ISSUED, its request is unchanged, and it only moved
    forward. If the decision fails before the action is submitted, it does not
    leave a daemon armed that was not. *)
Theorem decision_completes s o id decision principal channel reason peer proof s' r p0 :
  oinv s -> world_ok o -> find s id = Some p0 -> half (pr_state p0) = false ->
  decide_operator_proposal cfg ident o id decision principal channel reason peer proof s = (s', r) ->
  exists p', find s' id = Some p' /\ p_evolves p0 p' /\ rtc life (pr_state p0) (pr_state p') /\
    half (pr_state p') = false /\
    (forall e, r = Err e -> len id <= 900 -> supervision (base s) <> ARMED ->
       pr_state p' <> P_SUBMITTED -> supervision (base s') <> ARMED).
Proof.
  intros Hi Hw Hp Hh E. unfold decide_operator_proposal, st_bind in E.
  destruct (check_request _ _ _ _ _ _ _ s) as [s1 [rq|e]] eqn:Eq.
  2: { pose proof (reads_state _ _ _ _ (check_request_reads _ _ _ _ _ _ _) Eq) as ->.
       injection E as <- <-. exists p0. by split_and!. }
  apply check_request_vouches in Eq as (-> & <- & _).
  pose proof (runs_decide_locked cfg ident s o rq Hw s (conj eq_refl Hi)) as Hd. rewrite E in Hd.
  assert (Hdec : decided cfg s o (rq_id rq) s').
  { destruct r; [exact Hd|]. destruct Hd as [[_ Hn]|Hd]; [congruence|exact Hd]. }
  destruct (decided_spec _ _ _ _ _ Hdec Hp Hh) as (p' & Hp' & He & Hl & Hh'). exists p'.
  split_and!; [done|exact He|exact Hl|exact Hh'|]. intros e -> Hlen Hu Hs.
  pose proof (decide_stands_down s o rq Hw Hlen s (conj (conj eq_refl Hi) Hu)) as Hst.
  rewrite E in Hst. destruct Hst as [Hst|Hst]; [exact Hst|].
  exfalso. apply Hs. unfold state_of in Hst. unfold find in Hp'. rewrite Hp' in Hst. by injection Hst.
Qed.

(** Every operator handler that runs without another in between is a sequence of
    steps of the control plane, and from a sound store, whatever has been called
    before, it keeps the store sound and moves each proposal only along its
    lifecycle, without changing its request; only a terminal proposal is
    forgotten, and a new one starts as CREATED with the caller's approval claims
    removed. Decisions and cancellations exclude each other by
    [_operator_decision_lock]; listing and expiry do not take it, and may come
    between ([declined_then_submitted]). *)
Theorem operator_handlers_advance s s1 s2 :
  oinv s -> rtc ostep s s1 -> ostep s1 s2 ->
  csteps (base s) (base s2) /\ advances s1 s2 /\
  (forall id p p', find s1 id = Some p -> find s2 id = Some p' ->
     pr_state p ∈ [P_DECLINED; P_CANCELLED; P_EXPIRED; P_INVALIDATED] ->
     pr_state p' = pr_state p \/ pr_state p' = P_INVALIDATED).
Proof.
  intros Hi Hr Hs. destruct (osteps_inv _ _ Hi Hr) as [Hi1 Hc].
  pose proof (ostep_advances _ _ Hi1 Hs) as Ha. split_and!; [|exact Ha|].
  - etrans; [exact Hc|apply Ha].
  - intros id p p' Hp Hp' Hx. destruct (av_kept _ _ Ha _ _ _ Hp Hp') as [_ Hl].
    by eapply life_refused.
Qed.

Lemma invalidatable_value z :
  invalidatable (ProposalState_value z) = pending_state z || half z.
Proof. by destruct z. Qed.

(** A daemon that starts on a ledger begins without proposals, and closes in
    the ledger every proposal the previous generation left undecided or half
    decided: what the ledger says last of it is INVALIDATED, and what it says of
    the others is unchanged. *)
Theorem restart_closes_pending (w : io Env) (g : ActionGateway X) (l : L) capacity file s :
  oplane_restore cfg w g l capacity file = Ok s ->
  oinv s /\ ps_proposals (props s) = [] /\
  exists b l0 l1, plane_restore cfg w g l = Ok b /\ log_of b = Some l0 /\ log_of (base s) = Some l1 /\
    let told x id := dget (latest_states (of_kind "OPERATOR_PROPOSAL" (log_entries x))) id in
    (forall id z d, told l0 id = Some (ProposalState_value z, d) ->
       if pending_state z || half z then exists d', told l1 id = Some ("INVALIDATED", d')
       else told l1 id = told l0 id) /\
    (forall id, told l0 id = None -> told l1 id = None).
Proof.
  unfold oplane_restore. intros E.
  destruct (store_new capacity) as [q|] eqn:Eq; [|done]. cbn [map_err rbind] in E.
  destruct (registry_open true file) as [g0|] eqn:Eg; [|done]. cbn [map_err rbind] in E.
  destruct (plane_restore cfg w g l) as [b|] eqn:Eb; [|done]. cbn [rbind] in E.
  destruct (log_of b) as [l0|] eqn:El; [|done]. cbn [of_option rbind] in E.
  destruct (close_previous_proposals cfg w l0) as [l1|] eqn:Ec; [|done]. injection E as <-.
  assert (Hq : ps_proposals q = []).
  { unfold store_new in Eq. ok_inv Eq. by subst. }
  split_and!; [|done|].
  - split; [by eapply store_new_inv|]. intros id p. unfold find. cbn [props]. by rewrite Hq.
  - exists b, l0, l1. do 3 (split; [done|]). split.
    + intros id z d Hz. pose proof (close_previous_closes w l0 l1 id Ec) as Hc. cbv beta zeta in Hc |- *.
      rewrite Hz in *. by rewrite invalidatable_value in Hc.
    + intros id Hn. pose proof (close_previous_closes w l0 l1 id Ec) as Hc. cbv beta zeta in Hc |- *.
      by rewrite Hn in Hc.
Qed.

Lemma oinv_base s b : oinv s -> oinv (set_base b s).
Proof. done. Qed.
End Verdict.

(** ** A concrete decision *)

Definition demo_oio : oio bool :=
  {| call := fun _ => demo_io;
     o_creation := {| cr_now := demo_now; cr_uuid := "1"; cr_nonce := "nonce";
                      cr_default := demo_now; cr_fresh := "2" |};
     o_save := Saved; o_stamp := "2026-01-01"; moved_at := fun _ _ => demo_now; o_pid := 1;
     o_gid := 1000; error_text := fun _ => "" |}.

Definition demo_identity : @DaemonIdentity demo_signatures :=
  Build_DaemonIdentity (H0 := demo_signatures) "daemon" "daemon".
Definition demo_display : dict json := [("title", JStr "Move"); ("risk_tier", JStr "high")].

Abbreviation doplane := (oplane unit (list entry)).

Definition demo_executors : ActionGateway unit :=
  match register_executor ActionGateway_new "arm.move" REAL tt with
  | Ok g => g | Err _ => ActionGateway_new end.

Definition demo_onew : doplane :=
  {| base := set_gwy demo_executors demo_boot; props := {| ps_capacity := 4; ps_proposals := []; ps_requests := [] |};
     reg := demo_enrolled |}.

Definition demo_proposed : doplane :=
  (create_operator_proposal (H := demo_crypto) demo_cfg demo_oio demo_action demo_display (Fin 60 0)
     demo_peer None demo_onew).1.

(** The operator's proof over the challenge of the proposal. *)
Definition demo_challenge : DecisionChallenge :=
  {| dc_proposal_id := "proposal_1"; dc_nonce := "nonce"; dc_display_hash := "0123456789abcdef";
     dc_mode := "REAL"; dc_capability_id := "arm.move";
     dc_args_hash := default "" (action_intent_hash (H := demo_crypto) demo_action);
     dc_issued_at := "2023-11-14T22:13:20Z"; dc_expires_at := "2023-11-14T22:14:20Z";
     dc_instance := "daemon_1"; dc_agent_request_id := ""; dc_mission_id := "";
     dc_version := PROTOCOL_VERSION_CHALLENGE |}.

Definition demo_signed (signature : string) : DecisionProof :=
  {| dp_enrollment_id := "op"; dp_challenge := demo_challenge; dp_decision := "ACCEPT";
     dp_decided_at := "2023-11-14T22:13:21Z"; dp_method := "tty-yn"; dp_signature := signature;
     dp_version := PROTOCOL_VERSION_PROOF |}.

Definition demo_proof : DecisionProof :=
  demo_signed (@sign_b64 demo_signatures "pem"
    (default "" (dumps (JObj (proof_payload (demo_signed "")))))).

Definition demo_operator_peer : PeerCredentials := {| pid := 11; uid := 501; gid := 501 |}.

Abbreviation demo_decide o s :=
  (decide_operator_proposal (H := demo_crypto) (H0 := demo_signatures) demo_cfg demo_identity
    o "proposal_1" "accept" "alice" "console" "looks safe" demo_operator_peer
    (DecisionProof_to_dict demo_proof) s).

(** ** A listing during a decision

    [list_pending_operator_proposals] finds the proposal CREATED; before it moves it,
    the operator declines, which burns the nonce; then the listing marks the declined
    proposal PRESENTED. It can be accepted again: the action is submitted, and only
    then the nonce turns out to be burned. *)

Definition demo_signed_no (signature : string) : DecisionProof :=
  {| dp_enrollment_id := "op"; dp_challenge := demo_challenge; dp_decision := "DECLINE";
     dp_decided_at := "2023-11-14T22:13:21Z"; dp_method := "tty-yn"; dp_signature := signature;
     dp_version := PROTOCOL_VERSION_PROOF |}.

Definition demo_proof_no : DecisionProof :=
  demo_signed_no (@sign_b64 demo_signatures "pem"
    (default "" (dumps (JObj (proof_payload (demo_signed_no "")))))).

Definition demo_declined : doplane :=
  (decide_operator_proposal (H := demo_crypto) (H0 := demo_signatures) demo_cfg demo_identity
     demo_oio "proposal_1" "decline" "alice" "console" "no" demo_operator_peer
     (DecisionProof_to_dict demo_proof_no) demo_proposed).1.

Definition demo_revived : doplane := (show demo_oio "proposal_1" demo_declined).1.

Example declined_then_submitted :
  (state_of demo_proposed "proposal_1", state_of demo_declined "proposal_1", state_of demo_revived "proposal_1") =
    (Some P_CREATED, Some P_DECLINED, Some P_PRESENTED) /\
  (demo_decide demo_oio demo_revived).2 = Err (ControlPlaneError "NONCE_REPLAY") /\
  state_of (demo_decide demo_oio demo_revived).1 "proposal_1" = Some P_SUBMITTED.
Proof. vm_compute. by repeat split. Qed.

Abbreviation dostep := (ostep (H := demo_crypto) (H0 := demo_signatures) demo_cfg demo_identity).

Lemma demo_onew_inv : oinv (H := demo_crypto) demo_onew.
Proof.
  split; [|intros id p Hp; discriminate Hp].
  apply (store_new_inv (H := demo_crypto) 4). reflexivity.
Qed.

Lemma demo_create : dostep demo_onew demo_proposed.
Proof.
  apply o_create; [exact (sb_action _ _ _ demo_submission)|vm_compute; intuition congruence|reflexivity].
Qed.

Lemma demo_proposed_inv : oinv (H := demo_crypto) demo_proposed.
Proof.
  apply (proj1 (osteps_inv (H := demo_crypto) demo_cfg demo_identity demo_onew demo_proposed
    demo_onew_inv (rtc_once _ _ demo_create))).
Qed.

Lemma demo_world : world_ok demo_oio.
Proof.
  split; [intros n; vm_compute; intuition congruence|]. intros n t Ht. unfold dt_wf.
  assert (Hday : (us (dt_add (clock (call demo_oio 3) n) t) + off (dt_add (clock (call demo_oio 3) n) t)
    * usec_per_min) / usec_per_day = 19675).
  { symmetry. apply (Z.div_unique _ _ _ (80000000000 + t)); [left|]; unfold usec_per_day;
    cbn; lia. }
  rewrite Hday. vm_compute. intuition congruence.
Qed.

(** ** Witnesses *)

Lemma operator_handlers_advance_witness :
  advances (H := demo_crypto) demo_cfg demo_onew demo_proposed /\
  state_of demo_proposed "proposal_1" = Some P_CREATED.
Proof.
  split; [|vm_compute; reflexivity].
  exact (proj1 (proj2 (operator_handlers_advance (H := demo_crypto) demo_cfg demo_identity demo_onew
    demo_onew demo_proposed demo_onew_inv (rtc_refl _ _) demo_create))).
Defined.

Lemma accepted_decision_witness :
  exists s' d p rq, demo_decide demo_oio demo_proposed = (s', Ok d) /\
    accepted (H := demo_crypto) (H0 := demo_signatures) demo_cfg demo_identity demo_proposed s'
      demo_oio demo_operator_peer (DecisionProof_to_dict demo_proof) rq p d.
Proof.
  destruct (find demo_proposed "proposal_1") as [p0|] eqn:Hp; [|exfalso; vm_compute in Hp; discriminate].
  destruct (demo_decide demo_oio demo_proposed) as [s' [d|e]] eqn:E;
    [|exfalso; vm_compute in E; discriminate].
  destruct (accepted_decision (H := demo_crypto) (H0 := demo_signatures) demo_cfg demo_identity
    demo_proposed demo_oio "proposal_1" "accept" "alice" "console" "looks safe" demo_operator_peer
    (DecisionProof_to_dict demo_proof) s' d p0 demo_proposed_inv demo_world Hp) as (rq & _ & Ha).
  - vm_compute in Hp. injection Hp as <-. vm_compute. reflexivity.
  - reflexivity.
  - exact E.
  - exists s', d, (expire (clock (call demo_oio 0) 0) p0), rq. split; [reflexivity|exact Ha].
Defined.

(** An executor that is gone: the permit is refused and the decision undone. *)
Definition demo_without_executor : doplane := set_base (set_gwy ActionGateway_new (base demo_proposed)) demo_proposed.

Lemma decision_completes_witness :
  exists s' e, demo_decide demo_oio demo_without_executor = (s', Err e) /\
    state_of s' "proposal_1" = Some P_INVALIDATED /\ supervision (base s') <> ARMED.
Proof.
  destruct (find demo_without_executor "proposal_1") as [p0|] eqn:Hp;
    [|exfalso; vm_compute in Hp; discriminate].
  destruct (demo_decide demo_oio demo_without_executor) as [s' r] eqn:E.
  assert (Hr : exists e, r = Err e /\ state_of s' "proposal_1" = Some P_INVALIDATED)
    by (vm_compute in E; injection E as <- <-; eexists; vm_compute; split; reflexivity).
  destruct Hr as (e & -> & Hst).
  destruct (decision_completes (H := demo_crypto) (H0 := demo_signatures) demo_cfg demo_identity
    demo_without_executor demo_oio "proposal_1" "accept" "alice" "console" "looks safe"
    demo_operator_peer (DecisionProof_to_dict demo_proof) s' (Err e) p0)
    as (p' & Hp' & _ & _ & _ & Harm).
  - exact (oinv_base (H := demo_crypto) _ _ demo_proposed_inv).
  - exact demo_world.
  - exact Hp.
  - vm_compute in Hp. injection Hp as <-. reflexivity.
  - exact E.
  - exists s', e. split; [reflexivity|]. split; [exact Hst|].
    apply (Harm e eq_refl); [vm_compute; discriminate|vm_compute; discriminate|].
    unfold state_of in Hst. unfold find in Hp'. rewrite Hp' in Hst. injection Hst as ->. discriminate.
Defined.

(** A second daemon on the ledger of the first. *)
Lemma restart_closes_pending_witness :
  exists s : doplane,
    oplane_restore (H0 := demo_signatures) demo_cfg demo_io ActionGateway_new
      (default [] (log_of (base demo_proposed))) 4 None = Ok s /\
    ps_proposals (props s) = [].
Proof.
  destruct (oplane_restore (H0 := demo_signatures) demo_cfg demo_io
    (ActionGateway_new (X := unit)) (default [] (log_of (base demo_proposed))) 4 None) as [s|] eqn:E;
    [|exfalso; vm_compute in E; discriminate].
  exists s. split; [reflexivity|].
  exact (proj1 (proj2 (restart_closes_pending (H := demo_crypto) demo_cfg demo_io ActionGateway_new
    (default [] (log_of (base demo_proposed))) 4 None s E))).
Defined.

(** ** What the handlers do not promise *)

(** The receipt and the nonce come after the submission: where the registry
    cannot be saved then, the decision reports an error although the action was
    submitted, and leaves the daemon armed. *)
Definition demo_full_disk : oio bool :=
  {| call := call demo_oio; o_creation := o_creation demo_oio; o_save := SaveRaised false;
     o_stamp := o_stamp demo_oio; moved_at := moved_at demo_oio; o_pid := o_pid demo_oio;
     o_gid := o_gid demo_oio; error_text := error_text demo_oio |}.

Lemma reported_failure_after_submission :
  exists s', demo_decide demo_full_disk demo_proposed = (s', Err Raised) /\
    state_of s' "proposal_1" = Some P_SUBMITTED /\ supervision (base s') = ARMED.
Proof.
  destruct (demo_decide demo_full_disk demo_proposed) as [s' r] eqn:E. exists s'.
  vm_compute in E. injection E as <- <-. vm_compute. split; [reflexivity|split; reflexivity].
Qed.

(** A proposal whose session cannot be created stays in the store, pending and
    never recorded in the ledger: the operator can still be shown it. *)
Definition demo_taken_session : doplane :=
  set_base (set_sess (create_session demo_now 0 [] "session_1" "other" "openclaw" ["arm-2"]
    ["arm.move"] 60000 demo_peer).1 (base demo_onew)) demo_onew.

Lemma unrecorded_proposal_stays :
  exists s' e, create_operator_proposal (H := demo_crypto) demo_cfg demo_oio demo_action demo_display
      (Fin 60 0) demo_peer None demo_taken_session = (s', Err e) /\
    state_of s' "proposal_1" = Some P_CREATED /\
    of_kind "OPERATOR_PROPOSAL" (default [] (log_of (base s'))) = [].
Proof.
  destruct (create_operator_proposal (H := demo_crypto) demo_cfg demo_oio demo_action demo_display
      (Fin 60 0) demo_peer None demo_taken_session) as [s' r] eqn:E.
  vm_compute in E. injection E as <- <-. do 2 eexists. vm_compute.
  split; [reflexivity|split; reflexivity].
Qed.
