(* ===== verification/JsonText.v ===== *)
(** JSON text as the wire carries it: [json.dumps] in insertion order, the reader
    [json.loads], UTF-8, and the rounding of a decimal literal to a float.

    A text the reader meets with a code point above U+00FF is [Wide]: strings here
    hold the code points below 256. Negative zero is zero. The interpreter's
    recursion limit is not modelled. *)

From Stdlib Require Import DecimalString DecimalPos.
From S2P Require Export Json.

(** ** Binary floating point *)

(** [n / d] to the nearest integer, ties to even. *)
Definition round_half_even (n d : Z) : Z :=
  let q := n / d in let r := n mod d in
  if 2 * r <? d then q else if d <? 2 * r then q + 1 else if Z.even q then q else q + 1.

(** The double nearest to [n / d > 0] as [(q, k)] for [q * 2^k]; [None] on
    overflow. The mantissa has 53 bits, fewer below the normal range. *)
Definition to_double (n d : Z) : option (Z * Z) :=
  let l := Z.log2 n - Z.log2 d in
  let below := if 0 <=? l then n <? d * 2 ^ l else n * 2 ^ (- l) <? d in
  let k := Z.max (-1074) (if below then l - 53 else l - 52) in
  let q := if 0 <=? k then round_half_even n (d * 2 ^ k) else round_half_even (n * 2 ^ (- k)) d in
  if (971 <? k) || ((k =? 971) && (q =? 2 ^ 53)) then None
  else Some (if q =? 2 ^ 53 then (2 ^ 52, k + 1) else (q, k)).

(** [m * 10^e] as a fraction. *)
Definition dec_ratio (m e : Z) : Z * Z := if 0 <=? e then (m * 10 ^ e, 1) else (m, 10 ^ (- e)).
Definition bin_ratio (q k : Z) : Z * Z := if 0 <=? k then (q * 2 ^ k, 1) else (q, 2 ^ (- k)).

Definition reads_as (x : Z * Z) (c e : Z) : bool :=
  let '(n, d) := dec_ratio c e in (0 <? c) && bool_decide (to_double n d = Some x).

(** The shortest decimal that reads as [x], the nearest to [x] of that length:
    at each place from [10^e] down, the multiples around [x]. *)
Fixpoint shortest (fuel : nat) (x : Z * Z) (e : Z) : option (Z * Z) :=
  match fuel with
  | O => None
  | S fuel' =>
      let '(n, d) := bin_ratio x.1 x.2 in
      let '(n, d) := if 0 <=? e then (n, d * 10 ^ e) else (n * 10 ^ (- e), d) in
      let near := round_half_even n d in
      let far := if near * d <=? n then near + 1 else near - 1 in
      if reads_as x near e then Some (near, e)
      else if reads_as x far e then Some (far, e)
      else shortest fuel' x (e - 1)
  end.

Definition dec_fuel (m : Z) : nat := Z.to_nat (Z.log2_up (Z.abs m) + 1).

(** [float("<m>e<e>")]: the double nearest to [m * 10^e], as its shortest decimal. *)
Definition round_decimal (m e : Z) : pyfloat :=
  let '(m, e) := dec_norm (dec_fuel m) m e in
  if m =? 0 then Fin 0 0
  else
    let p := len (Z_to_str (Z.abs m)) + e in
    if 310 <? p then Inf (m <? 0)
    else if p <? -330 then Fin 0 0
    else
      let '(n, d) := dec_ratio (Z.abs m) e in
      match to_double n d with
      | None => Inf (m <? 0)
      | Some x =>
          if x.1 =? 0 then Fin 0 0
          else match shortest 20 x p with
               | None => NaN
               | Some (c, e') =>
                   let '(c, e') := dec_norm (dec_fuel c) c e' in
                   Fin (if m <? 0 then - c else c) e'
               end
      end.

(** ** Reading *)

(** A [JSONDecodeError] (or a [UnicodeDecodeError]); the [ValueError] of an integer
    with too many digits; a character the model does not hold; fuel. *)
Inductive jerr := Malformed | TooManyDigits | Wide | Exhausted.

#[export] Instance jerr_eq_dec : EqDecision jerr.
Proof. solve_decision. Defined.

Definition is_digit (c : ascii) : bool := let o := ord c in (48 <=? o) && (o <=? 57).

Definition is_json_ws (c : ascii) : bool :=
  let o := ord c in (o =? 32) || (o =? 9) || (o =? 10) || (o =? 13).

Fixpoint skip_ws (s : string) : string :=
  match s with String c s' => if is_json_ws c then skip_ws s' else s | EmptyString => s end.

Fixpoint take_digits (s : string) : string * string :=
  match s with
  | String c s' => if is_digit c then let '(d, r) := take_digits s' in (String c d, r) else ("", s)
  | EmptyString => ("", "")
  end.

(** The number a run of digits after [acc] denotes. *)
Fixpoint dec_value (acc : Z) (s : string) : Z :=
  match s with String c s' => dec_value (acc * 10 + (ord c - 48)) s' | EmptyString => acc end.

(** [sys.int_info.default_max_str_digits]: [int] and [str] refuse longer texts. *)
Definition MAX_STR_DIGITS : Z := 4300.

Definition int_part (s : string) : option (string * string) :=
  match s with
  | String c r => if ord c =? 48 then Some ("0", r)
                  else if is_digit c then Some (take_digits s) else None
  | EmptyString => None
  end.

(** The digits after a point; none unless one follows it. *)
Definition frac_part (s : string) : string * string :=
  match s with
  | String "." r => match take_digits r with (EmptyString, _) => ("", s) | p => p end
  | _ => ("", s)
  end.

Definition exp_part (s : string) : option Z * string :=
  match s with
  | String c r =>
      if (ord c =? 101) || (ord c =? 69) then
        let '(neg, r) := match r with
                         | String "-" r' => (true, r') | String "+" r' => (false, r') | _ => (false, r)
                         end in
        match take_digits r with
        | (EmptyString, _) => (None, s)
        | (d, r') => (Some (if neg then - dec_value 0 d else dec_value 0 d), r')
        end
      else (None, s)
  | EmptyString => (None, s)
  end.

Definition signed (neg : bool) (z : Z) : Z := if neg then - z else z.

(** A number after its sign. *)
Definition scan_unsigned (neg : bool) (s : string) : result jerr (json * string) :=
  let* x := of_option (int_part s) Malformed in
  let '(ip, r) := x in
  let '(fp, r) := frac_part r in
  let '(xp, r) := exp_part r in
  match fp, xp with
  | EmptyString, None =>
      guard! len ip <=? MAX_STR_DIGITS else TooManyDigits in
      Ok (JInt (signed neg (dec_value 0 ip)), r)
  | _, _ =>
      Ok (JFloat (round_decimal (signed neg (dec_value 0 (ip +:+ fp))) (default 0 xp - len fp)), r)
  end.

Definition scan_number (s : string) : result jerr (json * string) :=
  match s with String "-" r => scan_unsigned true r | _ => scan_unsigned false s end.

Definition hex_value (c : ascii) : option Z :=
  let o := ord c in
  if is_digit c then Some (o - 48)
  else if (97 <=? o) && (o <=? 102) then Some (o - 87)
  else if (65 <=? o) && (o <=? 70) then Some (o - 55) else None.

Definition hex4 (a b c d : ascii) : option Z :=
  x ← hex_value a; y ← hex_value b; z ← hex_value c; t ← hex_value d;
  Some (((x * 16 + y) * 16 + z) * 16 + t).

Definition simple_escape (c : ascii) : option ascii :=
  let o := ord c in
  if (o =? 34) || (o =? 92) || (o =? 47) then Some c
  else if o =? 98 then Some (ascii_of_N 8) else if o =? 102 then Some (ascii_of_N 12)
  else if o =? 110 then Some (ascii_of_N 10) else if o =? 114 then Some (ascii_of_N 13)
  else if o =? 116 then Some (ascii_of_N 9) else None.

(** Prepend a character to what the rest of a text reads as. *)
Definition cons_char (c : ascii) (m : result jerr (string * string)) : result jerr (string * string) :=
  let* p := m in Ok (String c p.1, p.2).

(** The text after an opening quote, and what follows the closing one; a control
    character is refused. *)
Fixpoint scan_string (s : string) : result jerr (string * string) :=
  match s with
  | EmptyString => Err Malformed
  | String c r =>
      if ord c =? 34 then Ok ("", r)
      else if ord c =? 92 then
        match r with
        | String "u" (String a (String b (String x (String y r')))) =>
            match hex4 a b x y with
            | None => Err Malformed
            | Some z => if z <? 256 then cons_char (ascii_of_N (Z.to_N z)) (scan_string r')
                        else let* _ := scan_string r' in Err Wide
            end
        | String e r' => match simple_escape e with
                         | Some ch => cons_char ch (scan_string r')
                         | None => Err Malformed
                         end
        | EmptyString => Err Malformed
        end
      else if ord c <? 32 then Err Malformed
      else cons_char c (scan_string r)
  end.

Definition expect (c : ascii) (s : string) : result jerr string :=
  match s with
  | String c' r => if Ascii.eqb c c' then Ok r else Err Malformed
  | EmptyString => Err Malformed
  end.

Definition literal (t : string) (v : json) (s : string) : result jerr (json * string) :=
  if String.prefix t s then Ok (v, String.substring (String.length t)
                                     (String.length s - String.length t) s)
  else Err Malformed.

(** What [parse_constant] is to do with [NaN], [Infinity] and [-Infinity]: by
    default it makes the float; [_reject_non_finite_json] raises [ValueError]. *)
Definition float_constant (f : pyfloat) : result jerr json := Ok (JFloat f).
Definition reject_non_finite_json (f : pyfloat) : result jerr json := Err Malformed.

Definition constant (parse_constant : pyfloat -> result jerr json) (t : string) (f : pyfloat)
    (s : string) : result jerr (json * string) :=
  let* v := parse_constant f in literal t v s.

(** One value at the head of a text, and the text after it. *)
Fixpoint scan (pc : pyfloat -> result jerr json) (fuel : nat) (s : string)
  : result jerr (json * string) :=
  match fuel with
  | O => Err Exhausted
  | S n =>
      match s with
      | EmptyString => Err Malformed
      | String c r =>
          if ord c =? 34 then let* p := scan_string r in Ok (JStr p.1, p.2)
          else if ord c =? 123 then
            match skip_ws r with
            | String "}" r' => Ok (JObj [], r')
            | r' => scan_members pc n [] r'
            end
          else if ord c =? 91 then
            match skip_ws r with
            | String "]" r' => Ok (JList [], r')
            | r' => scan_items pc n [] r'
            end
          else if ord c =? 110 then literal "null" JNull s
          else if ord c =? 116 then literal "true" (JBool true) s
          else if ord c =? 102 then literal "false" (JBool false) s
          else if String.prefix "NaN" s then constant pc "NaN" NaN s
          else if String.prefix "Infinity" s then constant pc "Infinity" (Inf false) s
          else if String.prefix "-Infinity" s then constant pc "-Infinity" (Inf true) s
          else scan_number s
      end
  end
(** The members after [acc], from the quote of a key to the closing brace. *)
with scan_members (pc : pyfloat -> result jerr json) (fuel : nat) (acc : dict json) (s : string)
  : result jerr (json * string) :=
  match fuel with
  | O => Err Exhausted
  | S n =>
      let* r := expect (ascii_of_N 34) s in
      let* kr := scan_string r in
      let* r := expect ":" (skip_ws kr.2) in
      let* vr := scan pc n (skip_ws r) in
      match skip_ws vr.2 with
      | String "}" r' => Ok (JObj (dset acc kr.1 vr.1), r')
      | String "," r' => scan_members pc n (dset acc kr.1 vr.1) (skip_ws r')
      | _ => Err Malformed
      end
  end
with scan_items (pc : pyfloat -> result jerr json) (fuel : nat) (acc : list json) (s : string)
  : result jerr (json * string) :=
  match fuel with
  | O => Err Exhausted
  | S n =>
      let* vr := scan pc n s in
      match skip_ws vr.2 with
      | String "]" r' => Ok (JList (acc ++ [vr.1]), r')
      | String "," r' => scan_items pc n (acc ++ [vr.1]) (skip_ws r')
      | _ => Err Malformed
      end
  end.

(** [json.loads(text, parse_constant=pc)] *)
Definition loads_with (pc : pyfloat -> result jerr json) (s : string) : result jerr json :=
  let* vr := scan pc (S (2 * String.length s)) (skip_ws s) in
  match skip_ws vr.2 with EmptyString => Ok vr.1 | _ => Err Malformed end.

(** [json.loads(text)], and the protocol's. *)
Definition json_loads : string -> result jerr json := loads_with float_constant.
Definition strict_loads : string -> result jerr json := loads_with reject_non_finite_json.

(** ** Writing *)

(** [json.dumps(v, ensure_ascii=False, separators=(",", ":"), allow_nan=False)];
    [None] where it raises [ValueError]. *)
Fixpoint wire_text (j : json) : option string :=
  match j with
  | JNull => Some "null"
  | JBool b => Some (if b then "true" else "false")
  | JInt z => if len (Z_to_str (Z.abs z)) <=? MAX_STR_DIGITS then Some (Z_to_str z) else None
  | JFloat (Fin m e) => Some (float_repr m e)
  | JFloat _ => None
  | JStr s => Some (quote s)
  | JList l =>
      parts ← (fix go l := match l with
                           | [] => Some []
                           | x :: l' => s ← wire_text x; r ← go l'; Some (s :: r)
                           end) l;
      Some ("[" +:+ join "," parts +:+ "]")
  | JObj d =>
      parts ← (fix go (d : list (string * json)) :=
                 match d with
                 | [] => Some []
                 | (k, x) :: d' => s ← wire_text x; r ← go d'; Some ((quote k +:+ ":" +:+ s) :: r)
                 end) d;
      Some ("{" +:+ join "," parts +:+ "}")
  end.

(** The member [k: v] of an object's text. *)
Definition wire_member (kv : string * json) : option string :=
  s ← wire_text kv.2; Some (quote kv.1 +:+ ":" +:+ s).

Lemma wire_text_list l :
  wire_text (JList l) = (parts ← mapM wire_text l; Some ("[" +:+ join "," parts +:+ "]")).
Proof. cbn [wire_text]. f_equal. Qed.

Lemma wire_member_eq k x : wire_member (k, x) = (s ← wire_text x; Some (quote k +:+ ":" +:+ s)).
Proof. done. Qed.

Lemma wire_text_obj d :
  wire_text (JObj d) = (parts ← mapM wire_member d; Some ("{" +:+ join "," parts +:+ "}")).
Proof.
  cbn [wire_text]. f_equal. induction d as [|[k x] d IH]; [done|]. cbn [mapM].
  rewrite wire_member_eq, <- IH. by destruct (wire_text x).
Qed.

(** A value that Python can hold and the writer accept: integers short enough,
    floats that are doubles, distinct keys. *)
Definition normalised (m e : Z) : bool := if m =? 0 then e =? 0 else negb (m mod 10 =? 0).

Definition is_double (m e : Z) : bool := normalised m e && bool_decide (round_decimal m e = Fin m e).

Fixpoint wire_ok (j : json) : bool :=
  match j with
  | JInt z => len (Z_to_str (Z.abs z)) <=? MAX_STR_DIGITS
  | JFloat (Fin m e) => is_double m e
  | JFloat _ => false
  | JList l => forallb wire_ok l
  | JObj d => bool_decide (NoDup (dkeys d)) && forallb (fun kv => wire_ok kv.2) d
  | _ => true
  end.

(** ** UTF-8 *)

Definition byte (z : Z) : ascii := ascii_of_N (Z.to_N z).

Definition utf8_char (c : ascii) : string :=
  let o := ord c in
  if o <? 128 then String c "" else String (byte (192 + o / 64)) (String (byte (128 + o mod 64)) "").

(** [s.encode("utf-8")], as the text of its bytes. *)
Fixpoint utf8_encode (s : string) : string :=
  match s with String c s' => utf8_char c +:+ utf8_encode s' | EmptyString => "" end.

Definition continues (c : ascii) : bool := let o := ord c in (128 <=? o) && (o <=? 191).

Definition then_wide (m : result jerr string) : result jerr string := let* _ := m in Err Wide.

(** [b.decode("utf-8")]: strict, so an overlong form, a surrogate, a value above
    U+10FFFF and a truncated sequence are errors. *)
Fixpoint utf8_decode (b : string) : result jerr string :=
  match b with
  | EmptyString => Ok ""
  | String c r =>
      let o := ord c in
      if o <? 128 then let* s := utf8_decode r in Ok (String c s)
      else if (194 <=? o) && (o <=? 223) then
        match r with
        | String c1 r' =>
            if continues c1 then
              if o <=? 195 then
                let* s := utf8_decode r' in Ok (String (byte ((o - 192) * 64 + (ord c1 - 128))) s)
              else then_wide (utf8_decode r')
            else Err Malformed
        | EmptyString => Err Malformed
        end
      else if (224 <=? o) && (o <=? 239) then
        match r with
        | String c1 (String c2 r') =>
            if continues c1 && continues c2 && (negb (o =? 224) || (160 <=? ord c1))
               && (negb (o =? 237) || (ord c1 <? 160))
            then then_wide (utf8_decode r') else Err Malformed
        | _ => Err Malformed
        end
      else if (240 <=? o) && (o <=? 244) then
        match r with
        | String c1 (String c2 (String c3 r')) =>
            if continues c1 && continues c2 && continues c3
               && (negb (o =? 240) || (144 <=? ord c1)) && (negb (o =? 244) || (ord c1 <? 144))
            then then_wide (utf8_decode r') else Err Malformed
        | _ => Err Malformed
        end
      else Err Malformed
  end.

(** ** The reader always has fuel enough *)

Lemma skip_ws_length s : (String.length (skip_ws s) <= String.length s)%nat.
Proof. induction s as [|c s IH]; simpl; [done|]. destruct (is_json_ws c); simpl; lia. Qed.

Lemma take_digits_length s : (String.length (take_digits s).2 <= String.length s)%nat.
Proof.
  induction s as [|c s IH]; simpl; [done|].
  destruct (is_digit c); [|simpl; lia]. destruct (take_digits s). simpl in *. lia.
Qed.

Lemma scan_string_length n s t r :
  (String.length s <= n)%nat -> scan_string s = Ok (t, r) -> (String.length r < String.length s)%nat.
Proof.
  revert s t. induction n as [|n IH]; intros s t Hn; (destruct s as [|c s]; [done|]);
    cbn [String.length] in *; [lia|].
  assert (Hc : forall ch s' , (String.length s' <= String.length s)%nat ->
            cons_char ch (scan_string s') = Ok (t, r) -> (String.length r < S (String.length s))%nat).
  { intros ch s' Hs'. unfold cons_char. destruct (scan_string s') as [[t' r']|] eqn:E; [|done].
    intros [= _ <-]. apply IH in E; lia. }
  cbn [scan_string]. destruct (ord c =? 34); [intros [= _ <-]; lia|].
  destruct (ord c =? 92).
  - destruct s as [|e s]; [done|]. cbn [String.length] in *.
    assert (Hs : forall ch, cons_char ch (scan_string s) = Ok (t, r) ->
              (String.length r < S (S (String.length s)))%nat).
    { intros ch. apply Hc. lia. }
    destruct e as [[] [] [] [] [] [] [] []]; try done; try apply Hs.
    destruct s as [|a [|b [|x [|y s]]]]; try done.
    destruct (hex4 a b x y) as [z|]; [|done]. destruct (z <? 256).
    + apply Hc. cbn [String.length]. lia.
    + by destruct (scan_string s).
  - destruct (ord c <? 32); [done|]. by apply Hc.
Qed.

Lemma int_part_length s ip r : int_part s = Some (ip, r) -> (String.length r < String.length s)%nat.
Proof.
  destruct s as [|c s]; [done|]. cbn [int_part String.length].
  destruct (ord c =? 48); [intros [= _ <-]; lia|]. destruct (is_digit c) eqn:Ed; [|done].
  pose proof (take_digits_length s) as Hl. cbn [take_digits]. rewrite Ed.
  destruct (take_digits s). simpl in *. intros [= _ <-]. lia.
Qed.

Lemma frac_part_length s : (String.length (frac_part s).2 <= String.length s)%nat.
Proof.
  destruct s as [|[[] [] [] [] [] [] [] []] s]; try (simpl; lia).
  cbn [frac_part]. pose proof (take_digits_length s) as Hl.
  destruct (take_digits s) as [[|d t] r]; simpl in *; lia.
Qed.

Lemma exp_part_length s : (String.length (exp_part s).2 <= String.length s)%nat.
Proof.
  destruct s as [|c s]; [simpl; lia|]. cbn [exp_part].
  destruct ((ord c =? 101) || (ord c =? 69)); [|simpl; lia].
  assert (Hd : forall neg t, (String.length t <= String.length s)%nat ->
    (String.length (match take_digits t with
       | (EmptyString, _) => (None, String c s)
       | (d, r') => (Some (if neg : bool then - dec_value 0 d else dec_value 0 d), r')
       end).2 <= String.length (String c s))%nat).
  { intros neg t Ht. pose proof (take_digits_length t). destruct (take_digits t) as [[|? ?] ?]; simpl in *; lia. }
  destruct s as [|[[] [] [] [] [] [] [] []] s]; first [apply (Hd false)|apply (Hd true)]; simpl; lia.
Qed.

Lemma scan_unsigned_length neg s v r :
  scan_unsigned neg s = Ok (v, r) -> (String.length r < String.length s)%nat.
Proof.
  unfold scan_unsigned. destruct (int_part s) as [[ip r1]|] eqn:Ei; [|done].
  apply int_part_length in Ei. cbn [of_option rbind].
  pose proof (frac_part_length r1) as Hf. destruct (frac_part r1) as [fp r2].
  pose proof (exp_part_length r2) as Hx. destruct (exp_part r2) as [xp r3]. simpl in *.
  intros H. assert (r3 = r) as <-; [|lia].
  destruct fp; [destruct xp|]; [congruence| |congruence].
  by destruct (len ip <=? MAX_STR_DIGITS); simplify_eq/=.
Qed.

Lemma scan_number_length s v r :
  scan_number s = Ok (v, r) -> (String.length r < String.length s)%nat.
Proof.
  destruct s as [|[[] [] [] [] [] [] [] []] s]; try apply scan_unsigned_length.
  intros H%scan_unsigned_length. simpl. lia.
Qed.

Lemma substring_length n m s : (String.length (String.substring n m s) <= m)%nat.
Proof.
  revert n m. induction s as [|c s IH]; intros [|n] [|m]; simpl; try lia.
  - specialize (IH 0%nat m). lia.
  - specialize (IH n 0%nat). lia.
  - specialize (IH n (S m)). lia.
Qed.

Lemma literal_length c t v s w r :
  literal (String c t) v s = Ok (w, r) -> (String.length r < String.length s)%nat.
Proof.
  unfold literal. destruct (String.prefix (String c t) s) eqn:E; [|done].
  intros [= _ <-]. destruct s as [|d s]; [done|].
  pose proof (substring_length (String.length (String c t))
    (String.length (String d s) - String.length (String c t)) (String d s)).
  cbn [String.length] in *. lia.
Qed.

Lemma expect_length c s r : expect c s = Ok r -> (String.length r < String.length s)%nat.
Proof. destruct s as [|d s]; simpl; [done|]. destruct (Ascii.eqb c d); [intros [= <-]; lia|done]. Qed.

(** What a reading step leaves is shorter than what it was given, and a fuel
    above [b] is never exhausted. *)
Definition fits {A} (n b : nat) (s : string) (m : result jerr (A * string)) : Prop :=
  match m with
  | Ok p => (String.length p.2 < String.length s)%nat
  | Err e => (b < n)%nat -> e <> Exhausted
  end.

Lemma fits_bind {A B} n b s (m : result jerr A) (k : A -> result jerr (B * string)) :
  ((b < n)%nat -> m <> Err Exhausted) -> (forall a, m = Ok a -> fits n b s (k a)) ->
  fits n b s (rbind m k).
Proof. destruct m as [a|e]; simpl; intros He Hk; [by apply Hk|]. intros Hb ->. by apply He. Qed.

Lemma fits_le {A} n n' b b' s s' (m : result jerr (A * string)) :
  fits n b s m -> (String.length s <= String.length s')%nat -> ((b' < n')%nat -> (b < n)%nat) ->
  fits n' b' s' m.
Proof. destruct m as [p|e]; simpl; intros; [lia|auto]. Qed.

Lemma fits_no_fuel {A} n b s (m : result jerr (A * string)) :
  (forall p, m = Ok p -> (String.length p.2 < String.length s)%nat) -> m <> Err Exhausted ->
  fits n b s m.
Proof. destruct m as [p|e]; simpl; intros Hl He; [by apply Hl|intros _ ->; done]. Qed.

Lemma scan_string_no_fuel s : scan_string s <> Err Exhausted.
Proof.
  enough (H : forall n s, (String.length s <= n)%nat -> scan_string s <> Err Exhausted)
    by by apply (H (String.length s)).
  clear s. induction n as [|n IH]; intros [|c s] Hn; try done; cbn [String.length] in *; [lia|].
  assert (Hc : forall ch s', (String.length s' <= String.length s)%nat ->
            cons_char ch (scan_string s') <> Err Exhausted).
  { intros ch s' Hs' H. unfold cons_char in H. apply rbind_err in H as [H|(? & _ & H)]; [|done].
    apply IH in H; [done|lia]. }
  cbn [scan_string]. destruct (ord c =? 34); [done|]. destruct (ord c =? 92).
  - destruct s as [|e s]; [done|].
    assert (Hs : forall ch, cons_char ch (scan_string s) <> Err Exhausted).
    { intros ch. apply Hc. simpl. lia. }
    destruct e as [[] [] [] [] [] [] [] []]; try done; try apply Hs.
    destruct s as [|a [|b [|x [|y s]]]]; try done.
    destruct (hex4 a b x y) as [z|]; [|done]. destruct (z <? 256).
    + apply Hc. cbn [String.length]. lia.
    + intros H. apply rbind_err in H as [H|(? & _ & H)]; [|done].
      apply IH in H; [done|simpl in Hn; lia].
  - destruct (ord c <? 32); [done|]. by apply Hc.
Qed.

Lemma scan_unsigned_no_fuel neg s : scan_unsigned neg s <> Err Exhausted.
Proof.
  unfold scan_unsigned. destruct (int_part s) as [[ip r]|]; [|done]. cbn [of_option rbind].
  destruct (frac_part r) as [[|c fp] r1], (exp_part r1) as [[x|] r2]; try done.
  by destruct (len ip <=? MAX_STR_DIGITS).
Qed.

Lemma scan_number_no_fuel s : scan_number s <> Err Exhausted.
Proof. destruct s as [|[[] [] [] [] [] [] [] []] s]; apply scan_unsigned_no_fuel. Qed.

Lemma expect_no_fuel c s : expect c s <> Err Exhausted.
Proof. destruct s as [|d s]; simpl; [done|]. by destruct (Ascii.eqb c d). Qed.

Lemma literal_fits n b c t v s : fits n b s (literal (String c t) v s).
Proof.
  apply fits_no_fuel; [intros [w r]; apply literal_length|].
  unfold literal. by destruct (String.prefix _ _).
Qed.

Lemma constant_fits pc n b c t f s : (forall g, pc g <> Err Exhausted) ->
  fits n b s (constant pc (String c t) f s).
Proof. intros Hpc. apply fits_bind; [intros _; apply Hpc|]. intros v _. apply literal_fits. Qed.

Lemma scan_number_fits n b s : fits n b s (scan_number s).
Proof.
  apply fits_no_fuel; [intros [v r]; apply scan_number_length|apply scan_number_no_fuel].
Qed.

(** Step one character into the text [t] left after a value. *)
Ltac next_char t :=
  destruct t as [|[[] [] [] [] [] [] [] []] t]; try (intros _ [=]); cbn [String.length] in *.

Section ScanEnds.
Variable pc : pyfloat -> result jerr json.
Hypothesis Hpc : forall f, pc f <> Err Exhausted.

Lemma scan_fits_all n :
  (forall s, fits n (2 * String.length s) s (scan pc n s)) /\
  (forall acc s, fits n (2 * String.length s) s (scan_members pc n acc s)) /\
  (forall acc s, fits n (2 * String.length s + 1) s (scan_items pc n acc s)).
Proof using Hpc.
  induction n as [|n (IHs & IHm & IHi)]; [by split_and!; intros; simpl; lia|]. split_and!.
  - intros [|c r]; [by intros _|]. cbn [scan].
    pose proof (skip_ws_length r) as Hw.
    destruct (ord c =? 34).
    { apply fits_bind; [intros _; apply scan_string_no_fuel|]. intros [t r'] Ht. simpl.
      apply (scan_string_length _ _ _ _ (le_n _)) in Ht. lia. }
    destruct (ord c =? 123).
    { assert (Hm : fits (S n) (2 * String.length (String c r)) (String c r)
                     (scan_members pc n [] (skip_ws r)))
        by (eapply fits_le; [apply IHm| |]; simpl; lia).
      destruct (skip_ws r) as [|[[] [] [] [] [] [] [] []] r']; try exact Hm. simpl in *. lia. }
    destruct (ord c =? 91).
    { assert (Hm : fits (S n) (2 * String.length (String c r)) (String c r)
                     (scan_items pc n [] (skip_ws r)))
        by (eapply fits_le; [apply IHi| |]; simpl; lia).
      destruct (skip_ws r) as [|[[] [] [] [] [] [] [] []] r']; try exact Hm. simpl in *. lia. }
    destruct (ord c =? 110); [apply literal_fits|]. destruct (ord c =? 116); [apply literal_fits|].
    destruct (ord c =? 102); [apply literal_fits|].
    repeat match goal with |- context [if String.prefix ?t _ then _ else _] =>
      destruct (String.prefix t _); [by apply constant_fits|] end.
    apply scan_number_fits.
  - intros acc s. cbn [scan_members].
    apply fits_bind; [intros _; apply expect_no_fuel|].
    intros r1 H1. apply expect_length in H1.
    apply fits_bind; [intros _; apply scan_string_no_fuel|]. intros [k r2] H2.
    apply (scan_string_length _ _ _ _ (le_n _)) in H2. cbn [fst snd].
    pose proof (skip_ws_length r2).
    apply fits_bind; [intros _; apply expect_no_fuel|].
    intros r3 H3. apply expect_length in H3. pose proof (skip_ws_length r3).
    apply fits_bind.
    { intros Hb He. specialize (IHs (skip_ws r3)). rewrite He in IHs. apply IHs; [lia|done]. }
    intros [v r4] H4. specialize (IHs (skip_ws r3)). rewrite H4 in IHs. cbn [fits fst snd] in *.
    pose proof (skip_ws_length r4). set (u := skip_ws r4) in *. clearbody u.
    next_char u; [cbn [fits snd]; lia|].
    pose proof (skip_ws_length u). eapply fits_le; [apply IHm| |]; lia.
  - intros acc s. cbn [scan_items]. apply fits_bind.
    { intros Hb He. specialize (IHs s). rewrite He in IHs. apply IHs; [lia|done]. }
    intros [v r4] H4. specialize (IHs s). rewrite H4 in IHs. cbn [fits fst snd] in *.
    pose proof (skip_ws_length r4). set (u := skip_ws r4) in *. clearbody u.
    next_char u; [cbn [fits snd]; lia|].
    pose proof (skip_ws_length u). eapply fits_le; [apply IHi| |]; lia.
Qed.

Lemma scan_fits n s : fits n (2 * String.length s) s (scan pc n s).
Proof using Hpc. apply scan_fits_all. Qed.

(** Reading a text ends: in a value, in a refusal or at a wide character. *)
Lemma loads_with_ends s : loads_with pc s <> Err Exhausted.
Proof using Hpc.
  unfold loads_with. intros H. apply rbind_err in H as [H|([v r] & _ & H)].
  - pose proof (scan_fits (S (2 * String.length s)) (skip_ws s)) as Hf. rewrite H in Hf.
    pose proof (skip_ws_length s). apply Hf; [lia|done].
  - cbn [snd fst] in H. by destruct (skip_ws r).
Qed.
End ScanEnds.

Lemma json_loads_ends s : json_loads s <> Err Exhausted.
Proof. by apply loads_with_ends. Qed.
Lemma strict_loads_ends s : strict_loads s <> Err Exhausted.
Proof. by apply loads_with_ends. Qed.

(** ** Digits *)

(** The end of a text, or the separator after a value in an array or object. *)
Definition delimited (r : string) : bool :=
  match r with
  | EmptyString => true
  | String c _ => let o := ord c in (o =? 44) || (o =? 93) || (o =? 125)
  end.

Definition no_digit (r : string) : bool :=
  match r with String c _ => negb (is_digit c) | EmptyString => true end.

Lemma append_empty_r (s : string) : s +:+ "" = s.
Proof. induction s as [|c s IH]; simpl; [done|]. by rewrite IH. Qed.

Lemma len_app s t : len (s +:+ t) = len s + len t.
Proof.
  unfold len. induction s as [|c s IH]; [done|]. cbn [String.append String.length]. lia.
Qed.

Lemma len_nonneg s : 0 <= len s.
Proof. unfold len. lia. Qed.

Lemma str_all_app p s t : str_all p (s +:+ t) = str_all p s && str_all p t.
Proof. induction s as [|c s IH]; simpl; [done|]. by rewrite IH, andb_assoc. Qed.

Lemma take_digits_run d r : str_all is_digit d = true -> no_digit r = true -> take_digits (d +:+ r) = (d, r).
Proof.
  intros Hd Hr. induction d as [|c d IH]; simpl in *.
  - destruct r as [|c r]; simpl in *; [done|]. by destruct (is_digit c).
  - apply andb_true_iff in Hd as [-> Hd]. by rewrite IH.
Qed.

Lemma dec_value_app acc s t : dec_value acc (s +:+ t) = dec_value (dec_value acc s) t.
Proof. revert acc. induction s as [|c s IH]; intros acc; simpl; [done|apply IH]. Qed.

Lemma dec_value_acc acc s : dec_value acc s = acc * 10 ^ len s + dec_value 0 s.
Proof.
  revert acc. induction s as [|c s IH]; intros acc; [change (len "") with 0; simpl dec_value; lia|].
  cbn [dec_value]. rewrite (IH (acc * 10 + _)), (IH (0 * 10 + _)).
  replace (len (String c s)) with (1 + len s) by (unfold len; cbn [String.length]; lia).
  rewrite Z.pow_add_r by (unfold len; lia). lia.
Qed.

Lemma dec_value_zeros n acc : dec_value acc (zeros n) = acc * 10 ^ Z.of_nat n.
Proof.
  revert acc. induction n as [|n IH]; intros acc; [simpl; lia|]. cbn [zeros dec_value].
  rewrite IH, Nat2Z.inj_succ, Z.pow_succ_r by lia. change (ord "0") with 48. lia.
Qed.

Lemma zeros_digits n : str_all is_digit (zeros n) = true.
Proof. by induction n. Qed.

Lemma len_zeros n : len (zeros n) = Z.of_nat n.
Proof. unfold len. f_equal. by induction n; simpl; [|f_equal]. Qed.

(** *** The decimal text of a positive number *)

Lemma uint_text_digits d : str_all is_digit (NilEmpty.string_of_uint d) = true.
Proof. by induction d. Qed.

Ltac eval_ord :=
  repeat match goal with |- context [ord ?c] =>
    let v := eval vm_compute in (ord c) in change (ord c) with v end.

Lemma uint_text_value d p :
  dec_value (Zpos p) (NilEmpty.string_of_uint d) = Zpos (Pos.of_uint_acc d p).
Proof.
  revert p. induction d as [|d IH|d IH|d IH|d IH|d IH|d IH|d IH|d IH|d IH|d IH]; intros p;
    [done|..]; cbn [NilEmpty.string_of_uint dec_value Pos.of_uint_acc];
    rewrite <- IH; f_equal; eval_ord; lia.
Qed.

Lemma nzhead_not_D0 d d' : Decimal.nzhead d <> Decimal.D0 d'.
Proof. by induction d. Qed.

Lemma to_uint_head p d : Pos.to_uint p <> Decimal.D0 d.
Proof.
  intros E. pose proof (DecimalPos.Unsigned.to_of (Pos.to_uint p)) as H.
  rewrite DecimalPos.Unsigned.of_to in H. cbn [N.to_uint] in H. rewrite E in H.
  unfold Decimal.unorm in H. cbn [Decimal.nzhead] in H.
  destruct (Decimal.nzhead d) eqn:En; try discriminate.
  - injection H as ->. by apply (DecimalPos.Unsigned.to_uint_nonzero p).
  - by apply nzhead_not_D0 in En.
Qed.

Lemma Pos_text p : exists c s, Z_to_str (Zpos p) = String c s /\
  str_all is_digit (String c s) = true /\ ord c <> 48 /\ dec_value 0 (String c s) = Zpos p.
Proof.
  assert (Hz : Z_to_str (Zpos p) = NilEmpty.string_of_uint (Pos.to_uint p)).
  { unfold Z_to_str. cbn [Z.to_int NilZero.string_of_int].
    pose proof (DecimalPos.Unsigned.to_uint_nonnil p). by destruct (Pos.to_uint p). }
  rewrite Hz. pose proof (DecimalPos.Unsigned.of_to p) as Hv.
  pose proof (uint_text_digits (Pos.to_uint p)) as Hd.
  pose proof (to_uint_head p) as Hh.
  destruct (Pos.to_uint p) as [|d|d|d|d|d|d|d|d|d|d] eqn:E;
    [by destruct (DecimalPos.Unsigned.to_uint_nonnil p)|by destruct (Hh d)|..].
  all: cbn [NilEmpty.string_of_uint] in *; eexists _, _; split; [done|]; split; [done|];
    split; [done|]; cbn [dec_value]; eval_ord; cbn [Z.mul Z.add Z.sub Z.opp Z.pos_sub Pos.add];
    (etransitivity; [apply uint_text_value|]; simpl in Hv; injection Hv as Hv; by rewrite Hv).
Qed.

(** *** Numbers read back *)

Lemma Z_text_nonneg z r : 0 <= z -> no_digit r = true ->
  int_part (Z_to_str z +:+ r) = Some (Z_to_str z, r).
Proof.
  intros Hz Hr. destruct z as [|p|p]; [|clear Hz|lia]; [done|].
  destruct (Pos_text p) as (c & s & -> & Hd & Hc & _). cbn [String.append int_part].
  apply Z.eqb_neq in Hc as ->. pose proof (take_digits_run (String c s) r Hd Hr) as Ht.
  cbn [String.append] in Ht. rewrite Ht. simpl in Hd. by apply andb_true_iff in Hd as [-> _].
Qed.

Lemma Z_text_digits z : 0 <= z -> str_all is_digit (Z_to_str z) = true.
Proof.
  intros Hz. destruct z as [|p|p]; [done| |lia]. by destruct (Pos_text p) as (c & s & -> & Hd & _).
Qed.

Lemma Z_text_value z : 0 <= z -> dec_value 0 (Z_to_str z) = z.
Proof.
  intros Hz. destruct z as [|p|p]; [done| |lia]. by destruct (Pos_text p) as (c & s & -> & _ & _ & Hv).
Qed.

Lemma Z_text_head z : 0 <= z -> exists c s, Z_to_str z = String c s /\ is_digit c = true.
Proof.
  intros Hz. pose proof (Z_text_digits z Hz) as Hd. destruct z as [|p|p]; [by eexists _, _|clear Hz|lia].
  destruct (Pos_text p) as (c & s & E & _). rewrite E in Hd. simpl in Hd.
  apply andb_true_iff in Hd as [Hd _]. by eexists _, _.
Qed.

Lemma scan_number_digit c s : is_digit c = true -> scan_number (String c s) = scan_unsigned false (String c s).
Proof. by destruct c as [[] [] [] [] [] [] [] []]. Qed.

(** A sign before a text that begins with a digit. *)
Lemma scan_number_sign (neg : bool) c s : is_digit c = true ->
  scan_number ((if neg then "-" else "") +:+ String c s) = scan_unsigned neg (String c s).
Proof. intros Hc. destruct neg; [done|by apply scan_number_digit]. Qed.

Lemma delimited_parts r : delimited r = true ->
  no_digit r = true /\ frac_part r = ("", r) /\ exp_part r = (None, r).
Proof. destruct r as [|[[] [] [] [] [] [] [] []] r]; try done. Qed.

Lemma scan_unsigned_int neg z r :
  0 <= z -> (len (Z_to_str z) <=? MAX_STR_DIGITS) = true -> delimited r = true ->
  scan_unsigned neg (Z_to_str z +:+ r) = Ok (JInt (signed neg z), r).
Proof.
  intros Hz Hl (Hn & Hf & Hx)%delimited_parts. unfold scan_unsigned.
  rewrite Z_text_nonneg by done. cbn [of_option rbind]. rewrite Hf, Hx, Hl. simpl.
  by rewrite Z_text_value.
Qed.

Lemma Z_text_sign z : Z_to_str z = (if z <? 0 then "-" else "") +:+ Z_to_str (Z.abs z).
Proof. by destruct z. Qed.

Lemma signed_abs z : signed (z <? 0) (Z.abs z) = z.
Proof. destruct z; simpl; done. Qed.

(** A signed text that begins with a digit. *)
Lemma scan_number_signed z body r f :
  (exists c s, body = String c s /\ is_digit c = true) ->
  (forall neg, scan_unsigned neg (body +:+ r) = f neg) ->
  scan_number (((if z <? 0 then "-" else "") +:+ body) +:+ r) = f (z <? 0).
Proof.
  intros (c & s & -> & Hc) Hf. rewrite <- Hf, append_assoc. by apply scan_number_sign.
Qed.

Lemma scan_int z r :
  (len (Z_to_str (Z.abs z)) <=? MAX_STR_DIGITS) = true -> delimited r = true ->
  scan_number (Z_to_str z +:+ r) = Ok (JInt z, r).
Proof.
  intros Hl Hr. rewrite Z_text_sign.
  rewrite (scan_number_signed z _ r (fun neg => Ok (JInt (signed neg (Z.abs z)), r))).
  - by rewrite signed_abs.
  - apply Z_text_head. lia.
  - intros neg. apply scan_unsigned_int; [lia|done|done].
Qed.

(** The exponent a float's text ends in, if it has one. *)
Definition exp_text (x : option Z) : string :=
  match x with
  | None => ""
  | Some x => "e" +:+ (if x <? 0 then "-" else "+") +:+ (if Z.abs x <? 10 then "0" else "")
              +:+ Z_to_str (Z.abs x)
  end.

Lemma exp_text_parts x r : delimited r = true ->
  no_digit (exp_text x +:+ r) = true /\ frac_part (exp_text x +:+ r) = ("", exp_text x +:+ r) /\
  exp_part (exp_text x +:+ r) = (x, r).
Proof.
  intros Hr. destruct (delimited_parts _ Hr) as (Hn & Hf & Hx). destruct x as [x|]; [|done].
  split; [done|]. split; [done|]. cbn [exp_text]. rewrite !append_assoc.
  set (d := (if Z.abs x <? 10 then "0" else "") +:+ Z_to_str (Z.abs x)).
  assert (Ht : take_digits (d +:+ r) = (d, r)).
  { apply take_digits_run; [|done]. unfold d. rewrite str_all_app, Z_text_digits by lia.
    by destruct (Z.abs x <? 10). }
  assert (Hv : dec_value 0 d = Z.abs x).
  { unfold d. rewrite dec_value_app.
    replace (dec_value 0 _) with 0 by by destruct (Z.abs x <? 10). apply Z_text_value. lia. }
  assert (Hne : exists c s, d = String c s).
  { unfold d. destruct (Z_text_head (Z.abs x)) as (c & s & -> & _); [lia|].
    destruct (Z.abs x <? 10); by eexists _, _. }
  rewrite <- append_assoc with (c := r). fold d. destruct Hne as (c & s & Hd). rewrite Hd in *.
  destruct (x <? 0) eqn:E; cbn [String.append exp_part]; change (ord "e") with 101; simpl (_ || _);
    cbn [String.append] in Ht; rewrite Ht, Hv; do 2 f_equal; lia.
Qed.

(** A decimal text: digits, a fraction, an exponent. *)
Lemma scan_unsigned_decimal neg ip fp x r :
  (forall t, no_digit t = true -> int_part (ip +:+ t) = Some (ip, t)) ->
  str_all is_digit fp = true -> (fp = "" -> x <> None) -> delimited r = true ->
  scan_unsigned neg (ip +:+ (if String.eqb fp "" then "" else "." +:+ fp) +:+ exp_text x +:+ r)
  = Ok (JFloat (round_decimal (signed neg (dec_value 0 (ip +:+ fp))) (default 0 x - len fp)), r).
Proof.
  intros Hi Hd Hx Hr. destruct (exp_text_parts x r Hr) as (Hn & Hf & He). unfold scan_unsigned.
  destruct fp as [|c fp]; simpl String.eqb; cbv iota.
  - cbn [String.append]. rewrite Hi by done. cbn [of_option rbind]. rewrite Hf, He.
    destruct x; [done|]. by destruct Hx.
  - rewrite !append_assoc, Hi by done. cbn [of_option rbind String.append frac_part].
    pose proof (take_digits_run (String c fp) (exp_text x +:+ r) Hd Hn) as Ht.
    cbn [String.append] in Ht. rewrite Ht, He. done.
Qed.

(** *** Floats read back *)

Lemma dec_norm_id fuel m e : m mod 10 <> 0 -> dec_norm fuel m e = (m, e).
Proof.
  intros Hm. destruct fuel as [|n]; simpl; [done|].
  destruct (m =? 0) eqn:E; [apply Z.eqb_eq in E; subst; done|]. by apply Z.eqb_neq in Hm as ->.
Qed.

Lemma dec_norm_shift fuel m j e :
  m mod 10 <> 0 -> (j <= fuel)%nat -> dec_norm fuel (m * 10 ^ Z.of_nat j) e = (m, e + Z.of_nat j).
Proof.
  intros Hm. revert fuel e. induction j as [|j IH]; intros fuel e Hj.
  - rewrite Z.mul_1_r, Z.add_0_r. by apply dec_norm_id.
  - destruct fuel as [|n]; [lia|]. cbn [dec_norm].
    assert (Hp : m * 10 ^ Z.of_nat (S j) = (m * 10 ^ Z.of_nat j) * 10)
      by (rewrite Nat2Z.inj_succ, Z.pow_succ_r by lia; lia).
    assert (Hne : m <> 0) by (intros ->; done).
    assert (0 < 10 ^ Z.of_nat j) by (apply Z.pow_pos_nonneg; lia).
    rewrite Hp. replace (_ =? 0) with false by (symmetry; apply Z.eqb_neq; nia).
    rewrite Z.mod_mul, Z.eqb_refl, Z.div_mul by lia. rewrite IH by lia. f_equal. lia.
Qed.

Lemma dec_fuel_shift m j : m <> 0 -> (j <= dec_fuel (m * 10 ^ Z.of_nat j))%nat.
Proof.
  intros Hm. unfold dec_fuel.
  assert (H2 : 2 ^ Z.of_nat j <= 10 ^ Z.of_nat j) by (apply Z.pow_le_mono_l; lia).
  assert (0 < 2 ^ Z.of_nat j) by (apply Z.pow_pos_nonneg; lia).
  assert (Hl : Z.of_nat j <= Z.log2_up (Z.abs (m * 10 ^ Z.of_nat j))).
  { rewrite <- (Z.log2_up_pow2 (Z.of_nat j)) at 1 by lia. apply Z.log2_up_le_mono. nia. }
  lia.
Qed.

(** Trailing zeros do not change the value read. *)
Lemma round_decimal_shift m j e :
  m mod 10 <> 0 -> round_decimal (m * 10 ^ Z.of_nat j) e = round_decimal m (e + Z.of_nat j).
Proof.
  intros Hm. assert (m <> 0) by (intros ->; done).
  unfold round_decimal. by rewrite dec_norm_shift, dec_norm_id by (done || by apply dec_fuel_shift).
Qed.

Lemma round_decimal_zero e : round_decimal 0 e = Fin 0 0.
Proof. done. Qed.

Lemma substring_split n s : (n <= String.length s)%nat ->
  String.substring 0 n s +:+ String.substring n (String.length s - n) s = s.
Proof.
  revert n. induction s as [|c s IH]; intros [|n] Hn; simpl in *; try done; try lia.
  - f_equal. clear. induction s; simpl; [done|]. by f_equal.
  - f_equal. apply IH. lia.
Qed.

Lemma len_substring_0 n s : (n <= String.length s)%nat -> len (String.substring 0 n s) = Z.of_nat n.
Proof.
  revert n. induction s as [|c s IH]; intros [|n] Hn; simpl in *; try done; try lia.
  unfold len in *. cbn [String.length]. rewrite !Nat2Z.inj_succ, IH by lia. done.
Qed.

(** Cut a run of digits in two. *)
Lemma digits_cut n s : str_all is_digit s = true -> (n <= String.length s)%nat ->
  exists a b, String.substring 0 n s = a /\ String.substring n (String.length s - n) s = b /\
    a +:+ b = s /\ str_all is_digit a = true /\ str_all is_digit b = true /\ len a = Z.of_nat n.
Proof.
  intros Hd Hn. eexists _, _. split; [done|]. split; [done|].
  pose proof (substring_split n s Hn) as Hs. split; [done|].
  rewrite <- Hs, str_all_app in Hd. apply andb_true_iff in Hd as [??].
  split_and!; [done|done|by apply len_substring_0].
Qed.

Lemma int_part_digits c s t : ord c <> 48 -> str_all is_digit (String c s) = true ->
  no_digit t = true -> int_part (String c s +:+ t) = Some (String c s, t).
Proof.
  intros Hc Hd Ht. cbn [String.append int_part]. apply Z.eqb_neq in Hc as ->.
  pose proof (take_digits_run (String c s) t Hd Ht) as H. cbn [String.append] in H. rewrite H.
  simpl in Hd. by apply andb_true_iff in Hd as [-> _].
Qed.

Section FloatText.
Variables (a : Z) (neg : bool) (ds : string) (c : ascii) (s r : string).
Hypothesis Ha : a mod 10 <> 0.
Hypothesis Hds : ds = String c s.
Hypothesis Hd : str_all is_digit ds = true.
Hypothesis Hc : ord c <> 48.
Hypothesis Hv : dec_value 0 ds = a.
Hypothesis Hr : delimited r = true.

Abbreviation read e := (Ok (E := jerr) (JFloat (round_decimal (signed neg a) e), r)).

Lemma scan_small k : scan_unsigned neg (("0." +:+ zeros k +:+ ds) +:+ r) = read (- (Z.of_nat k + len ds)).
Proof using Hd Hv Hr Hds.
  pose proof (scan_unsigned_decimal neg "0" (zeros k +:+ ds) None r) as H.
  assert (Hne : String.eqb (zeros k +:+ ds) "" = false).
  { rewrite Hds. by destruct k. }
  rewrite Hne in H. cbn [exp_text String.append default from_option] in H.
  rewrite !append_assoc in *. cbn [String.append] in *. rewrite H; [| |by rewrite str_all_app, zeros_digits| |done].
  - do 4 f_equal.
    + f_equal. cbn [dec_value]. eval_ord. rewrite dec_value_app, dec_value_zeros. done.
    + rewrite len_app, len_zeros. cbn; lia.
  - done.
  - intros E. by rewrite E in Hne.
Qed.

Lemma scan_large k : scan_unsigned neg ((ds +:+ zeros k +:+ ".0") +:+ r) = read (Z.of_nat k).
Proof using Ha Hds Hd Hc Hv Hr.
  pose proof (scan_unsigned_decimal neg (ds +:+ zeros k) "0" None r) as H.
  simpl String.eqb in H. cbv iota in H. cbn [exp_text String.append default from_option] in H.
  rewrite !append_assoc in *. cbn [String.append] in *. rewrite H; [| |done|done|done].
  - do 3 f_equal. rewrite <- append_assoc, !dec_value_app, dec_value_zeros, Hv.
    cbn [dec_value]. eval_ord. change (0 - len "0") with (-1).
    replace (signed neg _) with (signed neg a * 10 ^ Z.of_nat (S k)).
    + rewrite round_decimal_shift; [f_equal; lia|].
      destruct neg; simpl; [|done]. intros E. apply Ha. by apply Z.mod_opp_l_z in E; rewrite ?Z.opp_involutive in E.
    + rewrite Nat2Z.inj_succ, Z.pow_succ_r by lia. destruct neg; simpl; lia.
  - intros t Ht. rewrite Hds in *.
    apply (int_part_digits c (s +:+ zeros k) t); [done| |done].
    change (str_all is_digit ((String c s) +:+ zeros k) = true). by rewrite str_all_app, Hd, zeros_digits.
Qed.

(** Digits cut in two by a point, with an exponent or not. *)
Lemma scan_cut n x : (0 < n)%nat -> (n <= String.length ds)%nat ->
  (n = String.length ds -> x <> None) ->
  scan_unsigned neg ((String.substring 0 n ds
     +:+ (if len ds <=? Z.of_nat n then "" else "." +:+ String.substring n (String.length ds - n) ds)
     +:+ exp_text x) +:+ r) = read (default 0 x - (len ds - Z.of_nat n)).
Proof using Hds Hd Hc Hv Hr.
  intros Hn Hl Hx. destruct (digits_cut n ds Hd Hl) as (u & v & -> & -> & Huv & Hu & Hw & Hlu).
  assert (Hlv : len ds = Z.of_nat n + len v) by (rewrite <- Huv, len_app; lia).
  assert (Hvn : (len ds <=? Z.of_nat n) = String.eqb v "").
  { destruct v as [|d v]; cbn [String.eqb]; [apply Z.leb_le; change (len "") with 0 in Hlv; lia|apply Z.leb_gt].
    unfold len in *. cbn [String.length] in *. lia. }
  rewrite Hvn, !append_assoc. rewrite scan_unsigned_decimal.
  - rewrite Huv, Hv, Hlv. do 4 f_equal. lia.
  - intros t Ht. destruct u as [|d u]; [change (len "") with 0 in Hlu; lia|].
    rewrite Hds in Huv. cbn [String.append] in Huv. injection Huv as -> Huv.
    by apply int_part_digits.
  - done.
  - intros ->. apply Hx. unfold len in *. cbn [String.length] in *. lia.
  - done.
Qed.
End FloatText.

Lemma abs_mod_10 m : m mod 10 <> 0 -> Z.abs m mod 10 <> 0.
Proof.
  intros Hm. destruct (Z.abs_eq_or_opp m) as [->| ->]; [done|].
  intros H%Z.mod_opp_l_z; [|done]. by rewrite Z.opp_involutive in H.
Qed.

(** [float(repr(x)) == x], the sign and what follows included. *)
Lemma scan_float m e r : normalised m e = true -> delimited r = true ->
  scan_number (float_repr m e +:+ r) = Ok (JFloat (round_decimal m e), r).
Proof.
  unfold normalised. intros Hm Hr. destruct (m =? 0) eqn:Em.
  { apply Z.eqb_eq in Em as ->. apply Z.eqb_eq in Hm as ->.
    change (float_repr 0 0) with "0.0". cbn [String.append]. rewrite scan_number_digit by done.
    apply (scan_unsigned_decimal false "0" "0" None r); done. }
  apply negb_true_iff, Z.eqb_neq in Hm. pose proof (abs_mod_10 _ Hm) as Ha.
  unfold float_repr. rewrite dec_norm_id by done. rewrite Em.
  assert (Hp : exists p, Z.abs m = Zpos p) by (destruct m; simpl; try done; by eexists).
  destruct Hp as (p & Hp). destruct (Pos_text p) as (c & s & Hds & Hd & Hc & Hv).
  rewrite <- Hp in *. set (ds := Z_to_str (Z.abs m)) in *. rewrite <- Hds in Hd, Hv.
  assert (Hlen : Z.of_nat (String.length ds) = len ds) by done.
  assert (Hpos : 0 < len ds) by (rewrite Hds; unfold len; cbn [String.length]; lia).
  assert (Hhead : is_digit c = true) by (rewrite Hds in Hd; simpl in Hd; by apply andb_true_iff in Hd as [-> _]).
  rewrite (scan_number_signed m _ r (fun neg => Ok (JFloat (round_decimal (signed neg (Z.abs m)) e), r)));
    [by rewrite signed_abs|..].
  - destruct ((-4 <? _) && _).
    + destruct (len ds + e <=? 0) eqn:E0; breflect; [by exists "0"%char; eexists|]. exists c.
      destruct (len ds <=? _); [rewrite Hds; by eexists|].
      destruct (Z.to_nat (len ds + e)) eqn:En; [lia|]. rewrite Hds. by eexists.
    + exists c. rewrite Hds. by eexists.
  - intros neg. destruct ((-4 <? len ds + e) && (len ds + e <=? 16)) eqn:Eb; breflect.
    + destruct (len ds + e <=? 0) eqn:E0; breflect.
      { erewrite (scan_small (Z.abs m) neg ds c s); try done. do 4 f_equal. lia. }
      destruct (len ds <=? len ds + e) eqn:E1; breflect.
      { erewrite (scan_large (Z.abs m) neg ds c s); try done. do 4 f_equal. lia. }
      pose proof (scan_cut (Z.abs m) neg ds c s r Hds Hd Hc Hv Hr (Z.to_nat (len ds + e)) None) as Hcut.
      replace (len ds <=? Z.of_nat _) with false in Hcut by (symmetry; apply Z.leb_gt; lia).
      cbn [exp_text] in Hcut. rewrite append_empty_r in Hcut.
      replace (Z.to_nat (len ds - (len ds + e))) with (String.length ds - Z.to_nat (len ds + e))%nat by lia.
      rewrite Hcut by lia. do 4 f_equal. simpl. lia.
    + pose proof (scan_cut (Z.abs m) neg ds c s r Hds Hd Hc Hv Hr 1 (Some (len ds + e - 1))) as Hcut.
      change (Z.of_nat 1) with 1 in Hcut. cbn [exp_text] in Hcut.
      replace (Z.to_nat (len ds - 1)) with (String.length ds - 1)%nat by lia.
      rewrite Hcut by (done || lia). do 4 f_equal. simpl. lia.
Qed.

(** *** Every value read back *)

Lemma scan_string_char c r : scan_string (escape_char c +:+ r) = cons_char c (scan_string r).
Proof. by destruct c as [[] [] [] [] [] [] [] []]. Qed.

Lemma scan_string_escape s r : scan_string (escape s +:+ dquote +:+ r) = Ok (s, r).
Proof.
  induction s as [|c s IH]; [done|]. cbn [escape]. by rewrite append_assoc, scan_string_char, IH.
Qed.

Lemma scan_sign_head pc n (neg : bool) c s : is_digit c = true ->
  scan pc (S n) ((if neg then "-" else "") +:+ String c s)
  = scan_number ((if neg then "-" else "") +:+ String c s).
Proof. destruct neg, c as [[] [] [] [] [] [] [] []]; done. Qed.

Lemma number_text j t : wire_text j = Some t -> wire_ok j = true ->
  match j with JInt _ | JFloat _ => True | _ => False end ->
  exists (neg : bool) c s, t = (if neg then "-" else "") +:+ String c s /\ is_digit c = true.
Proof.
  destruct j as [| |z|[m e| |]| | |]; try done; cbn [wire_text wire_ok]; intros Ht Hok _.
  - rewrite Hok in Ht. injection Ht as <-. rewrite Z_text_sign.
    destruct (Z_text_head (Z.abs z)) as (c & s & -> & Hc); [lia|]. by eexists _, c, s.
  - injection Ht as <-. unfold float_repr. destruct (dec_norm _ m e) as [m' e'].
    destruct (Z_text_head (Z.abs m')) as (c & s & E & Hc); [lia|].
    exists (m' <? 0). destruct (m' =? 0); [by exists "0"%char; eexists|].
    destruct ((-4 <? _) && _).
    + destruct (len (Z_to_str (Z.abs m')) + e' <=? 0) eqn:E0; breflect; [by exists "0"%char; eexists|].
      exists c. rewrite E in *. destruct (len (String c s) <=? _); [by eexists|].
      destruct (Z.to_nat (len (String c s) + e')) eqn:En; [lia|]. by eexists.
    + exists c. rewrite E. by eexists.
Qed.

(** A text that neither white space nor a closing bracket begins. *)
Definition headed (t : string) : bool :=
  match t with String c _ => negb (is_json_ws c) && negb (ord c =? 93) | EmptyString => false end.

Lemma headed_app t r : headed t = true -> headed (t +:+ r) = true.
Proof. by destruct t. Qed.

Lemma headed_skip t : headed t = true -> skip_ws t = t.
Proof. destruct t as [|c t]; simpl; [done|]. by destruct (is_json_ws c). Qed.

Lemma wire_text_headed j t : wire_text j = Some t -> wire_ok j = true -> headed t = true.
Proof.
  intros Ht Hok. destruct j as [|[]|z|f|s|l|d]; try (by simplify_eq/=).
  1-2: destruct (number_text _ _ Ht Hok I) as (neg & c & s & -> & Hc);
    destruct neg; [done|by destruct c as [[] [] [] [] [] [] [] []]].
  - rewrite wire_text_list in Ht. by destruct (mapM wire_text l); simplify_eq/=.
  - rewrite wire_text_obj in Ht. by destruct (mapM wire_member d); simplify_eq/=.
Qed.

(** [scan] reads the text of [j] whatever separator follows. *)
Definition reads (j : json) : Prop := forall pc t n r,
  wire_text j = Some t -> wire_ok j = true -> delimited r = true ->
  (2 * String.length t < n)%nat -> scan pc n (t +:+ r) = Ok (j, r).

Lemma delimited_skip r : delimited r = true -> skip_ws r = r.
Proof. by destruct r as [|[[] [] [] [] [] [] [] []] r]. Qed.

Lemma string_length_app (s t : string) :
  String.length (s +:+ t) = (String.length s + String.length t)%nat.
Proof. induction s as [|c s IH]; simpl; [done|]. by rewrite IH. Qed.

Lemma join_two a b l : join "," (a :: b :: l) = a +:+ "," +:+ join "," (b :: l).
Proof. done. Qed.


Lemma mapM_cons_Some {A B} (f : A -> option B) x l ys :
  mapM f (x :: l) = Some ys -> exists y ys', ys = y :: ys' /\ f x = Some y /\ mapM f l = Some ys'.
Proof.
  intros H. apply mapM_Some in H. inversion H as [|? y ? ys' Hy Hys]; subst.
  apply mapM_Some in Hys. by eexists _, _.
Qed.

Lemma scan_items_text l : Forall reads l -> forall pc x p ps acc n r, reads x ->
  wire_text x = Some p -> mapM wire_text l = Some ps -> forallb wire_ok (x :: l) = true ->
  (2 * String.length (join "," (p :: ps)) + 1 < n)%nat ->
  scan_items pc n acc (join "," (p :: ps) +:+ "]" +:+ r) = Ok (JList (acc ++ x :: l), r).
Proof.
  induction 1 as [|y l Hy Hl IH]; intros pc x p ps acc n r Hx Hp Hps Hok Hn;
    simpl in Hok; apply andb_true_iff in Hok as [Hxok Hok]; (destruct n as [|n]; [lia|]);
    rewrite join_cons; cbn [scan_items].
  - injection Hps as <-. rewrite Hx by (done || simpl in *; lia). done.
  - apply mapM_cons_Some in Hps as (q & qs & -> & Hq & Hqs).
    rewrite join_two, !string_length_app in Hn. cbn [String.length] in Hn.
    rewrite Hx by (done || lia). cbn [rbind fst snd String.append].
    rewrite (delimited_skip (String "," _)) by done.
    assert (Hh : headed (join "," (q :: qs) +:+ String "]" r) = true).
    { rewrite join_cons. apply headed_app. apply andb_true_iff in Hok as [??]. by eapply wire_text_headed. }
    rewrite headed_skip by done. etransitivity.
    + apply (IH pc y q qs (acc ++ [x])%list n r Hy Hq Hqs Hok). lia.
    + by rewrite <- app_assoc.
Qed.

(** The text of the member [kv] is read up to the separator after its value. *)
Lemma scan_member_text pc n acc k x p r : reads x -> wire_text x = Some p -> wire_ok x = true ->
  delimited r = true -> (2 * String.length p < n)%nat ->
  scan_members pc (S n) acc ((quote k +:+ ":" +:+ p) +:+ r) =
  match r with
  | String "}" r' => Ok (JObj (dset acc k x), r')
  | String "," r' => scan_members pc n (dset acc k x) (skip_ws r')
  | _ => Err Malformed
  end.
Proof.
  intros Hx Hp Hok Hr Hn. unfold quote. rewrite !append_assoc. cbn [scan_members].
  change (dquote +:+ ?t) with (String (ascii_of_N 34) t) at 1. cbn [expect]. rewrite Ascii.eqb_refl.
  cbn [rbind]. rewrite scan_string_escape. cbn [rbind fst snd String.append].
  rewrite headed_skip by done. cbn [expect]. rewrite Ascii.eqb_refl. cbn [rbind].
  rewrite headed_skip by (apply headed_app; by eapply wire_text_headed).
  rewrite Hx by done. cbn [rbind fst snd]. by rewrite (delimited_skip r).
Qed.

Lemma wire_member_some kv t : wire_member kv = Some t ->
  exists p, wire_text kv.2 = Some p /\ t = quote kv.1 +:+ ":" +:+ p.
Proof. unfold wire_member. destruct (wire_text kv.2) as [p|]; intros [=<-]. eauto. Qed.

Lemma scan_members_text d : Forall (fun kv => reads kv.2) d -> forall pc kv t ts acc n r, reads kv.2 ->
  wire_member kv = Some t -> mapM wire_member d = Some ts ->
  forallb (fun kv => wire_ok kv.2) (kv :: d) = true -> NoDup (dkeys (acc ++ kv :: d)%list) ->
  (2 * String.length (join "," (t :: ts)) < n)%nat ->
  scan_members pc n acc (join "," (t :: ts) +:+ "}" +:+ r) = Ok (JObj (acc ++ kv :: d), r).
Proof.
  induction 1 as [|kv' d Hy Hl IH]; intros pc [k x] t ts acc n r Hx Ht Hts Hok Hnd Hn;
    simpl in Hok; apply andb_true_iff in Hok as [Hxok Hok]; (destruct n as [|n]; [lia|]);
    rewrite join_cons; apply wire_member_some in Ht as (p & Hp & Et); cbn [fst snd] in *; rewrite Et;
    (assert (Hf : dget acc k = None);
      [apply dget_None; intros Hin; unfold dkeys in Hnd; rewrite fmap_app in Hnd;
       apply NoDup_app in Hnd as (_ & Hd & _); apply (Hd k Hin); by left|]).
  - injection Hts as <-. cbn [join String.concat] in Hn.
    rewrite Et in Hn. unfold quote in Hn. rewrite !string_length_app in Hn.
    change (String.length dquote) with 1%nat in Hn. cbn [String.length] in Hn.
    rewrite (scan_member_text pc n acc k x p) by (done || lia). cbn [String.append].
    by rewrite dset_fresh.
  - apply mapM_cons_Some in Hts as (q & qs & -> & Hq & Hqs).
    rewrite join_two, Et in Hn. unfold quote in Hn. rewrite !string_length_app in Hn.
    change (String.length dquote) with 1%nat in Hn. cbn [String.length] in Hn.
    rewrite (scan_member_text pc n acc k x p) by (done || lia). cbn [String.append].
    rewrite dset_fresh by done.
    assert (Hh : headed (join "," (q :: qs) +:+ String "}" r) = true).
    { rewrite join_cons. apply wire_member_some in Hq as (? & _ & ->). done. }
    rewrite headed_skip by done. etransitivity.
    + apply (IH pc kv' q qs (acc ++ [(k, x)])%list n r Hy Hq Hqs Hok); [by rewrite <- app_assoc|lia].
    + by rewrite <- app_assoc.
Qed.

Lemma literal_text t v r : literal t v (t +:+ r) = Ok (v, r).
Proof.
  unfold literal. assert (Hp : String.prefix t (t +:+ r) = true).
  { induction t as [|c t IH]; simpl; [by destruct r|]. by destruct (ascii_dec c c). }
  rewrite Hp. do 2 f_equal. rewrite string_length_app. clear Hp.
  replace (String.length t + String.length r - String.length t)%nat with (String.length r) by lia.
  induction t as [|c t IH]; cbn [String.length String.append String.substring]; [|exact IH].
  induction r as [|c r IH]; simpl; [done|]. by rewrite IH.
Qed.

Lemma wire_text_reads j : reads j.
Proof.
  induction j as [|b|z|[m e| |]|s|l IH|d IH] using json_nested_ind; intros pc t n r Ht Hok Hr Hn;
    try discriminate; (destruct n as [|n]; [lia|]).
  - injection Ht as <-. apply (literal_text "null").
  - injection Ht as <-. destruct b; [apply (literal_text "true")|apply (literal_text "false")].
  - destruct (number_text _ _ Ht Hok I) as (neg & c & s & -> & Hc).
    rewrite append_assoc. cbn [String.append]. rewrite scan_sign_head by done.
    cbn [wire_text wire_ok] in *. rewrite Hok in Ht. injection Ht as Ht.
    change (String c (s +:+ r)) with (String c s +:+ r). rewrite <- append_assoc, <- Ht.
    by apply scan_int.
  - destruct (number_text _ _ Ht Hok I) as (neg & c & s & -> & Hc).
    rewrite append_assoc. cbn [String.append]. rewrite scan_sign_head by done.
    cbn [wire_text wire_ok] in *. injection Ht as Ht.
    change (String c (s +:+ r)) with (String c s +:+ r). rewrite <- append_assoc, <- Ht.
    unfold is_double in Hok. apply andb_true_iff in Hok as [Hm Hd%bool_decide_eq_true].
    rewrite scan_float by done. by rewrite Hd.
  - injection Ht as <-. unfold quote. rewrite !append_assoc.
    change (dquote +:+ ?u) with (String (ascii_of_N 34) u) at 1. cbn [scan].
    change (ord (ascii_of_N 34) =? 34) with true. cbv iota. by rewrite scan_string_escape.
  - rewrite wire_text_list in Ht. destruct (mapM wire_text l) as [ps|] eqn:Ep; [|done].
    injection Ht as <-. cbn [wire_ok] in Hok. cbn [String.append String.length] in Hn. rewrite !string_length_app in Hn. cbn [String.length] in Hn.
    destruct l as [|x l]; [by injection Ep as <-|].
    apply mapM_cons_Some in Ep as (p & ps' & -> & Hp & Hps).
    apply Forall_cons in IH as [Hx IH]. cbn [String.append]. rewrite !append_assoc.
    pose proof (scan_items_text l IH pc x p ps' [] n r Hx Hp Hps Hok) as Hs. cbn [app] in Hs.
    assert (Hh : headed (join "," (p :: ps') +:+ "]" +:+ r) = true).
    { rewrite join_cons. apply headed_app. simpl in Hok. apply andb_true_iff in Hok as [??].
      by eapply wire_text_headed. }
    cbn [String.append scan]. change (ord "[" =? 34) with false. change (ord "[" =? 123) with false.
    change (ord "[" =? 91) with true. cbv iota. cbn [String.append] in Hh, Hs. rewrite headed_skip by done.
    rewrite <- Hs by lia. clear -Hh.
    destruct (join "," (p :: ps') +:+ String "]" r) as [|[[] [] [] [] [] [] [] []] u]; done.
  - rewrite wire_text_obj in Ht. destruct (mapM wire_member d) as [ts|] eqn:Ep; [|done].
    injection Ht as <-. cbn [wire_ok] in Hok. apply andb_true_iff in Hok as [Hnd%bool_decide_eq_true Hok].
    cbn [String.append String.length] in Hn. rewrite !string_length_app in Hn. cbn [String.length] in Hn.
    destruct d as [|kv d]; [by injection Ep as <-|].
    apply mapM_cons_Some in Ep as (p & ps' & -> & Hp & Hps).
    apply Forall_cons in IH as [Hx IH]. cbn [String.append]. rewrite !append_assoc.
    pose proof (scan_members_text d IH pc kv p ps' [] n r Hx Hp Hps Hok Hnd) as Hs. cbn [app] in Hs.
    apply wire_member_some in Hp as (u & _ & Hu).
    assert (Hh : exists v, join "," (p :: ps') +:+ "}" +:+ r = dquote +:+ v).
    { rewrite join_cons, Hu. unfold quote. rewrite !append_assoc. by eexists. }
    cbn [String.append scan]. change (ord "{" =? 34) with false.
    change (ord "{" =? 123) with true. cbv iota. destruct Hh as (v & Hh). cbn [String.append] in Hh, Hs.
    rewrite <- Hs by lia. by rewrite Hh.
Qed.

(** [json.loads(json.dumps(v)) == v] *)
Lemma loads_wire_text pc j t : wire_text j = Some t -> wire_ok j = true -> loads_with pc t = Ok j.
Proof.
  intros Ht Hok. unfold loads_with.
  rewrite headed_skip by (by eapply wire_text_headed).
  rewrite <- (append_empty_r t) at 2. by rewrite (wire_text_reads j pc t _ "" Ht Hok) by (done || lia).
Qed.

(** *** UTF-8 *)

Lemma utf8_decode_char c r : utf8_decode (utf8_char c +:+ r) = let* s := utf8_decode r in Ok (String c s).
Proof. by destruct c as [[] [] [] [] [] [] [] []]. Qed.

(** [s.encode("utf-8").decode("utf-8") == s] *)
Lemma utf8_decode_encode s : utf8_decode (utf8_encode s) = Ok s.
Proof.
  induction s as [|c s IH]; [done|]. cbn [utf8_encode]. by rewrite utf8_decode_char, IH.
Qed.

(** Decoding bytes ends. *)
Lemma utf8_decode_ends b : utf8_decode b <> Err Exhausted.
Proof.
  enough (H : forall n b, (String.length b <= n)%nat -> utf8_decode b <> Err Exhausted)
    by by apply (H (String.length b)).
  clear b. induction n as [|n IH]; intros [|c b] Hn; cbn [String.length] in *; try done; [lia|].
  assert (Hk : forall k b', (forall s, k s <> Err (A := string) Exhausted) ->
    (String.length b' <= String.length b)%nat -> rbind (utf8_decode b') k <> Err Exhausted).
  { intros k b' Hk Hb H. apply rbind_err in H as [H|(s & _ & H)]; [|by apply Hk in H].
    apply IH in H; [done|lia]. }
  cbn [utf8_decode]. unfold then_wide.
  repeat (match goal with |- context [match ?x with _ => _ end] => destruct x end;
          try done; try (apply Hk; [done|simpl; lia])).
Qed.
