(* ===== verification/Wire.v ===== *)
(** The wire protocol of the daemon: src/src/rosclaw/daemon/protocol.py.

    A connection is what is still to come from the peer: the pieces the kernel
    will hand over and, at [Silence], a [recv] that raises (a timeout, a reset);
    after the last piece the peer has closed. Two connections that carry the same
    bytes are the same to the protocol, however they are cut into pieces. Bytes
    are characters below 256. *)

From S2P Require Export JsonText.
From S2P Require Export Contracts.

Definition DAEMON_PROTOCOL_VERSION : string := "rosclaw.daemon.v1".
Definition MAX_FRAME_BYTES : Z := 1024 * 1024.
Definition MAX_REQUEST_ID_LENGTH : Z := 128.
Definition MAX_METHOD_LENGTH : Z := 96.
Definition FRAME_HEADER_BYTES : Z := 4.

(** [DaemonProtocolError] by its code; an [OSError] of the socket; any other
    exception; a text with a character the model does not hold; fuel. *)
Inductive wire_exn :=
| DaemonProtocolError (code : string) | SocketError | WireRaised | WireUnmodelled | WireExhausted.

#[export] Instance wire_exn_eq_dec : EqDecision wire_exn.
Proof. solve_decision. Defined.

Record DaemonRequest := {
  rq_version : string;
  rq_id : string;
  rq_method : string;
  rq_params : dict json;
}.

(** ** Messages *)

(** [make_request]; [uuid] is [uuid.uuid4().hex]. *)
Definition make_request (uuid method : string) (params : option (dict json)) (id : option string)
  : dict json :=
  [("protocol_version", JStr DAEMON_PROTOCOL_VERSION);
   ("request_id", JStr (match id with Some i => if truthy_str i then i else "request_" +:+ uuid
                                    | None => "request_" +:+ uuid end));
   ("method", JStr method);
   ("params", JObj (default [] params))].

(** [payload.get(k)] as a text. *)
Definition text_at (d : dict json) (k : string) : option string := dget d k ≫= as_str.

Definition decode_request (payload : dict json) : result wire_exn DaemonRequest :=
  let* version := of_option (text_at payload "protocol_version") (DaemonProtocolError "INVALID_PROTOCOL") in
  guard! truthy_str version else DaemonProtocolError "INVALID_PROTOCOL" in
  guard! String.eqb version DAEMON_PROTOCOL_VERSION else DaemonProtocolError "UNSUPPORTED_PROTOCOL" in
  let* id := of_option (text_at payload "request_id") (DaemonProtocolError "INVALID_REQUEST_ID") in
  guard! nonblank id && (len id <=? MAX_REQUEST_ID_LENGTH) else DaemonProtocolError "INVALID_REQUEST_ID" in
  let* method := of_option (text_at payload "method") (DaemonProtocolError "INVALID_METHOD") in
  guard! nonblank method && (len method <=? MAX_METHOD_LENGTH) else DaemonProtocolError "INVALID_METHOD" in
  let* params := of_option (dget payload "params" ≫= as_obj) (DaemonProtocolError "INVALID_PARAMS") in
  Ok {| rq_version := version; rq_id := id; rq_method := method; rq_params := params |}.

(** [make_response]: exactly one of a result and an error. *)
Definition make_response (id : string) (res err : option (dict json)) : result wire_exn (dict json) :=
  match res, err with
  | Some r, None =>
      Ok [("protocol_version", JStr DAEMON_PROTOCOL_VERSION); ("request_id", JStr id);
          ("ok", JBool true); ("result", JObj r)]
  | None, Some e =>
      Ok [("protocol_version", JStr DAEMON_PROTOCOL_VERSION); ("request_id", JStr id);
          ("ok", JBool false); ("error", JObj e)]
  | _, _ => Err WireRaised
  end.

(** [str(d.get(k, default))] *)
Definition str_default (d : dict json) (k default : string) : result wire_exn string :=
  map_err (fun _ => WireUnmodelled) (py_str (get_default d k (JStr default))).

Definition decode_response (payload : dict json) (id : string) : result wire_exn (dict json) :=
  guard! str_at payload "protocol_version" DAEMON_PROTOCOL_VERSION
    else DaemonProtocolError "INVALID_RESPONSE_PROTOCOL" in
  guard! str_at payload "request_id" id else DaemonProtocolError "RESPONSE_ID_MISMATCH" in
  match dget payload "ok" with
  | Some (JBool true) =>
      of_option (dget payload "result" ≫= as_obj) (DaemonProtocolError "INVALID_RESPONSE")
  | Some (JBool false) =>
      let* error := of_option (dget payload "error" ≫= as_obj) (DaemonProtocolError "INVALID_RESPONSE") in
      let* code := str_default error "code" "DAEMON_REQUEST_FAILED" in
      let* _ := str_default error "message" "rosclawd rejected the request" in
      Err (DaemonProtocolError code)
  | _ => Err (DaemonProtocolError "INVALID_RESPONSE")
  end.

(** ** Frames *)

(** [struct.pack("!I", n)], which raises outside 32 bits. *)
Definition pack_u32 (n : Z) : result wire_exn string :=
  guard! (0 <=? n) && (n <? 2 ^ 32) else WireRaised in
  Ok (String (byte (n / 2 ^ 24)) (String (byte (n / 2 ^ 16 mod 256))
      (String (byte (n / 2 ^ 8 mod 256)) (String (byte (n mod 256)) "")))).

(** The number a run of bytes denotes, most significant first
    ([struct.unpack("!I", header)[0]] of four). *)
Fixpoint unpack_bytes (acc : Z) (s : string) : Z :=
  match s with String c s' => unpack_bytes (acc * 256 + ord c) s' | EmptyString => acc end.

Definition encode_frame (payload : json) (max_bytes : Z) : result wire_exn string :=
  let* text := of_option (wire_text payload) (DaemonProtocolError "INVALID_MESSAGE") in
  let body := utf8_encode text in
  guard! truthy_str body else DaemonProtocolError "INVALID_MESSAGE" in
  guard! len body <=? max_bytes else DaemonProtocolError "FRAME_TOO_LARGE" in
  let* header := pack_u32 (len body) in
  Ok (header +:+ body).

(** ** The connection *)

Inductive piece := Data (c : ascii) (s : string) | Silence.
Definition conn : Type := list piece.

(** [s[n:]] *)
Fixpoint str_drop (n : nat) (s : string) : string :=
  match n, s with S n', String _ s' => str_drop n' s' | _, _ => s end.

Definition arrive (s : string) (k : conn) : conn :=
  match s with String c s' => Data c s' :: k | EmptyString => k end.

(** [connection.recv(n)]: at most [n] bytes of what has arrived, the empty text
    when the peer has closed. *)
Definition recv (n : Z) : st conn wire_exn string := fun k =>
  match k with
  | [] => ([], Ok "")
  | Silence :: _ => (k, Err SocketError)
  | Data c s :: k' =>
      let t := String c s in
      if len t <=? n then (k', Ok t)
      else (arrive (str_drop (Z.to_nat n) t) k', Ok (prefix_of (Z.to_nat n) t))
  end.

(** The loop of [_receive_exact]: [chunks] so far, [remaining] bytes to come. *)
Fixpoint receive_loop (fuel : nat) (chunks : string) (remaining : Z) : st conn wire_exn string :=
  match fuel with
  | O => st_raise WireExhausted
  | S n =>
      if remaining =? 0 then st_ret chunks
      else
        do! chunk <- recv remaining;
        if String.eqb chunk "" then st_raise (DaemonProtocolError "TRUNCATED_FRAME")
        else receive_loop n (chunks +:+ chunk) (remaining - len chunk)
  end.

(** Every [recv] takes a byte or ends the loop, so one round per byte is enough. *)
Definition receive_exact (length : Z) : st conn wire_exn string :=
  receive_loop (S (Z.to_nat length)) "" length.

Definition of_jerr (e : jerr) : wire_exn :=
  match e with
  | Malformed | TooManyDigits => DaemonProtocolError "INVALID_JSON"
  | Wide => WireUnmodelled
  | Exhausted => WireExhausted
  end.

Definition decode_body (body : string) : result wire_exn (dict json) :=
  let* text := map_err of_jerr (utf8_decode body) in
  let* payload := map_err of_jerr (strict_loads text) in
  of_option (as_obj payload) (DaemonProtocolError "INVALID_MESSAGE").

Definition st_of {S E A} (r : result E A) : st S E A := fun s => (s, r).

Definition receive_frame (max_bytes : Z) : st conn wire_exn (dict json) :=
  do! header <- receive_exact FRAME_HEADER_BYTES;
  let length := unpack_bytes 0 header in
  run! st_guard (negb (length =? 0)) (DaemonProtocolError "INVALID_MESSAGE");
  run! st_guard (length <=? max_bytes) (DaemonProtocolError "FRAME_TOO_LARGE");
  do! body <- receive_exact length;
  st_of (decode_body body).

(** ** Reference: the stream of bytes *)

(** The bytes a connection still carries, and whether a [recv] raises after them. *)
Definition stream : Type := string * bool.

Fixpoint incoming (k : conn) : stream :=
  match k with
  | [] => ("", false)
  | Silence :: _ => ("", true)
  | Data c s :: k' => let '(t, b) := incoming k' in (String c s +:+ t, b)
  end.

Definition same_stream (k k' : conn) : Prop := incoming k = incoming k'.

#[export] Instance same_stream_equiv : Equivalence same_stream.
Proof. unfold same_stream. split; [by intros ?|by intros ?|intros ???; congruence]. Qed.

(** The first [n] bytes of the stream, or what ends it. *)
Definition take_exact (n : Z) : st stream wire_exn string := fun s =>
  ((str_drop (Z.to_nat n) s.1, s.2),
   if n <=? len s.1 then Ok (prefix_of (Z.to_nat n) s.1)
   else Err (if s.2 then SocketError else DaemonProtocolError "TRUNCATED_FRAME")).

Definition frame_of (max_bytes : Z) : st stream wire_exn (dict json) :=
  do! header <- take_exact FRAME_HEADER_BYTES;
  let length := unpack_bytes 0 header in
  run! st_guard (negb (length =? 0)) (DaemonProtocolError "INVALID_MESSAGE");
  run! st_guard (length <=? max_bytes) (DaemonProtocolError "FRAME_TOO_LARGE");
  do! body <- take_exact length;
  st_of (decode_body body).

(** [m] on a connection does what [m'] does on its stream. *)
Definition reflects {A} (m : st conn wire_exn A) (m' : st stream wire_exn A) : Prop :=
  forall k, m' (incoming k) = (incoming (m k).1, (m k).2).

Lemma reflects_bind {A B} (m : st conn wire_exn A) m' (f : A -> st conn wire_exn B) f' :
  reflects m m' -> (forall k a, (m k).2 = Ok a -> reflects (f a) (f' a)) ->
  reflects (st_bind m f) (st_bind m' f').
Proof.
  intros Hm Hf k. unfold st_bind. rewrite Hm. specialize (Hf k).
  destruct (m k) as [k' [a|e]]; [by apply Hf|done].
Qed.

Lemma reflects_guard b e : reflects (st_guard b e) (st_guard b e).
Proof. by destruct b. Qed.
Lemma reflects_of {A} (r : result wire_exn A) : reflects (st_of r) (st_of r).
Proof. done. Qed.

Lemma str_drop_app s t : str_drop (String.length s) (s +:+ t) = t.
Proof. induction s; simpl; done. Qed.

Lemma str_drop_all n s : (String.length s <= n)%nat -> str_drop n s = "".
Proof. revert s. induction n as [|n IH]; intros [|c s] Hn; simpl in *; try done; try lia. apply IH. lia. Qed.

Lemma prefix_drop n s : prefix_of n s +:+ str_drop n s = s.
Proof.
  unfold prefix_of. revert s. induction n as [|n IH]; intros [|c s]; simpl; try done.
  f_equal. apply IH.
Qed.

Lemma prefix_app s t : prefix_of (String.length s) (s +:+ t) = s.
Proof. unfold prefix_of. induction s as [|c s IH]; simpl; [by destruct t|]. by rewrite IH. Qed.

Lemma incoming_arrive s k : incoming (arrive s k) = (s +:+ (incoming k).1, (incoming k).2).
Proof. destruct s; simpl; by destruct (incoming k). Qed.

Lemma incoming_Data c s k : incoming (Data c s :: k) = (String c s +:+ (incoming k).1, (incoming k).2).
Proof. simpl. by destruct (incoming k). Qed.

(** A [recv] of at least one byte: it raises or finds the end where the stream
    does, and otherwise takes one to [n] bytes from its head. *)
Lemma recv_stream n k : 0 < n ->
  match (recv n k).2 with
  | Err e => e = SocketError /\ incoming k = ("", true) /\ (recv n k).1 = k
  | Ok "" => incoming k = ("", false) /\ (recv n k).1 = []
  | Ok chunk => 0 < len chunk <= n /\
      incoming k = (chunk +:+ (incoming (recv n k).1).1, (incoming (recv n k).1).2)
  end.
Proof.
  intros Hn. destruct k as [|[c s|] k]; [done| |done]. rewrite incoming_Data. cbn [recv].
  assert (Hl : 0 < len (String c s)) by (unfold len; cbn [String.length]; lia).
  destruct (len (String c s) <=? n) eqn:E; breflect; cbn [fst snd].
  - split; [lia|done].
  - assert (Hp : len (prefix_of (Z.to_nat n) (String c s)) = n).
    { unfold prefix_of. rewrite len_substring_0; unfold len in *; lia. }
    pose proof (prefix_drop (Z.to_nat n) (String c s)) as Hs.
    destruct (prefix_of (Z.to_nat n) (String c s)) as [|d u]; [change (len "") with 0 in Hp; lia|].
    split; [lia|]. rewrite incoming_arrive. cbn [fst snd]. by rewrite <- append_assoc, Hs.
Qed.

Lemma str_drop_plus n s t : str_drop (String.length s + n) (s +:+ t) = str_drop n t.
Proof. induction s; simpl; done. Qed.

Lemma prefix_plus n s t : prefix_of (String.length s + n) (s +:+ t) = s +:+ prefix_of n t.
Proof. unfold prefix_of. induction s as [|c s IH]; simpl; [done|]. by rewrite IH. Qed.

Lemma receive_loop_stream fuel chunks n k : 0 <= n -> (Z.to_nat n < fuel)%nat ->
  receive_loop fuel chunks n k =
  ((receive_loop fuel chunks n k).1,
   match (take_exact n (incoming k)).2 with Ok s => Ok (chunks +:+ s) | Err e => Err e end) /\
  incoming (receive_loop fuel chunks n k).1 = (take_exact n (incoming k)).1.
Proof.
  revert chunks n k. induction fuel as [|fuel IH]; intros chunks n k Hn Hf; [lia|].
  cbn [receive_loop]. destruct (n =? 0) eqn:E0; breflect.
  { subst. unfold take_exact, st_ret. cbn [fst snd]. change (Z.to_nat 0) with 0%nat.
    replace (0 <=? _) with true by (symmetry; apply Z.leb_le, len_nonneg).
    split; [|by destruct (incoming k)]. do 2 f_equal. unfold prefix_of.
    destruct (incoming k).1; simpl; by rewrite append_empty_r. }
  pose proof (recv_stream n k ltac:(lia)) as Hr. unfold st_bind.
  destruct (recv n k) as [k' [chunk|e]]; cbn [fst snd] in *.
  - destruct chunk as [|c s].
    + destruct Hr as [Hk ->]. rewrite Hk. unfold take_exact. cbn [fst snd].
      replace (n <=? len "") with false by (symmetry; apply Z.leb_gt; change (len "") with 0; lia).
      split; [done|]. f_equal. by rewrite str_drop_all by (simpl; lia).
    + destruct Hr as [[Hl Hln] Hk]. cbn [String.eqb]. set (t := String c s) in *. clearbody t.
      destruct (IH (chunks +:+ t) (n - len t) k' ltac:(lia) ltac:(lia)) as [Hrun Hin].
      assert (Hnat : Z.to_nat n = (String.length t + Z.to_nat (n - len t))%nat) by (unfold len in *; lia).
      unfold take_exact in *. rewrite Hk. cbn [fst snd] in *. rewrite Hnat, str_drop_plus.
      split; [|by rewrite Hin]. rewrite Hrun at 1. f_equal. rewrite len_app.
      replace (n <=? len t + len (incoming k').1) with (n - len t <=? len (incoming k').1)
        by (apply eq_true_iff_eq; rewrite !Z.leb_le; lia).
      destruct (n - len t <=? _); [|done]. by rewrite prefix_plus, append_assoc.
  - destruct Hr as (-> & Hk & ->). rewrite Hk. unfold take_exact. cbn [fst snd].
    replace (n <=? len "") with false by (symmetry; apply Z.leb_gt; change (len "") with 0; lia).
    split; [done|]. f_equal. by rewrite str_drop_all by (simpl; lia).
Qed.

(** [_receive_exact] reads the first bytes of the stream, however it is cut. *)
Lemma receive_exact_reflects n : 0 <= n -> reflects (receive_exact n) (take_exact n).
Proof.
  intros Hn k. unfold receive_exact.
  destruct (receive_loop_stream (S (Z.to_nat n)) "" n k Hn ltac:(lia)) as [Hr Hi].
  destruct (receive_loop _ _ _ _) as [k' r]. cbn [fst snd] in *. injection Hr as ->. rewrite Hi.
  unfold take_exact. cbn [fst snd]. by destruct (n <=? _).
Qed.

Lemma ord_nonneg c : 0 <= ord c.
Proof. unfold ord. lia. Qed.

Lemma unpack_nonneg acc s : 0 <= acc -> 0 <= unpack_bytes acc s.
Proof.
  revert acc. induction s as [|c s IH]; simpl; intros acc Ha; [done|].
  apply IH. pose proof (ord_nonneg c). lia.
Qed.

(** ** What the frames guarantee *)

Lemma receive_frame_reflects max_bytes : reflects (receive_frame max_bytes) (frame_of max_bytes).
Proof.
  unfold receive_frame, frame_of.
  apply reflects_bind; [by apply receive_exact_reflects|]. intros k header _.
  apply reflects_bind; [apply reflects_guard|]. intros ? ? ?.
  apply reflects_bind; [apply reflects_guard|]. intros ? ? ?.
  apply reflects_bind; [apply receive_exact_reflects, unpack_nonneg; lia|]. intros. apply reflects_of.
Qed.

(** C34: [receive_frame] is the reference reader of the byte stream: however the
    kernel cuts the bytes into pieces, the result is the same and the same bytes
    are left. *)
Theorem receive_frame_reference max_bytes k :
  (receive_frame max_bytes k).2 = (frame_of max_bytes (incoming k)).2 /\
  incoming (receive_frame max_bytes k).1 = (frame_of max_bytes (incoming k)).1.
Proof. by rewrite receive_frame_reflects. Qed.

Lemma of_jerr_exhausted e : of_jerr e = WireExhausted -> e = Exhausted.
Proof. by destruct e. Qed.

Lemma decode_body_ends body : decode_body body <> Err WireExhausted.
Proof.
  unfold decode_body. pose proof (utf8_decode_ends body) as Hu.
  destruct (utf8_decode body) as [t|e]; simpl; [|intros [= He%of_jerr_exhausted]; congruence].
  pose proof (strict_loads_ends t) as Hj.
  destruct (strict_loads t) as [v|e]; simpl; [by destruct (as_obj v)|].
  intros [= He%of_jerr_exhausted]. congruence.
Qed.

Lemma take_exact_ends n s : (take_exact n s).2 <> Err WireExhausted.
Proof. unfold take_exact. cbn [snd]. destruct (n <=? _); [done|]. by destruct s.2. Qed.

(** The reference reader never runs out. *)
Lemma frame_of_ends max_bytes s : (frame_of max_bytes s).2 <> Err WireExhausted.
Proof.
  unfold frame_of, st_bind. pose proof (take_exact_ends FRAME_HEADER_BYTES s) as H.
  destruct (take_exact _ s) as [s1 [header|e]]; [|cbn [snd] in *; congruence]. clear H. unfold st_guard.
  destruct (negb _); [|done]. cbn [st_ret]. unfold st_ret.
  destruct (_ <=? max_bytes); [|done]. pose proof (take_exact_ends (unpack_bytes 0 header) s1) as H.
  destruct (take_exact _ s1) as [s2 [body|e]]; [|cbn [snd] in *; congruence]. apply decode_body_ends.
Qed.

(** C37: reading a frame ends, in a message, in a refusal or where the
    connection does, whatever the peer sends: the loops of [_receive_exact] and of
    the JSON reader never exhaust a fuel fixed by the lengths they are given. *)
Theorem receive_frame_ends max_bytes k : (receive_frame max_bytes k).2 <> Err WireExhausted.
Proof.
  pose proof (frame_of_ends max_bytes (incoming k)) as H.
  by rewrite receive_frame_reflects in H.
Qed.

(** Connections that carry the same bytes are read alike. *)
#[export] Instance receive_frame_proper max_bytes :
  Proper (same_stream ==> prod_relation same_stream eq) (receive_frame max_bytes).
Proof.
  unfold same_stream. intros k k' Hk. pose proof (receive_frame_reflects max_bytes k) as H.
  rewrite Hk, receive_frame_reflects in H. by apply pair_equal_spec in H as [H1 H2].
Qed.

Lemma len_drop n s : len (str_drop n s) = Z.max 0 (len s - Z.of_nat n).
Proof.
  unfold len. revert s. induction n as [|n IH]; intros [|c s]; simpl; try lia.
  rewrite IH. lia.
Qed.

(** A frame never costs the reader more than the header and [max_bytes]
    bytes, whatever length its header declares. *)
Theorem receive_frame_bounded max_bytes k :
  len (incoming k).1 - len (incoming (receive_frame max_bytes k).1).1
    <= FRAME_HEADER_BYTES + Z.max 0 max_bytes.
Proof.
  pose proof (receive_frame_reflects max_bytes k) as H. apply (f_equal fst) in H. cbn [fst] in H.
  rewrite <- H. clear H. destruct (incoming k) as [t b]. unfold frame_of, st_bind, take_exact.
  cbn [fst snd]. unfold FRAME_HEADER_BYTES.
  destruct (4 <=? len t) eqn:E; cbn [fst snd]; [|rewrite len_drop; lia].
  unfold st_guard. set (n := unpack_bytes 0 _). destruct (negb (n =? 0)); [|unfold st_raise; cbn [fst]; rewrite len_drop; lia].
  cbn [st_ret]. unfold st_ret. destruct (n <=? max_bytes) eqn:En; [|unfold st_raise; cbn [fst]; rewrite len_drop; lia].
  breflect. destruct (n <=? len _); cbn [fst snd st_of]; unfold st_of; cbn [fst]; rewrite !len_drop; lia.
Qed.

Lemma ord_byte z : 0 <= z < 256 -> ord (byte z) = z.
Proof. intros Hz. unfold ord, byte. rewrite N_ascii_embedding by lia. lia. Qed.

(** [struct.unpack("!I", struct.pack("!I", n))] *)
Lemma pack_u32_ok n h : pack_u32 n = Ok h -> unpack_bytes 0 h = n /\ len h = FRAME_HEADER_BYTES.
Proof.
  unfold pack_u32. intros H. ok_inv H. breflect. subst h. split; [|done]. cbn [unpack_bytes].
  assert (H24 : 0 <= n / 2 ^ 24 < 256) by (split; [apply Z.div_pos; lia|apply Z.div_lt_upper_bound; lia]).
  rewrite !ord_byte by first [done|apply Z.mod_pos_bound; lia].
  change (2 ^ 24) with (256 * 256 * 256). change (2 ^ 16) with (256 * 256). change (2 ^ 8) with 256.
  rewrite <- !Z.div_div by lia.
  pose proof (Z.div_mod n 256). pose proof (Z.div_mod (n / 256) 256).
  pose proof (Z.div_mod (n / 256 / 256) 256). lia.
Qed.

Lemma take_exact_app n s rest b : len s = n -> take_exact n (s +:+ rest, b) = ((rest, b), Ok s).
Proof.
  intros <-. unfold take_exact. cbn [fst snd]. rewrite len_app.
  replace (len s <=? _) with true by (symmetry; apply Z.leb_le; pose proof (len_nonneg rest); lia).
  unfold len at 1 2. rewrite Nat2Z.id. by rewrite str_drop_app, prefix_app.
Qed.

Lemma frame_reads d max_bytes frame k rest b :
  wire_ok (JObj d) = true -> encode_frame (JObj d) max_bytes = Ok frame ->
  incoming k = (frame +:+ rest, b) ->
  (receive_frame max_bytes k).2 = Ok d /\ incoming (receive_frame max_bytes k).1 = (rest, b).
Proof.
  unfold encode_frame. intros Hok He Hk. ok_inv He. subst frame. breflect.
  pose proof (receive_frame_reflects max_bytes k) as H. rewrite Hk in H.
  destruct (pack_u32_ok _ _ Ha2) as [Hu Hl].
  unfold frame_of, st_bind in H. rewrite append_assoc, take_exact_app, Hu in H by done.
  unfold st_guard in H. rewrite (proj2 (Z.leb_le _ _)) in H by done.
  assert (Hne : (len (utf8_encode a) =? 0) = false).
  { apply Z.eqb_neq. unfold truthy_str in Ha0. destruct (utf8_encode a); [done|].
    unfold len. cbn [String.length]. lia. }
  rewrite Hne in H. cbn [negb st_ret] in H. unfold st_ret in H. rewrite take_exact_app in H by done.
  unfold st_of, decode_body, strict_loads in H. rewrite utf8_decode_encode in H. cbn [map_err rbind] in H.
  rewrite (loads_wire_text reject_non_finite_json _ _ Ha Hok) in H. cbn in H. apply pair_equal_spec in H as [-> ->]. done.
Qed.

(** What [send_frame] writes, [receive_frame] reads back, however the bytes
    arrive, and the bytes behind them stay for the next frame. *)
Lemma frame_round_trip d max_bytes frame k rest b :
  wire_ok (JObj d) = true -> encode_frame (JObj d) max_bytes = Ok frame ->
  incoming k = (frame +:+ rest, b) ->
  (receive_frame max_bytes k).2 = Ok d /\ incoming (receive_frame max_bytes k).1 = (rest, b).
Proof. apply frame_reads. Qed.

(** ** Messages read back *)

(** What [decode_request] accepts. *)
Lemma decode_request_ok d r : decode_request d = Ok r ->
  rq_version r = DAEMON_PROTOCOL_VERSION /\ nonblank (rq_id r) = true /\
  len (rq_id r) <= MAX_REQUEST_ID_LENGTH /\ nonblank (rq_method r) = true /\
  len (rq_method r) <= MAX_METHOD_LENGTH.
Proof.
  unfold decode_request. intros H. ok_inv H. subst r. cbn [rq_version rq_id rq_method]. breflect.
  split_and!; try done. by apply String.eqb_eq.
Qed.

Lemma decode_make_request uuid method params id :
  nonblank id = true -> len id <= MAX_REQUEST_ID_LENGTH ->
  nonblank method = true -> len method <= MAX_METHOD_LENGTH ->
  decode_request (make_request uuid method (Some params) (Some id)) =
  Ok {| rq_version := DAEMON_PROTOCOL_VERSION; rq_id := id; rq_method := method; rq_params := params |}.
Proof.
  intros Hi Hil Hm Hml.
  assert (Ht : truthy_str id = true) by by destruct id.
  unfold decode_request, make_request, text_at. dget_eval. rewrite Ht.
  cbn [option_bind mbind as_str as_obj of_option rbind default from_option].
  apply Z.leb_le in Hil, Hml.
  change (truthy_str DAEMON_PROTOCOL_VERSION) with true.
  change (String.eqb DAEMON_PROTOCOL_VERSION DAEMON_PROTOCOL_VERSION) with true.
  cbn [require rbind]. by rewrite Hi, Hil, Hm, Hml.
Qed.

(** The request a client sends is the request the daemon decodes. *)
Definition receive_request : st conn wire_exn DaemonRequest :=
  do! payload <- receive_frame MAX_FRAME_BYTES; st_of (decode_request payload).

(** [decode_response] of a response to the same request gives back its result. *)
Lemma decode_make_result id r d : make_response id (Some r) None = Ok d -> decode_response d id = Ok r.
Proof.
  cbn [make_response]. intros [= <-]. unfold decode_response, str_at. dget_eval.
  by rewrite !String.eqb_refl.
Qed.

(** An error response raises its code at the client. *)
Lemma decode_make_error id code message d :
  make_response id None (Some [("code", JStr code); ("message", JStr message)]) = Ok d ->
  decode_response d id = Err (DaemonProtocolError code).
Proof.
  cbn [make_response]. intros [= <-]. unfold decode_response, str_at. dget_eval.
  rewrite !String.eqb_refl. unfold str_default, get_default. by dget_eval.
Qed.

(** A response to another request is refused. *)
Lemma decode_response_other id id' r e d : make_response id r e = Ok d -> id <> id' ->
  decode_response d id' = Err (DaemonProtocolError "RESPONSE_ID_MISMATCH").
Proof.
  intros Hd Hne. unfold decode_response, str_at.
  assert (dget d "protocol_version" = Some (JStr DAEMON_PROTOCOL_VERSION) /\
          dget d "request_id" = Some (JStr id)) as [-> ->].
  { destruct r, e; try done; cbn [make_response] in Hd; injection Hd as <-; by dget_eval. }
  rewrite String.eqb_refl. by apply String.eqb_neq in Hne as ->.
Qed.

(** A request that fits in a frame, sent over a connection, arrives at the
    daemon as the request it is. *)
Lemma request_round_trip uuid id method params frame k rest b :
  nonblank id = true -> len id <= MAX_REQUEST_ID_LENGTH ->
  nonblank method = true -> len method <= MAX_METHOD_LENGTH -> wire_ok (JObj params) = true ->
  encode_frame (JObj (make_request uuid method (Some params) (Some id))) MAX_FRAME_BYTES = Ok frame ->
  incoming k = (frame +:+ rest, b) ->
  (receive_request k).2 =
  Ok {| rq_version := DAEMON_PROTOCOL_VERSION; rq_id := id; rq_method := method; rq_params := params |}.
Proof.
  intros Hi Hil Hm Hml Hp He Hk.
  assert (Hok : wire_ok (JObj (make_request uuid method (Some params) (Some id))) = true).
  { unfold make_request. change (default [] (Some params)) with params.
    change (bool_decide (NoDup ["protocol_version"; "request_id"; "method"; "params"]) &&
      (true && (true && (true && (wire_ok (JObj params) && true)))) = true). by rewrite Hp. }
  destruct (frame_reads _ _ _ _ _ _ Hok He Hk) as [Hr _].
  unfold receive_request, st_bind. destruct (receive_frame MAX_FRAME_BYTES k) as [k' r].
  cbn [snd] in Hr. subst r. unfold st_of. cbn [snd]. by apply decode_make_request.
Qed.

(** ** Concrete frames *)

Definition demo_params : dict json := [("reason", JStr "preflight"); ("level", JFloat (Fin 25 (-1)))].
Definition demo_message : dict json :=
  make_request "0" "runtime.arm" (Some demo_params) (Some "request_1").
Definition demo_frame : string := match encode_frame (JObj demo_message) MAX_FRAME_BYTES with Ok s => s | Err _ => "" end.

(** The frame cut after its third byte, in the body, and followed by another. *)
Definition demo_conn : conn :=
  arrive (prefix_of 3 demo_frame) (arrive (prefix_of 20 (str_drop 3 demo_frame))
    (arrive (str_drop 23 demo_frame) [Data "x" ""; Silence])).

Lemma frame_round_trip_witness :
  (receive_frame MAX_FRAME_BYTES demo_conn).2 = Ok demo_message /\
  incoming (receive_frame MAX_FRAME_BYTES demo_conn).1 = ("x", true).
Proof.
  apply (frame_round_trip demo_message MAX_FRAME_BYTES demo_frame demo_conn "x" true);
    vm_compute; reflexivity.
Defined.

Lemma request_round_trip_witness :
  (receive_request demo_conn).2 =
  Ok {| rq_version := DAEMON_PROTOCOL_VERSION; rq_id := "request_1"; rq_method := "runtime.arm";
        rq_params := demo_params |}.
Proof.
  apply (request_round_trip "0" "request_1" "runtime.arm" demo_params demo_frame demo_conn "x" true);
    try (vm_compute; reflexivity); done.
Defined.

(** A peer that closes early, one that stops sending, one that declares too much. *)
Example truncated : (receive_frame 100 [Data "a" "b"]).2 = Err (DaemonProtocolError "TRUNCATED_FRAME").
Proof. reflexivity. Qed.
Example silent : (receive_frame 100 [Data "a" "b"; Silence]).2 = Err SocketError.
Proof. reflexivity. Qed.
Example too_large : (receive_frame 100 [Data (byte 0) (String (byte 0) (String (byte 0) (String (byte 101) "")))]).2
  = Err (DaemonProtocolError "FRAME_TOO_LARGE").
Proof. reflexivity. Qed.

(** [NaN] and [Infinity] are refused, but a literal beyond the range of a double is
    read as an infinity: [parse_constant] is not called for it. *)
Example constants_refused :
  map strict_loads ["NaN"; "-Infinity"; "[Infinity]"] = [Err Malformed; Err Malformed; Err Malformed].
Proof. reflexivity. Qed.
Example overflow_accepted : decode_body ("{" +:+ quote "x" +:+ ":1e400}") = Ok [("x", JFloat (Inf false))].
Proof. reflexivity. Qed.
