(* ===== verification/Workers.v ===== *)
(** Adapter worker processes: src/src/rosclaw/daemon/worker_manager.py.

    A process is a handle that [Popen] gave out; [alive] holds those the system
    still runs, which is what [process.poll() is None] reads. Monotonic time is in
    microseconds. A method runs as blocks: the code between taking and releasing
    [_lock], and the code outside it, so that blocks of several threads interleave
    as in the program; the methods are the sequences of their blocks.

    A worker is held by its id: the table never forgets one. *)

From S2P Require Export Wire.

Definition WORKER_PROTOCOL_VERSION : string := "rosclaw.adapter.worker.v1".
Definition MAX_WORKER_LINE_BYTES : Z := 64 * 1024.

(** [WorkerError] by its code; [TimeoutExpired] and any other exception. *)
Inductive worker_exn := WorkerError (code : string) | WorkerRaised.

Inductive WorkerState := W_STOPPED | W_STARTING | W_READY | W_DEGRADED | W_FAILED | W_STOPPING.

Definition WorkerState_value (s : WorkerState) : string :=
  match s with
  | W_STOPPED => "STOPPED" | W_STARTING => "STARTING" | W_READY => "READY"
  | W_DEGRADED => "DEGRADED" | W_FAILED => "FAILED" | W_STOPPING => "STOPPING"
  end.

#[export] Instance WorkerState_eq_dec : EqDecision WorkerState.
Proof. solve_decision. Defined.

Record WorkerSpec := {
  worker_id : string;
  command : list string;
  startup_timeout_sec : pyfloat;
  heartbeat_timeout_sec : pyfloat;
  stop_timeout_sec : pyfloat;
  restart_limit : Z;
  restart_window_sec : pyfloat;
}.

(** [WorkerSpec.__post_init__]; [limit] is the [restart_limit] as it was given. *)
Definition WorkerSpec_post_init (limit : json) (s : WorkerSpec) : result pyexc WorkerSpec :=
  guard! truthy_str (worker_id s) && (len (worker_id s) <=? 128) && negb (has_ctrl (worker_id s))
    else ValueError in
  guard! negb (bool_decide (command s = [])) && forallb truthy_str (command s) else ValueError in
  guard! forallb (fun f => negb (float_le f (Fin 0 0)))
           [startup_timeout_sec s; heartbeat_timeout_sec s; stop_timeout_sec s; restart_window_sec s]
    else ValueError in
  match limit with
  | JInt z =>
      guard! 0 <=? z else ValueError in
      Ok {| worker_id := worker_id s; command := command s;
            startup_timeout_sec := startup_timeout_sec s;
            heartbeat_timeout_sec := heartbeat_timeout_sec s; stop_timeout_sec := stop_timeout_sec s;
            restart_limit := z; restart_window_sec := restart_window_sec s |}
  | _ => Err ValueError
  end.

(** [_Worker] *)
Record Worker := {
  spec : WorkerSpec;
  wstate : WorkerState;
  process : option nat;
  generation : Z;
  connection : option string;
  started_at : option Z;
  last_heartbeat : option Z;
  last_error : option string;
  restart_times : list Z;
  desired : bool;
  ready : bool;
  stderr_tail : list string;
}.

Definition Worker_new (s : WorkerSpec) : Worker :=
  {| spec := s; wstate := W_STOPPED; process := None; generation := 0; connection := None;
     started_at := None; last_heartbeat := None; last_error := None; restart_times := [];
     desired := false; ready := false; stderr_tail := [] |}.

Record WorkerManager := {
  workers : dict Worker;
  stop_set : bool;            (* the [_stop] event *)
  monitored : bool;           (* the monitor thread runs *)
  alive : gset nat;
  next_process : nat;
}.

Definition WorkerManager_new : WorkerManager :=
  {| workers := []; stop_set := false; monitored := false; alive := ∅; next_process := 0 |}.

(** The world as one method sees it: the clock, whether [Popen] succeeds, the
    fresh identifier of a connection, whether a signalled process ends within its
    stop timeouts, the text of a reason. *)
Record wio := {
  w_now : Z;
  w_spawns : bool;
  w_uuid : string;
  w_dies : bool;
  w_text : string;
  w_pid : nat -> Z;
}.

Abbreviation change := (string * option string * string)%type.

Section Workers.
Abbreviation M := (st WorkerManager worker_exn).
Implicit Types (s : WorkerManager) (w : wio) (x : Worker).

(** ** Updates *)

Definition set_workers (v : dict Worker) s : WorkerManager :=
  {| workers := v; stop_set := stop_set s; monitored := monitored s; alive := alive s;
     next_process := next_process s |}.
Definition set_alive (v : gset nat) s : WorkerManager :=
  {| workers := workers s; stop_set := stop_set s; monitored := monitored s; alive := v;
     next_process := next_process s |}.

Definition with_state (st : WorkerState) x : Worker :=
  {| spec := spec x; wstate := st; process := process x; generation := generation x;
     connection := connection x; started_at := started_at x; last_heartbeat := last_heartbeat x;
     last_error := last_error x; restart_times := restart_times x; desired := desired x;
     ready := ready x; stderr_tail := stderr_tail x |}.
Definition with_error (e : option string) x : Worker :=
  {| spec := spec x; wstate := wstate x; process := process x; generation := generation x;
     connection := connection x; started_at := started_at x; last_heartbeat := last_heartbeat x;
     last_error := e; restart_times := restart_times x; desired := desired x;
     ready := ready x; stderr_tail := stderr_tail x |}.
Definition with_desired (b : bool) x : Worker :=
  {| spec := spec x; wstate := wstate x; process := process x; generation := generation x;
     connection := connection x; started_at := started_at x; last_heartbeat := last_heartbeat x;
     last_error := last_error x; restart_times := restart_times x; desired := b;
     ready := ready x; stderr_tail := stderr_tail x |}.
Definition with_ready (b : bool) x : Worker :=
  {| spec := spec x; wstate := wstate x; process := process x; generation := generation x;
     connection := connection x; started_at := started_at x; last_heartbeat := last_heartbeat x;
     last_error := last_error x; restart_times := restart_times x; desired := desired x;
     ready := b; stderr_tail := stderr_tail x |}.
Definition with_restarts (l : list Z) x : Worker :=
  {| spec := spec x; wstate := wstate x; process := process x; generation := generation x;
     connection := connection x; started_at := started_at x; last_heartbeat := last_heartbeat x;
     last_error := last_error x; restart_times := l; desired := desired x;
     ready := ready x; stderr_tail := stderr_tail x |}.
Definition with_process (p : option nat) x : Worker :=
  {| spec := spec x; wstate := wstate x; process := p; generation := generation x;
     connection := connection x; started_at := started_at x; last_heartbeat := last_heartbeat x;
     last_error := last_error x; restart_times := restart_times x; desired := desired x;
     ready := ready x; stderr_tail := stderr_tail x |}.
Definition with_heartbeat (at_ : Z) x : Worker :=
  {| spec := spec x; wstate := wstate x; process := process x; generation := generation x;
     connection := connection x; started_at := started_at x; last_heartbeat := Some at_;
     last_error := last_error x; restart_times := restart_times x; desired := desired x;
     ready := ready x; stderr_tail := stderr_tail x |}.
Definition with_stderr (l : list string) x : Worker :=
  {| spec := spec x; wstate := wstate x; process := process x; generation := generation x;
     connection := connection x; started_at := started_at x; last_heartbeat := last_heartbeat x;
     last_error := last_error x; restart_times := restart_times x; desired := desired x;
     ready := ready x; stderr_tail := l |}.

(** The worker runs process [p] on a new connection. *)
Definition spawned (p : nat) (connection_id : string) (now : Z) x : Worker :=
  {| spec := spec x; wstate := W_STARTING; process := Some p; generation := generation x + 1;
     connection := Some connection_id; started_at := Some now; last_heartbeat := Some now;
     last_error := None; restart_times := restart_times x; desired := desired x;
     ready := false; stderr_tail := stderr_tail x |}.

(** What [stop_worker] leaves. *)
Definition stopped x : Worker :=
  {| spec := spec x; wstate := W_STOPPED; process := None; generation := generation x;
     connection := None; started_at := started_at x; last_heartbeat := last_heartbeat x;
     last_error := last_error x; restart_times := restart_times x; desired := desired x;
     ready := false; stderr_tail := stderr_tail x |}.

(** [_get] *)
Definition get_worker (id : string) : M Worker := fun s =>
  (s, of_option (dget (workers s) id) (WorkerError "WORKER_NOT_FOUND")).

Definition modify (id : string) (f : Worker -> Worker) : M unit := st_set (fun s =>
  match dget (workers s) id with
  | Some x => set_workers (dset (workers s) id (f x)) s
  | None => s
  end).

(** [process is not None and process.poll() is None] *)
Definition runs_process (p : option nat) s : bool :=
  match p with Some p => bool_decide (p ∈ alive s) | None => false end.

(** ** Status *)

(** Microseconds as milliseconds to three places. *)
Definition ms_of_us (us : Z) : pyfloat :=
  let '(m, e) := dec_norm (dec_fuel us) us (-3) in Fin m e.

(** [_Worker.to_dict] *)
Definition Worker_to_dict w s x : dict json :=
  [("worker_id", JStr (worker_id (spec x)));
   ("state", JStr (WorkerState_value (wstate x)));
   ("pid", match process x with
           | Some p => if bool_decide (p ∈ alive s) then JInt (w_pid w p) else JNull
           | None => JNull
           end);
   ("generation", JInt (generation x));
   ("connection_id", opt_text_json (connection x));
   ("desired_running", JBool (desired x));
   ("heartbeat_age_ms", match last_heartbeat x with
                        | Some t => JFloat (ms_of_us (Z.max 0 (w_now w - t)))
                        | None => JNull
                        end);
   ("restart_count_window", JInt (Z.of_nat (length (restart_times x))));
   ("restart_limit", JInt (restart_limit (spec x)));
   ("last_error", opt_text_json (last_error x));
   ("stderr_tail", JList (map JStr (stderr_tail x)))].

Definition get_status w (id : string) : M (dict json) := fun s =>
  (s, let* x := of_option (dget (workers s) id) (WorkerError "WORKER_NOT_FOUND") in
      Ok (Worker_to_dict w s x)).

Definition count_state (st : WorkerState) (l : list Worker) : Z :=
  Z.of_nat (length (filter (fun x => wstate x = st) l)).

Definition manager_status w s : dict json :=
  let l := dvals (workers s) in
  [("registered", JInt (Z.of_nat (length l)));
   ("ready", JInt (count_state W_READY l));
   ("failed", JInt (count_state W_FAILED l));
   ("workers", JList (map (fun x => JObj (Worker_to_dict w s x)) l))].

(** ** Blocks *)

(** [register] *)
Definition register_worker (sp : WorkerSpec) : M unit := fun s =>
  if dhas (workers s) (worker_id sp) then (s, Err (WorkerError "WORKER_EXISTS"))
  else (set_workers (dset (workers s) (worker_id sp) (Worker_new sp)) s, Ok tt).

(** [start]: the monitor thread runs. *)
Definition start_monitor : M unit := st_set (fun s =>
  if monitored s then s
  else {| workers := workers s; stop_set := false; monitored := true; alive := alive s;
          next_process := next_process s |}).

(** A duration of [us] microseconds is longer than [f] seconds. *)
Definition longer (us : Z) (f : pyfloat) : bool := float_lt f (Fin us (-6)).

(** [_prune_restart_times]: times older than the window leave the front. *)
Fixpoint prune (window : pyfloat) (now : Z) (l : list Z) : list Z :=
  match l with
  | t :: l' => if longer (now - t) window then prune window now l' else l
  | [] => []
  end.

Definition prune_restart_times (now : Z) x : Worker :=
  with_restarts (prune (restart_window_sec (spec x)) now (restart_times x)) x.

(** The budget of [_spawn_locked]: a restart is counted, or refused. *)
Definition count_restart w (id : string) : M unit :=
  do! x <- get_worker id;
  if restart_limit (spec x) <=? Z.of_nat (length (restart_times x)) then
    run! modify id (fun x => with_error (Some "restart budget exhausted")
                               (with_desired false (with_state W_FAILED x)));
    st_raise (WorkerError "WORKER_RESTART_EXHAUSTED")
  else modify id (fun x => with_restarts (restart_times x ++ [w_now w]) x).

(** [subprocess.Popen(...)]: a process never seen before. *)
Definition popen w : M nat := fun s =>
  if w_spawns w then
    ({| workers := workers s; stop_set := stop_set s; monitored := monitored s;
        alive := {[ next_process s ]} ∪ alive s; next_process := S (next_process s) |},
     Ok (next_process s))
  else (s, Err WorkerRaised).

Definition connection_of w : string := "worker_" +:+ w_uuid w.

(** [_spawn_locked]: the worker id, its old connection and its new one. *)
Definition spawn_locked w (id : string) (is_restart : bool) : M change :=
  run! modify id (prune_restart_times (w_now w));
  run! (if is_restart then count_restart w id else st_ret tt);
  do! x <- get_worker id;
  do! p <- st_try (popen w) (fun _ =>
    run! modify id (fun x => with_error (Some (prefix_of 512 (w_text w))) (with_state W_FAILED x));
    st_raise (WorkerError "WORKER_SPAWN_FAILED"));
  run! modify id (spawned p (connection_of w) (w_now w));
  st_ret (id, connection x, connection_of w).

(** The block of [start_worker]. *)
Definition start_block w (id : string) : M (option change) :=
  run! start_monitor;
  do! x <- get_worker id;
  run! modify id (with_desired true);
  do! s <- st_get (fun s => s);
  if runs_process (process x) s then st_ret None
  else do! c <- spawn_locked w id (0 <? generation x); st_ret (Some c).

(** The block of [_fail_and_terminate]: the process to terminate. *)
Definition fail_block (id reason : string) (expected : option nat) : M (option nat) :=
  do! x <- get_worker id;
  match expected with
  | Some p =>
      if bool_decide (process x = Some p) then
        if bool_decide (wstate x = W_FAILED) && negb (desired x) then st_ret None
        else run! modify id (fun x => with_state W_DEGRADED (with_error (Some reason) x));
             st_ret (process x)
      else st_ret None
  | None =>
      if bool_decide (wstate x = W_FAILED) && negb (desired x) then st_ret None
      else run! modify id (fun x => with_state W_DEGRADED (with_error (Some reason) x));
           st_ret (process x)
  end.

(** [_terminate]: SIGTERM, then SIGKILL after the stop timeout; a process that
    outlives both raises [TimeoutExpired]. *)
Definition terminate w (p : option nat) : M unit := fun s =>
  match p with
  | Some p =>
      if bool_decide (p ∈ alive s) then
        if w_dies w then (set_alive (alive s ∖ {[p]}) s, Ok tt) else (s, Err WorkerRaised)
      else (s, Ok tt)
  | None => (s, Ok tt)
  end.

(** [_fail_and_terminate] *)
Definition fail_and_terminate w (id reason : string) (expected : option nat) : M unit :=
  do! p <- fail_block id reason expected; terminate w p.

(** The two blocks of [stop_worker]. *)
Definition stop_mark (id : string) : M (option nat) :=
  do! x <- get_worker id;
  run! modify id (fun x => with_state (match process x with Some _ => W_STOPPING | None => W_STOPPED end)
                             (with_desired false x));
  st_ret (process x).

Definition stop_finish w (id : string) : M (dict json) :=
  run! modify id stopped; get_status w id.

(** The first block of [_monitor_worker]: whether the worker is to be replaced,
    and the process it had. *)
Definition monitor_check w (id : string) : M (option (option nat)) := fun s =>
  match dget (workers s) id with
  | None => (s, Ok None)
  | Some x =>
      if negb (desired x) then (s, Ok None)
      else
        let limit := if bool_decide (wstate x = W_STARTING) then startup_timeout_sec (spec x)
                     else heartbeat_timeout_sec (spec x) in
        let late := longer (w_now w - default 0 (last_heartbeat x)) limit in
        let degrade reason :=
          (modify id (fun x => with_state W_DEGRADED (with_error (Some reason) x)) s).1 in
        match process x with
        | None => (degrade "worker process is absent", Ok (Some None))
        | Some p =>
            if negb (bool_decide (p ∈ alive s)) then (degrade (w_text w), Ok (Some (Some p)))
            else if late then (degrade (w_text w), Ok (Some (Some p)))
            else (s, Ok None)
        end
  end.

(** Its second block. *)
Definition monitor_respawn w (id : string) : M (option change) :=
  do! x <- get_worker id;
  do! s <- st_get (fun s => s);
  if negb (desired x) || stop_set s then st_ret None
  else
    run! modify id (with_process None);
    st_try (do! c <- spawn_locked w id true; st_ret (Some c)) (fun e =>
      match e with
      | WorkerError _ =>
          run! modify id (fun x => with_desired false (with_state W_FAILED x)); st_ret None
      | WorkerRaised => st_raise e
      end).

(** *** What a worker prints *)

Fixpoint last_char (s : string) : option ascii :=
  match s with
  | EmptyString => None
  | String c EmptyString => Some c
  | String _ s' => last_char s'
  end.

Inductive message := Ready | Heartbeat | Degraded (reason : json).

(** What the reader makes of a line: a message, a reason to fail the worker, or an
    exception that ends the reader. *)
Inductive reading := Message (m : message) | Refused (reason : string) | ReaderRaises | OutsideModel.

Definition read_message (d : dict json) : reading :=
  match get_default d "type" JNull with
  | JStr t =>
      if String.eqb t "ready" then Message Ready
      else if String.eqb t "heartbeat" then Message Heartbeat
      else if String.eqb t "degraded" then Message (Degraded (get_default d "reason" (JStr "worker degraded")))
      else Refused "unsupported worker message type"
  | JList _ | JObj _ => ReaderRaises              (* unhashable *)
  | _ => Refused "unsupported worker message type"
  end.

Definition read_line (line : string) : reading :=
  if negb (len (utf8_encode line) <=? MAX_WORKER_LINE_BYTES)
     || negb (bool_decide (last_char line = Some (ascii_of_N 10)))
  then Refused "worker protocol line exceeded size limit"
  else match json_loads line with
       | Err Malformed => Refused "worker emitted invalid JSON protocol message"
       | Err TooManyDigits => ReaderRaises
       | Err _ => OutsideModel
       | Ok (JObj d) =>
           if str_at d "protocol_version" WORKER_PROTOCOL_VERSION then read_message d
           else Refused "worker emitted unsupported protocol message"
       | Ok _ => Refused "worker emitted unsupported protocol message"
       end.

(** The state a message leaves; [None] where the text of its reason is not
    modelled. *)
Definition take_message (now : Z) (m : message) x : option Worker :=
  let x := with_heartbeat now x in
  match m with
  | Ready => Some (with_ready true (with_state W_READY x))
  | Heartbeat => Some (if bool_decide (wstate x = W_STARTING)
                       then with_ready true (with_state W_READY x) else x)
  | Degraded reason =>
      match py_str reason with
      | Ok t => Some (with_error (Some (prefix_of 512 t)) (with_state W_DEGRADED x))
      | Err _ => None
      end
  end.

(** One round of [_read_stdout] for process [p]: whether the reader goes on. *)
Definition read_stdout w (id : string) (p : nat) (line : string) : M bool := fun s =>
  match read_line line with
  | Refused reason =>
      st_bind (fail_and_terminate w id reason (Some p)) (fun _ => st_ret false) s
  | ReaderRaises | OutsideModel => (s, Err WorkerRaised)
  | Message m =>
      match dget (workers s) id with
      | None => (s, Ok false)
      | Some x =>
          if bool_decide (process x = Some p) then
            match take_message (w_now w) m x with
            | Some x' => (set_workers (dset (workers s) id x') s, Ok true)
            | None => (s, Err WorkerRaised)
            end
          else (s, Ok false)
      end
  end.

(** The last [n] of a list: a deque of at most [n]. *)
Definition keep_last {A} (n : nat) (l : list A) : list A := drop (length l - n) l.

(** One round of [_read_stderr]. *)
Definition read_stderr (id : string) (p : nat) (line : string) : M bool := fun s =>
  match dget (workers s) id with
  | None => (s, Ok false)
  | Some x =>
      if bool_decide (process x = Some p) then
        (set_workers (dset (workers s) id
           (with_stderr (keep_last 20 (stderr_tail x ++ [prefix_of 512 (rstrip line)])) x)) s, Ok true)
      else (s, Ok false)
  end.

(** ** Methods *)

(** What [start_worker] does after its wait: [ready] is the event's flag. *)
Definition start_finish w (id : string) : M (dict json) :=
  do! x <- get_worker id;
  if ready x then get_status w id
  else run! fail_and_terminate w id "worker startup heartbeat timed out" None;
       st_raise (WorkerError "WORKER_START_TIMEOUT").

(** [stop_worker]; [w'] is the world of the block after the process ended. *)
Definition stop_worker w w' (id : string) : M (dict json) :=
  do! p <- stop_mark id; run! terminate w p; stop_finish w' id.

(** [_monitor_worker]; the change it makes is for the callback. *)
Definition monitor_worker w w' (id : string) : M (option change) :=
  do! hit <- monitor_check w id;
  match hit with
  | None => st_ret None
  | Some p => run! terminate w p; monitor_respawn w' id
  end.

(** The [finally] part of [close]: every worker is stopped. *)
Definition close_workers w : M unit := fun s =>
  let s := {| workers := workers s; stop_set := true; monitored := monitored s; alive := alive s;
              next_process := next_process s |} in
  let '(s, r) := st_each (fun id => st_suppress (run! stop_worker w w id; st_ret tt)) (dkeys (workers s)) s in
  ({| workers := workers s; stop_set := stop_set s; monitored := false; alive := alive s;
      next_process := next_process s |}, r).

(** ** The blocks by their outcome *)

Definition put (id : string) x s : WorkerManager := set_workers (dset (workers s) id x) s.

Lemma modify_some id f s x : dget (workers s) id = Some x -> modify id f s = (put id (f x) s, Ok tt).
Proof. unfold modify, st_set. by intros ->. Qed.

Lemma modify_none id f s : dget (workers s) id = None -> modify id f s = (s, Ok tt).
Proof. unfold modify, st_set. by intros ->. Qed.

Lemma get_some id s x : dget (workers s) id = Some x -> get_worker id s = (s, Ok x).
Proof. unfold get_worker. by intros ->. Qed.

Lemma get_none id s : dget (workers s) id = None -> get_worker id s = (s, Err (WorkerError "WORKER_NOT_FOUND")).
Proof. unfold get_worker. by intros ->. Qed.

Lemma dget_put id x s : dget (workers (put id x s)) id = Some x.
Proof. apply dget_dset_eq. Qed.

Lemma dget_put_ne id id' x s : id <> id' -> dget (workers (put id x s)) id' = dget (workers s) id'.
Proof. apply dget_dset_ne. Qed.

Lemma put_put id x x' s : put id x' (put id x s) = put id x' s.
Proof. unfold put, set_workers. cbn [workers stop_set monitored alive next_process]. by rewrite dset_dset. Qed.

Definition exhausted x : Worker :=
  with_error (Some "restart budget exhausted") (with_desired false (with_state W_FAILED x)).
Definition counted (now : Z) x : Worker := with_restarts (restart_times x ++ [now]) x.
Definition spawn_failed w x : Worker :=
  with_error (Some (prefix_of 512 (w_text w))) (with_state W_FAILED x).

(** The manager after process [next_process s] starts for worker [x]. *)
Definition with_spawn w (id : string) x s : WorkerManager :=
  {| workers := dset (workers s) id (spawned (next_process s) (connection_of w) (w_now w) x);
     stop_set := stop_set s; monitored := monitored s; alive := {[ next_process s ]} ∪ alive s;
     next_process := S (next_process s) |}.

Definition over_budget x : bool := restart_limit (spec x) <=? Z.of_nat (length (restart_times x)).

Lemma spawn_locked_none w id b s : dget (workers s) id = None ->
  spawn_locked w id b s = (s, Err (WorkerError "WORKER_NOT_FOUND")).
Proof.
  intros H. unfold spawn_locked, count_restart, st_bind. rewrite modify_none by done.
  destruct b; [by rewrite get_none|]. unfold st_ret. by rewrite get_none.
Qed.

(** [_spawn_locked]: over budget, a failed [Popen], a new process. *)
Lemma spawn_locked_some w id b s x : dget (workers s) id = Some x ->
  let x1 := prune_restart_times (w_now w) x in
  let x2 := if b : bool then counted (w_now w) x1 else x1 in
  spawn_locked w id b s =
  if b && over_budget x1 then (put id (exhausted x1) s, Err (WorkerError "WORKER_RESTART_EXHAUSTED"))
  else if w_spawns w then (with_spawn w id x2 s, Ok (id, connection x, connection_of w))
  else (put id (spawn_failed w x2) s, Err (WorkerError "WORKER_SPAWN_FAILED")).
Proof.
  intros Hx x1 x2. unfold spawn_locked. unfold st_bind at 1. rewrite (modify_some _ _ _ _ Hx). fold x1.
  assert (Hc : (if b then count_restart w id else st_ret tt) (put id x1 s) =
    if b && over_budget x1 then (put id (exhausted x1) s, Err (WorkerError "WORKER_RESTART_EXHAUSTED"))
    else (put id x2 s, Ok tt)).
  { subst x2. destruct b; [|done]. unfold count_restart, st_bind.
    rewrite (get_some _ _ x1) by apply dget_put. fold (over_budget x1). cbn [andb].
    destruct (over_budget x1); rewrite (modify_some _ _ _ x1), put_put by apply dget_put; done. }
  unfold st_bind at 1. rewrite Hc. destruct (b && over_budget x1); [done|].
  unfold st_bind at 1. rewrite (get_some _ _ x2) by apply dget_put.
  unfold st_bind, st_try, popen. destruct (w_spawns w).
  - unfold modify, st_set. cbn [workers put set_workers]. rewrite dget_dset_eq. unfold st_ret.
    f_equal; [|by destruct b].
    unfold set_workers, with_spawn, put. cbn. by rewrite dset_dset.
  - rewrite (modify_some _ _ _ x2), put_put by apply dget_put. done.
Qed.

(** ** Nothing is resumed

    A worker keeps its process or loses it; another process is a new one, of a
    later generation, and so is another connection. *)
Record newer (next : nat) x x' : Prop := {
  nw_spec : spec x' = spec x;
  nw_generation : generation x <= generation x';
  nw_process : process x' = process x \/ process x' = None \/
    exists p, process x' = Some p /\ (next <= p)%nat /\ generation x < generation x';
  nw_connection : connection x' = connection x \/ connection x' = None \/
    generation x < generation x';
}.

Record grows s s' : Prop := {
  gr_worker : forall id x, dget (workers s) id = Some x ->
    exists x', dget (workers s') id = Some x' /\ newer (next_process s) x x';
  gr_next : (next_process s <= next_process s')%nat;
  gr_alive : forall p, p ∈ alive s' -> p ∈ alive s \/ (next_process s <= p)%nat;
}.

Lemma newer_refl n x : newer n x x.
Proof. constructor; auto; lia. Qed.

Lemma newer_trans n n' x y z : (n <= n')%nat -> newer n x y -> newer n' y z -> newer n x z.
Proof.
  intros Hn [H1 H2 H3 H4] [K1 K2 K3 K4]. constructor; [congruence|lia| |].
  - destruct K3 as [->|[->|(p & -> & Hp & Hg)]]; [|auto|right; right; exists p; split_and!; [done|lia..]].
    destruct H3 as [->|[->|(p & -> & Hp & Hg)]]; [auto|auto|].
    right; right. exists p. split_and!; [done|lia..].
  - destruct K4 as [->|[->|Hg]]; [|auto|right; right; lia].
    destruct H4 as [->|[->|Hg]]; [auto|auto|right; right; lia].
Qed.

#[export] Instance grows_preorder : PreOrder grows.
Proof.
  split.
  - intros s. constructor; [|lia|auto]. intros id x Hx. exists x. split; [done|apply newer_refl].
  - intros a b c [A1 A2 A3] [B1 B2 B3]. constructor; [|lia|].
    + intros id x Hx. destruct (A1 _ _ Hx) as (y & Hy & Hxy). destruct (B1 _ _ Hy) as (z & Hz & Hyz).
      exists z. split; [done|]. by eapply newer_trans.
    + intros p Hp. destruct (B3 p Hp) as [Hb|Hb]; [by apply A3|right; lia].
Qed.

(** An update that touches neither process, generation nor connection, or drops
    the process or the connection. *)
Lemma grows_put id x x' s : dget (workers s) id = Some x -> newer (next_process s) x x' -> grows s (put id x' s).
Proof.
  intros Hx Hn. constructor; [|simpl; lia|by left]. intros id' y Hy.
  destruct (decide (id = id')) as [<-|Hne].
  - exists x'. rewrite dget_put. split; [done|]. by simplify_eq.
  - exists y. rewrite dget_put_ne by done. split; [done|apply newer_refl].
Qed.

Lemma grows_modify id f : (forall n x, newer n x (f x)) -> keeps grows (modify id f).
Proof.
  intros Hf s. destruct (dget (workers s) id) as [x|] eqn:E.
  - rewrite (modify_some _ _ _ _ E). by eapply grows_put.
  - by rewrite (modify_none _ _ _ E).
Qed.

Lemma grows_set_monitor b m s :
  grows s {| workers := workers s; stop_set := b; monitored := m; alive := alive s; next_process := next_process s |}.
Proof. constructor; simpl; [|lia|by left]. intros id x Hx. exists x. split; [done|apply newer_refl]. Qed.

Lemma grows_get id : keeps grows (get_worker id).
Proof. intros s. reflexivity. Qed.

Lemma grows_terminate w p : keeps grows (terminate w p).
Proof.
  intros s. unfold terminate. destruct p as [p|]; [|reflexivity].
  destruct (bool_decide _); [|reflexivity]. destruct (w_dies w); [|reflexivity].
  constructor; simpl; [|lia|set_solver]. intros id x Hx. exists x. split; [done|apply newer_refl].
Qed.

Lemma newer_pruned n now x : newer n x (prune_restart_times now x).
Proof. by constructor; simpl; [|lia|left|left]. Qed.

Lemma grows_with_spawn w id x x2 s : dget (workers s) id = Some x -> newer (next_process s) x x2 ->
  generation x2 = generation x -> grows s (with_spawn w id x2 s).
Proof.
  intros Hx Hn Hg. constructor; simpl; [|lia|].
  - intros id' y Hy. destruct (decide (id = id')) as [<-|Hne].
    + eexists. split; [apply dget_dset_eq|]. simplify_eq. destruct Hn. constructor; simpl; [done|lia| |].
      * right; right. eexists. split_and!; [done|lia..].
      * right; right. lia.
    + exists y. rewrite dget_dset_ne by done. split; [done|apply newer_refl].
  - intros p [->%elem_of_singleton|Hp]%elem_of_union; [right; lia|by left].
Qed.

Lemma grows_spawn w id b : keeps grows (spawn_locked w id b).
Proof.
  intros s. destruct (dget (workers s) id) as [x|] eqn:E; [|by rewrite spawn_locked_none].
  rewrite (spawn_locked_some w id b s x E).
  destruct (b && over_budget _); simpl; [eapply grows_put; [done|]; by constructor; simpl; [|lia|left|left]|].
  destruct (w_spawns w); simpl.
  - apply grows_with_spawn with x; [done| |by destruct b]. destruct b; by constructor; simpl; [|lia|left|left].
  - eapply grows_put; [done|]. destruct b; by constructor; simpl; [|lia|left|left].
Qed.

Lemma grows_get_status w id : keeps grows (get_status w id).
Proof. intros s. reflexivity. Qed.

(** Walk a method, leaving its updates. *)
Ltac grows_go :=
  repeat first
    [ apply grows_get | apply grows_spawn | apply grows_terminate | apply grows_get_status
    | apply keeps_ret; apply _ | apply keeps_raise; apply _ | apply keeps_get; apply _
    | apply keeps_bind; [apply _| |intros ?]
    | apply keeps_try; [apply _| |intros ?]
    | apply grows_modify; intros ? ?; constructor; simpl; first [done|lia|by left|by right; left]
    | match goal with |- keeps _ (match ?x with _ => _ end) => destruct x end ].

Lemma grows_start_block w id : keeps grows (start_block w id).
Proof.
  unfold start_block, start_monitor. grows_go. apply keeps_set. intros s.
  destruct (monitored s); [reflexivity|apply grows_set_monitor].
Qed.

Lemma grows_fail_block id reason p : keeps grows (fail_block id reason p).
Proof. unfold fail_block. grows_go. Qed.

Lemma grows_fail w id reason p : keeps grows (fail_and_terminate w id reason p).
Proof. unfold fail_and_terminate. apply keeps_bind; [apply _|apply grows_fail_block|intros ?; grows_go]. Qed.

Lemma grows_stop_mark id : keeps grows (stop_mark id).
Proof. unfold stop_mark. grows_go. Qed.

Lemma grows_stop_finish w id : keeps grows (stop_finish w id).
Proof. unfold stop_finish. grows_go. Qed.

Lemma grows_respawn w id : keeps grows (monitor_respawn w id).
Proof. unfold monitor_respawn. grows_go. Qed.

Lemma grows_check w id : keeps grows (monitor_check w id).
Proof.
  intros s. unfold monitor_check. destruct (dget (workers s) id) as [x|] eqn:E; [|reflexivity].
  destruct (negb (desired x)); [reflexivity|].
  assert (Hd : forall r, grows s (modify id (fun x => with_state W_DEGRADED (with_error (Some r) x)) s).1)
    by (intros r; apply grows_modify; by constructor; simpl; [|lia|left|left]).
  destruct (process x) as [p|]; [|apply Hd]. destruct (negb _); [apply Hd|].
  destruct (longer _ _); [apply Hd|reflexivity].
Qed.

Lemma take_message_newer n now m x x' : take_message now m x = Some x' -> newer n x x'.
Proof.
  unfold take_message. intros H.
  destruct m as [| |reason]; [| |destruct (py_str reason); [|done]]; injection H as <-;
    [| |by constructor; simpl; [|lia|left|left]].
  - by constructor; simpl; [|lia|left|left].
  - destruct (bool_decide _); by constructor; simpl; [|lia|left|left].
Qed.

Lemma grows_read_stdout w id p line : keeps grows (read_stdout w id p line).
Proof.
  intros s. unfold read_stdout. destruct (read_line line) as [m|reason| |]; [| |reflexivity|reflexivity].
  - destruct (dget (workers s) id) as [x|] eqn:E; [|reflexivity].
    destruct (bool_decide _); [|reflexivity]. destruct (take_message (w_now w) m x) eqn:Em; [|reflexivity].
    eapply (grows_put id x); [done|]. by eapply take_message_newer.
  - apply keeps_bind; [apply _|apply grows_fail|intros ?; grows_go].
Qed.

Lemma grows_read_stderr id p line : keeps grows (read_stderr id p line).
Proof.
  intros s. unfold read_stderr. destruct (dget (workers s) id) as [x|] eqn:E; [|reflexivity].
  destruct (bool_decide _); [|reflexivity]. eapply (grows_put id x); [done|].
  by constructor; simpl; [|lia|left|left].
Qed.

Lemma grows_by_register sp : keeps grows (register_worker sp).
Proof.
  intros s. unfold register_worker. destruct (dhas (workers s) (worker_id sp)) eqn:E; [reflexivity|].
  apply dhas_false in E. constructor; simpl; [|lia|by left]. intros id x Hx. exists x.
  rewrite dget_dset_ne by congruence. split; [done|apply newer_refl].
Qed.

(** ** The threads

    One block of one thread: a client that starts or stops a worker, the monitor,
    a reader, or a process that ends by itself. *)
Inductive wstep : WorkerManager -> WorkerManager -> Prop :=
| w_register s sp : 0 <= restart_limit sp -> wstep s (register_worker sp s).1
| w_start s w id : wstep s (start_block w id s).1
| w_fail s id reason p : wstep s (fail_block id reason p s).1
| w_terminate s w p : wstep s (terminate w p s).1
| w_stop_mark s id : wstep s (stop_mark id s).1
| w_stop_finish s w id : wstep s (stop_finish w id s).1
| w_check s w id : wstep s (monitor_check w id s).1
| w_respawn s w id : wstep s (monitor_respawn w id s).1
| w_stdout s w id p line : wstep s (read_stdout w id p line s).1
| w_stderr s id p line : wstep s (read_stderr id p line s).1
| w_exits s p : wstep s (set_alive (alive s ∖ {[p]}) s)
| w_closing s b m : wstep s
    {| workers := workers s; stop_set := b; monitored := m; alive := alive s;
       next_process := next_process s |}.

Lemma grows_wstep s s' : wstep s s' -> grows s s'.
Proof.
  destruct 1; try apply grows_set_monitor.
  - apply grows_by_register.
  - apply grows_start_block.
  - apply grows_fail_block.
  - apply grows_terminate.
  - apply grows_stop_mark.
  - apply grows_stop_finish.
  - apply grows_check.
  - apply grows_respawn.
  - apply grows_read_stdout.
  - apply grows_read_stderr.
  - constructor; simpl; [|lia|set_solver]. intros id x Hx. exists x. split; [done|apply newer_refl].
Qed.

Lemma grows_steps s s' : rtc wstep s s' -> grows s s'.
Proof. induction 1 as [|a b c Hab _ IH]; [done|]. etrans; [by apply grows_wstep|done]. Qed.

(** No interleaving of the threads resumes an old worker: between any two
    moments a worker keeps its process, has lost it, or has another that had not
    been started before, of a later generation; and likewise its connection. *)
Theorem never_resumed s s' id x : rtc wstep s s' -> dget (workers s) id = Some x ->
  exists x', dget (workers s') id = Some x' /\ newer (next_process s) x x'.
Proof.
  intros Hr%grows_steps. by apply gr_worker.
Qed.

(** *** The worker table *)

Record worker_ok s (id : string) x : Prop := {
  wo_id : worker_id (spec x) = id;
  wo_limit : 0 <= restart_limit (spec x);
  wo_generation : 0 <= generation x;
  wo_fresh : generation x = 0 -> process x = None /\ connection x = None;
  wo_budget : Z.of_nat (length (restart_times x)) <= restart_limit (spec x);
  wo_process : forall p, process x = Some p -> (p < next_process s)%nat;
  wo_connected : is_Some (process x) -> is_Some (connection x);
}.

Record table_inv s : Prop := {
  wi_workers : forall id x, dget (workers s) id = Some x -> worker_ok s id x;
  wi_alive : forall p, p ∈ alive s -> (p < next_process s)%nat;
  wi_distinct : forall id id' x x' p, dget (workers s) id = Some x -> dget (workers s) id' = Some x' ->
    process x = Some p -> process x' = Some p -> id = id';
}.

Lemma worker_ok_same s s' id x : next_process s' = next_process s -> worker_ok s id x -> worker_ok s' id x.
Proof. intros Hn []. constructor; try done. by rewrite Hn. Qed.

(** An update of one worker that starts no process. *)
Lemma table_inv_put s id x x' : table_inv s -> dget (workers s) id = Some x ->
  worker_ok s id x' -> (process x' = process x \/ process x' = None) -> table_inv (put id x' s).
Proof.
  intros [Hw Ha Hd] Hx Hok Hp. constructor; [|done|].
  - intros id' y Hy. destruct (decide (id = id')) as [<-|Hne].
    + rewrite dget_put in Hy. simplify_eq. by apply (worker_ok_same s).
    + rewrite dget_put_ne in Hy by done. apply (worker_ok_same s); [done|auto].
  - intros i j y z p Hy Hz Hpy Hpz.
    assert (Hof : forall k v q, dget (workers (put id x' s)) k = Some v -> process v = Some q ->
              exists v', dget (workers s) k = Some v' /\ process v' = Some q).
    { intros k v q Hk Hq. destruct (decide (id = k)) as [<-|Hne].
      - rewrite dget_put in Hk. simplify_eq. exists x. split; [done|]. destruct Hp; congruence.
      - rewrite dget_put_ne in Hk by done. eauto. }
    destruct (Hof _ _ _ Hy Hpy) as (y' & ? & ?), (Hof _ _ _ Hz Hpz) as (z' & ? & ?).
    by apply (Hd i j y' z' p).
Qed.

Definition keeps_inv {A} (m : M A) : Prop := forall s, table_inv s -> table_inv (m s).1.

Lemma inv_bind {A B} (m : M A) (k : A -> M B) :
  keeps_inv m -> (forall a, keeps_inv (k a)) -> keeps_inv (st_bind m k).
Proof.
  intros Hm Hk s Hs. unfold st_bind. specialize (Hm s Hs).
  destruct (m s) as [s' [a|e]]; [by apply Hk|done].
Qed.

Lemma inv_try {A} (m : M A) (h : worker_exn -> M A) :
  keeps_inv m -> (forall e, keeps_inv (h e)) -> keeps_inv (st_try m h).
Proof.
  intros Hm Hh s Hs. unfold st_try. specialize (Hm s Hs).
  destruct (m s) as [s' [a|e]]; [done|by apply Hh].
Qed.

Lemma inv_same {A} (m : M A) : (forall s, (m s).1 = s) -> keeps_inv m.
Proof. intros H s Hs. by rewrite H. Qed.

Lemma inv_modify id f : (forall s x, worker_ok s id x -> worker_ok s id (f x)) ->
  (forall x, process (f x) = process x \/ process (f x) = None) -> keeps_inv (modify id f).
Proof.
  intros Hf Hp s Hs. destruct (dget (workers s) id) as [x|] eqn:E.
  - rewrite (modify_some _ _ _ _ E). eapply table_inv_put; [done|done| |apply Hp].
    apply Hf. by apply (wi_workers s).
  - by rewrite (modify_none _ _ _ E).
Qed.

Lemma prune_length window now l : (length (prune window now l) <= length l)%nat.
Proof. induction l as [|t l IH]; simpl; [done|]. destruct (longer _ _); simpl; lia. Qed.

Lemma inv_with_spawn w id s x x2 : table_inv s -> dget (workers s) id = Some x ->
  spec x2 = spec x -> generation x2 = generation x ->
  Z.of_nat (length (restart_times x2)) <= restart_limit (spec x) -> table_inv (with_spawn w id x2 s).
Proof.
  intros [Hw Ha Hd] Hx Hsp Hg Hb. pose proof (Hw _ _ Hx) as Hok. constructor; simpl.
  - intros id' y Hy. destruct (decide (id = id')) as [<-|Hne].
    + rewrite dget_dset_eq in Hy. injection Hy as <-. destruct Hok. constructor; simpl; rewrite ?Hsp, ?Hg; try done.
      * lia.
      * intros; lia.
      * intros p [= <-]. lia.
    + rewrite dget_dset_ne in Hy by done. destruct (Hw _ _ Hy). constructor; simpl; try done.
      intros p Hp. specialize (wo_process0 p Hp). lia.
  - intros p [->%elem_of_singleton|Hp]%elem_of_union; [lia|]. specialize (Ha p Hp). lia.
  - assert (Hof : forall k v q, dget (dset (workers s) id
                (spawned (next_process s) (connection_of w) (w_now w) x2)) k = Some v -> process v = Some q ->
              (k = id /\ q = next_process s) \/
              (exists v', dget (workers s) k = Some v' /\ process v' = Some q /\ (q < next_process s)%nat)).
    { intros k v q Hk Hq. destruct (decide (id = k)) as [<-|Hne].
      - rewrite dget_dset_eq in Hk. injection Hk as <-. simpl in Hq. left. split; congruence.
      - rewrite dget_dset_ne in Hk by done. right. exists v. split_and!; [done|done|].
        by apply (wo_process s k v (Hw _ _ Hk)). }
    intros i j y z p Hy Hz Hpy Hpz.
    destruct (Hof _ _ _ Hy Hpy) as [[-> E]|(y' & ? & ? & ?)], (Hof _ _ _ Hz Hpz) as [[-> E']|(z' & ? & ? & ?)];
      [done|lia|lia|by apply (Hd i j y' z' p)].
Qed.

Lemma inv_spawn w id b : keeps_inv (spawn_locked w id b).
Proof.
  intros s Hs. destruct (dget (workers s) id) as [x|] eqn:E; [|by rewrite spawn_locked_none].
  rewrite (spawn_locked_some w id b s x E). pose proof (wi_workers s Hs _ _ E) as Hok.
  pose proof (prune_length (restart_window_sec (spec x)) (w_now w) (restart_times x)) as Hl.
  set (x1 := prune_restart_times (w_now w) x). set (x2 := if b then counted (w_now w) x1 else x1).
  assert (H1 : worker_ok s id x1).
  { destruct Hok. constructor; simpl; try done. lia. }
  destruct (b && over_budget x1) eqn:Eb; simpl.
  { eapply table_inv_put; [done|done| |by left]. destruct H1. by constructor. }
  assert (Hb2 : Z.of_nat (length (restart_times x2)) <= restart_limit (spec x)).
  { subst x2. destruct b; simpl in *; [|destruct H1; simpl in *; lia].
    unfold over_budget in Eb. simpl in Eb. breflect. rewrite length_app. simpl. lia. }
  destruct (w_spawns w); simpl; [by apply (inv_with_spawn w id s x); try done; subst x2; destruct b|].
  eapply table_inv_put; [done|done| |by left; subst x2; destruct b].
  assert (Hsp : spec x2 = spec x /\ generation x2 = generation x /\ process x2 = process x /\ connection x2 = connection x)
    by (subst x2; by destruct b). destruct Hsp as (Hsp & Hg & Hp & Hc).
  destruct Hok. constructor; simpl; rewrite ?Hsp, ?Hg, ?Hp, ?Hc; done.
Qed.

(** Walk a method, leaving its updates. *)
Ltac inv_go :=
  repeat first
    [ apply inv_spawn
    | apply inv_bind; [|intros ?] | apply inv_try; [|intros ?]
    | apply inv_same; reflexivity
    | apply inv_modify; [intros ? ? []; constructor; simpl; first [done|by intros [? [=]]|naive_solver]|by (simpl; auto)]
    | match goal with |- keeps_inv (match ?x with _ => _ end) => destruct x end ].

Lemma inv_flags s b m : table_inv s -> table_inv
  {| workers := workers s; stop_set := b; monitored := m; alive := alive s; next_process := next_process s |}.
Proof.
  intros [Hw Ha Hd]. constructor; [|done|done]. intros id x Hx. apply (worker_ok_same s); [done|by apply Hw].
Qed.

Lemma inv_alive s v : v ⊆ alive s -> table_inv s -> table_inv (set_alive v s).
Proof.
  intros Hv [Hw Ha Hd]. constructor; simpl; [|set_solver|done]. intros id x Hx.
  apply (worker_ok_same s); [done|by apply Hw].
Qed.

Lemma inv_terminate w p : keeps_inv (terminate w p).
Proof.
  intros s Hs. unfold terminate. destruct p as [p|]; [|done]. destruct (bool_decide _); [|done].
  destruct (w_dies w); [|done]. apply inv_alive; [set_solver|done].
Qed.

Lemma inv_fail_block id reason p : keeps_inv (fail_block id reason p).
Proof. unfold fail_block. inv_go. Qed.

Lemma inv_read_stdout w id p line : keeps_inv (read_stdout w id p line).
Proof.
  intros s Hs. unfold read_stdout. destruct (read_line line) as [m|reason| |]; [| |done|done].
  - destruct (dget (workers s) id) as [x|] eqn:E; [|done]. destruct (bool_decide _); [|done].
    destruct (take_message (w_now w) m x) as [x'|] eqn:Em; [|done].
    pose proof (wi_workers s Hs _ _ E) as Hok. unfold take_message in Em.
    assert (Hx : spec x' = spec x /\ generation x' = generation x /\ process x' = process x /\
      connection x' = connection x /\ restart_times x' = restart_times x).
    { destruct m as [| |reason]; [injection Em as <-; done| |destruct (py_str reason); [|done]; injection Em as <-; done].
      injection Em as <-. by destruct (bool_decide _). }
    destruct Hx as (H1 & H2 & H3 & H4 & H5). eapply (table_inv_put s id x); [done|done| |by left].
    destruct Hok. constructor; rewrite ?H1, ?H2, ?H3, ?H4, ?H5; done.
  - apply inv_bind; [apply inv_bind; [apply inv_fail_block|intros ?; apply inv_terminate]|intros ?; by apply inv_same|done].
Qed.

Lemma table_inv_step s s' : table_inv s -> wstep s s' -> table_inv s'.
Proof.
  intros Hs. destruct 1 as [s sp Hl|s w id|s id reason p|s w p|s id|s w id|s w id|s w id|s w id p line|s id p line|s p|s b m].
  - unfold register_worker. destruct (dhas (workers s) (worker_id sp)) eqn:E; [done|].
    apply dhas_false in E. destruct Hs as [Hw Ha Hd]. constructor; simpl; [|done|].
    + intros id x Hx. rewrite dget_dset in Hx. case_decide as Hk; [|by apply (worker_ok_same s); [|apply Hw]].
      injection Hx as <-. by constructor; simpl; try done; intros [].
    + intros i j y z p Hy Hz Hpy Hpz. rewrite dget_dset in Hy, Hz.
      repeat case_decide; simplify_eq/=; try done. by apply (Hd i j y z p).
  - assert (Hk : keeps_inv (start_block w id)); [|by apply Hk].
    unfold start_block, start_monitor. inv_go. intros s' Hs'. unfold st_set. simpl.
    destruct (monitored s'); [done|by apply inv_flags].
  - by apply inv_fail_block.
  - by apply inv_terminate.
  - assert (Hk : keeps_inv (stop_mark id)); [unfold stop_mark; inv_go|by apply Hk].
  - assert (Hk : keeps_inv (stop_finish w id)); [|by apply Hk]. unfold stop_finish. inv_go.
  - unfold monitor_check. destruct (dget (workers s) id) as [x|] eqn:E; [|done].
    destruct (negb (desired x)); [done|].
    assert (Hd : forall r, table_inv (modify id (fun x => with_state W_DEGRADED (with_error (Some r) x)) s).1).
    { intros r. apply inv_modify; [intros ? ? []; by constructor|by left|done]. }
    destruct (process x) as [p|]; [|apply Hd]. destruct (negb _); [apply Hd|].
    destruct (longer _ _); [apply Hd|done].
  - assert (Hk : keeps_inv (monitor_respawn w id)); [unfold monitor_respawn; inv_go|by apply Hk].
  - by apply inv_read_stdout.
  - unfold read_stderr. destruct (dget (workers s) id) as [x|] eqn:E; [|done].
    destruct (bool_decide _); [|done]. eapply (table_inv_put s id x); [done|done| |by left].
    destruct (wi_workers s Hs _ _ E). by constructor.
  - apply inv_alive; [set_solver|done].
  - by apply inv_flags.
Qed.

Lemma table_inv_new : table_inv WorkerManager_new.
Proof. constructor; simpl; [done|set_solver|done]. Qed.

(** *** Ready workers *)

Definition ready_ok x : Prop := wstate x = W_READY -> ready x = true /\ is_Some (process x).
Definition ready_inv s : Prop := forall id x, dget (workers s) id = Some x -> ready_ok x.
Definition keeps_ready {A} (m : M A) : Prop := forall s, ready_inv s -> ready_inv (m s).1.

Lemma ready_bind {A B} (m : M A) (k : A -> M B) :
  keeps_ready m -> (forall a, keeps_ready (k a)) -> keeps_ready (st_bind m k).
Proof.
  intros Hm Hk s Hs. unfold st_bind. specialize (Hm s Hs).
  destruct (m s) as [s' [a|e]]; [by apply Hk|done].
Qed.

Lemma ready_same {A} (m : M A) : (forall s, workers (m s).1 = workers s) -> keeps_ready m.
Proof. intros H s Hs id x. rewrite H. apply Hs. Qed.

Lemma ready_put s id x : ready_inv s -> ready_ok x -> ready_inv (set_workers (dset (workers s) id x) s).
Proof. intros Hs Hx k y. cbn. rewrite dget_dset. case_decide; [by intros [= <-]|apply Hs]. Qed.

Lemma ready_modify id f : (forall x, ready_ok x -> ready_ok (f x)) -> keeps_ready (modify id f).
Proof.
  intros Hf s Hs. unfold modify, st_set. cbn. destruct (dget (workers s) id) as [x|] eqn:E; [|done].
  apply ready_put; [done|]. by apply Hf, (Hs id).
Qed.

(** Spawning leaves the worker STARTING or FAILED, whatever it was before. *)
Lemma ready_spawned w id b s :
  (forall k x, k <> id -> dget (workers s) k = Some x -> ready_ok x) -> ready_inv (spawn_locked w id b s).1.
Proof.
  intros Hs. assert (Hp : forall y, wstate y <> W_READY -> ready_inv (put id y s)).
  { intros y Hy k z. cbn. rewrite dget_dset. case_decide as Hk; [by intros [= <-] ?|]. apply Hs. congruence. }
  destruct (dget (workers s) id) as [x|] eqn:E.
  - rewrite (spawn_locked_some w id b s x E). destruct (b && _); [by apply Hp|]. destruct (w_spawns w); [|by apply Hp].
    intros k z. cbn. rewrite dget_dset. case_decide as Hk; [by intros [= <-] ?|]. apply Hs. congruence.
  - rewrite (spawn_locked_none w id b s E). intros k x Hx. apply (Hs k); [|exact Hx]. intros ->. cbn [fst] in Hx. congruence.
Qed.

Lemma ready_spawn w id b : keeps_ready (spawn_locked w id b).
Proof. intros s Hs. apply ready_spawned. intros k x _. apply Hs. Qed.

(** Walk a method, leaving its updates. *)
Ltac ready_go :=
  repeat first
    [ apply ready_spawn
    | apply ready_bind; [|intros ?]
    | apply ready_same; reflexivity
    | apply ready_modify; intros ? ?; first [done | by intros ? | intros [=]; fail]
    | match goal with |- keeps_ready (match ?x with _ => _ end) => destruct x end ].

Lemma ready_respawn w id : keeps_ready (monitor_respawn w id).
Proof.
  intros s Hs. unfold monitor_respawn, st_bind at 1. destruct (dget (workers s) id) as [x|] eqn:E.
  2: { by rewrite get_none. }
  rewrite (get_some _ _ _ E). unfold st_bind at 1, st_get. destruct (_ || _); [done|].
  unfold st_bind at 1. rewrite (modify_some _ _ _ _ E). unfold st_try.
  assert (Hr : ready_inv (spawn_locked w id true (put id (with_process None x) s)).1).
  { apply ready_spawned. intros k y Hk. rewrite dget_put_ne by done. apply Hs. }
  unfold st_bind. destruct (spawn_locked _ _ _ _) as [s1 [c|[code|]]]; cbn [fst] in *; [done| |done].
  match goal with |- ready_inv (let '(a, r) := modify _ ?f s1 in _).1 =>
    pose proof (ready_modify id f ltac:(intros ? ? [=]) s1 Hr) as Hm; destruct (modify id f s1) as [s2 [[]|e]] end;
    exact Hm.
Qed.

Lemma ready_terminate w p : keeps_ready (terminate w p).
Proof.
  apply ready_same. intros s. unfold terminate. destruct p as [p|]; [|done]. destruct (bool_decide _); [|done]. by destruct (w_dies w).
Qed.

Lemma ready_fail_block id reason p : keeps_ready (fail_block id reason p).
Proof. unfold fail_block. ready_go. Qed.

Lemma ready_message now m x x' p : ready_ok x -> process x = Some p -> take_message now m x = Some x' -> ready_ok x'.
Proof.
  unfold take_message, ready_ok. intros Hx Hp Hm. destruct m as [| |reason].
  - injection Hm as <-. cbn. rewrite Hp. eauto.
  - injection Hm as <-. destruct (bool_decide _); cbn in *; [rewrite Hp; eauto|exact Hx].
  - destruct (py_str reason); [|done]. by injection Hm as <-.
Qed.

Lemma ready_step s s' : ready_inv s -> wstep s s' -> ready_inv s'.
Proof.
  intros Hs. destruct 1 as [s sp Hl|s w id|s id reason p|s w p|s id|s w id|s w id|s w id|s w id p line|s id p line|s p|s b m].
  - unfold register_worker. destruct (dhas (workers s) (worker_id sp)); [done|]. by apply ready_put.
  - assert (Hk : keeps_ready (start_block w id)); [|by apply Hk]. unfold start_block, start_monitor. ready_go.
    apply ready_same. intros s'. unfold st_set. cbn. by destruct (monitored s').
  - by apply ready_fail_block.
  - by apply ready_terminate.
  - assert (Hk : keeps_ready (stop_mark id)); [|by apply Hk]. unfold stop_mark. ready_go.
    apply ready_modify. intros y _. unfold ready_ok. cbn. by destruct (process y).
  - assert (Hk : keeps_ready (stop_finish w id)); [|by apply Hk]. unfold stop_finish. ready_go.
  - unfold monitor_check. destruct (dget (workers s) id) as [x|] eqn:E; [|done]. destruct (negb (desired x)); [done|].
    assert (Hd : forall r, ready_inv (modify id (fun x => with_state W_DEGRADED (with_error (Some r) x)) s).1)
      by (intros r; by apply ready_modify).
    destruct (process x) as [p|]; [|apply Hd]. destruct (negb _); [apply Hd|]. destruct (longer _ _); [apply Hd|done].
  - by apply ready_respawn.
  - unfold read_stdout. destruct (read_line line) as [m|reason| |]; [| |done|done].
    + destruct (dget (workers s) id) as [x|] eqn:E; [|done]. case_bool_decide as Hp; [|done].
      destruct (take_message (w_now w) m x) as [x'|] eqn:Em; [|done]. apply ready_put; [done|].
      eapply ready_message; [by apply (Hs id)|exact Hp|exact Em].
    + apply ready_bind; [apply ready_bind; [apply ready_fail_block|intros ?; apply ready_terminate]|intros ?; by apply ready_same|done].
  - unfold read_stderr. destruct (dget (workers s) id) as [x|] eqn:E; [|done]. destruct (bool_decide _); [|done].
    apply ready_put; [done|]. pose proof (Hs id x E) as Hx. exact Hx.
  - done.
  - done.
Qed.

(** C35: in every reachable state, whatever the threads interleave, no two workers
    share a process; a worker that has a process has a connection, and one that is READY
    has said so and has a process; the restarts it remembers are within its budget. At
    every later moment it keeps that process, has lost it for good, or has one that had not
    been started before, of a later generation; and likewise its connection. *)
Theorem worker_table_ok s s' : rtc wstep WorkerManager_new s -> rtc wstep s s' ->
  (forall id id' x x' p, dget (workers s) id = Some x -> dget (workers s) id' = Some x' ->
     process x = Some p -> process x' = Some p -> id = id') /\
  (forall id x, dget (workers s) id = Some x ->
     worker_id (spec x) = id /\ 0 <= generation x /\ (generation x = 0 -> process x = None /\ connection x = None) /\
     Z.of_nat (length (restart_times x)) <= restart_limit (spec x) /\
     (is_Some (process x) -> is_Some (connection x)) /\
     (wstate x = W_READY -> ready x = true /\ is_Some (process x)) /\
     exists x', dget (workers s') id = Some x' /\ newer (next_process s) x x').
Proof.
  intros Hr Hr'.
  assert (Ht : table_inv s) by (eapply reach_inv; [apply table_inv_new|apply table_inv_step|exact Hr]).
  assert (Hy : ready_inv s) by (eapply reach_inv; [|apply ready_step|exact Hr]; done).
  split; [apply Ht|]. intros id x Hx. destruct (wi_workers _ Ht _ _ Hx). split_and!; try done.
  - by apply (Hy id).
  - by apply (gr_worker _ _ (grows_steps _ _ Hr')).
Qed.

(** ** Old processes are not heard *)

Definition runs_as s (id : string) (p : nat) : Prop :=
  exists x, dget (workers s) id = Some x /\ process x = Some p.

(** Whatever a process prints once it is no longer the worker's, on either
    pipe and well-formed or not, changes nothing and ends its reader. *)
Theorem stale_output_ignored s w id p line : is_Some (dget (workers s) id) -> ~ runs_as s id p ->
  (read_stdout w id p line s).1 = s /\ (read_stdout w id p line s).2 <> Ok true /\
  read_stderr id p line s = (s, Ok false).
Proof.
  intros [x Hx] Hno. assert (Hp : process x <> Some p) by (intros Hp; apply Hno; by exists x).
  assert (Hb : bool_decide (process x = Some p) = false) by by apply bool_decide_eq_false.
  unfold read_stdout, read_stderr. rewrite Hx, Hb.
  split_and!; [| |done]; destruct (read_line line) as [m|reason| |]; try done;
    unfold st_bind, fail_and_terminate, st_bind, fail_block, st_bind;
    rewrite (get_some _ _ _ Hx), Hb; by cbn.
Qed.

(** ** Stopping *)

Lemma get_status_some w id s x : dget (workers s) id = Some x ->
  get_status w id s = (s, Ok (Worker_to_dict w s x)).
Proof. unfold get_status. by intros ->. Qed.

Definition marked_stopped x : Worker :=
  with_state (match process x with Some _ => W_STOPPING | None => W_STOPPED end) (with_desired false x).

Lemma stop_worker_leaves s s' w w' id x d : dget (workers s) id = Some x ->
  stop_worker w w' id s = (s', Ok d) ->
  dget (workers s') id = Some (stopped (marked_stopped x)) /\ runs_process (process x) s' = false.
Proof.
  intros Hx H. unfold stop_worker, st_bind in H.
  assert (Hm : stop_mark id s = (put id (marked_stopped x) s, Ok (process x))).
  { unfold stop_mark, st_bind. by rewrite (get_some _ _ _ Hx), (modify_some _ _ _ _ Hx). }
  rewrite Hm in H. set (x1 := marked_stopped x) in *. set (s1 := put id x1 s) in *.
  assert (Ht : forall s2, terminate w (process x) s1 = (s2, Ok tt) ->
    workers s2 = workers s1 /\ runs_process (process x) s2 = false).
  { intros s2. unfold terminate, runs_process. destruct (process x) as [p|]; [|by intros [= <-]].
    destruct (bool_decide (p ∈ alive s1)) eqn:Ea; [|by intros [= <-]].
    destruct (w_dies w); [|done]. intros [= <-]. split; [done|]. apply bool_decide_eq_false. simpl. set_solver. }
  destruct (terminate w (process x) s1) as [s2 [[]|e]]; [|done].
  destruct (Ht _ eq_refl) as [Hw Hr]. clear Ht.
  assert (Hx1 : dget (workers s2) id = Some x1) by (rewrite Hw; apply dget_put).
  unfold stop_finish, st_bind in H. rewrite (modify_some _ _ _ _ Hx1) in H.
  rewrite (get_status_some _ _ _ (stopped x1)) in H by apply dget_put. injection H as <- _.
  split; [apply dget_put|done].
Qed.

(** A [stop_worker] that returns has ended the process the worker had; the
    worker is STOPPED, without process or connection, and is not wanted. *)
Theorem stop_worker_stops s s' w w' id x d : dget (workers s) id = Some x ->
  stop_worker w w' id s = (s', Ok d) ->
  exists x', dget (workers s') id = Some x' /\ wstate x' = W_STOPPED /\ process x' = None /\
    connection x' = None /\ desired x' = false /\ ready x' = false /\
    generation x' = generation x /\ runs_process (process x) s' = false.
Proof.
  intros Hx Hs. destruct (stop_worker_leaves _ _ _ _ _ _ _ Hx Hs) as [Hx' Hr].
  exists (stopped (marked_stopped x)). split_and!; done.
Qed.

(** The monitor leaves a worker that is not wanted alone. *)
Lemma monitor_unwanted s w w' id x : dget (workers s) id = Some x -> desired x = false ->
  monitor_worker w w' id s = (s, Ok None).
Proof.
  intros Hx Hd. unfold monitor_worker, st_bind, monitor_check. by rewrite Hx, Hd.
Qed.

(** A monitor that finds the budget used up gives the worker up: it is FAILED, not
    wanted, and has no process. *)
Lemma respawn_over_budget s w id x : dget (workers s) id = Some x ->
  desired x = true -> stop_set s = false ->
  over_budget (prune_restart_times (w_now w) x) = true ->
  exists x', monitor_respawn w id s = (put id x' s, Ok None) /\ wstate x' = W_FAILED /\
    desired x' = false /\ process x' = None /\ last_error x' = Some "restart budget exhausted".
Proof.
  intros Hx Hd Hs Hb. unfold monitor_respawn, st_bind. rewrite (get_some _ _ _ Hx). cbn [st_get].
  unfold st_get. rewrite Hd, Hs. cbn [negb orb]. rewrite (modify_some _ _ _ _ Hx).
  set (x0 := with_process None x).
  assert (Hx0 : dget (workers (put id x0 s)) id = Some x0) by apply dget_put.
  unfold st_try, st_bind. rewrite (spawn_locked_some w id true _ _ Hx0).
  replace (over_budget (prune_restart_times (w_now w) x0)) with true by (symmetry; exact Hb).
  cbn [andb]. set (x1 := exhausted _). rewrite put_put, (modify_some _ _ _ x1), put_put by apply dget_put.
  eexists. split; [done|]. split_and!; done.
Qed.

(** ** The restart budget *)

Definition within (window : pyfloat) (t u : Z) : bool := (u <=? t) && negb (longer (t - u) window).

Definition in_window (window : pyfloat) (t : Z) (h : list Z) : list Z := filter (within window t) h.

(** What the restarts of worker [id] were, up to now: a block that does not spawn
    leaves its times and its spec; a spawn at a clock that has not gone back adds one
    when it is a restart within the budget. *)
Inductive restart_trace (id : string) : list Z -> Z -> WorkerManager -> Prop :=
| rt_begin s now x : dget (workers s) id = Some x -> restart_times x = [] -> 0 <= restart_limit (spec x) ->
    restart_trace id [] now s
| rt_other h now s s' x x' : restart_trace id h now s -> dget (workers s) id = Some x ->
    dget (workers s') id = Some x' -> spec x' = spec x -> restart_times x' = restart_times x ->
    restart_trace id h now s'
| rt_spawn h now s w b x : restart_trace id h now s -> now <= w_now w ->
    dget (workers s) id = Some x ->
    restart_trace id
      (if b && negb (over_budget (prune_restart_times (w_now w) x)) then h ++ [w_now w] else h)%list
      (w_now w) (spawn_locked w id b s).1.

Lemma longer_mono u v f : u <= v -> longer u f = true -> longer v f = true.
Proof.
  intros Huv. unfold longer, float_lt, float_cmp. destruct f as [m e|[]|]; try done.
  unfold dec_compare. set (k := Z.min e (-6)).
  assert (0 <= -6 - k) by lia. assert (0 < 10 ^ (-6 - k)) by (apply Z.pow_pos_nonneg; lia).
  destruct (Z.compare_spec (m * 10 ^ (e - k)) (u * 10 ^ (-6 - k))); try done. intros _.
  destruct (Z.compare_spec (m * 10 ^ (e - k)) (v * 10 ^ (-6 - k))); try done; nia.
Qed.

Lemma prune_split window now l : exists old, l = (old ++ prune window now l)%list /\
  Forall (fun u => longer (now - u) window = true) old.
Proof.
  induction l as [|t l IH]; simpl; [by exists []|]. destruct (longer (now - t) window) eqn:E; [|by exists []].
  destruct IH as (old & Hl & Ho). exists (t :: old). split; [by rewrite Hl at 1|by constructor].
Qed.

Lemma in_window_app window t a b : in_window window t (a ++ b)%list = (in_window window t a ++ in_window window t b)%list.
Proof. apply filter_app. Qed.

Lemma in_window_old window now t old : now <= t ->
  Forall (fun u => longer (now - u) window = true) old -> in_window window t old = [].
Proof.
  intros Ht. unfold in_window. induction 1 as [|u old Hu _ IH]; [done|].
  rewrite filter_cons_False; [done|]. unfold within. rewrite (longer_mono (now - u) (t - u)) by (done || lia).
  rewrite andb_false_r. auto.
Qed.

Lemma in_window_length window t l : (length (in_window window t l) <= length l)%nat.
Proof. apply length_filter. Qed.

(** What the deque has to do with the history: the forgotten times are older than
    the window, and no window holds more than the budget. *)
Record traced id (h : list Z) (now : Z) s : Prop := {
  tr_worker : exists x old, dget (workers s) id = Some x /\ h = (old ++ restart_times x)%list /\
    Forall (fun u => longer (now - u) (restart_window_sec (spec x)) = true) old /\
    Z.of_nat (length (restart_times x)) <= restart_limit (spec x) /\
    forall t, Z.of_nat (length (in_window (restart_window_sec (spec x)) t h)) <= restart_limit (spec x);
}.

Lemma restart_traced id h now s : restart_trace id h now s -> traced id h now s.
Proof.
  induction 1 as [s now x Hx Hr Hl|h now s s' x x' _ [IH] Hx Hx' Hsp Hr|h now s w b x _ [IH] Hnow Hx]; constructor.
  - exists x, []. rewrite Hr. split_and!; [done|done|done|done|done].
  - destruct IH as (y & old & Hy & Hh & Ho & Hb & Hw). simplify_eq. exists x', old. by rewrite Hr, Hsp.
  - destruct IH as (y & old & Hy & Hh & Ho & Hb & Hw). simplify_eq.
    destruct (prune_split (restart_window_sec (spec x)) (w_now w) (restart_times x)) as (gone & Hg & Hgone).
    assert (Hold : Forall (fun u => longer (w_now w - u) (restart_window_sec (spec x)) = true) (old ++ gone)%list).
    { apply Forall_app. split; [|done]. eapply Forall_impl; [exact Ho|]. intros u. apply longer_mono. lia. }
    pose proof (prune_length (restart_window_sec (spec x)) (w_now w) (restart_times x)) as Hlen.
    rewrite (spawn_locked_some w id b s x Hx). set (x1 := prune_restart_times (w_now w) x).
    assert (Hh1 : (old ++ restart_times x)%list = ((old ++ gone) ++ restart_times x1)%list)
      by (rewrite Hg at 1; by rewrite app_assoc).
    destruct (b && over_budget x1) eqn:Eb; [|destruct b; simpl in Eb].
    + apply andb_true_iff in Eb as [-> Eb]. rewrite Eb. cbn [andb negb fst].
      exists (exhausted x1), (old ++ gone)%list. rewrite dget_put. split_and!; try done. simpl; lia.
    + rewrite Eb. cbn [andb negb]. unfold over_budget in Eb. simpl in Eb. breflect.
      assert (Hget : exists x2, dget (workers (if w_spawns w then (with_spawn w id (counted (w_now w) x1) s,
              Ok (id, connection x, connection_of w)) else (put id (spawn_failed w (counted (w_now w) x1)) s,
              Err (WorkerError "WORKER_SPAWN_FAILED"))).1) id = Some x2 /\
              restart_times x2 = (restart_times x1 ++ [w_now w])%list /\ spec x2 = spec x).
      { destruct (w_spawns w); eexists; (split; [apply dget_dset_eq|done]). }
      destruct Hget as (x2 & Hx2 & Hr2 & Hs2). exists x2, (old ++ gone)%list. rewrite Hr2, Hs2.
      split_and!; [done|by rewrite Hh1, <- app_assoc|done|rewrite length_app; simpl in *; lia|].
      intros t. rewrite in_window_app, length_app. destruct (decide (w_now w <= t)) as [Ht|Ht].
      * rewrite Hh1, in_window_app, (in_window_old _ (w_now w)) by done. cbn [app].
        pose proof (in_window_length (restart_window_sec (spec x)) t (restart_times x1)).
        pose proof (in_window_length (restart_window_sec (spec x)) t [w_now w]). simpl in *. lia.
      * specialize (Hw t). replace (in_window _ t [w_now w]) with (@nil Z); [simpl; lia|].
        unfold in_window. rewrite filter_cons_False; [done|]. unfold within.
        rewrite (proj2 (Z.leb_gt _ _)) by lia. auto.
    + cbn [andb].
      assert (Hget : exists x2, dget (workers (if w_spawns w then (with_spawn w id x1 s,
              Ok (id, connection x, connection_of w)) else (put id (spawn_failed w x1) s,
              Err (WorkerError "WORKER_SPAWN_FAILED"))).1) id = Some x2 /\
              restart_times x2 = restart_times x1 /\ spec x2 = spec x).
      { destruct (w_spawns w); eexists; (split; [apply dget_dset_eq|done]). }
      destruct Hget as (x2 & Hx2 & Hr2 & Hs2). exists x2, (old ++ gone)%list. rewrite Hr2, Hs2.
      split_and!; try done. simpl; lia.
Qed.

(** C36: no stretch of time as long as the restart window holds more restarts of a
    worker than its limit, whoever asks for them and whatever happens in between. *)
Theorem restart_budget id h now s x t : restart_trace id h now s -> dget (workers s) id = Some x ->
  Z.of_nat (length (in_window (restart_window_sec (spec x)) t h)) <= restart_limit (spec x).
Proof.
  intros Hr Hx. destruct (restart_traced _ _ _ _ Hr) as [(y & old & Hy & _ & _ & _ & Hw)].
  simplify_eq. apply Hw.
Qed.

(** ** What leaves the budget alone *)

Definition same_restarts s s' : Prop := forall id x, dget (workers s) id = Some x ->
  exists x', dget (workers s') id = Some x' /\ spec x' = spec x /\ restart_times x' = restart_times x.

#[export] Instance same_restarts_preorder : PreOrder same_restarts.
Proof.
  split; [intros s id x Hx; eauto|]. intros a b c Hab Hbc id x Hx.
  destruct (Hab _ _ Hx) as (y & Hy & H1 & H2). destruct (Hbc _ _ Hy) as (z & Hz & H3 & H4).
  exists z. split_and!; [done|congruence..].
Qed.

Lemma same_put id x x' s : dget (workers s) id = Some x -> spec x' = spec x ->
  restart_times x' = restart_times x -> same_restarts s (put id x' s).
Proof.
  intros Hx H1 H2 id' y Hy. destruct (decide (id = id')) as [<-|Hne].
  - exists x'. rewrite dget_put. simplify_eq. done.
  - exists y. by rewrite dget_put_ne.
Qed.

Lemma same_modify id f : (forall x, spec (f x) = spec x /\ restart_times (f x) = restart_times x) ->
  keeps same_restarts (modify id f).
Proof.
  intros Hf s. destruct (dget (workers s) id) as [x|] eqn:E; [|by rewrite modify_none].
  rewrite (modify_some _ _ _ _ E). destruct (Hf x). by apply same_put with x.
Qed.

Ltac same_go :=
  repeat first
    [ apply keeps_ret; apply _ | apply keeps_raise; apply _ | apply keeps_get; apply _
    | apply keeps_bind; [apply _| |intros ?]
    | apply same_modify; by intros ?
    | match goal with |- keeps _ (match ?x with _ => _ end) => destruct x end
    | intros ?; reflexivity ].

Lemma same_terminate w p : keeps same_restarts (terminate w p).
Proof.
  intros s. unfold terminate. destruct p as [p|]; [|reflexivity]. destruct (bool_decide _); [|reflexivity].
  destruct (w_dies w); [|reflexivity]. intros id x Hx. eauto.
Qed.

(** Stopping, failing, checking and reading leave a worker's restart times as they
    are: only the two spawning blocks change them. *)
Lemma quiet_blocks id p w :
  (forall reason e, keeps same_restarts (fail_block id reason e)) /\
  keeps same_restarts (stop_mark id) /\ keeps same_restarts (stop_finish w id) /\
  keeps same_restarts (monitor_check w id) /\
  (forall line, keeps same_restarts (read_stdout w id p line)) /\
  (forall line, keeps same_restarts (read_stderr id p line)).
Proof.
  assert (Hfail : forall reason e, keeps same_restarts (fail_block id reason e))
    by (intros; unfold fail_block; same_go).
  split_and!; [done|unfold stop_mark; same_go|unfold stop_finish; same_go| | |].
  - intros s. unfold monitor_check. destruct (dget (workers s) id) as [x|] eqn:E; [|reflexivity].
    destruct (negb (desired x)); [reflexivity|].
    assert (Hd : forall r, same_restarts s (modify id (fun x => with_state W_DEGRADED (with_error (Some r) x)) s).1)
      by (intros r; by apply same_modify).
    destruct (process x) as [q|]; [|apply Hd]. destruct (negb _); [apply Hd|].
    destruct (longer _ _); [apply Hd|reflexivity].
  - intros line s. unfold read_stdout. destruct (read_line line) as [m|reason| |]; [| |reflexivity|reflexivity].
    + destruct (dget (workers s) id) as [x|] eqn:E; [|reflexivity]. destruct (bool_decide _); [|reflexivity].
      destruct (take_message (w_now w) m x) as [x'|] eqn:Em; [|reflexivity].
      apply same_put with x; [done|..]; unfold take_message in Em;
        (destruct m as [| |v]; [injection Em as <-; done| |destruct (py_str v); [|done]; injection Em as <-; done]);
        injection Em as <-; by destruct (bool_decide _).
    + apply keeps_bind; [apply _| |intros ?; same_go].
      unfold fail_and_terminate. apply keeps_bind; [apply _|apply Hfail|intros ?; apply same_terminate].
  - intros line s. unfold read_stderr. destruct (dget (workers s) id) as [x|] eqn:E; [|reflexivity].
    destruct (bool_decide _); [|reflexivity]. by apply same_put with x.
Qed.
End Workers.

(** ** Concrete runs *)

Definition demo_spec : WorkerSpec :=
  {| worker_id := "arm"; command := ["adapter"]; startup_timeout_sec := Fin 5 0;
     heartbeat_timeout_sec := Fin 2 0; stop_timeout_sec := Fin 1 0; restart_limit := 1;
     restart_window_sec := Fin 60 0 |}.

(** The world at second [t]. *)
Definition world_at (t : Z) (uuid : string) : wio :=
  {| w_now := t * 1000000; w_spawns := true; w_uuid := uuid; w_dies := true; w_text := "late";
     w_pid := fun p => 100 + Z.of_nat p |}.

Definition demo_registered : WorkerManager := (register_worker demo_spec WorkerManager_new).1.
Definition demo_started_worker : WorkerManager := (start_block (world_at 0 "a") "arm" demo_registered).1.

(** A line the worker prints. *)
Definition worker_line (ty : string) : string :=
  "{" +:+ quote "protocol_version" +:+ ":" +:+ quote WORKER_PROTOCOL_VERSION +:+ "," +:+
  quote "type" +:+ ":" +:+ quote ty +:+ "}" +:+ String (ascii_of_N 10) "".

Definition demo_ready : WorkerManager :=
  (read_stdout (world_at 1 "a") "arm" 0 (worker_line "ready") demo_started_worker).1.

(** No word for longer than the heartbeat timeout: the monitor replaces it once, and
    gives it up when it fails again within the window. *)
Definition demo_replaced : WorkerManager :=
  (monitor_worker (world_at 4 "b") (world_at 5 "b") "arm" demo_ready).1.
Definition demo_given_up : WorkerManager :=
  (monitor_worker (world_at 11 "c") (world_at 12 "c") "arm" demo_replaced).1.

Definition demo_view (s : WorkerManager) : option (WorkerState * option nat * Z * option string * bool) :=
  (fun x => (wstate x, process x, generation x, connection x, desired x)) <$> dget (workers s) "arm".

Example demo_lifecycle :
  map demo_view [demo_registered; demo_started_worker; demo_ready; demo_replaced; demo_given_up] =
  [Some (W_STOPPED, None, 0, None, false);
   Some (W_STARTING, Some 0%nat, 1, Some "worker_a", true);
   Some (W_READY, Some 0%nat, 1, Some "worker_a", true);
   Some (W_STARTING, Some 1%nat, 2, Some "worker_b", true);
   Some (W_FAILED, None, 2, Some "worker_b", false)].
Proof. vm_compute. reflexivity. Qed.

Example demo_refused_lines :
  map read_line ["{}"; "{" +:+ String (ascii_of_N 10) ""; worker_line "hello"; worker_line "heartbeat"] =
  [Refused "worker protocol line exceeded size limit";
   Refused "worker emitted invalid JSON protocol message";
   Refused "unsupported worker message type"; Message Heartbeat].
Proof. vm_compute. reflexivity. Qed.

(** A start between the two blocks of a stop: the stop forgets the process just
    started, which runs on while no worker refers to it; the worker is still wanted,
    so the monitor tries to start another. *)
Definition demo_stop_raced : WorkerManager :=
  let s := (stop_mark "arm" demo_ready).1 in
  let s := (terminate (world_at 2 "x") (Some 0%nat) s).1 in
  let s := (start_block (world_at 2 "b") "arm" s).1 in
  (stop_finish (world_at 2 "x") "arm" s).1.

Example stop_race_loses_process :
  (elements (alive demo_stop_raced), demo_view demo_stop_raced) =
  ([1%nat], Some (W_STOPPED, None, 2, None, true)) /\
  demo_view (monitor_worker (world_at 3 "c") (world_at 3 "c") "arm" demo_stop_raced).1 =
  Some (W_FAILED, None, 2, None, false).
Proof. vm_compute. split; reflexivity. Qed.

(** A start between the two blocks of the monitor: the second block replaces the
    process the start has just made without ending it, and two processes of the
    worker run. *)
Definition demo_monitor_raced : WorkerManager :=
  let s := (register_worker
    {| worker_id := "arm"; command := ["adapter"]; startup_timeout_sec := Fin 5 0;
       heartbeat_timeout_sec := Fin 2 0; stop_timeout_sec := Fin 1 0; restart_limit := 3;
       restart_window_sec := Fin 60 0 |} WorkerManager_new).1 in
  let s := (start_block (world_at 0 "a") "arm" s).1 in
  let s := set_alive (alive s ∖ {[0%nat]}) s in
  let s := (monitor_check (world_at 1 "x") "arm" s).1 in
  let s := (start_block (world_at 1 "b") "arm" s).1 in
  (monitor_respawn (world_at 1 "c") "arm" s).1.

Example monitor_race_loses_process :
  (elements (alive demo_monitor_raced), demo_view demo_monitor_raced) =
  ([2%nat; 1%nat], Some (W_STARTING, Some 2%nat, 3, Some "worker_c", true)).
Proof. vm_compute. reflexivity. Qed.

Lemma stale_output_ignored_witness :
  (read_stdout (world_at 6 "b") "arm" 0 (worker_line "ready") demo_replaced).1 = demo_replaced /\
  (read_stdout (world_at 6 "b") "arm" 0 (worker_line "ready") demo_replaced).2 <> Ok true /\
  read_stderr "arm" 0 (worker_line "ready") demo_replaced = (demo_replaced, Ok false).
Proof.
  apply (stale_output_ignored demo_replaced (world_at 6 "b") "arm" 0 (worker_line "ready")).
  - vm_compute. by eexists.
  - intros (x & Hx & Hp). vm_compute in Hx. injection Hx as <-. vm_compute in Hp. discriminate.
Defined.

Lemma never_resumed_witness : exists x', dget (workers demo_replaced) "arm" = Some x' /\
  forall x, dget (workers demo_ready) "arm" = Some x -> newer (next_process demo_ready) x x'.
Proof.
  assert (Hr : rtc wstep demo_ready demo_replaced).
  { eapply rtc_l; [exact (w_check demo_ready (world_at 4 "b") "arm")|].
    eapply rtc_l; [exact (w_terminate _ (world_at 4 "b") (Some 0%nat))|].
    eapply rtc_l; [exact (w_respawn _ (world_at 5 "b") "arm")|].
    assert (E : (monitor_respawn (world_at 5 "b") "arm" (terminate (world_at 4 "b") (Some 0%nat)
      (monitor_check (world_at 4 "b") "arm" demo_ready).1).1).1 = demo_replaced) by (vm_compute; reflexivity).
    rewrite E. apply rtc_refl. }
  destruct (dget (workers demo_ready) "arm") as [x|] eqn:Hx; [|vm_compute in Hx; discriminate].
  destruct (never_resumed demo_ready demo_replaced "arm" x Hr Hx) as (x' & Hx' & Hn).
  exists x'. split; [exact Hx'|]. intros y Hy. injection Hy as <-. exact Hn.
Defined.

Lemma worker_table_ok_witness : exists x x', dget (workers demo_ready) "arm" = Some x /\ wstate x = W_READY /\
  ready x = true /\ is_Some (process x) /\ dget (workers demo_replaced) "arm" = Some x' /\ newer (next_process demo_ready) x x'.
Proof.
  assert (Hr : rtc wstep WorkerManager_new demo_ready).
  { eapply rtc_l; [apply (w_register WorkerManager_new demo_spec); vm_compute; discriminate|].
    eapply rtc_l; [exact (w_start demo_registered (world_at 0 "a") "arm")|].
    apply rtc_once. exact (w_stdout demo_started_worker (world_at 1 "a") "arm" 0 (worker_line "ready")). }
  assert (Hr' : rtc wstep demo_ready demo_replaced).
  { eapply rtc_l; [exact (w_check demo_ready (world_at 4 "b") "arm")|].
    eapply rtc_l; [exact (w_terminate _ (world_at 4 "b") (Some 0%nat))|].
    eapply rtc_l; [exact (w_respawn _ (world_at 5 "b") "arm")|].
    assert (E : (monitor_respawn (world_at 5 "b") "arm" (terminate (world_at 4 "b") (Some 0%nat)
      (monitor_check (world_at 4 "b") "arm" demo_ready).1).1).1 = demo_replaced) by (vm_compute; reflexivity).
    rewrite E. apply rtc_refl. }
  destruct (worker_table_ok demo_ready demo_replaced Hr Hr') as [_ H].
  destruct (dget (workers demo_ready) "arm") as [x|] eqn:Hx; [|vm_compute in Hx; discriminate].
  destruct (H "arm" x Hx) as (_ & _ & _ & _ & _ & Hready & x' & Hx' & Hn).
  assert (Hst : wstate x = W_READY) by (vm_compute in Hx; injection Hx as <-; reflexivity).
  destruct (Hready Hst) as [H1 H2]. exists x, x'. split; [reflexivity|]. split; [exact Hst|]. split; [exact H1|].
  split; [exact H2|]. split; [exact Hx'|exact Hn].
Defined.

Definition demo_stopped_worker : WorkerManager :=
  (stop_worker (world_at 2 "x") (world_at 3 "x") "arm" demo_ready).1.

Lemma stop_worker_stops_witness : exists x x', dget (workers demo_ready) "arm" = Some x /\
  dget (workers demo_stopped_worker) "arm" = Some x' /\ wstate x' = W_STOPPED /\ process x' = None /\
  connection x' = None /\ desired x' = false /\ ready x' = false /\
  generation x' = generation x /\ runs_process (process x) demo_stopped_worker = false.
Proof.
  destruct (dget (workers demo_ready) "arm") as [x|] eqn:Hx; [|vm_compute in Hx; discriminate].
  exists x. destruct (stop_worker (world_at 2 "x") (world_at 3 "x") "arm" demo_ready) as [s' [d|e]] eqn:E;
    [|vm_compute in E; discriminate].
  destruct (stop_worker_stops demo_ready s' (world_at 2 "x") (world_at 3 "x") "arm" x d Hx E) as (x' & Hx' & H).
  exists x'. unfold demo_stopped_worker. rewrite E. split; [reflexivity|]. split; [exact Hx'|exact H].
Defined.

Lemma restart_budget_witness : exists x, dget (workers demo_given_up) "arm" = Some x /\
  Z.of_nat (length (in_window (restart_window_sec (spec x)) 12000000 [5000000])) <= restart_limit (spec x).
Proof.
  assert (H0 : restart_trace "arm" [] 0 demo_ready).
  { destruct (dget (workers demo_ready) "arm") as [x|] eqn:Hx; [|vm_compute in Hx; discriminate].
    apply (rt_begin "arm" demo_ready 0 x Hx); vm_compute in Hx; injection Hx as <-; vm_compute; [reflexivity|discriminate]. }
  set (s1 := (terminate (world_at 4 "b") (Some 0%nat) (monitor_check (world_at 4 "b") "arm" demo_ready).1).1).
  destruct (dget (workers demo_ready) "arm") as [x0|] eqn:Hx0; [|vm_compute in Hx0; discriminate].
  destruct (dget (workers s1) "arm") as [x1|] eqn:Hx1; [|vm_compute in Hx1; discriminate].
  assert (H1 : restart_trace "arm" [] 0 s1).
  { apply (rt_other "arm" [] 0 demo_ready s1 x0 x1 H0 Hx0 Hx1);
      vm_compute in Hx0, Hx1; injection Hx0 as <-; injection Hx1 as <-; reflexivity. }
  pose proof (rt_spawn "arm" [] 0 s1 (world_at 5 "b") true x1 H1 ltac:(vm_compute; discriminate) Hx1) as H2.
  replace (true && negb (over_budget (prune_restart_times (w_now (world_at 5 "b")) x1))) with true in H2
    by (vm_compute in Hx1; injection Hx1 as <-; vm_compute; reflexivity).
  destruct (dget (workers (spawn_locked (world_at 5 "b") "arm" true s1).1) "arm") as [x2|] eqn:Hx2;
    [|vm_compute in Hx2; discriminate].
  destruct (dget (workers demo_given_up) "arm") as [x3|] eqn:Hx3; [|vm_compute in Hx3; discriminate].
  pose proof (restart_budget "arm" _ _ _ x2 12000000 H2 Hx2) as Hb.
  exists x3. split; [reflexivity|]. vm_compute in Hx2, Hx3. injection Hx2 as <-. injection Hx3 as <-.
  vm_compute in Hb. vm_compute. exact Hb.
Defined.
