(* ===== verification/Supervision.v ===== *)
(** The worker manager inside the control plane: [get_worker_status],
    [control_worker] and the [on_generation_change] callback of
    src/src/rosclaw/daemon/service.py, with the methods of worker_manager.py that
    call it.

    A [daemon] is the operator plane of Operator.v and the manager of Workers.v; the
    callback is the only way from the second to the first. A start waits for the
    worker between its blocks: [d_lines] is what processes print meanwhile. *)

From S2P Require Export Verdict.
From S2P Require Export Workers.

Record daemon {X L : Type} := {
  dm_plane : oplane X L;
  dm_workers : WorkerManager;
}.
Arguments daemon : clear implicits.

(** The world of one worker method: the callback's, the blocks' before and after the
    wait or the termination. *)
Record dio {Env : Type} := {
  d_callback : io Env;
  d_first : wio;
  d_second : wio;
  d_third : wio;
  d_lines : list (nat * string);
}.
Arguments dio : clear implicits.

(** ** Worker methods as blocks *)

Section WorkerSteps.
Abbreviation W := (st WorkerManager worker_exn).
Abbreviation wsteps := (rtc wstep).

Lemma keeps_block {A} (m : W A) : (forall v, wstep v (m v).1) -> keeps wsteps m.
Proof. intros Hm v. by apply rtc_once. Qed.

Lemma keeps_reading {A} (m : W A) : (forall v, (m v).1 = v) -> keeps wsteps m.
Proof. intros Hm v. by rewrite Hm. Qed.

Ltac blocks_go :=
  repeat first
    [ apply keeps_block; intros ?; by constructor
    | apply keeps_bind; [apply _| |intros ?]
    | apply keeps_ret; apply _ | apply keeps_raise; apply _ | apply keeps_get; apply _
    | apply keeps_reading; reflexivity
    | match goal with |- keeps _ (match ?x with _ => _ end) => destruct x end ].

Lemma steps_start_block w id : keeps wsteps (start_block w id).
Proof. blocks_go. Qed.
Lemma steps_read_stdout w id p line : keeps wsteps (read_stdout w id p line).
Proof. blocks_go. Qed.
Lemma steps_start_finish w id : keeps wsteps (start_finish w id).
Proof. unfold start_finish, fail_and_terminate. blocks_go. Qed.
Lemma steps_stop_worker w w' id : keeps wsteps (stop_worker w w' id).
Proof. unfold stop_worker. blocks_go. Qed.
Lemma steps_monitor w w' id : keeps wsteps (monitor_worker w w' id).
Proof. unfold monitor_worker. blocks_go. Qed.
Lemma steps_get_status w id : keeps wsteps (get_status w id).
Proof. apply keeps_reading. reflexivity. Qed.
End WorkerSteps.

(** *** Connections *)

(** The connection of worker [id], if there is such a worker. *)
Definition link (v : WorkerManager) (id : string) : option (option string) :=
  connection <$> dget (workers v) id.

Definition same_links v v' : Prop := forall id, link v' id = link v id.

#[export] Instance same_links_preorder : PreOrder same_links.
Proof. unfold same_links. split; [by intros ??|intros a b c Hab Hbc id; by rewrite Hbc]. Qed.

Lemma link_put id id' x v : link (put id x v) id' = if decide (id = id') then Some (connection x) else link v id'.
Proof. unfold link. case_decide; subst; [by rewrite dget_put|by rewrite dget_put_ne]. Qed.

Lemma links_put id x x' v : dget (workers v) id = Some x -> connection x' = connection x ->
  same_links v (put id x' v).
Proof.
  intros Hx Hc id'. rewrite link_put. case_decide; [subst|done]. unfold link. by rewrite Hx, Hc.
Qed.

Lemma links_modify id f : (forall x, connection (f x) = connection x) -> keeps same_links (modify id f).
Proof.
  intros Hf v. destruct (dget (workers v) id) as [x|] eqn:E; [|by rewrite modify_none].
  rewrite (modify_some _ _ _ _ E). by apply links_put with x.
Qed.

Ltac links_go :=
  repeat first
    [ apply keeps_bind; [apply _| |intros ?]
    | apply keeps_ret; apply _ | apply keeps_raise; apply _ | apply keeps_get; apply _
    | apply links_modify; by intros ?
    | match goal with |- keeps _ (match ?x with _ => _ end) => destruct x end
    | intros ? ?; reflexivity ].

Lemma links_terminate w p : keeps same_links (terminate w p).
Proof.
  intros v id. unfold terminate. destruct p as [p|]; [|done]. destruct (bool_decide _); [|done].
  by destruct (w_dies w).
Qed.

Lemma links_fail w id reason p : keeps same_links (fail_and_terminate w id reason p).
Proof.
  unfold fail_and_terminate, fail_block. apply keeps_bind; [apply _| |intros ?; apply links_terminate]. links_go.
Qed.

Lemma links_check w id : keeps same_links (monitor_check w id).
Proof.
  intros v. unfold monitor_check. destruct (dget (workers v) id) as [x|] eqn:E; [|reflexivity].
  destruct (negb (desired x)); [reflexivity|].
  assert (Hd : forall r, same_links v (modify id (fun x => with_state W_DEGRADED (with_error (Some r) x)) v).1)
    by (intros r; by apply links_modify).
  destruct (process x) as [q|]; [|apply Hd]. destruct (negb _); [apply Hd|].
  destruct (longer _ _); [apply Hd|reflexivity].
Qed.

Lemma links_read_stdout w id p line : keeps same_links (read_stdout w id p line).
Proof.
  intros v. unfold read_stdout. destruct (read_line line) as [m|reason| |]; [| |reflexivity|reflexivity].
  - destruct (dget (workers v) id) as [x|] eqn:E; [|reflexivity]. destruct (bool_decide _); [|reflexivity].
    destruct (take_message (w_now w) m x) as [x'|] eqn:Em; [|reflexivity].
    apply links_put with x; [done|]. unfold take_message in Em.
    destruct m as [| |u]; [injection Em as <-; done| |destruct (py_str u); [|done]; injection Em as <-; done].
    injection Em as <-. by destruct (bool_decide _).
  - apply keeps_bind; [apply _|apply links_fail|intros ?; links_go].
Qed.

Lemma links_start_finish w id : keeps same_links (start_finish w id).
Proof.
  unfold start_finish. apply keeps_bind; [apply _|intros ? ?; reflexivity|intros x].
  destruct (ready x); [intros ? ?; reflexivity|].
  apply keeps_bind; [apply _|apply links_fail|intros ?; links_go].
Qed.

(** A change of connection, and what the method that made it reports. *)
Definition reports (id : string) v (r : option change) v' : Prop :=
  (same_links v v' /\ r = None) \/ exists old new, link v id = Some old /\ r = Some (id, old, new).

Lemma spawn_reports w id b v : 
  match spawn_locked w id b v with
  | (v', Ok c) => reports id v (Some c) v'
  | (v', Err e) => same_links v v' /\ exists code, e = WorkerError code
  end.
Proof.
  destruct (dget (workers v) id) as [x|] eqn:E; [|rewrite spawn_locked_none by done; split; [reflexivity|eauto]].
  rewrite (spawn_locked_some w id b v x E).
  destruct (b && over_budget _); [split; [by apply links_put with x|eauto]|].
  destruct (w_spawns w).
  - right. exists (connection x), (connection_of w). unfold link. by rewrite E.
  - split; [|eauto]. apply links_put with x; [done|by destruct b].
Qed.

Lemma reports_same id v v1 r v' : same_links v v1 -> reports id v1 r v' -> reports id v r v'.
Proof.
  intros Hs [[Hl ->]|(old & new & Ho & ->)]; [left; split; [by etrans|done]|].
  right. exists old, new. split; [by rewrite <- (Hs id)|done].
Qed.

Lemma start_reports w id v :
  match start_block w id v with
  | (v', Ok r) => reports id v r v'
  | (v', Err _) => same_links v v'
  end.
Proof.
  unfold start_block, start_monitor, st_bind, st_set, st_get.
  set (v1 := if monitored v then v else _).
  assert (H1 : same_links v v1 /\ workers v1 = workers v) by (subst v1; by destruct (monitored v)).
  destruct H1 as [H1 Hw]. destruct (dget (workers v1) id) as [x|] eqn:E.
  2: { by rewrite get_none. }
  rewrite (get_some _ _ _ E), (modify_some _ _ _ _ E). set (v2 := put id _ v1).
  assert (H2 : same_links v v2) by (etrans; [done|]; by apply links_put with x).
  destruct (runs_process (process x) v2); [by left; split|].
  pose proof (spawn_reports w id (0 <? generation x) v2) as Hs.
  destruct (spawn_locked w id (0 <? generation x) v2) as [v' [c|e]].
  - by eapply reports_same.
  - destruct Hs as [Hs _]. by etrans.
Qed.

Lemma respawn_reports w id v :
  match monitor_respawn w id v with
  | (v', Ok r) => reports id v r v'
  | (v', Err _) => same_links v v'
  end.
Proof.
  unfold monitor_respawn, st_bind, st_get. destruct (dget (workers v) id) as [x|] eqn:E.
  2: { by rewrite get_none. }
  rewrite (get_some _ _ _ E). destruct (negb (desired x) || stop_set v); [by left; split|].
  rewrite (modify_some _ _ _ _ E). set (v2 := put id _ v).
  assert (H2 : same_links v v2) by by apply links_put with x.
  unfold st_try. pose proof (spawn_reports w id true v2) as Hs.
  destruct (spawn_locked w id true v2) as [v' [c|e]]; [by eapply reports_same|].
  destruct Hs as (Hs & code & ->). left. split; [|done]. etrans; [exact H2|]. etrans; [exact Hs|].
  unfold st_ret. assert (Hm : keeps same_links (modify id (fun x => with_desired false (with_state W_FAILED x))))
    by by apply links_modify.
  exact (Hm v').
Qed.

Lemma monitor_reports w w' id v :
  match monitor_worker w w' id v with
  | (v', Ok r) => reports id v r v'
  | (v', Err _) => same_links v v'
  end.
Proof.
  unfold monitor_worker, st_bind. pose proof (links_check w id v) as Hc.
  destruct (monitor_check w id v) as [v1 [[p|]|e]]; [|by left; split|done]. cbn [fst] in Hc.
  pose proof (links_terminate w p v1) as Ht. destruct (terminate w p v1) as [v2 [[]|e]]; cbn [fst] in Ht;
    [|by etrans].
  pose proof (respawn_reports w' id v2) as Hr. destruct (monitor_respawn w' id v2) as [v3 [r|e]].
  - eapply reports_same; [|exact Hr]. by etrans.
  - do 2 (etrans; [eassumption|]). exact Hr.
Qed.

Section Supervision.
Context {X : Type} `{EL : EventLog L Env} `{Crypto} `{Signatures}.
Context (cfg : config) (ident : DaemonIdentity).
Abbreviation plane := (plane X L).
Abbreviation oplane := (oplane X L).
Abbreviation daemon := (daemon X L).
Abbreviation M := (st daemon cp_exn).
Implicit Types (s : daemon) (d : dio Env) (b : plane).

Definition set_plane (v : oplane) s : daemon := {| dm_plane := v; dm_workers := dm_workers s |}.
Definition set_manager (v : WorkerManager) s : daemon := {| dm_plane := dm_plane s; dm_workers := v |}.

(** A method of the control plane, and one of the manager whose [WorkerError] is
    re-raised under its code. *)
Definition on_plane {A} (m : st oplane cp_exn A) : M A :=
  fun s => let '(o, r) := m (dm_plane s) in (set_plane o s, r).

Definition worker_cp_exn (e : worker_exn) : cp_exn :=
  match e with WorkerError code => ControlPlaneError code | WorkerRaised => Raised end.

Definition on_workers {A} (m : st WorkerManager worker_exn A) : M A :=
  fun s => let '(v, r) := m (dm_workers s) in (set_manager v s, map_err worker_cp_exn r).

(** [_notify_generation_change]: an exception of the callback is only logged. *)
Definition notify d (c : option change) : M unit :=
  match c with
  | None => st_ret tt
  | Some (id, old, _) => st_suppress (on_plane (lift (on_worker_generation_change (d_callback d) id old)))
  end.

(** [start_worker], [stop_worker], [restart_worker] *)
Definition cp_start_worker d (id : string) : M (dict json) :=
  do! c <- on_workers (start_block (d_first d) id);
  run! notify d c;
  run! st_each (fun '(p, line) =>
         st_suppress (run! on_workers (read_stdout (d_second d) id p line); st_ret tt)) (d_lines d);
  on_workers (start_finish (d_third d) id).

Definition cp_stop_worker d (id : string) : M (dict json) :=
  on_workers (stop_worker (d_first d) (d_second d) id).

Definition cp_restart_worker d d' (id : string) : M (dict json) :=
  run! cp_stop_worker d id; cp_start_worker d' id.

(** A round of [_monitor_worker]. *)
Definition monitor_round d (id : string) : M unit :=
  do! c <- on_workers (monitor_worker (d_first d) (d_second d) id); notify d c.

(** [get_worker_status] *)
Definition get_worker_status d (worker_id : option string) : M (dict json) :=
  run! on_plane (lift require_running);
  match worker_id with
  | None => do! v <- st_get dm_workers; st_ret (manager_status (d_first d) v)
  | Some id =>
      do! status <- on_workers (get_status (d_first d) id); st_ret [("worker", JObj status)]
  end.

(** [control_worker]; [d'] is the world of the start of a restart. *)
Definition control_worker d d' (operation id : string) (peer : PeerCredentials) : M (dict json) :=
  run! on_plane (lift (require_daemon_uid cfg peer));
  run! on_plane (lift require_running);
  do! status <-
    (if String.eqb operation "start" then cp_start_worker d id
     else if String.eqb operation "stop" then cp_stop_worker d id
     else if String.eqb operation "restart" then cp_restart_worker d d' id
     else st_raise (ControlPlaneError "INVALID_WORKER_OPERATION"));
  st_ret [("worker", JObj status)].

(** ** What a worker method does to the control plane *)

Definition same_plane s s' : Prop := dm_plane s' = dm_plane s.

#[export] Instance same_plane_preorder : PreOrder same_plane.
Proof. unfold same_plane. split; [by intros ?|intros ???; congruence]. Qed.

Lemma workers_same_plane {A} (m : st WorkerManager worker_exn A) : keeps same_plane (on_workers m).
Proof. intros s. unfold on_workers. by destruct (m (dm_workers s)). Qed.

(** The steps of the daemon: of the control plane, and of the manager's blocks. *)
Inductive daemon_step : daemon -> daemon -> Prop :=
| d_plane s o : ostep cfg ident (dm_plane s) o -> daemon_step s (set_plane o s)
| d_workers s v : wstep (dm_workers s) v -> daemon_step s (set_manager v s).

Abbreviation daemon_steps := (rtc daemon_step).

Lemma plane_daemon_steps s o : rtc (ostep cfg ident) (dm_plane s) o -> daemon_steps s (set_plane o s).
Proof.
  intros Hr. remember (dm_plane s) as o0 eqn:E. revert s E.
  induction Hr as [o|o o1 o2 Ho _ IH]; intros s ->.
  - by destruct s.
  - eapply rtc_l; [by apply d_plane|]. by apply (IH (set_plane o1 s)).
Qed.

Lemma workers_daemon_steps s v : rtc wstep (dm_workers s) v -> daemon_steps s (set_manager v s).
Proof.
  intros Hr. remember (dm_workers s) as v0 eqn:E. revert s E.
  induction Hr as [v|v v1 v2 Hv _ IH]; intros s ->.
  - by destruct s.
  - eapply rtc_l; [by apply d_workers|]. by apply (IH (set_manager v1 s)).
Qed.

Lemma keeps_workers {A} (m : st WorkerManager worker_exn A) :
  keeps (rtc wstep) m -> keeps daemon_steps (on_workers m).
Proof.
  intros Hm s. unfold on_workers. specialize (Hm (dm_workers s)).
  destruct (m (dm_workers s)) as [v r]. by apply workers_daemon_steps.
Qed.

Lemma csteps_osteps (o : oplane) b : rtc (cstep cfg) (base o) b -> rtc (ostep cfg ident) o (set_base b o).
Proof.
  intros Hr. remember (base o) as b0 eqn:E. revert o E.
  induction Hr as [b|b b1 b2 Hb _ IH]; intros o ->.
  - by destruct o.
  - eapply rtc_l; [by apply o_plane|]. by apply (IH (set_base b1 o)).
Qed.

Lemma keeps_plane {A} (m : st oplane cp_exn A) :
  keeps (rtc (ostep cfg ident)) m -> keeps daemon_steps (on_plane m).
Proof.
  intros Hm s. unfold on_plane. specialize (Hm (dm_plane s)).
  destruct (m (dm_plane s)) as [o r]. by apply plane_daemon_steps.
Qed.

Lemma keeps_lifted {A} (m : st plane cp_exn A) :
  keeps (rtc (cstep cfg)) m -> keeps daemon_steps (on_plane (lift m)).
Proof.
  intros Hm. apply keeps_plane. intros o. unfold lift. specialize (Hm (base o)).
  destruct (m (base o)) as [b r]. by apply csteps_osteps.
Qed.

(** ** The daemon moves by steps *)

Lemma steps_generation_change (w : io Env) id old :
  keeps (rtc (cstep cfg)) (on_worker_generation_change (X := X) w id old).
Proof.
  unfold on_worker_generation_change. destruct old as [c|]; [|apply keeps_ret; apply _].
  apply keeps_bind; [apply _| |intros ?; apply keeps_bind; [apply _|apply steps_safety_stop|intros ?; apply keeps_ret; apply _]].
  intros b. pose proof (c_revoke_all cfg b (append_env w "PERMIT_REVOKED")
    ("worker_generation_changed:" +:+ id) (nonblank_head "w" _ eq_refl)) as Hs.
  destruct (revoke_all _ _ _) as [p [n|e]]; simpl in *; [by apply rtc_once|].
  eapply rtc_l; [exact Hs|]. apply rtc_once, c_mark.
Qed.

Lemma keeps_notify d c : keeps daemon_steps (notify d c).
Proof.
  destruct c as [[[id old] new]|]; [|apply keeps_ret; apply _].
  apply keeps_suppress; [apply _|]. apply keeps_lifted, steps_generation_change.
Qed.

Lemma keeps_start d id : keeps daemon_steps (cp_start_worker d id).
Proof.
  unfold cp_start_worker. apply keeps_bind; [apply _|apply keeps_workers, steps_start_block|intros c].
  apply keeps_bind; [apply _|apply keeps_notify|intros ?].
  apply keeps_bind; [apply _| |intros ?; apply keeps_workers, steps_start_finish].
  apply keeps_each; [apply _|]. intros [p line]. apply keeps_suppress; [apply _|].
  apply keeps_bind; [apply _|apply keeps_workers, steps_read_stdout|intros ?; apply keeps_ret; apply _].
Qed.

Lemma keeps_stop d id : keeps daemon_steps (cp_stop_worker d id).
Proof. apply keeps_workers, steps_stop_worker. Qed.

Lemma keeps_round d id : keeps daemon_steps (monitor_round d id).
Proof.
  apply keeps_bind; [apply _|apply keeps_workers, steps_monitor|intros ?; apply keeps_notify].
Qed.

Lemma keeps_require (m : st plane cp_exn unit) : keeps eq m -> keeps daemon_steps (on_plane (lift m)).
Proof. intros Hm. apply keeps_lifted. intros b. by rewrite (Hm b) at 1. Qed.

Lemma keeps_control d d' operation id peer : keeps daemon_steps (control_worker d d' operation id peer).
Proof.
  unfold control_worker.
  apply keeps_bind; [apply _|apply keeps_require; unfold require_daemon_uid; apply keeps_guard; apply _|intros ?].
  apply keeps_bind; [apply _|apply keeps_require; unfold require_running|intros ?].
  { apply keeps_bind; [apply _|apply keeps_get; apply _|intros ?]. apply keeps_guard; apply _. }
  apply keeps_bind; [apply _| |intros ?; apply keeps_ret; apply _].
  destruct (String.eqb operation "start"); [apply keeps_start|].
  destruct (String.eqb operation "stop"); [apply keeps_stop|].
  destruct (String.eqb operation "restart"); [|apply keeps_raise; apply _].
  apply keeps_bind; [apply _|apply keeps_stop|intros ?; apply keeps_start].
Qed.

Lemma keeps_worker_status d id : keeps daemon_steps (get_worker_status d id).
Proof.
  unfold get_worker_status. apply keeps_bind; [apply _|apply keeps_require; unfold require_running|intros ?].
  { apply keeps_bind; [apply _|apply keeps_get; apply _|intros ?]. apply keeps_guard; apply _. }
  destruct id as [id|].
  - apply keeps_bind; [apply _|apply keeps_workers, steps_get_status|intros ?; apply keeps_ret; apply _].
  - apply keeps_bind; [apply _|apply keeps_get; apply _|intros ?; apply keeps_ret; apply _].
Qed.

(** ** A worker replaced behind its client stops the robot *)

(** Permits revoked (or a ledger that has failed), the emergency stop latched, the
    runtime no longer armed. *)
Record stood_by b b' : Prop := {
  sb_stopped : supervision b' = ESTOPPED;
  sb_latched : latched b' = true;
  sb_counted : stop_requests b' = stop_requests b + 1;
  sb_permits : permits (tables (pa b')) = permits (tables (pa b));
  sb_revoked : ledger_failed b' = true \/
    forall id, is_Some (dget (permits (tables (pa b))) id) -> is_Some (revoked (tables (pa b')) !! id);
}.

Lemma revoke_all_revokes env (a a' : PermitAuthority L) reason n : revoke_all env a reason = (a', Ok n) ->
  permits (tables a') = permits (tables a) /\
  forall id, is_Some (dget (permits (tables a)) id) -> is_Some (revoked (tables a') !! id).
Proof.
  unfold revoke_all. destruct (revoke_each _ _ _ _) as [a1 [[]|e]] eqn:E; [|done]. intros [= <- _].
  apply revoke_each_tables in E as (Hp & _ & _ & Hr). split; [done|]. intros id Hid. apply Hr.
  destruct (revoked (tables a) !! id) eqn:Hn; [by left; eexists|right].
  unfold all_targets. apply list_elem_of_filter. unfold unrevoked. rewrite bool_decide_eq_true. split; [done|].
  by apply dkeys_dget.
Qed.

(** [_request_safety_stop] never raises: it latches the stop and counts it. *)
Lemma safety_stop_stands_by (w : io Env) b : exists receipt,
  request_safety_stop w b =
  (set_latched true (set_supervision ESTOPPED (set_stop_requests (stop_requests b + 1) b)), Ok receipt).
Proof. unfold request_safety_stop, enter_estop, runtime_stop, st_bind, st_set, st_ret. by eexists. Qed.

Lemma generation_change_stands_by (w : io Env) id c b :
  exists b', on_worker_generation_change (X := X) w id (Some c) b = (b', Ok tt) /\ stood_by b b'.
Proof.
  unfold on_worker_generation_change. unfold st_bind at 1.
  destruct (revoke_all (append_env w "PERMIT_REVOKED") (pa b) ("worker_generation_changed:" +:+ id))
    as [p [n|e]] eqn:Er.
  - apply revoke_all_revokes in Er as [Hp Hr]. unfold st_bind.
    destruct (safety_stop_stands_by w (set_pa p b)) as (d & ->). eexists. split; [done|].
    constructor; simpl; [done|done|done|done|by right].
  - unfold st_bind. destruct (safety_stop_stands_by w (set_ledger_failed true (set_pa p b))) as (d & ->).
    eexists. split; [done|]. constructor; simpl; [done|done|done| |by left].
    unfold revoke_all in Er. destruct (revoke_each _ _ _ _) as [a1 r1] eqn:E. injection Er as -> _.
    by apply revoke_each_prefix in E as (k & _ & _ & Hp & _).
Qed.

Lemma notify_stands_by d id old new s : exists s', notify d (Some (id, Some old, new)) s = (s', Ok tt) /\
  stood_by (base (dm_plane s)) (base (dm_plane s')) /\ dm_workers s' = dm_workers s.
Proof.
  destruct (generation_change_stands_by (d_callback d) id old (base (dm_plane s))) as (b' & Hb & Hs).
  exists (set_plane (set_base b' (dm_plane s)) s). split_and!; [|exact Hs|done].
  unfold notify, st_suppress, st_try, on_plane, lift. by rewrite Hb.
Qed.

Lemma notify_links d c s : dm_workers (notify d c s).1 = dm_workers s.
Proof.
  destruct c as [[[id old] new]|]; [|done]. unfold notify, st_suppress, st_try, on_plane.
  by destruct (lift _ (dm_plane s)) as [o [[]|e]].
Qed.

(** Once the stop is latched and the runtime stopped, reading what processes print
    and the end of a start leave the control plane as it is. *)
Lemma lines_same_plane d id l : keeps same_plane (st_each (fun '(p, line) =>
  st_suppress (run! on_workers (read_stdout (d_second d) id p line); st_ret tt)) l).
Proof.
  apply keeps_each; [apply _|]. intros [p line]. apply keeps_suppress; [apply _|].
  apply keeps_bind; [apply _|apply workers_same_plane|intros ?; apply keeps_ret; apply _].
Qed.

Definition workers_same_links s s' : Prop := same_links (dm_workers s) (dm_workers s').
#[local] Instance workers_same_links_preorder : PreOrder workers_same_links.
Proof. unfold workers_same_links. split; [by intros ?|intros ???; apply transitivity]. Qed.

Lemma keeps_links {A} (m : st WorkerManager worker_exn A) : keeps same_links m ->
  keeps workers_same_links (on_workers m).
Proof.
  intros Hm s. unfold on_workers. specialize (Hm (dm_workers s)). by destruct (m (dm_workers s)).
Qed.

Lemma lines_same_links d id l : keeps workers_same_links (st_each (fun '(p, line) =>
  st_suppress (run! on_workers (read_stdout (d_second d) id p line); st_ret tt)) l).
Proof.
  apply keeps_each; [apply _|]. intros [p line]. apply keeps_suppress; [apply _|].
  apply keeps_bind; [apply _|apply keeps_links, links_read_stdout|intros ?; apply keeps_ret; apply _].
Qed.

(** The part of a method after the manager has reported: [notify], then what leaves
    the plane and the connections alone. *)
Lemma reported_stands_by id d r s v (k : M unit) c :
  reports id (dm_workers s) r v -> link (dm_workers s) id = Some (Some c) ->
  keeps same_plane k -> keeps workers_same_links k ->
  let s' := (st_bind (notify d r) (fun _ => k) (set_manager v s)).1 in
  link (dm_workers s') id <> Some (Some c) -> stood_by (base (dm_plane s)) (base (dm_plane s')).
Proof.
  intros Hrep Hc Hp Hl s' Hne.
  assert (Hw : same_links v (dm_workers s')).
  { subst s'. unfold st_bind. pose proof (notify_links d r (set_manager v s)) as Hn.
    destruct (notify d r (set_manager v s)) as [s1 [[]|e]]; cbn [fst] in *; [|by rewrite Hn].
    specialize (Hl s1). unfold workers_same_links in Hl. by rewrite Hn in Hl. }
  destruct Hrep as [[Hs _]|(old & new & Ho & ->)].
  { exfalso. apply Hne. by rewrite (Hw id), (Hs id). }
  rewrite Hc in Ho. injection Ho as <-. subst s'. unfold st_bind.
  destruct (notify_stands_by d id c new (set_manager v s)) as (s1 & -> & Hst & _).
  specialize (Hp s1). unfold same_plane in Hp. by rewrite Hp.
Qed.

(** [cp_start_worker] after its first block. *)
Definition await_worker d (id : string) : M (dict json) :=
  run! st_each (fun '(p, line) =>
         st_suppress (run! on_workers (read_stdout (d_second d) id p line); st_ret tt)) (d_lines d);
  on_workers (start_finish (d_third d) id).

Lemma start_split d id s : cp_start_worker d id s =
  match start_block (d_first d) id (dm_workers s) with
  | (v, Ok r) => st_bind (notify d r) (fun _ => await_worker d id) (set_manager v s)
  | (v, Err e) => (set_manager v s, Err (worker_cp_exn e))
  end.
Proof.
  unfold cp_start_worker. unfold st_bind at 1. unfold on_workers at 1.
  by destruct (start_block (d_first d) id (dm_workers s)) as [v [r|e]].
Qed.

(** A worker whose process was replaced while a client held its connection,
    whether the monitor replaced it or a start that found it dead, leaves the robot
    stopped: the emergency stop is latched, the runtime is no longer armed, and every
    permit is revoked or the ledger is known to have failed. *)
Theorem replaced_worker_stands_by d id s c :
  link (dm_workers s) id = Some (Some c) ->
  (link (dm_workers (monitor_round d id s).1) id <> Some (Some c) ->
   stood_by (base (dm_plane s)) (base (dm_plane (monitor_round d id s).1))) /\
  (link (dm_workers (cp_start_worker d id s).1) id <> Some (Some c) ->
   stood_by (base (dm_plane s)) (base (dm_plane (cp_start_worker d id s).1))).
Proof.
  intros Hc. split.
  - unfold monitor_round. unfold st_bind at 1 2, on_workers.
    pose proof (monitor_reports (d_first d) (d_second d) id (dm_workers s)) as Hr.
    destruct (monitor_worker (d_first d) (d_second d) id (dm_workers s)) as [v [r|e]]; cbn [map_err].
    + pose proof (reported_stands_by id d r s v (st_ret tt) c Hr Hc) as Hst. cbv zeta in Hst.
      assert (E : forall t, (st_bind (notify d r) (fun _ => st_ret tt) t).1 = (notify d r t).1).
      { intros t. unfold st_bind. by destruct (notify d r t) as [? [[]|]]. }
      rewrite E in Hst. apply Hst; apply keeps_ret; apply _.
    + simpl. intros Hne. exfalso. apply Hne. by rewrite (Hr id).
  - rewrite start_split. pose proof (start_reports (d_first d) id (dm_workers s)) as Hr.
    destruct (start_block (d_first d) id (dm_workers s)) as [v [r|e]].
    + set (k := await_worker d id). set (k' := st_bind (E := cp_exn) k (fun _ => st_ret tt) : M unit).
      assert (Hkp : keeps same_plane k').
      { apply keeps_bind; [apply _| |intros ?; apply keeps_ret; apply _].
        apply keeps_bind; [apply _|apply lines_same_plane|intros ?; apply workers_same_plane]. }
      assert (Hkl : keeps workers_same_links k').
      { apply keeps_bind; [apply _| |intros ?; apply keeps_ret; apply _].
        apply keeps_bind; [apply _|apply lines_same_links|intros ?; apply keeps_links, links_start_finish]. }
      pose proof (reported_stands_by id d r s v k' c Hr Hc Hkp Hkl) as Hst. cbv zeta in Hst.
      assert (E : (st_bind (notify d r) (fun _ => k') (set_manager v s)).1 =
                  (st_bind (notify d r) (fun _ => k) (set_manager v s)).1).
      { unfold k', st_bind at 1 2 3. destruct (notify d r (set_manager v s)) as [t [[]|]]; [|done].
        by destruct (k t) as [? []]. }
      rewrite E in Hst. exact Hst.
    + simpl. intros Hne. exfalso. apply Hne. by rewrite (Hr id).
Qed.

(** ** A restart the operator asks for is not announced *)

Lemma notify_unconnected d id new s : notify d (Some (id, None, new)) s = (s, Ok tt).
Proof.
  unfold notify, st_suppress, st_try, on_plane, lift. cbn [on_worker_generation_change].
  unfold st_ret. by destruct s as [[b p g] v].
Qed.

Lemma await_same_plane d id : keeps same_plane (await_worker d id).
Proof.
  apply keeps_bind; [apply _|apply lines_same_plane|intros ?; apply workers_same_plane].
Qed.

Lemma start_unconnected d id s : link (dm_workers s) id = Some None ->
  same_plane s (cp_start_worker d id s).1.
Proof.
  intros Hl. rewrite start_split. pose proof (start_reports (d_first d) id (dm_workers s)) as Hr.
  destruct (start_block (d_first d) id (dm_workers s)) as [v [r|e]]; [|done].
  unfold st_bind. assert (Hn : notify d r (set_manager v s) = (set_manager v s, Ok tt)).
  { destruct r as [[[i old] new]|]; [|done]. destruct Hr as [[_ Hs]|(old' & new' & Ho & E)]; [done|].
    rewrite Hl in Ho. injection Ho as <-. injection E as -> -> ->. apply notify_unconnected. }
  rewrite Hn. apply (await_same_plane d id (set_manager v s)).
Qed.

(** [worker.stop] and [worker.restart] never touch the control plane: the process
    a restart starts has no old connection, so no permit is revoked and no stop is
    requested, whatever the runtime was doing with the worker. *)
Theorem restart_unannounced d d' id peer s operation :
  operation = "stop" \/ operation = "restart" ->
  dm_plane (control_worker d d' operation id peer s).1 = dm_plane s.
Proof.
  intros Hop. assert (Hk : keeps same_plane (control_worker d d' operation id peer)); [|by apply Hk].
  assert (Hreq : forall m : st plane cp_exn unit, keeps eq m -> keeps same_plane (on_plane (lift m))).
  { intros m Hm [[b p g] v]. unfold same_plane, on_plane, lift. cbn. specialize (Hm b).
    destruct (m b) as [b' r]. cbn in *. by rewrite Hm. }
  unfold control_worker. apply keeps_bind; [apply _| |intros ?].
  { apply Hreq. unfold require_daemon_uid. apply keeps_guard; apply _. }
  apply keeps_bind; [apply _| |intros ?].
  { apply Hreq. unfold require_running. apply keeps_bind; [apply _|apply keeps_get; apply _|intros ?].
    apply keeps_guard; apply _. }
  apply keeps_bind; [apply _| |intros ?; apply keeps_ret; apply _].
  destruct Hop as [-> | ->]; cbn [String.eqb Ascii.eqb Bool.eqb]; [apply workers_same_plane|].
  intros s1. unfold cp_restart_worker, st_bind, cp_stop_worker, on_workers.
  destruct (stop_worker (d_first d) (d_second d) id (dm_workers s1)) as [v [x|e]] eqn:E; [|done].
  cbn [map_err]. transitivity (set_manager v s1); [done|]. apply start_unconnected. cbn [dm_workers].
  destruct (dget (workers (dm_workers s1)) id) as [w|] eqn:Hw.
  - destruct (stop_worker_leaves _ _ _ _ _ _ _ Hw E) as [Hx' _].
    unfold link. cbn [dm_workers set_manager]. by rewrite Hx'.
  - unfold stop_worker, stop_mark, st_bind in E. rewrite get_none in E by done. done.
Qed.
End Supervision.

(** ** A concrete daemon *)

Abbreviation demo_daemon_ty := (daemon unit (list entry)).

(** An armed daemon that holds a permit and whose worker is ready. *)
Definition demo_daemon : demo_daemon_ty :=
  {| dm_plane := {| base := demo_armed; props := props demo_onew; reg := reg demo_onew |};
     dm_workers := demo_ready |}.

(** The world of a worker method that begins at second [t] and whose start takes one
    second. *)
Definition demo_dio (t : Z) (uuid : string) (lines : list (nat * string)) : dio bool :=
  {| d_callback := demo_io; d_first := world_at t uuid; d_second := world_at (t + 1) uuid;
     d_third := world_at (t + 1) uuid; d_lines := lines |}.

Definition demo_stands (s : demo_daemon_ty) : SupervisionState * bool * list string * option (option string) :=
  let b := base (dm_plane s) in
  (supervision b, latched b, (map_to_list (revoked (tables (pa b)))).*1, link (dm_workers s) "arm").

Abbreviation demo_after_crash := (monitor_round (demo_dio 4 "b" []) "arm" demo_daemon).1.

Abbreviation demo_restart_worker s :=
  (control_worker demo_cfg (demo_dio 2 "x" []) (demo_dio 3 "b" [(1%nat, worker_line "ready")])
    "restart" "arm" {| pid := 1; uid := c_euid demo_cfg; gid := 0 |} s).

(** The monitor's replacement stops the robot; a restart of the same worker leaves the
    runtime armed and its permit valid, on a new connection. *)
Example demo_stands_by :
  map demo_stands [demo_daemon; demo_after_crash; (demo_restart_worker demo_daemon).1] =
  [(ARMED, false, [], Some (Some "worker_a"));
   (ESTOPPED, true, [p_permit_id demo_permit], Some (Some "worker_b"));
   (ARMED, false, [], Some (Some "worker_b"))] /\
  is_ok (demo_restart_worker demo_daemon).2 = true.
Proof. vm_compute. split; reflexivity. Qed.

Lemma replaced_worker_stands_by_witness :
  stood_by (base (dm_plane demo_daemon)) (base (dm_plane demo_after_crash)).
Proof.
  assert (H0 : link (dm_workers demo_daemon) "arm" = Some (Some "worker_a")) by (vm_compute; reflexivity).
  assert (H1 : link (dm_workers demo_after_crash) "arm" <> Some (Some "worker_a")) by (vm_compute; discriminate).
  exact (proj1 (replaced_worker_stands_by (demo_dio 4 "b" []) "arm" demo_daemon "worker_a" H0) H1).
Defined.

Lemma restart_unannounced_witness :
  dm_plane (demo_restart_worker demo_daemon).1 = dm_plane demo_daemon.
Proof.
  exact (restart_unannounced demo_cfg (demo_dio 2 "x" []) (demo_dio 3 "b" [(1%nat, worker_line "ready")])
    "arm" {| pid := 1; uid := c_euid demo_cfg; gid := 0 |} demo_daemon "restart" (or_intror eq_refl)).
Defined.
