(* ===== verification/Replies.v ===== *)
(** The dictionaries the control plane answers with:
    src/src/rosclaw/daemon/service.py.

    The handlers of ControlPlane.v leave out what their callers only print; here
    are the replies of the methods the socket exposes, and [get_runtime_status]
    over the whole daemon. *)

From S2P Require Export Supervision.

Section Replies.
Context {X : Type} `{EL : EventLog L Env} `{Crypto} (cfg : config).
Abbreviation plane := (plane X L).
Abbreviation io := (io Env).
Abbreviation M := (st plane cp_exn).
Implicit Types (s : plane) (w : io).

(** A method that answers with a session. *)
Definition session_reply (m : M AgentSession) : M (dict json) :=
  do! x <- m; st_ret [("session", JObj (AgentSession_to_dict x))].

(** [arm_runtime]: the state is read after the event is written. *)
Definition arm_reply w (reason : string) (peer : PeerCredentials) : M (dict json) :=
  run! arm_runtime cfg w reason peer;
  do! s <- st_get (fun s => s);
  st_ret [("supervision_state", JStr (SupervisionState_value (supervision s)));
          ("reason", JStr (strip reason)); ("daemon_instance_id", JStr (c_instance cfg))].

(** [disarm_runtime] *)
Definition disarm_reply w (reason : string) (peer : PeerCredentials) : M (dict json) :=
  do! receipt <- disarm_runtime cfg w reason peer;
  do! s <- st_get (fun s => s);
  st_ret [("supervision_state", JStr (SupervisionState_value (supervision s)));
          ("reason", JStr (strip reason)); ("stop_receipt", JObj receipt)].

(** [acknowledge_recovery] *)
Definition acknowledge_reply w (reason : string) (peer : PeerCredentials) : M (dict json) :=
  do! s <- st_get (fun s => s);
  do! ok <- acknowledge_recovery cfg w reason peer;
  st_ret (if ok : bool then
            [("acknowledged", JBool true); ("recovery_required", JBool false);
             ("action_ids", strings_json (rec_ids s)); ("real_action_ids", strings_json (rec_real s));
             ("reason", JStr (strip reason)); ("acknowledged_at", JStr (iso (clock w 0)));
             ("authenticated_peer", JObj (PeerCredentials_to_dict peer));
             ("emergency_stop_latched", JBool (latched s))]
          else
            [("acknowledged", JBool false); ("recovery_required", JBool false);
             ("message", JStr "No restart recovery review is pending.")]).

(** [issue_execution_permit], whose caller gives no approval context. *)
Definition issue_reply w (a : ActionEnvelope) (principal_id : string) (target_uid : Z)
    (ttl : pyfloat) (reason : string) (peer : PeerCredentials) : M (dict json) :=
  do! issued <- issue_execution_permit cfg w a principal_id target_uid ttl reason peer [];
  do! session <- of_session (fun m => (m, get_by_id m (session_id a)));
  st_ret [("permit", JObj (ExecutionPermit_to_dict issued.1)); ("authorized_action", issued.2);
          ("operator_approval", JObj (approval_record cfg w (strip reason) peer target_uid []));
          ("session", JObj (AgentSession_to_dict session))].

(** [renew_action_lease] *)
Definition renew_reply w (id session : string) (peer : PeerCredentials) : M (dict json) :=
  do! lease <- renew_action_lease cfg w id session peer;
  st_ret [("action_id", JStr id); ("session_id", JStr session); ("action_lease", JObj lease)].

(** ** The status *)

(** What the status shows of the process, the runtime and the watchdog;
    [e_ledger] is what [ledger.status()] returns, [None] where it raises. *)
Record status_env := {
  e_pid : Z;
  e_runtime_state : string;
  e_robot_id : string;
  e_drivers : list string;
  e_robot_pack : json;
  e_watchdog : dict json;
  e_ledger : option (dict json);
  e_ledger_paths : dict json;      (* path, anchor_path, key_path *)
  e_ledger_failure : json;         (* the text of the last failure, or null *)
  e_started_at : datetime;
}.

(** [counts] over the jobs of the table. *)
Definition count_jobs s (st : JobState) : Z :=
  Z.of_nat (length (filter (fun loc => j_state <$> heap s !! loc = Some st) (dvals (jobs s)))).

Definition queue_counts s : dict json :=
  map (fun st => (JobState_value st, JInt (count_jobs s st))) [J_QUEUED; J_RUNNING; J_FINISHED; J_CANCELLED].

(** [registered_executors] *)
Definition registered_executors (g : ActionGateway X) : list string :=
  sorted_set (map (fun kv => kv.1.1 +:+ ":" +:+ se_value kv.1.2) (map_to_list (executors g))).

(** [permits.status()] and [sessions.status()] as dictionaries. *)
Definition permits_status (now : datetime) s : dict json :=
  let '(registered, active, consumed, revoked) := Permits.status now (pa s) in
  [("registered", JInt registered); ("active", JInt active); ("consumed_actions", JInt consumed);
   ("revoked", JInt revoked)].

Definition sessions_status s : dict json :=
  let '(total, active, lost, closed) := session_status (sess s) in
  [("total", JInt total); ("active", JInt active); ("lost", JInt lost); ("closed", JInt closed)].

(** [_ledger_status_locked]: a ledger that cannot be read counts as failed. *)
Definition ledger_status_locked (e : status_env) : M json :=
  do! l <- st_get log_of;
  match l with
  | None => st_ret JNull
  | Some _ =>
      do! status <- match e_ledger e with
        | Some d => st_ret d
        | None =>
            run! mark_ledger_failure;
            st_ret ([("schema_version", JStr "rosclaw.daemon.ledger.v1")] ++ e_ledger_paths e
                    ++ [("integrity_verified", JBool false)])%list
        end;
      do! failed <- st_get ledger_failed;
      st_ret (JObj (dset (dset status "write_failed" (JBool failed)) "failure" (e_ledger_failure e)))
  end.

(** The dictionary of [get_runtime_status]; [s] is the plane before the ledger is
    read. *)
Definition status_dict (e : status_env) w s (peer : PeerCredentials) (proposals : dict Z)
    (workers ledger : json) : dict json :=
  [("protocol_version", JStr DAEMON_PROTOCOL_VERSION);
   ("running", JBool (running s && negb (ControlPlane.closed s)));
   ("daemon_pid", JInt (e_pid e)); ("daemon_uid", JInt (c_euid cfg));
   ("client_peer", JObj (PeerCredentials_to_dict peer));
   ("process_separated", JBool (negb (pid peer =? e_pid e)));
   ("privilege_separated", JBool (negb (uid peer =? c_euid cfg)));
   ("southbound_owner", JStr "rosclawd");
   ("daemon_instance_id", JStr (c_instance cfg));
   ("supervision_state", JStr (SupervisionState_value (supervision s)));
   ("runtime_state", JStr (e_runtime_state e)); ("robot_id", JStr (e_robot_id e));
   ("emergency_stop_latched", JBool (latched s));
   ("drivers", strings_json (e_drivers e));
   ("registered_executors", strings_json (registered_executors (gwy s)));
   ("robot_pack", e_robot_pack e);
   ("queue", JObj (queue_counts s));
   ("history", JObj [("retained", JInt (Z.of_nat (length (jobs s))));
                     ("capacity", JInt (retained_capacity cfg)); ("evicted", JInt (evicted s))]);
   ("permits", JObj (permits_status (clock w 0) s));
   ("sessions", JObj (sessions_status s));
   ("operator_proposals", JObj (map (fun kv => (kv.1, JInt kv.2)) proposals));
   ("watchdog", JObj (e_watchdog e));
   ("workers", workers);
   ("ledger", ledger);
   ("recovery", JObj [("required", JBool (rec_required s)); ("action_ids", strings_json (rec_ids s));
                      ("real_action_ids", strings_json (rec_real s))]);
   ("hardware_actions_executed", JInt (hw_actions s));
   ("emergency_stop_requests", JInt (stop_requests s));
   ("started_at", JStr (iso (e_started_at e)))].
End Replies.

Section Status.
Context {X : Type} `{EL : EventLog L Env} `{Crypto} `{Signatures} (cfg : config).
Abbreviation daemon := (daemon X L).
Abbreviation M := (st daemon cp_exn).
Implicit Types (d : dio Env) (w : io Env).

(** [get_runtime_status]: lapsed proposals expire while they are counted. *)
Definition get_runtime_status (e : status_env) w d (peer : PeerCredentials) : M (dict json) :=
  do! s <- st_get (fun s => base (dm_plane s));
  do! proposals <- on_plane (of_store (fun q => let '(q, counts) := store_status (clock w 1) q in (q, Ok counts)));
  do! workers <- st_get (fun s => manager_status (d_first d) (dm_workers s));
  do! ledger <- on_plane (lift (ledger_status_locked e));
  st_ret (status_dict cfg e w s peer proposals (JObj workers) ledger).
End Status.
