(* ===== verification/Server.v ===== *)
(** The daemon's socket server: src/src/rosclaw/daemon/server.py.

    One connection carries one request: its frame is read, decoded and dispatched,
    and one response is written. A [request_io] is what the request meets: the
    clocks, identifiers and outcomes of the handler it reaches. The socket's own
    life (binding, ownership of its path, the accept loop) is in Socket.v; the
    credentials of the peer are the system's. *)

From S2P Require Export Replies.

(** [ControlPlaneError] by its code; any other exception; a value outside the
    model (the text of a list, a number read from a text). *)
Inductive srv_exn := Sv_control (code : string) | Sv_other | Sv_unmodelled.

Definition srv_of_cp (e : cp_exn) : srv_exn :=
  match e with ControlPlaneError code => Sv_control code | Raised => Sv_other end.

Definition ALLOWED_METHODS : list string :=
  ["runtime.status"; "runtime.arm"; "runtime.disarm"; "runtime.recovery.acknowledge";
   "runtime.shutdown"; "permit.issue"; "operator.proposal.create"; "operator.proposal.status";
   "operator.proposal.cancel"; "operator.proposal.pending"; "operator.proposal.decide";
   "operator.enrollment.register"; "operator.enrollment.revoke"; "operator.enrollment.list";
   "operator.challenge.get"; "daemon.identity"; "action.request"; "action.status";
   "action.receipt"; "action.cancel"; "action.lease.renew"; "session.create";
   "session.heartbeat"; "session.status"; "session.close"; "worker.status"; "worker.start";
   "worker.stop"; "worker.restart"; "safety.emergency_stop"].

(** ** Parameters *)

Abbreviation params := (dict json).
Abbreviation R := (result srv_exn).

Definition invalid : srv_exn := Sv_control "INVALID_ARGUMENT".

Definition required_id (p : params) (k : string) (max_length : Z) : R string :=
  let* v := of_option (text_at p k) invalid in
  guard! nonblank v && (len v <=? max_length) else invalid in
  Ok v.

Definition required_string_list (p : params) (k : string) : R (list string) :=
  match dget p k with
  | Some (JList l) =>
      guard! negb (bool_decide (l = [])) else invalid in
      let* texts := of_option (mapM as_str l) invalid in
      guard! forallb nonblank texts else invalid in
      Ok texts
  | _ => Err invalid
  end.

Definition required_int (p : params) (k : string) : R Z :=
  match dget p k with Some (JInt z) => Ok z | _ => Err invalid end.

(** [float(z)]: the nearest double, or [OverflowError]. *)
Definition float_of_int (z : Z) : R pyfloat :=
  match round_decimal z 0 with Fin m e => Ok (Fin m e) | _ => Err Sv_other end.

Definition required_number (p : params) (k : string) : R pyfloat :=
  match dget p k with
  | Some (JInt z) => float_of_int z
  | Some (JFloat f) => Ok f
  | _ => Err invalid
  end.

(** [float(params.get("timeout_sec", 1.0))] between 0 and 10. *)
Definition stop_timeout (p : params) : R pyfloat :=
  let* f := match get_default p "timeout_sec" (JFloat (Fin 1 0)) with
            | JInt z => float_of_int z
            | JFloat f => Ok f
            | JBool b => Ok (float_of_Z (if b then 1 else 0))
            | JStr _ => Err Sv_unmodelled
            | _ => Err (Sv_control "INVALID_TIMEOUT")
            end in
  guard! float_le (Fin 0 0) f && float_le f (Fin 10 0) else Sv_control "INVALID_TIMEOUT" in
  Ok f.

(** [str(v)] of a parameter. *)
Definition text_of (j : json) : R string := map_err (fun _ => Sv_unmodelled) (py_str j).

(** The exceptions of [from_dict] that [_required_action] reports. *)
Definition action_exn (e : pyexc) : srv_exn :=
  match e with
  | TypeError | ValueError | KeyError => Sv_control "INVALID_ACTION"
  | AttributeError => Sv_other
  | Unmodelled => Sv_unmodelled
  end.

Definition required_action (now : datetime) (uuid : string) (p : params) : R ActionEnvelope :=
  match dget p "action" with
  | Some (JObj d) => map_err action_exn (ActionEnvelope_from_dict now uuid (JObj d))
  | _ => Err (Sv_control "INVALID_ACTION")
  end.

(** The reference of [operator.proposal.create], its values as texts. *)
Definition reference_of (p : params) : R (option (dict string)) :=
  match dget p "client_reference" with
  | Some (JObj d) =>
      let* r := mapr (fun kv => let* t := text_of kv.2 in Ok (kv.1, t)) d in Ok (Some r)
  | _ => Ok None
  end.

Definition close_reason (p : params) : R string :=
  let* r := of_option (as_str (get_default p "reason" (JStr "client_closed"))) invalid in
  guard! nonblank r && (len r <=? 256) else invalid in
  Ok r.

(** The optional worker id of [worker.status]. *)
Definition worker_of (p : params) : R (option string) :=
  match get_default p "worker_id" JNull with
  | JNull => Ok None
  | _ => let* id := required_id p "worker_id" 128 in Ok (Some id)
  end.

(** ** Decoded actions can be stored *)

Lemma float_le_Fin m e m' e' : float_le (Fin m e) (Fin m' e') = true <->
  m * 10 ^ (e - Z.min e e') <= m' * 10 ^ (e' - Z.min e e').
Proof.
  unfold float_le, float_cmp, dec_compare. cbv zeta. rewrite <- Z.leb_le. unfold Z.leb.
  by destruct (_ ?= _).
Qed.

(** Seconds compare with a whole number as their microseconds do. *)
Lemma float_us_bounds f n : is_finite f = true ->
  (float_le f (Fin n 0) = true -> float_us f <= n * 1000000) /\
  (float_le (Fin n 0) f = true -> n * 1000000 <= float_us f).
Proof.
  destruct f as [m e| |]; [|done..]. intros _. rewrite !float_le_Fin, Z.min_comm. unfold float_us.
  destruct (0 <=? e + 6) eqn:E6; breflect.
  - replace (e + 6) with ((e - Z.min 0 e) + (Z.min 0 e + 6)) by lia. rewrite Z.pow_add_r by lia.
    assert (Hk : 10 ^ (0 - Z.min 0 e) * 10 ^ (Z.min 0 e + 6) = 1000000)
      by (rewrite <- Z.pow_add_r by lia; by replace (0 - Z.min 0 e + (Z.min 0 e + 6)) with 6 by lia).
    assert (0 < 10 ^ (Z.min 0 e + 6)) by (apply Z.pow_pos_nonneg; lia).
    set (C := 10 ^ (Z.min 0 e + 6)) in *. rewrite <- Hk, !Z.mul_assoc.
    split; intros Hm; apply Z.mul_le_mono_nonneg_r; lia.
  - rewrite !Z.min_r by lia. rewrite Z.sub_diag, Z.pow_0_r, Z.mul_1_r.
    assert (Hk : 10 ^ (0 - e) = 1000000 * 10 ^ (- (e + 6)))
      by (replace (0 - e) with (6 + - (e + 6)) by lia; by rewrite Z.pow_add_r by lia).
    assert (0 < 10 ^ (- (e + 6))) by (apply Z.pow_pos_nonneg; lia). rewrite Hk. split; intros Hm.
    + apply div_half_even_bounds; lia.
    + apply div_half_even_bounds; lia.
Qed.

Lemma parse_datetime_wf j d : parse_datetime j = Ok (Some d) -> dt_wf d.
Proof.
  intros Hd. assert (Hs : exists s, parse_default_utc s = Some d).
  { unfold parse_datetime in Hd. destruct j as [|b|z|f|t|l|kvs]; cbn [py_str rbind] in Hd; try discriminate Hd;
      try (destruct t; [discriminate Hd|]); try (destruct f; cbn [rbind] in Hd);
      match type of Hd with rbind (of_option (parse_default_utc ?t) _) _ = _ => exists t end;
      destruct (parse_default_utc _); cbn [of_option rbind] in Hd; congruence. }
  destruct Hs as [s Hs]. by eapply parse_default_utc_wf.
Qed.

Lemma policy_init_ok req t c p : VerificationPolicy_init req t c = Ok p -> policy_ok p.
Proof.
  unfold VerificationPolicy_init. intros Hd. ok_inv Hd. unfold policy_ok. destruct c; try discriminate Hd.
  injection Hd as <-. by cbn [timeout_sec].
Qed.

Lemma policy_from_dict_ok v p : VerificationPolicy_from_dict v = Ok p -> policy_ok p.
Proof.
  unfold VerificationPolicy_from_dict. intros H.
  repeat match type of H with rbind _ _ = _ => apply rbind_ok in H as (? & _ & H) end.
  by eapply policy_init_ok.
Qed.

Lemma policy_timeout p : policy_ok p ->
  0 <= float_us (float_max (Fin 1 (-1)) (timeout_sec p)) <= 3600000000.
Proof.
  unfold policy_ok, float_max. intros H. breflect. match goal with H : is_finite _ = true |- _ => rename H into Hf end.
  destruct (float_us_bounds _ 0 Hf) as [_ Hlo]. destruct (float_us_bounds _ 3600 Hf) as [Hhi _].
  destruct (float_lt (Fin 1 (-1)) _); [|by vm_compute].
  split; [|by apply Hhi]. apply Hlo. unfold float_le, float_lt in *.
  by destruct (float_cmp (Fin 0 0) _) as [[]|].
Qed.

Lemma post_init_keeps now ttl renew stop a a' : post_init now ttl renew stop a = Ok a' ->
  verification_policy a' = verification_policy a /\
  deadline_at a' = Some (default (dt_add now (float_us (float_max (Fin 1 (-1))
    (timeout_sec (verification_policy a))))) (deadline_at a)).
Proof. unfold post_init. intros H. ok_inv H. subst a'. split; [done|]. by destruct (deadline_at a). Qed.

(** An action that came over the wire can be written to the ledger and read back. *)
Lemma from_dict_storable now uuid v a :
  (forall t, 0 <= t <= 3600000000 -> dt_wf (dt_add now t)) ->
  ActionEnvelope_from_dict now uuid v = Ok a -> storable a.
Proof.
  intros Hnow Hd. assert (Hok : envelope_ok a) by by eapply envelope_from_dict_ok.
  unfold ActionEnvelope_from_dict in Hd.
  do 14 (apply rbind_ok in Hd as (? & _ & Hd)).
  apply rbind_ok in Hd as (deadline & Ht & Hd).
  do 3 (apply rbind_ok in Hd as (? & _ & Hd)).
  apply rbind_ok in Hd as (vp & Hvp & Hd). apply policy_from_dict_ok in Hvp.
  apply post_init_keeps in Hd as [Hpol Hdl]. cbn [verification_policy deadline_at] in Hpol, Hdl.
  split; [exact Hok|by rewrite Hpol|]. rewrite Hdl. intros d [= <-].
  destruct deadline as [d|]; [by eapply parse_datetime_wf|]. by apply Hnow, policy_timeout.
Qed.

Lemma required_action_storable now uuid (p : params) a :
  (forall t, 0 <= t <= 3600000000 -> dt_wf (dt_add now t)) ->
  required_action now uuid p = Ok a -> storable a.
Proof.
  intros Hnow. unfold required_action. destruct (dget p "action") as [[| | | | | |d]|]; try done.
  destruct (ActionEnvelope_from_dict now uuid (JObj d)) as [x|] eqn:E; [|done]. intros [= <-].
  by eapply from_dict_storable.
Qed.

(** ** Dispatch *)

Record request_io {Env : Type} := {
  q_now : datetime;               (* a missing deadline counts from here *)
  q_uuid : string;                (* a missing action id *)
  q_io : io Env;
  q_op : oio Env;
  q_worker : dio Env;
  q_restart : dio Env;            (* the start of a restart *)
  q_status : status_env;
  q_message : string -> string;   (* the text of an error, by its code *)
  q_sends : bool;                 (* [sendall] succeeds *)
}.
Arguments request_io : clear implicits.

Section Server.
Context {X : Type} `{EL : EventLog L Env} `{Crypto} `{Signatures}.
Context (cfg : config) (ident : DaemonIdentity).
Abbreviation daemon := (daemon X L).
Abbreviation M := (st daemon srv_exn).
Implicit Types (s : daemon) (q : request_io Env) (p : params) (peer : PeerCredentials).

Definition serve {A} (m : st daemon cp_exn A) : M A :=
  fun s => let '(s', r) := m s in (s', map_err srv_of_cp r).

Definition on_base {A} (m : st (plane X L) cp_exn A) : M A := serve (on_plane (lift m)).
Definition on_operator {A} (m : st (oplane X L) cp_exn A) : M A := serve (on_plane m).

(** [m] answers a request that does not shut the daemon down. *)
Definition answer (m : M (dict json)) : M (dict json * bool) := do! d <- m; st_ret (d, false).

(** The end of [_dispatch]: actions, sessions, workers and the emergency stop. *)
Definition dispatch_action q (method : string) p peer : M (dict json * bool) :=
  let required k := required_id p k 256 in
  if String.eqb method "action.request" then
    do! a <- st_of (required_action (q_now q) (q_uuid q) p);
    answer (on_base (request_action cfg (q_io q) a peer))
  else if String.eqb method "action.status" then
    do! id <- st_of (required "action_id");
    answer (on_base (get_action_status cfg (q_io q) id (Some peer)))
  else if String.eqb method "action.receipt" then
    do! id <- st_of (required "action_id");
    answer (on_base (get_execution_receipt cfg (q_io q) id (Some peer)))
  else if String.eqb method "action.cancel" then
    do! id <- st_of (required "action_id");
    answer (on_base (cancel_action cfg (q_io q) id (Some peer)))
  else if String.eqb method "action.lease.renew" then
    do! id <- st_of (required "action_id");
    do! session <- st_of (required "session_id");
    answer (on_base (renew_reply cfg (q_io q) id session peer))
  else if String.eqb method "session.create" then
    do! session <- st_of (required "session_id");
    do! actor <- st_of (required "actor_id");
    do! framework <- st_of (required "agent_framework");
    do! bodies <- st_of (required_string_list p "body_scope");
    do! capabilities <- st_of (required_string_list p "capability_scope");
    do! ttl <- st_of (required_int p "ttl_ms");
    answer (on_base (session_reply (cp_create_session (q_io q) session actor framework bodies
                                      capabilities ttl peer)))
  else if String.eqb method "session.heartbeat" then
    do! session <- st_of (required "session_id");
    answer (on_base (session_reply (heartbeat_session (q_io q) session peer)))
  else if String.eqb method "session.status" then
    do! session <- st_of (required "session_id");
    answer (on_base (session_reply (cp_get_session session peer)))
  else if String.eqb method "session.close" then
    do! reason <- st_of (close_reason p);
    do! session <- st_of (required "session_id");
    answer (on_base (session_reply (cp_close_session (q_io q) session reason peer)))
  else if String.eqb method "worker.status" then
    do! worker <- st_of (worker_of p);
    answer (serve (get_worker_status (q_worker q) worker))
  else if String.eqb method "worker.start" || String.eqb method "worker.stop" || String.eqb method "worker.restart" then
    do! worker <- st_of (required_id p "worker_id" 128);
    answer (serve (control_worker cfg (q_worker q) (q_restart q) (str_drop 7 method) worker peer))
  else if String.eqb method "safety.emergency_stop" then
    do! _ <- st_of (required_id p "reason" 1024);
    do! source <- st_of (text_of (get_default p "source" (JStr "rosclawd.client")));
    do! _ <- st_of (stop_timeout p);
    answer (on_base (emergency_stop (q_io q) (prefix_of 128 source) peer))
  else st_raise Sv_other.

(** [_dispatch]: the reply, and whether the daemon is to shut down. *)
Definition dispatch q (method : string) p peer : M (dict json * bool) :=
  run! st_guard (bool_decide (method ∈ ALLOWED_METHODS)) (Sv_control "METHOD_NOT_ALLOWED");
  let required k := required_id p k 256 in
  if String.eqb method "runtime.status" then
    answer (serve (get_runtime_status cfg (q_status q) (q_io q) (q_worker q) peer))
  else if String.eqb method "runtime.arm" then
    do! reason <- st_of (required_id p "reason" 1024);
    answer (on_base (arm_reply cfg (q_io q) reason peer))
  else if String.eqb method "runtime.disarm" then
    do! reason <- st_of (required_id p "reason" 1024);
    answer (on_base (disarm_reply cfg (q_io q) reason peer))
  else if String.eqb method "runtime.recovery.acknowledge" then
    do! reason <- st_of (required_id p "reason" 1024);
    answer (on_base (acknowledge_reply cfg (q_io q) reason peer))
  else if String.eqb method "runtime.shutdown" then
    run! st_guard (uid peer =? c_euid cfg) (Sv_control "PERMISSION_DENIED");
    st_ret ([("shutdown_requested", JBool true)], true)
  else if String.eqb method "permit.issue" then
    do! a <- st_of (required_action (q_now q) (q_uuid q) p);
    do! principal <- st_of (required "principal_id");
    do! target <- st_of (required_int p "target_peer_uid");
    do! ttl <- st_of (required_number p "expires_in_sec");
    do! reason <- st_of (required_id p "reason" 1024);
    answer (on_base (issue_reply cfg (q_io q) a principal target ttl reason peer))
  else if String.eqb method "operator.proposal.create" then
    do! display <- st_of (of_option (dget p "display" ≫= as_obj) invalid);
    do! a <- st_of (required_action (q_now q) (q_uuid q) p);
    do! ttl <- st_of (required_number p "ttl_sec");
    do! reference <- st_of (reference_of p);
    answer (on_operator (create_operator_proposal cfg (q_op q) a display ttl peer reference))
  else if String.eqb method "operator.proposal.status" then
    do! id <- st_of (required "request_id");
    answer (on_operator (get_operator_proposal cfg (q_op q) id peer))
  else if String.eqb method "operator.proposal.cancel" then
    do! id <- st_of (required "request_id");
    answer (on_operator (cancel_operator_proposal cfg (q_op q) id peer))
  else if String.eqb method "operator.proposal.pending" then
    answer (on_operator (list_pending_operator_proposals cfg (q_op q) peer))
  else if String.eqb method "operator.proposal.decide" then
    do! id <- st_of (required "request_id");
    do! decision <- st_of (required_id p "decision" 16);
    do! principal <- st_of (required "principal_id");
    do! channel <- st_of (required_id p "channel" 128);
    do! reason <- st_of (required_id p "reason" 1024);
    answer (on_operator (decide_operator_proposal cfg ident (q_op q) id decision principal channel
                           reason peer (default [] (dget p "proof" ≫= as_obj))))
  else if String.eqb method "operator.enrollment.register" then
    do! id <- st_of (required "enrollment_id");
    do! pem <- st_of (text_of (get_default p "public_key_pem" (JStr "")));
    do! operator <- st_of (required_int p "operator_uid");
    do! purpose <- st_of (text_of (get_default p "purpose" (JStr "operator-decision")));
    answer (on_operator (register_operator_enrollment cfg (q_op q) id pem operator purpose peer))
  else if String.eqb method "operator.enrollment.revoke" then
    do! id <- st_of (required "enrollment_id");
    answer (on_operator (revoke_operator_enrollment cfg (q_op q) id peer))
  else if String.eqb method "operator.enrollment.list" then
    answer (on_operator (list_operator_enrollments cfg peer))
  else if String.eqb method "operator.challenge.get" then
    do! id <- st_of (required "request_id");
    answer (on_operator (get_operator_challenge cfg (q_op q) id peer))
  else if String.eqb method "daemon.identity" then
    answer (st_ret (daemon_identity_dict cfg ident))
  else dispatch_action q method p peer.


(** ** One connection *)

(** The bytes sent, if any, and whether [request_shutdown] is called. *)
Record served := { sv_sent : option string; sv_shutdown : bool }.

Definition srv_of_wire (e : wire_exn) : srv_exn :=
  match e with
  | DaemonProtocolError code => Sv_control code
  | SocketError | WireRaised => Sv_other
  | WireUnmodelled | WireExhausted => Sv_unmodelled
  end.

(** [make_response] with one of its arguments, which does not raise. *)
Definition response (id : string) (res err : option (dict json)) : dict json :=
  match make_response id res err with Ok d => d | Err _ => [] end.

Definition error_response (id code message : string) : dict json :=
  response id None (Some [("code", JStr code); ("message", JStr message)]).

(** The response to the request [id], and whether to shut down; [None] outside the
    model. *)
Definition reply_of q (id : string) (r : R (dict json * bool)) : option (dict json * bool) :=
  match r with
  | Ok (d, shutdown) => Some (response id (Some d) None, shutdown)
  | Err (Sv_control code) => Some (error_response id code (q_message q code), false)
  | Err Sv_other =>
      Some (error_response id "INTERNAL_ERROR" "rosclawd failed to process the request", false)
  | Err Sv_unmodelled => None
  end.

(** [send_frame]: a response that does not fit in a frame or is not JSON is not
    sent; another exception leaves [_handle_client]. *)
Definition send_response q (d : dict json) (shutdown : bool) : served :=
  match encode_frame (JObj d) MAX_FRAME_BYTES with
  | Ok bytes => {| sv_sent := if q_sends q then Some bytes else None; sv_shutdown := shutdown |}
  | Err (DaemonProtocolError _) => {| sv_sent := None; sv_shutdown := shutdown |}
  | Err _ => {| sv_sent := None; sv_shutdown := false |}
  end.

(** [_handle_client] for an authenticated peer. *)
Definition handle_client q peer (k : conn) s : daemon * option served :=
  let '(s', reply) :=
    match (receive_request k).2 with
    | Err e => (s, reply_of q "unknown" (Err (srv_of_wire e)))
    | Ok rq => let '(s', r) := dispatch q (rq_method rq) (rq_params rq) peer s in
               (s', reply_of q (rq_id rq) r)
    end in
  (s', match reply with Some (d, shutdown) => Some (send_response q d shutdown) | None => None end).

(** ** Every request is a sequence of steps *)

(** What is left of one handler when its parameters are read. *)
Lemma of_bind {A B} (r : R A) (f : A -> M B) s :
  st_bind (st_of r) f s = match r with Ok x => f x s | Err e => (s, Err e) end.
Proof. unfold st_bind, st_of. by destruct r. Qed.

Lemma answer_state (m : M (dict json)) s : (answer m s).1 = (m s).1.
Proof. unfold answer, st_bind, st_ret. by destruct (m s) as [? [?|?]]. Qed.

Lemma serve_state {A} (m : st daemon cp_exn A) s : (serve m s).1 = (m s).1.
Proof. unfold serve. by destruct (m s). Qed.

Lemma base_state {A} (m : st (plane X L) cp_exn A) s :
  (on_base m s).1 = set_plane (set_base (m (base (dm_plane s))).1 (dm_plane s)) s.
Proof.
  unfold on_base. rewrite serve_state. unfold on_plane, lift.
  by destruct (m (base (dm_plane s))).
Qed.

Lemma operator_state {A} (m : st (oplane X L) cp_exn A) s :
  (on_operator m s).1 = set_plane (m (dm_plane s)).1 s.
Proof. unfold on_operator. rewrite serve_state. unfold on_plane. by destruct (m (dm_plane s)). Qed.

(** *** The methods of the control plane *)

Abbreviation csteps := (@rtc (plane X L) (cstep cfg)).

(** A clock at which a permit's lifetime can be added. *)
Definition issues_ok (w : io Env) : Prop :=
  forall n t, 1000000 <= t <= 300000000 -> dt_wf (dt_add (clock w n) t).

Lemma permit_request_ttl a target ttl (b : plane X L) :
  (permit_request_ok a target ttl b).2 = Ok tt -> 1000000 <= float_us ttl <= 300000000.
Proof.
  unfold permit_request_ok, guard, st_guard, st_bind, raise, st_raise, st_ret.
  destruct (0 <=? target); [|done].
  destruct (is_finite ttl && float_le MIN_OPERATOR_PERMIT_TTL_SEC ttl
            && float_le ttl MAX_OPERATOR_PERMIT_TTL_SEC) eqn:E; [|done]. intros _. breflect.
  match goal with Hf : is_finite ttl = true |- _ =>
    destruct (float_us_bounds _ 1 Hf) as [_ Hlo]; destruct (float_us_bounds _ 300 Hf) as [Hhi _] end.
  split; [apply Hlo|apply Hhi]; assumption.
Qed.

Lemma steps_issue_checked w a principal target ttl reason operator context :
  issues_ok w -> storable a ->
  keeps csteps (issue_permit_core cfg w a principal target ttl reason operator context).
Proof.
  intros Hc Ha. unfold issue_permit_core, require_running, check_reason, check_identifier.
  do 3 (apply keeps_bind; [apply _|keeps_go|intros ?]).
  apply keeps_bind_ok; [apply _|unfold permit_request_ok; keeps_go|intros [] [b Hb]].
  apply permit_request_ttl in Hb. keeps_go.
  - apply keeps_session. intros m. apply s_require.
  - apply keeps_step. intros s. apply c_issue. unfold dt_min. case_match; [|by apply Hc].
    by eapply sa_deadline.
Qed.

(** What a request needs of the world: a peer of the system, clocks far from the
    end of time, an unused identifier for a new proposal. *)
Record fair q peer s : Prop := {
  fw_peer : peer_ok peer;
  fw_now : forall t, 0 <= t <= 3600000000 -> dt_wf (dt_add (q_now q) t);
  fw_issue : issues_ok (q_io q);
  fw_decide : world_ok (q_op q);
  fw_fresh : Consent.find (dm_plane s) ("proposal_" +:+ cr_uuid (o_creation (q_op q))) = None;
}.

Abbreviation dsteps := (@rtc daemon (daemon_step cfg ident)).

Lemma base_steps {A} (m : st (plane X L) cp_exn A) s : keeps csteps m -> dsteps s (on_base m s).1.
Proof.
  intros Hm. rewrite base_state. apply plane_daemon_steps, csteps_osteps, Hm.
Qed.

Lemma operator_steps {A} (m : st (oplane X L) cp_exn A) s :
  ostep cfg ident (dm_plane s) (m (dm_plane s)).1 -> dsteps s (on_operator m s).1.
Proof. intros Hm. rewrite operator_state. by apply rtc_once, d_plane. Qed.

Lemma serve_steps {A} (m : st daemon cp_exn A) s : keeps dsteps m -> dsteps s (serve m s).1.
Proof. intros Hm. rewrite serve_state. apply Hm. Qed.

Lemma session_steps (m : st (plane X L) cp_exn AgentSession) : keeps csteps m -> keeps csteps (session_reply m).
Proof. intros Hm. unfold session_reply. keeps_go. exact Hm. Qed.

Lemma steps_issue_reply w a principal target ttl reason peer :
  issues_ok w -> storable a -> keeps csteps (issue_reply cfg w a principal target ttl reason peer).
Proof.
  intros Hw Ha. unfold issue_reply, issue_execution_permit, require_daemon_uid. keeps_go.
  - by apply steps_issue_checked.
  - intros b. unfold of_session. by destruct b.
Qed.

Lemma steps_read_session id peer : keeps csteps (cp_get_session (X := X) (L := L) id peer).
Proof. intros b. unfold cp_get_session, of_session. by destruct b. Qed.

(** [get_runtime_status] expires proposals and may find the ledger failed. *)
Lemma steps_runtime_status e (w : io Env) (d : dio Env) peer : keeps dsteps (get_runtime_status cfg e w d peer).
Proof.
  unfold get_runtime_status. keeps_go.
  - intros s. unfold on_plane, of_store.
    pose proof (o_expire cfg ident (dm_plane s) (clock w 1)) as Ho.
    destruct (store_status (clock w 1) (props (dm_plane s))) as [q counts]. by apply rtc_once, d_plane.
  - apply keeps_lifted. unfold ledger_status_locked. keeps_go. intros b. apply rtc_once, c_mark.
Qed.

(** One branch of the dispatch: its parameters, then its handler. *)
Ltac branch :=
  repeat (rewrite of_bind; match goal with
    |- rtc _ _ (match ?r with Ok _ => _ | Err _ => _ end).1 => destruct r eqn:?; [|reflexivity] end);
  try (rewrite answer_state).

Ltac next_method := match goal with |- rtc _ _ ((if ?b then _ else _) _).1 => destruct b; [branch|] end.

Lemma dispatch_action_steps q method p peer s : fair q peer s -> dsteps s (dispatch_action q method p peer s).1.
Proof.
  intros [Hpeer Hnow Hissue _ _]. unfold dispatch_action. cbv zeta.
  next_method.
  { apply base_steps, steps_request; [|done]. by eapply required_action_storable. }
  next_method; [apply base_steps, steps_status|].
  next_method; [apply base_steps, steps_receipt|].
  next_method; [apply base_steps, steps_cancel|].
  next_method; [apply base_steps; unfold renew_reply; keeps_go; apply steps_renew|].
  next_method; [apply base_steps, session_steps, steps_create_session|].
  next_method; [apply base_steps, session_steps, steps_heartbeat|].
  next_method; [apply base_steps, session_steps, steps_read_session|].
  next_method; [apply base_steps, session_steps, steps_close_session|].
  next_method; [apply serve_steps, keeps_worker_status|].
  next_method; [apply serve_steps, keeps_control|].
  next_method; [apply base_steps, steps_emergency|reflexivity].
Qed.

Lemma dispatch_steps q method p peer s : fair q peer s -> dsteps s (dispatch q method p peer s).1.
Proof.
  intros Hf. pose proof Hf as [Hpeer Hnow Hissue Hdecide Hfresh]. unfold dispatch. cbv zeta.
  unfold st_bind at 1, st_guard. destruct (bool_decide _); [|reflexivity]. cbn [st_ret].
  next_method; [apply serve_steps, steps_runtime_status|].
  next_method; [apply base_steps; unfold arm_reply; keeps_go; apply steps_arm|].
  next_method; [apply base_steps; unfold disarm_reply; keeps_go; apply steps_disarm|].
  next_method; [apply base_steps; unfold acknowledge_reply; keeps_go; apply steps_acknowledge|].
  next_method; [unfold st_bind, st_guard; by destruct (_ =? _)|].
  next_method; [apply base_steps, steps_issue_reply; [done|]; by eapply required_action_storable|].
  next_method; [apply operator_steps, o_create; [|done..]; by eapply required_action_storable|].
  next_method; [apply operator_steps, o_get|].
  next_method; [apply operator_steps, o_cancel|].
  next_method; [apply operator_steps, o_list|].
  next_method; [by apply operator_steps, o_decide|].
  next_method; [apply operator_steps, o_register|].
  next_method; [apply operator_steps, o_revoke|].
  next_method; [apply operator_steps, o_enrollments|].
  next_method; [apply operator_steps, o_challenge|].
  next_method; [reflexivity|]. by apply dispatch_action_steps.
Qed.

(** ** What a connection can do *)

Lemma handle_state q peer k s :
  (handle_client q peer k s).1 =
  match (receive_request k).2 with
  | Ok rq => (dispatch q (rq_method rq) (rq_params rq) peer s).1
  | Err _ => s
  end.
Proof.
  unfold handle_client. destruct (receive_request k).2 as [rq|e]; [|done]. by destruct (dispatch _ _ _ _ s).
Qed.

(** The daemon's steps are the control plane's and the manager's. *)
Lemma dsteps_parts s s' : dsteps s s' ->
  rtc (ostep cfg ident) (dm_plane s) (dm_plane s') /\ rtc wstep (dm_workers s) (dm_workers s').
Proof.
  induction 1 as [s|s s1 s2 Hs _ [IHo IHw]]; [done|]. destruct Hs as [s o Ho|s v Hv]; cbn in *.
  - split; [by eapply rtc_l|done].
  - split; [done|by eapply rtc_l].
Qed.

(** Methods only the daemon's own user may call. *)
Definition privileged : list string :=
  ["runtime.arm"; "runtime.disarm"; "runtime.recovery.acknowledge"; "runtime.shutdown"; "permit.issue";
   "operator.enrollment.register"; "operator.enrollment.revoke"; "operator.enrollment.list";
   "worker.start"; "worker.stop"; "worker.restart"].

Definition denied {St A} (m : st St cp_exn A) : Prop :=
  forall b, m b = (b, Err (ControlPlaneError "PERMISSION_DENIED")).

Lemma denied_bind {St A B} (m : st St cp_exn A) (f : A -> st St cp_exn B) : denied m -> denied (st_bind m f).
Proof. intros Hm b. unfold st_bind. by rewrite Hm. Qed.

Lemma denied_lift {A} (m : st (plane X L) cp_exn A) : denied m -> denied (lift m).
Proof. intros Hm [b q g]. unfold lift. cbn. by rewrite Hm. Qed.

Lemma denied_plane {A} (m : st (oplane X L) cp_exn A) : denied m -> denied (on_plane m).
Proof. intros Hm [o v]. unfold on_plane. cbn. by rewrite Hm. Qed.

Lemma denied_serve (m : st daemon cp_exn (dict json)) s : denied m ->
  exists e, answer (serve m) s = (s, Err e).
Proof. intros Hm. exists (Sv_control "PERMISSION_DENIED"). unfold answer, serve, st_bind. by rewrite Hm. Qed.

Lemma require_denied peer : uid peer <> c_euid cfg -> denied (require_daemon_uid (X := X) (L := L) cfg peer).
Proof. intros Hu%Z.eqb_neq b. unfold require_daemon_uid, guard, st_guard. by rewrite Hu. Qed.

(** One branch of a privileged method: a parameter is refused, or the caller is. *)
Ltac refused :=
  repeat (rewrite of_bind; match goal with
    |- exists e, (match ?r with Ok _ => _ | Err _ => _ end) = _ =>
      destruct r as [?|?]; [|eexists; reflexivity] end).

Lemma privileged_denied q method p peer s : uid peer <> c_euid cfg -> method ∈ privileged ->
  exists e, dispatch q method p peer s = (s, Err e).
Proof.
  intros Hu Hm. pose proof (require_denied peer Hu) as Hd.
  assert (Hc : forall d d' op id, denied (control_worker cfg d d' op id peer))
    by (intros; by apply denied_bind, denied_plane, denied_lift).
  unfold privileged in Hm. rewrite !elem_of_cons, elem_of_nil in Hm.
  unfold dispatch. cbv zeta.
  repeat destruct Hm as [->|Hm]; try done;
    match goal with |- context [bool_decide ?P] => change (bool_decide P) with true end;
    unfold st_bind at 1; unfold st_guard at 1; cbn [st_ret]; unfold st_ret at 1;
    cbn [String.eqb Ascii.eqb Bool.eqb].
  all: unfold dispatch_action; cbv zeta; cbn [String.eqb Ascii.eqb Bool.eqb orb].
  all: refused.
  all: try (apply denied_serve).
  9-11: apply Hc.
  6-8: apply denied_plane, denied_bind, denied_lift, Hd.
  - by do 2 (apply denied_plane || apply denied_lift); do 2 apply denied_bind.
  - by do 2 (apply denied_plane || apply denied_lift); do 2 apply denied_bind.
  - apply denied_plane, denied_lift. intros b. unfold acknowledge_reply, st_bind, st_get.
    unfold acknowledge_recovery, guard, st_guard, st_bind. by rewrite (proj2 (Z.eqb_neq _ _) Hu).
  - unfold st_bind, st_guard. rewrite (proj2 (Z.eqb_neq _ _) Hu). by eexists.
  - by do 2 (apply denied_plane || apply denied_lift); do 2 apply denied_bind.
Qed.

(** A peer that is not the daemon's own user changes nothing, and is answered
    with an error, when it calls a method that arms, disarms, issues permits, enrolls
    operators, acknowledges a recovery, controls workers or shuts down, whatever its
    parameters. *)
Theorem privileged_refused q peer k s rq :
  uid peer <> c_euid cfg -> (receive_request k).2 = Ok rq -> rq_method rq ∈ privileged ->
  (handle_client q peer k s).1 = s /\
  exists e, (handle_client q peer k s).2 =
    (d ← reply_of q (rq_id rq) (Err e); Some (send_response q d.1 false)).
Proof.
  intros Hu Hr Hm. destruct (privileged_denied q (rq_method rq) (rq_params rq) peer s Hu Hm) as [e He].
  unfold handle_client. rewrite Hr, He. split; [done|]. exists e. by destruct e.
Qed.

(** ** The protocol's methods

    What each method takes, who is its peer, and the handler it runs: the reference
    the dispatch is compared with. *)

Definition id_at p (k : string) (n : Z) (t : string) : Prop :=
  dget p k = Some (JStr t) /\ nonblank t = true /\ len t <= n.
Definition ids_at p (k : string) (l : list string) : Prop :=
  dget p k = Some (JList (JStr <$> l)) /\ l <> [] /\ Forall (fun t => nonblank t = true) l.
Definition int_at p (k : string) (z : Z) : Prop := dget p k = Some (JInt z).
Definition number_at p (k : string) (f : pyfloat) : Prop :=
  dget p k = Some (JFloat f) \/ exists z, dget p k = Some (JInt z) /\ float_of_int z = Ok f.
Definition action_at q p (a : ActionEnvelope) : Prop :=
  exists d, dget p "action" = Some (JObj d) /\ ActionEnvelope_from_dict (q_now q) (q_uuid q) (JObj d) = Ok a.
Definition object_at p (k : string) (d : dict json) : Prop := dget p k = Some (JObj d).
Definition text_or p (k dflt t : string) : Prop := py_str (default (JStr dflt) (dget p k)) = Ok t.
Definition reason_or p (dflt r : string) : Prop :=
  default (JStr dflt) (dget p "reason") = JStr r /\ nonblank r = true /\ len r <= 256.
Definition worker_at p (w : option string) : Prop :=
  match w with
  | Some id => id_at p "worker_id" 128 id
  | None => default JNull (dget p "worker_id") = JNull
  end.
Definition stop_within p : Prop :=
  exists f, (dget p "timeout_sec" = None /\ f = Fin 1 0 \/ number_at p "timeout_sec" f \/
             exists b : bool, dget p "timeout_sec" = Some (JBool b) /\ f = Fin (if b then 1 else 0) 0) /\
    float_le (Fin 0 0) f = true /\ float_le f (Fin 10 0) = true.

Inductive endpoint q p peer : string -> M (dict json) -> Prop :=
| e_status : endpoint q p peer "runtime.status" (serve (get_runtime_status cfg (q_status q) (q_io q) (q_worker q) peer))
| e_arm r : id_at p "reason" 1024 r -> endpoint q p peer "runtime.arm" (on_base (arm_reply cfg (q_io q) r peer))
| e_disarm r : id_at p "reason" 1024 r -> endpoint q p peer "runtime.disarm" (on_base (disarm_reply cfg (q_io q) r peer))
| e_acknowledge r : id_at p "reason" 1024 r ->
    endpoint q p peer "runtime.recovery.acknowledge" (on_base (acknowledge_reply cfg (q_io q) r peer))
| e_issue a principal target ttl r : action_at q p a -> id_at p "principal_id" 256 principal ->
    int_at p "target_peer_uid" target -> number_at p "expires_in_sec" ttl -> id_at p "reason" 1024 r ->
    endpoint q p peer "permit.issue" (on_base (issue_reply cfg (q_io q) a principal target ttl r peer))
| e_propose display a ttl reference : object_at p "display" display -> action_at q p a -> number_at p "ttl_sec" ttl ->
    reference_of p = Ok reference ->
    endpoint q p peer "operator.proposal.create"
      (on_operator (create_operator_proposal cfg (q_op q) a display ttl peer reference))
| e_proposal id : id_at p "request_id" 256 id ->
    endpoint q p peer "operator.proposal.status" (on_operator (get_operator_proposal cfg (q_op q) id peer))
| e_withdraw id : id_at p "request_id" 256 id ->
    endpoint q p peer "operator.proposal.cancel" (on_operator (cancel_operator_proposal cfg (q_op q) id peer))
| e_pending : endpoint q p peer "operator.proposal.pending" (on_operator (list_pending_operator_proposals cfg (q_op q) peer))
| e_decide id decision principal channel r : id_at p "request_id" 256 id -> id_at p "decision" 16 decision ->
    id_at p "principal_id" 256 principal -> id_at p "channel" 128 channel -> id_at p "reason" 1024 r ->
    endpoint q p peer "operator.proposal.decide"
      (on_operator (decide_operator_proposal cfg ident (q_op q) id decision principal channel r peer
                      match dget p "proof" with Some (JObj d) => d | _ => [] end))
| e_enroll id pem operator purpose : id_at p "enrollment_id" 256 id -> text_or p "public_key_pem" "" pem ->
    int_at p "operator_uid" operator -> text_or p "purpose" "operator-decision" purpose ->
    endpoint q p peer "operator.enrollment.register"
      (on_operator (register_operator_enrollment cfg (q_op q) id pem operator purpose peer))
| e_revoke id : id_at p "enrollment_id" 256 id ->
    endpoint q p peer "operator.enrollment.revoke" (on_operator (revoke_operator_enrollment cfg (q_op q) id peer))
| e_enrollments : endpoint q p peer "operator.enrollment.list" (on_operator (list_operator_enrollments cfg peer))
| e_challenge id : id_at p "request_id" 256 id ->
    endpoint q p peer "operator.challenge.get" (on_operator (get_operator_challenge cfg (q_op q) id peer))
| e_identity : endpoint q p peer "daemon.identity" (st_ret (daemon_identity_dict cfg ident))
| e_request a : action_at q p a -> endpoint q p peer "action.request" (on_base (request_action cfg (q_io q) a peer))
| e_job id : id_at p "action_id" 256 id ->
    endpoint q p peer "action.status" (on_base (get_action_status cfg (q_io q) id (Some peer)))
| e_receipt id : id_at p "action_id" 256 id ->
    endpoint q p peer "action.receipt" (on_base (get_execution_receipt cfg (q_io q) id (Some peer)))
| e_cancel id : id_at p "action_id" 256 id ->
    endpoint q p peer "action.cancel" (on_base (cancel_action cfg (q_io q) id (Some peer)))
| e_renew id session : id_at p "action_id" 256 id -> id_at p "session_id" 256 session ->
    endpoint q p peer "action.lease.renew" (on_base (renew_reply cfg (q_io q) id session peer))
| e_session session actor framework bodies capabilities ttl : id_at p "session_id" 256 session ->
    id_at p "actor_id" 256 actor -> id_at p "agent_framework" 256 framework -> ids_at p "body_scope" bodies ->
    ids_at p "capability_scope" capabilities -> int_at p "ttl_ms" ttl ->
    endpoint q p peer "session.create"
      (on_base (session_reply (cp_create_session (q_io q) session actor framework bodies capabilities ttl peer)))
| e_heartbeat session : id_at p "session_id" 256 session ->
    endpoint q p peer "session.heartbeat" (on_base (session_reply (heartbeat_session (q_io q) session peer)))
| e_look session : id_at p "session_id" 256 session ->
    endpoint q p peer "session.status" (on_base (session_reply (cp_get_session session peer)))
| e_close session r : reason_or p "client_closed" r -> id_at p "session_id" 256 session ->
    endpoint q p peer "session.close" (on_base (session_reply (cp_close_session (q_io q) session r peer)))
| e_workers w : worker_at p w -> endpoint q p peer "worker.status" (serve (get_worker_status (q_worker q) w))
| e_start w : id_at p "worker_id" 128 w ->
    endpoint q p peer "worker.start" (serve (control_worker cfg (q_worker q) (q_restart q) "start" w peer))
| e_halt w : id_at p "worker_id" 128 w ->
    endpoint q p peer "worker.stop" (serve (control_worker cfg (q_worker q) (q_restart q) "stop" w peer))
| e_restart w : id_at p "worker_id" 128 w ->
    endpoint q p peer "worker.restart" (serve (control_worker cfg (q_worker q) (q_restart q) "restart" w peer))
| e_stop r source : id_at p "reason" 1024 r -> text_or p "source" "rosclawd.client" source -> stop_within p ->
    endpoint q p peer "safety.emergency_stop" (on_base (emergency_stop (q_io q) (prefix_of 128 source) peer)).

(** The parsers of the parameters accept what the protocol does, and nothing else. *)
Definition reads {A} (r : R A) (P : A -> Prop) : Prop :=
  (exists x, r = Ok x /\ P x) \/ ((exists e, r = Err e) /\ forall x, ~ P x).

Lemma reads_id p k n : reads (required_id p k n) (id_at p k n).
Proof.
  unfold reads, required_id, text_at, id_at. destruct (dget p k) as [[| | | |t| |]|]; simpl;
    try (right; split; [by eexists|by intros ? [? _]]).
  destruct (nonblank t && (len t <=? n)) eqn:E; simpl.
  - breflect. left. by exists t.
  - right. split; [by eexists|]. intros x ([= <-] & Hb & Hl). rewrite Hb in E. breflect. lia.
Qed.

Lemma reads_ids p k : reads (required_string_list p k) (ids_at p k).
Proof.
  unfold reads, required_string_list, ids_at. destruct (dget p k) as [[| | | | |l|]|];
    try (right; split; [by eexists|by intros ? [? _]]).
  assert (Hf : forall x, l = JStr <$> x -> mapM as_str l = Some x).
  { intros x ->. induction x as [|t x IH]; [done|]. cbn. by rewrite IH. }
  case_bool_decide as Hn; simpl.
  { right. split; [by eexists|]. intros x ([= ->] & Hne & _). by apply fmap_nil_inv in Hn. }
  destruct (mapM as_str l) as [x|] eqn:E; simpl.
  2: { right. split; [by eexists|]. intros x ([= Hx] & _). apply Hf in Hx. congruence. }
  assert (Hl : l = JStr <$> x).
  { apply mapM_Some in E. clear -E. induction E as [|j t l x Hj _ IH]; [done|]. cbn. destruct j; try done.
    cbn in Hj. injection Hj as ->. by f_equal. }
  destruct (forallb nonblank x) eqn:Eb; simpl.
  - left. exists x. split; [done|]. split; [by rewrite Hl|]. split; [by intros ->|]. apply Forall_forall.
    intros t Ht. apply list_elem_of_In in Ht. by apply (proj1 (forallb_forall _ _) Eb).
  - right. split; [by eexists|]. intros y ([= Hy] & _ & Ht). apply Hf in Hy. assert (y = x) as -> by congruence.
    apply not_true_iff_false in Eb. apply Eb, forallb_forall. intros t Hin. rewrite Forall_forall in Ht.
    by apply Ht, list_elem_of_In.
Qed.

Lemma reads_int p k : reads (required_int p k) (int_at p k).
Proof.
  unfold reads, required_int, int_at. destruct (dget p k) as [[]|];
    try (right; split; [by eexists|by intros ?]). left. by eexists.
Qed.

Lemma reads_number p k : reads (required_number p k) (number_at p k).
Proof.
  unfold reads, required_number, number_at. destruct (dget p k) as [[]|];
    try (right; split; [by eexists|by intros ? [?|(? & ? & _)]]).
  - destruct (float_of_int z) as [f|e] eqn:E; [left; eauto 6|]. right. split; [by eexists|].
    intros x [?|(z' & [= ->] & ?)]; congruence.
  - left. eauto.
Qed.

Lemma reads_action q p : reads (required_action (q_now q) (q_uuid q) p) (action_at q p).
Proof.
  unfold reads, required_action, action_at. destruct (dget p "action") as [[| | | | | |d]|];
    try (right; split; [by eexists|by intros ? (? & ? & _)]).
  destruct (ActionEnvelope_from_dict _ _ _) as [a|e] eqn:E; simpl; [left; eauto 6|].
  right. split; [by eexists|]. intros x (d' & [= <-] & Hx). congruence.
Qed.

Lemma reads_object p k : reads (of_option (dget p k ≫= as_obj) invalid) (object_at p k).
Proof.
  unfold reads, object_at. destruct (dget p k) as [[]|]; simpl;
    try (right; split; [by eexists|by intros ?]). left. by eexists.
Qed.

Lemma reads_text p k dflt : reads (text_of (get_default p k (JStr dflt))) (text_or p k dflt).
Proof.
  unfold reads, text_of, text_or, get_default.
  destruct (py_str _) as [t|e] eqn:E; simpl; [left; eauto|]. right. split; [by eexists|]. intros x. congruence.
Qed.

Lemma reads_close p : reads (close_reason p) (reason_or p "client_closed").
Proof.
  unfold reads, close_reason, reason_or.
  assert (Hd : get_default p "reason" (JStr "client_closed") = default (JStr "client_closed") (dget p "reason"))
    by (unfold get_default; by destruct (dget p "reason")).
  rewrite Hd. destruct (default _ (dget p "reason")) as [| | | |t| |]; simpl;
    try (right; split; [by eexists|by intros ? [? _]]).
  destruct (nonblank t && (len t <=? 256)) eqn:E; simpl.
  - breflect. left. by exists t.
  - right. split; [by eexists|]. intros x ([= <-] & Hb & Hl). rewrite Hb in E. breflect. lia.
Qed.

Lemma reads_worker p : reads (worker_of p) (worker_at p).
Proof.
  unfold worker_of, get_default. destruct (reads_id p "worker_id" 128) as [(t & E & Hid)|[[e E] Hn]].
  - unfold id_at in Hid. rewrite (proj1 Hid). simpl. rewrite E. left. by exists (Some t).
  - destruct (dget p "worker_id") as [j|] eqn:Ej; simpl; [|left; exists None; split; [done|]; simpl; by rewrite Ej].
    destruct j; [left; exists None; split; [done|]; simpl; by rewrite Ej|..];
      rewrite E; right; (split; [by eexists|]); intros [id|]; simpl; rewrite ?Ej; try done; apply Hn.
Qed.

Lemma reads_reference p : reads (reference_of p) (fun r => reference_of p = Ok r).
Proof. destruct (reference_of p) as [r|e]; [left; eauto|]. right. split; [by eexists|]. intros x. congruence. Qed.

Lemma reads_stop p : reads (stop_timeout p) (fun _ => stop_within p).
Proof.
  assert (Hf : forall f, (forall g, (dget p "timeout_sec" = None /\ g = Fin 1 0 \/ number_at p "timeout_sec" g \/
      (exists b : bool, dget p "timeout_sec" = Some (JBool b) /\ g = Fin (if b then 1 else 0) 0)) <-> g = f) ->
    reads (guard! float_le (Fin 0 0) f && float_le f (Fin 10 0) else Sv_control "INVALID_TIMEOUT" in Ok f)
      (fun _ => stop_within p)).
  { intros f Hf. destruct (float_le (Fin 0 0) f && float_le f (Fin 10 0)) eqn:E; simpl.
    - breflect. left. exists f. split; [done|]. exists f. split; [by apply Hf|done].
    - right. split; [by eexists|]. intros _ (g & Hg%Hf & H1 & H2). subst g. by rewrite H1, H2 in E. }
  assert (Hn : (forall g, ~ (dget p "timeout_sec" = None /\ g = Fin 1 0 \/ number_at p "timeout_sec" g \/
      (exists b : bool, dget p "timeout_sec" = Some (JBool b) /\ g = Fin (if b then 1 else 0) 0))) ->
    forall e, reads (Err e) (fun _ : pyfloat => stop_within p)).
  { intros Hn e. right. split; [by eexists|]. intros _ (g & Hg & _). by apply (Hn g). }
  unfold stop_timeout, get_default. unfold number_at in *.
  destruct (dget p "timeout_sec") as [[|b|z|f| | |]|]; simpl; try (apply Hn; naive_solver).
  - apply Hf. naive_solver.
  - destruct (float_of_int z) as [f|e] eqn:E; simpl.
    + apply Hf. intros g. split; [|by intros ->; eauto 8].
      intros [[? _]|[[?|(z' & [= <-] & ?)]|(b & ? & _)]]; congruence.
    + apply Hn. intros g [[? _]|[[?|(z' & [= <-] & ?)]|(b & ? & _)]]; congruence.
  - apply Hf. naive_solver.
  - apply (Hf (Fin 1 0)). naive_solver.
Qed.

(** The outcome of a dispatched request: the handler of the method's endpoint on the
    request's parameters and the connection's own peer, or nothing but an error. *)
Definition routed q (method : string) p peer s (out : daemon * R (dict json * bool)) : Prop :=
  (exists m, endpoint q p peer method m /\
     out = ((m s).1, match (m s).2 with Ok d => Ok (d, false) | Err e => Err e end)) \/
  (method = "runtime.shutdown" /\ uid peer = c_euid cfg /\ out = (s, Ok ([("shutdown_requested", JBool true)], true))) \/
  ((forall m, ~ endpoint q p peer method m) /\ (method = "runtime.shutdown" -> uid peer <> c_euid cfg) /\
   exists e, out = (s, Err e) /\ (method ∉ ALLOWED_METHODS -> e = Sv_control "METHOD_NOT_ALLOWED")).

Lemma answer_runs (m : M (dict json)) s :
  answer m s = ((m s).1, match (m s).2 with Ok d => Ok (d, false) | Err e => Err e end).
Proof. unfold answer, st_bind, st_ret. by destruct (m s) as [s' [d|e]]. Qed.

Lemma routed_answer q method p peer s m : endpoint q p peer method m -> routed q method p peer s (answer m s).
Proof. intros He. left. exists m. split; [exact He|apply answer_runs]. Qed.

Lemma routed_refused q method p peer s e :
  method ∈ ALLOWED_METHODS -> method <> "runtime.shutdown" -> (forall m, ~ endpoint q p peer method m) ->
  routed q method p peer s (s, Err e).
Proof. intros Ha Hs Hn. right. right. split; [exact Hn|]. split; [done|]. exists e. by split. Qed.

Lemma endpoint_allowed q p peer method m : endpoint q p peer method m -> method ∈ ALLOWED_METHODS.
Proof.
  intros He. by destruct He; apply (bool_decide_unpack _); vm_compute.
Qed.

(** One parameter of a method: read as the protocol says, or refused. *)
Ltac refuse_with Hno :=
  apply routed_refused; [by apply (bool_decide_unpack _); vm_compute|done|];
  let m := fresh "m" in let He := fresh "He" in intros m He; inversion He; subst; try done;
  try (eapply Hno; eassumption);
  try match goal with Hs : stop_within _ |- _ => exact (Hno (Fin 0 0) Hs) end.

Ltac take_param R :=
  let x := fresh "x" in let E := fresh "E" in let Hx := fresh "Hx" in let Hno := fresh "Hno" in
  rewrite of_bind; destruct R as [(x & E & Hx)|[[x E] Hno]]; rewrite E; [|refuse_with Hno].

Ltac take_params :=
  repeat match goal with |- routed _ _ _ _ _ (st_bind (st_of ?r) _ _) =>
    match r with
    | required_id ?p ?k ?n => take_param (reads_id p k n)
    | required_string_list ?p ?k => take_param (reads_ids p k)
    | required_int ?p ?k => take_param (reads_int p k)
    | required_number ?p ?k => take_param (reads_number p k)
    | required_action (q_now ?q) (q_uuid ?q) ?p => take_param (reads_action q p)
    | of_option (dget ?p ?k ≫= as_obj) invalid => take_param (reads_object p k)
    | text_of (get_default ?p ?k (JStr ?d)) => take_param (reads_text p k d)
    | close_reason ?p => take_param (reads_close p)
    | worker_of ?p => take_param (reads_worker p)
    | reference_of ?p => take_param (reads_reference p)
    | stop_timeout ?p => take_param (reads_stop p)
    end end.

Lemma dispatch_routed q method p peer s : routed q method p peer s (dispatch q method p peer s).
Proof.
  destruct (decide (method ∈ ALLOWED_METHODS)) as [Hm|Hm].
  2: { right. right. split; [intros m He; by apply endpoint_allowed in He|].
       split; [intros ->; exfalso; by apply Hm, (bool_decide_unpack _); vm_compute|].
       exists (Sv_control "METHOD_NOT_ALLOWED"). split; [|done].
       unfold dispatch. cbv zeta. unfold st_bind at 1, st_guard. by rewrite bool_decide_eq_false_2. }
  assert (Hd : forall X0 (k : M X0), (st_bind (st_guard true (Sv_control "METHOD_NOT_ALLOWED")) (fun _ => k)) s = k s) by done.
  unfold dispatch. cbv zeta. rewrite bool_decide_eq_true_2 by done. rewrite Hd.
  unfold ALLOWED_METHODS in Hm. rewrite !elem_of_cons, elem_of_nil in Hm.
  repeat destruct Hm as [->|Hm]; try done;
    unfold dispatch_action; cbv zeta; cbn [String.eqb Ascii.eqb Bool.eqb orb].
  all: take_params.
  all: try (apply routed_answer; econstructor; eassumption).
  - unfold st_bind, st_guard. destruct (Z.eqb_spec (uid peer) (c_euid cfg)) as [Hu|Hu].
    + right. left. by split_and!.
    + right. right. split; [intros m He; by inversion He|]. split; [done|].
      eexists. split; [reflexivity|]. intros Hn. exfalso. by apply Hn, (bool_decide_unpack _); vm_compute.
  - apply routed_answer.
    replace (default [] (dget p "proof" ≫= as_obj)) with (match dget p "proof" with Some (JObj d) => d | _ => [] end)
      by (by destruct (dget p "proof") as [[]|]).
    by econstructor.
Qed.

(** C33: whatever bytes a peer sends, a connection runs at most the one handler the
    protocol names for the request's method, on the parameters the request carries as the
    protocol types them and as the connection's own peer, and replies with its outcome.
    Bytes that are no request, a method that is not listed, parameters that do not
    fit, and a shutdown asked by another user than the daemon's change nothing and are
    refused; so is every privileged method of another user. The handler is a sequence of
    the daemon's steps: it moves the control plane and the workers only as their own
    interleaving semantics does, and keeps the proposal store and the worker table sound. *)
Theorem connection_steps q peer k s :
  oinv (dm_plane s) -> table_inv (dm_workers s) -> fair q peer s ->
  let s' := (handle_client q peer k s).1 in
  match (receive_request k).2 with
  | Err e => s' = s
  | Ok rq => exists r, routed q (rq_method rq) (rq_params rq) peer s (s', r) /\
      (handle_client q peer k s).2 =
        (d ← reply_of q (rq_id rq) r; Some (send_response q d.1 d.2)) /\
      (uid peer <> c_euid cfg -> rq_method rq ∈ privileged -> s' = s /\ exists e, r = Err e)
  end /\
  dsteps s s' /\ csteps (base (dm_plane s)) (base (dm_plane s')) /\
  oinv (dm_plane s') /\ table_inv (dm_workers s').
Proof.
  intros Hi Ht Hf s'. split.
  { subst s'. unfold handle_client. destruct (receive_request k).2 as [rq|e]; [|done].
    pose proof (dispatch_routed q (rq_method rq) (rq_params rq) peer s) as Hd.
    pose proof (privileged_denied q (rq_method rq) (rq_params rq) peer s) as Hp.
    destruct (dispatch q (rq_method rq) (rq_params rq) peer s) as [s1 r]. cbn [fst snd]. exists r.
    split; [exact Hd|]. split; [by destruct (reply_of _ _ _) as [[]|]|].
    intros Hu Hm. destruct (Hp Hu Hm) as [e [= -> ->]]. split; [done|by eexists]. }
  assert (Hs : dsteps s s').
  { subst s'. rewrite handle_state. destruct (receive_request k).2 as [rq|e]; [|reflexivity].
    by apply dispatch_steps. }
  split; [exact Hs|]. destruct (dsteps_parts _ _ Hs) as [Ho Hw].
  destruct (osteps_inv _ _ _ _ Hi Ho) as [Hi' Hc]. split; [exact Hc|]. split; [exact Hi'|].
  eapply reach_inv; [exact Ht| |exact Hw]. apply table_inv_step.
Qed.

Definition stays (r : daemon * R (dict json * bool)) : Prop :=
  match r.2 with Ok (_, shutdown) => shutdown = false | Err _ => True end.

Lemma answer_stays (m : M (dict json)) s : stays (answer m s).
Proof. unfold answer, st_bind, st_ret. by destruct (m s) as [? [?|?]]. Qed.

Ltac stay :=
  repeat (rewrite of_bind; match goal with
    |- stays (match ?r with Ok _ => _ | Err _ => _ end) => destruct r; [|exact I] end);
  try (apply answer_stays).

Lemma dispatch_action_stays q method p peer s : stays (dispatch_action q method p peer s).
Proof.
  unfold dispatch_action. cbv zeta.
  repeat match goal with |- stays ((if ?b then _ else _) _) => destruct b; [stay|] end. exact I.
Qed.

Lemma dispatch_stays q method p peer s : method <> "runtime.shutdown" -> stays (dispatch q method p peer s).
Proof.
  intros Hm. unfold dispatch. cbv zeta. unfold st_bind at 1, st_guard. destruct (bool_decide _); [|exact I].
  cbn [st_ret]. unfold st_ret at 1.
  repeat match goal with
    | |- stays ((if String.eqb method "runtime.shutdown" then _ else _) _) =>
        rewrite (proj2 (String.eqb_neq _ _) Hm)
    | |- stays ((if ?b then _ else _) _) => destruct b; [stay|] end.
  apply dispatch_action_stays.
Qed.

Lemma dispatch_shutdown q p peer s :
  dispatch q "runtime.shutdown" p peer s =
  (s, if uid peer =? c_euid cfg then Ok ([("shutdown_requested", JBool true)], true)
      else Err (Sv_control "PERMISSION_DENIED")).
Proof.
  unfold dispatch. cbv zeta. unfold st_bind at 1, st_guard at 1.
  match goal with |- context [bool_decide ?P] => change (bool_decide P) with true end.
  cbn [st_ret String.eqb Ascii.eqb Bool.eqb]. unfold st_ret at 1, st_bind, st_guard. by destruct (_ =? _).
Qed.

Lemma send_stops q d b : sv_shutdown (send_response q d b) = true -> b = true.
Proof. unfold send_response. by destruct (encode_frame _ _) as [|[]]. Qed.

Lemma reply_stops q id r d : reply_of q id r = Some (d, true) -> exists x, r = Ok (x, true).
Proof. destruct r as [[x b]|[code| |]]; [|done..]. intros [= _ ->]. by exists x. Qed.

(** The daemon is told to shut down only by a request for it from its own user,
    which changes nothing else. *)
Theorem shutdown_authorized q peer k s s' out :
  handle_client q peer k s = (s', Some out) -> sv_shutdown out = true ->
  uid peer = c_euid cfg /\ s' = s /\
  exists rq, (receive_request k).2 = Ok rq /\ rq_method rq = "runtime.shutdown".
Proof.
  unfold handle_client. intros Ho Hs.
  destruct (match (receive_request k).2 with Ok _ => _ | Err _ => _ end) as [s1 reply] eqn:E.
  destruct reply as [[d b]|]; [|done]. injection Ho as <- <-. apply send_stops in Hs as ->.
  destruct (receive_request k).2 as [rq|e].
  2: { injection E as _ E. by destruct (srv_of_wire e). }
  destruct (dispatch q (rq_method rq) (rq_params rq) peer s) as [s2 r] eqn:Ed. injection E as <- E.
  apply reply_stops in E as [x ->].
  destruct (decide (rq_method rq = "runtime.shutdown")) as [Hm|Hm].
  - rewrite Hm, dispatch_shutdown in Ed. destruct (uid peer =? c_euid cfg) eqn:Hu; [|done]. breflect.
    injection Ed as <- _. split_and!; [done|done|]. by exists rq.
  - pose proof (dispatch_stays q _ (rq_params rq) peer s Hm) as Hst. unfold stays in Hst.
    by rewrite Ed in Hst.
Qed.
End Server.

(** ** A concrete server *)

Definition demo_status : status_env :=
  {| e_pid := 1; e_runtime_state := "RUNNING"; e_robot_id := "arm-1"; e_drivers := ["sim"];
     e_robot_pack := JNull; e_watchdog := []; e_ledger := Some [("event_count", JInt 0)];
     e_ledger_paths := []; e_ledger_failure := JNull; e_started_at := demo_now |}.

Definition demo_request : request_io bool :=
  {| q_now := demo_now; q_uuid := "action_1"; q_io := demo_io; q_op := demo_oio;
     q_worker := demo_dio 1 "a" []; q_restart := demo_dio 2 "b" []; q_status := demo_status;
     q_message := fun code => code; q_sends := true |}.

Definition demo_server : daemon unit (list entry) :=
  {| dm_plane := demo_onew; dm_workers := WorkerManager_new |}.

Definition demo_owner : PeerCredentials := {| pid := 1; uid := c_euid demo_cfg; gid := 0 |}.

(** One request, its frame cut after the seventh byte. *)
Definition demo_request_conn (method : string) (p : dict json) : conn :=
  match encode_frame (JObj (make_request "0" method (Some p) None)) MAX_FRAME_BYTES with
  | Ok frame => arrive (prefix_of 7 frame) (arrive (str_drop 7 frame) [Silence])
  | Err _ => []
  end.

Abbreviation demo_handle peer method p :=
  (handle_client (H := demo_crypto) (H0 := demo_signatures) demo_cfg demo_identity demo_request peer
     (demo_request_conn method p) demo_server).

Definition demo_reason : dict json := [("reason", JStr "preflight")].

(** What the client of a response reads. *)
Definition demo_answer (out : option served) : result wire_exn (dict json) :=
  match out with
  | Some {| sv_sent := Some bytes |} =>
      let* d := (receive_frame MAX_FRAME_BYTES (arrive bytes [])).2 in decode_response d "request_0"
  | _ => Err SocketError
  end.

Example server_answers :
  (supervision (base (dm_plane (demo_handle demo_owner "runtime.arm" demo_reason).1)),
   demo_answer (demo_handle demo_owner "runtime.arm" demo_reason).2,
   demo_answer (demo_handle demo_operator_peer "runtime.arm" demo_reason).2,
   demo_answer (demo_handle demo_owner "runtime.arm" []).2,
   demo_answer (demo_handle demo_owner "runtime.reboot" []).2) =
  (ARMED, Ok [("supervision_state", JStr "ARMED"); ("reason", JStr "preflight");
              ("daemon_instance_id", JStr (c_instance demo_cfg))],
   Err (DaemonProtocolError "PERMISSION_DENIED"), Err (DaemonProtocolError "INVALID_ARGUMENT"),
   Err (DaemonProtocolError "METHOD_NOT_ALLOWED")).
Proof. vm_compute. reflexivity. Qed.

Lemma demo_clock t : 0 <= t <= 3600000000 -> dt_wf (dt_add demo_now t).
Proof.
  intros Ht. unfold dt_wf.
  assert (Hday : (us (dt_add demo_now t) + off (dt_add demo_now t) * usec_per_min) / usec_per_day = 19675).
  { symmetry. apply (Z.div_unique _ _ _ (80000000000 + t)); [left|]; unfold usec_per_day; cbn; lia. }
  rewrite Hday. vm_compute. intuition congruence.
Qed.

Lemma demo_fair : fair demo_request demo_owner demo_server.
Proof.
  split; [vm_compute; intuition congruence|exact demo_clock| |exact demo_world|reflexivity].
  intros n t Ht. apply demo_clock. lia.
Qed.

Lemma connection_steps_witness :
  rtc (daemon_step (H := demo_crypto) (H0 := demo_signatures) demo_cfg demo_identity) demo_server
    (demo_handle demo_owner "runtime.arm" demo_reason).1 /\
  exists m, endpoint (H := demo_crypto) (H0 := demo_signatures) demo_cfg demo_identity demo_request demo_reason
      demo_owner "runtime.arm" m /\
    (demo_handle demo_owner "runtime.arm" demo_reason).1 = (m demo_server).1.
Proof.
  pose proof (connection_steps (H := demo_crypto) (H0 := demo_signatures) demo_cfg demo_identity
    demo_request demo_owner (demo_request_conn "runtime.arm" demo_reason) demo_server demo_onew_inv
    table_inv_new demo_fair) as [Hr [Hs _]].
  split; [exact Hs|].
  assert (E : (receive_request (demo_request_conn "runtime.arm" demo_reason)).2 =
    Ok {| rq_version := DAEMON_PROTOCOL_VERSION; rq_id := "request_0"; rq_method := "runtime.arm";
          rq_params := demo_reason |}) by (vm_compute; reflexivity).
  rewrite E in Hr. cbn [rq_method rq_params rq_id] in Hr. destruct Hr as (r & Hr & _).
  destruct Hr as [(m & Hm & Hout)|[(Hm & _)|(Hno & _)]].
  - exists m. split; [exact Hm|]. exact (f_equal fst Hout).
  - discriminate Hm.
  - exfalso. eapply Hno. apply (e_arm _ _ _ _ _ "preflight"). split; [reflexivity|]. split; [reflexivity|].
    vm_compute. discriminate.
Defined.

Definition demo_rq (method : string) (p : dict json) : DaemonRequest :=
  {| rq_version := DAEMON_PROTOCOL_VERSION; rq_id := "request_0"; rq_method := method; rq_params := p |}.

Lemma privileged_refused_witness : (demo_handle demo_operator_peer "runtime.arm" demo_reason).1 = demo_server.
Proof.
  assert (H1 : uid demo_operator_peer <> c_euid demo_cfg) by (vm_compute; discriminate).
  assert (H2 : (receive_request (demo_request_conn "runtime.arm" demo_reason)).2 =
    Ok (demo_rq "runtime.arm" demo_reason)) by (vm_compute; reflexivity).
  assert (H3 : rq_method (demo_rq "runtime.arm" demo_reason) ∈ privileged) by (left).
  exact (proj1 (privileged_refused (H := demo_crypto) (H0 := demo_signatures) demo_cfg demo_identity
    demo_request demo_operator_peer (demo_request_conn "runtime.arm" demo_reason) demo_server
    (demo_rq "runtime.arm" demo_reason) H1 H2 H3)).
Defined.

Lemma shutdown_authorized_witness : exists s out,
  demo_handle demo_owner "runtime.shutdown" [] = (s, Some out) /\ sv_shutdown out = true /\ s = demo_server.
Proof.
  destruct (demo_handle demo_owner "runtime.shutdown" []) as [s out] eqn:E.
  assert (Hout : exists o, out = Some o /\ sv_shutdown o = true)
    by (vm_compute in E; injection E as <- <-; eexists; split; reflexivity).
  destruct Hout as (o & -> & Ho). exists s, o. split; [reflexivity|]. split; [exact Ho|].
  exact (proj1 (proj2 (shutdown_authorized (H := demo_crypto) (H0 := demo_signatures) demo_cfg demo_identity
    demo_request demo_owner (demo_request_conn "runtime.shutdown" []) demo_server s o E Ho))).
Defined.
