(* ===== verification/Client.v ===== *)
(** The client of the daemon's socket: src/src/rosclaw/daemon/client.py.

    [DaemonClient] keeps the leases of the actions it follows and calls the daemon
    once per method. The methods are written against the call they make, a
    [DaemonCall]; [socket_call] is the one of the program, over the server of
    Server.v. Monotonic time is in microseconds. The checks of the socket's path and
    of the daemon's uid are in Socket.v. *)

From S2P Require Export Server.

(** [DaemonRequestError] by its code, [DaemonUnavailableError], [ValueError], any
    other exception, a value outside the model. *)
Inductive client_exn :=
| DaemonRequestError (code : string) | DaemonUnavailable | ClientValueError | ClientOther | ClientUnmodelled.

#[export] Instance client_exn_eq_dec : EqDecision client_exn.
Proof. solve_decision. Defined.

(** [DaemonClient.call]: [W] is what one call meets, [St] what it acts on. *)
Class DaemonCall (W St : Type) :=
  call : W -> string -> dict json -> st St client_exn (dict json).

(** A followed action: its session, when to renew next, the interval. *)
Record lease := { l_session : string; l_next : Z; l_interval : Z }.

Record client {St : Type} := { cl_leases : dict lease; cl_daemon : St }.
Arguments client : clear implicits.

Definition terminal_status (status : dict json) : bool :=
  str_at status "state" "FINISHED" || str_at status "state" "CANCELLED".

Section Client.
Context {W St : Type} {C : DaemonCall W St}.
Abbreviation client := (client St).
Abbreviation M := (st client client_exn).
Implicit Types (c : client) (w : W).

Definition set_leases (v : dict lease) c : client := {| cl_leases := v; cl_daemon := cl_daemon c |}.

Definition calls w (method : string) (p : dict json) : M (dict json) :=
  fun c => let '(d, r) := call w method p (cl_daemon c) in
           ({| cl_leases := cl_leases c; cl_daemon := d |}, r).

(** ** Leases *)

(** [max(0.1, interval_ms / 1000.0)] in microseconds; an integer too large for a
    float raises. *)
Definition lease_interval (ms : Z) : result client_exn Z :=
  match round_decimal ms 0 with
  | Fin _ _ => Ok (Z.max 100000 (ms * 1000))
  | _ => Err ClientOther
  end.

(** [_remember_action_lease] *)
Definition remember_action_lease (now : Z) (result : dict json) : M unit :=
  match text_at result "action_id", text_at result "session_id", dget result "action_lease" with
  | Some id, Some session, Some (JObj l) =>
      match get_default l "renew_interval_ms" (JInt 3000) with
      | JInt ms =>
          do! interval <- st_of (lease_interval ms);
          st_set (fun c => set_leases (dset (cl_leases c) id
            {| l_session := session; l_next := now + interval; l_interval := interval |}) c)
      | _ => st_ret tt
      end
  | _, _, _ => st_ret tt
  end.

Definition client_request_action w (now : Z) (action : json) : M (dict json) :=
  do! result <- calls w "action.request" [("action", action)];
  run! remember_action_lease now result;
  st_ret result.

Definition client_renew_action_lease w (id session : string) : M (dict json) :=
  calls w "action.lease.renew" [("action_id", JStr id); ("session_id", JStr session)].

Definition forget_lease (id : string) : M unit :=
  st_set (fun c => set_leases (dpop (cl_leases c) id) c).

(** The renewal that is due: refused because the action is over, it is forgotten. *)
Definition renew_due w (now' : Z) (id : string) (l : lease) : M unit :=
  st_try (run! client_renew_action_lease w id (l_session l);
          st_set (fun c => set_leases (dset (cl_leases c) id
            {| l_session := l_session l; l_next := now' + l_interval l; l_interval := l_interval l |}) c))
    (fun e => if bool_decide (e = DaemonRequestError "ACTION_NOT_ACTIVE") then forget_lease id
              else st_raise e).

(** [get_action_status]: [now] and [now'] are its readings of the clock, [w] and [w']
    the worlds of the renewal and of the status. *)
Definition client_get_action_status w w' (now now' : Z) (id : string) : M (dict json) :=
  do! leases <- st_get cl_leases;
  run! match dget leases id with
       | Some l => if l_next l <=? now then renew_due w now' id l else st_ret tt
       | None => st_ret tt
       end;
  do! status <- calls w' "action.status" [("action_id", JStr id)];
  run! (if terminal_status status then forget_lease id else st_ret tt);
  st_ret status.

Definition track_action_lease w w' (now now' now2 : Z) (id : string) : M (dict json) :=
  do! status <- client_get_action_status w w' now now' id;
  run! remember_action_lease now2 status;
  st_ret status.

(** One poll of [wait_for_action]: its worlds, its clock readings, and the reading
    that is compared with the deadline. *)
Record poll := { po_renew : W; po_status : W; po_now : Z; po_renewed : Z; po_late : Z }.

(** The loop of [wait_for_action]; [None] where [polls] ends before it. *)
Fixpoint wait_loop (polls : list poll) (deadline : Z) (id : string) : M (option (dict json)) :=
  match polls with
  | [] => st_ret None
  | p :: polls =>
      do! status <- client_get_action_status (po_renew p) (po_status p) (po_now p) (po_renewed p) id;
      if terminal_status status then run! forget_lease id; st_ret (Some status)
      else if deadline <=? po_late p then st_raise (DaemonRequestError "ACTION_WAIT_TIMEOUT")
      else wait_loop polls deadline id
  end.

(** [wait_for_action], started at [start]; the timeout in microseconds. *)
Definition wait_for_action (polls : list poll) (start timeout : Z) (id : string) : M (option (dict json)) :=
  wait_loop polls (start + Z.max 0 timeout) id.

(** ** The other methods *)

Definition client_get_runtime_status w : M (dict json) := calls w "runtime.status" [].
Definition client_get_execution_receipt w (id : string) : M (dict json) :=
  calls w "action.receipt" [("action_id", JStr id)].
Definition client_cancel_action w (id : string) : M (dict json) :=
  calls w "action.cancel" [("action_id", JStr id)].
Definition client_create_session w (session actor framework : string) (bodies capabilities : list string)
    (ttl_ms : Z) : M (dict json) :=
  calls w "session.create"
    [("session_id", JStr session); ("actor_id", JStr actor); ("agent_framework", JStr framework);
     ("body_scope", JList (map JStr bodies)); ("capability_scope", JList (map JStr capabilities));
     ("ttl_ms", JInt ttl_ms)].
Definition client_heartbeat_session w (session : string) : M (dict json) :=
  calls w "session.heartbeat" [("session_id", JStr session)].
Definition client_get_session w (session : string) : M (dict json) :=
  calls w "session.status" [("session_id", JStr session)].
Definition client_close_session w (session reason : string) : M (dict json) :=
  calls w "session.close" [("session_id", JStr session); ("reason", JStr reason)].
Definition client_arm_runtime w (reason : string) : M (dict json) :=
  calls w "runtime.arm" [("reason", JStr reason)].
Definition client_disarm_runtime w (reason : string) : M (dict json) :=
  calls w "runtime.disarm" [("reason", JStr reason)].
Definition client_acknowledge_recovery w (reason : string) : M (dict json) :=
  calls w "runtime.recovery.acknowledge" [("reason", JStr reason)].
Definition client_shutdown w : M (dict json) := calls w "runtime.shutdown" [].
Definition client_issue_execution_permit w (action : json) (principal : string) (target : Z)
    (ttl : pyfloat) (reason : string) : M (dict json) :=
  calls w "permit.issue"
    [("action", action); ("principal_id", JStr principal); ("target_peer_uid", JInt target);
     ("expires_in_sec", JFloat ttl); ("reason", JStr reason)].
Definition client_create_operator_proposal w (action : json) (display : dict json) (ttl : pyfloat)
    (reference : dict string) : M (dict json) :=
  calls w "operator.proposal.create"
    ([("action", action); ("display", JObj display); ("ttl_sec", JFloat ttl)]
     ++ match reference with [] => [] | _ => [("client_reference", JObj (map (fun kv => (kv.1, JStr kv.2)) reference))] end)%list.
Definition client_get_operator_proposal w (id : string) : M (dict json) :=
  calls w "operator.proposal.status" [("request_id", JStr id)].
Definition client_cancel_operator_proposal w (id : string) : M (dict json) :=
  calls w "operator.proposal.cancel" [("request_id", JStr id)].
Definition client_list_pending w : M (dict json) := calls w "operator.proposal.pending" [].
Definition client_decide w (now : Z) (id decision principal channel reason : string) (proof : dict json)
  : M (dict json) :=
  do! result <- calls w "operator.proposal.decide"
    [("request_id", JStr id); ("decision", JStr decision); ("principal_id", JStr principal);
     ("channel", JStr channel); ("reason", JStr reason); ("proof", JObj proof)];
  run! match dget result "action" with
       | Some (JObj action) => remember_action_lease now action
       | _ => st_ret tt
       end;
  st_ret result.
Definition client_get_worker_status w (worker : option string) : M (dict json) :=
  calls w "worker.status"
    (match worker with Some id => if truthy_str id then [("worker_id", JStr id)] else [] | None => [] end).
Definition client_control_worker w (operation worker : string) : M (dict json) :=
  run! st_guard (bool_decide (operation ∈ ["start"; "stop"; "restart"])) ClientValueError;
  calls w ("worker." +:+ operation) [("worker_id", JStr worker)].
Definition client_register_enrollment w (id pem : string) (operator : Z) (purpose : string) : M (dict json) :=
  calls w "operator.enrollment.register"
    [("enrollment_id", JStr id); ("public_key_pem", JStr pem); ("operator_uid", JInt operator);
     ("purpose", JStr purpose)].
Definition client_revoke_enrollment w (id : string) : M (dict json) :=
  calls w "operator.enrollment.revoke" [("enrollment_id", JStr id)].
Definition client_list_enrollments w : M (dict json) := calls w "operator.enrollment.list" [].
Definition client_get_challenge w (id : string) : M (dict json) :=
  calls w "operator.challenge.get" [("request_id", JStr id)].
Definition client_daemon_identity w : M (dict json) := calls w "daemon.identity" [].
Definition client_emergency_stop w (reason source : string) (timeout : pyfloat) : M (dict json) :=
  calls w "safety.emergency_stop"
    [("reason", JStr reason); ("source", JStr source); ("timeout_sec", JFloat timeout)].
(** ** Leases and waiting *)

Lemma calls_leases w method p c : cl_leases (calls w method p c).1 = cl_leases c.
Proof. unfold calls. by destruct (call w method p (cl_daemon c)). Qed.

Definition renewed (now' : Z) (l : lease) : lease :=
  {| l_session := l_session l; l_next := now' + l_interval l; l_interval := l_interval l |}.

(** A renewal that does not raise renewed the lease, or found the action over and
    forgot it. *)
Lemma renew_due_leases w now' id l c c' : renew_due w now' id l c = (c', Ok tt) ->
  cl_leases c' = dset (cl_leases c) id (renewed now' l) \/ cl_leases c' = dpop (cl_leases c) id.
Proof.
  unfold renew_due, st_try, st_bind, client_renew_action_lease.
  pose proof (calls_leases w "action.lease.renew" [("action_id", JStr id); ("session_id", JStr (l_session l))] c) as Hl.
  destruct (calls _ _ _ c) as [c1 [d|e]]; cbn [fst] in Hl.
  - intros [= <-]. left. cbn. by rewrite Hl.
  - destruct (bool_decide _); [|done]. intros [= <-]. right. cbn. by rewrite Hl.
Qed.

(** A status read leaves no lease that is due: the action's lease was not due yet,
    or has just been renewed for its own session, or is forgotten because the action
    is over; no other action's lease is touched. *)
Theorem lease_kept_current w w' now now' id c c' status :
  client_get_action_status w w' now now' id c = (c', Ok status) ->
  (terminal_status status = true -> dget (cl_leases c') id = None) /\
  (forall l', dget (cl_leases c') id = Some l' -> exists l, dget (cl_leases c) id = Some l /\
     (l' = l /\ now < l_next l \/ l' = renewed now' l /\ l_next l <= now)) /\
  (forall id', id <> id' -> dget (cl_leases c') id' = dget (cl_leases c) id').
Proof.
  unfold client_get_action_status. unfold st_bind at 1, st_get. unfold st_bind at 1.
  set (m := match dget (cl_leases c) id with Some l => _ | None => _ end).
  assert (Hm : forall c1, m c = (c1, Ok tt) ->
    (forall l', dget (cl_leases c1) id = Some l' -> exists l, dget (cl_leases c) id = Some l /\
       (l' = l /\ now < l_next l \/ l' = renewed now' l /\ l_next l <= now)) /\
    (forall id', id <> id' -> dget (cl_leases c1) id' = dget (cl_leases c) id')).
  { intros c1. subst m. destruct (dget (cl_leases c) id) as [l|] eqn:El.
    2: { intros [= <-]. rewrite El. split; [intros ? ?; discriminate|done]. }
    destruct (l_next l <=? now) eqn:En; breflect.
    - intros [Hc|Hc]%renew_due_leases; rewrite Hc; (split; [|intros id' Hne; by rewrite ?dget_dset_ne, ?dget_dpop_ne]).
      + rewrite dget_dset_eq. intros l' [= <-]. exists l. auto.
      + by rewrite dget_dpop_eq.
    - intros [= <-]. split; [|done]. rewrite El. intros l' [= <-]. exists l. auto. }
  destruct (m c) as [c1 [[]|e]]; [|done]. destruct (Hm _ eq_refl) as [Hlease Hother]. clear Hm m.
  unfold st_bind at 1. pose proof (calls_leases w' "action.status" [("action_id", JStr id)] c1) as Hl.
  destruct (calls _ _ _ c1) as [c2 [d|e]]; [|done]. cbn [fst] in Hl. unfold st_bind.
  destruct (terminal_status d) eqn:Et; cbn; intros [= <- <-].
  - cbn [cl_leases set_leases]. rewrite Hl, dget_dpop_eq. split_and!; [done|done|].
    intros id' Hne. rewrite dget_dpop_ne by done. by apply Hother.
  - rewrite Hl, Et. split_and!; [done|exact Hlease|exact Hother].
Qed.

(** [wait_for_action] ends: with enough polls for the clock to pass the deadline it
    has returned a terminal status or raised, and it returns nothing else. *)
Theorem wait_ends polls start timeout id c :
  Exists (fun p => start + Z.max 0 timeout <= po_late p) polls ->
  match (wait_for_action polls start timeout id c).2 with
  | Ok (Some status) => terminal_status status = true /\
      dget (cl_leases (wait_for_action polls start timeout id c).1) id = None
  | Ok None => False
  | Err _ => True
  end.
Proof.
  intros Hp. unfold wait_for_action. set (d := start + Z.max 0 timeout) in *. clearbody d.
  revert c. induction polls as [|p polls IH]; intros c; [by apply Exists_nil in Hp|].
  cbn [wait_loop]. unfold st_bind.
  destruct (client_get_action_status _ _ _ _ id c) as [c1 [status|e]]; [|done].
  destruct (terminal_status status) eqn:Et.
  - unfold forget_lease, st_set, st_ret. cbn [fst snd cl_leases set_leases].
    split; [done|apply dget_dpop_eq].
  - destruct (d <=? po_late p) eqn:Ed; [done|]. breflect. apply IH.
    apply Exists_cons in Hp as [Hp|Hp]; [lia|done].
Qed.
End Client.

(** ** The call over the socket *)

(** What one call meets: the request's world, both ends' credentials, the identifier
    of the request, and how the kernel hands over the bytes of either direction. *)
Record wire_io {Env : Type} := {
  x_request : request_io Env;
  x_peer : PeerCredentials;       (* the client, as the server sees it *)
  x_daemon : PeerCredentials;     (* the daemon, as the client sees it *)
  x_uuid : string;
  x_out : string -> conn;
  x_in : string -> conn;
}.
Arguments wire_io : clear implicits.

Definition client_of_wire (e : wire_exn) : client_exn :=
  match e with
  | DaemonProtocolError code => DaemonRequestError code
  | SocketError => DaemonUnavailable
  | WireRaised => ClientOther
  | WireUnmodelled | WireExhausted => ClientUnmodelled
  end.

Section Socket.
Context {X : Type} `{EL : EventLog L Env} `{Crypto} `{Signatures}.
Context (cfg : config) (ident : DaemonIdentity).
Abbreviation daemon := (daemon X L).
Implicit Types (s : daemon) (w : wire_io Env).

(** [result.setdefault("daemon_peer", ...)] *)
Definition with_daemon_peer w (d : dict json) : dict json :=
  match dget d "daemon_peer" with
  | Some _ => d
  | None => dset d "daemon_peer" (JObj (PeerCredentials_to_dict (x_daemon w)))
  end.

Definition call_id w : string := "request_" +:+ x_uuid w.

(** The response, read from the connection. *)
Definition read_response w (k : conn) : result client_exn (dict json) :=
  let* payload := map_err client_of_wire (receive_frame MAX_FRAME_BYTES k).2 in
  let* d := map_err client_of_wire (decode_response payload (call_id w)) in
  Ok (with_daemon_peer w d).

(** A server that sends nothing has closed the connection. The client's part and the
    server's are one step: where the client gives up ([Silence] in [x_in]) while the
    server still works, the state is the one after the server is through. *)
#[export] Instance socket_call : DaemonCall (wire_io Env) daemon := fun w method p s =>
  match encode_frame (JObj (make_request (x_uuid w) method (Some p) None)) MAX_FRAME_BYTES with
  | Err e => (s, Err (client_of_wire e))
  | Ok frame =>
      let '(s', out) := handle_client cfg ident (x_request w) (x_peer w) (x_out w frame) s in
      (s', match out with
           | None => Err ClientUnmodelled
           | Some o => read_response w (match sv_sent o with Some b => x_in w b | None => [] end)
           end)
  end.

(** The kernel delivers the bytes of the request, in any pieces. *)
Record reaches w : Prop := {
  dl_out : forall b, (incoming (x_out w b)).1 = b;
  dl_uuid : len (x_uuid w) <= 100;
}.

(** So it does the response, which the server manages to send. *)
Record delivers w : Prop := {
  dl_reaches : reaches w;
  dl_in : forall b, (incoming (x_in w b)).1 = b;
  dl_sends : q_sends (x_request w) = true;
}.

(** What the client makes of the server's outcome. *)
Definition outcome w (r : result srv_exn (dict json * bool)) : result client_exn (dict json) :=
  match r with
  | Ok (d, _) => Ok (with_daemon_peer w d)
  | Err (Sv_control code) => Err (DaemonRequestError code)
  | Err Sv_other => Err (DaemonRequestError "INTERNAL_ERROR")
  | Err Sv_unmodelled => Err ClientUnmodelled
  end.

Lemma call_id_ok w : reaches w -> nonblank (call_id w) = true /\ len (call_id w) <= MAX_REQUEST_ID_LENGTH.
Proof.
  intros [_ Hu]. split; [by apply nonblank_head|]. unfold call_id, MAX_REQUEST_ID_LENGTH. rewrite len_app.
  change (len "request_") with 8. lia.
Qed.

(** The request the server receives is the one the client makes. *)
Lemma call_arrives w method p frame : reaches w ->
  nonblank method = true -> len method <= MAX_METHOD_LENGTH -> wire_ok (JObj p) = true ->
  encode_frame (JObj (make_request (x_uuid w) method (Some p) None)) MAX_FRAME_BYTES = Ok frame ->
  (receive_request (x_out w frame)).2 =
  Ok {| rq_version := DAEMON_PROTOCOL_VERSION; rq_id := call_id w; rq_method := method; rq_params := p |}.
Proof.
  intros Hd Hm Hl Hp He. destruct (call_id_ok w Hd) as [Hi Hil].
  apply (request_round_trip (x_uuid w) _ _ _ frame _ "" (incoming (x_out w frame)).2); try done.
  rewrite append_empty_r. rewrite <- (dl_out _ Hd frame) at 2. by destruct (incoming _).
Qed.


Lemma reply_error id code message :
  wire_ok (JObj (error_response id code message)) = true /\
  decode_response (error_response id code message) id = Err (DaemonProtocolError code).
Proof. split; [reflexivity|]. by apply decode_make_error with message. Qed.

Lemma reply_result id d : wire_ok (JObj d) = true ->
  wire_ok (JObj (response id (Some d) None)) = true /\
  decode_response (response id (Some d) None) id = Ok d.
Proof.
  intros Hd. split; [|by apply decode_make_result].
  change (bool_decide (NoDup ["protocol_version"; "request_id"; "ok"; "result"]) &&
    (true && (true && (true && (wire_ok (JObj d) && true)))) = true). by rewrite Hd.
Qed.

(** A call over the socket is the handler's own outcome: the server takes the
    step of the method with the client's parameters, whatever pieces the kernel makes
    of the bytes, and when the response fits in a frame the client gets the reply, or
    the error's code. *)
Theorem call_outcome w method p frame s s' r response shutdown bytes :
  delivers w -> nonblank method = true -> len method <= MAX_METHOD_LENGTH -> wire_ok (JObj p) = true ->
  encode_frame (JObj (make_request (x_uuid w) method (Some p) None)) MAX_FRAME_BYTES = Ok frame ->
  dispatch cfg ident (x_request w) method p (x_peer w) s = (s', r) ->
  (forall d b, r = Ok (d, b) -> wire_ok (JObj d) = true) ->
  reply_of (x_request w) (call_id w) r = Some (response, shutdown) ->
  encode_frame (JObj response) MAX_FRAME_BYTES = Ok bytes ->
  call w method p s = (s', outcome w r).
Proof.
  intros Hd Hm Hl Hp He Hr Hok Hrep Hb. unfold call, socket_call. rewrite He.
  unfold handle_client. rewrite (call_arrives w method p frame) by (try done; apply Hd). cbn [rq_method rq_params rq_id].
  rewrite Hr, Hrep. unfold send_response. rewrite Hb, (dl_sends _ Hd). cbn [sv_sent].
  assert (Hres : wire_ok (JObj response) = true /\
    decode_response response (call_id w) = match r with
      | Ok (d, _) => Ok d
      | Err (Sv_control code) => Err (DaemonProtocolError code)
      | Err _ => Err (DaemonProtocolError "INTERNAL_ERROR") end /\ r <> Err Sv_unmodelled).
  { destruct r as [[d b]|[code| |]]; cbn [reply_of] in Hrep; try discriminate Hrep;
      injection Hrep as <- _.
    - destruct (reply_result (call_id w) d) as [? ?]; [by eapply Hok|by split_and!].
    - destruct (reply_error (call_id w) code (q_message (x_request w) code)). by split_and!.
    - destruct (reply_error (call_id w) "INTERNAL_ERROR" "rosclawd failed to process the request").
      by split_and!. }
  destruct Hres as (Hw & Hdec & Hne).
  destruct (frame_reads response MAX_FRAME_BYTES bytes (x_in w bytes) "" (incoming (x_in w bytes)).2) as [Hread _];
    [done|done| |].
  { rewrite append_empty_r. rewrite <- (dl_in _ Hd bytes) at 2. by destruct (incoming _). }
  unfold read_response. rewrite Hread. cbn [map_err rbind]. rewrite Hdec.
  destruct r as [[d b]|[code| |]]; done.
Qed.

(** ** Stopping *)


Lemma required_valid p k n v : text_at p k = Some v -> nonblank v = true -> len v <= n ->
  required_id p k n = Ok v.
Proof.
  intros Hv Hn Hl. unfold required_id. rewrite Hv. cbn [of_option rbind]. rewrite Hn.
  by rewrite (proj2 (Z.leb_le _ _) Hl).
Qed.



(** ** Client and server agree *)

(** The call without the socket: the server's dispatch. *)
Definition direct_call : DaemonCall (request_io Env * PeerCredentials) daemon := fun qp method p s =>
  let '(s', r) := dispatch cfg ident qp.1 method p qp.2 s in
  (s', match r with
       | Ok (d, _) => Ok d
       | Err (Sv_control code) => Err (DaemonRequestError code)
       | Err Sv_other => Err (DaemonRequestError "INTERNAL_ERROR")
       | Err Sv_unmodelled => Err ClientUnmodelled
       end).

(** A handler of the daemon, as a client that calls it sees it. *)
Definition handled (m : st daemon cp_exn (dict json)) : st (client daemon) client_exn (dict json) :=
  fun c => let '(s', r) := m (cl_daemon c) in
    ({| cl_leases := cl_leases c; cl_daemon := s' |},
     match r with
     | Ok d => Ok d
     | Err (ControlPlaneError code) => Err (DaemonRequestError code)
     | Err Raised => Err (DaemonRequestError "INTERNAL_ERROR")
     end).

Lemma direct_handled (q : request_io Env) peer method p m c :
  (forall s, dispatch cfg ident q method p peer s = answer (serve m) s) ->
  @calls _ _ direct_call (q, peer) method p c = handled m c.
Proof.
  intros Hd. unfold calls, call, direct_call, handled. cbn [fst snd]. rewrite Hd.
  unfold answer, serve, st_bind, st_ret. by destruct (m (cl_daemon c)) as [s' [d|[code|]]].
Qed.

(** A text a client may send: not blank, of at most [n] characters. *)
Definition sendable (n : Z) (v : string) : Prop := nonblank v = true /\ len v <= n.

Lemma required_sendable p k n v : dget p k = Some (JStr v) -> sendable n v -> required_id p k n = Ok v.
Proof. intros Hv [Hn Hl]. apply required_valid; [|done..]. unfold text_at. by rewrite Hv. Qed.

(** A scope a client may send. *)
Definition scope_sendable (l : list string) : Prop := l <> [] /\ forallb nonblank l = true.

Lemma texts_back l : mapM as_str (map JStr l) = Some l.
Proof. induction l as [|v l IH]; [done|]. cbn [map mapM as_str]. unfold mapM in *. cbn. by rewrite IH. Qed.

Lemma required_scope p k l : dget p k = Some (JList (map JStr l)) -> scope_sendable l ->
  required_string_list p k = Ok l.
Proof.
  intros Hv [Hne Hl]. unfold required_string_list. rewrite Hv.
  rewrite bool_decide_eq_false_2 by (by destruct l). cbn [negb]. rewrite texts_back. cbn [of_option rbind].
  by rewrite Hl.
Qed.

Lemma close_reason_back reason p : dget p "reason" = Some (JStr reason) -> sendable 256 reason ->
  close_reason p = Ok reason.
Proof.
  intros Hv [Hn Hl]. unfold close_reason, get_default. rewrite Hv. cbn [as_str of_option rbind]. rewrite Hn.
  by rewrite (proj2 (Z.leb_le _ _) Hl).
Qed.

(** The server reads back what the client sent. *)
Ltac reads :=
  repeat first
    [ rewrite of_bind
    | match goal with
      | |- context [required_id ?p ?k ?n] =>
          erewrite (required_sendable p k n) by (first [reflexivity | eassumption])
      | |- context [required_string_list ?p ?k] =>
          erewrite (required_scope p k) by (first [reflexivity | eassumption])
      | |- context [close_reason ?p] =>
          erewrite (close_reason_back _ p) by (first [reflexivity | eassumption])
      end ];
  try reflexivity.

(** Both sides of one method compute to the same handler. *)
Ltac agree :=
  apply direct_handled; intros ?; unfold dispatch; cbv zeta; unfold st_bind at 1, st_guard at 1;
  match goal with |- context [bool_decide ?P] => change (bool_decide P) with true end;
  cbn [st_ret String.eqb Ascii.eqb Bool.eqb];
  unfold dispatch_action; cbv zeta; cbn [String.eqb Ascii.eqb Bool.eqb orb append];
  reads.

(** Client and server agree on every method without an action: what the client
    sends for its arguments, the server reads back as those arguments and hands to the
    handler of that name. *)
Theorem client_reaches_handlers (q : request_io Env) peer reason id session worker purpose pem operator actor framework
    bodies capabilities ttl closing c :
  sendable 256 id -> sendable 256 session -> sendable 1024 reason -> sendable 128 worker ->
  sendable 256 actor -> sendable 256 framework -> sendable 256 closing ->
  scope_sendable bodies -> scope_sendable capabilities ->
  let run (m : DaemonCall (request_io Env * PeerCredentials) daemon ->
               st (client daemon) client_exn (dict json)) := m direct_call c in
  let base {A} (m : st (plane X L) cp_exn A) := on_plane (lift m) in
  run (fun _ => client_get_runtime_status (q, peer)) =
    handled (get_runtime_status cfg (q_status q) (q_io q) (q_worker q) peer) c /\
  run (fun _ => client_arm_runtime (q, peer) reason) = handled (base (arm_reply cfg (q_io q) reason peer)) c /\
  run (fun _ => client_disarm_runtime (q, peer) reason) = handled (base (disarm_reply cfg (q_io q) reason peer)) c /\
  run (fun _ => client_acknowledge_recovery (q, peer) reason) =
    handled (base (acknowledge_reply cfg (q_io q) reason peer)) c /\
  run (fun _ => client_get_execution_receipt (q, peer) id) =
    handled (base (get_execution_receipt cfg (q_io q) id (Some peer))) c /\
  run (fun _ => client_cancel_action (q, peer) id) =
    handled (base (cancel_action cfg (q_io q) id (Some peer))) c /\
  run (fun _ => client_renew_action_lease (q, peer) id session) =
    handled (base (renew_reply cfg (q_io q) id session peer)) c /\
  run (fun _ => client_create_session (q, peer) session actor framework bodies capabilities ttl) =
    handled (base (session_reply (cp_create_session (q_io q) session actor framework bodies capabilities
                                    ttl peer))) c /\
  run (fun _ => client_close_session (q, peer) session closing) =
    handled (base (session_reply (cp_close_session (q_io q) session closing peer))) c /\
  run (fun _ => client_heartbeat_session (q, peer) session) =
    handled (base (session_reply (heartbeat_session (q_io q) session peer))) c /\
  run (fun _ => client_get_session (q, peer) session) =
    handled (base (session_reply (cp_get_session session peer))) c /\
  run (fun _ => client_get_operator_proposal (q, peer) id) =
    handled (on_plane (get_operator_proposal cfg (q_op q) id peer)) c /\
  run (fun _ => client_cancel_operator_proposal (q, peer) id) =
    handled (on_plane (cancel_operator_proposal cfg (q_op q) id peer)) c /\
  run (fun _ => client_list_pending (q, peer)) =
    handled (on_plane (list_pending_operator_proposals cfg (q_op q) peer)) c /\
  run (fun _ => client_register_enrollment (q, peer) id pem operator purpose) =
    handled (on_plane (register_operator_enrollment cfg (q_op q) id pem operator purpose peer)) c /\
  run (fun _ => client_revoke_enrollment (q, peer) id) =
    handled (on_plane (revoke_operator_enrollment cfg (q_op q) id peer)) c /\
  run (fun _ => client_list_enrollments (q, peer)) =
    handled (on_plane (list_operator_enrollments cfg peer)) c /\
  run (fun _ => client_get_challenge (q, peer) id) =
    handled (on_plane (get_operator_challenge cfg (q_op q) id peer)) c /\
  run (fun _ => client_daemon_identity (q, peer)) = handled (st_ret (daemon_identity_dict cfg ident)) c /\
  run (fun _ => client_get_worker_status (q, peer) None) = handled (get_worker_status (q_worker q) None) c /\
  (forall operation, operation ∈ ["start"; "stop"; "restart"] ->
   run (fun _ => client_control_worker (q, peer) operation worker) =
     handled (control_worker cfg (q_worker q) (q_restart q) operation worker peer) c).
Proof.
  intros Hi Hs Hr Hw Ha Hf Hc Hb Hcap run base. subst run base. cbv beta. split_and!; try agree.
  intros operation Hop. rewrite !elem_of_cons, elem_of_nil in Hop.
  destruct Hop as [->|[->|[->|[]]]]; unfold client_control_worker, st_bind, st_guard;
    match goal with |- context [bool_decide ?P] => change (bool_decide P) with true end; cbn [st_ret]; agree.
Qed.

Lemma required_action_back now uuid p a : dget p "action" = Some (ActionEnvelope_to_dict a) -> storable a ->
  required_action now uuid p = Ok a.
Proof.
  intros Hp [Hok Hpol Hd]. destruct (ok_deadline _ Hok) as [d Hdl]. unfold required_action. rewrite Hp.
  pose proof (envelope_round_trip now uuid a d Hok Hpol Hdl (Hd _ Hdl)) as Hr.
  unfold ActionEnvelope_to_dict in *. by rewrite Hr.
Qed.

Lemma reference_back p r : dget p "client_reference" = Some (JObj (map (fun kv => (kv.1, JStr kv.2)) r)) ->
  reference_of p = Ok (Some r).
Proof.
  intros Hp. unfold reference_of. rewrite Hp.
  assert (Hm : mapr (fun kv => let* t := text_of kv.2 in Ok (kv.1, t)) (map (fun kv => (kv.1, JStr kv.2)) r) = Ok r).
  { clear Hp. induction r as [|[k v] r IH]; [done|]. cbn [map mapr]. cbn. by rewrite IH. }
  by rewrite Hm.
Qed.

(** An action the ledger can hold arrives at its handler as the action it is, with
    the arguments beside it: requested, put up for a permit, or put up for an
    operator's decision; and so does a decision. *)
Theorem client_actions_arrive (q : request_io Env) peer a now principal target ttl reason display reference
    id decision channel proof c :
  storable a -> sendable 256 principal -> sendable 1024 reason -> sendable 256 id ->
  sendable 16 decision -> sendable 128 channel ->
  let action := ActionEnvelope_to_dict a in
  let base {A} (m : st (plane X L) cp_exn A) := on_plane (lift m) in
  @client_request_action _ _ direct_call (q, peer) now action c =
    (do! result <- handled (base (request_action cfg (q_io q) a peer));
     run! remember_action_lease now result; st_ret result) c /\
  @client_issue_execution_permit _ _ direct_call (q, peer) action principal target ttl reason c =
    handled (base (issue_reply cfg (q_io q) a principal target ttl reason peer)) c /\
  @client_create_operator_proposal _ _ direct_call (q, peer) action display ttl reference c =
    handled (on_plane (create_operator_proposal cfg (q_op q) a display ttl peer
      (match reference with [] => None | _ => Some reference end))) c /\
  @client_decide _ _ direct_call (q, peer) now id decision principal channel reason proof c =
    (do! result <- handled (on_plane (decide_operator_proposal cfg ident (q_op q) id decision principal
                                        channel reason peer proof));
     run! match dget result "action" with
          | Some (JObj action) => remember_action_lease now action
          | _ => st_ret tt
          end; st_ret result) c.
Proof.
  intros Ha Hp Hr Hi Hd Hc action base. subst action base. cbv beta.
  assert (Hreq : forall now uuid p, dget p "action" = Some (ActionEnvelope_to_dict a) ->
    required_action now uuid p = Ok a) by (intros; by apply required_action_back).
  split_and!.
  - unfold client_request_action, st_bind at 1 3.
    assert (Hq : @calls _ _ direct_call (q, peer) "action.request" [("action", ActionEnvelope_to_dict a)] c =
      handled (on_plane (lift (request_action cfg (q_io q) a peer))) c).
    { agree. rewrite Hreq by done. reflexivity. }
    by rewrite Hq.
  - agree. rewrite Hreq by done. reads.
  - agree.
    match goal with |- context [of_option ?o invalid] => change (of_option o invalid) with (Ok (E := srv_exn) display) end.
    reads. rewrite Hreq by done. reads.
    match goal with |- context [required_number ?p ?k] => change (required_number p k) with (Ok (E := srv_exn) ttl) end.
    reads. destruct reference as [|r reference]; [by reads|]. by rewrite (reference_back _ (r :: reference)).
  - unfold client_decide, st_bind at 1 3.
    assert (Hq : @calls _ _ direct_call (q, peer) "operator.proposal.decide"
      [("request_id", JStr id); ("decision", JStr decision); ("principal_id", JStr principal);
       ("channel", JStr channel); ("reason", JStr reason); ("proof", JObj proof)] c =
      handled (on_plane (decide_operator_proposal cfg ident (q_op q) id decision principal channel reason
        peer proof)) c) by agree.
    by rewrite Hq.
Qed.
End Socket.

(** ** A concrete client *)

Definition demo_wire (peer : PeerCredentials) : wire_io bool :=
  {| x_request := demo_request; x_peer := peer; x_daemon := demo_owner; x_uuid := "0";
     x_out := fun b => arrive (prefix_of 7 b) (arrive (str_drop 7 b) [Silence]);
     x_in := fun b => arrive (prefix_of 2 b) (arrive (str_drop 2 b) []) |}.

Definition demo_client : client (daemon unit (list entry)) := {| cl_leases := []; cl_daemon := demo_server |}.

#[local] Instance demo_call : DaemonCall (wire_io bool) (daemon unit (list entry)) :=
  socket_call (H := demo_crypto) (H0 := demo_signatures) demo_cfg demo_identity.

(** A stop sent by a stranger latches; its session is not known. *)
Example client_answers :
  let c := client_emergency_stop (demo_wire demo_operator_peer) "smoke" "console" (Fin 1 0) demo_client in
  (latched (base (dm_plane (cl_daemon c.1))), is_ok c.2,
   (client_heartbeat_session (demo_wire demo_operator_peer) "s" c.1).2,
   (client_shutdown (demo_wire demo_operator_peer) c.1).2) =
  (true, true, Err (DaemonRequestError "SESSION_NOT_FOUND"), Err (DaemonRequestError "PERMISSION_DENIED")).
Proof. vm_compute. reflexivity. Qed.

Lemma demo_delivers peer : delivers (demo_wire peer).
Proof.
  assert (Hcut : forall n b k, (incoming (arrive (prefix_of n b) (arrive (str_drop n b) k))).1 =
    b +:+ (incoming k).1).
  { intros n b k. rewrite !incoming_arrive. cbn [fst]. by rewrite <- append_assoc, prefix_drop. }
  split; [split; [|done]| |done]; intros b; cbn [x_out x_in demo_wire]; rewrite Hcut; apply append_empty_r.
Qed.

Lemma call_outcome_witness : exists s d,
  call (demo_wire demo_owner) "runtime.arm" demo_reason demo_server = (s, Ok d) /\
  dget d "supervision_state" = Some (JStr "ARMED").
Proof.
  destruct (dispatch (H := demo_crypto) (H0 := demo_signatures) demo_cfg demo_identity demo_request
    "runtime.arm" demo_reason demo_owner demo_server) as [s r] eqn:E.
  destruct (encode_frame (JObj (make_request "0" "runtime.arm" (Some demo_reason) None)) MAX_FRAME_BYTES)
    as [frame|e] eqn:Ef; [|exfalso; vm_compute in Ef; discriminate].
  destruct (reply_of demo_request "request_0" r) as [[response shutdown]|] eqn:Er;
    [|exfalso; vm_compute in E; injection E as <- <-; vm_compute in Er; discriminate].
  destruct (encode_frame (JObj response) MAX_FRAME_BYTES) as [bytes|e] eqn:Eb;
    [|exfalso; vm_compute in E; injection E as <- <-; vm_compute in Er; injection Er as <- <-;
      vm_compute in Eb; discriminate].
  assert (Hok : forall d b, r = Ok (d, b) -> wire_ok (JObj d) = true)
    by (intros d b ->; vm_compute in E; injection E as <- <- <-; vm_compute; reflexivity).
  pose proof (call_outcome (H := demo_crypto) (H0 := demo_signatures) demo_cfg demo_identity
    (demo_wire demo_owner) "runtime.arm" demo_reason frame demo_server s r response shutdown bytes
    (demo_delivers _) eq_refl ltac:(vm_compute; discriminate) eq_refl Ef E Hok Er Eb) as Hc.
  assert (Hr : exists d, outcome (demo_wire demo_owner) r = Ok d /\
    dget d "supervision_state" = Some (JStr "ARMED"))
    by (vm_compute in E; injection E as <- <-; eexists; vm_compute; split; reflexivity).
  destruct Hr as (d & Hd & Ha). exists s, d. split; [|exact Ha]. rewrite Hd in Hc. exact Hc.
Defined.



(** A daemon that answers every status with a finished action. *)
#[local] Instance finished_call : DaemonCall Z unit := fun w method p s =>
  (s, if String.eqb method "action.status" then Ok [("state", JStr (if w <=? 0 then "RUNNING" else "FINISHED"))]
      else Err (DaemonRequestError "ACTION_NOT_ACTIVE")).

Definition demo_follower : client unit :=
  {| cl_leases := [("a", {| l_session := "s"; l_next := 10; l_interval := 5 |})]; cl_daemon := tt |}.

Lemma lease_kept_current_witness : exists c status,
  client_get_action_status 0 0 3 4 "a" demo_follower = (c, Ok status) /\
  (forall id', "a" <> id' -> dget (cl_leases c) id' = dget (cl_leases demo_follower) id').
Proof.
  destruct (client_get_action_status 0 0 3 4 "a" demo_follower) as [c [status|e]] eqn:E;
    [|exfalso; vm_compute in E; discriminate].
  exists c, status. split; [reflexivity|].
  exact (proj2 (proj2 (lease_kept_current 0 0 3 4 "a" demo_follower c status E))).
Defined.

Definition demo_polls : list (poll (W := Z)) :=
  [{| po_renew := 0; po_status := 0; po_now := 1; po_renewed := 1; po_late := 2 |};
   {| po_renew := 0; po_status := 0; po_now := 12; po_renewed := 12; po_late := 60 |}].

Lemma wait_ends_witness :
  (wait_for_action demo_polls 0 50 "a" demo_follower).2 = Err (DaemonRequestError "ACTION_WAIT_TIMEOUT") /\
  (wait_for_action demo_polls 0 50 "a" demo_follower).2 <> Ok None.
Proof.
  split; [vm_compute; reflexivity|]. intros E.
  assert (Hx : Exists (fun p => 0 + Z.max 0 50 <= po_late p) demo_polls)
    by (right; left; vm_compute; discriminate).
  pose proof (wait_ends demo_polls 0 50 "a" demo_follower Hx) as Hw. rewrite E in Hw. exact Hw.
Defined.

Lemma client_reaches_handlers_witness :
  @client_arm_runtime _ _ (direct_call (H := demo_crypto) (H0 := demo_signatures) demo_cfg demo_identity)
    (demo_request, demo_owner) "preflight" demo_client =
  handled (on_plane (lift (arm_reply demo_cfg demo_io "preflight" demo_owner))) demo_client.
Proof.
  assert (Hs : forall n, 20 <= n -> sendable n "preflight")
    by (intros n Hn; split; [reflexivity|]; change (len "preflight") with 9; lia).
  assert (Hl : scope_sendable ["preflight"]) by (split; [discriminate|reflexivity]).
  exact (proj1 (proj2 (client_reaches_handlers (H := demo_crypto) (H0 := demo_signatures) demo_cfg demo_identity
    demo_request demo_owner "preflight" "preflight" "preflight" "preflight" "" "" 0 "preflight" "preflight"
    ["preflight"] ["preflight"] 0 "preflight" demo_client (Hs 256 ltac:(lia)) (Hs 256 ltac:(lia))
    (Hs 1024 ltac:(lia)) (Hs 128 ltac:(lia)) (Hs 256 ltac:(lia)) (Hs 256 ltac:(lia)) (Hs 256 ltac:(lia)) Hl Hl))).
Defined.

Lemma client_actions_arrive_witness :
  @client_issue_execution_permit _ _ (direct_call (H := demo_crypto) (H0 := demo_signatures) demo_cfg demo_identity)
    (demo_request, demo_owner) (ActionEnvelope_to_dict demo_action) "alice" 501 (Fin 60 0) "preflight" demo_client =
  handled (on_plane (lift (issue_reply (H := demo_crypto) demo_cfg demo_io demo_action "alice" 501 (Fin 60 0) "preflight" demo_owner)))
    demo_client.
Proof.
  assert (Hs : forall n, 16 <= n -> sendable n "alice")
    by (intros n Hn; split; [reflexivity|]; change (len "alice") with 5; lia).
  assert (Hr : sendable 1024 "preflight") by (split; [reflexivity|vm_compute; discriminate]).
  exact (proj1 (proj2 (client_actions_arrive (H := demo_crypto) (H0 := demo_signatures) demo_cfg demo_identity
    demo_request demo_owner demo_action 0 "alice" 501 (Fin 60 0) "preflight" [] [] "alice" "alice" "alice" []
    demo_client (sb_action _ _ _ demo_submission) (Hs 256 ltac:(lia)) Hr (Hs 256 ltac:(lia)) (Hs 16 ltac:(lia))
    (Hs 128 ltac:(lia))))).
Defined.
