(* ===== verification/Socket.v ===== *)
(** The life of the daemon's socket: [RosclawDaemon] of
    src/src/rosclaw/daemon/server.py, and the checks a client of
    src/src/rosclaw/daemon/client.py makes before it trusts the path.

    The file system is the two nodes that matter, the socket's path and its
    directory; a method runs without another process in between. What the system
    decides (the probe of an existing socket, whether a call fails) is an argument. *)

From S2P Require Export Client.

(** ** The file system *)

Inductive kind := K_socket | K_directory | K_symlink (resolves : bool) | K_other.

Record node := { n_kind : kind; n_mode : Z; n_uid : Z; n_gid : Z; n_ino : Z }.

Record fs := { fs_parent : option node; fs_path : option node; fs_next : Z }.

(** [connect] to an existing socket; absent where another process has removed it. *)
Inductive probe := P_absent | P_refused | P_timeout | P_errno (gone : bool) | P_listening.

(** [RuntimeError] or [ValueError] of the server itself; any other exception. *)
Inductive sock_exn := Refuses | Fails.

(** What the system answers one method. *)
Record sys := {
  y_euid : Z;
  y_gid : Z;
  y_umask : Z;
  y_path_bytes : Z;             (* [len(os.fsencode(path))] *)
  y_group : option Z;           (* [getgrnam(socket_group)], if the group exists *)
  y_mkdir : bool;
  y_probe : probe;
  y_bind : bool;                (* [bind] succeeds *)
  y_chmod : bool;
  y_chown : bool;
  y_listen : bool;              (* [listen] and [stat] succeed *)
  y_serves : bool;              (* [service.start()] and the accept thread start *)
}.

Definition S_IMODE (m : Z) : Z := Z.land m 4095.
Definition S_IWGRP : Z := 16.
Definition S_IXGRP : Z := 8.
Definition S_IWOTH : Z := 2.

Definition has_bits (m b : Z) : bool := negb (Z.land m b =? 0).

Definition is_socket (n : node) : bool := match n_kind n with K_socket => true | _ => false end.
Definition is_directory (n : node) : bool := match n_kind n with K_directory => true | _ => false end.

(** ** The server *)

Record server := {
  so_mode : Z;
  so_group : bool;              (* a [socket_group] is configured *)
  so_max_clients : Z;
  so_listener : bool;
  so_inode : option Z;
  so_shutdown : bool;
  so_slots : Z;
  so_clients : Z;               (* connections being handled *)
  so_fs : fs;
}.

(** [__init__]: the socket grants its owner access and the world none. *)
Definition server_init (socket_mode max_clients : Z) (group : bool) (f : fs) : result sock_exn server :=
  let mode := S_IMODE socket_mode in
  guard! (socket_mode =? mode) && negb (has_bits mode 7) && (Z.land mode 384 =? 384) else Refuses in
  let clients := Z.max 1 max_clients in
  Ok {| so_mode := mode; so_group := group; so_max_clients := clients; so_listener := false;
        so_inode := None; so_shutdown := false; so_slots := clients; so_clients := 0; so_fs := f |}.

Abbreviation F := (st fs sock_exn).

Definition set_path (n : option node) (f : fs) : fs :=
  {| fs_parent := fs_parent f; fs_path := n; fs_next := fs_next f |}.

(** [parent.mkdir(parents=True, exist_ok=True, mode=0o700)] *)
Definition make_parent (y : sys) : F unit := fun f =>
  match fs_parent f with
  | Some n => (f, if is_directory n then Ok tt else Err Fails)
  | None =>
      if y_mkdir y then
        ({| fs_parent := Some {| n_kind := K_directory; n_mode := Z.ldiff 448 (y_umask y); n_uid := y_euid y;
                                 n_gid := y_gid y; n_ino := fs_next f |};
            fs_path := fs_path f; fs_next := fs_next f + 1 |}, Ok tt)
      else (f, Err Fails)
  end.

(** The checks of the directory. *)
Definition parent_ok (y : sys) (group : option Z) (n : node) : bool :=
  is_directory n && ((n_uid n =? 0) || (n_uid n =? y_euid y))
  && negb (has_bits (S_IMODE (n_mode n)) (S_IWGRP + S_IWOTH))
  && match group with
     | Some g => (n_gid n =? g) && has_bits (S_IMODE (n_mode n)) S_IXGRP
     | None => true
     end.

(** [_prepare_socket_path] *)
Definition prepare_socket_path (y : sys) (group : option Z) : F unit :=
  run! st_guard (y_path_bytes y <? 104) Refuses;
  do! f <- st_get (fun f => f);
  run! st_guard (match fs_parent f with Some {| n_kind := K_symlink true |} => false | _ => true end) Refuses;
  run! make_parent y;
  do! f <- st_get (fun f => f);
  run! st_guard (match fs_parent f with Some n => parent_ok y group n | None => false end) Refuses;
  match fs_path f with
  | None => st_ret tt
  | Some n =>
      run! st_guard (is_socket n) Refuses;
      match y_probe y with
      | P_absent | P_refused | P_errno true => st_set (set_path None)
      | P_timeout | P_errno false | P_listening => st_raise Refuses
      end
  end.

(** [_socket_group_id] *)
Definition socket_group_id (y : sys) (group : bool) : result sock_exn (option Z) :=
  if group then match y_group y with Some g => Ok (Some g) | None => Err Refuses end else Ok None.

(** [bind]: a new socket, if nothing is at the path. *)
Definition bind_socket (y : sys) : F unit := fun f =>
  match fs_path f with
  | Some _ => (f, Err Fails)
  | None =>
      if y_bind y then
        ({| fs_parent := fs_parent f;
            fs_path := Some {| n_kind := K_socket; n_mode := Z.ldiff 511 (y_umask y); n_uid := y_euid y; n_gid := y_gid y;
                               n_ino := fs_next f |};
            fs_next := fs_next f + 1 |}, Ok tt)
      else (f, Err Fails)
  end.

Definition with_mode (mode : Z) (n : node) : node :=
  {| n_kind := n_kind n; n_mode := mode; n_uid := n_uid n; n_gid := n_gid n; n_ino := n_ino n |}.
Definition with_gid (gid : Z) (n : node) : node :=
  {| n_kind := n_kind n; n_mode := n_mode n; n_uid := n_uid n; n_gid := gid; n_ino := n_ino n |}.

(** One call of the system on the path, if it succeeds. *)
Definition on_path (done : bool) (change : node -> node) : F node := fun f =>
  match fs_path f with
  | Some n => if done then (set_path (Some (change n)) f, Ok (change n)) else (f, Err Fails)
  | None => (f, Err Fails)
  end.

(** [chmod], [chown], [listen]; the inode that [stat] then reports. *)
Definition own_socket (y : sys) (mode : Z) (group : option Z) : F Z :=
  do! _ <- on_path (y_chmod y) (with_mode mode);
  do! _ <- match group with
           | Some g => on_path (y_chown y) (with_gid g)
           | None => on_path true (fun n => n)
           end;
  do! n <- on_path (y_listen y) (fun n => n);
  st_ret (n_ino n).

Abbreviation D := (st server sock_exn).
Implicit Types (s : server) (y : sys).

Definition with_fs (f : fs) s : server :=
  {| so_mode := so_mode s; so_group := so_group s; so_max_clients := so_max_clients s;
     so_listener := so_listener s; so_inode := so_inode s; so_shutdown := so_shutdown s;
     so_slots := so_slots s; so_clients := so_clients s; so_fs := f |}.
Definition with_listener (b : bool) s : server :=
  {| so_mode := so_mode s; so_group := so_group s; so_max_clients := so_max_clients s;
     so_listener := b; so_inode := so_inode s; so_shutdown := so_shutdown s;
     so_slots := so_slots s; so_clients := so_clients s; so_fs := so_fs s |}.
Definition with_inode (i : option Z) s : server :=
  {| so_mode := so_mode s; so_group := so_group s; so_max_clients := so_max_clients s;
     so_listener := so_listener s; so_inode := i; so_shutdown := so_shutdown s;
     so_slots := so_slots s; so_clients := so_clients s; so_fs := so_fs s |}.
Definition with_shutdown (b : bool) s : server :=
  {| so_mode := so_mode s; so_group := so_group s; so_max_clients := so_max_clients s;
     so_listener := so_listener s; so_inode := so_inode s; so_shutdown := b;
     so_slots := so_slots s; so_clients := so_clients s; so_fs := so_fs s |}.
Definition with_clients (slots clients : Z) s : server :=
  {| so_mode := so_mode s; so_group := so_group s; so_max_clients := so_max_clients s;
     so_listener := so_listener s; so_inode := so_inode s; so_shutdown := so_shutdown s;
     so_slots := slots; so_clients := clients; so_fs := so_fs s |}.

Definition on_fs {A} (m : F A) : D A := fun s => let '(f, r) := m (so_fs s) in (with_fs f s, r).

(** [_unlink_owned_socket]: only the socket this server bound. *)
Definition unlink_owned_socket : D unit := st_set (fun s =>
  match so_inode s with
  | None => s
  | Some i =>
      let f := so_fs s in
      with_inode None
        match fs_path f with
        | Some n => if is_socket n && (n_ino n =? i) then with_fs (set_path None f) s else s
        | None => s
        end
  end).

(** [start] *)
Definition server_start (y : sys) : D unit :=
  do! s <- st_get (fun s => s);
  if so_listener s then st_ret tt
  else
    do! group <- st_of (socket_group_id y (so_group s));
    run! on_fs (prepare_socket_path y group);
    run! st_try
      (run! on_fs (bind_socket y);
       do! inode <- on_fs (own_socket y (so_mode s) group);
       st_set (with_inode (Some inode)))
      (fun e => run! unlink_owned_socket; st_raise e);
    run! st_set (with_listener true);
    run! st_set (with_shutdown false);
    if y_serves y then st_ret tt
    else
      run! st_set (with_listener false);
      run! unlink_owned_socket;
      st_raise Fails.

(** [request_shutdown] and [stop]; the control plane's [close] is in ControlPlane.v. *)
Definition request_shutdown : D unit := st_set (with_shutdown true).

Definition server_stop : D unit :=
  do! s <- st_get (fun s => s);
  if negb (so_listener s) && bool_decide (so_inode s = None) then st_ret tt
  else
    run! st_set (with_shutdown true);
    run! st_set (with_listener false);
    unlink_owned_socket.

(** One round of [_accept_loop] that accepted a connection: is it handled? [started]
    is whether its thread starts. *)
Definition accept_client (started : bool) : D bool := fun s =>
  if so_shutdown s || negb (so_listener s) then (s, Ok false)
  else if so_slots s <=? 0 then (s, Ok false)
  else if started then (with_clients (so_slots s - 1) (so_clients s + 1) s, Ok true)
  else (s, Ok false).

(** The end of [_handle_client]. *)
Definition client_done (stop : bool) : D unit := fun s =>
  if 0 <? so_clients s then
    (with_shutdown (so_shutdown s || stop) (with_clients (so_slots s + 1) (so_clients s - 1) s), Ok tt)
  else (s, Ok tt).

(** ** The client's checks *)

(** [DaemonSecurityError] and [DaemonUnavailableError] *)
Inductive path_exn := PathUnsafe | PathMissing.

(** [_validate_socket_path] *)
Definition validate_socket_path (path_bytes : Z) (f : fs) : result path_exn node :=
  guard! path_bytes <? 104 else PathUnsafe in
  let* n := of_option (fs_path f) PathMissing in
  guard! is_socket n else PathUnsafe in
  guard! negb (has_bits (S_IMODE (n_mode n)) S_IWOTH) else PathUnsafe in
  let* p := of_option (fs_parent f) PathMissing in
  guard! is_directory p else PathUnsafe in
  guard! negb (has_bits (S_IMODE (n_mode p)) (S_IWGRP + S_IWOTH)) else PathUnsafe in
  guard! (n_uid p =? 0) || (n_uid p =? n_uid n) else PathUnsafe in
  Ok n.

(** The checks of [call] before it sends: the peer owns the socket, and is the
    expected daemon. *)
Definition daemon_trusted (n : node) (peer : PeerCredentials) (expected : option Z) : bool :=
  (uid peer =? n_uid n) && match expected with Some u => uid peer =? u | None => true end.

(** ** The path is respected *)

(** What [start] may take the place of: nothing, or a socket nobody listens on. *)
Definition abandoned (y : sys) (n : node) : bool :=
  is_socket n && match y_probe y with P_absent | P_refused | P_errno true => true | _ => false end.

(** The node at the path is kept, unless it was an abandoned socket. *)
Definition keeps_path (y : sys) (f f' : fs) : Prop :=
  forall n, fs_path f = Some n -> abandoned y n = false -> fs_path f' = Some n.

#[export] Instance keeps_path_preorder y : PreOrder (keeps_path y).
Proof. split; [by intros f n|]. intros a b c Hab Hbc n Hn Ha. apply Hbc; [|done]. by apply Hab. Qed.

Ltac keeping :=
  repeat first
    [ apply keeps_bind; [apply _| |intros ?] | apply keeps_ret, _ | apply keeps_raise, _
    | apply keeps_get, _ | apply keeps_guard, _ | match goal with
      | |- keeps _ (if ?b then _ else _) => destruct b
      | |- keeps _ (match ?r with Ok _ => _ | Err _ => _ end) => destruct r end ].

Lemma make_parent_keeps y : keeps (keeps_path y) (make_parent y).
Proof.
  intros f n Hn _. unfold make_parent. destruct (fs_parent f); [done|]. by destruct (y_mkdir y).
Qed.

Lemma prepare_keeps y group : keeps (keeps_path y) (prepare_socket_path y group).
Proof.
  unfold prepare_socket_path. do 3 (apply keeps_bind; [apply _|keeping|intros ?]).
  apply keeps_bind; [apply _|apply make_parent_keeps|intros _].
  intros f n Hn Ha. unfold st_bind, st_get, st_guard, st_ret, st_raise, st_set.
  destruct (match fs_parent f with Some _ => _ | None => _ end); [|done]. rewrite Hn.
  unfold abandoned in Ha. destruct (is_socket n); [|done].
  by destruct (y_probe y) as [| | |[]|].
Qed.

Lemma bind_keeps y : keeps (keeps_path y) (bind_socket y).
Proof. intros f n Hn _. unfold bind_socket. by rewrite Hn. Qed.

Lemma prepare_refuses y group f n : fs_path f = Some n -> abandoned y n = false ->
  exists e, (prepare_socket_path y group f).2 = Err e.
Proof.
  intros Hn Ha. unfold prepare_socket_path, st_bind, st_get, st_guard, st_ret, st_raise, st_set.
  destruct (y_path_bytes y <? 104); [|by eexists].
  destruct (match fs_parent f with Some _ => _ | None => true end); [|by eexists].
  pose proof (make_parent_keeps y f n Hn Ha) as Hf.
  destruct (make_parent y f) as [f1 [[]|e]]; cbn [fst] in Hf; [|by eexists].
  destruct (match fs_parent f1 with Some _ => _ | None => _ end); [|by eexists]. rewrite Hf.
  unfold abandoned in Ha. destruct (is_socket n); [|by eexists].
  destruct (y_probe y) as [| | |[]|]; try done; by eexists.
Qed.

(** [start] does not replace what is at the path unless it is a socket nobody
    listens on: it raises and leaves the node. *)
Theorem start_respects_path y s n :
  so_listener s = false -> fs_path (so_fs s) = Some n -> abandoned y n = false ->
  (exists e, (server_start y s).2 = Err e) /\ fs_path (so_fs (server_start y s).1) = Some n.
Proof.
  intros Hl Hn Ha. unfold server_start, st_bind, st_get. rewrite Hl. unfold st_of.
  destruct (socket_group_id y (so_group s)) as [group|e]; [|split; [by eexists|done]].
  unfold on_fs. pose proof (prepare_keeps y group _ _ Hn Ha) as Hf.
  destruct (prepare_refuses y group _ _ Hn Ha) as [e He].
  destruct (prepare_socket_path y group (so_fs s)) as [f r]. cbn [fst snd] in *. subst r.
  split; [by eexists|done].
Qed.

Lemma prepare_ok y group f f' : prepare_socket_path y group f = (f', Ok tt) ->
  y_path_bytes y < 104 /\ fs_path f' = None /\
  exists p, fs_parent f' = Some p /\ parent_ok y group p = true.
Proof.
  unfold prepare_socket_path, st_bind, st_get, st_guard, st_ret, st_raise, st_set.
  destruct (y_path_bytes y <? 104) eqn:Eb; [|done]. breflect.
  destruct (match fs_parent f with Some _ => _ | None => true end); [|done].
  destruct (make_parent y f) as [f1 [[]|e]]; [|done].
  destruct (fs_parent f1) as [p|] eqn:Ep; [|done]. destruct (parent_ok y group p) eqn:Eo; [|done].
  destruct (fs_path f1) as [n|] eqn:En.
  - destruct (is_socket n); [|done].
    destruct (y_probe y) as [| | |[]|]; intros [= <-]; (split; [done|]; split; [done|]; by exists p).
  - intros [= <-]. split; [done|]. split; [done|]. by exists p.
Qed.


Lemma bind_socket_ok y f f' : bind_socket y f = (f', Ok tt) ->
  fs_parent f' = fs_parent f /\
  exists n, fs_path f' = Some n /\ is_socket n = true /\ n_uid n = y_euid y.
Proof.
  unfold bind_socket. destruct (fs_path f); [done|]. destruct (y_bind y); [|done]. intros [= <-].
  split; [done|]. by eexists.
Qed.

Lemma on_path_ok b g f f' n' : on_path b g f = (f', Ok n') ->
  exists n, fs_path f = Some n /\ n' = g n /\ fs_path f' = Some (g n) /\ fs_parent f' = fs_parent f.
Proof.
  unfold on_path. destruct (fs_path f) as [n|]; [|done]. destruct b; [|done]. intros [= <- <-]. by exists n.
Qed.

Lemma own_socket_ok y mode group f f' i : own_socket y mode group f = (f', Ok i) ->
  exists n n', fs_path f = Some n /\ fs_path f' = Some n' /\ fs_parent f' = fs_parent f /\
    i = n_ino n' /\ n_mode n' = mode /\ n_kind n' = n_kind n /\ n_uid n' = n_uid n.
Proof.
  unfold own_socket, st_bind, st_ret. destruct (on_path (y_chmod y) _ f) as [f1 [n1|e]] eqn:E1; [|done].
  apply on_path_ok in E1 as (n & Hn & -> & Hn1 & Hp1).
  destruct (match group with Some g => _ | None => _ end) as [f2 [n2|e]] eqn:E2; [|done].
  assert (H2 : exists g, on_path true (fun n => with_gid (default (n_gid n) g) n) f1 = (f2, Ok n2)).
  { destruct group as [g|].
    - exists (Some g). revert E2. unfold on_path. rewrite Hn1. by destruct (y_chown y).
    - exists None. revert E2. unfold on_path. rewrite Hn1. by intros [= <- <-]. }
  destruct H2 as [g H2]. apply on_path_ok in H2 as (m & Hm & -> & Hm2 & Hp2). rewrite Hn1 in Hm. injection Hm as <-.
  destruct (on_path (y_listen y) _ f2) as [f3 [n3|e]] eqn:E3; [|done].
  apply on_path_ok in E3 as (k & Hk & -> & Hk3 & Hp3). rewrite Hm2 in Hk. injection Hk as <-.
  intros [= <- <-]. do 2 eexists. split; [done|]. split; [done|]. split; [congruence|done].
Qed.

(** What a [start] that succeeds leaves. *)
Lemma server_start_ok y s s' : so_listener s = false -> server_start y s = (s', Ok tt) ->
  y_path_bytes y < 104 /\ so_listener s' = true /\ so_shutdown s' = false /\ so_mode s' = so_mode s /\
  exists n p group, fs_path (so_fs s') = Some n /\ fs_parent (so_fs s') = Some p /\
    so_inode s' = Some (n_ino n) /\ is_socket n = true /\ n_mode n = so_mode s /\
    n_uid n = y_euid y /\ parent_ok y group p = true.
Proof.
  intros Hl. unfold server_start, st_bind at 1, st_get. rewrite Hl. unfold st_bind at 1, st_of.
  destruct (socket_group_id y (so_group s)) as [group|e]; [|done].
  unfold st_bind at 1, on_fs at 1.
  destruct (prepare_socket_path y group (so_fs s)) as [f1 [[]|e]] eqn:Ep; [|done].
  destruct (prepare_ok _ _ _ _ Ep) as (Hb & Hn & p & Hp & Hok).
  unfold st_bind at 1, st_try, st_bind at 1, on_fs at 1. cbn [so_fs with_fs].
  destruct (bind_socket y f1) as [f2 [[]|e]] eqn:Eb; [|done]. apply bind_socket_ok in Eb as (Hp2 & n & Hn2 & Hk & Hu).
  unfold st_bind at 1, on_fs at 1. cbn [so_fs with_fs].
  destruct (own_socket y _ group f2) as [f3 [i|e]] eqn:Eo; [|done].
  apply own_socket_ok in Eo as (n0 & n' & Hn0 & Hn' & Hp3 & -> & Hm & Hk' & Hu'). rewrite Hn2 in Hn0.
  injection Hn0 as <-. unfold st_set. unfold st_bind. destruct (y_serves y); [|done].
  intros [= <-]. cbn. split_and!; try done. exists n', p, group. unfold is_socket in *. rewrite Hk', Hu'.
  split_and!; try done. congruence.
Qed.

Lemma world_bit m : has_bits m 7 = false -> has_bits (S_IMODE m) S_IWOTH = false.
Proof.
  unfold has_bits, S_IMODE, S_IWOTH. intros Hm. apply negb_false_iff, Z.eqb_eq in Hm.
  apply negb_false_iff, Z.eqb_eq. rewrite <- Z.land_assoc. change (Z.land 4095 2) with (Z.land 7 2).
  rewrite Z.land_assoc, Hm. reflexivity.
Qed.

(** A client trusts the path a server started on: from a server the constructor
    accepts, whatever was there before, a [start] that succeeds leaves a socket of the
    daemon's user that passes the client's checks, and a peer with that uid is taken
    for the daemon. *)
Theorem started_socket_trusted mode max group f y s s' peer :
  server_init mode max group f = Ok s -> server_start y s = (s', Ok tt) -> uid peer = y_euid y ->
  exists n, validate_socket_path (y_path_bytes y) (so_fs s') = Ok n /\ n_mode n = mode /\
    n_uid n = y_euid y /\ daemon_trusted n peer None = true.
Proof.
  intros Hi Hs Hu. unfold server_init in Hi. ok_inv Hi. subst s. breflect.
  match goal with Hm : mode = S_IMODE mode, Hw : has_bits _ 7 = false |- _ => rename Hm into Hmode; rename Hw into Hbits end.
  match type of Hs with server_start _ ?s0 = _ => pose proof (server_start_ok y s0 s' eq_refl Hs) as Hst end.
  destruct Hst as (Hb & _ & _ & _ & n & p & g & Hn & Hp & _ & Hk & Hmd & Hun & Hok).
  cbn [so_mode] in Hmd. rewrite <- Hmode in Hmd. rewrite <- Hmode in Hbits.
  exists n. unfold validate_socket_path. rewrite (proj2 (Z.ltb_lt _ _) Hb), Hn. cbn [require rbind of_option].
  rewrite Hk. cbn [require rbind]. rewrite Hmd, world_bit by done. cbn [negb require rbind].
  rewrite Hp. cbn [of_option rbind]. unfold parent_ok in Hok.
  apply andb_prop in Hok as [Hok _]. apply andb_prop in Hok as [Hok Hw]. apply andb_prop in Hok as [Hd Ho].
  rewrite Hd, Hw, Hun, Ho. cbn [require rbind]. split_and!; [done|done|done|].
  unfold daemon_trusted. by rewrite Hun, Hu, Z.eqb_refl.
Qed.

(** ** Stopping removes the server's own socket only *)

(** After a successful [start], [stop] removes the socket it bound, and nothing
    that another process has put in its place since. *)
Theorem stop_removes_own y s s1 later n :
  so_listener s = false -> server_start y s = (s1, Ok tt) ->
  fs_path later = Some n ->
  let s2 := (server_stop (with_fs later s1)).1 in
  so_listener s2 = false /\
  fs_path (so_fs s2) = if is_socket n && bool_decide (so_inode s1 = Some (n_ino n)) then None else Some n.
Proof.
  intros Hl Hs Hn. destruct (server_start_ok _ _ _ Hl Hs) as (_ & Hl1 & _ & _ & m & _ & _ & _ & _ & Hi & _).
  unfold server_stop, st_bind, st_get, st_set, unlink_owned_socket. cbn [so_listener with_fs]. rewrite Hl1.
  cbn [negb andb]. unfold st_set. cbn [so_inode with_listener with_shutdown with_fs so_fs]. rewrite Hi, Hn.
  replace (n_ino n =? n_ino m) with (bool_decide (Some (n_ino m) = Some (n_ino n))).
  2: { apply eq_true_iff_eq. rewrite bool_decide_eq_true, Z.eqb_eq. split; [by intros [= ->]|by intros ->]. }
  by destruct (is_socket n && _).
Qed.

(** ** The connections are bounded *)

Inductive astep : server -> server -> Prop :=
| a_accept s started : astep s (accept_client started s).1
| a_done s stop : astep s (client_done stop s).1
| a_shutdown s : astep s (request_shutdown s).1.

(** However connections come and go, a server handles at most [max_clients] at
    once, and a slot is free for each it could still take. *)
Theorem clients_bounded mode max group f s s' :
  server_init mode max group f = Ok s -> rtc astep (with_listener true s) s' ->
  0 <= so_clients s' <= Z.max 1 max /\ so_slots s' + so_clients s' = Z.max 1 max /\
  (so_shutdown s' = false -> so_clients s' < Z.max 1 max -> (accept_client true s').2 = Ok true).
Proof.
  intros Hi Hr. unfold server_init in Hi. ok_inv Hi. subst s.
  assert (Hinv : (0 <= so_clients s' /\ 0 <= so_slots s' /\ so_slots s' + so_clients s' = Z.max 1 max) /\
                 so_listener s' = true).
  { match type of Hr with rtc _ ?s0 _ =>
      assert (H0 : (0 <= so_clients s0 /\ 0 <= so_slots s0 /\ so_slots s0 + so_clients s0 = Z.max 1 max) /\
        so_listener s0 = true) by (cbn [so_clients so_slots so_listener with_listener]; split; [lia|done]) end.
    revert H0. induction Hr as [x|x x1 x2 Hx _ IH]; intros H0; [exact H0|]. apply IH. clear IH.
    destruct H0 as [H0 Hl]. destruct Hx as [x started|x stop|x].
    - unfold accept_client. destruct (_ || _); [done|]. destruct (so_slots x <=? 0) eqn:E; [done|].
      destruct started; [|done]. breflect. cbn. split; [lia|done].
    - unfold client_done. destruct (0 <? so_clients x) eqn:E; [|done]. breflect. cbn. split; [lia|done].
    - done. }
  destruct Hinv as [Hinv Hl]. split; [lia|]. split; [lia|]. intros Hs Hc. unfold accept_client.
  rewrite Hs, Hl. cbn [negb orb]. destruct (so_slots s' <=? 0) eqn:E; [breflect; lia|done].
Qed.

(** ** A start that fails after [bind] *)

(** The handler's [_unlink_owned_socket] knows no inode yet, so the socket stays. *)
Theorem failed_start_leaves_socket y s group f1 :
  so_listener s = false -> so_inode s = None -> socket_group_id y (so_group s) = Ok group ->
  prepare_socket_path y group (so_fs s) = (f1, Ok tt) -> y_bind y = true -> y_chmod y = false ->
  (server_start y s).2 = Err Fails /\
  exists n, fs_path (so_fs (server_start y s).1) = Some n /\ is_socket n = true /\
    forall y', y_probe y' = P_refused -> abandoned y' n = true.
Proof.
  intros Hl Hi Hg Hp Hb Hc. unfold server_start, st_bind, st_get. rewrite Hl. unfold st_of. rewrite Hg.
  unfold st_try, on_fs, bind_socket. rewrite Hp. cbn [so_fs with_fs].
  rewrite (proj1 (proj2 (prepare_ok _ _ _ _ Hp))), Hb. cbn [so_fs with_fs].
  unfold own_socket, st_bind, on_path. cbn [fs_path]. rewrite Hc.
  unfold unlink_owned_socket, st_set, st_raise. cbn [so_inode with_fs]. rewrite Hi. split; [done|].
  eexists. split; [done|]. split; [done|]. intros y' Hy. unfold abandoned. by rewrite Hy.
Qed.

(** ** A run *)

Definition demo_sys : sys :=
  {| y_euid := 1000; y_gid := 1000; y_umask := 18; y_path_bytes := 30; y_group := None; y_mkdir := true;
     y_probe := P_absent; y_bind := true; y_chmod := true; y_chown := true; y_listen := true; y_serves := true |}.
Definition demo_fs : fs := {| fs_parent := None; fs_path := None; fs_next := 1 |}.

Example demo_start :
  match server_init 384 0 false demo_fs with
  | Ok s =>
      let '(s1, r) := server_start demo_sys s in
      r = Ok tt /\ option_map n_mode (fs_path (so_fs s1)) = Some 384 /\
      is_ok (validate_socket_path 30 (so_fs s1)) = true /\
      (accept_client true s1).2 = Ok true /\ (accept_client true (accept_client true s1).1).2 = Ok false /\
      fs_path (so_fs (server_stop s1).1) = None
  | Err _ => False
  end.
Proof. vm_compute. repeat split. Qed.

Example demo_rejected_mode : server_init 438 32 false demo_fs = Err Refuses.
Proof. reflexivity. Qed.

(** A symbolic link where the directory should be. *)
Example demo_symlink :
  (prepare_socket_path demo_sys None
     {| fs_parent := Some {| n_kind := K_symlink true; n_mode := 511; n_uid := 0; n_gid := 0; n_ino := 1 |};
        fs_path := None; fs_next := 2 |}).2 = Err Refuses.
Proof. reflexivity. Qed.
