(* ===== verification/Clock.v ===== *)
(** The text of an instant and its order.

    [isoformat] is [datetime.now(UTC).isoformat()], the text the stores of
    src/src/rosclaw/team and src/src/rosclaw/operator/broker.py keep and compare as
    text. [str_ltb] is the order of Python strings; on the text of UTC instants it is
    the order of the instants. *)

From S2P Require Export Time.

(** [s < t] on strings. *)
Definition str_ltb (s t : string) : bool :=
  match String.compare s t with Lt => true | _ => false end.

Definition offset_text (o : Z) : string :=
  (if o <? 0 then "-" else "+") +:+ d2 (Z.abs o / 60) +:+ ":" +:+ d2 (Z.abs o mod 60).

(** [d.isoformat()] *)
Definition isoformat (d : datetime) : string :=
  let local := us d + off d * usec_per_min in
  let '(y, m, dd) := civil_of_days (local / usec_per_day) in
  d4 y +:+ "-" +:+ d2 m +:+ "-" +:+ d2 dd +:+ "T"
  +:+ iso_time (local mod usec_per_day) +:+ offset_text (off d).

(** ** Reading it back *)

Lemma parse_offset_text o : -1440 < o < 1440 -> parse_offset (offset_text o) = Some (Some o).
Proof.
  intros Ho. destruct (decide (o = 0)) as [->|Hne]; [reflexivity|].
  rewrite <- (parse_offset_iso o Ho). unfold iso_offset, offset_text.
  by rewrite (proj2 (Z.eqb_neq o 0) Hne).
Qed.

Lemma parse_aware_isoformat d : dt_wf d -> parse_aware (isoformat d) = Some d.
Proof.
  intros [Hy Ho]. unfold parse_aware, isoformat, parse_iso.
  set (local := us d + off d * usec_per_min) in *.
  pose proof (parse_date_iso (local / usec_per_day)
    ("T" +:+ iso_time (local mod usec_per_day) +:+ offset_text (off d)) Hy) as Hp.
  destruct (civil_of_days _) as [[y m] dd]. rewrite Hp.
  cbn [mbind option_bind]. rewrite expect_same. cbn [mbind option_bind].
  rewrite parse_time_iso; [..|unfold offset_text].
  - cbn [mbind option_bind]. rewrite parse_offset_text by done. cbn [mbind option_bind].
    destruct d as [u o]. cbn [us off] in *. f_equal. f_equal. unfold local.
    pose proof (Z_div_mod_eq_full (u + o * usec_per_min) usec_per_day). unfold usec_per_min in *. lia.
  - unfold usec_per_day. apply Z.mod_pos_bound. lia.
  - by destruct (off d <? 0).
Qed.

(** ** Comparing text *)

Lemma compare_app_same a s t : String.compare (a +:+ s) (a +:+ t) = String.compare s t.
Proof.
  induction a as [|c a IH]; [done|]. cbn [String.append String.compare].
  unfold Ascii.compare. rewrite N.compare_refl. exact IH.
Qed.

Lemma ord_digit z : 0 <= z <= 9 -> N_of_ascii (digit z) = Z.to_N (48 + z).
Proof. intros Hz. unfold digit. apply N_ascii_embedding. lia. Qed.

Lemma compare_digit a b s t : 0 <= a <= 9 -> 0 <= b <= 9 ->
  String.compare (String (digit a) s) (String (digit b) t) =
  match a ?= b with Eq => String.compare s t | c => c end.
Proof.
  intros Ha Hb. cbn [String.compare]. unfold Ascii.compare. rewrite !ord_digit by done.
  rewrite Z2N.inj_compare by lia. by rewrite Zcompare_plus_compat.
Qed.

(** A comparison that looks at [a], then at what follows. *)
Definition then_cmp (c d : comparison) : comparison := match c with Eq => d | _ => c end.
Infix ";;;" := then_cmp (at level 60, right associativity) : rosclaw_scope.

Lemma then_cmp_digits a b k : 0 < k ->
  ((a / k ?= b / k) ;;; (a mod k ?= b mod k)) = (a ?= b).
Proof.
  intros Hk. pose proof (Z_div_mod_eq_full a k). pose proof (Z_div_mod_eq_full b k).
  pose proof (Z.mod_pos_bound a k Hk). pose proof (Z.mod_pos_bound b k Hk).
  symmetry. unfold then_cmp. destruct (a / k ?= b / k) eqn:E.
  - apply -> Z.compare_eq_iff in E. rewrite E in *.
    destruct (a mod k ?= b mod k) eqn:F.
    + apply -> Z.compare_eq_iff in F. apply Z.compare_eq_iff. lia.
    + apply -> Z.compare_lt_iff in F. apply Z.compare_lt_iff. lia.
    + apply -> Z.compare_gt_iff in F. apply Z.compare_gt_iff. lia.
  - apply -> Z.compare_lt_iff in E. apply Z.compare_lt_iff.
    pose proof (Z.mul_le_mono_nonneg_l (a / k + 1) (b / k) k). lia.
  - apply -> Z.compare_gt_iff in E. apply Z.compare_gt_iff.
    pose proof (Z.mul_le_mono_nonneg_l (b / k + 1) (a / k) k). lia.
Qed.

Lemma then_cmp_assoc a b c : ((a ;;; b) ;;; c) = (a ;;; b ;;; c).
Proof. by destruct a, b. Qed.

Lemma compare_d2 a b s t : 0 <= a <= 99 -> 0 <= b <= 99 ->
  String.compare (d2 a +:+ s) (d2 b +:+ t) = ((a ?= b) ;;; String.compare s t).
Proof.
  intros Ha Hb. unfold d2. cbn [String.append].
  pose proof (Z.mod_pos_bound a 10). pose proof (Z.mod_pos_bound b 10).
  rewrite compare_digit by (split; [apply Z.div_pos|apply Z.lt_succ_r, Z.div_lt_upper_bound]; lia).
  rewrite compare_digit by lia.
  rewrite <- (then_cmp_digits a b 10), then_cmp_assoc by lia. unfold then_cmp.
  destruct (a / 10 ?= b / 10); [|done..]. by destruct (a mod 10 ?= b mod 10).
Qed.

Lemma compare_d4 a b s t : 0 <= a <= 9999 -> 0 <= b <= 9999 ->
  String.compare (d4 a +:+ s) (d4 b +:+ t) = ((a ?= b) ;;; String.compare s t).
Proof.
  intros Ha Hb. unfold d4. rewrite !append_assoc.
  pose proof (Z.mod_pos_bound a 100). pose proof (Z.mod_pos_bound b 100).
  rewrite !compare_d2
    by (try (split; [apply Z.div_pos|apply Z.lt_succ_r, Z.div_lt_upper_bound]; lia); lia).
  rewrite <- (then_cmp_digits a b 100), then_cmp_assoc by lia. done.
Qed.

Lemma compare_d6 a b s t : 0 <= a <= 999999 -> 0 <= b <= 999999 ->
  String.compare (d6 a +:+ s) (d6 b +:+ t) = ((a ?= b) ;;; String.compare s t).
Proof.
  intros Ha Hb. unfold d6. rewrite !append_assoc.
  pose proof (Z.mod_pos_bound a 10000). pose proof (Z.mod_pos_bound b 10000).
  rewrite compare_d2 by (split; [apply Z.div_pos|apply Z.lt_succ_r, Z.div_lt_upper_bound]; lia).
  rewrite compare_d4 by lia.
  rewrite <- (then_cmp_digits a b 10000), then_cmp_assoc by lia. done.
Qed.

Lemma compare_same_char c s t : String.compare (String c "" +:+ s) (String c "" +:+ t) = String.compare s t.
Proof. apply (compare_app_same (String c "")). Qed.

(** ** Comparing instants *)

#[local] Ltac Zify.zify_post_hook ::= Z.div_mod_to_equations.

(** The month of the era-relative calendar and the day in it. *)
Lemma civil_month days :
  let '(y, m, d) := civil_of_days days in
  let z := days + 719468 in
  let doe := z mod 146097 in
  let yoe := (doe - doe / 1460 + doe / 36524 - doe / 146096) / 365 in
  let doy := doe - (365 * yoe + yoe / 4 - yoe / 100) in
  let mp := (5 * doy + 2) / 153 in
  12 * y + m = 12 * (yoe + z / 146097 * 400) + mp + 3 /\ d = doy - (153 * mp + 2) / 5 + 1 /\
  1 <= m <= 12 /\ 1 <= d <= 31 /\ 0 <= mp <= 11 /\ 0 <= yoe < 400 /\ 0 <= doe < 146097.
Proof.
  pose proof (civil_bounds days) as Hb. unfold civil_of_days in *. cbv zeta in *.
  set (z := days + 719468) in *.
  pose proof (Z.mod_pos_bound z 146097 ltac:(lia)) as Hdoe.
  set (doe := z mod 146097) in *.
  pose proof (yoe_bounds doe Hdoe) as Hyoe. pose proof (doy_bounds doe Hdoe) as Hdoy.
  set (yoe := (doe - doe / 1460 + doe / 36524 - doe / 146096) / 365) in *.
  set (doy := doe - (365 * yoe + yoe / 4 - yoe / 100)) in *.
  pose proof (mp_bounds doy Hdoy) as Hmp. set (mp := (5 * doy + 2) / 153) in *.
  destruct (mp <? 10) eqn:E; breflect.
  - replace (mp + 3 <=? 2) with false in * by (symmetry; apply Z.leb_gt; lia). lia.
  - replace (mp - 9 <=? 2) with true in * by (symmetry; apply Z.leb_le; lia). lia.
Qed.

Lemma year_of_era_le a b : 0 <= a <= b -> b < 146097 ->
  (a - a / 1460 + a / 36524 - a / 146096) / 365 <= (b - b / 1460 + b / 36524 - b / 146096) / 365.
Proof. intros. apply Z.div_le_mono; lia. Qed.

Lemma month_of_year_le a b : a < b ->
  (5 * a + 2) / 153 < (5 * b + 2) / 153 \/
  (5 * a + 2) / 153 = (5 * b + 2) / 153 /\
    a - (153 * ((5 * a + 2) / 153) + 2) / 5 < b - (153 * ((5 * b + 2) / 153) + 2) / 5.
Proof.
  intros Hab. assert ((5 * a + 2) / 153 <= (5 * b + 2) / 153) by (apply Z.div_le_mono; lia).
  destruct (decide ((5 * a + 2) / 153 = (5 * b + 2) / 153)) as [E|E]; [right|left; lia].
  rewrite E. lia.
Qed.

Lemma civil_lt a b : a < b ->
  let '(y, m, d) := civil_of_days a in let '(y', m', d') := civil_of_days b in
  y < y' \/ y = y' /\ (m < m' \/ m = m' /\ d < d').
Proof.
  intros Hab. pose proof (civil_month a) as Ha. pose proof (civil_month b) as Hb.
  destruct (civil_of_days a) as [[y m] d]. destruct (civil_of_days b) as [[y' m'] d'].
  cbv zeta in *. set (za := a + 719468) in *. set (zb := b + 719468) in *.
  assert (Hz : za / 146097 < zb / 146097 \/
               za / 146097 = zb / 146097 /\ za mod 146097 < zb mod 146097) by (unfold za, zb; lia).
  set (ea := za / 146097) in *. set (eb := zb / 146097) in *.
  set (da := za mod 146097) in *. set (db := zb mod 146097) in *. clearbody ea eb da db.
  pose proof (year_of_era_le da db) as Hy.
  set (ya := (da - da / 1460 + da / 36524 - da / 146096) / 365) in *.
  set (yb := (db - db / 1460 + db / 36524 - db / 146096) / 365) in *.
  pose proof (month_of_year_le (da - (365 * ya + ya / 4 - ya / 100)) (db - (365 * yb + yb / 4 - yb / 100))) as Hm.
  set (oa := da - (365 * ya + ya / 4 - ya / 100)) in *. set (ob := db - (365 * yb + yb / 4 - yb / 100)) in *.
  assert (Ho : ya = yb -> ob - oa = db - da) by (intros E; unfold oa, ob; rewrite E; lia).
  set (ma := (5 * oa + 2) / 153) in *. set (mb := (5 * ob + 2) / 153) in *.
  set (qa := (153 * ma + 2) / 5) in *. set (qb := (153 * mb + 2) / 5) in *.
  clearbody ya yb qa qb ma mb oa ob. clear za zb. destruct Hz as [Hz|[-> Hz]].
  - lia.
  - specialize (Hy ltac:(lia) ltac:(lia)). destruct (decide (ya = yb)) as [E|E]; [|lia].
    specialize (Ho E). specialize (Hm ltac:(lia)). lia.
Qed.

Lemma civil_compare a b :
  let '(y, m, d) := civil_of_days a in let '(y', m', d') := civil_of_days b in
  ((y ?= y') ;;; (m ?= m') ;;; (d ?= d')) = (a ?= b).
Proof.
  destruct (Z.compare_spec a b) as [->|Hab|Hab].
  - destruct (civil_of_days b) as [[y m] d]. by rewrite !Z.compare_refl.
  - apply civil_lt in Hab. destruct (civil_of_days a) as [[y m] d], (civil_of_days b) as [[y' m'] d'].
    destruct (Z.compare_spec y y'); cbn; [|done|lia].
    destruct (Z.compare_spec m m'); cbn; [|done|lia]. apply Z.compare_lt_iff. lia.
  - apply civil_lt in Hab. destruct (civil_of_days a) as [[y m] d], (civil_of_days b) as [[y' m'] d'].
    destruct (Z.compare_spec y y'); cbn; [|lia|done].
    destruct (Z.compare_spec m m'); cbn; [|lia|done]. apply Z.compare_gt_iff. lia.
Qed.

Lemma compare_d2' a b s t : 0 <= a <= 99 -> 0 <= b <= 99 ->
  String.compare (d2 a +:+ ":" +:+ s) (d2 b +:+ ":" +:+ t) = ((a ?= b) ;;; String.compare s t).
Proof. intros. by rewrite compare_d2, compare_app_same. Qed.

Lemma compare_time a b : 0 <= a < usec_per_day -> 0 <= b < usec_per_day ->
  String.compare (iso_time a +:+ offset_text 0) (iso_time b +:+ offset_text 0) = (a ?= b).
Proof.
  unfold usec_per_day. intros Ha Hb. unfold iso_time. rewrite !append_assoc.
  rewrite !compare_d2' by lia. rewrite compare_d2 by lia.
  rewrite <- (then_cmp_digits a b 1000000) by lia.
  rewrite <- (then_cmp_digits (a / 1000000) (b / 1000000) 60) by lia.
  rewrite <- (then_cmp_digits (a / 1000000 / 60) (b / 1000000 / 60) 60) by lia.
  rewrite !then_cmp_assoc, !(Z.div_div _ 60 60) by lia. change (60 * 60) with 3600. do 3 f_equal.
  destruct (a mod 1000000 =? 0) eqn:Ea, (b mod 1000000 =? 0) eqn:Eb; breflect.
  - rewrite Ea, Eb. done.
  - rewrite Ea. destruct (Z.compare_spec 0 (b mod 1000000)); [lia|done|lia].
  - rewrite Eb. destruct (Z.compare_spec (a mod 1000000) 0); [lia|lia|done].
  - rewrite !append_assoc, compare_app_same, compare_d6 by lia.
    by destruct (a mod 1000000 ?= b mod 1000000).
Qed.

(** The text of UTC instants is ordered as the instants are. *)
Theorem isoformat_order d1 d2 : dt_wf d1 -> dt_wf d2 -> off d1 = 0 -> off d2 = 0 ->
  str_ltb (isoformat d1) (isoformat d2) = dt_lt d1 d2.
Proof.
  intros [Hy1 _] [Hy2 _] Ho1 Ho2. unfold isoformat, dt_lt. rewrite Ho1, Ho2, !Z.mul_0_l, !Z.add_0_r in *.
  pose proof (civil_bounds (us d1 / usec_per_day)) as Hb1. pose proof (civil_bounds (us d2 / usec_per_day)) as Hb2.
  pose proof (civil_compare (us d1 / usec_per_day) (us d2 / usec_per_day)) as Hc.
  destruct (civil_of_days (us d1 / usec_per_day)) as [[y m] d].
  destruct (civil_of_days (us d2 / usec_per_day)) as [[y' m'] d']. cbn [fst] in *.
  unfold str_ltb. rewrite compare_d4, compare_app_same, compare_d2, compare_app_same, compare_d2, compare_app_same,
    compare_time by (try apply Z.mod_pos_bound; unfold usec_per_day; lia).
  replace ((y ?= y') ;;; (m ?= m') ;;; (d ?= d') ;;; (us d1 mod usec_per_day ?= us d2 mod usec_per_day))
    with (us d1 ?= us d2); [done|].
  rewrite <- !then_cmp_assoc, (then_cmp_assoc (y ?= y')), Hc, then_cmp_digits by (unfold usec_per_day; lia).
  done.
Qed.

Lemma str_ltb_irrefl s : str_ltb s s = false.
Proof.
  unfold str_ltb. induction s as [|c s IH]; [done|]. cbn [String.compare]. unfold Ascii.compare.
  by rewrite N.compare_refl.
Qed.

Example isoformat_epoch : isoformat (DT 0 0) = "1970-01-01T00:00:00+00:00".
Proof. reflexivity. Qed.

(** Text with another offset is not ordered as the instants are: noon in Shanghai is
    before six in the morning UTC. *)
Example isoformat_other_offset :
  let noon := DT 1785902400000000 480 in let six := DT 1785909600000000 0 in
  dt_lt noon six = true /\ str_ltb (isoformat noon) (isoformat six) = false.
Proof. vm_compute. by split. Qed.
