(* ===== verification/Float64.v ===== *)
(** Python's [float]: IEEE 754 binary64, computed by the Standard Library's
    specification of it, for the arithmetic of src/src/rosclaw/team and
    src/src/rosclaw/swarm. *)

From Stdlib Require Export SpecFloat.
From S2P Require Export PyStr.

Abbreviation float := spec_float.

Definition fadd : float -> float -> float := SFadd 53 1024.
Definition fsub : float -> float -> float := SFsub 53 1024.
Definition fmul : float -> float -> float := SFmul 53 1024.
Definition fdiv : float -> float -> float := SFdiv 53 1024.
Definition fltb : float -> float -> bool := SFltb.
Definition fleb : float -> float -> bool := SFleb.
Definition fzero : float := S754_zero false.

Definition is_nan (x : float) : bool := match x with S754_nan => true | _ => false end.
Definition is_finite64 (x : float) : bool := match x with S754_zero _ | S754_finite _ _ _ => true | _ => false end.

(** [p / q] on integers, [q] positive: the nearest double of the quotient. Also the
    value of a decimal literal. *)
Definition ratio (p : Z) (q : positive) : float :=
  match p with
  | Z0 => fzero
  | Zpos m => fdiv (S754_finite false m 0) (S754_finite false q 0)
  | Zneg m => fdiv (S754_finite true m 0) (S754_finite false q 0)
  end.

(** [float(z)] *)
Definition of_Z (z : Z) : float := ratio z 1.

(** Comparing a float with an integer is exact. *)
Definition fcmp_Z (x : float) (z : Z) : option comparison :=
  match x with
  | S754_nan => None
  | S754_infinity s => Some (if s then Lt else Gt)
  | S754_zero _ => Some (0 ?= z)
  | S754_finite s m e =>
      let v := if s then Z.neg m else Z.pos m in
      Some (if 0 <=? e then v * 2 ^ e ?= z else v ?= z * 2 ^ (- e))
  end.

Definition fgt_Z (x : float) (z : Z) : bool :=
  match fcmp_Z x z with Some Gt => true | _ => false end.
Definition fle_Z (x : float) (z : Z) : bool :=
  match fcmp_Z x z with Some Gt | None => false | _ => true end.

(** [max(0.0, x)]: the first of the two unless the second is greater. *)
Definition max0 (x : float) : float := if fltb fzero x then x else fzero.

(** [round(x, 4)]: the nearest multiple of 1/10000 of the exact value, then the double
    nearest to that. *)
Definition round4 (x : float) : float :=
  match x with
  | S754_finite s m e =>
      let n := if 0 <=? e then Z.pos m * 10000 * 2 ^ e else div_half_even (Z.pos m * 10000) (2 ^ (- e)) in
      match ratio n 10000 with
      | S754_zero _ => S754_zero s
      | S754_finite _ m' e' => S754_finite s m' e'
      | y => y
      end
  | _ => x
  end.

(** [y] is the double nearest to a multiple of 1/10000, and none is nearer to the finite
    [x] (as [m * 2^e]) than that one. *)
Definition ten_thousandth (x y : float) : Prop :=
  match x with
  | S754_finite s m e =>
      exists n, 0 <= n /\ SFabs y = SFabs (ratio n 10000) /\
        2 * Z.abs (Z.pos m * 10000 * 2 ^ Z.max 0 e - n * 2 ^ Z.max 0 (- e)) <= 2 ^ Z.max 0 (- e)
  | _ => y = x
  end.

Lemma round4_near x : ten_thousandth x (round4 x).
Proof.
  destruct x as [| | |s m e]; [done..|]. simpl. destruct (Z.leb_spec 0 e) as [He|He].
  - exists (Z.pos m * 10000 * 2 ^ e). split; [lia|]. split; [by destruct (ratio _ _)|].
    rewrite (Z.max_r 0 e), (Z.max_l 0 (- e)) by lia. simpl. lia.
  - assert (Hp : 0 < 2 ^ (- e)) by (apply Z.pow_pos_nonneg; lia).
    pose proof (div_half_even_near (Z.pos m * 10000) (2 ^ (- e)) Hp) as Hn.
    exists (div_half_even (Z.pos m * 10000) (2 ^ (- e))). split; [apply div_half_even_bounds; lia|].
    split; [by destruct (ratio _ _)|]. rewrite (Z.max_l 0 e), (Z.max_r 0 (- e)) by lia. lia.
Qed.

(** What depends on the version of the interpreter. [sum] of floats starts at the integer
    0; it adds from the left up to Python 3.11 and compensates the rounding errors from
    3.12 on, and the program runs on both. [list.sort] leaves keys some of which are a
    NaN in an order that depends on its strategy; it loses none. *)
Class Interpreter := {
  py_sum : list float -> float;
  nan_sort : forall A : Type, (A -> float) -> list A -> list A;
  nan_sort_perm : forall (A : Type) (key : A -> float) l, nan_sort A key l ≡ₚ l;
}.

Definition sum_311 (l : list float) : float := foldl fadd fzero l.

Definition comp_step (acc : float * float) (x : float) : float * float :=
  let '(r, c) := acc in
  let t := fadd r x in
  (t, fadd c (if fleb (SFabs x) (SFabs r) then fadd (fsub r t) x else fadd (fsub x t) r)).

Definition sum_312 (l : list float) : float :=
  let '(r, c) := foldl comp_step (fzero, fzero) l in
  match c with S754_finite _ _ _ => fadd r c | _ => r end.

(** ** Examples computed by Python *)

(** [0.1 + 0.2 == 0.30000000000000004], and not [0.3]. *)
Example add_literals : fadd (ratio 1 10) (ratio 2 10) = ratio 30000000000000004 100000000000000000.
Proof. vm_compute. reflexivity. Qed.
Example add_not_third : SFeqb (fadd (ratio 1 10) (ratio 2 10)) (ratio 3 10) = false.
Proof. vm_compute. reflexivity. Qed.
(** [sum([0.1] * 10)] is 0.9999999999999999 in 3.11 and 1.0 in 3.12. *)
Example sum_tenths_311 : sum_311 (repeat (ratio 1 10) 10) = ratio 9999999999999999 10000000000000000.
Proof. vm_compute. reflexivity. Qed.
Example sum_tenths_312 : sum_312 (repeat (ratio 1 10) 10) = of_Z 1.
Proof. vm_compute. reflexivity. Qed.
(** [round(2.00005, 4) == 2.0]: the double is below the tie. *)
Example round_below_tie : round4 (ratio 200005 100000) = of_Z 2.
Proof. vm_compute. reflexivity. Qed.
(** [round(0.90625, 4) == 0.9062]: a tie. *)
Example round_tie : round4 (ratio 90625 100000) = ratio 9062 10000.
Proof. vm_compute. reflexivity. Qed.
Example round_large : round4 (ratio 12345678901234567 100000) = ratio 1234567890123457 10000.
Proof. vm_compute. reflexivity. Qed.

(** ** The order of floats *)

(** Floats other than NaN by sign, exponent and mantissa, compared lexicographically. *)
Definition float_key (x : float) : Z * Z * Z :=
  match x with
  | S754_infinity true => (-2, 0, 0)
  | S754_finite true m e => (-1, - e, Z.neg m)
  | S754_zero _ | S754_nan => (0, 0, 0)
  | S754_finite false m e => (1, e, Z.pos m)
  | S754_infinity false => (2, 0, 0)
  end.

Definition key_lt (a b : Z * Z * Z) : Prop :=
  a.1.1 < b.1.1 \/ a.1.1 = b.1.1 /\ (a.1.2 < b.1.2 \/ a.1.2 = b.1.2 /\ a.2 < b.2).

Lemma key_lt_trans a b c : key_lt a b -> key_lt b c -> key_lt a c.
Proof. unfold key_lt. lia. Qed.

Lemma key_lt_cotrans a b c : ~ key_lt a b -> ~ key_lt b c -> ~ key_lt a c.
Proof. unfold key_lt. lia. Qed.

Lemma fltb_key x y : is_nan x = false -> is_nan y = false ->
  fltb x y = true <-> key_lt (float_key x) (float_key y).
Proof.
  unfold fltb, SFltb, key_lt.
  destruct x as [sx|[]| |[] mx ex], y as [sy|[]| |[] my ey]; try done; intros _ _; cbn;
    try (split; [done|lia]); try (split; [lia|done]).
  - destruct (Z.compare_spec ex ey) as [->|H|H]; [|split; [done|lia]|split; [lia|done]].
    change (Pos.compare_cont Eq mx my) with (mx ?= my)%positive.
    destruct (Pos.compare_spec mx my) as [->|H|H]; cbn; split; try done; lia.
  - destruct (Z.compare_spec ex ey) as [->|H|H]; [|split; [lia|done]|split; [done|lia]].
    change (Pos.compare_cont Eq mx my) with (mx ?= my)%positive.
    destruct (Pos.compare_spec mx my) as [->|H|H]; cbn; split; try done; lia.
Qed.

Lemma fltb_trans x y z : is_nan x = false -> is_nan y = false -> is_nan z = false ->
  fltb x y = true -> fltb y z = true -> fltb x z = true.
Proof. intros Hx Hy Hz. rewrite !fltb_key by done. apply key_lt_trans. Qed.

Lemma fltb_cotrans x y z : is_nan x = false -> is_nan y = false -> is_nan z = false ->
  fltb x y = false -> fltb y z = false -> fltb x z = false.
Proof.
  intros Hx Hy Hz. rewrite <- !not_true_iff_false, !fltb_key by done. apply key_lt_cotrans.
Qed.

Lemma fltb_irrefl x : fltb x x = false.
Proof.
  destruct (is_nan x) eqn:E; [by destruct x|]. apply not_true_iff_false. rewrite fltb_key by done.
  unfold key_lt. lia.
Qed.

Lemma fltb_asym x y : fltb x y = true -> fltb y x = false.
Proof.
  destruct (is_nan x) eqn:Ex; [by destruct x|]. destruct (is_nan y) eqn:Ey; [by destruct y, x as [| | |]|].
  intros H%fltb_key; [|done..]. apply not_true_iff_false. rewrite fltb_key by done. unfold key_lt in *. lia.
Qed.
