(* ===== verification/Allocator.v ===== *)
(** The contract-net allocator: src/src/rosclaw/team/allocator.py.

    Scores are computed in binary64, summed as the interpreter's [sum] does, and sorted
    by [list.sort] ([Interpreter]). The texts of reasons and rejections are left out. *)

From S2P Require Export Float64.
Open Scope list_scope.

Record TaskAnnouncement := {
  ta_task_id : string;
  ta_team_id : string;
  ta_team_epoch : Z;
  ta_required_capabilities : list string;
  ta_region : option string;
  ta_deadline_ms : option Z;
  ta_risk_tier : string;
  ta_success_criteria : string;
  ta_idempotency_key : option string;
  ta_side_effect_class : string;
}.

Record Bid := {
  bid_member_id : string;
  eta_ms : float;
  energy_cost : float;
  capability_fit : float;
  reliability : float;
  current_load : float;
  comms_quality : float;
  risk_fit : float;
}.

Record ScoredBid := { sb_bid : Bid; sb_score : float; sb_features : dict float }.

Record AllocationResult := {
  ar_task_id : string;
  ar_winner : string;
  ar_score : float;
  ar_scored_bids : list ScoredBid;
}.

Definition WEIGHTS : dict float :=
  [("eta", ratio 20 100); ("energy", ratio 10 100); ("capability", ratio 25 100);
   ("risk", ratio 10 100); ("reliability", ratio 15 100); ("load", ratio 10 100);
   ("comms", ratio 10 100)].
Definition MAX_ETA_MS : float := of_Z 60000.
Definition MAX_ENERGY : float := of_Z 1000.

Definition features_of (b : Bid) : dict float :=
  [("eta", max0 (fsub (of_Z 1) (fdiv (eta_ms b) MAX_ETA_MS)));
   ("energy", max0 (fsub (of_Z 1) (fdiv (energy_cost b) MAX_ENERGY)));
   ("capability", capability_fit b);
   ("risk", risk_fit b);
   ("reliability", reliability b);
   ("load", fsub (of_Z 1) (current_load b));
   ("comms", comms_quality b)].

(** The test of the loop: capability, deadline (0 is none) and risk. *)
Definition feasible (ann : TaskAnnouncement) (b : Bid) : bool :=
  negb (fltb (capability_fit b) (of_Z 1))
  && negb (match ta_deadline_ms ann with
           | Some d => negb (d =? 0) && fgt_Z (eta_ms b) d
           | None => false
           end)
  && negb (fleb (risk_fit b) fzero).

(** [l.sort(key=..., reverse=True)] where no key is a NaN: stable, the greatest first. *)
Fixpoint insert_desc {A} (key : A -> float) (x : A) (l : list A) : list A :=
  match l with
  | [] => [x]
  | y :: l' => if fltb (key x) (key y) then y :: insert_desc key x l' else x :: y :: l'
  end.

Definition sort_desc {A} (key : A -> float) (l : list A) : list A := foldr (insert_desc key) [] l.

Section Allocate.
Context {FS : Interpreter}.

Definition py_sort_desc {A} (key : A -> float) (l : list A) : list A :=
  if existsb (fun x => is_nan (key x)) l then nan_sort A key l else sort_desc key l.

Definition score_bid (b : Bid) : ScoredBid :=
  let features := features_of b in
  let score := py_sum ((fun kv : string * float => fmul (default fzero (dget WEIGHTS kv.1)) kv.2) <$> features) in
  {| sb_bid := b; sb_score := round4 score; sb_features := features |}.

(** [allocate]; the error is [ValidationError]. *)
Definition allocate (ann : TaskAnnouncement) (bids : list Bid) : result unit AllocationResult :=
  let eligible := score_bid <$> filter (fun b => feasible ann b = true) bids in
  match py_sort_desc sb_score eligible with
  | [] => Err tt
  | (w :: _) as sorted =>
      Ok {| ar_task_id := ta_task_id ann; ar_winner := bid_member_id (sb_bid w);
            ar_score := sb_score w; ar_scored_bids := sorted |}
  end.
End Allocate.

(** ** Sorting *)

Section Sort.
Context {A : Type} (key : A -> float).

(** [y] may follow [x]. *)
Definition may_follow (x y : A) : Prop := fltb (key x) (key y) = false.

Lemma insert_desc_perm x l : insert_desc key x l ≡ₚ x :: l.
Proof.
  induction l as [|y l IH]; [done|]. cbn. destruct (fltb _ _); [|done].
  rewrite IH. apply Permutation_swap.
Qed.

Lemma sort_desc_perm l : sort_desc key l ≡ₚ l.
Proof. induction l as [|x l IH]; [done|]. cbn. fold (sort_desc key l). by rewrite insert_desc_perm, IH. Qed.

Definition numbers (l : list A) : Prop := Forall (fun x => is_nan (key x) = false) l.

Lemma insert_desc_sorted x l : is_nan (key x) = false -> numbers l ->
  StronglySorted may_follow l -> StronglySorted may_follow (insert_desc key x l).
Proof.
  intros Hx. induction l as [|y l IH]; cbn; intros Hn Hs; [repeat constructor|].
  apply Forall_cons in Hn as [Hy Hn]. apply StronglySorted_inv in Hs as [Hs Hf].
  destruct (fltb (key x) (key y)) eqn:E.
  - constructor; [by apply IH|]. rewrite insert_desc_perm. constructor; [|done].
    by apply fltb_asym.
  - constructor; [by constructor|]. constructor; [exact E|].
    eapply Forall_impl; [apply Forall_and; split; [exact Hf|exact Hn]|].
    intros z [Hz Hzn]. by apply (fltb_cotrans _ (key y)).
Qed.

Lemma sort_desc_sorted l : numbers l -> StronglySorted may_follow (sort_desc key l).
Proof.
  induction l as [|x l IH]; cbn; intros Hn; [constructor|]. apply Forall_cons in Hn as [Hx Hn].
  fold (sort_desc key l). apply insert_desc_sorted; [done| |by apply IH]. unfold numbers. by rewrite sort_desc_perm.
Qed.

(** The reference: the first greatest element. *)
Fixpoint first_greatest (l : list A) : option A :=
  match l with
  | [] => None
  | x :: l' =>
      match first_greatest l' with
      | Some y => Some (if fltb (key x) (key y) then y else x)
      | None => Some x
      end
  end.

Lemma head_insert_desc x l :
  head (insert_desc key x l) = match head l with
                               | Some y => Some (if fltb (key x) (key y) then y else x)
                               | None => Some x
                               end.
Proof. destruct l as [|y l]; [done|]. cbn. by destruct (fltb _ _). Qed.

Lemma head_sort_desc l : head (sort_desc key l) = first_greatest l.
Proof. induction l as [|x l IH]; [done|]. cbn. fold (sort_desc key l). by rewrite head_insert_desc, IH. Qed.

(** What the reference picks: nothing is greater, what stands before it is less. *)
Lemma first_greatest_spec l w : numbers l -> first_greatest l = Some w ->
  exists before after : list A, l = before ++ w :: after /\
    Forall (fun x => fltb (key x) (key w) = true) before /\
    Forall (fun x => fltb (key w) (key x) = false) after.
Proof.
  revert w. induction l as [|x l IH]; intros w Hn; [done|]. apply Forall_cons in Hn as [Hx Hn]. cbn.
  destruct (first_greatest l) as [y|] eqn:E.
  - destruct (IH y Hn eq_refl) as (bf & af & -> & Hb & Ha).
    apply Forall_app in Hn as [Hnb Hna]. apply Forall_cons in Hna as [Hy Hna].
    destruct (fltb (key x) (key y)) eqn:F; intros [= <-].
    + exists (x :: bf), af. by repeat constructor.
    + exists [], (bf ++ y :: af). split; [done|]. split; [constructor|].
      apply Forall_app. split; [|constructor; [done|]].
      * eapply Forall_impl; [apply Forall_and; split; [exact Hb|exact Hnb]|]. intros z [Hz Hzn].
        apply (fltb_cotrans _ (key y)); [done..|by apply fltb_asym].
      * eapply Forall_impl; [apply Forall_and; split; [exact Ha|exact Hna]|]. intros z [Hz Hzn].
        by apply (fltb_cotrans _ (key y)).
  - intros [= <-]. destruct l as [|y l]; [|cbn in E; by destruct (first_greatest l)].
    exists [], []. by repeat constructor.
Qed.

Lemma first_greatest_elem l w : first_greatest l = Some w -> w ∈ l.
Proof.
  revert w. induction l as [|x l IH]; intros w; [done|]. cbn. destruct (first_greatest l) as [y|] eqn:E.
  - destruct (fltb _ _); intros [= <-]; [right; by apply IH|left].
  - intros [= <-]. left.
Qed.
End Sort.

(** ** The award *)

Section Award.
Context {FS : Interpreter}.
Implicit Types (ann : TaskAnnouncement) (b : Bid) (bids : list Bid).

Lemma first_greatest_fmap {A B} (f : A -> B) (key : B -> float) (l : list A) :
  first_greatest key (f <$> l) = f <$> first_greatest (fun a => key (f a)) l.
Proof.
  induction l as [|x l IH]; [done|]. cbn. rewrite IH.
  destruct (first_greatest _ l); cbn; [|done]. by destruct (fltb _ _).
Qed.

Definition bid_score b : float := sb_score (score_bid b).

Lemma py_sort_perm {A} (key : A -> float) l : py_sort_desc key l ≡ₚ l.
Proof. unfold py_sort_desc. destruct (existsb _ l); [apply nan_sort_perm|apply sort_desc_perm]. Qed.

Lemma py_sort_numbers {A} (key : A -> float) l : numbers key l -> py_sort_desc key l = sort_desc key l.
Proof.
  intros Hn. unfold py_sort_desc. destruct (existsb _ l) eqn:E; [|done].
  apply existsb_exists in E as (x & Hx & Hk). unfold numbers in Hn. rewrite List.Forall_forall in Hn.
  rewrite Hn in Hk; done.
Qed.

Definition feasible_bids ann bids : list Bid := filter (fun b => feasible ann b = true) bids.

(** The winner by the reference: the first best feasible bid. *)
Definition best_bid ann bids : option Bid := first_greatest bid_score (feasible_bids ann bids).

Lemma scored_numbers l : numbers bid_score l -> numbers sb_score (score_bid <$> l).
Proof. intros Hn. apply Forall_fmap. exact Hn. Qed.

Lemma allocate_run ann bids :
  match allocate ann bids with
  | Ok r => exists b, b ∈ feasible_bids ann bids /\ ar_winner r = bid_member_id b /\
              ar_score r = bid_score b /\ ar_task_id r = ta_task_id ann /\
              (sb_bid <$> ar_scored_bids r) ≡ₚ feasible_bids ann bids /\
              (numbers bid_score (feasible_bids ann bids) ->
                 best_bid ann bids = Some b /\ StronglySorted (may_follow sb_score) (ar_scored_bids r))
  | Err _ => feasible_bids ann bids = []
  end.
Proof.
  unfold allocate, best_bid. fold (feasible_bids ann bids). set (fs := feasible_bids ann bids).
  assert (Hp : py_sort_desc sb_score (score_bid <$> fs) ≡ₚ score_bid <$> fs) by apply py_sort_perm.
  destruct (py_sort_desc sb_score (score_bid <$> fs)) as [|w ws] eqn:E.
  - apply Permutation_nil_l in Hp. by eapply fmap_nil_inv.
  - assert (Hw : w ∈ score_bid <$> fs) by (rewrite <- Hp; left).
    apply list_elem_of_fmap in Hw as (b & -> & Hb). exists b.
    cbn [ar_winner ar_score ar_task_id ar_scored_bids]. split_and!; try done.
    + rewrite Hp, <- list_fmap_compose.
      replace (sb_bid ∘ score_bid <$> fs) with fs; [done|].
      clear. induction fs as [|b fs IH]; [done|]. cbn. by f_equal.
    + intros Hn. rewrite py_sort_numbers in E by by apply scored_numbers. rewrite <- E. split.
      * pose proof (head_sort_desc sb_score (score_bid <$> fs)) as Hh. rewrite E, first_greatest_fmap in Hh.
        symmetry in Hh. apply fmap_Some in Hh as (b' & Hb' & Heq). change (first_greatest bid_score fs = Some b') in Hb'.
        rewrite Hb'. f_equal. by apply (f_equal sb_bid) in Heq.
      * apply sort_desc_sorted. by apply scored_numbers.
Qed.

(** ** The reference of the award *)

(** A bid that may win: every capability is held, the arrival is no later than the deadline
    (0 is none), the risk is tolerable. *)
Definition may_win ann b : Prop :=
  fltb (capability_fit b) (of_Z 1) = false /\ fleb (risk_fit b) fzero = false /\
  (ta_deadline_ms ann = None \/ ta_deadline_ms ann = Some 0 \/
   exists d, ta_deadline_ms ann = Some d /\ fgt_Z (eta_ms b) d = false).

Lemma feasible_spec ann b : feasible ann b = true <-> may_win ann b.
Proof.
  unfold feasible, may_win. rewrite !andb_true_iff, !negb_true_iff.
  destruct (ta_deadline_ms ann) as [d|]; [|naive_solver].
  rewrite andb_false_iff, negb_false_iff, Z.eqb_eq. naive_solver.
Qed.

#[global] Instance may_win_dec ann b : Decision (may_win ann b).
Proof. destruct (feasible ann b) eqn:E; [left|right]; rewrite <- feasible_spec; congruence. Defined.

(** The seven terms of the score: name, weight and value. *)
Definition terms b : list (string * float * float) :=
  let quick x limit := let y := fsub (of_Z 1) (fdiv x (of_Z limit)) in if fltb fzero y then y else fzero in
  [("eta", ratio 1 5, quick (eta_ms b) 60000);
   ("energy", ratio 1 10, quick (energy_cost b) 1000);
   ("capability", ratio 1 4, capability_fit b);
   ("risk", ratio 1 10, risk_fit b);
   ("reliability", ratio 3 20, reliability b);
   ("load", ratio 1 10, fsub (of_Z 1) (current_load b));
   ("comms", ratio 1 10, comms_quality b)].

(** A bid as it is scored: its features, and the weighted sum to four decimals. *)
Definition scored (sb : ScoredBid) : Prop :=
  sb_features sb = (fun t => (t.1.1, t.2)) <$> terms (sb_bid sb) /\
  ten_thousandth (py_sum ((fun t => fmul t.1.2 t.2) <$> terms (sb_bid sb))) (sb_score sb) /\
  sb_score sb = round4 (py_sum ((fun t => fmul t.1.2 t.2) <$> terms (sb_bid sb))).

Lemma score_bid_scored b : scored (score_bid b).
Proof.
  assert (Hf : (fun kv : string * float => fmul (default fzero (dget WEIGHTS kv.1)) kv.2) <$> features_of b =
    (fun t => fmul t.1.2 t.2) <$> terms b).
  { cbn -[fmul fsub fdiv of_Z]. repeat f_equal. }
  unfold scored, score_bid. cbn [sb_features sb_bid sb_score]. rewrite Hf.
  split; [reflexivity|]. split; [apply round4_near|done].
Qed.

Lemma feasible_may_win ann bids : feasible_bids ann bids = filter (may_win ann) bids.
Proof.
  unfold feasible_bids. induction bids as [|b l IH]; [done|]. destruct (decide (may_win ann b)) as [Hw|Hw].
  - rewrite filter_cons_True by (by apply feasible_spec). rewrite filter_cons_True by done. by f_equal.
  - rewrite filter_cons_False by (by rewrite feasible_spec). by rewrite filter_cons_False.
Qed.

(** The list of the result: the scored bids in the interpreter's order, the winner first. *)
Lemma allocate_listed ann bids r : allocate ann bids = Ok r ->
  ar_scored_bids r ≡ₚ score_bid <$> feasible_bids ann bids /\
  exists w rest, ar_scored_bids r = w :: rest /\ ar_winner r = bid_member_id (sb_bid w) /\ ar_score r = sb_score w.
Proof.
  unfold allocate. fold (feasible_bids ann bids). intros E.
  pose proof (py_sort_perm sb_score (score_bid <$> feasible_bids ann bids)) as Hp.
  destruct (py_sort_desc _ _) as [|w ws]; [done|]. injection E as <-. split; [exact Hp|]. by exists w, ws.
Qed.

Lemma listed_numbers ann bids l : l ≡ₚ score_bid <$> feasible_bids ann bids ->
  Forall (fun sb => is_nan (sb_score sb) = false) l -> numbers bid_score (feasible_bids ann bids).
Proof. intros -> Hn. by apply Forall_fmap in Hn. Qed.

(** C19: a task is awarded exactly when some bid may win it: one that holds every capability,
    arrives no later than a deadline other than 0, and whose risk fit is positive. All
    such bids are listed and no other, each with the seven features and, as its score, the
    sum weighted 20, 10, 25, 10, 15, 10 and 10 percent to the nearest four decimals; the winner
    heads the list. Where no score is a NaN the list descends and the winner is the first
    best bid: none that may win scores higher, and those announced before it score less. *)
Theorem allocate_reference ann bids :
  match allocate ann bids with
  | Ok r => ar_task_id r = ta_task_id ann /\ Forall scored (ar_scored_bids r) /\
      (sb_bid <$> ar_scored_bids r) ≡ₚ filter (may_win ann) bids /\
      (exists w rest, ar_scored_bids r = w :: rest /\ ar_winner r = bid_member_id (sb_bid w) /\ ar_score r = sb_score w) /\
      (Forall (fun sb => is_nan (sb_score sb) = false) (ar_scored_bids r) ->
         StronglySorted (fun x y => fltb (sb_score x) (sb_score y) = false) (ar_scored_bids r) /\
         exists before b after, filter (may_win ann) bids = before ++ b :: after /\ ar_winner r = bid_member_id b /\
           forall sb, sb ∈ ar_scored_bids r -> fltb (ar_score r) (sb_score sb) = false /\
             (sb_bid sb ∈ before -> fltb (sb_score sb) (ar_score r) = true))
  | Err _ => Forall (fun b => ~ may_win ann b) bids
  end.
Proof.
  pose proof (allocate_run ann bids) as Ha. destruct (allocate ann bids) as [r|e] eqn:E.
  2: { apply Forall_forall. intros b Hb Hw. apply feasible_spec in Hw.
       assert (Hf : b ∈ feasible_bids ann bids) by (by apply list_elem_of_filter).
       rewrite Ha in Hf. by apply elem_of_nil in Hf. }
  destruct (allocate_listed _ _ _ E) as (Hl & Hhead). destruct Ha as (b & _ & Hw & Hs & Ht & Hp & Hr).
  rewrite feasible_may_win in Hp. split_and!; try done.
  { rewrite Hl. apply Forall_fmap, Forall_true. intros x. apply score_bid_scored. }
  intros Hn. pose proof (listed_numbers _ _ _ Hl Hn) as Hk. destruct (Hr Hk) as [Hb Hsort]. split; [exact Hsort|].
  destruct (first_greatest_spec _ _ _ Hk Hb) as (bf & af & Hfs & Hbf & Haf).
  exists bf, b, af. rewrite <- feasible_may_win. split; [done|]. split; [done|]. intros sb Hsb.
  rewrite Hl in Hsb. apply list_elem_of_fmap in Hsb as (b' & -> & Hin). rewrite Hs. change (sb_score (score_bid b')) with (bid_score b').
  rewrite Forall_forall in Hbf, Haf. split; [|by apply Hbf]. rewrite Hfs in Hin.
  apply elem_of_app in Hin as [Hx|Hx]; [by apply fltb_asym, Hbf|].
  apply elem_of_cons in Hx as [->|Hx]; [apply fltb_irrefl|by apply Haf].
Qed.
End Award.

(** ** A concrete award

    The fastest bid lacks a capability and another is too late; of the two that may win the
    less loaded one does. [0.2*0.9 + 0.1*0.9 + 0.25 + 0.1 + 0.15*0.8 + 0.1*0.75 + 0.1*0.5]. *)
Section Fair.
#[local] Instance plain_sum : Interpreter :=
  {| py_sum := sum_311; nan_sort := fun A _ l => l; nan_sort_perm := fun A _ l => reflexivity l |}.

Definition bid_of (who : string) (eta : Z) (fit load : float) : Bid :=
  {| bid_member_id := who; eta_ms := of_Z eta; energy_cost := of_Z 100; capability_fit := fit;
     reliability := ratio 8 10; current_load := load; comms_quality := ratio 1 2; risk_fit := of_Z 1 |}.
Definition fair_task : TaskAnnouncement :=
  {| ta_task_id := "t1"; ta_team_id := "team1"; ta_team_epoch := 1; ta_required_capabilities := ["lift"]; ta_region := None;
     ta_deadline_ms := Some 10000; ta_risk_tier := "LOW"; ta_success_criteria := ""; ta_idempotency_key := None;
     ta_side_effect_class := "none" |}.
Definition fair_bids : list Bid :=
  [bid_of "unfit" 1000 (ratio 1 2) fzero; bid_of "busy" 6000 (of_Z 1) (ratio 3 4); bid_of "late" 20000 (of_Z 1) fzero;
   bid_of "free" 6000 (of_Z 1) (ratio 1 4)].

Example fair_award :
  match allocate fair_task fair_bids with
  | Ok r => (ar_winner r, ar_score r, (fun sb => (bid_member_id (sb_bid sb), sb_score sb)) <$> ar_scored_bids r) =
      ("free", ratio 8650 10000, [("free", ratio 8650 10000); ("busy", ratio 8150 10000)])
  | Err _ => False
  end.
Proof. vm_compute. reflexivity. Qed.

(** The reference on these bids: two may win, the first of them is not the best. *)
Lemma allocate_reference_witness :
  exists r, allocate fair_task fair_bids = Ok r /\ ar_winner r = "free" /\ ar_score r = ratio 8650 10000 /\
    filter (may_win fair_task) fair_bids = [bid_of "busy" 6000 (of_Z 1) (ratio 3 4); bid_of "free" 6000 (of_Z 1) (ratio 1 4)] /\
    StronglySorted (fun x y => fltb (sb_score x) (sb_score y) = false) (ar_scored_bids r).
Proof.
  pose proof (allocate_reference fair_task fair_bids) as H.
  destruct (allocate fair_task fair_bids) as [r|e] eqn:E; [|vm_compute in E; discriminate E].
  exists r. split; [reflexivity|]. destruct H as (_ & _ & _ & _ & H).
  assert (Hn : Forall (fun sb => is_nan (sb_score sb) = false) (ar_scored_bids r)).
  { vm_compute in E. injection E as <-. repeat constructor. }
  destruct (H Hn) as [Hs _].
  split; [vm_compute in E; injection E as <-; reflexivity|].
  split; [vm_compute in E; injection E as <-; vm_compute; reflexivity|].
  split; [vm_compute; reflexivity|exact Hs].
Defined.
End Fair.
