(* ===== verification/TeamDb.v ===== *)
(** The team's data: src/src/rosclaw/contracts/team (member.py, role.py), and the rows
    that src/src/rosclaw/team keeps of one team.

    Every statement of the team's stores selects one [team_id]; a [team_db] holds the
    rows of that team. Each statement commits by itself, so an exception leaves what was
    written before it. Columns nothing reads (creation and update times, event
    identifiers) are left out; a card or a lease is kept as the value whose JSON the row
    holds. A query that matches several rows returns them in the order of insertion,
    members in the order of the map. *)

From S2P Require Export Clock Json Allocator.
Open Scope list_scope.

(** [ValidationError] and its subclasses [TeamError] and [RoleConflictError]; a broken
    constraint of the database; a timestamp that cannot be read. *)
Inductive team_exn := Invalid | TeamError | RoleConflictError | IntegrityError | Unreadable.

(** ** Members *)

Inductive MemberState := CANDIDATE | JOINING | READY | SUSPECT | LOST | LEFT.

#[export] Instance MemberState_eq_dec : EqDecision MemberState.
Proof. solve_decision. Defined.

Record MemberBody := { body_id : string; effective_body_hash : string; body_class : string }.
Record MemberEndpoints := { endpoint_task : option string; endpoint_world : option string }.
Record MemberSecurity := { identity_key_id : option string; cert_fingerprint : option string }.
Record MemberHealth := { health_state : MemberState; health_observed_at : option string; ttl_ms : Z }.

Record TeamMemberCard := {
  card_team_id : string;
  card_member_id : string;
  agent_card_url : option string;
  card_body : MemberBody;
  card_capabilities : list string;
  card_endpoints : MemberEndpoints;
  card_security : MemberSecurity;
  card_health : MemberHealth;
  card_team_epoch : Z;
}.

Record member_row := {
  mr_card : TeamMemberCard;
  mr_state : MemberState;
  mr_epoch : Z;
  mr_last_seen : string;
}.

(** ** Roles *)

Inductive LeaseState := L_ACTIVE | L_EXPIRED | L_REVOKED | L_CONTESTED.

#[export] Instance LeaseState_eq_dec : EqDecision LeaseState.
Proof. solve_decision. Defined.

Record RoleScope := { region : option string; task_types : list string }.

Record RoleLease := {
  rl_team_id : string;
  rl_team_epoch : Z;
  rl_role : string;
  rl_holder : string;
  rl_scope : RoleScope;
  rl_issued_at : string;
  rl_expires_at : string;
  rl_renew_after_ms : Z;
  rl_priority : Z;
  rl_conflict_key : string;
  rl_policy_hash : string;
  rl_state : LeaseState;
}.

Record lease_row := {
  lr_id : string;
  lr_epoch : Z;
  lr_key : string;
  lr_holder : string;
  lr_lease : RoleLease;
  lr_state : LeaseState;
  lr_expires_at : string;
}.

(** ** Tasks and events *)

Inductive TaskStatus := ANNOUNCED | AWARDED | ACCEPTED | DONE.

#[export] Instance TaskStatus_eq_dec : EqDecision TaskStatus.
Proof. solve_decision. Defined.

Record task_row := {
  tr_epoch : Z;
  tr_announcement : TaskAnnouncement;
  tr_status : TaskStatus;
  tr_awardee : option string;
  tr_bids : list (string * float * dict float);
  tr_evidence : option (dict json);
  tr_idempotency_key : option string;
  tr_side_effect_class : string;
}.

Inductive team_event :=
| EpochCommitted (epoch : Z) (reason : string)
| MemberDiscovered (member_id : string)
| MemberJoined (member_id : string) (epoch : Z) (policy_hash : string)
| MemberLeft (member_id : string)
| MemberLost (member_id : string)
| TaskAwarded (task_id awardee : string) (score : float)
| TaskAccepted (task_id member_id : string)
| TaskCompleted (task_id member_id : string) (evidence : dict json)
| RoleAwarded (conflict_key holder : string)
| TasksRequeued (member_id : string)
| CoordinatorLost (degraded_policy : string).

Record event_row := { er_event : team_event; er_epoch : Z; er_idempotency_key : option string }.

(** ** The rows of a team *)

Record team_db := {
  members : gmap string member_row;
  epochs : list (Z * string);
  leases : list lease_row;
  tasks : gmap string task_row;
  team_events : list event_row;
}.

Definition db_empty : team_db :=
  {| members := ∅; epochs := []; leases := []; tasks := ∅; team_events := [] |}.

Definition with_members (ms : gmap string member_row) (d : team_db) : team_db :=
  {| members := ms; epochs := epochs d; leases := leases d; tasks := tasks d; team_events := team_events d |}.
Definition with_epochs (es : list (Z * string)) (d : team_db) : team_db :=
  {| members := members d; epochs := es; leases := leases d; tasks := tasks d; team_events := team_events d |}.
Definition with_leases (ls : list lease_row) (d : team_db) : team_db :=
  {| members := members d; epochs := epochs d; leases := ls; tasks := tasks d; team_events := team_events d |}.
Definition with_tasks (ts : gmap string task_row) (d : team_db) : team_db :=
  {| members := members d; epochs := epochs d; leases := leases d; tasks := ts; team_events := team_events d |}.
Definition with_events (es : list event_row) (d : team_db) : team_db :=
  {| members := members d; epochs := epochs d; leases := leases d; tasks := tasks d; team_events := es |}.

Abbreviation T := (st team_db team_exn).

(** [SELECT MAX(epoch) ... or 0] *)
Fixpoint max_epoch (es : list (Z * string)) : option Z :=
  match es with
  | [] => None
  | (e, _) :: es' => Some (match max_epoch es' with Some m => Z.max e m | None => e end)
  end.

Definition current_epoch (d : team_db) : Z := default 0 (max_epoch (epochs d)).

(** [_event] of the stores: a key seen before makes [INSERT OR IGNORE] do nothing. *)
Definition log_event (e : team_event) (idem : option string) : T unit := st_set (fun d =>
  let seen := match idem with
              | Some k => existsb (fun r => bool_decide (er_idempotency_key r = Some k)) (team_events d)
              | None => false
              end in
  if seen then d
  else with_events (team_events d ++ [{| er_event := e; er_epoch := current_epoch d; er_idempotency_key := idem |}]) d).

Definition set_member_state (m : MemberState) (r : member_row) : member_row :=
  {| mr_card := mr_card r; mr_state := m; mr_epoch := mr_epoch r; mr_last_seen := mr_last_seen r |}.
Definition set_lease_state (l : LeaseState) (r : lease_row) : lease_row :=
  {| lr_id := lr_id r; lr_epoch := lr_epoch r; lr_key := lr_key r; lr_holder := lr_holder r;
     lr_lease := lr_lease r; lr_state := l; lr_expires_at := lr_expires_at r |}.
Definition set_task_status (t : TaskStatus) (r : task_row) : task_row :=
  {| tr_epoch := tr_epoch r; tr_announcement := tr_announcement r; tr_status := t;
     tr_awardee := tr_awardee r; tr_bids := tr_bids r; tr_evidence := tr_evidence r;
     tr_idempotency_key := tr_idempotency_key r; tr_side_effect_class := tr_side_effect_class r |}.

(** [UPDATE ... WHERE lease_id = ?] *)
Definition update_lease (id : string) (f : lease_row -> lease_row) (d : team_db) : team_db :=
  with_leases ((fun r => if decide (lr_id r = id) then f r else r) <$> leases d) d.

Lemma max_epoch_app es es' : max_epoch (es ++ es') =
  match max_epoch es, max_epoch es' with
  | Some a, Some b => Some (Z.max a b)
  | Some a, None => Some a
  | None, o => o
  end.
Proof.
  induction es as [|[e r] es IH]; [done|]. cbn. rewrite IH.
  destruct (max_epoch es), (max_epoch es'); f_equal; lia.
Qed.

Lemma max_epoch_bound es e r : (e, r) ∈ es -> exists m, max_epoch es = Some m /\ e <= m.
Proof.
  induction es as [|[e' r'] es IH]; [by intros ?%elem_of_nil|]. cbn.
  intros [[= <- <-]|Hin]%elem_of_cons.
  - destruct (max_epoch es); eexists; (split; [done|lia]).
  - destruct (IH Hin) as (m & -> & Hm). eexists. split; [done|lia].
Qed.
