(* ===== verification/Membership.v ===== *)
(** Team membership: src/src/rosclaw/team/membership.py.

    A method is a block on the team's rows; [now] is the clock it reads. *)

From S2P Require Export TeamDb.

(** [_ALLOWED] *)
Definition ALLOWED (s : MemberState) : list MemberState :=
  match s with
  | CANDIDATE => [JOINING; LEFT]
  | JOINING => [READY; LEFT]
  | READY => [SUSPECT; LEFT]
  | SUSPECT => [READY; LOST; LEFT]
  | LOST => [JOINING; LEFT]
  | LEFT => [CANDIDATE]
  end.

(** The keys of the rows of [team_epochs] are unique. *)
Definition insert_epoch (epoch : Z) (reason : string) : T unit :=
  do! d <- st_get (fun d => d);
  if existsb (fun e => e.1 =? epoch) (epochs d) then st_raise IntegrityError
  else st_set (with_epochs (epochs d ++ [(epoch, reason)])).

Definition bump_epoch (reason : string) : T Z :=
  do! e <- st_get current_epoch;
  let epoch := e + 1 in
  run! insert_epoch epoch reason;
  run! log_event (EpochCommitted epoch reason) None;
  st_ret epoch.

Definition state_of (member_id : string) (d : team_db) : option MemberState :=
  mr_state <$> members d !! member_id.

Definition require_state (member_id : string) (states : list MemberState) : T unit :=
  do! current <- st_get (state_of member_id);
  match current with
  | Some s => st_guard (bool_decide (s ∈ states)) Invalid
  | None => st_raise Invalid
  end.

Definition update_member (member_id : string) (f : member_row -> member_row) : T unit :=
  st_set (fun d => with_members (alter f member_id (members d)) d).

Definition set_state (member_id : string) (state : MemberState) : T unit :=
  do! current <- st_get (state_of member_id);
  match current with
  | Some s =>
      run! st_guard (bool_decide (state ∈ ALLOWED s)) Invalid;
      update_member member_id (set_member_state state)
  | None => st_raise Invalid
  end.

(** [_upsert]: an existing member keeps all but its card. *)
Definition upsert (card : TeamMemberCard) (state : MemberState) (now : datetime) : T unit :=
  st_set (fun d =>
    let row := match members d !! card_member_id card with
               | Some r => {| mr_card := card; mr_state := mr_state r; mr_epoch := mr_epoch r;
                              mr_last_seen := mr_last_seen r |}
               | None => {| mr_card := card; mr_state := state; mr_epoch := card_team_epoch card;
                            mr_last_seen := isoformat now |}
               end in
    with_members (<[card_member_id card := row]> (members d)) d).

Definition add_candidate (team_id : string) (card : TeamMemberCard) (now : datetime) : T unit :=
  run! st_guard (String.eqb (card_team_id card) team_id) Invalid;
  run! upsert card CANDIDATE now;
  log_event (MemberDiscovered (card_member_id card)) None.

Definition joined_row (epoch : Z) (now : datetime) (r : member_row) : member_row :=
  {| mr_card := mr_card r; mr_state := READY; mr_epoch := epoch; mr_last_seen := isoformat now |}.

Definition join (member_id policy_hash : string) (now : datetime) : T unit :=
  run! require_state member_id [CANDIDATE; LEFT; LOST];
  run! set_state member_id JOINING;
  do! epoch <- bump_epoch ("member_join:" +:+ member_id);
  run! update_member member_id (joined_row epoch now);
  log_event (MemberJoined member_id epoch policy_hash) None.

Definition leave (member_id : string) : T unit :=
  run! set_state member_id LEFT;
  do! _ <- bump_epoch ("member_leave:" +:+ member_id);
  log_event (MemberLeft member_id) None.

Definition beat (now : datetime) (r : member_row) : member_row :=
  {| mr_card := mr_card r; mr_state := READY; mr_epoch := mr_epoch r; mr_last_seen := isoformat now |}.

Definition heartbeat (member_id : string) (now : datetime) : T unit :=
  do! current <- st_get (state_of member_id);
  match current with
  | Some READY | Some SUSPECT => update_member member_id (beat now)
  | _ => st_ret tt
  end.

(** [(now - last).total_seconds() * 1000.0] *)
Definition age_ms (now last : datetime) : float :=
  fmul (ratio (us now - us last) 1000000) (of_Z 1000).

Definition live (s : MemberState) : bool := match s with READY | SUSPECT => true | _ => false end.

(** One row of the loop; [None]: the member stays as it is. *)
Definition aged_state (age : float) (suspect_after_ms lost_after_ms : Z) (s : MemberState) : option MemberState :=
  if fgt_Z age lost_after_ms then if bool_decide (s = LOST) then None else Some LOST
  else if bool_decide (s = READY) && fgt_Z age suspect_after_ms then Some SUSPECT
  else None.

(** A naive timestamp, which only other writers leave, is [Unreadable]. *)
Definition sweep_member (now : datetime) (suspect_after_ms lost_after_ms : Z) (m : string * member_row) : T unit :=
  match parse_aware (mr_last_seen m.2) with
  | None => st_raise Unreadable
  | Some last =>
      match aged_state (age_ms now last) suspect_after_ms lost_after_ms (mr_state m.2) with
      | Some LOST =>
          run! update_member m.1 (set_member_state LOST);
          log_event (MemberLost m.1) None
      | Some s => set_state m.1 s
      | None => st_ret tt
      end
  end.

Definition live_rows (d : team_db) : list (string * member_row) :=
  filter (fun m : string * member_row => live (mr_state m.2) = true) (map_to_list (members d)).

Definition changed_by_sweep (now : datetime) (suspect_after_ms lost_after_ms : Z)
    (rows : list (string * member_row)) : dict MemberState :=
  omap (fun m : string * member_row =>
    last ← parse_aware (mr_last_seen m.2);
    s ← aged_state (age_ms now last) suspect_after_ms lost_after_ms (mr_state m.2);
    Some (m.1, s)) rows.

Definition sweep_ttl (now : datetime) (suspect_after_ms lost_after_ms : Z) : T (dict MemberState) :=
  do! rows <- st_get live_rows;
  run! st_each (sweep_member now suspect_after_ms lost_after_ms) rows;
  st_ret (changed_by_sweep now suspect_after_ms lost_after_ms rows).

(** [members], all or those in some states. *)
Definition member_cards (states : list MemberState) (d : team_db) : list TeamMemberCard :=
  omap (fun m : string * member_row =>
    if negb (bool_decide (states = [])) && negb (bool_decide (mr_state m.2 ∈ states)) then None
    else Some (mr_card m.2)) (map_to_list (members d)).

(** ** What a method does to one member *)

(** The moves of a member: those of the table, and from READY to LOST. *)
Inductive moves : MemberState -> MemberState -> Prop :=
| m_stay s : moves s s
| m_allowed s s' : s' ∈ ALLOWED s -> moves s s'
| m_lost : moves READY LOST.

(** Between two states of the rows: no member is forgotten, each went along moves, and
    one that has left stays. *)
Definition members_next (d d' : team_db) : Prop := forall id r, members d !! id = Some r ->
  exists r', members d' !! id = Some r' /\ rtc moves (mr_state r) (mr_state r') /\
    (mr_state r = LEFT -> mr_state r' = LEFT).

#[export] Instance members_next_preorder : PreOrder members_next.
Proof.
  split.
  - intros d id r Hr. exists r. split; [done|]. split; [constructor|done].
  - intros a b c Hab Hbc id r Hr. destruct (Hab id r Hr) as (r1 & H1 & M1 & L1).
    destruct (Hbc id r1 H1) as (r2 & H2 & M2 & L2). exists r2. split; [done|]. split; [by etrans|auto].
Qed.

Lemma same_members d d' : members d' = members d -> members_next d d'.
Proof. intros E id r Hr. exists r. rewrite E. split; [done|]. split; [constructor|done]. Qed.

(** ** The methods in full *)

(** Decide the closed tests of the goal. *)
Ltac decide_eval :=
  repeat match goal with
  | |- context [bool_decide ?P] =>
      let b := eval vm_compute in (bool_decide P) in
      match b with true => idtac | false => idtac end; change (bool_decide P) with b
  end.

Definition logged (e : team_event) (idem : option string) (d : team_db) : team_db := (log_event e idem d).1.

Lemma log_event_run e idem d : log_event e idem d = (logged e idem d, Ok tt).
Proof. reflexivity. Qed.

Lemma logged_rest e idem d :
  members (logged e idem d) = members d /\ epochs (logged e idem d) = epochs d /\
  leases (logged e idem d) = leases d /\ tasks (logged e idem d) = tasks d /\
  (team_events (logged e idem d) = team_events d \/
   team_events (logged e idem d) = team_events d ++
     [{| er_event := e; er_epoch := current_epoch d; er_idempotency_key := idem |}]).
Proof. unfold logged, log_event, st_set. cbn. destruct (match idem with Some _ => _ | None => _ end); auto 10. Qed.

Lemma members_logged e i d : members (logged e i d) = members d.
Proof. apply logged_rest. Qed.
Lemma epochs_logged e i d : epochs (logged e i d) = epochs d.
Proof. apply logged_rest. Qed.
Lemma leases_logged e i d : leases (logged e i d) = leases d.
Proof. apply logged_rest. Qed.
Lemma tasks_logged e i d : tasks (logged e i d) = tasks d.
Proof. apply logged_rest. Qed.
Lemma current_logged e i d : current_epoch (logged e i d) = current_epoch d.
Proof. unfold current_epoch. by rewrite epochs_logged. Qed.
Create Rewrite HintDb team_rw.
#[export] Hint Rewrite members_logged epochs_logged leases_logged tasks_logged current_logged : team_rw.

Definition new_epoch (reason : string) (d : team_db) : team_db :=
  with_epochs (epochs d ++ [(current_epoch d + 1, reason)]) d.

Lemma current_new_epoch reason d : current_epoch (new_epoch reason d) = current_epoch d + 1.
Proof.
  unfold new_epoch, current_epoch. cbn [epochs with_epochs]. rewrite max_epoch_app. cbn.
  destruct (max_epoch (epochs d)); cbn; unfold id; lia.
Qed.

Lemma bump_epoch_run reason d :
  bump_epoch reason d =
  (logged (EpochCommitted (current_epoch d + 1) reason) None (new_epoch reason d), Ok (current_epoch d + 1)).
Proof.
  unfold bump_epoch, insert_epoch, st_bind, st_get.
  replace (existsb _ (epochs d)) with false; [reflexivity|]. symmetry. apply not_true_iff_false.
  intros (x & Hx & He)%existsb_exists. breflect. destruct x as [e r]. cbn in He. subst e.
  apply list_elem_of_In, max_epoch_bound in Hx as (m & Hm & Hle).
  unfold current_epoch in Hle. rewrite Hm in Hle. cbn in Hle. unfold id in Hle. lia.
Qed.

Lemma set_state_run id s d : set_state id s d =
  match state_of id d with
  | Some c => if bool_decide (s ∈ ALLOWED c) then (with_members (alter (set_member_state s) id (members d)) d, Ok tt)
              else (d, Err Invalid)
  | None => (d, Err Invalid)
  end.
Proof.
  unfold set_state, st_bind, st_get. destruct (state_of id d); [|done]. unfold st_guard.
  by destruct (bool_decide _).
Qed.

Lemma alter_alter_same {V} (f g : V -> V) (i : string) (m : gmap string V) :
  alter f i (alter g i m) = alter (fun r => f (g r)) i m.
Proof.
  apply map_eq. intros j. destruct (decide (i = j)) as [->|Hne].
  - rewrite !lookup_alter_eq, <- option_fmap_compose. done.
  - by rewrite !lookup_alter_ne.
Qed.

(** A formal join, from CANDIDATE or LOST only, commits one epoch. *)
Theorem join_run id policy_hash now d :
  join id policy_hash now d =
  match state_of id d with
  | Some CANDIDATE | Some LOST =>
      let epoch := current_epoch d + 1 in
      let ready := fun r => joined_row epoch now r in
      (logged (MemberJoined id epoch policy_hash) None
         (with_members (alter ready id (members d))
           (logged (EpochCommitted epoch ("member_join:" +:+ id)) None (new_epoch ("member_join:" +:+ id) d))),
       Ok tt)
  | _ => (d, Err Invalid)
  end.
Proof.
  unfold join, require_state, st_bind, st_get.
  destruct (state_of id d) as [s|] eqn:Es; [|reflexivity].
  destruct s; decide_eval; try reflexivity; cbn -[bump_epoch log_event update_member set_state String.append];
    rewrite set_state_run, Es; decide_eval; try reflexivity; cbn -[bump_epoch log_event update_member String.append];
    rewrite bump_epoch_run; unfold update_member, st_set, logged, log_event, st_set; cbn;
    by rewrite alter_alter_same.
Qed.

Lemma leave_run id d :
  leave id d =
  match state_of id d with
  | Some LEFT | None => (d, Err Invalid)
  | Some _ =>
      (logged (MemberLeft id) None
         (logged (EpochCommitted (current_epoch d + 1) ("member_leave:" +:+ id)) None
            (new_epoch ("member_leave:" +:+ id)
               (with_members (alter (set_member_state LEFT) id (members d)) d))), Ok tt)
  end.
Proof.
  unfold leave, st_bind. rewrite set_state_run. destruct (state_of id d) as [s|]; [|reflexivity].
  destruct s; decide_eval; try reflexivity; cbn -[bump_epoch log_event String.append]; by rewrite bump_epoch_run.
Qed.

(** ** The sweep *)

(** What a sweep makes of a row. *)
Definition swept (now : datetime) (suspect_after_ms lost_after_ms : Z) (r : member_row) : member_row :=
  if live (mr_state r) then
    match parse_aware (mr_last_seen r) with
    | Some last =>
        match aged_state (age_ms now last) suspect_after_ms lost_after_ms (mr_state r) with
        | Some s => set_member_state s r
        | None => r
        end
    | None => r
    end
  else r.

(** The rows but for the members' states. *)
Definition same_but_members (d d' : team_db) : Prop :=
  epochs d' = epochs d /\ leases d' = leases d /\ tasks d' = tasks d.

#[export] Instance same_but_members_preorder : PreOrder same_but_members.
Proof. split; [by intros d|]. unfold same_but_members. intros a b c. naive_solver congruence. Qed.

Section Sweep.
Context (now : datetime) (suspect_after_ms lost_after_ms : Z).

Lemma sweep_member_run id r d last :
  members d !! id = Some r -> live (mr_state r) = true -> parse_aware (mr_last_seen r) = Some last ->
  exists d', sweep_member now suspect_after_ms lost_after_ms (id, r) d = (d', Ok tt) /\
    same_but_members d d' /\
    members d' = <[id := swept now suspect_after_ms lost_after_ms r]> (members d).
Proof.
  intros Hr Hl Hp. unfold sweep_member, swept. cbn [fst snd]. rewrite Hp, Hl.
  assert (Hst : state_of id d = Some (mr_state r)) by (unfold state_of; by rewrite Hr).
  assert (Halt : forall s, alter (set_member_state s) id (members d) = <[id := set_member_state s r]> (members d)).
  { intros s. apply map_eq. intros j. destruct (decide (id = j)) as [->|Hne].
    - by rewrite lookup_alter_eq, lookup_insert_eq, Hr.
    - by rewrite lookup_alter_ne, lookup_insert_ne. }
  unfold aged_state. destruct (fgt_Z _ lost_after_ms) eqn:Elost.
  - replace (bool_decide (mr_state r = LOST)) with false by (by destruct (mr_state r)).
    unfold st_bind, update_member, st_set. rewrite log_event_run. eexists. split; [done|].
    unfold same_but_members. autorewrite with team_rw. split; [done|]. apply Halt.
  - destruct (bool_decide (mr_state r = READY) && _) eqn:E.
    + breflect. rewrite set_state_run, Hst.
      match goal with H : mr_state r = READY |- _ => rewrite H end. decide_eval.
      eexists. split; [done|]. split; [done|]. apply Halt.
    + exists d. split; [done|]. split; [done|]. by rewrite insert_id.
Qed.

Lemma sweep_rows_run rows d :
  NoDup rows.*1 ->
  (forall m, m ∈ rows -> members d !! m.1 = Some m.2 /\ live (mr_state m.2) = true /\
     is_Some (parse_aware (mr_last_seen m.2))) ->
  exists d', st_each (sweep_member now suspect_after_ms lost_after_ms) rows d = (d', Ok tt) /\
    same_but_members d d' /\
    forall id, members d' !! id =
      if decide (id ∈ rows.*1) then swept now suspect_after_ms lost_after_ms <$> members d !! id
      else members d !! id.
Proof.
  revert d. induction rows as [|[id r] rows IH]; intros d Hnd Hok.
  - exists d. split; [done|]. split; [done|]. intros id. by rewrite decide_False by apply not_elem_of_nil.
  - apply NoDup_cons in Hnd as [Hni Hnd].
    destruct (Hok (id, r) ltac:(left)) as (Hr & Hl & last & Hp). cbn [fst snd] in *.
    destruct (sweep_member_run id r d last Hr Hl Hp) as (d1 & E1 & S1 & M1).
    destruct (IH d1 Hnd) as (d' & E' & S' & M').
    { intros [id' r'] Hin. destruct (Hok (id', r') ltac:(by right)) as (Hr' & Hl' & Hp'). cbn [fst snd] in *.
      split; [|done]. rewrite M1, lookup_insert_ne; [done|]. intros ->. apply Hni.
      apply list_elem_of_fmap. by exists (id', r'). }
    exists d'. cbn [st_each]. unfold st_bind. rewrite E1. split; [exact E'|]. split; [by etrans|].
    intros id'. rewrite M', M1. cbn [fmap list_fmap fst].
    destruct (decide (id' = id)) as [->|Hne].
    + rewrite decide_False by done. rewrite decide_True by left. by rewrite lookup_insert_eq, Hr.
    + rewrite lookup_insert_ne by done.
      destruct (decide (id' ∈ rows.*1)) as [Hin|Hin].
      * by rewrite decide_True by (by right).
      * rewrite decide_False; [done|]. intros [?|?]%elem_of_cons; done.
Qed.

Lemma live_rows_ok d m : m ∈ live_rows d <-> members d !! m.1 = Some m.2 /\ live (mr_state m.2) = true.
Proof.
  unfold live_rows. rewrite list_elem_of_filter. destruct m as [id r]. rewrite elem_of_map_to_list. cbn. tauto.
Qed.

Lemma live_rows_nodup d : NoDup (live_rows d).*1.
Proof.
  eapply (sublist_NoDup _ (map_to_list (members d)).*1); [apply NoDup_fst_map_to_list|].
  apply fmap_sublist. unfold live_rows. apply sublist_filter.
Qed.

(** Every timestamp of a live member can be read. *)
Definition readable (d : team_db) : Prop := forall id r, members d !! id = Some r ->
  live (mr_state r) = true -> is_Some (parse_aware (mr_last_seen r)).

(** A sweep returns, and classifies each member by its own age alone. *)
Theorem sweep_ttl_run d : readable d ->
  exists d' changed, sweep_ttl now suspect_after_ms lost_after_ms d = (d', Ok changed) /\
    same_but_members d d' /\
    forall id, members d' !! id = swept now suspect_after_ms lost_after_ms <$> members d !! id.
Proof.
  intros Hr. destruct (sweep_rows_run (live_rows d) d (live_rows_nodup d)) as (d' & E & Hs & Hm).
  { intros m [Hm Hl]%live_rows_ok. split; [done|]. split; [done|]. by apply (Hr m.1). }
  eexists d', _. unfold sweep_ttl, st_bind, st_get. rewrite E. split; [reflexivity|]. split; [done|].
  intros id. rewrite Hm. destruct (decide (id ∈ _)) as [Hin|Hin]; [done|].
  destruct (members d !! id) as [r|] eqn:Er; [|done]. cbn. f_equal. unfold swept.
  destruct (live (mr_state r)) eqn:El; [|done]. exfalso. apply Hin, list_elem_of_fmap.
  exists (id, r). split; [done|]. by apply live_rows_ok.
Qed.
End Sweep.

(** ** Every method moves members along the table *)

Lemma swept_moves now sa la r :
  rtc moves (mr_state r) (mr_state (swept now sa la r)) /\
  (mr_state r = LEFT -> mr_state (swept now sa la r) = LEFT).
Proof.
  unfold swept. destruct (live (mr_state r)) eqn:El; [|split; [constructor|done]].
  split; [|by destruct (mr_state r)]. destruct (parse_aware _) as [last|]; [|constructor].
  unfold aged_state. destruct (fgt_Z _ la).
  - destruct (mr_state r) eqn:Es; try discriminate El; decide_eval; cbn; apply rtc_once.
    + apply m_lost.
    + apply m_allowed. cbn. set_solver.
  - destruct (bool_decide (mr_state r = READY) && _) eqn:E; [|constructor]. breflect.
    match goal with H : mr_state r = READY |- _ => rewrite H end. cbn. apply rtc_once, m_allowed. cbn. set_solver.
Qed.

Lemma alter_next f id d d' :
  members d' = alter f id (members d) ->
  (forall r, members d !! id = Some r ->
     rtc moves (mr_state r) (mr_state (f r)) /\ (mr_state r = LEFT -> mr_state (f r) = LEFT)) ->
  members_next d d'.
Proof.
  intros E Hf i r Hr. rewrite E. destruct (decide (id = i)) as [->|Hne].
  - rewrite lookup_alter_eq, Hr. exists (f r). split; [done|]. by apply Hf.
  - rewrite lookup_alter_ne by done. exists r. split; [done|]. split; [constructor|done].
Qed.

Lemma join_next id ph now : keeps members_next (join id ph now).
Proof.
  intros d. rewrite join_run.
  assert (Hgo : forall s, state_of id d = Some s -> s = CANDIDATE \/ s = LOST ->
    members_next d (logged (MemberJoined id (current_epoch d + 1) ph) None
         (with_members (alter (joined_row (current_epoch d + 1) now) id (members d))
           (logged (EpochCommitted (current_epoch d + 1) ("member_join:" +:+ id)) None
              (new_epoch ("member_join:" +:+ id) d))))).
  { intros s Hs Hc. eapply alter_next; [by autorewrite with team_rw|]. intros r Hr.
    unfold state_of in Hs. rewrite Hr in Hs. injection Hs as <-. split; [|intros E; destruct Hc; congruence].
    cbn. apply (rtc_l _ _ JOINING); [|apply rtc_once]; apply m_allowed; destruct Hc as [Hc|Hc]; rewrite ?Hc; cbn; set_solver. }
  destruct (state_of id d) as [[]|]; cbn [fst]; try reflexivity; eapply Hgo; eauto.
Qed.

Lemma leave_next id : keeps members_next (leave id).
Proof.
  intros d. rewrite leave_run.
  assert (Hgo : forall s, state_of id d = Some s -> s <> LEFT ->
    members_next d (logged (MemberLeft id) None
         (logged (EpochCommitted (current_epoch d + 1) ("member_leave:" +:+ id)) None
            (new_epoch ("member_leave:" +:+ id)
               (with_members (alter (set_member_state LEFT) id (members d)) d))))).
  { intros s Hs Hne. eapply alter_next; [by autorewrite with team_rw|].
    intros r Hr. unfold state_of in Hs. rewrite Hr in Hs. injection Hs as <-. split; [|done].
    cbn. apply rtc_once, m_allowed. destruct (mr_state r); cbn; try set_solver; done. }
  destruct (state_of id d) as [[]|]; cbn [fst]; try reflexivity; by eapply Hgo.
Qed.

Lemma heartbeat_next id now : keeps members_next (heartbeat id now).
Proof.
  intros d. unfold heartbeat, st_bind, st_get.
  assert (Hgo : forall s, state_of id d = Some s -> s = READY \/ s = SUSPECT ->
    members_next d (update_member id (beat now) d).1).
  { intros s Hs Hc. eapply alter_next; [done|]. intros r Hr. unfold state_of in Hs. rewrite Hr in Hs.
    injection Hs as <-. cbn. split; [|destruct Hc; congruence].
    destruct Hc as [-> | ->]; [constructor|]. apply rtc_once, m_allowed. cbn. set_solver. }
  destruct (state_of id d) as [[]|]; cbn [fst]; try reflexivity; eapply Hgo; eauto.
Qed.

Lemma add_candidate_next tid card now : keeps members_next (add_candidate tid card now).
Proof.
  unfold add_candidate. apply keeps_bind; [apply _|apply keeps_guard, _|intros _].
  apply keeps_bind; [apply _| |intros _; intros d; apply same_members, logged_rest].
  intros d id r Hr. unfold upsert, st_set. cbn.
  destruct (decide (card_member_id card = id)) as [<-|Hne].
  - rewrite lookup_insert_eq, Hr. eexists. split; [done|]. split; [constructor|done].
  - rewrite lookup_insert_ne by done. exists r. split; [done|]. split; [constructor|done].
Qed.

Lemma sweep_rows_next now sa la rows d :
  NoDup rows.*1 -> (forall m, m ∈ rows -> members d !! m.1 = Some m.2 /\ live (mr_state m.2) = true) ->
  members_next d (st_each (sweep_member now sa la) rows d).1 /\
  same_but_members d (st_each (sweep_member now sa la) rows d).1.
Proof.
  revert d. induction rows as [|[id r] rows IH]; intros d Hnd Hok; [by split|].
  apply NoDup_cons in Hnd as [Hni Hnd]. destruct (Hok (id, r) ltac:(left)) as [Hr Hl]. cbn [fst snd] in *.
  cbn [st_each]. unfold st_bind.
  destruct (parse_aware (mr_last_seen r)) as [last|] eqn:Hp.
  - destruct (sweep_member_run now sa la id r d last Hr Hl Hp) as (d1 & E1 & S1 & M1). rewrite E1.
    destruct (IH d1 Hnd) as [Hn Hs].
    { intros [id' r'] Hin. destruct (Hok (id', r') ltac:(by right)) as (Hr' & Hl'). cbn [fst snd] in *.
      split; [|done]. rewrite M1, lookup_insert_ne; [done|]. intros ->. apply Hni.
      apply list_elem_of_fmap. by exists (id', r'). }
    split; [|by etrans]. etrans; [|exact Hn]. intros i x Hx. rewrite M1.
    destruct (decide (id = i)) as [<-|Hne].
    + rewrite lookup_insert_eq. eexists. split; [done|]. replace x with r by congruence. apply swept_moves.
    + rewrite lookup_insert_ne by done. exists x. split; [done|]. split; [constructor|done].
  - unfold sweep_member at 1 3. cbn [snd]. rewrite Hp. by split.
Qed.

Lemma sweep_next now sa la : keeps members_next (sweep_ttl now sa la).
Proof.
  intros d. unfold sweep_ttl, st_bind, st_get.
  pose proof (sweep_rows_next now sa la (live_rows d) d (live_rows_nodup d)) as Hs.
  destruct (st_each _ (live_rows d) d) as [d' [[]|e]]; apply Hs; intros m Hm; by apply live_rows_ok.
Qed.
