(* ===== verification/Roles.v ===== *)
(** Role leases: src/src/rosclaw/team/roles.py. *)

From S2P Require Export Membership.

(** [_active]: the first row that is ACTIVE for the key, of whatever epoch. *)
Definition active (key : string) (r : lease_row) : bool :=
  String.eqb (lr_key r) key && bool_decide (lr_state r = L_ACTIVE).

Definition find_active (key : string) (d : team_db) : option lease_row :=
  find (active key) (leases d).

Definition member_ready (member_id : string) (d : team_db) : bool :=
  bool_decide (state_of member_id d = Some READY).

(** The primary key of [role_leases], and its unique index on the ACTIVE rows. *)
Definition clashes (id : string) (epoch : Z) (key : string) (r : lease_row) : bool :=
  String.eqb (lr_id r) id || (active key r && (lr_epoch r =? epoch)).

Definition insert_lease (row : lease_row) : T unit :=
  do! d <- st_get (fun d => d);
  if existsb (clashes (lr_id row) (lr_epoch row) (lr_key row)) (leases d) then st_raise IntegrityError
  else st_set (with_leases (leases d ++ [row])).

(** [id] is the fresh identifier of the row. *)
Definition award (id : string) (lease : RoleLease) : T RoleLease :=
  do! epoch <- st_get current_epoch;
  run! st_guard (rl_team_epoch lease =? epoch) Invalid;
  do! ready <- st_get (member_ready (rl_holder lease));
  run! st_guard (String.eqb (rl_holder lease) "" || ready) Invalid;
  run! st_try
    (insert_lease {| lr_id := id; lr_epoch := rl_team_epoch lease; lr_key := rl_conflict_key lease;
                     lr_holder := rl_holder lease; lr_lease := lease; lr_state := L_ACTIVE;
                     lr_expires_at := rl_expires_at lease |})
    (fun e => st_raise (match e with IntegrityError => RoleConflictError | e => e end));
  st_ret lease.

Definition with_expiry (expires_at : string) (l : RoleLease) : RoleLease :=
  {| rl_team_id := rl_team_id l; rl_team_epoch := rl_team_epoch l; rl_role := rl_role l;
     rl_holder := rl_holder l; rl_scope := rl_scope l; rl_issued_at := rl_issued_at l;
     rl_expires_at := expires_at; rl_renew_after_ms := rl_renew_after_ms l; rl_priority := rl_priority l;
     rl_conflict_key := rl_conflict_key l; rl_policy_hash := rl_policy_hash l; rl_state := rl_state l |}.

Definition renewed (expires_at : string) (r : lease_row) : lease_row :=
  {| lr_id := lr_id r; lr_epoch := lr_epoch r; lr_key := lr_key r; lr_holder := lr_holder r;
     lr_lease := with_expiry expires_at (lr_lease r); lr_state := lr_state r; lr_expires_at := expires_at |}.

Definition renew (key holder new_expires_at : string) : T unit :=
  do! row <- st_get (find_active key);
  match row with
  | Some r =>
      if String.eqb (lr_holder r) holder then st_set (update_lease (lr_id r) (renewed new_expires_at))
      else st_raise Invalid
  | None => st_raise Invalid
  end.

(** [revoke] and [contest] *)
Definition end_active (state : LeaseState) (key : string) : T unit :=
  do! row <- st_get (find_active key);
  match row with
  | Some r => st_set (update_lease (lr_id r) (set_lease_state state))
  | None => st_ret tt
  end.

Definition revoke : string -> T unit := end_active L_REVOKED.
Definition contest : string -> T unit := end_active L_CONTESTED.

Definition stale (now : string) (epoch : Z) (r : lease_row) : bool :=
  bool_decide (lr_state r = L_ACTIVE) && (str_ltb (lr_expires_at r) now || negb (lr_epoch r =? epoch)).

(** [sweep_expired] at the text [now] of the clock. *)
Definition sweep_expired (now : datetime) : T (list string) :=
  do! d <- st_get (fun d => d);
  let rows := filter (fun r => stale (isoformat now) (current_epoch d) r = true) (leases d) in
  run! st_each (fun r => st_set (update_lease (lr_id r) (set_lease_state L_EXPIRED))) rows;
  st_ret (lr_key <$> rows).

Definition active_holder (key : string) (d : team_db) : option string := lr_holder <$> find_active key d.

Definition active_leases (d : team_db) : list RoleLease :=
  lr_lease <$> filter (fun r => lr_state r = L_ACTIVE) (leases d).

(** ** What the table keeps *)

(** Identifiers are unique, at most one row is ACTIVE for a key in an epoch, and a row
    repeats what its lease says. *)
Record leases_ok (d : team_db) : Prop := {
  lo_ids : NoDup (lr_id <$> leases d);
  lo_unique : forall r r', r ∈ leases d -> r' ∈ leases d -> lr_state r = L_ACTIVE -> lr_state r' = L_ACTIVE ->
    lr_key r = lr_key r' -> lr_epoch r = lr_epoch r' -> r = r';
  lo_row : forall r, r ∈ leases d -> lr_epoch r <= current_epoch d /\
    lr_key r = rl_conflict_key (lr_lease r) /\ lr_holder r = rl_holder (lr_lease r) /\
    lr_expires_at r = rl_expires_at (lr_lease r) /\ lr_epoch r = rl_team_epoch (lr_lease r);
}.

(** A change of rows in place that activates none and moves none. *)
Lemma leases_ok_map f d d' :
  leases d' = f <$> leases d -> current_epoch d <= current_epoch d' ->
  (forall r, r ∈ leases d -> lr_id (f r) = lr_id r /\ lr_key (f r) = lr_key r /\ lr_epoch (f r) = lr_epoch r /\
     (lr_state (f r) = L_ACTIVE -> lr_state r = L_ACTIVE) /\
     lr_key r = rl_conflict_key (lr_lease (f r)) /\ lr_holder (f r) = rl_holder (lr_lease (f r)) /\
     lr_expires_at (f r) = rl_expires_at (lr_lease (f r)) /\ lr_epoch r = rl_team_epoch (lr_lease (f r))) ->
  leases_ok d -> leases_ok d'.
Proof.
  intros El He Hf [Hi Hu Hr]. split; rewrite El.
  - rewrite <- list_fmap_compose.
    replace (lr_id ∘ f <$> leases d) with (lr_id <$> leases d); [done|].
    apply list_fmap_ext. intros i r Hin%list_elem_of_lookup_2. symmetry. by apply Hf.
  - intros r r' (x & -> & Hx)%list_elem_of_fmap (x' & -> & Hx')%list_elem_of_fmap Ha Ha' Hk Hep.
    destruct (Hf x Hx) as (? & Hk1 & He1 & Ha1 & _). destruct (Hf x' Hx') as (? & Hk2 & He2 & Ha2 & _).
    f_equal. apply Hu; try done; [by apply Ha1|by apply Ha2|congruence|congruence].
  - intros r (x & -> & Hx)%list_elem_of_fmap. destruct (Hf x Hx) as (_ & Hk1 & He1 & _ & Hk & Hh & Hex & Hep).
    destruct (Hr x Hx) as [Hle _]. rewrite Hk1, He1. split_and!; try done. lia.
Qed.

Lemma update_lease_ok id f d :
  (forall r, r ∈ leases d -> lr_id (f r) = lr_id r /\ lr_key (f r) = lr_key r /\ lr_epoch (f r) = lr_epoch r /\
     (lr_state (f r) = L_ACTIVE -> lr_state r = L_ACTIVE) /\
     rl_conflict_key (lr_lease (f r)) = rl_conflict_key (lr_lease r) /\
     lr_holder (f r) = lr_holder r /\ rl_holder (lr_lease (f r)) = rl_holder (lr_lease r) /\
     (lr_expires_at r = rl_expires_at (lr_lease r) -> lr_expires_at (f r) = rl_expires_at (lr_lease (f r))) /\
     rl_team_epoch (lr_lease (f r)) = rl_team_epoch (lr_lease r)) ->
  leases_ok d -> leases_ok (update_lease id f d).
Proof.
  intros Hf Hok. eapply leases_ok_map; [done|done| |exact Hok].
  intros r Hr. destruct (lo_row d Hok r Hr) as (_ & Hk & Hh & Hx & He).
  destruct (Hf r Hr) as (? & ? & ? & ? & Hck & Hhr & Hrh & Hxr & Hte).
  cbn beta. destruct (decide (lr_id r = id)); [|by split_and!]. split_and!; try done; [congruence|congruence|auto|congruence].
Qed.

Lemma set_lease_state_ok id s d : s <> L_ACTIVE -> leases_ok d -> leases_ok (update_lease id (set_lease_state s) d).
Proof. intros Hs. apply update_lease_ok. intros r Hr. by split_and!. Qed.

Lemma renewed_leases_ok id x d : leases_ok d -> leases_ok (update_lease id (renewed x) d).
Proof. apply update_lease_ok. intros r Hr. by split_and!. Qed.

(** ** The methods *)

Definition lease_row_of (id : string) (lease : RoleLease) : lease_row :=
  {| lr_id := id; lr_epoch := rl_team_epoch lease; lr_key := rl_conflict_key lease;
     lr_holder := rl_holder lease; lr_lease := lease; lr_state := L_ACTIVE;
     lr_expires_at := rl_expires_at lease |}.

(** An award succeeds exactly for the current epoch, a READY holder (or none) and a key
    without an ACTIVE lease in the epoch; otherwise nothing changes. *)
Theorem award_run id lease d :
  award id lease d =
  if negb (rl_team_epoch lease =? current_epoch d) then (d, Err Invalid)
  else if negb (String.eqb (rl_holder lease) "" || member_ready (rl_holder lease) d) then (d, Err Invalid)
  else if existsb (clashes id (current_epoch d) (rl_conflict_key lease)) (leases d) then (d, Err RoleConflictError)
  else (with_leases (leases d ++ [lease_row_of id lease]) d, Ok lease).
Proof.
  unfold award, insert_lease, st_try, st_bind, st_get, st_guard, st_ret, st_raise.
  destruct (rl_team_epoch lease =? current_epoch d) eqn:E; [|done]. breflect. cbn [negb].
  destruct (_ || member_ready _ d); [|done]. unfold lease_row_of. cbn [negb lr_id lr_epoch lr_key]. rewrite E.
  by destruct (existsb _ _).
Qed.

Lemma award_ok id lease d : leases_ok d -> leases_ok (award id lease d).1.
Proof.
  intros [Hi Hu Hr]. rewrite award_run. destruct (rl_team_epoch lease =? current_epoch d) eqn:E; [|done]. breflect.
  cbn [negb]. destruct (_ || member_ready _ d); [|done]. cbn [negb].
  destruct (existsb _ _) eqn:Ec; [done|]. apply not_true_iff_false in Ec. rewrite existsb_exists in Ec.
  assert (Hno : forall r, r ∈ leases d -> lr_id r <> id /\
    ~ (lr_key r = rl_conflict_key lease /\ lr_state r = L_ACTIVE /\ lr_epoch r = current_epoch d)).
  { intros r Hin. split; [intros <-|intros (Hk & Ha & He)]; apply Ec; exists r; (split; [by apply list_elem_of_In|]);
      unfold clashes, active.
    - by rewrite String.eqb_refl.
    - rewrite Hk, Ha, He, String.eqb_refl, Z.eqb_refl. decide_eval. by rewrite orb_true_r. }
  split; cbn [fst leases with_leases].
  - rewrite fmap_app. apply NoDup_app. split; [done|]. split; [|apply NoDup_singleton].
    intros x (r & -> & Hin)%list_elem_of_fmap Hx%list_elem_of_singleton. by destruct (Hno r Hin).
  - intros r r' [Hin|Hin%list_elem_of_singleton]%elem_of_app [Hin'|Hin'%list_elem_of_singleton]%elem_of_app Ha Ha' Hk He.
    + by apply Hu.
    + subst r'. destruct (Hno r Hin) as [_ []]. cbn in *. split_and!; [done..|congruence].
    + subst r. destruct (Hno r' Hin') as [_ []]. cbn in *. split_and!; [done..|congruence].
    + by subst.
  - change (current_epoch (with_leases _ d)) with (current_epoch d).
    intros r [Hin|Hin%list_elem_of_singleton]%elem_of_app; [by apply Hr|]. subst r. cbn. split_and!; try done. lia.
Qed.

Lemma renew_run key holder x d :
  renew key holder x d =
  match find_active key d with
  | Some r => if String.eqb (lr_holder r) holder then (update_lease (lr_id r) (renewed x) d, Ok tt) else (d, Err Invalid)
  | None => (d, Err Invalid)
  end.
Proof. unfold renew, st_bind, st_get. destruct (find_active key d); [|done]. by destruct (String.eqb _ _). Qed.

Lemma end_active_run s key d :
  end_active s key d =
  match find_active key d with
  | Some r => (update_lease (lr_id r) (set_lease_state s) d, Ok tt)
  | None => (d, Ok tt)
  end.
Proof. unfold end_active, st_bind, st_get. by destruct (find_active key d). Qed.

Lemma nodup_key {A B} (f : A -> B) (l : list A) x y :
  NoDup (f <$> l) -> x ∈ l -> y ∈ l -> f x = f y -> x = y.
Proof.
  intros Hnd [i Hi]%list_elem_of_lookup [j Hj]%list_elem_of_lookup E.
  assert (i = j) as -> by (apply (NoDup_lookup (f <$> l) i j (f x) Hnd); rewrite list_lookup_fmap;
    [by rewrite Hi|by rewrite Hj, E]).
  congruence.
Qed.

(** The sweep ends exactly the ACTIVE rows that expired or are of another epoch. *)
Definition expired (now : datetime) (d : team_db) (r : lease_row) : lease_row :=
  if stale (isoformat now) (current_epoch d) r then set_lease_state L_EXPIRED r else r.

Lemma update_rows rows d :
  NoDup (lr_id <$> leases d) -> NoDup rows -> (forall r, r ∈ rows -> r ∈ leases d) ->
  st_each (fun r => st_set (update_lease (lr_id r) (set_lease_state L_EXPIRED))) rows d =
  (with_leases ((fun r => if decide (lr_id r ∈ lr_id <$> rows) then set_lease_state L_EXPIRED r else r) <$> leases d) d,
   Ok (E := team_exn) tt).
Proof.
  intros Hi. revert d Hi. induction rows as [|x rows IH]; intros d Hi Hnd Hin.
  - cbn. unfold st_ret. f_equal. destruct d; unfold with_leases; cbn. f_equal.
    symmetry. transitivity ((fun r : lease_row => r) <$> leases); [|apply list_fmap_id].
    apply list_fmap_ext. intros ? r _. by rewrite decide_False by apply not_elem_of_nil.
  - apply NoDup_cons in Hnd as [Hni Hnd]. cbn [st_each]. unfold st_bind, st_set at 1.
    assert (Hids : forall i, (lr_id <$> leases (update_lease i (set_lease_state L_EXPIRED) d)) = (lr_id <$> leases d)).
    { intros i. cbn. rewrite <- list_fmap_compose. apply list_fmap_ext. intros ? r _. cbn.
      by destruct (decide (lr_id r = i)). }
    assert (Hx : forall r, r ∈ rows -> lr_id r <> lr_id x).
    { intros r Hr E. apply Hni. assert (r = x) as <-; [|done].
      apply (nodup_key lr_id (leases d)); [done|apply Hin; by right|apply Hin; left|done]. }
    rewrite IH; [|by rewrite Hids|done|].
    + f_equal. unfold with_leases. cbn. f_equal. rewrite <- list_fmap_compose. apply list_fmap_ext. intros ? r _.
      cbn. destruct (decide (lr_id r = lr_id x)) as [E|E].
      * cbn. rewrite decide_False; [by rewrite decide_True by (rewrite E; left)|].
        intros (r' & E' & Hr')%list_elem_of_fmap. apply (Hx r' Hr'). cbn in E'. congruence.
      * destruct (decide (lr_id r ∈ lr_id <$> rows)); [by rewrite decide_True by (by right)|].
        rewrite decide_False; [done|]. intros [?|?]%elem_of_cons; done.
    + intros r Hr. cbn. apply list_elem_of_fmap. exists r. split; [by rewrite decide_False by auto|]. apply Hin. by right.
Qed.

Theorem sweep_expired_run now d : NoDup (lr_id <$> leases d) ->
  sweep_expired now d =
  (with_leases (expired now d <$> leases d) d,
   Ok (lr_key <$> filter (fun r => stale (isoformat now) (current_epoch d) r = true) (leases d))).
Proof.
  intros Hi. unfold sweep_expired, st_bind, st_get.
  set (P := fun r => stale (isoformat now) (current_epoch d) r = true).
  rewrite update_rows; [|done| |].
  - unfold st_ret, with_leases. f_equal. f_equal. apply list_fmap_ext. intros i r Hr%list_elem_of_lookup_2.
    unfold expired. destruct (stale _ _ r) eqn:E.
    + rewrite decide_True; [done|]. apply list_elem_of_fmap. exists r. split; [done|]. by apply list_elem_of_filter.
    + rewrite decide_False; [done|]. intros (r' & Hid & [Hs Hr']%list_elem_of_filter)%list_elem_of_fmap.
      assert (r = r') as <- by (by apply (nodup_key lr_id (leases d))). unfold P in Hs. congruence.
  - apply (NoDup_fmap_1 lr_id). eapply (sublist_NoDup _ _ Hi). apply fmap_sublist, sublist_filter.
  - by intros r [_ Hr]%list_elem_of_filter.
Qed.

Lemma sweep_expired_ok now d : leases_ok d -> leases_ok (sweep_expired now d).1.
Proof.
  intros Hok. rewrite sweep_expired_run by apply Hok. eapply leases_ok_map; [done|done| |exact Hok].
  intros r Hr. destruct (lo_row d Hok r Hr) as (_ & ? & ? & ? & ?). unfold expired.
  by destruct (stale _ _ r); split_and!.
Qed.

Lemma renew_ok key holder x d : leases_ok d -> leases_ok (renew key holder x d).1.
Proof.
  intros Hok. rewrite renew_run. destruct (find_active key d); [|done].
  destruct (String.eqb _ _); [by apply renewed_leases_ok|done].
Qed.

Lemma end_active_ok s key d : s <> L_ACTIVE -> leases_ok d -> leases_ok (end_active s key d).1.
Proof.
  intros Hs Hok. rewrite end_active_run. destruct (find_active key d); [by apply set_lease_state_ok|done].
Qed.

Lemma leases_ok_ext d d' : leases d' = leases d -> current_epoch d <= current_epoch d' -> leases_ok d -> leases_ok d'.
Proof.
  intros El He Hok. apply (leases_ok_map (fun r => r) d d'); [by rewrite El, list_fmap_id|done| |exact Hok].
  intros r Hr. destruct (lo_row d Hok r Hr) as (_ & ? & ? & ? & ?). by split_and!.
Qed.

(** After a sweep the holder of a key is the one of the current epoch, whose lease has
    not run out. *)
Theorem swept_holder_current now d key h : leases_ok d ->
  active_holder key (sweep_expired now d).1 = Some h ->
  exists r, r ∈ leases d /\ lr_key r = key /\ lr_holder r = h /\ lr_state r = L_ACTIVE /\
    lr_epoch r = current_epoch d /\ str_ltb (lr_expires_at r) (isoformat now) = false.
Proof.
  intros Hok. rewrite sweep_expired_run by apply Hok. unfold active_holder, find_active. cbn [fst leases with_leases].
  intros (r & Hf & ->)%fmap_Some. apply find_some in Hf as [Hin Ha].
  apply list_elem_of_In, list_elem_of_fmap in Hin as (x & -> & Hx). unfold active in Ha. breflect.
  unfold expired in *. destruct (stale _ _ x) eqn:E; [done|]. exists x.
  assert (Hact : lr_state x = L_ACTIVE) by done. unfold stale in E. rewrite Hact in E. revert E. decide_eval.
  cbn [andb]. intros [E1 E2]%orb_false_iff. breflect.
  match goal with H : (_ =? _)%string = true |- _ => apply String.eqb_eq in H end. by split_and!.
Qed.
