(* ===== verification/WorldModel.v ===== *)
(** The shared world model: src/src/rosclaw/team/world.py, over the deltas of
    src/src/rosclaw/contracts/team/world.py.

    What a delta says of an object is kept as JSON values; two states are equal as
    Python's are. The texts of warnings carry the object only. *)

From S2P Require Export TeamDb.

(** [ClockSkewError] and the [ValueError] of a timestamp that cannot be read. *)
Inductive world_exn := ClockSkew | BadTimestamp.

Record ObjectState := {
  object_id : string;
  pose : json;
  twist : json;
  covariance : json;
  confidence : json;
  evidence_class : string;
  evidence_ref : option string;
  tombstone : bool;
}.

Record QoSSpec := { qos_reliability : string; history_depth : Z; qos_deadline_ms : option Z; lifespan_ms : option Z }.

Record SharedWorldDelta := {
  wd_team_id : string;
  wd_team_epoch : Z;
  wd_world_revision : Z;
  wd_source_member : string;
  wd_source_sensor : option string;
  wd_observed_at : string;
  wd_published_at : string;
  wd_max_age_ms : Z;
  wd_frame_id : string;
  wd_transform_revision : Z;
  wd_merge_policy : string;
  wd_objects : list ObjectState;
  wd_qos : QoSSpec;
  wd_base_revision : Z;
}.

(** [existing == obj] *)
Definition object_eqb (a b : ObjectState) : bool :=
  String.eqb (object_id a) (object_id b) && py_eqb (pose a) (pose b) && py_eqb (twist a) (twist b)
  && py_eqb (covariance a) (covariance b) && py_eqb (confidence a) (confidence b)
  && String.eqb (evidence_class a) (evidence_class b) && bool_decide (evidence_ref a = evidence_ref b)
  && Bool.eqb (tombstone a) (tombstone b).

Record WorldModel := {
  objects : dict (datetime * ObjectState);
  sources : dict datetime;
  world_revision : Z;
  tolerance_ms : Z;
}.

Definition DEFAULT_CLOCK_TOLERANCE_MS : Z := 500.

Definition world_new (clock_tolerance_ms : Z) : WorldModel :=
  {| objects := []; sources := []; world_revision := 0; tolerance_ms := clock_tolerance_ms |}.

(** [d.total_seconds() * 1000.0] for a difference in microseconds. *)
Definition millis (d : Z) : float := fmul (ratio d 1000000) (of_Z 1000).

(** The body of the loop: the objects, the warnings and [changed]. *)
Definition merge_state : Type := dict (datetime * ObjectState) * list string * bool.

Definition merge_object (observed : datetime) (acc : merge_state) (obj : ObjectState) : merge_state :=
  let '(objs, warnings, changed) := acc in
  let id := object_id obj in
  if tombstone obj then (dpop objs id, warnings, changed || dhas objs id)
  else
    match dget objs id with
    | Some (at_, old) =>
        if dt_lt observed at_ then (objs, warnings ++ [id], changed)
        else (dset objs id (observed, obj), warnings, changed || negb (object_eqb old obj))
    | None => (dset objs id (observed, obj), warnings, true)
    end.

Definition merge_delta (delta : SharedWorldDelta) (now : datetime) (w : WorldModel)
    : result world_exn (WorldModel * list string) :=
  let* observed := of_option (parse_default_utc (wd_observed_at delta)) BadTimestamp in
  guard! negb (fgt_Z (millis (Z.abs (us now - us observed))) (tolerance_ms w + wd_max_age_ms delta)) else ClockSkew in
  let '(objs, warnings, changed) := foldl (merge_object observed) (objects w, [], false) (wd_objects delta) in
  Ok ({| objects := objs;
         sources := dset (sources w) (wd_source_member delta) observed;
         world_revision := if changed then Z.max (world_revision w + 1) (wd_world_revision delta)
                           else world_revision w;
         tolerance_ms := tolerance_ms w |}, warnings).

Definition fresh_objects (now : datetime) (max_age_ms : Z) (w : WorldModel) : dict ObjectState :=
  omap (fun e : string * (datetime * ObjectState) =>
    if fle_Z (millis (us now - us e.2.1)) max_age_ms then Some (e.1, e.2.2) else None) (objects w).

(** [max(values)]: the first of the greatest. *)
Fixpoint latest (l : list datetime) : option datetime :=
  match l with
  | [] => None
  | d :: l' => match latest l' with
               | Some m => Some (if dt_lt d m then m else d)
               | None => Some d
               end
  end.

Definition staleness_ms (now : datetime) (w : WorldModel) : option float :=
  (fun newest => millis (us now - us newest)) <$> latest (dvals (sources w)).

(** ** Latest-valid, independent of arrival *)

Definition world_wf (w : WorldModel) : Prop := dwf (objects w).

(** One observation against what is stored. *)
Definition latest_valid (stored : option (datetime * ObjectState)) (new : datetime * ObjectState)
    : option (datetime * ObjectState) :=
  match stored with
  | Some old => if dt_lt new.1 old.1 then Some old else Some new
  | None => Some new
  end.

Definition standing (objs : list ObjectState) : Prop := Forall (fun o => tombstone o = false) objs.

(** The observations of an object in a delta. *)
Definition about (id : string) (observed : datetime) (objs : list ObjectState) : list (datetime * ObjectState) :=
  (fun o => (observed, o)) <$> filter (fun o => object_id o = id) objs.

Lemma merge_object_get observed objs ws c o id : tombstone o = false ->
  dget (merge_object observed (objs, ws, c) o).1.1 id =
  if decide (object_id o = id) then latest_valid (dget objs id) (observed, o) else dget objs id.
Proof.
  intros Ht. unfold merge_object. rewrite Ht.
  destruct (dget objs (object_id o)) as [[at_ old]|] eqn:E.
  - destruct (dt_lt observed at_) eqn:El; cbn [fst].
    + case_decide as Hd; [|done]. subst id. rewrite E. unfold latest_valid. cbn. by rewrite El.
    + rewrite dget_dset. case_decide as Hd; [|done]. subst id. rewrite E. unfold latest_valid. cbn. by rewrite El.
  - cbn [fst]. rewrite dget_dset. case_decide as Hd; [|done]. subst id. by rewrite E.
Qed.

Lemma merge_objects_get observed id objs acc : standing objs ->
  dget (foldl (merge_object observed) acc objs).1.1 id =
  foldl latest_valid (dget acc.1.1 id) (about id observed objs).
Proof.
  revert acc. induction objs as [|o objs IH]; intros [[m ws] c] Hs; [done|].
  apply Forall_cons in Hs as [Ho Hs]. cbn [foldl]. rewrite IH by done. rewrite merge_object_get by done.
  unfold about. rewrite filter_cons. by destruct (decide (object_id o = id)).
Qed.

(** Which deltas are fused: those whose timestamp is read and not too far from ours. *)
Definition accepts (tol : Z) (dn : SharedWorldDelta * datetime) : option datetime :=
  match parse_default_utc (wd_observed_at dn.1) with
  | Some o => if fgt_Z (millis (Z.abs (us dn.2 - us o))) (tol + wd_max_age_ms dn.1) then None else Some o
  | None => None
  end.

Lemma merge_delta_accepts d now w :
  match merge_delta d now w with
  | Ok (w', ws) => exists o, accepts (tolerance_ms w) (d, now) = Some o /\
      objects w' = (foldl (merge_object o) (objects w, [], false) (wd_objects d)).1.1 /\
      tolerance_ms w' = tolerance_ms w /\ world_revision w <= world_revision w' /\
      sources w' = dset (sources w) (wd_source_member d) o
  | Err _ => accepts (tolerance_ms w) (d, now) = None
  end.
Proof.
  unfold merge_delta, accepts. cbn [fst snd]. destruct (parse_default_utc _) as [o|]; cbn [of_option rbind]; [|done].
  destruct (fgt_Z _ _); cbn [negb require rbind]; [done|].
  destruct (foldl _ _ _) as [[objs ws] c] eqn:E. unfold merge_state in E. exists o. cbn [objects tolerance_ms world_revision sources fst snd].
  split_and!; try done; [exact (f_equal (fun x => x.1.1) (eq_sym E))|]. destruct c; lia.
Qed.

(** Deltas as they arrive, each with the clock at its merge; refused ones change nothing. *)
Definition merge_run (ds : list (SharedWorldDelta * datetime)) (w : WorldModel) : WorldModel :=
  foldl (fun w dn => match merge_delta dn.1 dn.2 w with Ok (w', _) => w' | Err _ => w end) w ds.

Definition seen (tol : Z) (id : string) (ds : list (SharedWorldDelta * datetime)) : list (datetime * ObjectState) :=
  dn ← ds; match accepts tol dn with Some o => about id o (wd_objects dn.1) | None => [] end.

Definition all_standing (ds : list (SharedWorldDelta * datetime)) : Prop :=
  Forall (fun dn => standing (wd_objects dn.1)) ds.

(** What is stored of an object is the fold of what the fused deltas observed. *)
Lemma merge_run_get id ds w : all_standing ds ->
  dget (objects (merge_run ds w)) id = foldl latest_valid (dget (objects w) id) (seen (tolerance_ms w) id ds).
Proof.
  revert w. induction ds as [|[d now] ds IH]; intros w Hs; [done|]. apply Forall_cons in Hs as [Hd Hs].
  change (merge_run ((d, now) :: ds) w) with
    (merge_run ds (match merge_delta d now w with Ok (w', _) => w' | Err _ => w end)).
  unfold seen. rewrite bind_cons, foldl_app. fold (seen (tolerance_ms w) id ds).
  pose proof (merge_delta_accepts d now w) as Ha. destruct (merge_delta d now w) as [[w' ws]|e].
  - destruct Ha as (o & -> & Ho & Ht & _). rewrite IH, Ht, Ho by done. by rewrite merge_objects_get.
  - rewrite Ha. by rewrite IH.
Qed.

Lemma latest_valid_comm st x y : us x.1 <> us y.1 ->
  latest_valid (latest_valid st x) y = latest_valid (latest_valid st y) x.
Proof.
  intros Hne. assert (Htot : dt_lt x.1 y.1 = negb (dt_lt y.1 x.1)).
  { unfold dt_lt. destruct (Z.ltb_spec (us x.1) (us y.1)), (Z.ltb_spec (us y.1) (us x.1)); try done; exfalso; lia. }
  destruct st as [z|]; unfold latest_valid.
  - destruct (dt_lt x.1 z.1) eqn:Ex, (dt_lt y.1 z.1) eqn:Ey; rewrite ?Ex, ?Ey, ?Htot; try done.
    + replace (dt_lt y.1 x.1) with false; [done|]. unfold dt_lt in *. breflect. symmetry. apply Z.ltb_ge. lia.
    + replace (dt_lt y.1 x.1) with true; [done|]. unfold dt_lt in *. breflect. symmetry. apply Z.ltb_lt. lia.
    + by destruct (dt_lt y.1 x.1).
  - rewrite Htot. by destruct (dt_lt y.1 x.1).
Qed.

Lemma latest_valid_perm st l l' : l ≡ₚ l' -> NoDup ((fun x => us x.1) <$> l) ->
  foldl latest_valid st l = foldl latest_valid st l'.
Proof.
  intros Hp. revert st. induction Hp as [|x l l' Hp IH|x y l|l1 l2 l3 H1 IH1 H2 IH2]; intros st Hnd; [done| | |].
  - apply NoDup_cons in Hnd as [_ Hnd]. cbn. by apply IH.
  - cbn in *. apply NoDup_cons in Hnd as [Hni _]. rewrite latest_valid_comm; [done|].
    intros E. apply Hni. rewrite E. left.
  - rewrite IH1 by done. apply IH2. by rewrite <- H1.
Qed.

(** Latest-valid converges: whatever the order in which deltas without tombstones
    arrive, the same observation of an object is stored, if no two of it are of the
    same instant. *)
Theorem merge_order_irrelevant id ds ds' w :
  ds ≡ₚ ds' -> all_standing ds -> NoDup ((fun x => us x.1) <$> seen (tolerance_ms w) id ds) ->
  dget (objects (merge_run ds w)) id = dget (objects (merge_run ds' w)) id.
Proof.
  intros Hp Hs Hnd. rewrite !merge_run_get; [|by unfold all_standing; rewrite <- Hp|done].
  apply latest_valid_perm; [|done]. unfold seen. by rewrite Hp.
Qed.

Lemma foldl_latest_ge st l at_ o : foldl latest_valid st l = Some (at_, o) ->
  (forall x, x ∈ l -> us x.1 <= us at_) /\ (forall x, st = Some x -> us x.1 <= us at_) /\
  ((at_, o) ∈ l \/ st = Some (at_, o)).
Proof.
  revert st. induction l as [|y l IH]; intros st; cbn.
  - intros ->. split; [by intros x ?%elem_of_nil|]. split; [by intros x [= <-]|by right].
  - intros H%IH. destruct H as (Hl & Hst & Hin). unfold latest_valid in Hst, Hin.
    destruct st as [z|].
    + destruct (dt_lt y.1 z.1) eqn:E; unfold dt_lt in E; breflect.
      * specialize (Hst z eq_refl). split; [intros x [->|Hx]%elem_of_cons; [lia|by apply Hl]|].
        split; [by intros x [= <-]|]. destruct Hin as [Hin|Hin]; [left; by right|by right].
      * specialize (Hst y eq_refl). split; [intros x [->|Hx]%elem_of_cons; [lia|by apply Hl]|].
        split; [intros x [= <-]; lia|]. left. destruct Hin as [Hin|[= <-]]; [by right|left].
    + specialize (Hst y eq_refl). split; [intros x [->|Hx]%elem_of_cons; [lia|by apply Hl]|].
      split; [done|]. left. destruct Hin as [Hin|[= <-]]; [by right|left].
Qed.

(** What is stored is one of the observations, and none of the fused is later. *)
Theorem merge_keeps_latest id ds tol at_ o :
  all_standing ds -> dget (objects (merge_run ds (world_new tol))) id = Some (at_, o) ->
  (at_, o) ∈ seen tol id ds /\ forall x, x ∈ seen tol id ds -> us x.1 <= us at_.
Proof.
  intros Hs. rewrite merge_run_get by done. intros H%foldl_latest_ge. cbn in H.
  destruct H as (Hl & _ & [Hin|Hin]); done.
Qed.

(** ** Tombstones carry no time *)

Definition obj_at (id : string) (x : Z) (dead : bool) : ObjectState :=
  {| object_id := id; pose := JObj [("x", JInt x)]; twist := JNull; covariance := JNull;
     confidence := JFloat (Fin 9 (-1)); evidence_class := "measurement"; evidence_ref := None; tombstone := dead |}.

Definition delta_at (at_ : datetime) (objs : list ObjectState) : SharedWorldDelta :=
  {| wd_team_id := "blue"; wd_team_epoch := 1; wd_world_revision := 1; wd_source_member := "r1";
     wd_source_sensor := None; wd_observed_at := isoformat at_; wd_published_at := isoformat at_;
     wd_max_age_ms := 1000; wd_frame_id := "world"; wd_transform_revision := 0;
     wd_merge_policy := "latest_valid"; wd_objects := objs;
     wd_qos := {| qos_reliability := "best_effort"; history_depth := 1; qos_deadline_ms := None; lifespan_ms := None |};
     wd_base_revision := 0 |}.

Definition clock (ms : Z) : datetime := DT (1785902400000000 + ms * 1000) 0.

(** A late observation brings back an object that was removed after it, and a late
    tombstone removes one observed after it. *)
Example tombstone_late :
  let d1 := (delta_at (clock 0) [obj_at "ball" 1 false], clock 100) in
  let d2 := (delta_at (clock 50) [obj_at "ball" 1 true], clock 100) in
  let d3 := (delta_at (clock 90) [obj_at "ball" 2 false], clock 100) in
  dget (objects (merge_run [d2; d1] (world_new 500))) "ball" = Some (clock 0, obj_at "ball" 1 false) /\
  dget (objects (merge_run [d3; d2] (world_new 500))) "ball" = None.
Proof. vm_compute. by split. Qed.

Example skew_refused :
  merge_delta (delta_at (clock 0) [obj_at "ball" 1 false]) (clock 1501) (world_new 500) = Err ClockSkew /\
  is_ok (merge_delta (delta_at (clock 0) [obj_at "ball" 1 false]) (clock 1500) (world_new 500)) = true.
Proof. vm_compute. by split. Qed.

Definition merge_order_witness_deltas : list (SharedWorldDelta * datetime) :=
  [(delta_at (clock 0) [obj_at "ball" 1 false], clock 100); (delta_at (clock 50) [obj_at "ball" 2 false], clock 100)].

Lemma merge_order_irrelevant_witness :
  dget (objects (merge_run merge_order_witness_deltas (world_new 500))) "ball" =
  dget (objects (merge_run (reverse merge_order_witness_deltas) (world_new 500))) "ball".
Proof.
  apply merge_order_irrelevant.
  - symmetry. apply reverse_Permutation.
  - by repeat constructor.
  - apply (bool_decide_unpack _). vm_compute. exact I.
Defined.
