(* ===== verification/Coordinator.v ===== *)
(** The team's coordinator: src/src/rosclaw/team/coordinator.py.

    Its state is the team's rows, the world model and whether it is alive. A method is a
    block; the clock and fresh identifiers are its arguments. The first theorems say
    what each method does on every branch, the others what every sequence of methods
    ([tstep]) keeps. *)

From stdpp Require Export sorting.
From S2P Require Export Roles WorldModel.

Record coordinator := {
  co_team_id : string;
  co_policy_hash : string;
  co_degraded_policy : string;
  co_world_max_age_ms : Z;
  co_db : team_db;
  co_world : WorldModel;
  co_alive : bool;
}.

Definition with_db (d : team_db) (c : coordinator) : coordinator :=
  {| co_team_id := co_team_id c; co_policy_hash := co_policy_hash c; co_degraded_policy := co_degraded_policy c;
     co_world_max_age_ms := co_world_max_age_ms c; co_db := d; co_world := co_world c; co_alive := co_alive c |}.
Definition with_world (w : WorldModel) (c : coordinator) : coordinator :=
  {| co_team_id := co_team_id c; co_policy_hash := co_policy_hash c; co_degraded_policy := co_degraded_policy c;
     co_world_max_age_ms := co_world_max_age_ms c; co_db := co_db c; co_world := w; co_alive := co_alive c |}.
Definition with_alive (b : bool) (c : coordinator) : coordinator :=
  {| co_team_id := co_team_id c; co_policy_hash := co_policy_hash c; co_degraded_policy := co_degraded_policy c;
     co_world_max_age_ms := co_world_max_age_ms c; co_db := co_db c; co_world := co_world c; co_alive := b |}.

Definition DEFAULT_DEGRADED_POLICY : string := "stop_team_actions_keep_local_safety".

Definition coordinator_new (team_id policy_hash degraded_policy : string) (world_max_age_ms : Z) (d : team_db)
    : coordinator :=
  {| co_team_id := team_id; co_policy_hash := policy_hash; co_degraded_policy := degraded_policy;
     co_world_max_age_ms := world_max_age_ms; co_db := d; co_world := world_new DEFAULT_CLOCK_TOLERANCE_MS;
     co_alive := true |}.

Abbreviation K := (st coordinator team_exn).
Implicit Types (c : coordinator) (d : team_db).

Definition on_db {A} (m : T A) : K A := fun c => let '(d, r) := m (co_db c) in (with_db d c, r).

Definition epoch c : Z := current_epoch (co_db c).

Definition join_member (card : TeamMemberCard) (now : datetime) : K unit :=
  do! c <- st_get (fun c => c);
  run! on_db (add_candidate (co_team_id c) card now);
  on_db (Membership.join (card_member_id card) (co_policy_hash c) now).

(** ** Tasks *)

Definition find_key (key : string) d : option (string * task_row) :=
  find (fun t : string * task_row => bool_decide (tr_idempotency_key t.2 = Some key)) (map_to_list (tasks d)).

(** The keys of [team_tasks]: the identifier, and the idempotency key unless NULL. *)
Definition insert_task (task_id : string) (row : task_row) : T unit :=
  do! d <- st_get (fun d => d);
  let taken := match tr_idempotency_key row with Some k => bool_decide (is_Some (find_key k d)) | None => false end in
  if bool_decide (is_Some (tasks d !! task_id)) || taken then st_raise IntegrityError
  else st_set (with_tasks (<[task_id := row]> (tasks d))).

Definition awarded_row (ann : TaskAnnouncement) (r : AllocationResult) : task_row :=
  {| tr_epoch := ta_team_epoch ann; tr_announcement := ann; tr_status := AWARDED;
     tr_awardee := Some (ar_winner r);
     tr_bids := (fun s => (bid_member_id (sb_bid s), sb_score s, sb_features s)) <$> ar_scored_bids r;
     tr_evidence := None; tr_idempotency_key := ta_idempotency_key ann;
     tr_side_effect_class := ta_side_effect_class ann |}.

Definition update_task (task_id : string) (f : task_row -> task_row) : T unit :=
  st_set (fun d => with_tasks (alter f task_id (tasks d)) d).

Section Award.
Context {FS : Interpreter}.

(** The award recorded under the key of an announcement, if it has one. *)
Definition replayed (ann : TaskAnnouncement) d : option (string * option string) :=
  k ← ta_idempotency_key ann;
  if truthy_str k then (fun t : string * task_row => (t.1, tr_awardee t.2)) <$> find_key k d else None.

Definition announced_id (ann : TaskAnnouncement) (fresh : string) : string :=
  if truthy_str (ta_task_id ann) then ta_task_id ann else fresh.

Definition announce_and_award (ann : TaskAnnouncement) (bids : list Bid) (fresh : string)
    : K (string * option string) :=
  do! c <- st_get (fun c => c);
  run! st_guard (co_alive c) TeamError;
  run! st_guard (ta_team_epoch ann =? epoch c) TeamError;
  match replayed ann (co_db c) with
  | Some award => st_ret award
  | None =>
      match allocate ann bids with
      | Err _ => st_raise Invalid
      | Ok r =>
          let task_id := announced_id ann fresh in
          run! on_db (insert_task task_id (awarded_row ann r));
          run! on_db (log_event (TaskAwarded task_id (ar_winner r) (ar_score r)) (ta_idempotency_key ann));
          st_ret (task_id, Some (ar_winner r))
      end
  end.
End Award.

Definition accept_task (task_id member_id : string) : K unit :=
  do! c <- st_get (fun c => c);
  match tasks (co_db c) !! task_id with
  | None => st_raise TeamError
  | Some r =>
      run! st_guard (bool_decide (tr_awardee r = Some member_id)) TeamError;
      run! st_guard (tr_epoch r =? epoch c) TeamError;
      run! on_db (update_task task_id (set_task_status ACCEPTED));
      on_db (log_event (TaskAccepted task_id member_id) None)
  end.

Definition completed_row (evidence : dict json) (r : task_row) : task_row :=
  {| tr_epoch := tr_epoch r; tr_announcement := tr_announcement r; tr_status := DONE;
     tr_awardee := tr_awardee r; tr_bids := tr_bids r; tr_evidence := Some evidence;
     tr_idempotency_key := tr_idempotency_key r; tr_side_effect_class := tr_side_effect_class r |}.

Definition complete_task (task_id member_id : string) (evidence : dict json) : K unit :=
  do! c <- st_get (fun c => c);
  match tasks (co_db c) !! task_id with
  | None => st_raise TeamError
  | Some r =>
      run! st_guard (bool_decide (tr_awardee r = Some member_id)) TeamError;
      run! st_guard (truthy_at "summary" (JObj evidence) || truthy_at "receipt_ref" (JObj evidence)) TeamError;
      run! on_db (update_task task_id (completed_row evidence));
      on_db (log_event (TaskCompleted task_id member_id evidence) None)
  end.

(** ** Roles and world *)

Definition award_role (id : string) (lease : RoleLease) : K RoleLease :=
  do! c <- st_get (fun c => c);
  run! st_guard (rl_team_epoch lease =? epoch c) TeamError;
  do! awarded <- on_db (award id lease);
  run! on_db (log_event (RoleAwarded (rl_conflict_key lease) (rl_holder lease)) None);
  st_ret awarded.

(** [ClockSkewError] is a [ValidationError]. *)
Definition merge_world_delta (delta : SharedWorldDelta) (now : datetime) : K (list string) :=
  do! c <- st_get (fun c => c);
  run! st_guard (wd_team_epoch delta =? epoch c) TeamError;
  match merge_delta delta now (co_world c) with
  | Ok (w, warnings) => run! st_set (with_world w); st_ret warnings
  | Err ClockSkew => st_raise Invalid
  | Err BadTimestamp => st_raise Unreadable
  end.

Definition world_fresh (now : datetime) c : bool :=
  match staleness_ms now (co_world c) with Some s => fle_Z s (co_world_max_age_ms c) | None => false end.

(** ** Failures *)

Definition requeueable (member_id : string) (r : task_row) : bool :=
  bool_decide (tr_awardee r = Some member_id) && bool_decide (tr_status r ∈ [AWARDED; ACCEPTED])
  && bool_decide (tr_side_effect_class r ∈ ["none"; "sandbox_process"]).

Definition requeued (r : task_row) : task_row :=
  {| tr_epoch := tr_epoch r; tr_announcement := tr_announcement r; tr_status := ANNOUNCED;
     tr_awardee := None; tr_bids := tr_bids r; tr_evidence := tr_evidence r;
     tr_idempotency_key := tr_idempotency_key r; tr_side_effect_class := tr_side_effect_class r |}.

Definition requeue (member_id : string) (r : task_row) : task_row :=
  if requeueable member_id r then requeued r else r.

Definition member_lost (member_id : string) (now : datetime) : K (list string) :=
  do! freed <- on_db (sweep_expired now);
  do! state <- st_get (fun c => state_of member_id (co_db c));
  if bool_decide (state = Some LOST) then
    run! on_db (st_set (fun d => with_tasks (requeue member_id <$> tasks d) d));
    run! on_db (log_event (TasksRequeued member_id) None);
    st_ret freed
  else st_ret freed.

Definition coordinator_down : K unit :=
  run! st_set (with_alive false);
  do! c <- st_get (fun c => c);
  on_db (log_event (CoordinatorLost (co_degraded_policy c)) None).

(** ** Any sequence of the methods *)

(** What [datetime.now(UTC)] returns. *)
Definition utc (now : datetime) : Prop := dt_wf now /\ off now = 0.

Section Steps.
Context {FS : Interpreter}.

Inductive tstep : coordinator -> coordinator -> Prop :=
| t_join_member card now c : utc now -> tstep c (join_member card now c).1
| t_candidate card now c : utc now -> tstep c (on_db (add_candidate (co_team_id c) card now) c).1
| t_join id now c : utc now -> tstep c (on_db (Membership.join id (co_policy_hash c) now) c).1
| t_leave id c : tstep c (on_db (leave id) c).1
| t_heartbeat id now c : utc now -> tstep c (on_db (heartbeat id now) c).1
| t_sweep_ttl now sa la c : tstep c (on_db (sweep_ttl now sa la) c).1
| t_award ann bids fresh c : tstep c (announce_and_award ann bids fresh c).1
| t_accept t id c : tstep c (accept_task t id c).1
| t_complete t id ev c : tstep c (complete_task t id ev c).1
| t_award_role i lease c : tstep c (award_role i lease c).1
| t_renew k h x c : tstep c (on_db (renew k h x) c).1
| t_revoke k c : tstep c (on_db (revoke k) c).1
| t_contest k c : tstep c (on_db (contest k) c).1
| t_sweep_expired now c : tstep c (on_db (sweep_expired now) c).1
| t_merge delta now c : tstep c (merge_world_delta delta now c).1
| t_lost id now c : tstep c (member_lost id now c).1
| t_down c : tstep c (coordinator_down c).1.
End Steps.

(** ** The methods in full *)

Lemma insert_task_run task_id row d :
  insert_task task_id row d =
  (if bool_decide (is_Some (tasks d !! task_id)) ||
      match tr_idempotency_key row with Some k => bool_decide (is_Some (find_key k d)) | None => false end
   then (d, Err IntegrityError)
   else (with_tasks (<[task_id := row]> (tasks d)) d, Ok tt)).
Proof. unfold insert_task, st_bind, st_get. by destruct (_ || _). Qed.

Lemma find_key_Some k d t : find_key k d = Some t -> tasks d !! t.1 = Some t.2 /\ tr_idempotency_key t.2 = Some k.
Proof.
  unfold find_key. intros [Hin Hk]%find_some. breflect. split; [|done].
  apply list_elem_of_In in Hin. destruct t. by apply elem_of_map_to_list in Hin.
Qed.

Lemma find_key_None k d : find_key k d = None <-> forall i r, tasks d !! i = Some r -> tr_idempotency_key r <> Some k.
Proof.
  unfold find_key. split.
  - intros Hf i r Hr Hk. apply elem_of_map_to_list, list_elem_of_In in Hr.
    pose proof (find_none _ _ Hf _ Hr) as Hn. cbn in Hn. by rewrite Hk, bool_decide_eq_true_2 in Hn.
  - intros Hn. destruct (find _ _) as [[i r]|] eqn:E; [|done]. apply find_some in E as [Hin Hk]. breflect.
    apply list_elem_of_In, elem_of_map_to_list in Hin. by destruct (Hn i r).
Qed.

Lemma with_db_id c : with_db (co_db c) c = c.
Proof. by destruct c. Qed.

Section Run.
Context {FS : Interpreter}.

(** Why an announcement is refused. *)
Definition refusal (ann : TaskAnnouncement) (bids : list Bid) (fresh : string) c : option team_exn :=
  if negb (co_alive c) then Some TeamError
  else if negb (ta_team_epoch ann =? epoch c) then Some TeamError
  else match replayed ann (co_db c), feasible_bids ann bids with
       | Some _, _ => None
       | None, [] => Some Invalid
       | None, _ =>
           if bool_decide (is_Some (tasks (co_db c) !! announced_id ann fresh))
              || match ta_idempotency_key ann with
                 | Some k => bool_decide (is_Some (find_key k (co_db c)))
                 | None => false
                 end
           then Some IntegrityError else None
       end.

(** The coordinator after an award. *)
Definition after_award (ann : TaskAnnouncement) (r : AllocationResult) (t : string) c : coordinator :=
  with_db (logged (TaskAwarded t (ar_winner r) (ar_score r)) (ta_idempotency_key ann)
             (with_tasks (<[t := awarded_row ann r]> (tasks (co_db c))) (co_db c))) c.

(** An announcement is refused for a stated reason and changes nothing; or its key has
    an award, which it repeats; or its task is new and goes to a feasible bid, the best
    one where no score is a NaN. *)
Theorem announce_run ann bids fresh c :
  match refusal ann bids fresh c with
  | Some e => announce_and_award ann bids fresh c = (c, Err e)
  | None =>
      co_alive c = true /\ ta_team_epoch ann = epoch c /\
      match replayed ann (co_db c) with
      | Some a => announce_and_award ann bids fresh c = (c, Ok a)
      | None => exists r b, allocate ann bids = Ok r /\ b ∈ feasible_bids ann bids /\
          (numbers bid_score (feasible_bids ann bids) -> best_bid ann bids = Some b) /\ ar_winner r = bid_member_id b /\ tasks (co_db c) !! announced_id ann fresh = None /\
          (forall k, ta_idempotency_key ann = Some k -> find_key k (co_db c) = None) /\
          announce_and_award ann bids fresh c =
            (after_award ann r (announced_id ann fresh) c, Ok (announced_id ann fresh, Some (ar_winner r)))
      end
  end.
Proof.
  unfold refusal, announce_and_award, st_bind, st_get, st_guard, st_ret, st_raise.
  destruct (co_alive c) eqn:Ea; [|done]. cbn [negb].
  destruct (ta_team_epoch ann =? epoch c) eqn:Ee; [|done]. breflect. cbn [negb].
  destruct (replayed ann (co_db c)) as [a|] eqn:Er; [done|].
  pose proof (allocate_run ann bids) as Hr. destruct (allocate ann bids) as [r|e] eqn:El.
  - destruct Hr as (b & Hb & Hw & _ & _ & _ & Hbest).
    assert (Hne : exists x l, feasible_bids ann bids = x :: l)
      by (destruct (feasible_bids ann bids); [by apply elem_of_nil in Hb|eauto]).
    destruct Hne as (x & l & Hne). rewrite Hne. unfold on_db. rewrite insert_task_run.
    cbn [tr_idempotency_key awarded_row].
    destruct (bool_decide (is_Some (tasks (co_db c) !! announced_id ann fresh))) eqn:Et; cbn [orb];
      [by rewrite with_db_id|].
    destruct (match ta_idempotency_key ann with Some _ => _ | None => _ end) eqn:Ek; [by rewrite with_db_id|].
    split; [done|]. split; [done|]. exists r, b. rewrite <- Hne. split_and!; try done; [intros Hn; apply (Hbest Hn)|..].
    + breflect. by apply eq_None_not_Some.
    + intros k Hk. rewrite Hk in Ek. breflect. by apply eq_None_not_Some.
  - by rewrite Hr.
Qed.
End Run.

Lemma accept_run t id c : accept_task t id c =
  match tasks (co_db c) !! t with
  | Some r =>
      if bool_decide (tr_awardee r = Some id) && (tr_epoch r =? epoch c) then
        (with_db (logged (TaskAccepted t id) None
           (with_tasks (alter (set_task_status ACCEPTED) t (tasks (co_db c))) (co_db c))) c, Ok tt)
      else (c, Err TeamError)
  | None => (c, Err TeamError)
  end.
Proof.
  unfold accept_task, st_bind, st_get. destruct (tasks (co_db c) !! t) as [r|]; [|done]. unfold st_guard.
  destruct (bool_decide _); [|done]. by destruct (tr_epoch r =? epoch c).
Qed.

Lemma complete_run t id ev c : complete_task t id ev c =
  match tasks (co_db c) !! t with
  | Some r =>
      if bool_decide (tr_awardee r = Some id) &&
         (truthy_at "summary" (JObj ev) || truthy_at "receipt_ref" (JObj ev)) then
        (with_db (logged (TaskCompleted t id ev) None
           (with_tasks (alter (completed_row ev) t (tasks (co_db c))) (co_db c))) c, Ok tt)
      else (c, Err TeamError)
  | None => (c, Err TeamError)
  end.
Proof.
  unfold complete_task, st_bind, st_get. destruct (tasks (co_db c) !! t) as [r|]; [|done]. unfold st_guard.
  destruct (bool_decide _); [|done]. by destruct (_ || _).
Qed.

(** Losing a member frees what ran out, and, if the member is LOST, announces again its
    open tasks without side effects. *)
Lemma member_lost_run id now c : NoDup (lr_id <$> leases (co_db c)) ->
  let d := with_leases (expired now (co_db c) <$> leases (co_db c)) (co_db c) in
  member_lost id now c =
  (if bool_decide (state_of id (co_db c) = Some LOST)
   then with_db (logged (TasksRequeued id) None (with_tasks (requeue id <$> tasks d) d)) c
   else with_db d c,
   Ok (lr_key <$> filter (fun r => stale (isoformat now) (current_epoch (co_db c)) r = true) (leases (co_db c)))).
Proof.
  intros Hi. cbv zeta. unfold member_lost, st_bind, st_get, on_db. rewrite sweep_expired_run by done.
  change (state_of id (co_db (with_db (with_leases ?l ?d) c))) with (state_of id d).
  by destruct (bool_decide _).
Qed.

(** ** What no method undoes *)

Definition harmless (r : task_row) : Prop := tr_side_effect_class r ∈ ["none"; "sandbox_process"].

Definition task_next (r r' : task_row) : Prop :=
  tr_epoch r' = tr_epoch r /\ tr_announcement r' = tr_announcement r /\
  tr_idempotency_key r' = tr_idempotency_key r /\ tr_side_effect_class r' = tr_side_effect_class r /\
  (tr_awardee r' = tr_awardee r \/ tr_awardee r' = None /\ harmless r).

Record db_next (d d' : team_db) : Prop := {
  dn_members : members_next d d';
  dn_epochs : epochs d `prefix_of` epochs d';
  dn_events : team_events d `prefix_of` team_events d';
  dn_tasks : forall t r, tasks d !! t = Some r -> exists r', tasks d' !! t = Some r' /\ task_next r r';
}.

#[export] Instance db_next_preorder : PreOrder db_next.
Proof.
  split.
  - intros d. split; try reflexivity. intros t r Hr. exists r. split; [done|]. unfold task_next. auto 10.
  - intros a b c [Hm1 He1 Hv1 Ht1] [Hm2 He2 Hv2 Ht2]. split; [by etrans..|].
    intros t r Hr. destruct (Ht1 t r Hr) as (r1 & H1 & N1). destruct (Ht2 t r1 H1) as (r2 & H2 & N2).
    exists r2. split; [done|]. unfold task_next, harmless in *.
    destruct N1 as (E1 & A1 & K1 & S1 & W1), N2 as (E2 & A2 & K2 & S2 & W2).
    rewrite E2, A2, K2, S2. split_and!; try done. rewrite S1 in W2.
    destruct W2 as [W2|W2]; [|by right]. rewrite W2. exact W1.
Qed.

Lemma prefix_logged e i d : team_events d `prefix_of` team_events (logged e i d).
Proof. destruct (logged_rest e i d) as (_ & _ & _ & _ & [-> | ->]); [reflexivity|by eexists]. Qed.

(** A change that leaves the tasks alone. *)
Lemma db_next_members d d' : members_next d d' -> epochs d `prefix_of` epochs d' ->
  team_events d `prefix_of` team_events d' -> tasks d' = tasks d -> db_next d d'.
Proof.
  intros Hm He Hv Ht. split; [done..|]. intros t r Hr. exists r. rewrite Ht. split; [done|].
  unfold task_next. auto 10.
Qed.

Lemma db_next_tasks d d' : members d' = members d -> epochs d' = epochs d -> team_events d' = team_events d ->
  (forall t r, tasks d !! t = Some r -> exists r', tasks d' !! t = Some r' /\ task_next r r') -> db_next d d'.
Proof. intros Hm He Hv Ht. split; [by apply same_members|by rewrite He|by rewrite Hv|done]. Qed.

Lemma db_next_leases d d' : members d' = members d -> epochs d' = epochs d -> team_events d' = team_events d ->
  tasks d' = tasks d -> db_next d d'.
Proof. intros Hm He Hv Ht. apply db_next_members; [by apply same_members|by rewrite He|by rewrite Hv|done]. Qed.

Lemma log_event_next e i : keeps db_next (log_event e i).
Proof.
  intros d. rewrite log_event_run. apply db_next_members; cbn [fst]; autorewrite with team_rw; try done.
  - by apply same_members, members_logged.
  - apply prefix_logged.
Qed.

Lemma st_set_next (f : team_db -> team_db) : (forall d, db_next d (f d)) -> keeps db_next (st_set (E := team_exn) f).
Proof. intros Hf d. apply Hf. Qed.

Lemma update_task_next t f : (forall r, task_next r (f r)) -> keeps db_next (update_task t f).
Proof.
  intros Hf d. apply db_next_tasks; try done. intros i r Hr. cbn.
  destruct (decide (t = i)) as [->|Hne].
  - exists (f r). by rewrite lookup_alter_eq, Hr.
  - exists r. rewrite lookup_alter_ne by done. split; [done|]. unfold task_next. auto 10.
Qed.

Lemma requeue_next id r : task_next r (requeue id r).
Proof.
  unfold requeue, requeueable. destruct (_ && _) eqn:E; [|unfold task_next; auto 10]. breflect.
  unfold task_next, harmless. cbn. auto 10.
Qed.

Lemma insert_task_next t row : keeps db_next (insert_task t row).
Proof.
  intros d. rewrite insert_task_run. destruct (_ || _) eqn:E; [reflexivity|]. breflect.
  apply db_next_tasks; try done. intros i r Hr. cbn. exists r.
  rewrite lookup_insert_ne; [split; [done|unfold task_next; auto 10]|]. intros ->. naive_solver.
Qed.

Lemma bump_next reason d : epochs d `prefix_of` epochs (new_epoch reason d).
Proof. by eexists. Qed.

Lemma join_db_next id ph now : keeps db_next (Membership.join id ph now).
Proof.
  intros d. pose proof (join_next id ph now d) as Hm. rewrite join_run in *.
  destruct (state_of id d) as [[]|]; cbn [fst] in *; try reflexivity;
    (apply db_next_members; [exact Hm|autorewrite with team_rw; apply bump_next|
      etrans; [|apply prefix_logged]; apply (prefix_logged _ _ (new_epoch _ d))|by autorewrite with team_rw]).
Qed.

Lemma leave_db_next id : keeps db_next (leave id).
Proof.
  intros d. pose proof (leave_next id d) as Hm. rewrite leave_run in *.
  destruct (state_of id d) as [[]|]; cbn [fst] in *; try reflexivity;
    (apply db_next_members; [exact Hm|autorewrite with team_rw; by eexists|
      etrans; [|apply prefix_logged]; apply (prefix_logged _ _ (new_epoch _ (with_members _ d)))|by autorewrite with team_rw]).
Qed.

Lemma heartbeat_db_next id now : keeps db_next (heartbeat id now).
Proof.
  intros d. pose proof (heartbeat_next id now d) as Hm. revert Hm. unfold heartbeat, st_bind, st_get.
  destruct (state_of id d) as [[]|]; intros Hm; try reflexivity; by apply db_next_members.
Qed.

Lemma add_candidate_db_next tid card now : keeps db_next (add_candidate tid card now).
Proof.
  intros d. pose proof (add_candidate_next tid card now d) as Hm. revert Hm.
  unfold add_candidate, st_bind, st_guard. destruct (String.eqb _ _); [|reflexivity]. unfold st_ret, upsert, st_set.
  intros Hm. apply db_next_members; [exact Hm|by autorewrite with team_rw| |by autorewrite with team_rw].
  apply (prefix_logged _ _ (with_members _ d)).
Qed.

Definition events_next (d d' : team_db) : Prop := team_events d `prefix_of` team_events d'.

#[export] Instance events_next_preorder : PreOrder events_next.
Proof. split; [by intros d; unfold events_next|]. intros a b c. unfold events_next. apply transitivity. Qed.

Lemma sweep_member_events now sa la m : keeps events_next (sweep_member now sa la m).
Proof.
  intros d. unfold sweep_member. destruct (parse_aware _); [|reflexivity].
  destruct (aged_state _ _ _ _) as [s|]; [|reflexivity].
  destruct (decide (s = LOST)) as [->|Hne].
  - unfold st_bind, update_member, st_set. rewrite log_event_run. apply (prefix_logged _ _ (with_members _ d)).
  - assert (Hs : events_next d (set_state m.1 s d).1).
    { rewrite set_state_run. unfold events_next. destruct (state_of m.1 d); [|reflexivity].
      by destruct (bool_decide _). }
    by destruct s.
Qed.

Lemma sweep_db_next now sa la : keeps db_next (sweep_ttl now sa la).
Proof.
  intros d. pose proof (sweep_next now sa la d) as Hm. revert Hm.
  unfold sweep_ttl, st_bind, st_get.
  pose proof (sweep_rows_next now sa la (live_rows d) d (live_rows_nodup d)) as Hs.
  pose proof (keeps_each events_next (sweep_member now sa la) (live_rows d) (sweep_member_events now sa la) d) as Hv.
  destruct (st_each _ (live_rows d) d) as [d' r]. intros Hm.
  assert (Hd : db_next d d').
  { specialize (Hs (fun m Hmm => proj1 (live_rows_ok d m) Hmm)). destruct Hs as [Hn (He & _ & Ht)].
    apply db_next_members; [exact Hn|cbn in He; by rewrite He|exact Hv|exact Ht]. }
  by destruct r as [[]|].
Qed.

Lemma sweep_expired_next now : keeps db_next (sweep_expired now).
Proof.
  unfold sweep_expired. apply keeps_bind; [apply _|apply keeps_get, _|intros d].
  apply keeps_bind; [apply _| |intros _; apply keeps_ret, _].
  apply keeps_each; [apply _|]. intros r. apply st_set_next. intros d'. by apply db_next_leases.
Qed.

Lemma award_next id lease : keeps db_next (award id lease).
Proof.
  intros d. rewrite award_run. destruct (negb _); [reflexivity|]. destruct (negb _); [reflexivity|].
  destruct (existsb _ _); [reflexivity|]. by apply db_next_leases.
Qed.

Lemma renew_next k h x : keeps db_next (renew k h x).
Proof.
  intros d. rewrite renew_run. destruct (find_active k d); [|reflexivity]. destruct (String.eqb _ _); [|reflexivity].
  by apply db_next_leases.
Qed.

Lemma end_active_next s k : keeps db_next (end_active s k).
Proof. intros d. rewrite end_active_run. destruct (find_active k d); [by apply db_next_leases|reflexivity]. Qed.

(** The same of the coordinator: what it is stays, and one that is down stays down. *)
Record team_next (c c' : coordinator) : Prop := {
  tn_db : db_next (co_db c) (co_db c');
  tn_team : co_team_id c' = co_team_id c;
  tn_policy : co_policy_hash c' = co_policy_hash c;
  tn_down : co_alive c = false -> co_alive c' = false;
}.

#[export] Instance team_next_preorder : PreOrder team_next.
Proof.
  split; [by intros c; split|]. intros a b c [D1 T1 P1 W1] [D2 T2 P2 W2].
  split; [by etrans|congruence|congruence|auto].
Qed.

Lemma on_db_next {A} (m : T A) : keeps db_next m -> keeps team_next (on_db m).
Proof. intros Hm c. specialize (Hm (co_db c)). unfold on_db. destruct (m (co_db c)). by split. Qed.

#[export] Hint Resolve log_event_next join_db_next leave_db_next heartbeat_db_next add_candidate_db_next
  sweep_db_next sweep_expired_next award_next renew_next end_active_next insert_task_next : rosclaw.

(** Walk a method: every write on the way moves on. *)
Ltac moving :=
  repeat first
    [ progress intros | apply keeps_ret, _ | apply keeps_raise, _ | apply keeps_get, _ | apply keeps_guard, _
    | apply on_db_next; solve [eauto with rosclaw]
    | apply keeps_bind; [apply _| |]
    | match goal with |- keeps _ (match ?x with _ => _ end) => destruct x end ].

Section Moves.
Context {FS : Interpreter}.

Lemma tstep_next c c' : tstep c c' -> team_next c c'.
Proof.
  intros Hs. destruct Hs; try (apply on_db_next; solve [eauto with rosclaw | apply end_active_next]).
  - assert (Hk : keeps team_next (join_member card now)) by (unfold join_member; moving). apply Hk.
  - assert (Hk : keeps team_next (announce_and_award ann bids fresh)) by (unfold announce_and_award; moving). apply Hk.
  - assert (Hk : keeps team_next (accept_task t id)); [|apply Hk]. unfold accept_task. moving.
    apply on_db_next, update_task_next. intros r. unfold task_next. cbn. auto 10.
  - assert (Hk : keeps team_next (complete_task t id ev)); [|apply Hk]. unfold complete_task. moving.
    apply on_db_next, update_task_next. intros r. unfold task_next. cbn. auto 10.
  - assert (Hk : keeps team_next (award_role i lease)) by (unfold award_role; moving). apply Hk.
  - assert (Hk : keeps team_next (merge_world_delta delta now)); [|apply Hk]. unfold merge_world_delta.
    moving. apply keeps_set. intros x. by split.
  - assert (Hk : keeps team_next (member_lost id now)); [|apply Hk]. unfold member_lost. moving.
    apply on_db_next, st_set_next. intros d. apply db_next_tasks; try done.
    intros t r Hr. exists (requeue id r). cbn. rewrite lookup_fmap, Hr. split; [done|]. apply requeue_next.
  - assert (Hk : keeps team_next coordinator_down); [|apply Hk]. unfold coordinator_down. moving.
    apply keeps_set. intros x. by split.
Qed.

Lemma tsteps_next c c' : rtc tstep c c' -> team_next c c'.
Proof. induction 1 as [|c1 c2 c3 H _ IH]; [reflexivity|]. etrans; [by apply tstep_next|done]. Qed.
End Moves.

(** ** The invariant of the team *)

Definition member_ok (tid : string) (current : Z) (id : string) (r : member_row) : Prop :=
  card_member_id (mr_card r) = id /\ card_team_id (mr_card r) = tid /\
  (exists t, utc t /\ mr_last_seen r = isoformat t) /\ mr_state r <> JOINING /\
  (live (mr_state r) = true \/ mr_state r = LOST -> 1 <= mr_epoch r <= current).

Definition task_ok (current : Z) (r : task_row) : Prop :=
  tr_epoch r <= current /\ tr_epoch r = ta_team_epoch (tr_announcement r) /\
  tr_idempotency_key r = ta_idempotency_key (tr_announcement r) /\
  (tr_status r = ANNOUNCED <-> tr_awardee r = None) /\ (tr_awardee r = None -> harmless r).

(** Members are registered under their own name with a timestamp that can be read, and
    none rests in JOINING; epochs grow; leases and keys are exclusive; a task has an
    awardee unless it is announced again, which only harmless ones are; nothing bears an
    epoch of the future. *)
Record db_ok (tid : string) (d : team_db) : Prop := {
  ok_members : forall id r, members d !! id = Some r -> member_ok tid (current_epoch d) id r;
  ok_epochs : StronglySorted Z.lt (epochs d).*1 /\ Forall (fun e => 0 < e) (epochs d).*1;
  ok_leases : leases_ok d;
  ok_tasks : forall t r, tasks d !! t = Some r -> task_ok (current_epoch d) r;
  ok_keys : forall t t' r r' k, tasks d !! t = Some r -> tasks d !! t' = Some r' ->
    tr_idempotency_key r = Some k -> tr_idempotency_key r' = Some k -> t = t';
  ok_events : Forall (fun v => er_epoch v <= current_epoch d) (team_events d);
}.

Definition ok_next (tid : string) (d d' : team_db) : Prop := db_ok tid d -> db_ok tid d'.

#[export] Instance ok_next_preorder tid : PreOrder (ok_next tid).
Proof. unfold ok_next. split; [by intros d H|]. intros a b c. auto. Qed.

Lemma current_nonneg tid d : db_ok tid d -> 0 <= current_epoch d.
Proof.
  intros Hok. destruct (ok_epochs tid d Hok) as [_ Hp]. unfold current_epoch.
  destruct (epochs d) as [|[e r] es]; cbn; [lia|]. apply Forall_cons in Hp as [He _]. cbn in He.
  destruct (max_epoch es); unfold id; lia.
Qed.

Lemma ok_with_members tid ms d : (forall id r, ms !! id = Some r -> member_ok tid (current_epoch d) id r) ->
  db_ok tid d -> db_ok tid (with_members ms d).
Proof. intros Hm [? ? [? ? ?] ? ? ?]. by split; [| |split| | |]. Qed.

Lemma ok_with_leases tid ls d : leases_ok (with_leases ls d) -> db_ok tid d -> db_ok tid (with_leases ls d).
Proof. intros Hl [? ? ? ? ? ?]. by split. Qed.

Lemma ok_with_tasks tid ts d :
  (forall t r, ts !! t = Some r -> task_ok (current_epoch d) r) ->
  (forall t t' r r' k, ts !! t = Some r -> ts !! t' = Some r' ->
    tr_idempotency_key r = Some k -> tr_idempotency_key r' = Some k -> t = t') ->
  db_ok tid d -> db_ok tid (with_tasks ts d).
Proof. intros Ht Hk [? ? [? ? ?] ? ? ?]. by split; [| |split| | |]. Qed.

Lemma ok_logged tid e i d : db_ok tid d -> db_ok tid (logged e i d).
Proof.
  intros Hok. destruct Hok as [Hm He Hl Ht Hk Hv]. split; autorewrite with team_rw; try done.
  - apply (leases_ok_ext d); autorewrite with team_rw; done.
  - destruct (logged_rest e i d) as (_ & _ & _ & _ & [-> | ->]); [done|]. apply Forall_app. split; [done|].
    by repeat constructor.
Qed.

Lemma log_event_ok tid e i : keeps (ok_next tid) (log_event e i).
Proof. intros d Hok. by apply ok_logged. Qed.

Lemma ok_new_epoch tid reason d : db_ok tid d -> db_ok tid (new_epoch reason d).
Proof.
  intros Hok. pose proof (current_nonneg tid d Hok) as H0. pose proof (current_new_epoch reason d) as Hc.
  destruct Hok as [Hm [Hs Hp] Hl Ht Hk Hv]. split; rewrite ?Hc.
  - intros id r Hr. destruct (Hm id r Hr) as (? & ? & ? & ? & Hj). split_and!; try done. intros Hx.
    specialize (Hj Hx). lia.
  - cbn [epochs new_epoch with_epochs]. rewrite fmap_app. split; [|apply Forall_app; split; [done|repeat constructor; cbn; lia]].
    apply StronglySorted_app_2; [|done|repeat constructor]. intros x y (e & -> & Hin)%list_elem_of_fmap ->%list_elem_of_singleton.
    cbn. destruct e as [e r]. apply max_epoch_bound in Hin as (m & Hmx & Hle). cbn. unfold current_epoch.
    rewrite Hmx. cbn. unfold id. lia.
  - apply (leases_ok_ext d); [done|rewrite Hc; lia|done].
  - intros t r Hr. destruct (Ht t r Hr) as [He Hr']. split; [lia|done].
  - done.
  - eapply Forall_impl; [exact Hv|]. cbn. lia.
Qed.

Lemma ok_alter tid f id d :
  (forall r, members d !! id = Some r -> member_ok tid (current_epoch d) id r -> member_ok tid (current_epoch d) id (f r)) ->
  db_ok tid d -> db_ok tid (with_members (alter f id (members d)) d).
Proof.
  intros Hf Hok. apply ok_with_members; [|done]. intros i r. destruct (decide (id = i)) as [->|Hne].
  - rewrite lookup_alter_eq. intros (r0 & Hr & ->)%fmap_Some. apply Hf; [done|]. by apply (ok_members tid d Hok).
  - rewrite lookup_alter_ne by done. apply (ok_members tid d Hok).
Qed.

Lemma join_ok tid id ph now : utc now -> keeps (ok_next tid) (Membership.join id ph now).
Proof.
  intros Hn d Hok. rewrite join_run. pose proof (current_nonneg tid d Hok) as H0.
  assert (Hgo : db_ok tid (logged (MemberJoined id (current_epoch d + 1) ph) None
         (with_members (alter (joined_row (current_epoch d + 1) now) id (members d))
           (logged (EpochCommitted (current_epoch d + 1) ("member_join:" +:+ id)) None
              (new_epoch ("member_join:" +:+ id) d))))).
  { apply ok_logged. set (d1 := logged _ None (new_epoch _ d)).
    assert (Hd1 : members d1 = members d) by (unfold d1; by autorewrite with team_rw).
    rewrite <- Hd1. apply ok_alter; [|by apply ok_logged, ok_new_epoch].
    intros r _ (? & ? & _ & _ & _). split_and!; try done; [by exists now|]. intros _. cbn [mr_epoch joined_row].
    unfold d1. rewrite current_logged, current_new_epoch. lia. }
  by destruct (state_of id d) as [[]|].
Qed.

Lemma leave_ok tid id : keeps (ok_next tid) (leave id).
Proof.
  intros d Hok. rewrite leave_run.
  assert (Hgo : db_ok tid (logged (MemberLeft id) None
         (logged (EpochCommitted (current_epoch d + 1) ("member_leave:" +:+ id)) None
            (new_epoch ("member_leave:" +:+ id)
               (with_members (alter (set_member_state LEFT) id (members d)) d))))).
  { change (current_epoch d) with (current_epoch (with_members (alter (set_member_state LEFT) id (members d)) d)) at 1.
    apply ok_logged, ok_logged, ok_new_epoch, ok_alter; [|done].
    intros r _ (? & ? & ? & _ & _). split_and!; try done. cbn. intros [?|?]; done. }
  by destruct (state_of id d) as [[]|].
Qed.

Lemma heartbeat_ok tid id now : utc now -> keeps (ok_next tid) (heartbeat id now).
Proof.
  intros Hn d Hok. unfold heartbeat, st_bind, st_get.
  assert (Hgo : forall s, state_of id d = Some s -> live s = true -> db_ok tid (update_member id (beat now) d).1).
  { intros s Hs Hl. apply ok_alter; [|done]. intros r Hr (? & ? & _ & _ & He). unfold state_of in Hs.
    rewrite Hr in Hs. injection Hs as Hs. split_and!; try done; [by exists now|]. intros _. cbn [mr_epoch beat].
    apply He. left. congruence. }
  destruct (state_of id d) as [[]|]; try exact Hok; by eapply Hgo.
Qed.

Lemma add_candidate_ok tid card now : utc now -> keeps (ok_next tid) (add_candidate tid card now).
Proof.
  intros Hn d Hok. unfold add_candidate, st_bind, st_guard. destruct (String.eqb _ _) eqn:E; [|done].
  apply String.eqb_eq in E. unfold st_ret, upsert, st_set. rewrite log_event_run. apply ok_logged, ok_with_members; [|done].
  intros id r. destruct (decide (card_member_id card = id)) as [<-|Hne].
  - rewrite lookup_insert_eq. intros [= <-]. destruct (members d !! card_member_id card) as [r|] eqn:Er.
    + destruct (ok_members tid d Hok _ _ Er) as (_ & _ & Hx). split; [done|]. split; [done|]. exact Hx.
    + split_and!; try done; [by exists now|]. cbn. intros [?|?]; done.
  - rewrite lookup_insert_ne by done. apply (ok_members tid d Hok).
Qed.

Lemma ok_readable tid d : db_ok tid d -> readable d.
Proof.
  intros Hok id r Hr _. destruct (ok_members tid d Hok id r Hr) as (_ & _ & (t & [Hw Ho] & ->) & _).
  by rewrite parse_aware_isoformat.
Qed.

Lemma aged_state_cases age sa la s s' : live s = true -> aged_state age sa la s = Some s' ->
  s' = LOST \/ s' = SUSPECT /\ s = READY.
Proof.
  unfold aged_state. destruct (fgt_Z _ la).
  - case_bool_decide; [done|]. intros _ [= <-]. by left.
  - destruct (bool_decide (s = READY) && _) eqn:E; [|done]. breflect. intros _ [= <-]. by right.
Qed.

Definition ev_next (d d' : team_db) : Prop := epochs d' = epochs d /\
  (Forall (fun v => er_epoch v <= current_epoch d) (team_events d) ->
   Forall (fun v => er_epoch v <= current_epoch d) (team_events d')).

#[export] Instance ev_next_preorder : PreOrder ev_next.
Proof.
  split; [by intros d; split|]. intros a b c [E1 V1] [E2 V2]. split; [congruence|].
  assert (E : current_epoch b = current_epoch a) by (unfold current_epoch; by rewrite E1). rewrite E in V2. auto.
Qed.

Lemma ev_next_logged e i d : ev_next d (logged e i d).
Proof.
  split; [by autorewrite with team_rw|]. intros Hv.
  destruct (logged_rest e i d) as (_ & _ & _ & _ & [-> | ->]); [done|]. apply Forall_app. split; [done|].
  by repeat constructor.
Qed.

Lemma sweep_member_ev now sa la m : keeps ev_next (sweep_member now sa la m).
Proof.
  intros d. unfold sweep_member. destruct (parse_aware _); [|reflexivity].
  destruct (aged_state _ _ _ _) as [s|]; [|reflexivity].
  assert (Hs : ev_next d (set_state m.1 s d).1).
  { rewrite set_state_run. destruct (state_of m.1 d); [|reflexivity]. by destruct (bool_decide _). }
  destruct s; try exact Hs. apply (ev_next_logged _ _ (with_members _ d)).
Qed.

Lemma sweep_ok tid now sa la : keeps (ok_next tid) (sweep_ttl now sa la).
Proof.
  intros d Hok.
  assert (Hev : forall d' r, sweep_ttl now sa la d = (d', r) -> ev_next d d').
  { intros d' r. unfold sweep_ttl, st_bind, st_get.
    pose proof (keeps_each ev_next (sweep_member now sa la) (live_rows d) (sweep_member_ev now sa la) d) as Hv.
    destruct (st_each _ _ d) as [d1 [[]|e]]; intros [= <- _]; exact Hv. }
  destruct (sweep_ttl_run now sa la d (ok_readable tid d Hok)) as (d' & ch & E & (He & Hl & Ht) & Hm).
  destruct (Hev _ _ E) as [_ Hv]. specialize (Hv (ok_events tid d Hok)). rewrite E. cbn [fst].
  assert (Hc : current_epoch d' = current_epoch d) by (unfold current_epoch; by rewrite He).
  split; rewrite ?Hc, ?He, ?Ht; try apply Hok; [| |done].
  - intros id r. rewrite Hm. intros (r0 & Hr & ->)%fmap_Some.
    pose proof (ok_members tid d Hok id r0 Hr) as Ho. unfold swept.
    destruct (live (mr_state r0)) eqn:El; [|exact Ho]. destruct (parse_aware _) as [last|]; [|exact Ho].
    destruct (aged_state _ _ _ _) as [s'|] eqn:Ea; [|exact Ho].
    apply aged_state_cases in Ea; [|done]. destruct Ho as (? & ? & ? & Hj & Hep).
    split_and!; try done; cbn; [naive_solver|]. intros _. auto.
  - apply (leases_ok_ext d); [done|lia|apply Hok].
Qed.

Lemma with_leases_id d : d = with_leases (leases d) d.
Proof. by destruct d. Qed.

Lemma lease_method_ok {A} tid (m : T A) :
  (forall d, exists ls, (m d).1 = with_leases ls d) -> (forall d, leases_ok d -> leases_ok (m d).1) ->
  keeps (ok_next tid) m.
Proof.
  intros Hw Hl d Hok. destruct (Hw d) as [ls E]. rewrite E. apply ok_with_leases; [|done].
  rewrite <- E. apply Hl, Hok.
Qed.

Lemma award_db_ok tid id lease : keeps (ok_next tid) (award id lease).
Proof.
  apply lease_method_ok; [|apply award_ok]. intros d. rewrite award_run.
  destruct (negb _); [by exists (leases d); apply with_leases_id|].
  destruct (negb _); [by exists (leases d); apply with_leases_id|].
  destruct (existsb _ _); [by exists (leases d); apply with_leases_id|by eexists].
Qed.

Lemma renew_db_ok tid k h x : keeps (ok_next tid) (renew k h x).
Proof.
  apply lease_method_ok; [|intros d; apply renew_ok]. intros d. rewrite renew_run.
  destruct (find_active k d); [|by exists (leases d); apply with_leases_id].
  destruct (String.eqb _ _); [by eexists|by exists (leases d); apply with_leases_id].
Qed.

Lemma end_active_db_ok tid s k : s <> L_ACTIVE -> keeps (ok_next tid) (end_active s k).
Proof.
  intros Hs. apply lease_method_ok; [|intros d; by apply end_active_ok]. intros d. rewrite end_active_run.
  destruct (find_active k d); [by eexists|by exists (leases d); apply with_leases_id].
Qed.

Lemma sweep_expired_db_ok tid now : keeps (ok_next tid) (sweep_expired now).
Proof.
  intros d Hok. rewrite sweep_expired_run by apply (lo_ids d), (ok_leases tid d Hok). cbn [fst].
  apply ok_with_leases; [|done]. pose proof (sweep_expired_ok now d (ok_leases tid d Hok)) as Hl.
  by rewrite sweep_expired_run in Hl by apply (lo_ids d), (ok_leases tid d Hok).
Qed.

(** Rewriting the tasks in place, keys and epochs kept. *)
Lemma ok_map_tasks tid (f : string -> task_row -> task_row) d ts :
  (forall t, ts !! t = f t <$> tasks d !! t) ->
  (forall t r, tasks d !! t = Some r -> task_ok (current_epoch d) r -> task_ok (current_epoch d) (f t r)) ->
  (forall t r, tr_idempotency_key (f t r) = tr_idempotency_key r) ->
  db_ok tid d -> db_ok tid (with_tasks ts d).
Proof.
  intros Hts Hf Hk Hok. apply ok_with_tasks; [| |done].
  - intros t r. rewrite Hts. intros (r0 & Hr & ->)%fmap_Some. apply Hf; [done|]. by apply (ok_tasks tid d Hok t).
  - intros t t' r r' k. rewrite !Hts. intros (r0 & Hr & ->)%fmap_Some (r1 & Hr' & ->)%fmap_Some.
    rewrite !Hk. by apply (ok_keys tid d Hok).
Qed.

Lemma lookup_alter_case (f : task_row -> task_row) (t i : string) (m : gmap string task_row) :
  alter f t m !! i = (fun r => if decide (t = i) then f r else r) <$> m !! i.
Proof.
  destruct (decide (t = i)) as [->|Hne]; [by rewrite lookup_alter_eq|].
  rewrite lookup_alter_ne by done. by destruct (m !! i).
Qed.

Definition team_ok (c : coordinator) : Prop := db_ok (co_team_id c) (co_db c).

Definition team_ok_next (c c' : coordinator) : Prop :=
  co_team_id c' = co_team_id c /\ (team_ok c -> team_ok c').

#[export] Instance team_ok_next_preorder : PreOrder team_ok_next.
Proof. split; [by intros c; split|]. intros a b c [E1 H1] [E2 H2]. split; [congruence|auto]. Qed.

Lemma on_db_ok {A} (m : T A) : (forall tid, keeps (ok_next tid) m) -> keeps team_ok_next (on_db m).
Proof.
  intros Hm c. specialize (Hm (co_team_id c) (co_db c)). unfold on_db. destruct (m (co_db c)). by split.
Qed.

Lemma on_db_ok_at {A} (m : T A) c : keeps (ok_next (co_team_id c)) m -> team_ok_next c (on_db m c).1.
Proof. intros Hm. specialize (Hm (co_db c)). unfold on_db. destruct (m (co_db c)). by split. Qed.

Lemma on_db_team_ok {A} (m : T A) c : (forall tid, keeps (ok_next tid) m) -> team_ok c -> team_ok (on_db m c).1.
Proof. intros Hm. by apply on_db_ok. Qed.

Lemma join_member_ok card now : utc now -> keeps team_ok_next (join_member card now).
Proof.
  intros Hn c. unfold join_member, st_bind at 1, st_get.
  pose proof (on_db_ok_at _ c (add_candidate_ok _ card now Hn)) as Ha. unfold st_bind.
  destruct (on_db (add_candidate (co_team_id c) card now) c) as [c1 [a|e]]; [|exact Ha].
  etrans; [exact Ha|]. apply on_db_ok. intros tid. by apply join_ok.
Qed.

Lemma award_task_ok tid ann r t d : ta_team_epoch ann = current_epoch d -> tasks d !! t = None ->
  (forall k, ta_idempotency_key ann = Some k -> find_key k d = None) ->
  db_ok tid d -> db_ok tid (with_tasks (<[t := awarded_row ann r]> (tasks d)) d).
Proof.
  intros He Hn Hk Hok. apply ok_with_tasks; [| |done].
  - intros i x. destruct (decide (t = i)) as [->|Hne].
    + rewrite lookup_insert_eq. intros [= <-]. repeat split; try done. cbn. lia.
    + rewrite lookup_insert_ne by done. apply (ok_tasks tid d Hok).
  - assert (Hfree : forall i x k, tasks d !! i = Some x -> tr_idempotency_key x = Some k ->
        ta_idempotency_key ann = Some k -> False).
    { intros i x k Hi Hx Ha. by apply (proj1 (find_key_None k d) (Hk k Ha) i x). }
    intros i i' x x' k. destruct (decide (t = i)) as [<-|Hne], (decide (t = i')) as [<-|Hne']; [done|..].
    + rewrite lookup_insert_eq, lookup_insert_ne by done. intros [= <-] Hx' Hkx Hkx'. by destruct (Hfree i' x' k).
    + rewrite lookup_insert_eq, lookup_insert_ne by done. intros Hx [= <-] Hkx Hkx'. by destruct (Hfree i x k).
    + rewrite !lookup_insert_ne by done. by apply (ok_keys tid d Hok).
Qed.

Lemma finish_task_ok tid t id f d :
  (forall r, tr_epoch (f r) = tr_epoch r /\ tr_announcement (f r) = tr_announcement r /\
     tr_idempotency_key (f r) = tr_idempotency_key r /\ tr_awardee (f r) = tr_awardee r /\ tr_status (f r) <> ANNOUNCED) ->
  (forall r, tasks d !! t = Some r -> tr_awardee r = Some id) ->
  db_ok tid d -> db_ok tid (with_tasks (alter f t (tasks d)) d).
Proof.
  intros Hf Ha Hok. eapply (ok_map_tasks tid (fun i r => if decide (t = i) then f r else r)); [|..|exact Hok].
  - intros i. apply lookup_alter_case.
  - intros i r Hr Ht. destruct (decide (t = i)) as [<-|]; [|exact Ht]. destruct Ht as (H1 & H2 & H3 & H4 & H5).
    destruct (Hf r) as (E1 & E2 & E3 & E4 & E5). unfold task_ok. rewrite E1, E2, E3, E4, (Ha r Hr). by repeat split.
  - intros i r. destruct (decide (t = i)); [apply Hf|done].
Qed.

Lemma requeue_ok tid id d : db_ok tid d -> db_ok tid (with_tasks (requeue id <$> tasks d) d).
Proof.
  apply (ok_map_tasks tid (fun _ => requeue id)).
  - intros t. apply lookup_fmap.
  - intros t r Hr Ht. unfold requeue. destruct (requeueable id r) eqn:E; [|exact Ht].
    destruct Ht as (H1 & H2 & H3 & H4 & H5). unfold requeueable in E. breflect. by repeat split.
  - intros t r. unfold requeue. by destruct (requeueable id r).
Qed.

#[export] Hint Resolve log_event_ok join_ok leave_ok heartbeat_ok add_candidate_ok sweep_ok award_db_ok renew_db_ok
  sweep_expired_db_ok : rosclaw.

Section Kept.
Context {FS : Interpreter}.

(** Every method keeps the team's rows consistent, whatever it returns. *)
Theorem team_ok_kept c c' : rtc tstep c c' -> team_ok c -> team_ok c'.
Proof.
  induction 1 as [|c1 c2 c3 Hs _ IH]; [done|]. intros Hok. apply IH. clear IH c3.
  destruct Hs; try (apply on_db_team_ok; [intros tid; solve [eauto with rosclaw]|exact Hok]).
  - by apply join_member_ok.
  - by apply (on_db_ok_at _ c (add_candidate_ok _ card now ltac:(done))).
  - pose proof (announce_run ann bids fresh c) as Hr. destruct (refusal ann bids fresh c); [by rewrite Hr|].
    destruct Hr as (_ & He & Hr). destruct (replayed ann (co_db c)); [by rewrite Hr|].
    destruct Hr as (r & b & _ & _ & _ & _ & Hn & Hk & ->). by apply ok_logged, award_task_ok.
  - rewrite accept_run. destruct (tasks (co_db c) !! t) as [r|] eqn:Er; [|done].
    destruct (_ && _) eqn:E; [|done]. breflect. apply ok_logged, (finish_task_ok _ t id); [|intros x; congruence|done].
    intros x. by split_and!.
  - rewrite complete_run. destruct (tasks (co_db c) !! t) as [r|] eqn:Er; [|done].
    destruct (_ && _) eqn:E; [|done]. breflect. apply ok_logged, (finish_task_ok _ t id); [|intros x; congruence|done].
    intros x. by split_and!.
  - assert (Hk : keeps team_ok_next (award_role i lease)); [|by apply Hk]. unfold award_role.
    apply keeps_bind; [apply _|apply keeps_get, _|intros a]. apply keeps_bind; [apply _|apply keeps_guard, _|intros _].
    apply keeps_bind; [apply _|apply on_db_ok; intros tid; eauto with rosclaw|intros l].
    apply keeps_bind; [apply _|apply on_db_ok; intros tid; eauto with rosclaw|intros _]. apply keeps_ret, _.
  - apply on_db_team_ok; [intros tid; by apply end_active_db_ok|exact Hok].
  - apply on_db_team_ok; [intros tid; by apply end_active_db_ok|exact Hok].
  - unfold merge_world_delta, st_bind, st_get, st_guard. destruct (_ =? _); [|done].
    unfold st_ret, st_raise, st_set. by destruct (merge_delta _ _ _) as [[w ws]|[]].
  - rewrite member_lost_run by apply (lo_ids (co_db c)), (ok_leases _ _ Hok). cbn [fst].
    assert (Hd : db_ok (co_team_id c) (with_leases (expired now (co_db c) <$> leases (co_db c)) (co_db c))).
    { pose proof (sweep_expired_db_ok (co_team_id c) now (co_db c) Hok) as Hd.
      by rewrite sweep_expired_run in Hd by apply (lo_ids (co_db c)), (ok_leases _ _ Hok). }
    destruct (bool_decide _); [by apply ok_logged, requeue_ok|exact Hd].
Qed.

Lemma db_empty_ok tid : db_ok tid db_empty.
Proof.
  split; try done.
  - split; constructor.
  - split; [constructor|by intros r r' ?%elem_of_nil|by intros r ?%elem_of_nil].
Qed.
End Kept.
