(* ===== verification/Team.v ===== *)
(** What the team's coordinator guarantees, and where it stops: the theorems about every
    sequence of its methods, and runs that show where the rows say less than the
    comments of src/src/rosclaw/team promise. *)

From S2P Require Export Coordinator.

Section Team.
Context {FS : Interpreter}.

Lemma prefix_current d d' : epochs d `prefix_of` epochs d' -> 0 <= current_epoch d -> 0 <= current_epoch d' ->
  current_epoch d <= current_epoch d'.
Proof.
  intros [es E] H0 H1. unfold current_epoch in *. rewrite E in *. rewrite max_epoch_app in *.
  destruct (max_epoch (epochs d)) as [m|]; cbn in *; [|exact H1].
  destruct (max_epoch es); cbn; unfold id in *; lia.
Qed.

(** C11: the rows of a team stay consistent under every sequence of methods: members
    are registered under their own name with a timestamp that can be read, epochs only
    grow, an epoch has at most one ACTIVE lease for a key and a task at most one award
    under an idempotency key, only tasks without side effects are announced again, and
    no row bears an epoch of the future; so a sweep always returns. *)
Theorem team_consistent c c' : rtc tstep c c' -> team_ok c ->
  team_ok c' /\ epoch c <= epoch c' /\
  (forall now sa la, exists changed, (sweep_ttl now sa la (co_db c')).2 = Ok changed).
Proof.
  intros Hs Hok. assert (Hok' : team_ok c') by (by apply (team_ok_kept c)). split; [done|]. split.
  - apply prefix_current; [apply dn_epochs, tn_db; by apply tsteps_next|..]; by eapply current_nonneg.
  - intros now sa la. destruct (sweep_ttl_run now sa la _ (ok_readable _ _ Hok')) as (d' & ch & E & _).
    exists ch. by rewrite E.
Qed.

(** C12: an award of a task with side effects is final: whatever happens to its holder,
    to other members, to the epoch or to the coordinator, the task is never given to
    anyone else and never announced again. *)
Theorem side_effects_not_repeated c c' t r :
  rtc tstep c c' -> tasks (co_db c) !! t = Some r -> ~ harmless r ->
  (exists r', tasks (co_db c') !! t = Some r' /\ tr_awardee r' = tr_awardee r /\ tr_epoch r' = tr_epoch r) /\
  (forall ann bids fresh w, (announce_and_award ann bids fresh c').2 = Ok (t, w) -> w = tr_awardee r).
Proof.
  intros Hs Hr Hh. destruct (dn_tasks _ _ (tn_db _ _ (tsteps_next _ _ Hs)) t r Hr) as (r' & Hr' & He & _ & _ & _ & Ha).
  assert (Haw : tr_awardee r' = tr_awardee r) by (destruct Ha as [Ha|[_ Ha]]; done).
  split; [by exists r'|]. intros ann bids fresh w Hw. pose proof (announce_run ann bids fresh c') as Hrun.
  destruct (refusal ann bids fresh c'); [by rewrite Hrun in Hw|]. destruct Hrun as (_ & _ & Hrun).
  destruct (replayed ann (co_db c')) as [a|] eqn:Erep.
  - rewrite Hrun in Hw. injection Hw as ->. unfold replayed in Erep.
    apply bind_Some in Erep as (k & _ & Erep). destruct (truthy_str k); [|done].
    apply fmap_Some in Erep as ([i x] & Hf & [= -> ->]). apply find_key_Some in Hf as [Hx _]. cbn in *. congruence.
  - destruct Hrun as (al & b & _ & _ & _ & _ & Hn & _ & Hrun). rewrite Hrun in Hw. cbn in Hw. injection Hw as <- _. congruence.
Qed.

Lemma tasks_after_award ann r t c :
  tasks (co_db (after_award ann r t c)) = <[t := awarded_row ann r]> (tasks (co_db c)).
Proof. unfold after_award. cbn [co_db with_db]. by rewrite tasks_logged. Qed.

(** C13: what an award rests on. A successful announcement repeats the award recorded
    under its key and changes nothing; or the coordinator is up, the epoch is the
    current one, the task is new, and it goes to a feasible bid, the first best one where
    no score is a NaN. *)
Theorem award_sound ann bids fresh c c' t w :
  announce_and_award ann bids fresh c = (c', Ok (t, w)) ->
  co_alive c = true /\ ta_team_epoch ann = epoch c /\
  ((replayed ann (co_db c) = Some (t, w) /\ c' = c) \/
   exists r b, b ∈ bids /\ feasible ann b = true /\ w = Some (bid_member_id b) /\
     (numbers bid_score (feasible_bids ann bids) -> best_bid ann bids = Some b) /\
     allocate ann bids = Ok r /\ tasks (co_db c) !! t = None /\
     tasks (co_db c') = <[t := awarded_row ann r]> (tasks (co_db c)) /\
     (forall k, ta_idempotency_key ann = Some k -> truthy_str k = true ->
        (announce_and_award ann bids fresh c').2 = Ok (t, w))).
Proof.
  intros E. pose proof (announce_run ann bids fresh c) as Hrun.
  destruct (refusal ann bids fresh c); [congruence|]. destruct Hrun as (Ha & He & Hrun). split; [done|]. split; [done|].
  destruct (replayed ann (co_db c)) as [a|] eqn:Erep.
  - left. rewrite E in Hrun. injection Hrun as -> <-. done.
  - right. destruct Hrun as (r & b & Hal & Hb & Hbest & Hw & Hn & Hk & Hrun). rewrite E in Hrun. injection Hrun as -> -> ->.
    exists r, b. apply list_elem_of_filter in Hb as [Hf Hin].
    rewrite Hw. split_and!; try done; [apply tasks_after_award|].
    intros k Hak Htk. pose proof (announce_run ann bids fresh (after_award ann r (announced_id ann fresh) c)) as Hrun.
    assert (Hrep : replayed ann (co_db (after_award ann r (announced_id ann fresh) c)) =
      Some (announced_id ann fresh, Some (bid_member_id b))).
    { unfold replayed. rewrite Hak. cbn [mbind option_bind]. rewrite Htk.
      destruct (find_key k _) as [[i x]|] eqn:Ef.
      - apply find_key_Some in Ef as [Hx Hkx]. cbn [fst snd] in *. rewrite tasks_after_award in Hx.
        destruct (decide (announced_id ann fresh = i)) as [<-|Hne].
        + rewrite lookup_insert_eq in Hx. injection Hx as <-. cbn. by rewrite Hw.
        + rewrite lookup_insert_ne in Hx by done.
          by destruct (proj1 (find_key_None k (co_db c)) (Hk k Hak) i x Hx).
      - exfalso. apply (proj1 (find_key_None k _) Ef (announced_id ann fresh) (awarded_row ann r)); [|done].
        rewrite tasks_after_award. apply lookup_insert_eq. }
    unfold refusal in Hrun. rewrite Hrep in Hrun. cbn [co_alive after_award with_db] in Hrun. rewrite Ha in Hrun.
    replace (ta_team_epoch ann =? epoch (after_award ann r (announced_id ann fresh) c)) with true in Hrun.
    + cbn [negb] in Hrun. destruct Hrun as (_ & _ & ->). done.
    + symmetry. apply Z.eqb_eq. unfold epoch, after_award in *. cbn [co_db with_db]. by rewrite current_logged.
Qed.

(** An epoch that has passed never comes back: from then on announcements, accepts,
    role awards and world deltas that name it are refused, and change nothing. *)
Theorem old_epoch_refused c c' e : rtc tstep c c' -> team_ok c -> e < epoch c ->
  (forall ann bids fresh, ta_team_epoch ann = e -> announce_and_award ann bids fresh c' = (c', Err TeamError)) /\
  (forall t id r, tasks (co_db c') !! t = Some r -> tr_epoch r = e -> accept_task t id c' = (c', Err TeamError)) /\
  (forall i lease, rl_team_epoch lease = e -> award_role i lease c' = (c', Err TeamError)) /\
  (forall delta now, wd_team_epoch delta = e -> merge_world_delta delta now c' = (c', Err TeamError)).
Proof.
  intros Hs Hok Hlt.
  assert (Hle : epoch c <= epoch c').
  { apply prefix_current; [apply dn_epochs, tn_db; by apply tsteps_next|..]; eapply current_nonneg; [done|].
    by apply (team_ok_kept c). }
  assert (Hne : (e =? epoch c') = false) by (apply Z.eqb_neq; lia).
  split_and!.
  - intros ann bids fresh <-. pose proof (announce_run ann bids fresh c') as Hr. unfold refusal in Hr.
    rewrite Hne in Hr. by destruct (co_alive c').
  - intros t id r Hr <-. rewrite accept_run, Hr, Hne. by rewrite andb_false_r.
  - intros i lease <-. unfold award_role, st_bind, st_get, st_guard. by rewrite Hne.
  - intros delta now <-. unfold merge_world_delta, st_bind, st_get, st_guard. by rewrite Hne.
Qed.

(** Members move along the declared transitions, or from READY straight to LOST;
    no member is forgotten. One that has left never comes back: [join] takes the state
    LEFT, but the transition to JOINING it then makes is refused. *)
Theorem member_moves c c' id s : rtc tstep c c' -> state_of id (co_db c) = Some s ->
  (exists s', state_of id (co_db c') = Some s' /\ rtc moves s s') /\
  (s = LEFT -> state_of id (co_db c') = Some LEFT /\
     forall card now, card_member_id card = id -> exists e, (join_member card now c').2 = Err e).
Proof.
  intros Hs Hst. unfold state_of in Hst. apply fmap_Some in Hst as (r & Hr & ->).
  destruct (dn_members _ _ (tn_db _ _ (tsteps_next _ _ Hs)) id r Hr) as (r' & Hr' & Hm & Hl).
  split; [exists (mr_state r'); unfold state_of; by rewrite Hr'|].
  intros Hleft. specialize (Hl Hleft). split; [unfold state_of; by rewrite Hr'; cbn; rewrite Hl|].
  intros card now Hid. unfold join_member, st_bind, st_get.
  pose proof (add_candidate_next (co_team_id c') card now (co_db c') id r' Hr') as (r2 & Hr2 & _ & Hl2).
  unfold on_db at 1. destruct (add_candidate (co_team_id c') card now (co_db c')) as [d2 [[]|e]]; [|by exists e].
  cbn [fst] in Hr2. unfold on_db. cbn [co_db with_db]. rewrite join_run, Hid. unfold state_of. rewrite Hr2.
  cbn [fmap option_fmap option_map]. rewrite (Hl2 Hl). by exists Invalid.
Qed.

(** A task announced again after its holder was lost is never awarded again: no
    later announcement of it, under whatever key, yields a holder. *)
Theorem requeued_never_awarded c c' t r : rtc tstep c c' ->
  tasks (co_db c) !! t = Some r -> tr_awardee r = None ->
  (exists r', tasks (co_db c') !! t = Some r' /\ tr_awardee r' = None) /\
  (forall ann bids fresh w, (announce_and_award ann bids fresh c').2 <> Ok (t, Some w)) /\
  (forall id, (accept_task t id c').2 = Err TeamError).
Proof.
  intros Hs Hr Hn. destruct (dn_tasks _ _ (tn_db _ _ (tsteps_next _ _ Hs)) t r Hr) as (r' & Hr' & _ & _ & _ & _ & Ha).
  assert (Hn' : tr_awardee r' = None) by (destruct Ha as [Ha|[Ha _]]; congruence).
  split; [by exists r'|]. split.
  - intros ann bids fresh w Hw. destruct (announce_and_award ann bids fresh c') as [c2 res] eqn:E. cbn in Hw. subst res.
    pose proof (announce_run ann bids fresh c') as Hrun. rewrite E in Hrun.
    destruct (refusal ann bids fresh c'); [done|]. destruct Hrun as (_ & _ & Hrun).
    destruct (replayed ann (co_db c')) as [a|] eqn:Erep.
    + injection Hrun as _ <-. unfold replayed in Erep. apply bind_Some in Erep as (k & _ & Erep).
      destruct (truthy_str k); [|done]. apply fmap_Some in Erep as ([i x] & Hf & Heq).
      apply find_key_Some in Hf as [Hx _]. cbn in *. injection Heq as -> Hax. congruence.
    + destruct Hrun as (al & b & _ & _ & _ & _ & Hfree & _ & Hrun). injection Hrun as _ Ht _. congruence.
  - intros id. rewrite accept_run, Hr'. rewrite Hn'. by rewrite bool_decide_eq_false_2 by done.
Qed.
End Team.

(** ** Where the rows say less than the comments *)

(** While a lease of an older epoch is not swept, an award of its key succeeds and does
    not take: [active_holder] still names the old holder, and the new one cannot renew. *)
Theorem stale_lease_answers id lease d h :
  active_holder (rl_conflict_key lease) d = Some h -> h <> rl_holder lease ->
  (award id lease d).2 = Ok lease ->
  active_holder (rl_conflict_key lease) (award id lease d).1 = Some h /\
  forall x, (renew (rl_conflict_key lease) (rl_holder lease) x (award id lease d).1).2 = Err Invalid.
Proof.
  unfold active_holder. intros (r & Hf & ->)%fmap_Some Hne Ha.
  assert (E : find_active (rl_conflict_key lease) (award id lease d).1 = Some r).
  { revert Ha. rewrite award_run. destruct (negb _); [done|]. destruct (negb _); [done|].
    destruct (existsb _ _); [done|]. intros _. by apply find_app_some. }
  split; [by rewrite E|]. intros x. rewrite renew_run, E.
  destruct (String.eqb_spec (lr_holder r) (rl_holder lease)); [congruence|done].
Qed.

(** Losing a member does not end its role: a lease of the current epoch that has not run
    out stays with the lost holder, and the key cannot be awarded to another. *)
Theorem lost_member_keeps_role id now c key r : team_ok c ->
  find_active key (co_db c) = Some r -> stale (isoformat now) (epoch c) r = false ->
  find_active key (co_db (member_lost id now c).1) = Some r /\
  forall i lease, rl_conflict_key lease = key -> (award i lease (co_db (member_lost id now c).1)).2 <> Ok lease.
Proof.
  intros Hok Hf Hs.
  assert (Hi : NoDup (lr_id <$> leases (co_db c))) by apply (lo_ids _ (ok_leases _ _ Hok)).
  set (d := with_leases (expired now (co_db c) <$> leases (co_db c)) (co_db c)).
  assert (Hd : find_active key d = Some r).
  { unfold find_active, d in *. cbn [leases with_leases]. induction (leases (co_db c)) as [|x l IH]; [done|].
    cbn in Hf |- *. unfold expired at 1 2. fold (epoch c). destruct (active key x) eqn:Ex.
    - injection Hf as ->. by rewrite Hs, Ex.
    - assert (Ey : active key (set_lease_state L_EXPIRED x) = false) by (unfold active; cbn; decide_eval; apply andb_false_r).
      cbn in Hi. apply NoDup_cons in Hi as [_ Hi].
      destruct (stale (isoformat now) (epoch c) x); rewrite ?Ex, ?Ey; by apply IH. }
  assert (Hl : find_active key (co_db (member_lost id now c).1) = Some r).
  { rewrite (member_lost_run id now c Hi). fold d. unfold find_active in *.
    destruct (bool_decide _); cbn [fst co_db with_db]; [rewrite leases_logged|]; exact Hd. }
  assert (He : epoch (member_lost id now c).1 = epoch c).
  { rewrite (member_lost_run id now c Hi). fold d. unfold epoch. destruct (bool_decide _); cbn [fst co_db with_db]; [|done].
    by rewrite current_logged. }
  split; [exact Hl|]. intros i lease Hk. rewrite award_run. fold (epoch (member_lost id now c).1). rewrite He.
  destruct (negb (rl_team_epoch lease =? epoch c)); [done|]. destruct (negb _); [done|].
  assert (Hc : existsb (clashes i (epoch c) (rl_conflict_key lease)) (leases (co_db (member_lost id now c).1)) = true);
    [|by rewrite Hc].
  apply find_some in Hl as [Hin Ha]. apply existsb_exists. exists r. split; [done|]. unfold clashes. rewrite Hk, Ha.
  unfold stale in Hs. unfold active in Ha. breflect.
  match goal with H : lr_state r = L_ACTIVE |- _ => rewrite H in Hs end. revert Hs. decide_eval. cbn [andb].
  intros [_ Hep]%orb_false_iff. apply negb_false_iff in Hep. rewrite Hep. apply orb_true_r.
Qed.

(** A task that is DONE can be accepted again in its epoch, and then be announced again
    when its holder is lost. *)
Theorem done_accepted_again t id c r : tasks (co_db c) !! t = Some r -> tr_status r = DONE ->
  tr_awardee r = Some id -> tr_epoch r = epoch c ->
  (accept_task t id c).2 = Ok tt /\
  exists r', tasks (co_db (accept_task t id c).1) !! t = Some r' /\ tr_status r' = ACCEPTED /\
    (harmless r -> requeueable id r' = true).
Proof.
  intros Hr Hd Ha He. rewrite accept_run, Hr, Ha, He. decide_eval. rewrite bool_decide_eq_true_2, Z.eqb_refl by done.
  cbn [andb fst snd]. split; [done|]. exists (set_task_status ACCEPTED r). cbn [co_db with_db]. rewrite tasks_logged.
  cbn [tasks with_tasks]. rewrite lookup_alter_eq, Hr. split; [done|]. split; [done|]. intros Hh.
  unfold requeueable. cbn. rewrite Ha. rewrite !bool_decide_eq_true_2; [done|exact Hh|set_solver|done].
Qed.

(** ** A run *)

Definition card_of (id : string) : TeamMemberCard :=
  {| card_team_id := "blue"; card_member_id := id; agent_card_url := None;
     card_body := {| body_id := id; effective_body_hash := "h"; body_class := "mobile_base" |};
     card_capabilities := ["ball.kick"]; card_endpoints := {| endpoint_task := None; endpoint_world := None |};
     card_security := {| identity_key_id := None; cert_fingerprint := None |};
     card_health := {| health_state := CANDIDATE; health_observed_at := None; ttl_ms := 1000 |};
     card_team_epoch := 0 |}.

Definition bid_of (id : string) (eta : Z) : Bid :=
  {| bid_member_id := id; eta_ms := of_Z eta; energy_cost := of_Z 80; capability_fit := of_Z 1;
     reliability := ratio 9 10; current_load := fzero; comms_quality := ratio 95 100; risk_fit := of_Z 1 |}.

Definition pass (task : string) (ep : Z) (side : string) : TaskAnnouncement :=
  {| ta_task_id := task; ta_team_id := "blue"; ta_team_epoch := ep; ta_required_capabilities := ["ball.kick"];
     ta_region := None; ta_deadline_ms := Some 5000; ta_risk_tier := "LOW"; ta_success_criteria := "";
     ta_idempotency_key := Some ("key-" +:+ task); ta_side_effect_class := side |}.

Definition role_of (holder : string) (ep : Z) (expires : datetime) : RoleLease :=
  {| rl_team_id := "blue"; rl_team_epoch := ep; rl_role := "passer"; rl_holder := holder;
     rl_scope := {| region := None; task_types := ["pass"] |}; rl_issued_at := isoformat (clock 0);
     rl_expires_at := isoformat expires; rl_renew_after_ms := 500; rl_priority := 50;
     rl_conflict_key := "role:passer"; rl_policy_hash := "p"; rl_state := L_ACTIVE |}.

Definition blue0 : coordinator := coordinator_new "blue" "p" DEFAULT_DEGRADED_POLICY 1000 db_empty.
Definition blue1 : coordinator := (join_member (card_of "r1") (clock 0) blue0).1.
Definition blue2 : coordinator := (join_member (card_of "r2") (clock 10) blue1).1.

Section Run.
#[local] Instance python_311 : Interpreter :=
  {| py_sum := sum_311; nan_sort := fun _ _ l => l; nan_sort_perm := fun _ _ l => Permutation_refl l |}.

Definition bids2 : list Bid := [bid_of "r1" 2200; bid_of "r2" 300].
Definition blue3 : coordinator := (announce_and_award (pass "t1" 2 "network_write") bids2 "x" blue2).1.
Definition blue4 : coordinator := (announce_and_award (pass "t2" 2 "none") bids2 "x" blue3).1.
(** r2 falls silent; its harmless task is announced again. *)
Definition blue5 : coordinator := (on_db (sweep_ttl (clock 5010) 1000 3000) blue4).1.
Definition blue6 : coordinator := (member_lost "r2" (clock 5020) blue5).1.

Lemma clock_utc ms : 0 <= ms <= 1000000 -> utc (clock ms).
Proof.
  intros Hm. split; [|done]. split; [|cbn; lia]. cbn [us off clock]. rewrite Z.mul_0_l, Z.add_0_r.
  assert (Hd : (1785902400000000 + ms * 1000) / usec_per_day = 20670) by
    (symmetry; apply (Z.div_unique _ _ _ (14400000000 + ms * 1000)); unfold usec_per_day; lia).
  rewrite Hd. vm_compute. split; congruence.
Qed.

Lemma blue0_ok : team_ok blue0.
Proof. apply db_empty_ok. Qed.

Lemma blue_steps : rtc tstep blue0 blue2.
Proof.
  eapply rtc_l; [apply (t_join_member (card_of "r1") (clock 0)); apply clock_utc; lia|].
  eapply rtc_l; [apply (t_join_member (card_of "r2") (clock 10)); apply clock_utc; lia|]. reflexivity.
Qed.

Lemma blue_award_steps : rtc tstep blue4 blue6.
Proof.
  eapply rtc_l; [apply (t_sweep_ttl (clock 5010) 1000 3000)|].
  eapply rtc_l; [apply (t_lost "r2" (clock 5020))|]. reflexivity.
Qed.

Example blue_run :
  epoch blue2 = 2 /\ state_of "r2" (co_db blue6) = Some LOST /\
  (tr_awardee <$> tasks (co_db blue6) !! "t1") = Some (Some "r2") /\
  (tr_status <$> tasks (co_db blue6) !! "t2") = Some ANNOUNCED.
Proof. vm_compute. repeat split. Qed.

Lemma team_consistent_witness : team_ok blue2 /\ epoch blue0 <= epoch blue2.
Proof. destruct (team_consistent blue0 blue2 blue_steps blue0_ok) as (H1 & H2 & _). by split. Defined.

Lemma side_effects_not_repeated_witness :
  match tasks (co_db blue4) !! "t1" with
  | Some r => exists r', tasks (co_db blue6) !! "t1" = Some r' /\ tr_awardee r' = tr_awardee r /\ tr_epoch r' = tr_epoch r
  | None => False
  end.
Proof.
  destruct (tasks (co_db blue4) !! "t1") as [r|] eqn:E; [|revert E; vm_compute; congruence].
  apply (side_effects_not_repeated blue4 blue6 "t1" r blue_award_steps E).
  assert (Hc : (tr_side_effect_class <$> tasks (co_db blue4) !! "t1") = Some "network_write") by (vm_compute; reflexivity).
  rewrite E in Hc. injection Hc as Hc. unfold harmless. rewrite Hc.
  intros [?|[?|?%elem_of_nil]%elem_of_cons]%elem_of_cons; congruence.
Defined.

Lemma award_sound_witness : exists c' t w,
  announce_and_award (pass "t1" 2 "network_write") bids2 "x" blue2 = (c', Ok (t, w)) /\ co_alive blue2 = true.
Proof.
  destruct (announce_and_award (pass "t1" 2 "network_write") bids2 "x" blue2) as [c' [[t w]|e]] eqn:E.
  - exists c', t, w. split; [done|]. exact (proj1 (award_sound _ _ _ _ _ _ _ E)).
  - exfalso. assert (H : is_ok (announce_and_award (pass "t1" 2 "network_write") bids2 "x" blue2).2 = true)
      by (vm_compute; reflexivity). by rewrite E in H.
Defined.

Lemma blue2_ok : team_ok blue2.
Proof. apply (team_ok_kept blue0); [exact blue_steps|exact blue0_ok]. Qed.

Lemma old_epoch_refused_witness :
  announce_and_award (pass "t9" 1 "none") bids2 "x" blue2 = (blue2, Err TeamError).
Proof.
  exact (proj1 (old_epoch_refused blue2 blue2 1 (rtc_refl _ _) blue2_ok ltac:(vm_compute; reflexivity))
    (pass "t9" 1 "none") bids2 "x" eq_refl).
Defined.

Definition blue7 : coordinator := (on_db (leave "r1") blue2).1.

Lemma blue_leave_steps : rtc tstep blue7 (on_db (heartbeat "r1" (clock 20)) blue7).1.
Proof. apply rtc_once, t_heartbeat, clock_utc. lia. Qed.

Lemma member_moves_witness :
  exists e, (join_member (card_of "r1") (clock 30) (on_db (heartbeat "r1" (clock 20)) blue7).1).2 = Err e.
Proof.
  destruct (member_moves blue7 _ "r1" LEFT blue_leave_steps ltac:(vm_compute; reflexivity)) as [_ H].
  exact (proj2 (H eq_refl) (card_of "r1") (clock 30) eq_refl).
Defined.

Lemma requeued_never_awarded_witness :
  (announce_and_award (pass "t2" 2 "none") [bid_of "r1" 900] "y" blue6).2 <> Ok ("t2", Some "r1").
Proof.
  destruct (tasks (co_db blue6) !! "t2") as [r|] eqn:E; [|exfalso; revert E; vm_compute; congruence].
  assert (Hn : tr_awardee r = None).
  { assert (Ha : (tr_awardee <$> tasks (co_db blue6) !! "t2") = Some None) by (vm_compute; reflexivity).
    rewrite E in Ha. by injection Ha. }
  apply (requeued_never_awarded blue6 blue6 "t2" r (rtc_refl _ _) E Hn).
Defined.

Definition blue8 : coordinator := (award_role "l1" (role_of "r1" 1 (clock 60000)) blue1).1.
Definition blue9 : coordinator := (join_member (card_of "r2") (clock 10) blue8).1.

Lemma stale_lease_answers_witness :
  active_holder "role:passer" (award "l2" (role_of "r2" 2 (clock 60000)) (co_db blue9)).1 = Some "r1".
Proof.
  apply (stale_lease_answers "l2" (role_of "r2" 2 (clock 60000)) (co_db blue9) "r1");
    [vm_compute; reflexivity|done|vm_compute; reflexivity].
Defined.

(** r2 holds the role of its epoch and is lost; the role stays. *)
Definition blue10 : coordinator := (award_role "l1" (role_of "r2" 2 (clock 60000)) blue2).1.
Definition blue11 : coordinator := (on_db (sweep_ttl (clock 5010) 1000 3000) blue10).1.

Lemma blue10_ok : team_ok blue11.
Proof.
  apply (team_ok_kept blue2); [|exact blue2_ok].
  eapply rtc_l; [apply (t_award_role "l1" (role_of "r2" 2 (clock 60000)))|].
  eapply rtc_l; [apply (t_sweep_ttl (clock 5010) 1000 3000)|]. reflexivity.
Qed.

Lemma lost_member_keeps_role_witness :
  state_of "r2" (co_db blue11) = Some LOST /\
  active_holder "role:passer" (co_db (member_lost "r2" (clock 5020) blue11).1) = Some "r2".
Proof.
  split; [vm_compute; reflexivity|]. unfold active_holder.
  destruct (find_active "role:passer" (co_db blue11)) as [r|] eqn:E; [|exfalso; revert E; vm_compute; congruence].
  assert (Hr : (fun r => (lr_holder r, stale (isoformat (clock 5020)) (epoch blue11) r)) <$>
                 find_active "role:passer" (co_db blue11) = Some ("r2", false)) by (vm_compute; reflexivity).
  rewrite E in Hr. injection Hr as Hh Hs.
  rewrite (proj1 (lost_member_keeps_role "r2" (clock 5020) blue11 "role:passer" r blue10_ok E Hs)). cbn. by rewrite Hh.
Defined.
End Run.
