(* ===== verification/Broker.v ===== *)
(** The agent's approval broker: src/src/rosclaw/operator/broker.py, over the cards and
    grants of src/src/rosclaw/contracts/operator (approval.py, grant.py).

    The state is the broker's tables and its signing key. Each statement commits by
    itself. The JSON text of a model is pydantic's: a [ContractText]; SHA-256 and HMAC are
    a [Crypto]. A row keeps the card or grant whose text it holds. *)

From S2P Require Export Clock Ledger.
Open Scope list_scope.

(** [ValidationError]; [GrantDeniedError] by its reason; a broken key; another exception. *)
Inductive broker_exn := Refused | GrantDenied (reason : string) | DuplicateKey | OtherRaised.

Inductive ApprovalStatus := PENDING | APPROVED | DENIED | EXPIRED.

(** What the status column may hold; [CANCELLED] is not an [ApprovalStatus]. *)
Inductive row_status := Status (s : ApprovalStatus) | CANCELLED.

#[export] Instance ApprovalStatus_eq_dec : EqDecision ApprovalStatus.
Proof. solve_decision. Defined.

#[export] Instance row_status_eq_dec : EqDecision row_status.
Proof. solve_decision. Defined.

Record ActionDisplay := {
  ad_title : string;
  ad_summary : string;
  ad_risk_tier : string;
  ad_expected_effect : string;
  ad_failure_handling : string;
  ad_parameters : dict json;
}.

Record ApprovalRequest := {
  ap_request_id : string;
  ap_mission_id : string;
  ap_task_id : option string;
  ap_principal : string;
  ap_body_id : string;
  ap_effective_body_hash : string;
  ap_mode : string;
  ap_action_display : ActionDisplay;
  ap_context_id : string;
  ap_context_revision : Z;
  ap_requested_tier : string;
  ap_created_at : string;
  ap_expires_at : string;
  ap_status : ApprovalStatus;
  ap_daemon_proposal_id : string;
  ap_daemon_action_id : string;
  ap_daemon_capability_id : string;
  ap_daemon_action_intent_hash : string;
  ap_exact_action_json : string;
}.

Record GrantScope := {
  gs_action_families : list string;
  gs_regions : list string;
  gs_tier : string;
  gs_exact_action_intent : option string;
}.

Record GrantBudgets := { max_actions : Z; max_velocity_m_s : option pyfloat; max_energy_j : option pyfloat }.

Record MissionGrant := {
  mg_grant_id : string;
  mg_principal : string;
  mg_body_id : string;
  mg_effective_body_hash : string;
  mg_mode : string;
  mg_scope : GrantScope;
  mg_risk_ceiling : string;
  mg_budgets : GrantBudgets;
  mg_policy_hash : string;
  mg_issued_at : string;
  mg_expires_at : string;
  mg_public_hash : string;
}.

Record request_row := { rq_request : ApprovalRequest; rq_status : row_status; rq_decided_by : option string }.

Record grant_row := {
  gr_request_id : string;
  gr_public : MissionGrant;
  gr_signature : string;
  gr_consumed : bool;
  gr_revoked : bool;
  gr_expires_at : string;
}.

Inductive broker_event :=
| ApprovalRequested (principal request_id mission_id risk_tier : string)
| ApprovalDecided (principal request_id : string) (approved : bool)
| ApprovalCancelled (principal request_id : string)
| GrantRevoked (principal grant_id : string).

Record broker := {
  br_secret : string;
  br_policy_hash : string;
  br_requests : dict request_row;
  br_grants : gmap string grant_row;
  br_events : list broker_event;
}.

(** [model_dump_json] of a card and the canonical JSON of a grant without its hash. *)
Class ContractText := {
  display_text : ActionDisplay -> string;
  grant_text : MissionGrant -> string;
}.

Definition RISK_ORDER : dict Z := [("LOW", 0); ("MEDIUM", 1); ("HIGH", 2); ("CRITICAL", 3)].

Definition with_requests (rs : dict request_row) (b : broker) : broker :=
  {| br_secret := br_secret b; br_policy_hash := br_policy_hash b; br_requests := rs; br_grants := br_grants b;
     br_events := br_events b |}.
Definition with_grants (gs : gmap string grant_row) (b : broker) : broker :=
  {| br_secret := br_secret b; br_policy_hash := br_policy_hash b; br_requests := br_requests b; br_grants := gs;
     br_events := br_events b |}.
Definition with_event (e : broker_event) (b : broker) : broker :=
  {| br_secret := br_secret b; br_policy_hash := br_policy_hash b; br_requests := br_requests b;
     br_grants := br_grants b; br_events := br_events b ++ [e] |}.

Abbreviation B := (st broker broker_exn).

(** The key is the stored one, or [random], which is then stored. *)
Definition open_broker (stored : option string) (random policy_hash : string) (rs : dict request_row)
    (gs : gmap string grant_row) (evs : list broker_event) : broker :=
  {| br_secret := default random stored; br_policy_hash := policy_hash; br_requests := rs; br_grants := gs;
     br_events := evs |}.

(** ** Requests *)

Definition create_request (request : ApprovalRequest) : B ApprovalRequest :=
  do! b <- st_get (fun b => b);
  run! st_guard (negb (dhas (br_requests b) (ap_request_id request))) DuplicateKey;
  run! st_set (with_requests (dset (br_requests b) (ap_request_id request)
    {| rq_request := request; rq_status := Status PENDING; rq_decided_by := None |}));
  run! st_set (with_event (ApprovalRequested (ap_principal request) (ap_request_id request) (ap_mission_id request)
    (ad_risk_tier (ap_action_display request))));
  st_ret request.

Definition with_ap_status (s : ApprovalStatus) (r : ApprovalRequest) : ApprovalRequest :=
  {| ap_request_id := ap_request_id r; ap_mission_id := ap_mission_id r; ap_task_id := ap_task_id r;
     ap_principal := ap_principal r; ap_body_id := ap_body_id r; ap_effective_body_hash := ap_effective_body_hash r;
     ap_mode := ap_mode r; ap_action_display := ap_action_display r; ap_context_id := ap_context_id r;
     ap_context_revision := ap_context_revision r; ap_requested_tier := ap_requested_tier r;
     ap_created_at := ap_created_at r; ap_expires_at := ap_expires_at r; ap_status := s;
     ap_daemon_proposal_id := ap_daemon_proposal_id r; ap_daemon_action_id := ap_daemon_action_id r;
     ap_daemon_capability_id := ap_daemon_capability_id r;
     ap_daemon_action_intent_hash := ap_daemon_action_intent_hash r;
     ap_exact_action_json := ap_exact_action_json r |}.

(** [ApprovalStatus(row["status"])] raises for a value that is none. *)
Definition get_request (request_id : string) (b : broker) : result broker_exn (option ApprovalRequest) :=
  match dget (br_requests b) request_id with
  | None => Ok None
  | Some row =>
      match rq_status row with
      | Status s => Ok (Some (with_ap_status s (rq_request row)))
      | CANCELLED => Err OtherRaised
      end
  end.

Definition pending_requests (mission_id : option string) (b : broker) : list ApprovalRequest :=
  omap (fun row =>
    if bool_decide (rq_status row = Status PENDING)
       && match mission_id with
          | Some m => negb (truthy_str m) || String.eqb (ap_mission_id (rq_request row)) m
          | None => true
          end
    then Some (rq_request row) else None) (dvals (br_requests b)).

Definition set_request (request_id : string) (s : row_status) (by_ : option string) : B unit := st_set (fun b =>
  match dget (br_requests b) request_id with
  | Some row => with_requests (dset (br_requests b) request_id
      {| rq_request := rq_request row; rq_status := s;
         rq_decided_by := match by_ with Some p => Some p | None => rq_decided_by row end |}) b
  | None => b
  end).

Section Broker.
Context `{Crypto} {CT : ContractText}.

Definition action_intent (d : ActionDisplay) : string := sha256_hex (display_text d).

Definition with_hash (hash : string) (g : MissionGrant) : MissionGrant :=
  {| mg_grant_id := mg_grant_id g; mg_principal := mg_principal g; mg_body_id := mg_body_id g;
     mg_effective_body_hash := mg_effective_body_hash g; mg_mode := mg_mode g; mg_scope := mg_scope g;
     mg_risk_ceiling := mg_risk_ceiling g; mg_budgets := mg_budgets g; mg_policy_hash := mg_policy_hash g;
     mg_issued_at := mg_issued_at g; mg_expires_at := mg_expires_at g; mg_public_hash := hash |}.

(** [finalize_hash] *)
Definition finalize_hash (g : MissionGrant) : MissionGrant :=
  with_hash ("grantpub_" +:+ sha256_hex (grant_text g)) g.

Definition signature_of (b : broker) (g : MissionGrant) : string := hmac_hex (br_secret b) (mg_public_hash g).

Definition is_exact (tier : string) : bool := String.eqb tier "EXACT_ACTION".

Definition grant_for (grant_id principal policy_hash : string) (now : datetime) (r : ApprovalRequest) : MissionGrant :=
  finalize_hash
    {| mg_grant_id := grant_id; mg_principal := principal; mg_body_id := ap_body_id r;
       mg_effective_body_hash := ap_effective_body_hash r; mg_mode := ap_mode r;
       mg_scope := {| gs_action_families := []; gs_regions := []; gs_tier := ap_requested_tier r;
                      gs_exact_action_intent :=
                        if is_exact (ap_requested_tier r) then Some (action_intent (ap_action_display r)) else None |};
       mg_risk_ceiling := ad_risk_tier (ap_action_display r);
       mg_budgets := {| max_actions := if is_exact (ap_requested_tier r) then 1 else 10;
                        max_velocity_m_s := None; max_energy_j := None |};
       mg_policy_hash := policy_hash; mg_issued_at := isoformat now; mg_expires_at := ap_expires_at r;
       mg_public_hash := "" |}.

Definition mint_grant (grant_id principal : string) (now : datetime) (r : ApprovalRequest) : B MissionGrant :=
  do! b <- st_get (fun b => b);
  let g := grant_for grant_id principal (br_policy_hash b) now r in
  run! st_guard (bool_decide (br_grants b !! grant_id = None)) DuplicateKey;
  run! st_set (with_grants (<[grant_id :=
    {| gr_request_id := ap_request_id r; gr_public := g; gr_signature := signature_of b g;
       gr_consumed := false; gr_revoked := false; gr_expires_at := mg_expires_at g |}]> (br_grants b)));
  st_ret g.

(** [fresh] is the new grant's identifier. *)
Definition decide_request (request_id principal : string) (approve : bool) (decided_by : option string)
    (fresh : string) (now : datetime) : B (option MissionGrant) :=
  do! b <- st_get (fun b => b);
  match dget (br_requests b) request_id with
  | None => st_raise Refused
  | Some row =>
      run! st_guard (bool_decide (rq_status row = Status PENDING)) Refused;
      if str_ltb (ap_expires_at (rq_request row)) (isoformat now) then
        run! set_request request_id (Status EXPIRED) None;
        st_raise (GrantDenied "request_expired")
      else
        run! set_request request_id (Status (if approve then APPROVED else DENIED))
          (Some (match decided_by with Some d => if truthy_str d then d else principal | None => principal end));
        run! st_set (with_event (ApprovalDecided principal request_id approve));
        if approve then do! g <- mint_grant fresh principal now (rq_request row); st_ret (Some g)
        else st_ret None
  end.

Definition cancel_request (request_id principal : string) : B unit :=
  do! b <- st_get (fun b => b);
  match dget (br_requests b) request_id with
  | None => st_raise Refused
  | Some row =>
      run! st_guard (bool_decide (rq_status row = Status PENDING)) Refused;
      run! set_request request_id CANCELLED (Some ("cancel:" +:+ principal));
      st_set (with_event (ApprovalCancelled principal request_id))
  end.

(** What src/src/rosclaw/agentd/action_dispatch.py writes back into a card once the
    daemon has a proposal for it. *)
Definition link_proposal (request_id proposal_id action_id capability_id intent_hash expires_at : string) : B unit :=
  st_set (fun b =>
    match dget (br_requests b) request_id with
    | Some row =>
        let r := rq_request row in
        with_requests (dset (br_requests b) request_id
          {| rq_request :=
               {| ap_request_id := ap_request_id r; ap_mission_id := ap_mission_id r; ap_task_id := ap_task_id r;
                  ap_principal := ap_principal r; ap_body_id := ap_body_id r;
                  ap_effective_body_hash := ap_effective_body_hash r; ap_mode := ap_mode r;
                  ap_action_display := ap_action_display r; ap_context_id := ap_context_id r;
                  ap_context_revision := ap_context_revision r; ap_requested_tier := ap_requested_tier r;
                  ap_created_at := ap_created_at r;
                  ap_expires_at := if truthy_str expires_at then expires_at else ap_expires_at r;
                  ap_status := ap_status r; ap_daemon_proposal_id := proposal_id; ap_daemon_action_id := action_id;
                  ap_daemon_capability_id := capability_id; ap_daemon_action_intent_hash := intent_hash;
                  ap_exact_action_json := ap_exact_action_json r |};
             rq_status := rq_status row; rq_decided_by := rq_decided_by row |}) b
    | None => b
    end).

(** ** Grants *)

Definition get_grant_public (grant_id : string) (b : broker) : option MissionGrant :=
  gr_public <$> br_grants b !! grant_id.

Definition update_grant (grant_id : string) (f : grant_row -> grant_row) : B unit :=
  st_set (fun b => with_grants (alter f grant_id (br_grants b)) b).

Definition set_revoked (r : grant_row) : grant_row :=
  {| gr_request_id := gr_request_id r; gr_public := gr_public r; gr_signature := gr_signature r;
     gr_consumed := gr_consumed r; gr_revoked := true; gr_expires_at := gr_expires_at r |}.
Definition set_consumed (r : grant_row) : grant_row :=
  {| gr_request_id := gr_request_id r; gr_public := gr_public r; gr_signature := gr_signature r;
     gr_consumed := true; gr_revoked := gr_revoked r; gr_expires_at := gr_expires_at r |}.

Definition revoke_grant (grant_id principal : string) : B unit :=
  do! b <- st_get (fun b => b);
  run! st_guard (bool_decide (is_Some (br_grants b !! grant_id))) Refused;
  run! update_grant grant_id set_revoked;
  st_set (with_event (GrantRevoked principal grant_id)).

(** What a caller of [verify] declares. *)
Record claim := {
  cl_principal : string;
  cl_body_hash : string;
  cl_mode : string;
  cl_risk_tier : string;
  cl_action_intent : option string;
}.

(** The checks of [verify] on a row, in their order; [None]: it passes. *)
Definition denial (b : broker) (now : datetime) (c : claim) (row : grant_row) : option broker_exn :=
  let g := gr_public row in
  let denied := fun reason => Some (GrantDenied reason) in
  if negb (String.eqb (gr_signature row) (signature_of b g)) then denied "forged_grant"
  else if gr_revoked row then denied "grant_revoked"
  else if str_ltb (gr_expires_at row) (isoformat now) then denied "grant_expired"
  else if negb (String.eqb (mg_principal g) (cl_principal c)) then denied "principal_mismatch"
  else if negb (String.eqb (mg_effective_body_hash g) (cl_body_hash c)) then denied "body_hash_changed"
  else if negb (String.eqb (mg_mode g) (cl_mode c)) then denied "mode_mismatch"
  else match dget RISK_ORDER (cl_risk_tier c), dget RISK_ORDER (mg_risk_ceiling g) with
       | Some risk, Some ceiling =>
           if ceiling <? risk then denied "risk_above_ceiling"
           else if is_exact (gs_tier (mg_scope g)) then
             if gr_consumed row then denied "grant_consumed"
             else match gs_exact_action_intent (mg_scope g), cl_action_intent c with
                  | None, _ => None
                  | Some _, None => denied "missing_action_intent"
                  | Some i, Some i' => if String.eqb i' i then None else denied "action_intent_mismatch"
                  end
           else None
       | _, _ => Some OtherRaised
       end.

Definition verify (grant_id : string) (c : claim) (consume : bool) (now : datetime) : B MissionGrant :=
  do! b <- st_get (fun b => b);
  match br_grants b !! grant_id with
  | None => st_raise (GrantDenied "unknown_grant")
  | Some row =>
      match denial b now c row with
      | Some e => st_raise e
      | None =>
          run! (if consume && is_exact (gs_tier (mg_scope (gr_public row)))
                then update_grant grant_id set_consumed else st_ret tt);
          st_ret (gr_public row)
      end
  end.

Definition action_intent_for_grant (grant_id : string) (b : broker) : result broker_exn (option string) :=
  match br_grants b !! grant_id with
  | None => Ok None
  | Some row =>
      let* r := get_request (gr_request_id row) b in
      Ok ((fun r => action_intent (ap_action_display r)) <$> r)
  end.

(** ** Any sequence of the methods *)

Inductive bstep : broker -> broker -> Prop :=
| b_create r b : bstep b (create_request r b).1
| b_decide i p ok by_ fresh now b : bstep b (decide_request i p ok by_ fresh now b).1
| b_cancel i p b : bstep b (cancel_request i p b).1
| b_link i p a c h x b : bstep b (link_proposal i p a c h x b).1
| b_revoke g p b : bstep b (revoke_grant g p b).1
| b_verify g c consume now b : bstep b (verify g c consume now b).1.
End Broker.

(** ** What no method undoes *)

Lemma keeps_bind_from {S E A B} (R : S -> S -> Prop) `{!PreOrder R} (m : st S E A) (k : A -> st S E B) s :
  R s (m s).1 -> (forall a, keeps R (k a)) -> R s (st_bind m k s).1.
Proof.
  intros Hm Hk. unfold st_bind. destruct (m s) as [s' [a|e]]; [|exact Hm]. etrans; [exact Hm|apply Hk].
Qed.

Section Theorems.
Context `{Crypto} {CT : ContractText}.
Implicit Types (b : broker).

Definition status_of (request_id : string) b : option row_status := rq_status <$> dget (br_requests b) request_id.

Definition grant_next (r r' : grant_row) : Prop :=
  gr_request_id r' = gr_request_id r /\ gr_public r' = gr_public r /\ gr_signature r' = gr_signature r /\
  gr_expires_at r' = gr_expires_at r /\ (gr_consumed r = true -> gr_consumed r' = true) /\
  (gr_revoked r = true -> gr_revoked r' = true).

Definition request_next (r r' : request_row) : Prop :=
  ap_request_id (rq_request r') = ap_request_id (rq_request r) /\
  ap_action_display (rq_request r') = ap_action_display (rq_request r) /\
  (rq_status r = Status PENDING \/ rq_status r' = rq_status r).

Record broker_next b b' : Prop := {
  bn_secret : br_secret b' = br_secret b;
  bn_grants : forall g r, br_grants b !! g = Some r -> exists r', br_grants b' !! g = Some r' /\ grant_next r r';
  bn_requests : forall i r, dget (br_requests b) i = Some r ->
    exists r', dget (br_requests b') i = Some r' /\ request_next r r';
}.

Lemma grant_next_refl r : grant_next r r.
Proof. by split_and!. Qed.

Lemma request_next_refl r : request_next r r.
Proof. split_and!; auto. Qed.

#[export] Instance broker_next_preorder : PreOrder broker_next.
Proof.
  split.
  - intros b. split; [done|..]; intros i r Hr; exists r; eauto using grant_next_refl, request_next_refl.
  - intros a b c [S1 G1 R1] [S2 G2 R2]. split; [congruence|..].
    + intros g r Hr. destruct (G1 g r Hr) as (r1 & H1 & N1). destruct (G2 g r1 H1) as (r2 & H2 & N2). exists r2.
      split; [done|]. unfold grant_next in *. destruct N1 as (?&?&?&?&?&?), N2 as (?&?&?&?&?&?). split_and!; auto; congruence.
    + intros i r Hr. destruct (R1 i r Hr) as (r1 & H1 & N1). destruct (R2 i r1 H1) as (r2 & H2 & N2). exists r2.
      split; [done|]. destruct N1 as (?&?&[?|E1]), N2 as (?&?&[?|E2]); split_and!; try congruence; try (by left).
      * left. congruence.
      * right. congruence.
Qed.

Lemma next_requests rs b :
  (forall i r, dget (br_requests b) i = Some r -> exists r', dget rs i = Some r' /\ request_next r r') ->
  broker_next b (with_requests rs b).
Proof. intros Hr. split; [done| |exact Hr]. intros g r Hg. exists r. split; [done|apply grant_next_refl]. Qed.

Lemma next_grants gs b :
  (forall g r, br_grants b !! g = Some r -> exists r', gs !! g = Some r' /\ grant_next r r') ->
  broker_next b (with_grants gs b).
Proof. intros Hg. split; [done|exact Hg|]. intros i r Hr. exists r. split; [done|apply request_next_refl]. Qed.

Lemma next_event e b : broker_next b (with_event e b).
Proof. split; [done|..]; intros i r Hr; exists r; eauto using grant_next_refl, request_next_refl. Qed.

Lemma set_request_next i s by_ b : status_of i b = Some (Status PENDING) -> broker_next b (set_request i s by_ b).1.
Proof.
  intros Hs. unfold set_request, st_set. unfold status_of in Hs. destruct (dget (br_requests b) i) as [row|] eqn:E; [|done].
  injection Hs as Hs. apply next_requests. intros j r Hr. rewrite dget_dset. case_decide as Hd.
  - subst j. rewrite E in Hr. injection Hr as <-. eexists. split; [done|]. split_and!; auto.
  - exists r. split; [done|apply request_next_refl].
Qed.

Lemma update_grant_next g f : (forall r, grant_next r (f r)) -> keeps broker_next (update_grant g f).
Proof.
  intros Hf b. apply next_grants. intros i r Hr. destruct (decide (g = i)) as [->|Hne].
  - exists (f r). by rewrite lookup_alter_eq, Hr.
  - exists r. rewrite lookup_alter_ne by done. split; [done|apply grant_next_refl].
Qed.

Lemma mint_next g p now r : keeps broker_next (mint_grant g p now r).
Proof.
  intros b. unfold mint_grant, st_bind, st_get, st_guard. destruct (bool_decide _) eqn:E; [|reflexivity]. breflect.
  apply next_grants. intros i x Hx. exists x. rewrite lookup_insert_ne by congruence. split; [done|apply grant_next_refl].
Qed.

Lemma create_next r : keeps broker_next (create_request r).
Proof.
  intros b. unfold create_request, st_bind, st_get, st_guard. destruct (dhas _ _) eqn:E; [reflexivity|].
  cbn [negb]. unfold st_ret, st_set. cbn [fst]. etrans; [|apply next_event]. apply next_requests.
  intros i x Hx. exists x. rewrite dget_dset_ne; [split; [done|apply request_next_refl]|].
  intros <-. apply dhas_false in E. congruence.
Qed.

Lemma decide_next i p ok by_ g now : keeps broker_next (decide_request i p ok by_ g now).
Proof.
  intros b. unfold decide_request, st_bind at 1, st_get. destruct (dget (br_requests b) i) as [row|] eqn:E; [|reflexivity].
  unfold st_bind at 1, st_guard. destruct (bool_decide _) eqn:Es; [|reflexivity]. breflect. unfold st_ret at 1.
  assert (Hs : status_of i b = Some (Status PENDING)) by (unfold status_of; rewrite E; cbn; by f_equal).
  pose proof (fun s o => set_request_next i s o b Hs) as Hset. destruct (str_ltb _ _).
  - apply (keeps_bind_from broker_next _ _ b (Hset _ _)). intros _. apply keeps_raise, _.
  - apply (keeps_bind_from broker_next _ _ b (Hset _ _)). intros _.
    apply keeps_bind; [apply _|apply keeps_set; intros x; apply next_event|intros _].
    destruct ok; [|apply keeps_ret, _]. apply keeps_bind; [apply _|apply mint_next|intros gr; apply keeps_ret, _].
Qed.

Lemma cancel_next i p : keeps broker_next (cancel_request i p).
Proof.
  intros b. unfold cancel_request, st_bind at 1, st_get. destruct (dget (br_requests b) i) as [row|] eqn:E; [|reflexivity].
  unfold st_bind at 1, st_guard. destruct (bool_decide _) eqn:Es; [|reflexivity]. breflect. unfold st_ret at 1.
  assert (Hs : status_of i b = Some (Status PENDING)) by (unfold status_of; rewrite E; cbn; by f_equal).
  apply (keeps_bind_from broker_next _ _ b (set_request_next i _ _ b Hs)). intros _. apply keeps_set.
  intros x. apply next_event.
Qed.

Lemma link_next i p a c h x : keeps broker_next (link_proposal i p a c h x).
Proof.
  intros b. unfold link_proposal, st_set. destruct (dget (br_requests b) i) as [row|] eqn:E; [|reflexivity].
  apply next_requests. intros j r Hr. rewrite dget_dset. case_decide as Hd.
  - subst j. rewrite E in Hr. injection Hr as <-. eexists. split; [done|]. split_and!; auto.
  - exists r. split; [done|apply request_next_refl].
Qed.

Lemma revoke_next g p : keeps broker_next (revoke_grant g p).
Proof.
  unfold revoke_grant. apply keeps_bind; [apply _|apply keeps_get, _|intros b].
  apply keeps_bind; [apply _|apply keeps_guard, _|intros _].
  apply keeps_bind; [apply _|apply update_grant_next; intros r; by split_and!|intros _].
  apply keeps_set. intros x. apply next_event.
Qed.

(** [verify] in full. *)
Lemma verify_run g c consume now b :
  verify g c consume now b =
  match br_grants b !! g with
  | None => (b, Err (GrantDenied "unknown_grant"))
  | Some row =>
      match denial b now c row with
      | Some e => (b, Err e)
      | None => ((if consume && is_exact (gs_tier (mg_scope (gr_public row)))
                  then with_grants (alter set_consumed g (br_grants b)) b else b), Ok (gr_public row))
      end
  end.
Proof.
  unfold verify, st_bind, st_get. destruct (br_grants b !! g) as [row|]; [|done].
  destruct (denial b now c row); [done|]. by destruct (_ && _).
Qed.

Lemma verify_next g c consume now : keeps broker_next (verify g c consume now).
Proof.
  intros b. rewrite verify_run. destruct (br_grants b !! g) as [row|]; [|reflexivity].
  destruct (denial b now c row); [reflexivity|]. cbn [fst]. destruct (_ && _); [|reflexivity].
  apply (update_grant_next g set_consumed (fun r => ltac:(by split_and!)) b).
Qed.

Lemma bsteps_next b b' : rtc bstep b b' -> broker_next b b'.
Proof.
  induction 1 as [|b1 b2 b3 Hs _ IH]; [reflexivity|]. etrans; [|exact IH].
  destruct Hs; [apply create_next|apply decide_next|apply cancel_next|apply link_next|apply revoke_next|apply verify_next].
Qed.

(** ** Verification *)

(** What a row that passes [verify]'s checks satisfies. *)
Lemma denial_passes b now c row : denial b now c row = None ->
  let g := gr_public row in
  exists risk ceiling, gr_signature row = hmac_hex (br_secret b) (mg_public_hash g) /\ gr_revoked row = false /\
    str_ltb (gr_expires_at row) (isoformat now) = false /\
    mg_principal g = cl_principal c /\ mg_effective_body_hash g = cl_body_hash c /\ mg_mode g = cl_mode c /\
    dget RISK_ORDER (cl_risk_tier c) = Some risk /\ dget RISK_ORDER (mg_risk_ceiling g) = Some ceiling /\ risk <= ceiling /\
    (is_exact (gs_tier (mg_scope g)) = true -> gr_consumed row = false /\
       forall i, gs_exact_action_intent (mg_scope g) = Some i -> cl_action_intent c = Some i).
Proof.
  intros Ed. unfold denial in Ed. cbv zeta.
  destruct (String.eqb_spec (gr_signature row) (signature_of b (gr_public row))) as [Hsig|]; [|done]. cbn [negb] in Ed.
  destruct (gr_revoked row) eqn:Er; [done|]. destruct (str_ltb _ _) eqn:Ex; [done|].
  destruct (String.eqb_spec (mg_principal (gr_public row)) (cl_principal c)) as [Hp|]; [|done]. cbn [negb] in Ed.
  destruct (String.eqb_spec (mg_effective_body_hash (gr_public row)) (cl_body_hash c)) as [Hb|]; [|done]. cbn [negb] in Ed.
  destruct (String.eqb_spec (mg_mode (gr_public row)) (cl_mode c)) as [Hm|]; [|done]. cbn [negb] in Ed.
  destruct (dget RISK_ORDER (cl_risk_tier c)) as [risk|] eqn:Erk; [|done].
  destruct (dget RISK_ORDER (mg_risk_ceiling (gr_public row))) as [ceiling|] eqn:Ec; [|done].
  destruct (ceiling <? risk) eqn:El; [done|]. breflect. exists risk, ceiling. split_and!; try done.
  destruct (is_exact (gs_tier (mg_scope (gr_public row)))) eqn:Et; [intros _|done].
  destruct (gr_consumed row) eqn:Ecs; [done|]. split; [done|].
  intros i Hi. rewrite Hi in Ed. destruct (cl_action_intent c) as [i'|]; [|done].
  destruct (String.eqb i' i) eqn:Ei; [|done]. apply String.eqb_eq in Ei. by rewrite Ei.
Qed.

(** C8: [verify] fails closed. A grant passes only if its row carries the signature of
    its hash under the broker's key, is neither revoked nor expired, and names exactly
    this principal, body and mode and at least this risk; an EXACT_ACTION grant passes
    only unconsumed and for the intent it binds, and is then consumed. A refusal changes
    nothing. *)
Theorem verify_sound g c consume now b :
  match verify g c consume now b with
  | (b', Ok gr) => exists row risk ceiling, br_grants b !! g = Some row /\ gr = gr_public row /\
      gr_signature row = hmac_hex (br_secret b) (mg_public_hash gr) /\ gr_revoked row = false /\
      str_ltb (gr_expires_at row) (isoformat now) = false /\
      mg_principal gr = cl_principal c /\ mg_effective_body_hash gr = cl_body_hash c /\ mg_mode gr = cl_mode c /\
      dget RISK_ORDER (cl_risk_tier c) = Some risk /\ dget RISK_ORDER (mg_risk_ceiling gr) = Some ceiling /\ risk <= ceiling /\
      (is_exact (gs_tier (mg_scope gr)) = true -> gr_consumed row = false /\
         (forall i, gs_exact_action_intent (mg_scope gr) = Some i -> cl_action_intent c = Some i) /\
         (consume = true -> gr_consumed <$> br_grants b' !! g = Some true))
  | (b', Err _) => b' = b
  end.
Proof.
  rewrite verify_run. destruct (br_grants b !! g) as [row|] eqn:Eg; [|done].
  destruct (denial b now c row) as [e|] eqn:Ed; [done|].
  destruct (denial_passes _ _ _ _ Ed) as (risk & ceiling & Hsig & Hr & Hx & Hp & Hb & Hm & Hk & Hc & Hle & Hex).
  exists row, risk, ceiling. split_and!; try done. intros Ht. destruct (Hex Ht) as [Hcs Hi]. split_and!; try done.
  intros ->. rewrite Ht. cbn [andb br_grants with_grants]. by rewrite lookup_alter_eq, Eg.
Qed.

(** C10: an EXACT_ACTION grant is used once. After a verification that consumed it no
    later one succeeds, whatever is decided, revoked or verified in between. *)
Theorem exact_grant_once g c now b b1 gr b2 c' consume' now' :
  verify g c true now b = (b1, Ok gr) -> is_exact (gs_tier (mg_scope gr)) = true -> rtc bstep b1 b2 ->
  exists e, verify g c' consume' now' b2 = (b2, Err e).
Proof.
  intros Hv He Hs. pose proof (verify_next g c true now b) as Hn. rewrite Hv in Hn. cbn [fst] in Hn.
  rewrite verify_run in Hv. destruct (br_grants b !! g) as [row|] eqn:Eg; [|done].
  destruct (denial b now c row); [done|]. injection Hv as Hb1 <-. rewrite He in Hb1. cbn [andb] in Hb1.
  assert (Hg1 : br_grants b1 !! g = Some (set_consumed row)) by (subst b1; cbn; by rewrite lookup_alter_eq, Eg).
  destruct (bn_grants _ _ (bsteps_next _ _ Hs) g _ Hg1) as (row2 & Hg2 & _ & Hp2 & _ & _ & Hc2 & _).
  rewrite verify_run, Hg2. destruct (denial b2 now' c' row2) as [e|] eqn:Ed; [by exists e|]. exfalso.
  destruct (denial_passes _ _ _ _ Ed) as (? & ? & _ & _ & _ & _ & _ & _ & _ & _ & _ & Hex).
  rewrite Hp2 in Hex. destruct (Hex He) as [Hcs _]. rewrite (Hc2 eq_refl) in Hcs. done.
Qed.

(** Revocation is final. *)
Theorem revoked_grant_refused g p b b1 b2 c consume now :
  revoke_grant g p b = (b1, Ok tt) -> rtc bstep b1 b2 -> exists e, verify g c consume now b2 = (b2, Err e).
Proof.
  intros Hr Hs. assert (Hg : exists row, br_grants b1 !! g = Some row /\ gr_revoked row = true).
  { revert Hr. unfold revoke_grant, st_bind, st_get, st_guard. destruct (bool_decide _) eqn:E; [|done]. breflect.
    match goal with H : is_Some _ |- _ => destruct H as [row Hrow] end.
    unfold st_ret, update_grant, st_set. intros [= <-]. exists (set_revoked row). cbn. by rewrite lookup_alter_eq, Hrow. }
  destruct Hg as (row & Hg & Hrev).
  destruct (bn_grants _ _ (bsteps_next _ _ Hs) g row Hg) as (row2 & Hg2 & _ & _ & _ & _ & _ & Hrv).
  rewrite verify_run, Hg2. unfold denial. rewrite (Hrv Hrev). destruct (negb _); by eexists.
Qed.

(** Decisions are made once. A request that is no longer pending is never decided
    nor cancelled; and one that was cancelled can never be read again, since its status
    is none [ApprovalStatus] knows. *)
Theorem decided_once i s b b' : rtc bstep b b' -> status_of i b = Some s -> s <> Status PENDING ->
  status_of i b' = Some s /\
  (forall p ok by_ g now, decide_request i p ok by_ g now b' = (b', Err Refused)) /\
  (forall p, cancel_request i p b' = (b', Err Refused)) /\
  (s = CANCELLED -> get_request i b' = Err OtherRaised).
Proof.
  intros Hs Hst Hne. unfold status_of in Hst. apply fmap_Some in Hst as (r & Hr & ->).
  destruct (bn_requests _ _ (bsteps_next _ _ Hs) i r Hr) as (r' & Hr' & _ & _ & [Hp|Hp]); [done|].
  split; [unfold status_of; rewrite Hr'; cbn; by rewrite Hp|]. split_and!.
  - intros p ok by_ g now. unfold decide_request, st_bind, st_get, st_guard. rewrite Hr', Hp.
    by rewrite bool_decide_eq_false_2.
  - intros p. unfold cancel_request, st_bind, st_get, st_guard. rewrite Hr', Hp. by rewrite bool_decide_eq_false_2.
  - intros Hc. unfold get_request. by rewrite Hr', Hp, Hc.
Qed.

(** ** Grants and the decisions behind them *)

Definition decided_row (row : request_row) (s : ApprovalStatus) (by_ : option string) : request_row :=
  {| rq_request := rq_request row; rq_status := Status s;
     rq_decided_by := match by_ with Some p => Some p | None => rq_decided_by row end |}.

Definition decider (principal : string) (decided_by : option string) : string :=
  match decided_by with Some d => if truthy_str d then d else principal | None => principal end.

Definition after_decision i principal (approve : bool) decided_by (row : request_row) b : broker :=
  with_event (ApprovalDecided principal i approve)
    (with_requests (dset (br_requests b) i
       (decided_row row (if approve then APPROVED else DENIED) (Some (decider principal decided_by)))) b).

Definition minted_row (g principal : string) (now : datetime) (r : ApprovalRequest) b : grant_row :=
  let gr := grant_for g principal (br_policy_hash b) now r in
  {| gr_request_id := ap_request_id r; gr_public := gr; gr_signature := signature_of b gr;
     gr_consumed := false; gr_revoked := false; gr_expires_at := mg_expires_at gr |}.

Lemma decide_run i p approve by_ g now b :
  decide_request i p approve by_ g now b =
  match dget (br_requests b) i with
  | None => (b, Err Refused)
  | Some row =>
      if negb (bool_decide (rq_status row = Status PENDING)) then (b, Err Refused)
      else if str_ltb (ap_expires_at (rq_request row)) (isoformat now) then
        (with_requests (dset (br_requests b) i (decided_row row EXPIRED None)) b, Err (GrantDenied "request_expired"))
      else
        let b' := after_decision i p approve by_ row b in
        if approve then
          if bool_decide (br_grants b !! g = None) then
            (with_grants (<[g := minted_row g p now (rq_request row) b]> (br_grants b)) b',
             Ok (Some (grant_for g p (br_policy_hash b) now (rq_request row))))
          else (b', Err DuplicateKey)
        else (b', Ok None)
  end.
Proof.
  unfold decide_request, mint_grant, set_request, st_bind, st_get, st_guard, st_set, st_ret, st_raise.
  destruct (dget (br_requests b) i) as [row|] eqn:E; [|done]. destruct (bool_decide (rq_status row = _)); [|done].
  cbn [negb]. destruct (str_ltb _ _); [by rewrite E|]. destruct approve; rewrite E; [|done].
  cbn [br_grants with_event with_requests br_policy_hash]. by destruct (bool_decide _).
Qed.

(** The invariant: a grant exists only for an approved request, one per request, with the
    hash of its content, the broker's signature over it and the intent of the card. *)
Record grant_ok (b : broker) (row : grant_row) : Prop := {
  go_approved : exists r, dget (br_requests b) (gr_request_id row) = Some r /\ rq_status r = Status APPROVED /\
    gs_exact_action_intent (mg_scope (gr_public row)) =
      (if is_exact (gs_tier (mg_scope (gr_public row))) then Some (action_intent (ap_action_display (rq_request r))) else None);
  go_hash : gr_public row = finalize_hash (with_hash "" (gr_public row));
  go_signature : gr_signature row = hmac_hex (br_secret b) (mg_public_hash (gr_public row));
  go_expires : gr_expires_at row = mg_expires_at (gr_public row);
}.

Record broker_ok (b : broker) : Prop := {
  bo_keys : forall i r, dget (br_requests b) i = Some r -> ap_request_id (rq_request r) = i;
  bo_grants : forall g row, br_grants b !! g = Some row -> grant_ok b row;
  bo_one : forall g g' row row', br_grants b !! g = Some row -> br_grants b !! g' = Some row' ->
    gr_request_id row = gr_request_id row' -> g = g';
}.

Lemma grant_ok_next b b' row row' : broker_next b b' -> grant_next row row' -> grant_ok b row -> grant_ok b' row'.
Proof.
  intros Hn (E1 & E2 & E3 & E4 & _) [(r & Hr & Hs & Hi) Hh Hsig Hx].
  destruct (bn_requests _ _ Hn _ r Hr) as (r' & Hr' & _ & Hd & Hst). split; rewrite ?E1, ?E2, ?E3, ?E4; try done.
  - exists r'. split; [done|]. split; [|by rewrite Hd]. destruct Hst as [Hst|Hst]; congruence.
  - by rewrite (bn_secret _ _ Hn).
Qed.

Lemma broker_ok_same b b' : broker_next b b' ->
  (forall g r', br_grants b' !! g = Some r' -> exists r, br_grants b !! g = Some r /\ grant_next r r') ->
  (forall i r, dget (br_requests b') i = Some r -> ap_request_id (rq_request r) = i) ->
  broker_ok b -> broker_ok b'.
Proof.
  intros Hn Hg Hk [_ Hok Hone]. split; [done|..].
  - intros g r' Hr'. destruct (Hg g r' Hr') as (r & Hr & Hx). apply (grant_ok_next b b' r); [done|done|by eapply Hok].
  - intros g g' r r' Hr Hr' E. destruct (Hg g r Hr) as (x & Hx & Ex & _). destruct (Hg g' r' Hr') as (x' & Hx' & Ex' & _).
    apply (Hone g g' x x'); congruence.
Qed.

Lemma same_grants b b' : br_grants b' = br_grants b ->
  forall g r', br_grants b' !! g = Some r' -> exists r, br_grants b !! g = Some r /\ grant_next r r'.
Proof. intros E g r' Hr'. exists r'. rewrite <- E. split; [done|apply grant_next_refl]. Qed.

Lemma set_row_keys b i row' : broker_ok b -> ap_request_id (rq_request row') = i ->
  forall j r, dget (dset (br_requests b) i row') j = Some r -> ap_request_id (rq_request r) = j.
Proof.
  intros Hok Hi j r. rewrite dget_dset. case_decide as Hd; [intros [= <-]; congruence|]. apply (bo_keys b Hok).
Qed.

Lemma decide_ok i p ok by_ g now b : broker_ok b -> broker_ok (decide_request i p ok by_ g now b).1.
Proof.
  intros Hok. pose proof (decide_next i p ok by_ g now b) as Hn. rewrite decide_run in *.
  destruct (dget (br_requests b) i) as [row|] eqn:E; [|done].
  destruct (bool_decide (rq_status row = Status PENDING)) eqn:Ep; [|done]. breflect. cbn [negb] in *.
  pose proof (bo_keys b Hok i row E) as Hi.
  destruct (str_ltb _ _).
  { apply (broker_ok_same b); [exact Hn|by apply same_grants|by apply set_row_keys|done]. }
  cbv zeta in *. destruct ok.
  2: { apply (broker_ok_same b); [exact Hn|by apply same_grants|by apply set_row_keys|done]. }
  destruct (bool_decide (br_grants b !! g = None)) eqn:Eg; cbn [fst] in *.
  2: { apply (broker_ok_same b); [exact Hn|by apply same_grants|by apply set_row_keys|done]. }
  breflect. set (b1 := with_grants _ _) in *.
  assert (Hnew : forall g' row', br_grants b !! g' = Some row' -> gr_request_id row' <> i).
  { intros g' row' Hr' Hx. destruct (go_approved _ _ (bo_grants b Hok g' row' Hr')) as (r & Hr & Hs & _).
    rewrite Hx, E in Hr. injection Hr as <-. congruence. }
  split.
  - by apply set_row_keys.
  - intros g' row'. cbn [br_grants b1 with_grants]. destruct (decide (g = g')) as [<-|Hne].
    + rewrite lookup_insert_eq. intros [= <-]. split; [|done..].
      eexists. cbn [gr_request_id minted_row]. rewrite Hi. cbn [br_requests b1 with_grants after_decision with_event with_requests].
      rewrite dget_dset_eq. split; [done|]. by split.
    + rewrite lookup_insert_ne by done. intros Hr'.
      apply (grant_ok_next b b1 row' row'); [exact Hn|apply grant_next_refl|by apply (bo_grants b Hok g')].
  - intros g1 g2 r1 r2. cbn [br_grants b1 with_grants].
    destruct (decide (g = g1)) as [<-|H1], (decide (g = g2)) as [<-|H2]; [done|..];
      rewrite ?lookup_insert_eq, ?lookup_insert_ne by done.
    + intros [= <-] Hr2 Ex. cbn in Ex. destruct (Hnew g2 r2 Hr2). congruence.
    + intros Hr1 [= <-] Ex. cbn in Ex. destruct (Hnew g1 r1 Hr1). congruence.
    + apply (bo_one b Hok).
Qed.

Lemma altered_grants b f g : (forall r, grant_next r (f r)) ->
  forall i r', br_grants (with_grants (alter f g (br_grants b)) b) !! i = Some r' ->
  exists r, br_grants b !! i = Some r /\ grant_next r r'.
Proof.
  intros Hf i r'. cbn. destruct (decide (g = i)) as [->|Hne].
  - rewrite lookup_alter_eq. intros (r & Hr & ->)%fmap_Some. by exists r.
  - rewrite lookup_alter_ne by done. intros Hr. exists r'. split; [done|apply grant_next_refl].
Qed.

Lemma revoke_ok g p b : broker_ok b -> broker_ok (revoke_grant g p b).1.
Proof.
  intros Hok. pose proof (revoke_next g p b) as Hn. revert Hn.
  unfold revoke_grant, update_grant, st_bind, st_get, st_guard, st_set. destruct (bool_decide _); [|done].
  unfold st_ret. cbn [fst]. intros Hn. apply (broker_ok_same b); [exact Hn| |apply (bo_keys b Hok)|done].
  apply (altered_grants b set_revoked g). intros r. by split_and!.
Qed.

Lemma verify_ok g c consume now b : broker_ok b -> broker_ok (verify g c consume now b).1.
Proof.
  intros Hok. pose proof (verify_next g c consume now b) as Hn. revert Hn. rewrite verify_run.
  destruct (br_grants b !! g) as [row|]; [|done]. destruct (denial b now c row); [done|]. cbn [fst].
  destruct (_ && _); [|done]. intros Hn. apply (broker_ok_same b); [exact Hn| |apply (bo_keys b Hok)|done].
  apply (altered_grants b set_consumed g). intros r. by split_and!.
Qed.

Lemma requests_ok {A} (m : B A) b : keeps broker_next m -> br_grants (m b).1 = br_grants b ->
  (forall i r, dget (br_requests (m b).1) i = Some r -> ap_request_id (rq_request r) = i) ->
  broker_ok b -> broker_ok (m b).1.
Proof. intros Hn Hg Hk. apply broker_ok_same; [apply Hn|by apply same_grants|done]. Qed.

Lemma broker_steps_ok b b' : rtc bstep b b' -> broker_ok b -> broker_ok b'.
Proof.
  induction 1 as [|b1 b2 b3 Hs _ IH]; [done|]. intros Hok. apply IH. clear IH b3.
  destruct Hs as [r b|i p ok by_ fresh now b|i p b|i p a c h x b|g p b|g c consume now b].
  - pose proof (requests_ok (create_request r) b (create_next r)) as Hr. apply Hr; [| |done];
      unfold create_request, st_bind, st_get, st_guard; destruct (dhas _ _); try done; [apply (bo_keys b Hok)|].
    cbn [negb]. by apply set_row_keys.
  - by apply decide_ok.
  - pose proof (requests_ok (cancel_request i p) b (cancel_next i p)) as Hr. apply Hr; [| |done];
      unfold cancel_request, set_request, st_bind, st_get, st_guard, st_set;
      (destruct (dget (br_requests b) i) as [row|] eqn:E; [|first [done|apply (bo_keys b Hok)]]);
      (destruct (bool_decide _); [|first [done|apply (bo_keys b Hok)]]); cbn; rewrite E; [done|].
    apply set_row_keys; [done|]. by apply (bo_keys b Hok i row).
  - pose proof (requests_ok (link_proposal i p a c h x) b (link_next i p a c h x)) as Hr. apply Hr; [| |done];
      unfold link_proposal, st_set; (destruct (dget (br_requests b) i) as [row|] eqn:E; [|first [done|apply (bo_keys b Hok)]]);
      [done|]. apply set_row_keys; [done|]. by apply (bo_keys b Hok i row).
  - by apply revoke_ok.
  - by apply verify_ok.
Qed.

Definition empty_broker (secret policy_hash : string) : broker :=
  {| br_secret := secret; br_policy_hash := policy_hash; br_requests := []; br_grants := ∅; br_events := [] |}.

Lemma empty_broker_ok secret policy_hash : broker_ok (empty_broker secret policy_hash).
Proof. by split. Qed.

(** C9: a grant that verifies was minted by one approval: its request is APPROVED, no
    other grant stems from it, and an EXACT_ACTION grant binds the intent of the card the
    operator saw. *)
Theorem grant_rests_on_approval b0 b g c consume now b' gr :
  broker_ok b0 -> rtc bstep b0 b -> verify g c consume now b = (b', Ok gr) ->
  exists row r, br_grants b !! g = Some row /\ dget (br_requests b) (gr_request_id row) = Some r /\
    rq_status r = Status APPROVED /\
    (forall g' row', br_grants b !! g' = Some row' -> gr_request_id row' = gr_request_id row -> g' = g) /\
    (is_exact (gs_tier (mg_scope gr)) = true -> cl_action_intent c = Some (action_intent (ap_action_display (rq_request r)))) /\
    (forall p ok by_ fresh now', decide_request (gr_request_id row) p ok by_ fresh now' b = (b, Err Refused)).
Proof.
  intros Hok0 Hs Hv. assert (Hok : broker_ok b) by (by apply (broker_steps_ok b0)).
  rewrite verify_run in Hv. destruct (br_grants b !! g) as [row|] eqn:Hg; [|done].
  destruct (denial b now c row) eqn:Ed; [done|]. injection Hv as _ <-.
  destruct (denial_passes _ _ _ _ Ed) as (? & ? & _ & _ & _ & _ & _ & _ & _ & _ & _ & Hex).
  destruct (go_approved _ _ (bo_grants b Hok g row Hg)) as (r & Hr & Hst & Hint).
  exists row, r. split_and!; try done.
  - intros g' row' Hg' E. by apply (bo_one b Hok g' g row' row).
  - intros He. destruct (Hex He) as [_ Hi]. apply Hi. by rewrite Hint, He.
  - intros p ok by_ fresh now'. rewrite decide_run, Hr, Hst. by rewrite bool_decide_eq_false_2.
Qed.

(** The intent recomputed from the grant's own card passes the intent check of every
    grant: a caller that asks the broker for it declares nothing of its own. *)
Theorem own_intent_passes b g row : broker_ok b -> br_grants b !! g = Some row ->
  exists i, action_intent_for_grant g b = Ok (Some i) /\
    forall now c, cl_action_intent c = Some i ->
      denial b now c row <> Some (GrantDenied "missing_action_intent") /\
      denial b now c row <> Some (GrantDenied "action_intent_mismatch").
Proof.
  intros Hok Hg. destruct (go_approved _ _ (bo_grants b Hok g row Hg)) as (r & Hr & Hst & Hint).
  exists (action_intent (ap_action_display (rq_request r))). unfold action_intent_for_grant, get_request.
  rewrite Hg, Hr, Hst. split; [done|]. intros now c Hc.
  assert (Hlast : (if is_exact (gs_tier (mg_scope (gr_public row))) then
      if gr_consumed row then Some (GrantDenied "grant_consumed")
      else match gs_exact_action_intent (mg_scope (gr_public row)), cl_action_intent c with
           | None, _ => None
           | Some _, None => Some (GrantDenied "missing_action_intent")
           | Some i, Some i' => if String.eqb i' i then None else Some (GrantDenied "action_intent_mismatch")
           end
      else None) ∈ [None; Some (GrantDenied "grant_consumed")]).
  { rewrite Hint, Hc. destruct (is_exact _); [|left]. destruct (gr_consumed row); [right; left|].
    rewrite String.eqb_refl. left. }
  unfold denial.
  repeat match goal with
  | |- context [if negb ?x then Some _ else _] => destruct (negb x); [by split|]
  | |- context [if gr_revoked ?x then _ else _] => destruct (gr_revoked x); [by split|]
  | |- context [if str_ltb ?x ?y then _ else _] => destruct (str_ltb x y); [by split|]
  end.
  destruct (dget RISK_ORDER (cl_risk_tier c)) as [risk|]; [|by split].
  destruct (dget RISK_ORDER (mg_risk_ceiling (gr_public row))) as [ceil|]; [|by split].
  destruct (ceil <? risk); [by split|].
  apply elem_of_cons in Hlast as [-> | ->%list_elem_of_singleton]; by split.
Qed.

Definition with_public (g : MissionGrant) (r : grant_row) : grant_row :=
  {| gr_request_id := gr_request_id r; gr_public := g; gr_signature := gr_signature r;
     gr_consumed := gr_consumed r; gr_revoked := gr_revoked r; gr_expires_at := gr_expires_at r |}.

(** What the signature covers: the stored hash. A row whose hash was changed is refused,
    if the MAC is injective; but the hash is not recomputed, so every other field of the
    stored grant can be changed and the signature still holds. *)
Theorem signature_covers_hash_only b g row gr' c now :
  broker_ok b -> br_grants b !! g = Some row ->
  let b' := with_grants (<[g := with_public gr' row]> (br_grants b)) b in
  (mac_injective (br_secret b) -> mg_public_hash gr' <> mg_public_hash (gr_public row) ->
     verify g c true now b' = (b', Err (GrantDenied "forged_grant"))) /\
  (mg_public_hash gr' = mg_public_hash (gr_public row) ->
     denial b' now c (with_public gr' row) <> Some (GrantDenied "forged_grant")).
Proof.
  intros Hok Hg. cbv zeta. pose proof (go_signature _ _ (bo_grants b Hok g row Hg)) as Hsig. split.
  - intros Hm Hne. rewrite verify_run. cbn [br_grants with_grants]. rewrite lookup_insert_eq.
    unfold denial. cbn [gr_public with_public gr_signature]. unfold signature_of. cbn [br_secret with_grants].
    rewrite Hsig. destruct (String.eqb_spec (hmac_hex (br_secret b) (mg_public_hash (gr_public row)))
      (hmac_hex (br_secret b) (mg_public_hash gr'))) as [E|]; [|done]. apply Hm in E. congruence.
  - intros E. unfold denial. cbn [gr_public with_public gr_signature]. unfold signature_of. cbn [br_secret with_grants].
    rewrite Hsig, E, String.eqb_refl. cbn [negb].
    repeat match goal with |- context [if ?x then _ else _] => destruct x; [done|] end.
    by repeat match goal with
    | |- context [match ?x with _ => _ end] => destruct x
    end.
Qed.

(** The budget of a PLAN or MISSION grant is not spent: verifying it changes nothing, so
    it passes any number of times. *)
Theorem plan_grant_unlimited g c consume now b b' gr :
  verify g c consume now b = (b', Ok gr) -> is_exact (gs_tier (mg_scope gr)) = false -> b' = b.
Proof.
  rewrite verify_run. destruct (br_grants b !! g) as [row|]; [|done]. destruct (denial b now c row); [done|].
  destruct (consume && is_exact (gs_tier (mg_scope (gr_public row)))) eqn:E; [|by intros [= <- <-]].
  apply andb_prop in E as [_ E]. intros [= <- <-]. congruence.
Qed.
End Theorems.

(** ** A run *)

Definition toy_text : ContractText :=
  {| display_text := fun d => ad_title d; grant_text := fun g => mg_grant_id g +:+ mg_principal g |}.

Section Demo.
Existing Instance toy_crypto.
Existing Instance toy_text.

Definition at_ms (ms : Z) : datetime := DT (1785902400000000 + ms * 1000) 0.

Definition lift_card : ActionDisplay :=
  {| ad_title := "lift"; ad_summary := "lift the box"; ad_risk_tier := "MEDIUM"; ad_expected_effect := "box up";
     ad_failure_handling := "stop"; ad_parameters := [] |}.

Definition card (id tier : string) : ApprovalRequest :=
  {| ap_request_id := id; ap_mission_id := "m"; ap_task_id := None; ap_principal := "op"; ap_body_id := "b";
     ap_effective_body_hash := "h"; ap_mode := "REAL"; ap_action_display := lift_card; ap_context_id := "c";
     ap_context_revision := 1; ap_requested_tier := tier; ap_created_at := isoformat (at_ms 0);
     ap_expires_at := isoformat (at_ms 60000); ap_status := PENDING; ap_daemon_proposal_id := "";
     ap_daemon_action_id := ""; ap_daemon_capability_id := ""; ap_daemon_action_intent_hash := "";
     ap_exact_action_json := "" |}.

Definition lift_claim : claim :=
  {| cl_principal := "op"; cl_body_hash := "h"; cl_mode := "REAL"; cl_risk_tier := "LOW";
     cl_action_intent := Some "lift" |}.

Definition desk0 : broker := empty_broker "key" "policy".
Definition desk1 : broker := (create_request (card "q1" "EXACT_ACTION") desk0).1.
Definition desk2 : broker := (decide_request "q1" "op" true None "g1" (at_ms 10) desk1).1.
Definition desk3 : broker := (verify "g1" lift_claim true (at_ms 20) desk2).1.
Definition desk4 : broker := (revoke_grant "g1" "op" desk2).1.
Definition desk5 : broker := (cancel_request "q1" "op" desk1).1.
Definition lift_grant : MissionGrant := grant_for "g1" "op" "policy" (at_ms 10) (card "q1" "EXACT_ACTION").
Definition lift_row : grant_row := minted_row "g1" "op" (at_ms 10) (card "q1" "EXACT_ACTION") desk1.

Lemma desk_steps : rtc bstep desk0 desk2.
Proof. eapply rtc_l; [apply (b_create (card "q1" "EXACT_ACTION"))|]. apply rtc_once, (b_decide "q1" "op" true None "g1" (at_ms 10)). Qed.

Lemma desk2_ok : broker_ok desk2.
Proof. apply (broker_steps_ok desk0); [apply desk_steps|apply empty_broker_ok]. Qed.

Lemma desk2_grant : br_grants desk2 !! "g1" = Some lift_row.
Proof. vm_compute. reflexivity. Qed.

(** The first verification passes, a second one finds the grant consumed, and the wrong
    intent, body or time is refused. *)
Example lift_runs :
  (verify "g1" lift_claim true (at_ms 20) desk2).2 = Ok lift_grant /\
  (verify "g1" lift_claim true (at_ms 30) desk3).2 = Err (GrantDenied "grant_consumed") /\
  (verify "g1" lift_claim true (at_ms 60001) desk2).2 = Err (GrantDenied "grant_expired") /\
  (verify "g1" lift_claim true (at_ms 30) desk4).2 = Err (GrantDenied "grant_revoked") /\
  get_request "q1" desk5 = Err OtherRaised.
Proof. split_and!; vm_compute; reflexivity. Qed.

Lemma exact_grant_once_witness : exists e, verify "g1" lift_claim false (at_ms 30) desk3 = (desk3, Err e).
Proof.
  apply (exact_grant_once "g1" lift_claim (at_ms 20) desk2 desk3 lift_grant desk3 lift_claim false (at_ms 30)).
  - vm_compute. reflexivity.
  - reflexivity.
  - reflexivity.
Defined.

Lemma revoked_grant_refused_witness : exists e, verify "g1" lift_claim true (at_ms 30) desk4 = (desk4, Err e).
Proof.
  apply (revoked_grant_refused "g1" "op" desk2 desk4 desk4 lift_claim true (at_ms 30)).
  - vm_compute. reflexivity.
  - reflexivity.
Defined.

Lemma decided_once_witness : get_request "q1" desk5 = Err OtherRaised.
Proof.
  apply (decided_once "q1" CANCELLED desk5 desk5); [reflexivity|vm_compute; reflexivity|discriminate|reflexivity].
Defined.

Lemma grant_rests_on_approval_witness :
  exists row r, br_grants desk2 !! "g1" = Some row /\ dget (br_requests desk2) (gr_request_id row) = Some r /\
    rq_status r = Status APPROVED.
Proof.
  destruct (grant_rests_on_approval desk0 desk2 "g1" lift_claim true (at_ms 20) desk3 lift_grant)
    as (row & r & Hg & Hr & Hs & _).
  - apply empty_broker_ok.
  - apply desk_steps.
  - vm_compute. reflexivity.
  - exists row, r. split; [exact Hg|split; [exact Hr|exact Hs]].
Defined.

Lemma own_intent_passes_witness : action_intent_for_grant "g1" desk2 = Ok (Some "lift").
Proof.
  destruct (own_intent_passes desk2 "g1" lift_row desk2_ok desk2_grant) as (i & Hi & _).
  rewrite Hi. vm_compute in Hi. congruence.
Defined.

Definition widened : MissionGrant := with_hash (mg_public_hash lift_grant)
  {| mg_grant_id := "g1"; mg_principal := "op"; mg_body_id := "b"; mg_effective_body_hash := "h"; mg_mode := "REAL";
     mg_scope := {| gs_action_families := []; gs_regions := []; gs_tier := "MISSION"; gs_exact_action_intent := None |};
     mg_risk_ceiling := "CRITICAL"; mg_budgets := mg_budgets lift_grant; mg_policy_hash := "policy";
     mg_issued_at := mg_issued_at lift_grant; mg_expires_at := mg_expires_at lift_grant; mg_public_hash := "" |}.

Lemma signature_covers_hash_only_witness :
  denial (with_grants (<["g1" := with_public widened lift_row]> (br_grants desk2)) desk2) (at_ms 20) lift_claim
    (with_public widened lift_row) <> Some (GrantDenied "forged_grant").
Proof.
  apply (signature_covers_hash_only desk2 "g1" lift_row widened lift_claim (at_ms 20) desk2_ok desk2_grant).
  reflexivity.
Defined.

Definition plan_desk : broker :=
  (decide_request "q2" "op" true None "g2" (at_ms 10) (create_request (card "q2" "PLAN") desk0).1).1.

Lemma plan_grant_unlimited_witness : (verify "g2" lift_claim true (at_ms 20) plan_desk).1 = plan_desk.
Proof.
  apply (plan_grant_unlimited "g2" lift_claim true (at_ms 20) plan_desk _
           (grant_for "g2" "op" "policy" (at_ms 10) (card "q2" "PLAN"))); [vm_compute; reflexivity|reflexivity].
Defined.
End Demo.
