(* ===== verification/Operations.v ===== *)
(** Long-running operations: src/src/rosclaw/task_kernel/operation_manager.py.

    The manager is one asyncio process over two tables. A coroutine runs without
    interruption from one [await] to the next, so its blocks are functions on the state
    and [op_step] interleaves them; what a suspended coroutine still has to do is an element
    of [om_coros]. The operating system (processes, exit code files), clock readings,
    fresh identifiers and what a ROS action server answers are arguments. A block reads
    the clock once. A column with an instant's text keeps the instant, one with the JSON
    text of a value that text. *)

From S2P Require Export Clock Float64.
Open Scope list_scope.

Inductive op_state :=
| QUEUED | ADMITTED | RUNNING | DEGRADED | CANCELING | SUCCEEDED | FAILED | CANCELLED | LOST.

#[export] Instance op_state_eq_dec : EqDecision op_state.
Proof. solve_decision. Defined.

(** [state in OPERATION_TERMINAL] *)
Definition terminal (st : op_state) : bool :=
  match st with SUCCEEDED | FAILED | CANCELLED | LOST => true | _ => false end.

(** A row of [operations]. *)
Record op_row := {
  op_task_id : string;
  op_attempt_id : string;
  op_kind : string;
  op_st : op_state;
  op_resumable : bool;
  op_started_at : datetime;
  op_heartbeat_at : datetime;
  op_ended_at : option datetime;
  op_failure_code : string;
  op_revision : option Z;
  op_goal_id : string;
  op_provider : string;
  op_pid : Z;
  op_progress_json : string;
  op_result_ref : string;
  op_cancel_reason : string;
  op_exitcode_path : string;
}.

(** The payload of an event; [Foreign] is one the task kernel writes. *)
Inductive op_event :=
| QueuedProcess (goal_id provider kind : string)
| QueuedAction (goal_id action action_type : string)
| AdmittedProcess (pid : Z) (argv : list string)
| AdmittedAction (action goal_id : string)
| Output (text : string)
| ReaderFailed (error : string)
| Ended (state : op_state) (failure_code : string)
| Canceling (reason : string)
| Degraded (stale_after_s : float)
| Resumed
| Reattached (pid : Z)
| Progress (progress : string)
| Foreign (event_type : string).

(** The column [event_type]. *)
Definition event_type (e : op_event) : string :=
  match e with
  | QueuedProcess _ _ _ | QueuedAction _ _ _ => "operation.queued"
  | AdmittedProcess _ _ | AdmittedAction _ _ => "operation.admitted"
  | Output _ => "operation.output"
  | ReaderFailed _ => "operation.failed"
  | Ended SUCCEEDED _ => "operation.completed"
  | Ended FAILED _ => "operation.failed"
  | Ended CANCELLED _ => "operation.cancelled"
  | Ended _ _ => "operation.lost"
  | Canceling _ => "operation.canceling"
  | Degraded _ => "operation.degraded"
  | Resumed => "operation.resumed"
  | Reattached _ => "operation.reattached"
  | Progress _ => "operation.progress"
  | Foreign t => t
  end.

(** A row of [task_events]; its [seq] is its place in the table, from 1. *)
Record task_event := {
  te_task_id : string;
  te_attempt_id : option string;
  te_operation_id : option string;
  te_event : op_event;
  te_created_at : datetime;
}.

(** What a suspended coroutine goes on with. *)
Inductive coro :=
| Starting (operation_id task_id attempt_id : string) (argv : list string)
| Entering (operation_id task_id attempt_id : string)
| Reading (operation_id task_id attempt_id : string)
| Waiting (operation_id : string)
| Stopping (operation_id reason : string)
| Grace (operation_id reason : string)
| Watching (operation_id : string) (pid : Z) (exitcode_path : string).

(** [om_signals] are the processes sent a SIGTERM, [om_goals] the goals whose
    cancellation was requested. *)
Record op_mgr := {
  om_ops : dict op_row;
  om_events : list task_event;
  om_procs : gmap string Z;
  om_actions : gmap string string;
  om_coros : list coro;
  om_signals : list Z;
  om_goals : list string;
}.

Record os := { exit_file : string -> option Z; pid_alive : Z -> bool }.

Definition om_empty : op_mgr :=
  {| om_ops := []; om_events := []; om_procs := ∅; om_actions := ∅; om_coros := []; om_signals := []; om_goals := [] |}.

Definition with_ops (x : dict op_row) (s : op_mgr) : op_mgr :=
  {| om_ops := x; om_events := om_events s; om_procs := om_procs s; om_actions := om_actions s;
     om_coros := om_coros s; om_signals := om_signals s; om_goals := om_goals s |}.
Definition with_task_events (x : list task_event) (s : op_mgr) : op_mgr :=
  {| om_ops := om_ops s; om_events := x; om_procs := om_procs s; om_actions := om_actions s;
     om_coros := om_coros s; om_signals := om_signals s; om_goals := om_goals s |}.
Definition with_procs (x : gmap string Z) (s : op_mgr) : op_mgr :=
  {| om_ops := om_ops s; om_events := om_events s; om_procs := x; om_actions := om_actions s;
     om_coros := om_coros s; om_signals := om_signals s; om_goals := om_goals s |}.
Definition with_actions (x : gmap string string) (s : op_mgr) : op_mgr :=
  {| om_ops := om_ops s; om_events := om_events s; om_procs := om_procs s; om_actions := x;
     om_coros := om_coros s; om_signals := om_signals s; om_goals := om_goals s |}.
Definition with_coros (x : list coro) (s : op_mgr) : op_mgr :=
  {| om_ops := om_ops s; om_events := om_events s; om_procs := om_procs s; om_actions := om_actions s;
     om_coros := x; om_signals := om_signals s; om_goals := om_goals s |}.
Definition with_signal (pid : Z) (s : op_mgr) : op_mgr :=
  {| om_ops := om_ops s; om_events := om_events s; om_procs := om_procs s; om_actions := om_actions s;
     om_coros := om_coros s; om_signals := om_signals s ++ [pid]; om_goals := om_goals s |}.
Definition with_goal (goal : string) (s : op_mgr) : op_mgr :=
  {| om_ops := om_ops s; om_events := om_events s; om_procs := om_procs s; om_actions := om_actions s;
     om_coros := om_coros s; om_signals := om_signals s; om_goals := om_goals s ++ [goal] |}.

(** [create_task], and the suspension of the running coroutine at an [await]. *)
Definition add_coro (c : coro) (s : op_mgr) : op_mgr := with_coros (om_coros s ++ [c]) s.

(** ** Rows and events *)

Definition get_op (id : string) (s : op_mgr) : option op_row := dget (om_ops s) id.

(** [UPDATE operations SET .. WHERE operation_id = ?] *)
Definition update_op (id : string) (f : op_row -> op_row) (s : op_mgr) : op_mgr :=
  match get_op id s with Some r => with_ops (dset (om_ops s) id (f r)) s | None => s end.

Definition set_op_state (st : op_state) (now : datetime) (r : op_row) : op_row :=
  {| op_task_id := op_task_id r; op_attempt_id := op_attempt_id r; op_kind := op_kind r; op_st := st;
     op_resumable := op_resumable r; op_started_at := op_started_at r; op_heartbeat_at := now;
     op_ended_at := op_ended_at r; op_failure_code := op_failure_code r; op_revision := op_revision r;
     op_goal_id := op_goal_id r; op_provider := op_provider r; op_pid := op_pid r;
     op_progress_json := op_progress_json r; op_result_ref := op_result_ref r;
     op_cancel_reason := op_cancel_reason r; op_exitcode_path := op_exitcode_path r |}.

Definition set_canceling (reason : string) (now : datetime) (r : op_row) : op_row :=
  {| op_task_id := op_task_id r; op_attempt_id := op_attempt_id r; op_kind := op_kind r; op_st := CANCELING;
     op_resumable := op_resumable r; op_started_at := op_started_at r; op_heartbeat_at := now;
     op_ended_at := op_ended_at r; op_failure_code := op_failure_code r; op_revision := op_revision r;
     op_goal_id := op_goal_id r; op_provider := op_provider r; op_pid := op_pid r;
     op_progress_json := op_progress_json r; op_result_ref := op_result_ref r;
     op_cancel_reason := reason; op_exitcode_path := op_exitcode_path r |}.

Definition set_ended (st : op_state) (failure_code result_ref : string) (now : datetime) (r : op_row) : op_row :=
  {| op_task_id := op_task_id r; op_attempt_id := op_attempt_id r; op_kind := op_kind r; op_st := st;
     op_resumable := op_resumable r; op_started_at := op_started_at r; op_heartbeat_at := now;
     op_ended_at := Some now; op_failure_code := failure_code; op_revision := op_revision r;
     op_goal_id := op_goal_id r; op_provider := op_provider r; op_pid := op_pid r;
     op_progress_json := op_progress_json r;
     op_result_ref := if truthy_str result_ref then result_ref else op_result_ref r;
     op_cancel_reason := op_cancel_reason r; op_exitcode_path := op_exitcode_path r |}.

Definition set_pid (pid : Z) (r : op_row) : op_row :=
  {| op_task_id := op_task_id r; op_attempt_id := op_attempt_id r; op_kind := op_kind r; op_st := op_st r;
     op_resumable := op_resumable r; op_started_at := op_started_at r; op_heartbeat_at := op_heartbeat_at r;
     op_ended_at := op_ended_at r; op_failure_code := op_failure_code r; op_revision := op_revision r;
     op_goal_id := op_goal_id r; op_provider := op_provider r; op_pid := pid;
     op_progress_json := op_progress_json r; op_result_ref := op_result_ref r;
     op_cancel_reason := op_cancel_reason r; op_exitcode_path := op_exitcode_path r |}.

Definition set_progress (progress : string) (r : op_row) : op_row :=
  {| op_task_id := op_task_id r; op_attempt_id := op_attempt_id r; op_kind := op_kind r; op_st := op_st r;
     op_resumable := op_resumable r; op_started_at := op_started_at r; op_heartbeat_at := op_heartbeat_at r;
     op_ended_at := op_ended_at r; op_failure_code := op_failure_code r; op_revision := op_revision r;
     op_goal_id := op_goal_id r; op_provider := op_provider r; op_pid := op_pid r;
     op_progress_json := progress; op_result_ref := op_result_ref r;
     op_cancel_reason := op_cancel_reason r; op_exitcode_path := op_exitcode_path r |}.

(** [text or None] *)
Definition or_none (text : string) : option string := if truthy_str text then Some text else None.

Definition emit (task_id operation_id attempt_id : string) (e : op_event) (now : datetime) (s : op_mgr) : op_mgr :=
  with_task_events (om_events s ++
    [{| te_task_id := task_id; te_attempt_id := or_none attempt_id; te_operation_id := or_none operation_id;
        te_event := e; te_created_at := now |}]) s.

(** [_transition]; [event] is none for a silent one. *)
Definition op_transition (id : string) (st : op_state) (event : option op_event) (now : datetime) (s : op_mgr) : op_mgr :=
  match get_op id s with
  | None => s
  | Some r =>
      if terminal (op_st r) || (bool_decide (op_st r = CANCELING) && negb (bool_decide (st = CANCELLED))) then s
      else
        let s := update_op id (set_op_state st now) s in
        match event with Some e => emit (op_task_id r) id "" e now s | None => s end
  end.

Definition touch (id : string) (now : datetime) (s : op_mgr) : op_mgr :=
  match get_op id s with
  | Some r => if terminal (op_st r) then s else update_op id (fun r => set_op_state (op_st r) now r) s
  | None => s
  end.

(** [_write_terminal]: a terminal state is final, and a row in CANCELING takes only
    CANCELLED. *)
Definition write_terminal (id : string) (st : op_state) (failure_code result_ref : string) (now : datetime)
    (s : op_mgr) : op_mgr :=
  match get_op id s with
  | None => s
  | Some r =>
      if terminal (op_st r) then s
      else if bool_decide (op_st r = CANCELING) && negb (bool_decide (st = CANCELLED)) then s
      else emit (op_task_id r) id "" (Ended st failure_code) now
             (update_op id (set_ended st failure_code result_ref now) s)
  end.

(** The terminal state of a process, by its exit code. *)
Definition exit_state (rc : Z) : op_state := if rc =? 0 then SUCCEEDED else FAILED.
Definition exit_code_text (rc : Z) : string := if rc =? 0 then "" else "exit_" +:+ Z_to_str rc.
Definition write_exit (id : string) (rc : Z) (now : datetime) : op_mgr -> op_mgr :=
  write_terminal id (exit_state rc) (exit_code_text rc) "" now.

(** ** Processes *)

(** [start] up to its [await] of the new process. The identifier is fresh; where it is
    taken the insert raises. [revision] is the active revision of the task. *)
Definition start_begin (id task_id attempt_id kind : string) (argv : list string) (resumable : bool)
    (goal_id provider operations_dir : string) (revision : option Z) (now : datetime) (s : op_mgr) : op_mgr :=
  if dhas (om_ops s) id then s
  else
    add_coro (Starting id task_id attempt_id argv)
      (emit task_id id attempt_id (QueuedProcess goal_id provider kind) now
        (with_ops (dset (om_ops s) id
          {| op_task_id := task_id; op_attempt_id := attempt_id; op_kind := kind; op_st := QUEUED;
             op_resumable := resumable; op_started_at := now; op_heartbeat_at := now; op_ended_at := None;
             op_failure_code := ""; op_revision := revision; op_goal_id := goal_id; op_provider := provider;
             op_pid := 0; op_progress_json := ""; op_result_ref := ""; op_cancel_reason := "";
             op_exitcode_path := operations_dir +:+ "/" +:+ id +:+ ".exitcode" |}) s)).

(** The rest of [start], with the process spawned. *)
Definition start_spawned (id task_id attempt_id : string) (argv : list string) (pid : Z) (now : datetime)
    (s : op_mgr) : op_mgr :=
  let s := with_procs (<[id := pid]> (om_procs s)) s in
  let s := op_transition id ADMITTED (Some (AdmittedProcess pid (take 5 argv))) now s in
  add_coro (Entering id task_id attempt_id) (update_op id (set_pid pid) s).

(** [_drive]: its first block, one line of output, a failing reader, the end. *)
Definition drive_enter (id task_id attempt_id : string) (now : datetime) (s : op_mgr) : op_mgr :=
  add_coro (Reading id task_id attempt_id) (op_transition id RUNNING None now s).

Definition drive_line (id task_id attempt_id line : string) (now : datetime) (s : op_mgr) : op_mgr :=
  add_coro (Reading id task_id attempt_id)
    (emit task_id id attempt_id (Output (String.substring 0 4000 line)) now (touch id now s)).

Definition drive_broken (id task_id attempt_id error : string) (now : datetime) (s : op_mgr) : op_mgr :=
  add_coro (Waiting id)
    (emit task_id id attempt_id (ReaderFailed (String.substring 0 300 ("reader: " +:+ error))) now s).

Definition drive_eof (id : string) (s : op_mgr) : op_mgr := add_coro (Waiting id) s.

(** [_read_exitcode] *)
Definition read_exitcode (w : os) (path : string) : option Z :=
  if truthy_str path then exit_file w path else None.

Definition drive_end (w : os) (id : string) (returncode : Z) (now : datetime) (s : op_mgr) : op_mgr :=
  let s := with_procs (delete id (om_procs s)) s in
  match get_op id s with
  | None => s
  | Some r =>
      if bool_decide (op_st r ∈ [CANCELING; CANCELLED]) then s
      else write_exit id (default returncode (read_exitcode w (op_exitcode_path r))) now s
  end.

(** ** ROS actions *)

(** [start_action]: where [send_goal] raises, the row stays as it was inserted. *)
Definition start_action (id task_id attempt_id action action_type goal_id : string) (revision : option Z)
    (sent : bool) (now : datetime) (s : op_mgr) : op_mgr :=
  if dhas (om_ops s) id then s
  else
    let s := emit task_id id attempt_id (QueuedAction goal_id action action_type) now
        (with_ops (dset (om_ops s) id
          {| op_task_id := task_id; op_attempt_id := attempt_id; op_kind := "action"; op_st := QUEUED;
             op_resumable := false; op_started_at := now; op_heartbeat_at := now; op_ended_at := None;
             op_failure_code := ""; op_revision := revision; op_goal_id := goal_id; op_provider := "ros2_action";
             op_pid := 0; op_progress_json := ""; op_result_ref := ""; op_cancel_reason := "";
             op_exitcode_path := "" |}) s) in
    if sent then
      let s := with_actions (<[id := goal_id]> (om_actions s)) s in
      let s := op_transition id ADMITTED (Some (AdmittedAction action goal_id)) now s in
      op_transition id RUNNING None now s
    else s.

Definition STATUS_SUCCEEDED : Z := 4.
Definition STATUS_CANCELED : Z := 5.

(** [_on_result]; [values] is the JSON text of the result. *)
Definition action_result (id : string) (status : Z) (values : string) (now : datetime) (s : op_mgr) : op_mgr :=
  let '(st, code) :=
    if status =? STATUS_SUCCEEDED then (SUCCEEDED, "")
    else if status =? STATUS_CANCELED then
      (CANCELLED, match get_op id s with
                  | Some r => if truthy_str (op_cancel_reason r) then op_cancel_reason r else "action_canceled"
                  | None => "action_canceled"
                  end)
    else (FAILED, "action_status_" +:+ Z_to_str status) in
  write_terminal id st code (String.substring 0 500 values) now (with_actions (delete id (om_actions s)) s).

(** [report_progress], which [_on_feedback] calls. *)
Definition report_progress (id progress : string) (now : datetime) (s : op_mgr) : op_mgr :=
  match get_op id s with
  | None => s
  | Some r =>
      if terminal (op_st r) then s
      else emit (op_task_id r) id "" (Progress progress) now (update_op id (set_progress progress) (touch id now s))
  end.

(** ** Cancellation *)

(** [cancel] up to its [await]: an action is asked to cancel and gets a grace period, a
    process of this manager that still runs gets a SIGTERM and is waited for, and
    anything else is CANCELLED at once. *)
Definition cancel_begin (id reason : string) (running : bool) (now : datetime) (s : op_mgr) : op_mgr :=
  match get_op id s with
  | None => s
  | Some r =>
      if terminal (op_st r) then s
      else
        let s := emit (op_task_id r) id "" (Canceling reason) now (update_op id (set_canceling reason now) s) in
        match om_actions s !! id with
        | Some goal => with_goal goal (add_coro (Grace id reason) s)
        | None =>
            match om_procs s !! id with
            | Some pid =>
                let s := with_procs (delete id (om_procs s)) s in
                if running then add_coro (Stopping id reason) (with_signal pid s)
                else write_terminal id CANCELLED reason "" now s
            | None => write_terminal id CANCELLED reason "" now s
            end
        end
  end.

(** The rest of [cancel], and [_cancel_grace]. *)
Definition cancel_end (id reason : string) (now : datetime) : op_mgr -> op_mgr :=
  write_terminal id CANCELLED reason "" now.

(** ** Liveness and recovery *)

(** [datetime.timestamp] *)
Definition timestamp (d : datetime) : float := ratio (us d) 1000000.

Definition is_stale (stale_after_s : float) (now : datetime) (r : op_row) : bool :=
  fltb stale_after_s (fsub (timestamp now) (timestamp (op_heartbeat_at r))).

Definition sweepable (st : op_state) : bool :=
  match st with QUEUED | ADMITTED | RUNNING | DEGRADED => true | _ => false end.

Definition sweep_op (stale_after_s : float) (now : datetime) (acc : op_mgr * (Z * Z)) (row : string * op_row)
    : op_mgr * (Z * Z) :=
  let '(s, (degraded, resumed)) := acc in
  let stale := is_stale stale_after_s now row.2 in
  if stale && negb (bool_decide (op_st row.2 = DEGRADED)) then
    (op_transition row.1 DEGRADED (Some (Degraded stale_after_s)) now s, (degraded + 1, resumed))
  else if negb stale && bool_decide (op_st row.2 = DEGRADED) then
    (op_transition row.1 RUNNING (Some Resumed) now s, (degraded, resumed + 1))
  else (s, (degraded, resumed)).

Definition rows_in (f : op_state -> bool) (s : op_mgr) : list (string * op_row) :=
  filter (fun row : string * op_row => f (op_st row.2) = true) (om_ops s).

Definition sweep_liveness (stale_after_s : float) (now : datetime) (s : op_mgr) : op_mgr * (Z * Z) :=
  foldl (sweep_op stale_after_s now) (s, (0, 0)) (rows_in sweepable s).

Definition recovered (st : op_state) : bool := sweepable st || bool_decide (st = CANCELING).

Definition recover_op (w : os) (now : datetime) (acc : op_mgr * (Z * Z * Z)) (row : string * op_row)
    : op_mgr * (Z * Z * Z) :=
  let '(s, (reattached, terminated, lost)) := acc in
  let '(id, r) := row in
  match read_exitcode w (op_exitcode_path r) with
  | Some rc => (write_exit id rc now s, (reattached, terminated + 1, lost))
  | None =>
      if (0 <? op_pid r) && pid_alive w (op_pid r) then
        (add_coro (Watching id (op_pid r) (op_exitcode_path r))
           (op_transition id DEGRADED (Some (Reattached (op_pid r))) now s), (reattached + 1, terminated, lost))
      else (write_terminal id LOST "restart_unverifiable" "" now s, (reattached, terminated, lost + 1))
  end.

Definition recover_on_boot (w : os) (now : datetime) (s : op_mgr) : op_mgr * (Z * Z * Z) :=
  foldl (recover_op w now) (s, (0, 0, 0)) (rows_in recovered s).

(** [_watch_pid] once the process is gone or its exit code is there. *)
Definition watch_end (w : os) (id path : string) (now : datetime) (s : op_mgr) : op_mgr :=
  match get_op id s with
  | None => s
  | Some r =>
      if terminal (op_st r) || bool_decide (op_st r = CANCELING) then s
      else match read_exitcode w path with
           | Some rc => write_exit id rc now s
           | None => write_terminal id LOST "exit_unverifiable" "" now s
           end
  end.

(** ** Reading the events *)

Definition numbered (es : list task_event) : list (nat * task_event) := imap (fun i e => (S i, e)) es.

Definition events_since (task_id : string) (last_seq : nat) (s : op_mgr) : list (nat * task_event) :=
  filter (fun ne : nat * task_event => te_task_id ne.2 = task_id /\ (last_seq < ne.1)%nat) (numbered (om_events s)).

(** ** Interleaving *)

(** A restarted agent daemon keeps the tables; processes it had started live on. The
    identifiers [new_id] makes are not empty. *)
Definition restart (s : op_mgr) : op_mgr :=
  {| om_ops := om_ops s; om_events := om_events s; om_procs := ∅; om_actions := ∅; om_coros := [];
     om_signals := om_signals s; om_goals := om_goals s |}.

Inductive op_step : op_mgr -> op_mgr -> Prop :=
| o_start id t a k argv b g p dir rev now s : truthy_str id = true ->
    op_step s (start_begin id t a k argv b g p dir rev now s)
| o_spawned l1 l2 id t a argv pid now s : om_coros s = l1 ++ Starting id t a argv :: l2 ->
    op_step s (start_spawned id t a argv pid now (with_coros (l1 ++ l2) s))
| o_spawn_failed l1 l2 id t a argv s : om_coros s = l1 ++ Starting id t a argv :: l2 ->
    op_step s (with_coros (l1 ++ l2) s)
| o_enter l1 l2 id t a now s : om_coros s = l1 ++ Entering id t a :: l2 ->
    op_step s (drive_enter id t a now (with_coros (l1 ++ l2) s))
| o_line l1 l2 id t a line now s : om_coros s = l1 ++ Reading id t a :: l2 ->
    op_step s (drive_line id t a line now (with_coros (l1 ++ l2) s))
| o_broken l1 l2 id t a error now s : om_coros s = l1 ++ Reading id t a :: l2 ->
    op_step s (drive_broken id t a error now (with_coros (l1 ++ l2) s))
| o_eof l1 l2 id t a s : om_coros s = l1 ++ Reading id t a :: l2 ->
    op_step s (drive_eof id (with_coros (l1 ++ l2) s))
| o_end w l1 l2 id rc now s : om_coros s = l1 ++ Waiting id :: l2 ->
    op_step s (drive_end w id rc now (with_coros (l1 ++ l2) s))
| o_action id t a ac ty g rev sent now s : truthy_str id = true ->
    op_step s (start_action id t a ac ty g rev sent now s)
| o_result id status values now s : is_Some (om_actions s !! id) -> op_step s (action_result id status values now s)
| o_progress id progress now s : op_step s (report_progress id progress now s)
| o_cancel id reason running now s : op_step s (cancel_begin id reason running now s)
| o_stopped l1 l2 id reason now s : om_coros s = l1 ++ Stopping id reason :: l2 ->
    op_step s (cancel_end id reason now (with_coros (l1 ++ l2) s))
| o_grace l1 l2 id reason now s : om_coros s = l1 ++ Grace id reason :: l2 ->
    op_step s (cancel_end id reason now (with_coros (l1 ++ l2) s))
| o_sweep stale now s : op_step s (sweep_liveness stale now s).1
| o_recover w now s : op_step s (recover_on_boot w now s).1
| o_watched w l1 l2 id pid path now s : om_coros s = l1 ++ Watching id pid path :: l2 ->
    pid_alive w pid = false \/ is_Some (read_exitcode w path) ->
    op_step s (watch_end w id path now (with_coros (l1 ++ l2) s))
| o_foreign t ty now s : op_step s (emit t "" "" (Foreign ty) now s)
| o_restart s : op_step s (restart s).

(** ** What no block undoes *)

(** The row's identity stands; a terminal row changes no more, but for the process
    number a late [start] writes; a row in CANCELING only ends CANCELLED. *)
Record row_next (r r' : op_row) : Prop := {
  rn_identity : op_task_id r' = op_task_id r /\ op_attempt_id r' = op_attempt_id r /\ op_kind r' = op_kind r /\
    op_goal_id r' = op_goal_id r /\ op_provider r' = op_provider r /\ op_revision r' = op_revision r /\
    op_exitcode_path r' = op_exitcode_path r;
  rn_terminal : terminal (op_st r) = true -> r' = set_pid (op_pid r') r;
  rn_canceling : op_st r = CANCELING -> op_st r' = CANCELING \/ op_st r' = CANCELLED;
}.

Lemma set_pid_id r : r = set_pid (op_pid r) r.
Proof. by destruct r. Qed.

#[export] Instance row_next_preorder : PreOrder row_next.
Proof.
  split.
  - intros r. split; [by split_and!|intros _; apply set_pid_id|by left].
  - intros a b c [I1 T1 C1] [I2 T2 C2]. split.
    + destruct I1 as (?&?&?&?&?&?&?), I2 as (?&?&?&?&?&?&?). split_and!; congruence.
    + intros Ht. pose proof (T1 Ht) as E1. assert (Hb : terminal (op_st b) = true) by (rewrite E1; exact Ht).
      rewrite (T2 Hb) at 1. rewrite E1. by destruct a.
    + intros Hc. destruct (C1 Hc) as [Hb|Hb]; [by apply C2|]. right.
      rewrite T2 by (by rewrite Hb). exact Hb.
Qed.

(** The terminal events recorded for an operation. *)
Definition ending (id : string) (e : task_event) : option (op_state * string) :=
  match te_event e with
  | Ended st code => if bool_decide (te_operation_id e = Some id) then Some (st, code) else None
  | _ => None
  end.
Definition endings (id : string) (s : op_mgr) : list (op_state * string) := omap (ending id) (om_events s).

(** An event the kernel wrote, which names no operation, or one of the manager's own. *)
Definition own (e : task_event) : Prop := forall ty, te_event e = Foreign ty -> te_operation_id e = None.

(** The tables agree: an operation has an event of its end exactly if its row is terminal,
    one, with the row's state and failure code. *)
Record op_ok (s : op_mgr) : Prop := {
  oo_own : Forall own (om_events s);
  oo_keys : dwf (om_ops s);
  oo_ids : dget (om_ops s) "" = None;
  oo_endings : forall id, endings id s = match get_op id s with
    | Some r => if terminal (op_st r) then [(op_st r, op_failure_code r)] else []
    | None => []
    end;
}.

Record op_next (s s' : op_mgr) : Prop := {
  on_rows : forall id r, get_op id s = Some r -> exists r', get_op id s' = Some r' /\ row_next r r';
  on_events : om_events s `prefix_of` om_events s';
  on_ok : op_ok s -> op_ok s';
}.

#[export] Instance op_next_preorder : PreOrder op_next.
Proof.
  split.
  - intros s. split; [|done|done]. intros id r Hr. exists r. split; [done|reflexivity].
  - intros a b c [R1 E1 K1] [R2 E2 K2]. split; [|by etrans|auto].
    intros id r Hr. destruct (R1 id r Hr) as (r1 & H1 & N1). destruct (R2 id r1 H1) as (r2 & H2 & N2).
    exists r2. split; [done|by etrans].
Qed.

Lemma next_memory s s' : om_ops s' = om_ops s -> om_events s' = om_events s -> op_next s s'.
Proof.
  intros Eo Ee. split.
  - intros id r Hr. exists r. unfold get_op in *. rewrite Eo. split; [done|reflexivity].
  - by rewrite Ee.
  - intros [Ho Hk Hi He]. split; rewrite ?Eo, ?Ee; [done..|]. intros id. specialize (He id).
    unfold endings, get_op in *. by rewrite Ee, Eo.
Qed.

Lemma endings_emit id s t i a e now :
  endings id (emit t i a e now s) = endings id s ++ match e with
    | Ended st code => if bool_decide (or_none i = Some id) then [(st, code)] else []
    | _ => []
    end.
Proof.
  unfold endings, emit, ending. cbn [om_events with_task_events]. rewrite omap_app. f_equal. cbn.
  destruct e; try done. by destruct (bool_decide _).
Qed.

Lemma own_emit t i a e now s : Forall own (om_events s) -> (forall ty, e = Foreign ty -> i = "") ->
  Forall own (om_events (emit t i a e now s)).
Proof.
  intros Ho Hi. unfold emit. cbn [om_events with_task_events]. apply Forall_app. split; [done|]. constructor; [|constructor].
  intros ty Hty. cbn in *. by rewrite (Hi ty Hty).
Qed.

Definition plain (e : op_event) : bool := match e with Ended _ _ => false | Foreign _ => false | _ => true end.

Lemma next_emit_if t i a e now s : (forall st code, e <> Ended st code) -> (forall ty, e = Foreign ty -> i = "") ->
  op_next s (emit t i a e now s).
Proof.
  intros Hp Hf. split.
  - intros id r Hr. exists r. split; [done|reflexivity].
  - cbn. by apply prefix_app_r.
  - intros [Ho Hk Hi He]. split; [by apply own_emit|done|done|]. intros id. rewrite endings_emit, He.
    destruct e; try (by rewrite app_nil_r). by destruct (Hp state failure_code).
Qed.

Lemma next_emit t i a e now s : plain e = true -> op_next s (emit t i a e now s).
Proof. intros Hp. by apply next_emit_if; [intros st code ->|intros ty ->]. Qed.

Lemma next_foreign t a ty now s : op_next s (emit t "" a (Foreign ty) now s).
Proof. by apply next_emit_if. Qed.

Lemma get_update id f s j : get_op j (update_op id f s) =
  if decide (id = j) then f <$> get_op j s else get_op j s.
Proof.
  unfold update_op, get_op. destruct (dget (om_ops s) id) as [r|] eqn:E.
  - cbn. rewrite dget_dset. case_decide as Hd; [subst j; by rewrite E|done].
  - case_decide as Hd; [subst j; by rewrite E|done].
Qed.

Lemma update_events id f s : om_events (update_op id f s) = om_events s.
Proof. unfold update_op. by destruct (get_op id s). Qed.

Lemma update_dwf id f s : dwf (om_ops s) -> dwf (om_ops (update_op id f s)).
Proof. intros Hd. unfold update_op. destruct (get_op id s); [by apply dwf_dset|done]. Qed.

Lemma update_no_id id f s : dget (om_ops s) "" = None -> dget (om_ops (update_op id f s)) "" = None.
Proof. intros H. change (get_op "" (update_op id f s) = None). rewrite get_update. unfold get_op. rewrite H. by case_decide. Qed.

Lemma update_op_rows id f s : (forall r, get_op id s = Some r -> row_next r (f r)) ->
  forall j r, get_op j s = Some r -> exists r', get_op j (update_op id f s) = Some r' /\ row_next r r'.
Proof.
  intros Hf j r Hr. rewrite get_update. case_decide as Hd.
  - subst j. rewrite Hr. exists (f r). split; [done|by apply Hf].
  - exists r. split; [done|reflexivity].
Qed.

(** An update that neither ends an operation nor touches one that has. *)
Lemma next_update id f s : (forall r, get_op id s = Some r -> row_next r (f r) /\
    terminal (op_st (f r)) = terminal (op_st r)) -> op_next s (update_op id f s).
Proof.
  intros Hf. split.
  - apply update_op_rows. intros r Hr. apply Hf, Hr.
  - by rewrite update_events.
  - intros [Ho Hk Hi He]. split; [by rewrite update_events|by apply update_dwf|by apply update_no_id|].
    intros j. rewrite get_update.
    unfold endings. rewrite update_events. fold (endings j s). rewrite He.
    case_decide as Hd; [subst j|done]. destruct (get_op id s) as [r|] eqn:E; [|done]. cbn.
    destruct (Hf r eq_refl) as [Hn Ht]. rewrite Ht. destruct (terminal (op_st r)) eqn:Et; [|done].
    by rewrite (rn_terminal _ _ Hn Et).
Qed.

Lemma next_insert id r s : dhas (om_ops s) id = false -> truthy_str id = true -> terminal (op_st r) = false ->
  op_next s (with_ops (dset (om_ops s) id r) s).
Proof.
  intros Hn Hid Ht. apply dhas_false in Hn. split.
  - intros j x Hx. unfold get_op in *. cbn. exists x. rewrite dget_dset_ne by congruence. split; [done|reflexivity].
  - done.
  - intros [Ho Hk Hi He]. split; cbn [om_ops with_ops]; [done|..].
    + by apply dwf_dset.
    + rewrite dget_dset_ne; [done|]. intros ->. done.
    + intros j. unfold get_op. cbn [om_ops with_ops]. change (endings j (with_ops (dset (om_ops s) id r) s)) with (endings j s).
      rewrite He. unfold get_op. rewrite dget_dset. case_decide as Hd; [subst j; by rewrite Hn, Ht|done].
Qed.

Lemma write_terminal_next id st code ref now s : terminal st = true -> op_next s (write_terminal id st code ref now s).
Proof.
  intros Hst. unfold write_terminal. destruct (get_op id s) as [r|] eqn:E; [|reflexivity].
  destruct (terminal (op_st r)) eqn:Et; [reflexivity|].
  destruct (bool_decide (op_st r = CANCELING) && negb (bool_decide (st = CANCELLED))) eqn:Eg; [reflexivity|].
  set (s' := update_op id (set_ended st code ref now) s). split.
  - intros j x Hx. apply (update_op_rows id (set_ended st code ref now) s); [|exact Hx]. intros y Hy.
    assert (y = r) as -> by congruence. split; [by split_and!|by rewrite Et|]. intros Hc. right. cbn.
    apply andb_false_iff in Eg as [Eg|Eg]; breflect; [done|]. by apply bool_decide_eq_true in Eg || done.
  - cbn. unfold s'. rewrite update_events. by apply prefix_app_r.
  - intros [Ho Hk Hi He].
    split; [apply own_emit; [unfold s'; by rewrite update_events|done]|by apply update_dwf|by apply update_no_id|]. intros j.
    rewrite endings_emit. unfold endings, s'. rewrite update_events. fold (endings j s). rewrite He.
    change (get_op j (emit (op_task_id r) id "" (Ended st code) now (update_op id (set_ended st code ref now) s)))
      with (get_op j (update_op id (set_ended st code ref now) s)).
    assert (Hid : truthy_str id = true).
    { destruct (truthy_str id) eqn:Hid; [done|]. unfold truthy_str in Hid. breflect. apply String.eqb_eq in Hid. subst id.
      unfold get_op in E. congruence. }
    unfold or_none. rewrite Hid, get_update. destruct (decide (id = j)) as [<-|Hd].
    + rewrite bool_decide_eq_true_2 by done. rewrite E, Et. cbn. by rewrite Hst.
    + rewrite bool_decide_eq_false_2 by congruence. by rewrite app_nil_r.
Qed.

Lemma write_exit_next id rc now s : op_next s (write_exit id rc now s).
Proof. apply write_terminal_next. unfold exit_state. by destruct (rc =? 0). Qed.

Lemma op_transition_next id st e now s : terminal st = false -> (forall x, e = Some x -> plain x = true) ->
  op_next s (op_transition id st e now s).
Proof.
  intros Hst He. unfold op_transition. destruct (get_op id s) as [r|] eqn:E; [|reflexivity].
  destruct (terminal (op_st r) || _) eqn:Eg; [reflexivity|]. apply orb_false_iff in Eg as [Et Eg].
  assert (Hu : op_next s (update_op id (set_op_state st now) s)).
  { apply next_update. intros x Hx. assert (x = r) as -> by congruence. cbn. rewrite Et. split; [|done].
    split; [by split_and!|by rewrite Et|]. intros Hc. exfalso.
    apply andb_false_iff in Eg as [Eg|Eg]; breflect; [done|].
    match goal with H : _ = true |- _ => apply bool_decide_eq_true in H | H : st = CANCELLED |- _ => idtac end. by subst st. }
  destruct e as [x|]; [|done]. etrans; [exact Hu|]. apply next_emit. by apply He.
Qed.

Lemma touch_next id now s : op_next s (touch id now s).
Proof.
  unfold touch. destruct (get_op id s) as [r|] eqn:E; [|reflexivity].
  destruct (terminal (op_st r)) eqn:Et; [reflexivity|]. apply next_update. intros x Hx.
  assert (x = r) as -> by congruence. split; [|done]. split; [by split_and!|by rewrite Et|by left].
Qed.

Lemma add_coro_next c s : op_next s (add_coro c s).
Proof. by apply next_memory. Qed.

Lemma with_coros_next l s : op_next s (with_coros l s).
Proof. by apply next_memory. Qed.

Create HintDb ops.
#[export] Hint Resolve write_terminal_next write_exit_next op_transition_next touch_next next_emit next_foreign
  add_coro_next with_coros_next : ops.

Lemma start_spawned_next id t a argv pid now s : op_next s (start_spawned id t a argv pid now s).
Proof.
  unfold start_spawned. etrans; [|apply add_coro_next]. etrans; [|apply next_update].
  - etrans; [by apply (next_memory s (with_procs (<[id := pid]> (om_procs s)) s))|].
    apply op_transition_next; [done|by intros x [= <-]].
  - intros r _. split; [|done]. split; [by split_and!|by destruct r|by left].
Qed.

Lemma cancel_begin_next id reason running now s : op_next s (cancel_begin id reason running now s).
Proof.
  unfold cancel_begin. destruct (get_op id s) as [r|] eqn:E; [|reflexivity].
  destruct (terminal (op_st r)) eqn:Et; [reflexivity|].
  set (s1 := emit _ _ _ _ _ _). assert (H1 : op_next s s1).
  { unfold s1. etrans; [|by apply next_emit]. apply next_update. intros x Hx. assert (x = r) as -> by congruence.
    cbn. rewrite Et. split; [|done]. split; [by split_and!|by rewrite Et|by left]. }
  etrans; [exact H1|]. destruct (om_actions s1 !! id); [by apply next_memory|].
  destruct (om_procs s1 !! id) as [pid|]; [|by apply write_terminal_next].
  destruct running; [by apply next_memory|]. etrans; [by apply (next_memory s1 (with_procs (delete id (om_procs s1)) s1))|].
  by apply write_terminal_next.
Qed.

Lemma foldl_next {A B} (f : op_mgr * B -> A -> op_mgr * B) l acc :
  (forall x acc, op_next acc.1 (f acc x).1) -> op_next acc.1 (foldl f acc l).1.
Proof. intros Hf. revert acc. induction l as [|x l IH]; intros acc; [reflexivity|]. cbn. etrans; [apply (Hf x)|apply IH]. Qed.

Lemma sweep_liveness_next stale now s : op_next s (sweep_liveness stale now s).1.
Proof.
  apply (foldl_next _ _ (s, _)). intros row [s1 [d r]]. unfold sweep_op.
  destruct (_ && _); [apply op_transition_next; [done|by intros x [= <-]]|].
  destruct (_ && _); [apply op_transition_next; [done|by intros x [= <-]]|reflexivity].
Qed.

Lemma recover_next w now s : op_next s (recover_on_boot w now s).1.
Proof.
  apply (foldl_next _ _ (s, _)). intros [id r] [s1 [[a t] l]]. unfold recover_op.
  destruct (read_exitcode w _); [apply write_exit_next|].
  destruct (_ && _); [|by apply write_terminal_next]. etrans; [|apply add_coro_next].
  apply op_transition_next; [done|by intros x [= <-]].
Qed.

Lemma drive_end_next w id rc now s : op_next s (drive_end w id rc now s).
Proof.
  unfold drive_end. set (s1 := with_procs _ s). etrans; [by apply (next_memory s s1)|].
  destruct (get_op id s1) as [r|]; [|reflexivity]. destruct (bool_decide _); [reflexivity|apply write_exit_next].
Qed.

Lemma action_result_next id status values now s : op_next s (action_result id status values now s).
Proof.
  unfold action_result.
  destruct (if status =? STATUS_SUCCEEDED then _ else _) as [st code] eqn:E.
  etrans; [by apply (next_memory s (with_actions (delete id (om_actions s)) s))|]. apply write_terminal_next.
  revert E. destruct (status =? STATUS_SUCCEEDED); [by intros [= <- <-]|].
  destruct (status =? STATUS_CANCELED); by intros [= <- <-].
Qed.

Lemma report_progress_next id p now s : op_next s (report_progress id p now s).
Proof.
  unfold report_progress. destruct (get_op id s) as [r|] eqn:E; [|reflexivity].
  destruct (terminal (op_st r)) eqn:Et; [reflexivity|]. etrans; [|by apply next_emit].
  etrans; [apply (touch_next id now)|]. apply next_update. intros x Hx.
  split; [|done]. split; [by split_and!| |by left]. intros Hx'. exfalso.
  unfold touch in Hx. rewrite E, Et, get_update in Hx. rewrite decide_True, E in Hx by done.
  injection Hx as <-. cbn in Hx'. congruence.
Qed.

Lemma start_begin_next id t a k argv b g p dir rev now s :
  truthy_str id = true -> op_next s (start_begin id t a k argv b g p dir rev now s).
Proof.
  intros Hid. unfold start_begin. destruct (dhas (om_ops s) id) eqn:E; [reflexivity|].
  etrans; [|apply add_coro_next]. etrans; [|by apply next_emit]. by apply next_insert.
Qed.

Lemma start_action_next id t a ac ty g rev sent now s :
  truthy_str id = true -> op_next s (start_action id t a ac ty g rev sent now s).
Proof.
  intros Hid. unfold start_action. destruct (dhas (om_ops s) id) eqn:E; [reflexivity|].
  set (s1 := emit _ _ _ _ _ _). assert (H1 : op_next s s1).
  { unfold s1. etrans; [|by apply next_emit]. by apply next_insert. }
  etrans; [exact H1|]. destruct sent; [|reflexivity].
  etrans; [by apply (next_memory s1 (with_actions (<[id := g]> (om_actions s1)) s1))|].
  etrans; [|by apply op_transition_next]. apply op_transition_next; [done|by intros x [= <-]].
Qed.

Lemma watch_end_next w id path now s : op_next s (watch_end w id path now s).
Proof.
  unfold watch_end. destruct (get_op id s) as [r|]; [|reflexivity]. destruct (_ || _); [reflexivity|].
  destruct (read_exitcode w path); [apply write_exit_next|by apply write_terminal_next].
Qed.

Lemma drive_line_next id t a line now s : op_next s (drive_line id t a line now s).
Proof. unfold drive_line. etrans; [|apply add_coro_next]. etrans; [|by apply next_emit]. apply touch_next. Qed.

Lemma drive_broken_next id t a error now s : op_next s (drive_broken id t a error now s).
Proof. unfold drive_broken. etrans; [|apply add_coro_next]. by apply next_emit. Qed.

Lemma drive_enter_next id t a now s : op_next s (drive_enter id t a now s).
Proof. unfold drive_enter. etrans; [|apply add_coro_next]. by apply op_transition_next. Qed.

#[export] Hint Resolve start_begin_next start_spawned_next drive_enter_next drive_line_next drive_broken_next
  drive_end_next start_action_next action_result_next report_progress_next cancel_begin_next sweep_liveness_next recover_next
  watch_end_next : ops.

Lemma op_step_next s s' : op_step s s' -> op_next s s'.
Proof.
  destruct 1; try solve [eauto with ops]; try (etrans; [apply (with_coros_next (l1 ++ l2))|solve [eauto with ops]]).
  by apply next_memory.
Qed.

Lemma op_steps_next s s' : rtc op_step s s' -> op_next s s'.
Proof. induction 1 as [|a b c Hs _ IH]; [reflexivity|]. etrans; [by apply op_step_next|exact IH]. Qed.

Lemma om_empty_ok : op_ok om_empty.
Proof. split; [constructor|constructor|done|done]. Qed.

(** ** Ends are final *)

(** What a reader of the event stream takes for the end of an operation. *)
Definition TERMINAL_EVENTS : list string :=
  ["operation.completed"; "operation.failed"; "operation.cancelled"; "operation.lost"].

Definition terminal_events (id : string) (s : op_mgr) : list task_event :=
  filter (fun e => te_operation_id e = Some id /\ event_type (te_event e) ∈ TERMINAL_EVENTS) (om_events s).

(** The report of a failing reader of a process's output. *)
Definition reader_report (e : task_event) : Prop := exists error, te_event e = ReaderFailed error.

Lemma terminal_event_cases id e : own e -> te_operation_id e = Some id -> event_type (te_event e) ∈ TERMINAL_EVENTS ->
  reader_report e \/ exists st code, te_event e = Ended st code /\ ending id e = Some (st, code).
Proof.
  intros Ho Hid Ht. unfold ending. destruct (te_event e) as [| | | | |error|st code| | | | | |ty] eqn:E;
    try (by apply (bool_decide_unpack _) in Ht); try (exfalso; revert Ht; cbn; set_solver).
  - left. by exists error.
  - right. exists st, code. by rewrite bool_decide_eq_true_2.
  - rewrite (Ho ty E) in Hid. done.
Qed.

Lemma ending_terminal id e x : ending id e = Some x ->
  te_operation_id e = Some id /\ te_event e = Ended x.1 x.2 /\ event_type (te_event e) ∈ TERMINAL_EVENTS.
Proof.
  unfold ending. destruct (te_event e) as [| | | | | |st code| | | | | |] eqn:E; try done.
  case_bool_decide as Hid; [|done]. intros [= <-]. split_and!; [done..|]. destruct st; cbn; set_solver.
Qed.

(** The terminal events are the ends of the operation and its readers' reports. *)
Lemma terminal_events_ends id s : Forall own (om_events s) ->
  endings id s = omap (ending id) (terminal_events id s) /\
  Forall (fun e => reader_report e /\ ending id e = None \/ exists st code, te_event e = Ended st code /\ ending id e = Some (st, code))
    (terminal_events id s).
Proof.
  unfold endings, terminal_events. induction 1 as [|e es He _ [IH1 IH2]]; [by split|].
  rewrite filter_cons. case_decide as Hd.
  - destruct Hd as [Hid Ht]. split; [cbn; by rewrite IH1|]. constructor; [|done].
    destruct (terminal_event_cases id e He Hid Ht) as [[error Er]|Hr]; [left|by right].
    split; [by exists error|]. unfold ending. by rewrite Er.
  - split; [|done]. cbn. rewrite IH1. destruct (ending id e) as [x|] eqn:Ex; [|done].
    destruct Hd. by destruct (ending_terminal _ _ _ Ex) as (? & _ & ?).
Qed.

Lemma no_end id s : op_ok s -> endings id s = [] -> Forall reader_report (terminal_events id s).
Proof.
  intros Hk He. destruct (terminal_events_ends id s (oo_own _ Hk)) as [E Hall]. rewrite E in He. clear E.
  induction Hall as [|e es Hx _ IH]; [constructor|]. destruct Hx as [[Hr Hn]|(st & code & _ & Hs)].
  - constructor; [done|]. apply IH. cbn in He. by rewrite Hn in He.
  - cbn in He. by rewrite Hs in He.
Qed.

Lemma one_end id s st code : op_ok s -> endings id s = [(st, code)] ->
  exists before e after, terminal_events id s = before ++ e :: after /\ te_event e = Ended st code /\
    Forall reader_report (before ++ after).
Proof.
  intros Hk He. destruct (terminal_events_ends id s (oo_own _ Hk)) as [E Hall]. rewrite E in He. clear E.
  induction Hall as [|e es Hx Hes IH]; [done|]. cbn in He. destruct Hx as [[Hr Hn]|(st' & code' & Hx & Hs)].
  - rewrite Hn in He. destruct (IH He) as (b & y & a & -> & Hy & Hb). exists (e :: b), y, a. split_and!; [done..|].
    by constructor.
  - rewrite Hs in He. injection He as -> -> He. exists [], e, es. split_and!; [done..|]. cbn. clear -He Hes.
    induction Hes as [|y ys [[Hr Hn]|(st' & code' & _ & Hs)] _ IH]; [constructor| |cbn in He; by rewrite Hs in He].
    constructor; [done|]. apply IH. cbn in He. by rewrite Hn in He.
Qed.

(** C38: an operation that has ended never changes again, whatever arrives late: every
    column of its row stands but the process number, which a start that was under way may
    still write. One event records its end and agrees with the row on state and failure
    code; every other terminal event the operation has is the report of a failing reader
    of its output, which is an [operation.failed] too and may come before the end or even
    after it. One whose cancellation has begun never ends otherwise than CANCELLED. *)
Theorem operation_final s s' id r : op_ok s -> rtc op_step s s' -> get_op id s = Some r ->
  exists r', get_op id s' = Some r' /\
    (terminal (op_st r) = true -> r' = set_pid (op_pid r') r /\
       exists before e after, terminal_events id s' = before ++ e :: after /\
         te_event e = Ended (op_st r) (op_failure_code r) /\ Forall reader_report (before ++ after)) /\
    (op_st r = CANCELING ->
       (op_st r' = CANCELING /\ Forall reader_report (terminal_events id s')) \/
       (op_st r' = CANCELLED /\ exists before e after, terminal_events id s' = before ++ e :: after /\
          te_event e = Ended CANCELLED (op_failure_code r') /\ Forall reader_report (before ++ after))).
Proof.
  intros Hok Hs Hr. pose proof (op_steps_next _ _ Hs) as [Hrows _ Hk]. specialize (Hk Hok).
  destruct (Hrows id r Hr) as (r' & Hr' & Hn). exists r'. pose proof (oo_endings _ Hk id) as He. rewrite Hr' in He.
  split; [done|]. split.
  - intros Ht. pose proof (rn_terminal _ _ Hn Ht) as E. split; [done|]. apply one_end; [done|].
    rewrite He, E. cbn. by rewrite Ht.
  - intros Hc. destruct (rn_canceling _ _ Hn Hc) as [E|E]; rewrite E in He; [left|right]; (split; [done|]).
    + by apply no_end.
    + by apply one_end.
Qed.

(** ** The event stream *)

Lemma numbered_app (es es' : list task_event) : numbered (es ++ es') = numbered es ++ imap (fun i e => (S (length es + i)%nat, e)) es'.
Proof. unfold numbered. by rewrite imap_app. Qed.

Lemma numbered_bounds es ne : ne ∈ numbered es -> (0 < ne.1 <= length es)%nat.
Proof.
  unfold numbered. intros (i & Hi)%list_elem_of_lookup_1. rewrite list_lookup_imap in Hi.
  apply fmap_Some in Hi as (e & He & ->). apply lookup_lt_Some in He. cbn. lia.
Qed.

Lemma numbered_tail (es es' : list task_event) ne : ne ∈ imap (fun i e => (S (length es + i)%nat, e)) es' -> (length es < ne.1)%nat.
Proof.
  intros (i & Hi)%list_elem_of_lookup_1. rewrite list_lookup_imap in Hi. apply fmap_Some in Hi as (e & He & ->). cbn. lia.
Qed.

Lemma filter_ext_in {A} (P Q : A -> Prop) `{!forall x, Decision (P x)} `{!forall x, Decision (Q x)} (l : list A) :
  (forall x, x ∈ l -> P x <-> Q x) -> filter P l = filter Q l.
Proof.
  induction l as [|x l IH]; intros Hl; [done|]. rewrite !filter_cons.
  assert (Hx : P x <-> Q x) by (apply Hl; left). rewrite IH by (intros y Hy; apply Hl; by right).
  destruct (decide (P x)), (decide (Q x)); tauto.
Qed.

Lemma filter_none {A} (P : A -> Prop) `{!forall x, Decision (P x)} (l : list A) :
  (forall x, x ∈ l -> ~ P x) -> filter P l = [].
Proof.
  induction l as [|x l IH]; intros Hl; [done|]. rewrite filter_cons, decide_False by (apply Hl; left).
  apply IH. intros y Hy. apply Hl. by right.
Qed.

(** A reader that goes on from the last number it has seen gets exactly the events
    appended since, whatever happened in between: none twice, none missing. *)
Theorem events_resume s s' t from last : rtc op_step s s' ->
  (from <= last <= length (om_events s))%nat ->
  (forall ne, ne ∈ events_since t from s -> (ne.1 <= last)%nat) ->
  events_since t from s' = events_since t from s ++ events_since t last s'.
Proof.
  intros Hs [Hfl Hle] Hall. destruct (on_events _ _ (op_steps_next _ _ Hs)) as [es Ees].
  unfold events_since in *. rewrite Ees, numbered_app, !filter_app.
  rewrite (filter_none (fun ne => te_task_id ne.2 = t /\ (last < ne.1)%nat) (numbered (om_events s))).
  - cbn [app]. f_equal. apply filter_ext_in. intros ne Hne%numbered_tail. split; intros [? _]; (split; [done|lia]).
  - intros ne Hne [Ht Hgt]. specialize (Hall ne). rewrite list_elem_of_filter in Hall.
    assert (ne.1 <= last)%nat by (apply Hall; split; [split; [done|lia]|done]). lia.
Qed.

(** ** Sweeps and recovery row by row *)

Lemma fold_rows {B} (step : op_mgr * B -> string * op_row -> op_mgr * B) (h : string -> op_row -> op_row) rows acc :
  (forall acc id r, get_op id acc.1 = Some r ->
     forall j, get_op j (step acc (id, r)).1 = if decide (id = j) then Some (h id r) else get_op j acc.1) ->
  NoDup rows.*1 -> (forall id r, (id, r) ∈ rows -> get_op id acc.1 = Some r) ->
  forall j, get_op j (foldl step acc rows).1 =
    match dget rows j with Some r => Some (h j r) | None => get_op j acc.1 end.
Proof.
  intros Hstep. revert acc. induction rows as [|[id r] rows IH]; intros acc Hnd Hin j; [done|].
  cbn in Hnd. apply NoDup_cons in Hnd as [Hni Hnd]. cbn [foldl].
  assert (Hr : get_op id acc.1 = Some r) by (apply Hin; left).
  rewrite IH; [|done|].
  - cbn [dget]. rewrite (Hstep acc id r Hr j). destruct (decide (id = j)) as [<-|Hne]; [|done].
    destruct (dget rows id) eqn:E; [|done]. exfalso. apply Hni. apply dget_in in E.
    apply list_elem_of_fmap. by exists (id, o).
  - intros i x Hx. rewrite (Hstep acc id r Hr i). rewrite decide_False; [apply Hin; by right|].
    intros <-. apply Hni. apply list_elem_of_fmap. by exists (id, x).
Qed.

Lemma rows_in_get f s id : op_ok s ->
  dget (rows_in f s) id = match get_op id s with Some r => if f (op_st r) then Some r else None | None => None end.
Proof.
  intros [_ Hk _ _]. unfold rows_in, get_op. induction (om_ops s) as [|[k r] d IH]; [done|].
  unfold dwf in Hk. cbn in Hk. apply NoDup_cons in Hk as [Hni Hk]. specialize (IH Hk).
  rewrite filter_cons. cbn [dget snd]. destruct (decide (f (op_st r) = true)) as [Hf|Hf].
  - cbn [dget]. destruct (decide (k = id)) as [->|Hne]; [by rewrite Hf|exact IH].
  - destruct (decide (k = id)) as [->|Hne]; [|exact IH]. rewrite IH.
    destruct (dget d id) eqn:E; [|by destruct (f (op_st r))].
    exfalso. apply Hni. apply dget_in in E. apply list_elem_of_fmap. by exists (id, o).
Qed.

Lemma rows_in_nodup f s : op_ok s -> NoDup (rows_in f s).*1.
Proof.
  intros [_ Hk _ _]. eapply sublist_NoDup; [exact Hk|]. apply fmap_sublist, sublist_filter.
Qed.

Lemma rows_in_elem f s id r : op_ok s -> (id, r) ∈ rows_in f s -> get_op id s = Some r.
Proof. intros [_ Hk _ _] [_ Hin]%list_elem_of_filter. by apply dget_Some. Qed.

Lemma get_emit j t i a e now s : get_op j (emit t i a e now s) = get_op j s.
Proof. done. Qed.

Lemma op_transition_get id st e now s r j : get_op id s = Some r ->
  get_op j (op_transition id st e now s) =
  if decide (id = j) then Some (if terminal (op_st r) || (bool_decide (op_st r = CANCELING) && negb (bool_decide (st = CANCELLED)))
                                then r else set_op_state st now r)
  else get_op j s.
Proof.
  intros Hr. unfold op_transition. rewrite Hr. destruct (terminal (op_st r) || _).
  - case_decide; [by subst j|done].
  - destruct e; rewrite ?get_emit, get_update; (case_decide; [subst j; by rewrite Hr|done]).
Qed.

Lemma write_terminal_get id st code ref now s r j : get_op id s = Some r ->
  get_op j (write_terminal id st code ref now s) =
  if decide (id = j) then Some (if terminal (op_st r) || (bool_decide (op_st r = CANCELING) && negb (bool_decide (st = CANCELLED)))
                                then r else set_ended st code ref now r)
  else get_op j s.
Proof.
  intros Hr. unfold write_terminal. rewrite Hr. destruct (terminal (op_st r)); [case_decide; [by subst j|done]|].
  cbn [orb]. destruct (_ && _); [case_decide; [by subst j|done]|].
  rewrite get_emit, get_update. case_decide; [subst j; by rewrite Hr|done].
Qed.

(** Case analysis on the remaining tests of a state. *)
Ltac decide_op :=
  repeat match goal with
  | |- context [bool_decide (?a = ?b)] => first [rewrite (bool_decide_eq_true_2 (a = b)) by done | rewrite (bool_decide_eq_false_2 (a = b)) by done]
  end; cbn [negb andb orb];
  repeat match goal with
  | |- context [if ?x then _ else _] => destruct x
  | |- context [match ?x with Some _ => _ | None => _ end] => destruct x
  end; try done.

Definition refuses (st : op_state) (r : op_row) : bool :=
  terminal (op_st r) || (bool_decide (op_st r = CANCELING) && negb (bool_decide (st = CANCELLED))).

Definition moved_op (st : op_state) (now : datetime) (r : op_row) : op_row := if refuses st r then r else set_op_state st now r.

(** What a sweep makes of a row. *)
Definition swept_row (stale_after_s : float) (now : datetime) (r : op_row) : op_row :=
  let stale := is_stale stale_after_s now r in
  if stale && negb (bool_decide (op_st r = DEGRADED)) then moved_op DEGRADED now r
  else if negb stale && bool_decide (op_st r = DEGRADED) then moved_op RUNNING now r
  else r.

Lemma sweep_row stale now s id : op_ok s -> get_op id (sweep_liveness stale now s).1 = swept_row stale now <$> get_op id s.
Proof.
  intros Hok. unfold sweep_liveness. rewrite (fold_rows _ (fun _ => swept_row stale now)).
  - rewrite rows_in_get by done. destruct (get_op id s) as [r|] eqn:E; cbn [fst]; [|done].
    destruct (sweepable (op_st r)) eqn:Es; [done|]. rewrite E. cbn. f_equal. unfold swept_row, moved_op, refuses.
    destruct (op_st r) eqn:Er; try done; cbn [terminal orb]; decide_op.
  - intros [s1 [d x]] i r Hr j. cbn [fst] in *. unfold sweep_op, swept_row. cbn [fst snd].
    destruct (_ && _); [by apply op_transition_get|]. destruct (_ && _); [by apply op_transition_get|].
    cbn. case_decide as Hd; [by subst j|done].
  - by apply rows_in_nodup.
  - intros i r Hin. by apply (rows_in_elem sweepable).
Qed.

(** Marking an operation DEGRADED renews its heartbeat: the next sweep within the limit
    finds it fresh and calls it RUNNING again, though nothing was heard of it. *)
Theorem sweep_revives stale now now' s id r : op_ok s -> get_op id s = Some r ->
  op_st r ∈ [QUEUED; ADMITTED; RUNNING] -> is_stale stale now r = true ->
  fltb stale (fsub (timestamp now') (timestamp now)) = false ->
  let s1 := (sweep_liveness stale now s).1 in
  get_op id s1 = Some (set_op_state DEGRADED now r) /\
  op_st <$> get_op id (sweep_liveness stale now' s1).1 = Some RUNNING.
Proof.
  intros Hok Hr Hst Hs Hf. cbv zeta. rewrite !sweep_row by first [done|by apply (on_ok _ _ (sweep_liveness_next stale now s))].
  rewrite Hr. cbn [fmap option_fmap option_map].
  assert (E : swept_row stale now r = set_op_state DEGRADED now r).
  { unfold swept_row, moved_op, refuses. rewrite Hs. revert Hst.
    intros [Hx|[Hx|[Hx|?%elem_of_nil]%elem_of_cons]%elem_of_cons]%elem_of_cons; try done; by rewrite Hx. }
  rewrite E. split; [done|]. unfold swept_row, is_stale. cbn [op_heartbeat_at op_st set_op_state]. by rewrite Hf.
Qed.

(** ** Recovery *)

Definition ended (st : op_state) (code ref : string) (now : datetime) (r : op_row) : op_row :=
  if refuses st r then r else set_ended st code ref now r.

(** What recovery makes of a row. *)
Definition recovered_row (w : os) (now : datetime) (r : op_row) : op_row :=
  match read_exitcode w (op_exitcode_path r) with
  | Some rc => ended (exit_state rc) (exit_code_text rc) "" now r
  | None => if (0 <? op_pid r) && pid_alive w (op_pid r) then moved_op DEGRADED now r
            else ended LOST "restart_unverifiable" "" now r
  end.

Lemma recover_row w now s id : op_ok s ->
  get_op id (recover_on_boot w now s).1 =
  (fun r => if recovered (op_st r) then recovered_row w now r else r) <$> get_op id s.
Proof.
  intros Hok. unfold recover_on_boot. rewrite (fold_rows _ (fun _ => recovered_row w now)).
  - rewrite rows_in_get by done. destruct (get_op id s) as [r|] eqn:E; cbn [fst fmap option_fmap option_map]; [|done].
    by destruct (recovered (op_st r)).
  - intros [s1 [[a t] l]] i r Hr j. cbn [fst] in *. unfold recover_op, recovered_row.
    destruct (read_exitcode w _); [by apply write_terminal_get|].
    destruct (_ && _); [|by apply write_terminal_get]. exact (op_transition_get _ _ _ _ _ r j Hr).
  - by apply rows_in_nodup.
  - intros i r Hin. by apply (rows_in_elem recovered).
Qed.

Lemma write_terminal_coros id st code ref now s : om_coros (write_terminal id st code ref now s) = om_coros s.
Proof.
  unfold write_terminal, emit, update_op. destruct (get_op id s); [|done]. destruct (terminal _); [done|]. by destruct (_ && _).
Qed.

Lemma op_transition_coros id st e now s : om_coros (op_transition id st e now s) = om_coros s.
Proof.
  unfold op_transition, emit, update_op. destruct (get_op id s); [|done]. destruct (terminal _ || _); [done|]. by destruct e.
Qed.

Lemma recover_coros w now acc row : om_coros (recover_op w now acc row).1 = om_coros acc.1 ++
  match read_exitcode w (op_exitcode_path row.2) with
  | Some _ => []
  | None => if (0 <? op_pid row.2) && pid_alive w (op_pid row.2)
            then [Watching row.1 (op_pid row.2) (op_exitcode_path row.2)] else []
  end.
Proof.
  destruct acc as [s1 [[a t] l]], row as [id r]. unfold recover_op. cbn [fst snd].
  destruct (read_exitcode w _); [unfold write_exit; cbn [fst]; by rewrite write_terminal_coros, app_nil_r|].
  destruct (_ && _); cbn [fst]; [|by rewrite write_terminal_coros, app_nil_r].
  unfold add_coro. cbn [om_coros with_coros]. by rewrite op_transition_coros.
Qed.

Lemma recover_watches w now rows acc c : c ∈ om_coros (foldl (recover_op w now) acc rows).1 <->
  c ∈ om_coros acc.1 \/ exists id r, (id, r) ∈ rows /\ read_exitcode w (op_exitcode_path r) = None /\
    (0 <? op_pid r) && pid_alive w (op_pid r) = true /\ c = Watching id (op_pid r) (op_exitcode_path r).
Proof.
  revert acc. induction rows as [|[id r] rows IH]; intros acc.
  - cbn. split; [by left|]. intros [?|(? & ? & ?%elem_of_nil & _)]; done.
  - cbn [foldl]. rewrite IH, recover_coros, elem_of_app. cbn [fst snd]. split.
    + intros [[Hc|Hc]|(i & x & Hin & Hx)]; [by left| |right; exists i, x; split; [by right|done]].
      destruct (read_exitcode w (op_exitcode_path r)) eqn:E; [by apply elem_of_nil in Hc|].
      destruct (_ && _) eqn:Ea; [|by apply elem_of_nil in Hc]. apply list_elem_of_singleton in Hc.
      right. exists id, r. split; [left|done].
    + intros [Hc|(i & x & [[= -> ->]|Hin]%elem_of_cons & E & Ea & ->)]; [by left; left| |].
      * left. right. rewrite E, Ea. by apply list_elem_of_singleton.
      * right. by exists i, x.
Qed.

(** A boot accounts for every operation the last run left open, whatever the
    operating system answers: one with an exit code ends as that code says, one whose
    process still lives is DEGRADED and watched, any other is LOST. One whose
    cancellation was under way is the exception: it stays CANCELING. *)
Theorem boot_accounts w now s id r : op_ok s -> get_op id s = Some r ->
  let s' := (recover_on_boot w now s).1 in
  exists r', get_op id s' = Some r' /\
    (terminal (op_st r) = true -> r' = r) /\
    (op_st r = CANCELING -> r' = r) /\
    (terminal (op_st r) = false -> op_st r <> CANCELING ->
      match read_exitcode w (op_exitcode_path r) with
      | Some rc => op_st r' = exit_state rc /\ op_failure_code r' = exit_code_text rc
      | None => if (0 <? op_pid r) && pid_alive w (op_pid r)
                then op_st r' = DEGRADED /\ Watching id (op_pid r) (op_exitcode_path r) ∈ om_coros s'
                else op_st r' = LOST
      end).
Proof.
  intros Hok Hr. cbv zeta. rewrite recover_row, Hr by done. eexists. split; [reflexivity|]. split_and!.
  - intros Ht. by destruct (op_st r).
  - intros Hc. rewrite Hc. cbn [recovered sweepable orb]. rewrite bool_decide_eq_true_2 by done.
    assert (Hf : forall st, st <> CANCELLED -> refuses st r = true).
    { intros st Hne. unfold refuses. rewrite Hc, bool_decide_eq_true_2, bool_decide_eq_false_2 by done. done. }
    unfold recovered_row, ended, moved_op. destruct (read_exitcode w (op_exitcode_path r)) as [rc|].
    + rewrite Hf; [done|]. unfold exit_state. by destruct (rc =? 0).
    + rewrite !Hf by done. by destruct (_ && _).
  - intros Ht Hc. assert (Hs : recovered (op_st r) = true) by (by destruct (op_st r)). rewrite Hs.
    assert (Hf : forall st, refuses st r = false).
    { intros st. unfold refuses. rewrite Ht, bool_decide_eq_false_2 by done. done. }
    unfold recovered_row, ended, moved_op.
    destruct (read_exitcode w (op_exitcode_path r)) eqn:E; [by rewrite Hf|].
    destruct ((0 <? op_pid r) && pid_alive w (op_pid r)) eqn:Ea; rewrite Hf; [|done]. split; [done|].
    unfold recover_on_boot. apply recover_watches. right. exists id, r. split; [|done].
    apply list_elem_of_filter. split; [done|]. by apply dget_in.
Qed.

(** ** Cancellation across a restart *)

(** The coroutines that end an operation as CANCELLED. *)
Definition cancels (id : string) (c : coro) : bool :=
  match c with Stopping i _ | Grace i _ => String.eqb i id | _ => false end.

Definition state_is (id : string) (st : op_state) (s : op_mgr) : Prop := op_st <$> get_op id s = Some st.

(** Nothing is left that would end the cancellation of [id]. *)
Record stuck (id : string) (s : op_mgr) : Prop := {
  sk_row : state_is id CANCELING s;
  sk_action : om_actions s !! id = None;
  sk_coros : Forall (fun c => cancels id c = false) (om_coros s);
}.

Section Stuck.
Context (id : string).
Implicit Types (s : op_mgr).

Definition stuck_next s s' : Prop := stuck id s -> stuck id s'.

#[local] Instance stuck_next_preorder : PreOrder stuck_next.
Proof. split; [intros s Hs; exact Hs|intros a b c Hab Hbc Ha; apply Hbc, Hab, Ha]. Qed.

Lemma stuck_memory s s' : om_ops s' = om_ops s -> om_actions s' = om_actions s -> om_coros s' = om_coros s -> stuck_next s s'.
Proof. intros E1 E2 E3 [Hr Ha Hc]. split; [unfold state_is, get_op in *; by rewrite E1|by rewrite E2|by rewrite E3]. Qed.

Lemma stuck_coro c s : cancels id c = false -> stuck_next s (add_coro c s).
Proof. intros Hc [Hr Ha Hf]. split; [exact Hr|exact Ha|]. apply Forall_app. split; [exact Hf|]. by constructor. Qed.

Lemma stuck_taken l1 l2 c s : om_coros s = l1 ++ c :: l2 -> stuck id s ->
  cancels id c = false /\ stuck id (with_coros (l1 ++ l2) s).
Proof.
  intros E [Hr Ha Hf]. rewrite E in Hf. apply Forall_app in Hf as [H1 H2]. apply Forall_cons in H2 as [Hc H2].
  split; [done|]. split; [exact Hr|exact Ha|]. by apply Forall_app.
Qed.

Lemma stuck_update j f s : (j = id -> forall r, op_st (f r) = op_st r) -> stuck_next s (update_op j f s).
Proof.
  intros Hf [Hr Ha Hc]. split; [|by unfold update_op; destruct (get_op j s)..].
  unfold state_is. rewrite get_update. case_decide as Hd; [|exact Hr]. unfold state_is in Hr.
  destruct (get_op id s) as [r|]; [|done]. cbn in *. by rewrite (Hf Hd).
Qed.

Lemma stuck_transition j st e now s : terminal st = false -> stuck_next s (op_transition j st e now s).
Proof.
  intros Hst Hk. pose proof Hk as [Hr Ha Hc]. unfold op_transition. destruct (get_op j s) as [r|] eqn:E; [|done].
  destruct (terminal (op_st r) || _) eqn:Eg; [done|].
  assert (Hne : j <> id).
  { intros ->. unfold state_is in Hr. rewrite E in Hr. injection Hr as Hr. rewrite Hr in Eg. revert Eg. cbn.
    rewrite bool_decide_eq_true_2 by done. rewrite bool_decide_eq_false_2 by (by intros ->). done. }
  assert (Hu : stuck id (update_op j (set_op_state st now) s)) by (apply (stuck_update j _ s); [intros Heq; by destruct (Hne Heq)|exact Hk]).
  destruct e; [|exact Hu]. eapply stuck_memory; [..|exact Hu]; done.
Qed.

Lemma stuck_terminal j st code ref now s : j <> id \/ st <> CANCELLED -> stuck_next s (write_terminal j st code ref now s).
Proof.
  intros Hj Hk. pose proof Hk as [Hr Ha Hc]. unfold write_terminal. destruct (get_op j s) as [r|] eqn:E; [|done].
  destruct (terminal (op_st r)); [done|]. destruct (_ && _) eqn:Eg; [done|].
  assert (Hne : j <> id).
  { intros ->. unfold state_is in Hr. rewrite E in Hr. injection Hr as Hr. rewrite Hr in Eg. revert Eg.
    rewrite bool_decide_eq_true_2 by done. rewrite bool_decide_eq_false_2 by (destruct Hj; done). done. }
  eapply (stuck_memory (update_op j (set_ended st code ref now) s)); [done..|]. apply (stuck_update j _ s); [intros Heq; by destruct (Hne Heq)|exact Hk].
Qed.

Lemma stuck_exit j rc now s : stuck_next s (write_exit j rc now s).
Proof. apply stuck_terminal. right. unfold exit_state. by destruct (rc =? 0). Qed.

Lemma stuck_touch j now s : stuck_next s (touch j now s).
Proof.
  unfold touch. destruct (get_op j s) as [r|]; [|reflexivity]. destruct (terminal _); [reflexivity|].
  by apply stuck_update.
Qed.

Lemma stuck_insert j r s : dhas (om_ops s) j = false -> stuck_next s (with_ops (dset (om_ops s) j r) s).
Proof.
  intros Hn [Hr Ha Hc]. split; [|done..]. unfold state_is, get_op in *. cbn. apply dhas_false in Hn.
  rewrite dget_dset_ne; [done|]. intros ->. by rewrite Hn in Hr.
Qed.

Lemma stuck_foldl {A B} (f : op_mgr * B -> A -> op_mgr * B) l acc :
  (forall x acc, stuck_next acc.1 (f acc x).1) -> stuck_next acc.1 (foldl f acc l).1.
Proof. intros Hf. revert acc. induction l as [|x l IH]; intros acc; [reflexivity|]. cbn. etrans; [apply (Hf x)|apply IH]. Qed.

Lemma stuck_cancel j reason running now s : j <> id -> stuck_next s (cancel_begin j reason running now s).
Proof.
  intros Hne. unfold cancel_begin. destruct (get_op j s) as [r|]; [|reflexivity].
  destruct (terminal (op_st r)); [reflexivity|]. set (s1 := emit _ _ _ _ _ _).
  assert (H1 : stuck_next s s1) by (etrans; [apply (stuck_update j (set_canceling reason now)); intros Heq; by destruct (Hne Heq)|by apply stuck_memory]).
  assert (Hc : forall x, cancels id (Grace j x) = false /\ cancels id (Stopping j x) = false)
    by (intros x; cbn; by destruct (String.eqb_spec j id)).
  etrans; [exact H1|]. destruct (om_actions s1 !! j) as [goal|].
  - etrans; [by apply (stuck_coro (Grace j reason)), Hc|by apply stuck_memory].
  - destruct (om_procs s1 !! j) as [pid|]; [|apply stuck_terminal; by left]. destruct running.
    + etrans; [by apply (stuck_memory s1 (with_signal pid (with_procs (delete j (om_procs s1)) s1)))|by apply stuck_coro, Hc].
    + etrans; [by apply (stuck_memory s1 (with_procs (delete j (om_procs s1)) s1))|apply stuck_terminal; by left].
Qed.

Lemma stuck_emit t i a e now s : stuck_next s (emit t i a e now s).
Proof. by apply stuck_memory. Qed.

Lemma stuck_start j t a k argv b g p dir rev now s : stuck_next s (start_begin j t a k argv b g p dir rev now s).
Proof.
  unfold start_begin. destruct (dhas (om_ops s) j) eqn:E; [reflexivity|].
  etrans; [by apply stuck_insert|]. etrans; [apply stuck_emit|by apply stuck_coro].
Qed.

Lemma stuck_action j t a ac ty g rev sent now s : stuck_next s (start_action j t a ac ty g rev sent now s).
Proof.
  unfold start_action. destruct (dhas (om_ops s) j) eqn:E; [reflexivity|]. set (s1 := emit _ _ _ _ _ _).
  assert (H1 : stuck_next s s1) by (etrans; [by apply stuck_insert|apply stuck_emit]).
  destruct sent; [|exact H1]. intros Hk. apply stuck_transition; [done|]. apply stuck_transition; [done|].
  assert (Hne : j <> id).
  { intros ->. destruct Hk as [Hr _ _]. apply dhas_false in E. unfold state_is, get_op in Hr. by rewrite E in Hr. }
  destruct (H1 Hk) as [Hr Ha Hc]. split; [done| |done]. cbn. by rewrite lookup_insert_ne.
Qed.

Lemma stuck_result j status values now s : is_Some (om_actions s !! j) -> stuck_next s (action_result j status values now s).
Proof.
  intros [g Hg] Hk. assert (Hne : j <> id) by (intros ->; destruct Hk as [_ Ha _]; congruence).
  unfold action_result. destruct (if status =? STATUS_SUCCEEDED then _ else _) as [st code].
  apply stuck_terminal; [by left|]. destruct Hk as [Hr Ha Hc]. split; [done| |done]. cbn. by rewrite lookup_delete_ne.
Qed.

Lemma stuck_progress j progress now s : stuck_next s (report_progress j progress now s).
Proof.
  unfold report_progress. destruct (get_op j s) as [r|]; [|reflexivity]. destruct (terminal _); [reflexivity|].
  etrans; [apply (stuck_touch j now)|]. etrans; [by apply (stuck_update j (set_progress progress))|apply stuck_emit].
Qed.

Lemma stuck_end w j rc now s : stuck_next s (drive_end w j rc now s).
Proof.
  unfold drive_end. etrans; [by apply (stuck_memory s (with_procs (delete j (om_procs s)) s))|].
  destruct (get_op j _); [|reflexivity]. destruct (bool_decide _); [reflexivity|apply stuck_exit].
Qed.

Lemma stuck_watch w j path now s : stuck_next s (watch_end w j path now s).
Proof.
  unfold watch_end. destruct (get_op j s); [|reflexivity]. destruct (_ || _); [reflexivity|].
  destruct (read_exitcode w path); [apply stuck_exit|apply stuck_terminal; by right].
Qed.

Lemma stuck_sweep stale now s : stuck_next s (sweep_liveness stale now s).1.
Proof.
  apply (stuck_foldl _ _ (s, _)). intros row [s1 [d r]]. unfold sweep_op.
  destruct (_ && _); [by apply stuck_transition|]. destruct (_ && _); [by apply stuck_transition|reflexivity].
Qed.

Lemma stuck_recover w now s : stuck_next s (recover_on_boot w now s).1.
Proof.
  apply (stuck_foldl _ _ (s, _)). intros [j r] [s1 [[a t] l]]. unfold recover_op.
  destruct (read_exitcode w _); [apply stuck_exit|].
  destruct (_ && _); [|apply stuck_terminal; by right]. cbn [fst].
  etrans; [|by apply stuck_coro]. by apply stuck_transition.
Qed.

Lemma stuck_spawned j t a argv pid now s : stuck_next s (start_spawned j t a argv pid now s).
Proof.
  unfold start_spawned. set (s1 := with_procs _ s).
  etrans; [by apply (stuck_memory s s1)|]. etrans; [by apply (stuck_transition j ADMITTED (Some (AdmittedProcess pid (take 5 argv))) now s1)|].
  etrans; [|by apply stuck_coro]. by apply stuck_update.
Qed.

Lemma stuck_step s s' : op_step s s' -> (forall reason running now, s' <> cancel_begin id reason running now s) -> stuck_next s s'.
Proof.
  intros Hs Hn Hk. destruct Hs as [j t a k argv b g p dir rev now s Hj|l1 l2 j t a argv pid now s E|l1 l2 j t a argv s E
    |l1 l2 j t a now s E|l1 l2 j t a line now s E|l1 l2 j t a error now s E|l1 l2 j t a s E|w l1 l2 j rc now s E
    |j t a ac ty g rev sent now s Hj|j status values now s Ha|j progress now s|j reason running now s
    |l1 l2 j reason now s E|l1 l2 j reason now s E|stale now s|w now s|w l1 l2 j pid path now s E Hw|t ty now s|s];
    try (destruct (stuck_taken l1 l2 _ s E Hk) as [Hc Hk']; revert Hk'; match goal with |- stuck id ?x -> stuck id ?y => change (stuck_next x y) end).
  - by apply stuck_start.
  - apply stuck_spawned.
  - reflexivity.
  - etrans; [|by apply stuck_coro]. by apply stuck_transition.
  - etrans; [|by apply stuck_coro]. etrans; [|apply stuck_emit]. apply stuck_touch.
  - etrans; [|by apply stuck_coro]. apply stuck_emit.
  - by apply stuck_coro.
  - apply stuck_end.
  - by apply stuck_action.
  - by apply stuck_result.
  - by apply stuck_progress.
  - apply stuck_cancel; [|done]. intros ->. by apply (Hn reason running now).
  - apply stuck_terminal. left. cbn in Hc. by destruct (String.eqb_spec j id).
  - apply stuck_terminal. left. cbn in Hc. by destruct (String.eqb_spec j id).
  - by apply stuck_sweep.
  - by apply stuck_recover.
  - apply stuck_watch.
  - by apply stuck_emit.
  - destruct Hk as [Hr _ _]. split; [done|apply lookup_empty|constructor].
Qed.
End Stuck.

(** An operation whose cancellation was under way when the agent daemon stopped is
    never accounted for: no recovery, sweep, watcher or late result ends it; only another
    [cancel] of it does. *)
Theorem canceling_survives_restart id s s' : state_is id CANCELING s ->
  rtc (fun a b => op_step a b /\ forall reason running now, b <> cancel_begin id reason running now a) (restart s) s' ->
  state_is id CANCELING s'.
Proof.
  intros Hc Hs. assert (Hk : stuck id (restart s)) by (split; [done|apply lookup_empty|constructor]).
  apply sk_row. revert Hk. induction Hs as [|a b c [Hab Hn] _ IH]; [done|]. intros Hk. apply IH.
  by apply (stuck_step id a b).
Qed.

(** A cancellation that finds neither a process nor an action of this manager is over at
    once and signals nothing: so for every operation a restarted daemon found again, and
    for one whose process is being spawned. *)
Theorem unattached_cancel id reason running now s r : get_op id s = Some r -> terminal (op_st r) = false ->
  om_actions s !! id = None -> om_procs s !! id = None ->
  let s' := cancel_begin id reason running now s in
  state_is id CANCELLED s' /\ om_signals s' = om_signals s /\ om_goals s' = om_goals s /\ om_coros s' = om_coros s.
Proof.
  intros Hr Ht Ha Hp. cbv zeta. unfold cancel_begin. rewrite Hr, Ht. set (s1 := emit _ _ _ _ _ _).
  assert (E1 : om_actions s1 = om_actions s /\ om_procs s1 = om_procs s /\ om_signals s1 = om_signals s /\
    om_goals s1 = om_goals s /\ om_coros s1 = om_coros s) by (unfold s1, emit, update_op; by rewrite Hr).
  destruct E1 as (-> & -> & E3 & E4 & E5). rewrite Ha, Hp.
  assert (Hs1 : get_op id s1 = Some (set_canceling reason now r))
    by (unfold s1; rewrite get_emit, get_update, decide_True, Hr by done; done).
  split; [|rewrite <- E3, <- E4, <- E5; unfold write_terminal, emit, update_op; rewrite Hs1; done].
  unfold state_is. rewrite (write_terminal_get _ _ _ _ _ _ _ id Hs1), decide_True by done. cbn. 
  rewrite bool_decide_eq_true_2 by done. done.
Qed.

(** ** What success rests on *)

Section Success.
Context (id : string).
Implicit Types (s : op_mgr).

(** [id] is not SUCCEEDED after what it was not before. *)
Definition unsung s s' : Prop := state_is id SUCCEEDED s' -> state_is id SUCCEEDED s.

#[local] Instance unsung_preorder : PreOrder unsung.
Proof. split; [intros s Hs; exact Hs|intros a b c Hab Hbc Hc; apply Hab, Hbc, Hc]. Qed.

Lemma unsung_ops s s' : om_ops s' = om_ops s -> unsung s s'.
Proof. intros E. unfold unsung, state_is, get_op. by rewrite E. Qed.

Lemma unsung_update j f s : (forall r, op_st (f r) = SUCCEEDED -> op_st r = SUCCEEDED) -> unsung s (update_op j f s).
Proof.
  intros Hf. unfold unsung, state_is. rewrite get_update. case_decide; [|done].
  destruct (get_op id s) as [r|]; [|done]. cbn. intros [= Hr]. f_equal. by apply Hf.
Qed.

Lemma unsung_insert j r s : op_st r <> SUCCEEDED -> dhas (om_ops s) j = false -> unsung s (with_ops (dset (om_ops s) j r) s).
Proof.
  intros Hr Hn. unfold unsung, state_is, get_op. cbn. rewrite dget_dset. case_decide; [|done]. cbn. intros [= Hx]. done.
Qed.

Lemma unsung_transition j st e now s : st <> SUCCEEDED -> unsung s (op_transition j st e now s).
Proof.
  intros Hst. unfold unsung, state_is. destruct (get_op j s) as [r|] eqn:E; [|unfold op_transition; by rewrite E].
  rewrite (op_transition_get _ _ _ _ _ _ id E). case_decide as Hd; [|done]. subst j. rewrite E.
  destruct (_ || _); [done|]. cbn. intros [= Hx]. done.
Qed.

Lemma unsung_terminal j st code ref now s : st <> SUCCEEDED \/ j <> id -> unsung s (write_terminal j st code ref now s).
Proof.
  intros Hst. unfold unsung, state_is. destruct (get_op j s) as [r|] eqn:E; [|unfold write_terminal; by rewrite E].
  rewrite (write_terminal_get _ _ _ _ _ _ _ id E). case_decide as Hd; [|done]. subst j. rewrite E.
  destruct (_ || _); [done|]. cbn. intros [= Hx]. by destruct Hst.
Qed.

Lemma unsung_touch j now s : unsung s (touch j now s).
Proof.
  unfold touch. destruct (get_op j s); [|reflexivity]. destruct (terminal _); [reflexivity|]. by apply unsung_update.
Qed.

Lemma unsung_exit j rc now s : (j = id -> rc <> 0) -> unsung s (write_exit j rc now s).
Proof.
  intros Hrc. apply unsung_terminal. destruct (decide (j = id)) as [Hj|]; [left|by right]. unfold exit_state.
  destruct (rc =? 0) eqn:E; breflect; [|done]. by destruct (Hrc Hj).
Qed.

Lemma unsung_cancel j reason running now s : unsung s (cancel_begin j reason running now s).
Proof.
  unfold cancel_begin. destruct (get_op j s) as [r|]; [|reflexivity]. destruct (terminal _); [reflexivity|].
  set (s1 := emit _ _ _ _ _ _).
  assert (H1 : unsung s s1) by (etrans; [by apply (unsung_update j (set_canceling reason now))|by apply unsung_ops]).
  etrans; [exact H1|]. destruct (om_actions s1 !! j); [by apply unsung_ops|].
  destruct (om_procs s1 !! j) as [pid|]; [|apply unsung_terminal; by left]. destruct running; [by apply unsung_ops|].
  etrans; [by apply (unsung_ops s1 (with_procs (delete j (om_procs s1)) s1))|apply unsung_terminal; by left].
Qed.

Lemma unsung_spawned j t a argv pid now s : unsung s (start_spawned j t a argv pid now s).
Proof.
  unfold start_spawned. set (s1 := with_procs _ s). etrans; [by apply (unsung_ops s s1)|].
  etrans; [by apply (unsung_transition j ADMITTED (Some (AdmittedProcess pid (take 5 argv))) now s1)|].
  etrans; [|by apply unsung_ops]. by apply unsung_update.
Qed.

Lemma unsung_start j t a k argv b g p dir rev now s : unsung s (start_begin j t a k argv b g p dir rev now s).
Proof.
  unfold start_begin. destruct (dhas (om_ops s) j) eqn:E; [reflexivity|].
  set (r := Build_op_row _ _ _ _ _ _ _ _ _ _ _ _ _ _ _ _ _).
  etrans; [by apply (unsung_insert j r s)|by apply unsung_ops].
Qed.

Lemma unsung_action j t a ac ty g rev sent now s : unsung s (start_action j t a ac ty g rev sent now s).
Proof.
  unfold start_action. destruct (dhas (om_ops s) j) eqn:E; [reflexivity|].
  set (r := Build_op_row _ _ _ _ _ _ _ _ _ _ _ _ _ _ _ _ _). set (s1 := emit _ _ _ _ _ _).
  assert (H1 : unsung s s1) by (etrans; [by apply (unsung_insert j r s)|by apply unsung_ops]).
  destruct sent; [|exact H1]. etrans; [exact H1|].
  etrans; [by apply (unsung_ops s1 (with_actions (<[j:=g]> (om_actions s1)) s1))|].
  etrans; [|by apply unsung_transition]. by apply unsung_transition.
Qed.

Lemma unsung_progress j progress now s : unsung s (report_progress j progress now s).
Proof.
  unfold report_progress. destruct (get_op j s) as [r|]; [|reflexivity]. destruct (terminal _); [reflexivity|].
  etrans; [apply (unsung_touch j now)|]. etrans; [by apply (unsung_update j (set_progress progress))|by apply unsung_ops].
Qed.

Lemma unsung_sweep stale now s : op_ok s -> unsung s (sweep_liveness stale now s).1.
Proof.
  intros Hok. unfold unsung, state_is. rewrite sweep_row by done. destruct (get_op id s) as [r|]; [|done]. cbn.
  intros [= Hr]. f_equal. revert Hr. unfold swept_row, moved_op. by repeat case_match.
Qed.

Lemma recover_succeeds w now s r : op_ok s -> get_op id s = Some r -> op_st r <> SUCCEEDED ->
  state_is id SUCCEEDED (recover_on_boot w now s).1 -> read_exitcode w (op_exitcode_path r) = Some 0.
Proof.
  intros Hok Hr Hne. unfold state_is. rewrite recover_row, Hr by done. cbn. intros [= Hs]. revert Hs.
  destruct (recovered (op_st r)); [|done]. unfold recovered_row, ended, moved_op.
  destruct (read_exitcode w (op_exitcode_path r)) as [rc|].
  - destruct (refuses _ r); [done|]. cbn. unfold exit_state. destruct (rc =? 0) eqn:E; [|done]. breflect. by subst rc.
  - destruct (_ && _); destruct (refuses _ r); done.
Qed.

(** C39: an operation succeeds only where its process is known to have exited with 0, by
    the exit code file or, without one, by the process itself; or where the action server
    says so. *)
Theorem success_sound s s' r : op_ok s -> op_step s s' -> get_op id s = Some r -> op_st r <> SUCCEEDED ->
  state_is id SUCCEEDED s' ->
  (exists w l1 l2 rc now, om_coros s = l1 ++ Waiting id :: l2 /\ s' = drive_end w id rc now (with_coros (l1 ++ l2) s) /\
     default rc (read_exitcode w (op_exitcode_path r)) = 0) \/
  (exists w now, s' = (recover_on_boot w now s).1 /\ read_exitcode w (op_exitcode_path r) = Some 0) \/
  (exists w l1 l2 pid path now, om_coros s = l1 ++ Watching id pid path :: l2 /\
     s' = watch_end w id path now (with_coros (l1 ++ l2) s) /\ read_exitcode w path = Some 0) \/
  (exists goal values now, om_actions s !! id = Some goal /\ s' = action_result id STATUS_SUCCEEDED values now s).
Proof.
  intros Hok Hs Hr Hne Hs'. assert (Hno : ~ unsung s s').
  { intros Hu. specialize (Hu Hs'). unfold state_is in Hu. rewrite Hr in Hu. injection Hu as Hu. done. }
  assert (Hm : forall l x, unsung (with_coros l s) x -> unsung s x)
    by (intros l x Hx; etrans; [by apply (unsung_ops s (with_coros l s))|exact Hx]).
  destruct Hs as [j t a k argv b g p dir rev now s Hj|l1 l2 j t a argv pid now s E|l1 l2 j t a argv s E
    |l1 l2 j t a now s E|l1 l2 j t a line now s E|l1 l2 j t a error now s E|l1 l2 j t a s E|w l1 l2 j rc now s E
    |j t a ac ty g rev sent now s Hj|j status values now s Ha|j progress now s|j reason running now s
    |l1 l2 j reason now s E|l1 l2 j reason now s E|stale now s|w now s|w l1 l2 j pid path now s E Hw|t ty now s|s];
    try (exfalso; apply Hno; first
      [ by apply unsung_start | by apply unsung_action | by apply unsung_progress | by apply unsung_cancel
      | by apply unsung_sweep | by apply unsung_ops
      | apply (Hm (l1 ++ l2)); first
          [ by apply unsung_spawned | by apply unsung_ops | by apply unsung_terminal; left
          | by apply (unsung_transition j RUNNING None now (with_coros (l1 ++ l2) s))
          | by apply (unsung_touch j now (with_coros (l1 ++ l2) s)) ] ]).
  - left. exists w, l1, l2, rc, now. destruct (decide (j = id)) as [->|Hj].
    + split_and!; [done|done|]. apply dec_stable. intros Hrc. apply Hno, (Hm (l1 ++ l2)). unfold drive_end.
      set (s1 := with_procs _ _). etrans; [by apply (unsung_ops (with_coros (l1 ++ l2) s) s1)|].
      change (get_op id s1) with (get_op id s). rewrite Hr. destruct (bool_decide _); [reflexivity|]. by apply unsung_exit.
    + exfalso. apply Hno, (Hm (l1 ++ l2)). unfold drive_end.
      set (s1 := with_procs _ _). etrans; [by apply (unsung_ops (with_coros (l1 ++ l2) s) s1)|].
      destruct (get_op j s1); [|reflexivity]. destruct (bool_decide _); [reflexivity|]. by apply unsung_exit.
  - right. right. right. destruct Ha as [goal Hg]. revert Hno. unfold action_result.
    set (s1 := with_actions _ s). assert (H1 : unsung s s1) by by apply unsung_ops.
    destruct (status =? STATUS_SUCCEEDED) eqn:Est.
    + breflect. subst status. destruct (decide (j = id)) as [->|Hj]; [|intros Hno; exfalso; apply Hno].
      * intros _. by exists goal, values, now.
      * etrans; [exact H1|]. apply unsung_terminal. by right.
    + intros Hno. exfalso. apply Hno. etrans; [exact H1|].
      destruct (status =? STATUS_CANCELED); apply unsung_terminal; by left.
  - right. left. exists w, now. split; [done|]. by apply (recover_succeeds w now s).
  - right. right. left. exists w, l1, l2, pid, path, now. revert Hno. unfold watch_end.
    change (get_op j (with_coros (l1 ++ l2) s)) with (get_op j s). intros Hno.
    destruct (decide (j = id)) as [->|Hj].
    + split_and!; [done|unfold watch_end; done|]. apply dec_stable. intros Hrc. apply Hno, (Hm (l1 ++ l2)).
      destruct (get_op id s); [|reflexivity]. destruct (_ || _); [reflexivity|].
      destruct (read_exitcode w path) as [rc|]; [|apply unsung_terminal; by left]. apply unsung_exit. congruence.
    + exfalso. apply Hno, (Hm (l1 ++ l2)). destruct (get_op j s); [|reflexivity]. destruct (_ || _); [reflexivity|].
      destruct (read_exitcode w path) as [rc|]; [by apply unsung_exit|apply unsung_terminal; by left].
Qed.
End Success.

(** ** Runs *)

Definition sec (n : Z) : datetime := DT (1785902400000000 + n * 1000000) 0.

Definition no_files : os := {| exit_file := fun _ => None; pid_alive := fun _ => true |}.
Definition exited (rc : Z) : os :=
  {| exit_file := fun path => if String.eqb path "/ops/op1.exitcode" then Some rc else None; pid_alive := fun _ => false |}.

Definition run0 : op_mgr := start_begin "op1" "t" "main" "process" ["make"] false "g" "process" "/ops" (Some 1) (sec 0) om_empty.
Definition run1 : op_mgr := start_spawned "op1" "t" "main" ["make"] 100 (sec 1) (with_coros [] run0).
Definition run2 : op_mgr := drive_enter "op1" "t" "main" (sec 1) (with_coros [] run1).
Definition run3 : op_mgr := drive_line "op1" "t" "main" "ok" (sec 2) (with_coros [] run2).
Definition run4 : op_mgr := drive_eof "op1" (with_coros [] run3).
Definition run5 : op_mgr := drive_end (exited 0) "op1" 0 (sec 3) (with_coros [] run4).
Definition run6 : op_mgr := cancel_begin "op1" "user" true (sec 4) run3.

Lemma run_steps : rtc op_step om_empty run3.
Proof.
  eapply rtc_l; [by apply (o_start "op1" "t" "main" "process" ["make"] false "g" "process" "/ops" (Some 1) (sec 0))|].
  eapply rtc_l; [by apply (o_spawned [] [] "op1" "t" "main" ["make"] 100 (sec 1) run0)|].
  eapply rtc_l; [by apply (o_enter [] [] "op1" "t" "main" (sec 1) run1)|].
  by apply rtc_once, (o_line [] [] "op1" "t" "main" "ok" (sec 2) run2).
Qed.

Lemma run_end_steps : rtc op_step run3 run5.
Proof.
  eapply rtc_l; [by apply (o_eof [] [] "op1" "t" "main" run3)|].
  by apply rtc_once, (o_end (exited 0) [] [] "op1" 0 (sec 3) run4).
Qed.

Lemma run3_ok : op_ok run3.
Proof. apply (on_ok _ _ (op_steps_next _ _ run_steps)), om_empty_ok. Qed.

Lemma run5_ok : op_ok run5.
Proof. apply (on_ok _ _ (op_steps_next _ _ run_end_steps)), run3_ok. Qed.

Lemma run6_step : op_step run3 run6.
Proof. apply (o_cancel "op1" "user" true (sec 4) run3). Qed.

Lemma operation_final_witness : exists e, te_event e = Ended SUCCEEDED "" /\
  e ∈ terminal_events "op1" (cancel_begin "op1" "user" true (sec 9) run5).
Proof.
  destruct (get_op "op1" run5) as [r|] eqn:E; [|vm_compute in E; discriminate E].
  destruct (operation_final run5 (cancel_begin "op1" "user" true (sec 9) run5) "op1" r run5_ok
    (rtc_once _ _ (o_cancel "op1" "user" true (sec 9) run5)) E) as (r' & _ & Hf & _).
  vm_compute in E. injection E as <-. destruct (Hf eq_refl) as (_ & b & e & a & Ht & He & _).
  exists e. split; [exact He|]. rewrite Ht. apply elem_of_app. right. by left.
Defined.

Lemma events_resume_witness :
  events_since "t" 0 run5 = events_since "t" 0 run3 ++ events_since "t" 3 run5.
Proof.
  apply (events_resume run3 run5 "t" 0 3 run_end_steps).
  - vm_compute. split; repeat constructor.
  - intros ne Hne. assert (H : Forall (fun ne : nat * task_event => (ne.1 <= 3)%nat) (events_since "t" 0 run3))
      by (vm_compute; repeat constructor).
    rewrite Forall_forall in H. by apply H.
Defined.

Lemma boot_accounts_witness : exists r', get_op "op1" (recover_on_boot no_files (sec 60) (restart run3)).1 = Some r' /\
  op_st r' = DEGRADED.
Proof.
  destruct (get_op "op1" (restart run3)) as [r|] eqn:E; [|vm_compute in E; discriminate E].
  assert (Hok : op_ok (restart run3)) by (apply (on_ok _ _ (op_step_next _ _ (o_restart run3))), run3_ok).
  destruct (boot_accounts no_files (sec 60) (restart run3) "op1" r Hok E) as (r' & Hr' & _ & _ & Hx).
  exists r'. split; [exact Hr'|]. vm_compute in E. injection E as <-. destruct (Hx eq_refl ltac:(discriminate)) as [Hd _].
  exact Hd.
Defined.

Lemma canceling_survives_restart_witness :
  state_is "op1" CANCELING (recover_on_boot (exited 0) (sec 60) (restart run6)).1.
Proof.
  apply (canceling_survives_restart "op1" run6); [vm_compute; reflexivity|].
  apply rtc_once. split; [apply o_recover|]. intros reason running now E.
  apply (f_equal om_events) in E. apply (f_equal (@length task_event)) in E. vm_compute in E. discriminate E.
Defined.

Lemma success_sound_witness : exists w, default 0 (read_exitcode w "/ops/op1.exitcode") = 0 \/ om_actions run4 !! "op1" <> None.
Proof.
  destruct (get_op "op1" run4) as [r|] eqn:E; [|vm_compute in E; discriminate E].
  assert (Hok : op_ok run4) by (apply (on_ok _ _ (op_step_next _ _ (o_eof [] [] "op1" "t" "main" run3 eq_refl))), run3_ok).
  assert (Hp : op_exitcode_path r = "/ops/op1.exitcode" /\ op_st r = RUNNING) by (vm_compute in E; by injection E as <-).
  destruct Hp as [Hp Hst].
  destruct (success_sound "op1" run4 run5 r Hok (o_end (exited 0) [] [] "op1" 0 (sec 3) run4 eq_refl) E)
    as [(w & _ & _ & rc & _ & _ & _ & H)|[(w & _ & _ & H)|[(w & l1 & l2 & pid & path & now & Hc & _)|(goal & _ & _ & H & _)]]].
  - rewrite Hst. discriminate.
  - vm_compute. reflexivity.
  - exists (exited 0). by left.
  - exists w. left. rewrite Hp in H. by rewrite H.
  - exfalso. vm_compute in Hc. destruct l1 as [|? [|? ?]]; discriminate Hc.
  - exists no_files. right. by rewrite H.
Defined.

Lemma sweep_revives_witness :
  op_st <$> get_op "op1" (sweep_liveness (of_Z 30) (sec 43) (sweep_liveness (of_Z 30) (sec 33) run3).1).1 = Some RUNNING.
Proof.
  destruct (get_op "op1" run3) as [r|] eqn:E; [|vm_compute in E; discriminate E].
  apply (sweep_revives (of_Z 30) (sec 33) (sec 43) run3 "op1" r run3_ok E).
  - vm_compute in E. injection E as <-. cbn. set_solver.
  - vm_compute in E. injection E as <-. vm_compute. reflexivity.
  - vm_compute. reflexivity.
Defined.

(** An operation cancelled before its process is there: the process is started all the
    same, and nothing ever signals it. *)
Example cancelled_before_spawn :
  let s := cancel_begin "op1" "user" true (sec 1) run0 in
  let s' := start_spawned "op1" "t" "main" ["make"] 100 (sec 2) (with_coros [] s) in
  state_is "op1" CANCELLED s' /\ om_procs s' !! "op1" = Some 100 /\ om_signals s' = [].
Proof. split_and!; vm_compute; reflexivity. Qed.

(** A failing reader records [operation.failed], and the operation succeeds. *)
Example failed_and_completed :
  event_type ∘ te_event <$> om_events (drive_end (exited 0) "op1" 0 (sec 3)
    (with_coros [] (drive_broken "op1" "t" "main" "limit" (sec 2) (with_coros [] run2)))) =
  ["operation.queued"; "operation.admitted"; "operation.failed"; "operation.completed"].
Proof. vm_compute. reflexivity. Qed.
