(* ===== verification/TaskSpec.v ===== *)
(** The frozen contracts of a task revision: src/src/rosclaw/task_kernel/task_spec.py
    and acceptance.py, with contracts/agent/task_spec.py, contracts/agent/acceptance.py and
    cognition/alias.py.

    The markers of the source that hold characters beyond the model's text (Json.v,
    PyStr.v) occur in no text of the model and are left out. Identifiers of specs, the
    quality thresholds of deliverables, which nothing reads, and the names of the keys each
    source of an acceptance had are not kept. *)

From S2P Require Export PyStr Float64.
Open Scope list_scope.

(** ** Text *)

Definition text_lower_char (c : ascii) : ascii :=
  if ((65 <=? ord c) && (ord c <=? 90)) || ((192 <=? ord c) && (ord c <=? 222) && negb (ord c =? 215))
  then ascii_of_N (Z.to_N (ord c + 32)) else c.

Fixpoint text_lower (s : string) : string :=
  match s with EmptyString => "" | String c s' => String (text_lower_char c) (text_lower s') end.

(** [sub in s] *)
Fixpoint contains (sub s : string) : bool :=
  String.prefix sub s || match s with EmptyString => false | String _ s' => contains sub s' end.

Definition any_marker (text : string) (markers : list string) : bool :=
  existsb (fun m => contains m (text_lower text) || contains m text) markers.

(** ** Resources *)

Definition INSTANCE_PREFIXES : list string := ["sim/"; "real/"; "shadow/"].

Definition canonical_resource_id (body_id : string) : string :=
  let body := strip body_id in
  match find (fun p => String.prefix p body) INSTANCE_PREFIXES with
  | Some p => "robot:" +:+ removeprefix p body
  | None => "robot:" +:+ body
  end.

Definition body_id_for_resource (resource_id instance : string) : string :=
  instance +:+ "/" +:+ removeprefix "robot:" (strip resource_id).

(** ** The work order of a revision *)

Definition INTENT_MARKERS : list (string * list string) :=
  [("manipulation.draw_path", ["draw"; "trace path"]);
   ("manipulation.reach", ["reach"]);
   ("manipulation.pick_place", ["pick"; "place"]);
   ("mobile.navigate", ["navigate"]);
   ("perception.inspect", ["inspect"]);
   ("learned_policy.execute", ["policy rollout"; " learned policy"]);
   ("compute.generic", ["compute"])].
Definition CHAT_MARKERS : list string := ["hello"].
Definition SCENE_VIDEO_MARKERS : list string := ["video"; "mp4"].
Definition PREVIEW_MARKERS : list string := ["gif"].
Definition TOOL_MARKERS : list (string * list string) := [("tool:pen", ["pen"; "marker"])].
Definition WORLD_MARKERS : list (string * list string) := [("world:tabletop", ["tabletop"; "table"])].
Definition CONTACT_MARKERS : list string := ["contact"].

Definition INTENT_TAXONOMY : list string :=
  ["manipulation.draw_path"; "manipulation.reach"; "manipulation.pick_place"; "mobile.navigate";
   "perception.inspect"; "learned_policy.execute"; "compute.generic"; "conversation.chat"; "task.unknown"].

Definition DELIVERABLE_KINDS : list string := ["scene_video"; "preview_animation"; "robot_video"; "data_report"].

(** [DELIVERABLE_KIND_TO_ARTIFACT_KIND.get(kind, kind)] *)
Definition artifact_kind_for (kind : string) : string :=
  default kind (dget [("scene_video", "scene_3d"); ("preview_animation", "preview_2d"); ("robot_video", "robot_video")] kind).

Record deliverable := { dl_kind : string; dl_media_type : string; dl_required : bool }.

Definition compile_deliverables (goal_text : string) : list deliverable :=
  (if any_marker goal_text SCENE_VIDEO_MARKERS
   then [{| dl_kind := "scene_video"; dl_media_type := "video/mp4"; dl_required := true |}] else [])
  ++ (if any_marker goal_text PREVIEW_MARKERS
      then [{| dl_kind := "preview_animation"; dl_media_type := "image/gif"; dl_required := true |}] else []).

(** The first reference one of whose markers the text has. *)
Definition first_marked (text : string) (refs : list (string * list string)) : option string :=
  fst <$> find (fun r => any_marker text r.2) refs.

Definition classify_intent (goal_text : string) : string :=
  match first_marked goal_text INTENT_MARKERS with
  | Some intent => intent
  | None => if existsb (fun m => contains m goal_text) CHAT_MARKERS then "conversation.chat" else "task.unknown"
  end.

Record task_spec := {
  ts_task_id : string;
  ts_revision : Z;
  ts_natural_language : string;
  ts_intent : string;
  ts_body_ref : string;
  ts_tool_ref : string;
  ts_world_ref : string;
  ts_mode : string;
  ts_frames : list string;
  ts_allowed_effects : list string;
  ts_contact_required : bool;
  ts_tool_axis_deg : option Z;
  ts_language : string;
  ts_verbosity : string;
  ts_deliverables : list deliverable;
  ts_acceptance_spec_id : string;
}.

(** What pydantic asks for: a goal, a revision from 1, an intent and kinds of the
    taxonomies. Identifiers are never empty. *)
Definition task_spec_valid (s : task_spec) : bool :=
  (1 <=? ts_revision s) && truthy_str (ts_natural_language s)
  && bool_decide (ts_intent s ∈ INTENT_TAXONOMY)
  && forallb (fun d => bool_decide (dl_kind d ∈ DELIVERABLE_KINDS)) (ts_deliverables s).

Definition compile_task_spec (task_id : string) (revision : Z) (goal_text body_id mode acceptance_spec_id world_ref : string)
    (frames allowed_effects : list string) (language verbosity : string) : option task_spec :=
  let body_ref := if truthy_str body_id then canonical_resource_id body_id else "" in
  let tool_ref := default "" (first_marked goal_text TOOL_MARKERS) in
  let world_ref := if truthy_str world_ref then world_ref else default "" (first_marked goal_text WORLD_MARKERS) in
  let intent := classify_intent goal_text in
  let contact_required :=
    any_marker goal_text CONTACT_MARKERS
    || (String.eqb world_ref "world:tabletop" && bool_decide (intent ∈ ["manipulation.draw_path"; "manipulation.reach"])) in
  let s :=
    {| ts_task_id := task_id; ts_revision := revision; ts_natural_language := goal_text; ts_intent := intent;
       ts_body_ref := body_ref; ts_tool_ref := tool_ref; ts_world_ref := world_ref; ts_mode := mode;
       ts_frames := frames; ts_allowed_effects := allowed_effects; ts_contact_required := contact_required;
       ts_tool_axis_deg := if truthy_str tool_ref then Some 3 else None; ts_language := language;
       ts_verbosity := verbosity; ts_deliverables := compile_deliverables goal_text;
       ts_acceptance_spec_id := acceptance_spec_id |} in
  if task_spec_valid s then Some s else None.

(** ** Acceptance *)

(** What one source asks for. *)
Record acceptance_part := {
  pa_required_artifacts : list string;
  pa_evidence_classes : list string;
  pa_visual_requirements : list string;
  pa_postconditions : list string;
  pa_verifier_refs : list string;
  pa_allowed_execution_modes : list string;
  pa_numeric_thresholds : dict float;
  pa_resource_provenance_required : bool;
  pa_required_receipt : string;
}.

Record acceptance_spec := {
  as_task_id : string;
  as_revision : Z;
  as_required_artifacts : list string;
  as_evidence_classes : list string;
  as_visual_requirements : list string;
  as_postconditions : list string;
  as_verifier_refs : list string;
  as_allowed_execution_modes : list string;
  as_numeric_thresholds : dict float;
  as_resource_provenance_required : bool;
  as_required_receipt : string;
}.

Definition add_unique (target values : list string) : list string :=
  foldl (fun t v => if bool_decide (v ∈ t) then t else t ++ [v]) target values.

Definition add_threshold (t : dict float) (kv : string * float) : dict float :=
  match dget t kv.1 with
  | Some old => dset t kv.1 (if fltb kv.2 old then kv.2 else old)
  | None => dset t kv.1 kv.2
  end.

Definition add_part (s : acceptance_spec) (p : acceptance_part) : acceptance_spec :=
  {| as_task_id := as_task_id s; as_revision := as_revision s;
     as_required_artifacts := add_unique (as_required_artifacts s) (pa_required_artifacts p);
     as_evidence_classes := add_unique (as_evidence_classes s) (pa_evidence_classes p);
     as_visual_requirements := add_unique (as_visual_requirements s) (pa_visual_requirements p);
     as_postconditions := add_unique (as_postconditions s) (pa_postconditions p);
     as_verifier_refs := add_unique (as_verifier_refs s) (pa_verifier_refs p);
     as_allowed_execution_modes := add_unique (as_allowed_execution_modes s) (pa_allowed_execution_modes p);
     as_numeric_thresholds := foldl add_threshold (as_numeric_thresholds s) (pa_numeric_thresholds p);
     as_resource_provenance_required := as_resource_provenance_required s || pa_resource_provenance_required p;
     as_required_receipt := if truthy_str (pa_required_receipt p) then pa_required_receipt p else as_required_receipt s |}.

Definition no_acceptance (task_id : string) (revision : Z) : acceptance_spec :=
  {| as_task_id := task_id; as_revision := revision; as_required_artifacts := []; as_evidence_classes := [];
     as_visual_requirements := []; as_postconditions := []; as_verifier_refs := [];
     as_allowed_execution_modes := []; as_numeric_thresholds := []; as_resource_provenance_required := false;
     as_required_receipt := "" |}.

(** [modes or ["SIMULATION"]] *)
Definition default_modes (s : acceptance_spec) : acceptance_spec :=
  {| as_task_id := as_task_id s; as_revision := as_revision s; as_required_artifacts := as_required_artifacts s;
     as_evidence_classes := as_evidence_classes s; as_visual_requirements := as_visual_requirements s;
     as_postconditions := as_postconditions s; as_verifier_refs := as_verifier_refs s;
     as_allowed_execution_modes := match as_allowed_execution_modes s with [] => ["SIMULATION"] | l => l end;
     as_numeric_thresholds := as_numeric_thresholds s;
     as_resource_provenance_required := as_resource_provenance_required s;
     as_required_receipt := as_required_receipt s |}.

(** The sources in the order of [_SOURCE_ORDER]; the one left out is [{}]. *)
Record sources := {
  so_safety_floor : acceptance_part;
  so_capability_template : acceptance_part;
  so_user_explicit : acceptance_part;
  so_task_default : acceptance_part;
  so_model_suggested : acceptance_part;
}.

Definition no_part : acceptance_part :=
  {| pa_required_artifacts := []; pa_evidence_classes := []; pa_visual_requirements := []; pa_postconditions := [];
     pa_verifier_refs := []; pa_allowed_execution_modes := []; pa_numeric_thresholds := [];
     pa_resource_provenance_required := false; pa_required_receipt := "" |}.

Definition parts (s : sources) : list acceptance_part :=
  [so_safety_floor s; so_capability_template s; so_user_explicit s; so_task_default s; so_model_suggested s].

Definition compile_acceptance (task_id : string) (revision : Z) (s : sources) : acceptance_spec :=
  default_modes (foldl add_part (no_acceptance task_id revision) (parts s)).

(** ** What compiles *)

Lemma first_marked_in text refs x : first_marked text refs = Some x -> x ∈ refs.*1.
Proof.
  unfold first_marked. destruct (find _ refs) as [r|] eqn:E; [|done]. intros [= <-].
  apply find_some in E as [Hr _]. apply list_elem_of_In in Hr. by apply list_elem_of_fmap_2.
Qed.

Lemma classify_intent_known goal : classify_intent goal ∈ INTENT_TAXONOMY.
Proof.
  unfold classify_intent. destruct (first_marked _ _) as [x|] eqn:E.
  - apply first_marked_in in E. cbn in E. unfold INTENT_TAXONOMY. set_solver.
  - destruct (existsb _ _); unfold INTENT_TAXONOMY; set_solver.
Qed.

Lemma deliverable_kinds_known goal :
  forallb (fun d => bool_decide (dl_kind d ∈ DELIVERABLE_KINDS)) (compile_deliverables goal) = true.
Proof. unfold compile_deliverables. by destruct (any_marker goal SCENE_VIDEO_MARKERS), (any_marker goal PREVIEW_MARKERS). Qed.

(** A work order compiles exactly for a goal of at least one character and a revision from
    1: what the classifiers choose is always in the frozen taxonomies. *)
Theorem task_spec_compiles id n goal body mode acc world frames effects language verbosity :
  is_Some (compile_task_spec id n goal body mode acc world frames effects language verbosity) <->
  1 <= n /\ truthy_str goal = true.
Proof.
  unfold compile_task_spec, task_spec_valid. cbn [ts_revision ts_natural_language ts_intent ts_deliverables].
  rewrite deliverable_kinds_known, (bool_decide_eq_true_2 _ (classify_intent_known goal)), !andb_true_r.
  rewrite <- Z.leb_le. destruct (1 <=? n), (truthy_str goal); simpl; split; try done; try (by intros [? ?]); naive_solver.
Qed.

(** ** Sources only tighten *)

Lemma add_unique_in target values x : x ∈ add_unique target values <-> x ∈ target \/ x ∈ values.
Proof.
  unfold add_unique. revert target. induction values as [|v l IH]; intros target; simpl; [set_solver|].
  rewrite IH. case_bool_decide; set_solver.
Qed.

Lemma add_threshold_ne t k' v k : k' <> k -> dget (add_threshold t (k', v)) k = dget t k.
Proof. intros Hne. unfold add_threshold. simpl. destruct (dget t k'); by rewrite dget_dset_ne. Qed.

Lemma add_thresholds_other l t k : k ∉ dkeys l -> dget (foldl add_threshold t l) k = dget t k.
Proof.
  unfold dkeys. revert t. induction l as [|[k' v] l IH]; intros t Hk; simpl in *; [done|].
  apply not_elem_of_cons in Hk as [Hne Hk]. rewrite IH by done. by apply add_threshold_ne.
Qed.

(** The threshold of a key after some are added: the old one, or a smaller one. *)
Lemma add_thresholds_tighter l t k x : dwf l -> dget t k = Some x ->
  exists y, dget (foldl add_threshold t l) k = Some y /\ (y = x \/ fltb y x = true).
Proof.
  unfold dwf, dkeys. revert t. induction l as [|[k' v] l IH]; intros t Hl Hx; simpl in *; [eauto|].
  apply NoDup_cons in Hl as [Hn Hl]. destruct (decide (k' = k)) as [->|Hne].
  - rewrite add_thresholds_other by done. unfold add_threshold. simpl. rewrite Hx, dget_dset_eq.
    eexists. split; [done|]. destruct (fltb v x) eqn:E; auto.
  - apply IH; [done|]. by rewrite add_threshold_ne.
Qed.

Definition with_model (p : acceptance_part) (s : sources) : sources :=
  {| so_safety_floor := so_safety_floor s; so_capability_template := so_capability_template s;
     so_user_explicit := so_user_explicit s; so_task_default := so_task_default s; so_model_suggested := p |}.

(** What [b] asks for is at least what [a] does. *)
Record tighter (a b : acceptance_spec) : Prop := {
  ti_artifacts : as_required_artifacts a ⊆ as_required_artifacts b;
  ti_evidence : as_evidence_classes a ⊆ as_evidence_classes b;
  ti_visual : as_visual_requirements a ⊆ as_visual_requirements b;
  ti_postconditions : as_postconditions a ⊆ as_postconditions b;
  ti_verifiers : as_verifier_refs a ⊆ as_verifier_refs b;
  ti_thresholds k x : dget (as_numeric_thresholds a) k = Some x ->
    exists y, dget (as_numeric_thresholds b) k = Some y /\ (y = x \/ fltb y x = true);
  ti_provenance : as_resource_provenance_required a = true -> as_resource_provenance_required b = true;
}.

Lemma add_part_tighter s p : dwf (pa_numeric_thresholds p) -> tighter s (add_part s p).
Proof.
  intros Hp. split; simpl; try (intros x Hx; apply add_unique_in; by left).
  - intros k x. by apply add_thresholds_tighter.
  - by intros ->.
Qed.

(** What a model suggests never removes a required artifact, class of evidence, visual
    requirement, postcondition or verifier of the other sources, never raises one of their
    thresholds, and never lifts the demand for provenance. *)
Theorem model_only_tightens id n s p :
  dwf (pa_numeric_thresholds p) ->
  tighter (compile_acceptance id n (with_model no_part s)) (compile_acceptance id n (with_model p s)).
Proof.
  intros Hp. unfold compile_acceptance, with_model, parts. cbn [foldl so_safety_floor so_capability_template so_user_explicit so_task_default so_model_suggested].
  set (t := add_part (add_part (add_part (add_part (no_acceptance id n) _) _) _) _). clearbody t.
  destruct (add_part_tighter t p Hp) as [H1 H2 H3 H4 H5 H6 H7]. split; simpl in *; try done.
  intros E. apply H7. by rewrite orb_false_r in E.
Qed.

(** A safety floor that allows simulation and wants a daemon receipt. *)
Definition floor : acceptance_part :=
  {| pa_required_artifacts := ["trace"]; pa_evidence_classes := ["DYNAMIC_ROLLOUT"]; pa_visual_requirements := [];
     pa_postconditions := []; pa_verifier_refs := []; pa_allowed_execution_modes := ["SIMULATION"];
     pa_numeric_thresholds := [("tracking_max_error_m", ratio 1 100)]; pa_resource_provenance_required := true;
     pa_required_receipt := "daemon" |}.

Definition suggestion : acceptance_part :=
  {| pa_required_artifacts := ["video"]; pa_evidence_classes := []; pa_visual_requirements := [];
     pa_postconditions := []; pa_verifier_refs := []; pa_allowed_execution_modes := ["REAL"];
     pa_numeric_thresholds := [("tracking_max_error_m", ratio 1 10)]; pa_resource_provenance_required := false;
     pa_required_receipt := "self" |}.

Definition floor_only : sources :=
  {| so_safety_floor := floor; so_capability_template := no_part; so_user_explicit := no_part; so_task_default := no_part;
     so_model_suggested := no_part |}.

Lemma model_only_tightens_witness :
  exists y, dget (as_numeric_thresholds (compile_acceptance "t" 1 (with_model suggestion floor_only))) "tracking_max_error_m" = Some y
    /\ (y = ratio 1 100 \/ fltb y (ratio 1 100) = true).
Proof.
  assert (Hs : dwf (pa_numeric_thresholds suggestion)).
  { unfold dwf. simpl. apply NoDup_singleton. }
  exact (ti_thresholds _ _ (model_only_tightens "t" 1 floor_only suggestion Hs) "tracking_max_error_m" (ratio 1 100) eq_refl).
Defined.

(** The modes are a union too, and the last receipt named wins: there a model loosens. *)
Example model_loosens :
  let a := compile_acceptance "t" 1 (with_model suggestion floor_only) in
  (as_allowed_execution_modes a, as_required_receipt a) = (["SIMULATION"; "REAL"], "self") /\
  as_required_receipt (compile_acceptance "t" 1 floor_only) = "daemon".
Proof. split; vm_compute; reflexivity. Qed.

(** A text that asks for a video and a GIF at a table with a pen. *)
Example pen_task :
  (fun s => (ts_intent s, ts_body_ref s, ts_tool_ref s, ts_world_ref s, ts_contact_required s, dl_kind <$> ts_deliverables s))
    <$> compile_task_spec "t" 1 "Draw a star on the table with a pen, deliver a Video and a gif" "sim/ur5e" "SIMULATION" "" "" [] [] "" "" =
  Some ("manipulation.draw_path", "robot:ur5e", "tool:pen", "world:tabletop", true, ["scene_video"; "preview_animation"]).
Proof. vm_compute. reflexivity. Qed.
