(* ===== verification/Tasks.v ===== *)
(** The task kernel: src/src/rosclaw/task_kernel/service.py.

    A user's messages are bound to root tasks: the first opens one, later ones revise it,
    a message seen before is answered as it was. Each statement commits by itself, so an
    operation is a list of writes and a crash leaves a prefix of them. Paths are resolved
    by the caller of the model; the verdict on the evidence of a finished task is an
    argument here and computed in Evidence.v. A row keeps the instants and values whose
    texts it holds. *)

From S2P Require Export Clock Ledger TaskSpec.
Open Scope list_scope.

Inductive task_state :=
| RUNNING | WAITING_OPERATION | WAITING_INPUT | WAITING_PERMISSION | PAUSED | VERIFYING | RECOVERING
| SUCCEEDED | BLOCKED | FAILED | CANCELLED.

#[export] Instance task_state_eq_dec : EqDecision task_state.
Proof. solve_decision. Defined.

(** [state in TASK_TERMINAL] *)
Definition task_terminal (st : task_state) : bool :=
  match st with SUCCEEDED | BLOCKED | FAILED | CANCELLED => true | _ => false end.

(** [ValueError], [AssertionError], [sqlite3.IntegrityError], [OSError]. *)
Inductive kernel_exn := BadValue | AssertFailed | Constraint | OSFailed.

Record task_rec := {
  tk_mission_id : string;
  tk_root_goal : string;
  tk_mode : string;
  tk_body_id : string;
  tk_workspace_path : string;
  tk_state : task_state;
  tk_active_revision : Z;
  tk_locale : string;
  tk_created_at : datetime;
  tk_updated_at : datetime;
  tk_accepted_at : option datetime;
  tk_terminal_reason : option string;
  tk_user_accepted_at : option datetime;
}.

(** What [set_acceptance] freezes: the files to deliver and the command line to run, and
    the compiled specification. *)
Record acceptance := { ac_required_files : list string; ac_run : option (list string); ac_part : acceptance_part }.

Record revision_row := {
  rv_task_id : string;
  rv_revision : Z;
  rv_message_id : string;
  rv_goal_delta : string;
  rv_task_spec : option task_spec;
  rv_acceptance : option (acceptance * acceptance_spec);
  rv_created_at : datetime;
}.

(** A row of [task_session_bindings]; this code writes the role primary only. *)
Record binding_row := { bd_task_id : string; bd_session_ref : string; bd_active : bool; bd_created_at : datetime }.

Record harness_row := { hs_session_ref : string; hs_native_id : string; hs_cwd : string; hs_created_at : datetime }.

(** What the checks of a finished task find wrong. *)
Inductive failure :=
| ArtifactAbsent (name : string)
| ArtifactEmpty (name : string)
| HashMismatch (name : string)
| FixtureUsed (name : string)
| TrustedEvidenceMissing
| ArtifactOfRevision (artifact_id : string) (revision : Z)
| PlanAuthorityMissing
| ResourceProofMissing
| ManifestMissing (robot_id : string)
| ResourceIdMismatch
| NonCanonicalResource
| ResourceDigestMismatch
| LineageMissing (name : string)
| LineageRevision
| TraceBeforeRevision
| TraceMissing (trace_id : string)
| LineageDigestMismatch
| DeliverableMissing (kind : string)
| MediaDeliverableMissing
| FileMissing (path : string)
| InterpreterRefused (argv0 : string)
| InterpreterAbsent (argv0 : string)
| TestFailed (code : Z)
| TestTimedOut
| NothingChecked.

#[export] Instance failure_eq_dec : EqDecision failure.
Proof. solve_decision. Defined.

(** [vf_pass]: the status is PASS, not SUPERSEDED. *)
Record verification_row := { vf_id : string; vf_task_id : string; vf_revision : Z; vf_pass : bool;
  vf_checks : Z; vf_grade : string }.

Record user_input := {
  ui_input_id : string;
  ui_mission_id : string;
  ui_session_ref : string;
  ui_message_id : string;
  ui_text : string;
  ui_text_digest : string;
  ui_task_id : option string;
  ui_delivery_state : string;
  ui_created_at : datetime;
}.

Inductive kernel_event :=
| TaskStarted (goal : string)
| TaskRevised (revision : Z) (delta : string) (reopened : bool)
| VerificationSuperseded (count : Z)
| StateChanged (state : task_state) (reason : string)
| TaskTerminal (state : task_state) (reason : string)
| VerificationCompleted (verification_id : option string)
| TaskBlocked (reason_code : string)
| TaskAccepted
| AcceptanceFrozen (revision : Z)
| ToolUsed (tool : string)
| ArtifactCreated (artifact_id path : string) (bytes : Z).

Record kernel := {
  kn_tasks : dict task_rec;
  kn_revisions : list revision_row;
  kn_bindings : list binding_row;
  kn_sessions : list harness_row;
  kn_verifications : list verification_row;
  kn_inputs : list user_input;
  kn_events : list (string * option string * kernel_event);
}.

Definition kernel_empty : kernel :=
  {| kn_tasks := []; kn_revisions := []; kn_bindings := []; kn_sessions := []; kn_verifications := [];
     kn_inputs := []; kn_events := [] |}.

Definition with_kernel_tasks (x : dict task_rec) (k : kernel) : kernel :=
  {| kn_tasks := x; kn_revisions := kn_revisions k; kn_bindings := kn_bindings k; kn_sessions := kn_sessions k;
     kn_verifications := kn_verifications k; kn_inputs := kn_inputs k; kn_events := kn_events k |}.
Definition with_revisions (x : list revision_row) (k : kernel) : kernel :=
  {| kn_tasks := kn_tasks k; kn_revisions := x; kn_bindings := kn_bindings k; kn_sessions := kn_sessions k;
     kn_verifications := kn_verifications k; kn_inputs := kn_inputs k; kn_events := kn_events k |}.
Definition with_bindings (x : list binding_row) (k : kernel) : kernel :=
  {| kn_tasks := kn_tasks k; kn_revisions := kn_revisions k; kn_bindings := x; kn_sessions := kn_sessions k;
     kn_verifications := kn_verifications k; kn_inputs := kn_inputs k; kn_events := kn_events k |}.
Definition with_harness (x : list harness_row) (k : kernel) : kernel :=
  {| kn_tasks := kn_tasks k; kn_revisions := kn_revisions k; kn_bindings := kn_bindings k; kn_sessions := x;
     kn_verifications := kn_verifications k; kn_inputs := kn_inputs k; kn_events := kn_events k |}.
Definition with_verifications (x : list verification_row) (k : kernel) : kernel :=
  {| kn_tasks := kn_tasks k; kn_revisions := kn_revisions k; kn_bindings := kn_bindings k; kn_sessions := kn_sessions k;
     kn_verifications := x; kn_inputs := kn_inputs k; kn_events := kn_events k |}.
Definition with_user_inputs (x : list user_input) (k : kernel) : kernel :=
  {| kn_tasks := kn_tasks k; kn_revisions := kn_revisions k; kn_bindings := kn_bindings k; kn_sessions := kn_sessions k;
     kn_verifications := kn_verifications k; kn_inputs := x; kn_events := kn_events k |}.
Definition with_kernel_event (task_id : string) (session : option string) (e : kernel_event) (k : kernel) : kernel :=
  {| kn_tasks := kn_tasks k; kn_revisions := kn_revisions k; kn_bindings := kn_bindings k; kn_sessions := kn_sessions k;
     kn_verifications := kn_verifications k; kn_inputs := kn_inputs k;
     kn_events := kn_events k ++ [(task_id, session, e)] |}.

(** ** Statements *)

(** A statement: it takes effect or raises. *)
Definition write : Type := kernel -> result kernel_exn kernel.

(** Statements in turn, up to the first that raises. *)
Fixpoint run_writes (ws : list write) (k : kernel) : kernel * result kernel_exn unit :=
  match ws with
  | [] => (k, Ok tt)
  | w :: ws => match w k with Ok k' => run_writes ws k' | Err e => (k, Err e) end
  end.

Definition emit_event (task_id session : string) (e : kernel_event) : write := fun k =>
  Ok (with_kernel_event task_id (if truthy_str session then Some session else None) e k).

(** A directory or a file is made, or cannot be. *)
Definition file_write (ok : bool) : write := fun k => if ok then Ok k else Err OSFailed.

(** The work order compiles, or pydantic's [ValidationError], a [ValueError], is raised. *)
Definition compile_spec (spec : option task_spec) : write := fun k =>
  match spec with Some _ => Ok k | None => Err BadValue end.

Definition insert_task_row (id : string) (t : task_rec) : write := fun k =>
  if dhas (kn_tasks k) id then Err Constraint else Ok (with_kernel_tasks (dset (kn_tasks k) id t) k).

(** PRIMARY KEY (task_id, revision), user_message_id UNIQUE. *)
Definition insert_revision (r : revision_row) : write := fun k =>
  if existsb (fun r' => (String.eqb (rv_task_id r') (rv_task_id r) && (rv_revision r' =? rv_revision r))
                        || String.eqb (rv_message_id r') (rv_message_id r)) (kn_revisions k)
  then Err Constraint else Ok (with_revisions (kn_revisions k ++ [r]) k).

(** PRIMARY KEY (task_id, session_ref), and one active primary binding per task. *)
Definition insert_binding (b : binding_row) : write := fun k =>
  if existsb (fun b' => String.eqb (bd_task_id b') (bd_task_id b)
                        && (String.eqb (bd_session_ref b') (bd_session_ref b) || (bd_active b' && bd_active b)))
             (kn_bindings k)
  then Err Constraint else Ok (with_bindings (kn_bindings k ++ [b]) k).

(** [INSERT OR IGNORE]; session_ref is the key, and so is the native identifier. *)
Definition insert_session (h : harness_row) : write := fun k =>
  if existsb (fun h' => String.eqb (hs_session_ref h') (hs_session_ref h) || String.eqb (hs_native_id h') (hs_native_id h))
             (kn_sessions k)
  then Ok k else Ok (with_harness (kn_sessions k ++ [h]) k).

Definition update_task_row (id : string) (f : task_rec -> task_rec) : write := fun k =>
  Ok (match dget (kn_tasks k) id with Some t => with_kernel_tasks (dset (kn_tasks k) id (f t)) k | None => k end).

Definition deactivate (task_id session : string) : write := fun k =>
  Ok (with_bindings ((fun b => if String.eqb (bd_task_id b) task_id && String.eqb (bd_session_ref b) session
                               then {| bd_task_id := bd_task_id b; bd_session_ref := bd_session_ref b;
                                       bd_active := false; bd_created_at := bd_created_at b |} else b)
                     <$> kn_bindings k) k).

Definition passes_of (task_id : string) (k : kernel) : list verification_row :=
  filter (fun v => vf_pass v && String.eqb (vf_task_id v) task_id = true) (kn_verifications k).

Definition supersede (task_id : string) : write := fun k =>
  Ok (with_verifications ((fun v => if vf_pass v && String.eqb (vf_task_id v) task_id
                                    then {| vf_id := vf_id v; vf_task_id := vf_task_id v; vf_revision := vf_revision v;
                                            vf_pass := false; vf_checks := vf_checks v; vf_grade := vf_grade v |} else v)
                          <$> kn_verifications k) k).

Definition set_revision (revision : Z) (reopen : bool) (now : datetime) (t : task_rec) : task_rec :=
  {| tk_mission_id := tk_mission_id t; tk_root_goal := tk_root_goal t; tk_mode := tk_mode t; tk_body_id := tk_body_id t;
     tk_workspace_path := tk_workspace_path t; tk_state := if reopen then RUNNING else tk_state t;
     tk_active_revision := revision; tk_locale := tk_locale t; tk_created_at := tk_created_at t; tk_updated_at := now;
     tk_accepted_at := tk_accepted_at t; tk_terminal_reason := tk_terminal_reason t;
     tk_user_accepted_at := tk_user_accepted_at t |}.

Definition set_task_state (st : task_state) (reason : string) (now : datetime) (t : task_rec) : task_rec :=
  {| tk_mission_id := tk_mission_id t; tk_root_goal := tk_root_goal t; tk_mode := tk_mode t; tk_body_id := tk_body_id t;
     tk_workspace_path := tk_workspace_path t; tk_state := st;
     tk_active_revision := tk_active_revision t; tk_locale := tk_locale t; tk_created_at := tk_created_at t;
     tk_updated_at := now;
     tk_accepted_at := if bool_decide (st = SUCCEEDED) then Some now else tk_accepted_at t;
     tk_terminal_reason := if truthy_str reason then Some reason else tk_terminal_reason t;
     tk_user_accepted_at := tk_user_accepted_at t |}.

Definition set_user_accepted (now : datetime) (t : task_rec) : task_rec :=
  {| tk_mission_id := tk_mission_id t; tk_root_goal := tk_root_goal t; tk_mode := tk_mode t; tk_body_id := tk_body_id t;
     tk_workspace_path := tk_workspace_path t; tk_state := tk_state t;
     tk_active_revision := tk_active_revision t; tk_locale := tk_locale t; tk_created_at := tk_created_at t;
     tk_updated_at := tk_updated_at t; tk_accepted_at := tk_accepted_at t; tk_terminal_reason := tk_terminal_reason t;
     tk_user_accepted_at := Some now |}.

(** ** Binding a message *)

Record bind_args := {
  ba_mission_id : string;
  ba_session_ref : string;
  ba_native_id : string;
  ba_message_id : string;
  ba_text : string;
  ba_cwd : string;
  ba_mode : string;
  ba_body_id : string;
  ba_locale : string;
  ba_force_new : bool;
  ba_workspace : string;
  ba_fresh : string;
  ba_now : datetime;
  ba_dirs_ok : bool;
  ba_manifest_ok : bool;
}.

Record bound_message := {
  bo_task_id : string;
  bo_revision : Z;
  bo_created_task : bool;
  bo_replayed : bool;
  bo_reopened : bool;
  bo_workspace_path : string;
  bo_state : task_state;
}.

(** [ORDER BY t.created_at DESC LIMIT 1] *)
Fixpoint newest (l : list (string * task_rec)) : option (string * task_rec) :=
  match l with
  | [] => None
  | x :: l' =>
      match newest l' with
      | Some y => Some (if dt_lt (tk_created_at x.2) (tk_created_at y.2) then y else x)
      | None => Some x
      end
  end.

(** The tasks of a mission bound to a session, by the order of the bindings. *)
Definition bound_tasks (only_active : bool) (mission session : string) (k : kernel) : list (string * task_rec) :=
  omap (fun b =>
    if String.eqb (bd_session_ref b) session && (negb only_active || bd_active b) then
      t ← dget (kn_tasks k) (bd_task_id b);
      if String.eqb (tk_mission_id t) mission then Some (bd_task_id b, t) else None
    else None) (kn_bindings k).

Definition active_row (mission session : string) (k : kernel) : option (string * task_rec) :=
  newest (bound_tasks true mission session k).

(** The work order of a revision of a task, from the task's facts. *)
Definition spec_for (text id : string) (revision : Z) (body_id mode locale : string) : option task_spec :=
  compile_task_spec id revision text body_id mode "" "" [] [] (if String.eqb locale "auto" then "" else locale) "".

Definition revised_spec (a : bind_args) (id : string) (t : task_rec) : option task_spec :=
  spec_for (ba_text a) id (tk_active_revision t + 1) (tk_body_id t)
    (if truthy_str (tk_mode t) then tk_mode t else "SIMULATION") (tk_locale t).

Definition first_spec (a : bind_args) : option task_spec :=
  spec_for (ba_text a) (ba_fresh a) 1 (ba_body_id a) (ba_mode a) (ba_locale a).

Definition new_revision (a : bind_args) (id : string) (revision : Z) (spec : option task_spec) : revision_row :=
  {| rv_task_id := id; rv_revision := revision; rv_message_id := ba_message_id a; rv_goal_delta := ba_text a;
     rv_task_spec := spec; rv_acceptance := None; rv_created_at := ba_now a |}.

Definition reopen_writes (a : bind_args) (id : string) (t : task_rec) (superseded : Z) : list write :=
  let revision := tk_active_revision t + 1 in
  [file_write (ba_dirs_ok a);
   compile_spec (revised_spec a id t);
   insert_revision (new_revision a id revision (revised_spec a id t));
   update_task_row id (set_revision revision true (ba_now a));
   supersede id;
   emit_event id (ba_session_ref a) (VerificationSuperseded superseded);
   emit_event id (ba_session_ref a) (TaskRevised revision (String.substring 0 200 (ba_text a)) true)].

Definition revise_writes (a : bind_args) (id : string) (t : task_rec) : list write :=
  let revision := tk_active_revision t + 1 in
  [file_write (ba_dirs_ok a);
   compile_spec (revised_spec a id t);
   insert_revision (new_revision a id revision (revised_spec a id t));
   update_task_row id (set_revision revision false (ba_now a));
   emit_event id (ba_session_ref a) (TaskRevised revision (String.substring 0 200 (ba_text a)) false)].

Definition new_task (a : bind_args) : task_rec :=
  {| tk_mission_id := ba_mission_id a; tk_root_goal := ba_text a; tk_mode := ba_mode a; tk_body_id := ba_body_id a;
     tk_workspace_path := ba_workspace a; tk_state := RUNNING; tk_active_revision := 1; tk_locale := ba_locale a;
     tk_created_at := ba_now a; tk_updated_at := ba_now a; tk_accepted_at := None; tk_terminal_reason := None;
     tk_user_accepted_at := None |}.

Definition create_writes (a : bind_args) : list write :=
  [file_write (ba_dirs_ok a);
   insert_task_row (ba_fresh a) (new_task a);
   compile_spec (first_spec a);
   insert_revision (new_revision a (ba_fresh a) 1 (first_spec a));
   insert_session {| hs_session_ref := ba_session_ref a; hs_native_id := ba_native_id a; hs_cwd := ba_cwd a;
                     hs_created_at := ba_now a |};
   insert_binding {| bd_task_id := ba_fresh a; bd_session_ref := ba_session_ref a; bd_active := true;
                     bd_created_at := ba_now a |};
   file_write (ba_manifest_ok a);
   emit_event (ba_fresh a) (ba_session_ref a) (TaskStarted (String.substring 0 200 (ba_text a)))].

Definition mk_bound (id : string) (revision : Z) (created replayed reopened : bool) (workspace : string)
    (st : task_state) : bound_message :=
  {| bo_task_id := id; bo_revision := revision; bo_created_task := created; bo_replayed := replayed;
     bo_reopened := reopened; bo_workspace_path := workspace; bo_state := st |}.

(** Closed to revision: terminal, and not a SUCCEEDED the user has still to accept. *)
Definition closed (t : task_rec) : bool :=
  task_terminal (tk_state t) && negb (bool_decide (tk_state t = SUCCEEDED) && bool_decide (tk_user_accepted_at t = None)).

(** What [bind_message] goes on to write and answers, by what it reads. *)
Definition bind_plan (a : bind_args) (k : kernel) : result kernel_exn (list write * bound_message) :=
  match find (fun r => String.eqb (rv_message_id r) (ba_message_id a)) (kn_revisions k) with
  | Some r =>
      match dget (kn_tasks k) (rv_task_id r) with
      | Some t => Ok ([], mk_bound (rv_task_id r) (rv_revision r) false true false (tk_workspace_path t) (tk_state t))
      | None => Err AssertFailed
      end
  | None =>
      let active := active_row (ba_mission_id a) (ba_session_ref a) k in
      let forced := match active with
                    | Some (id, _) => if ba_force_new a then [deactivate id (ba_session_ref a)] else []
                    | None => []
                    end in
      match (if ba_force_new a then None else active) with
      | Some (id, t) =>
          let revision := tk_active_revision t + 1 in
          if closed t then Ok (create_writes a, mk_bound (ba_fresh a) 1 true false false (ba_workspace a) RUNNING)
          else if bool_decide (tk_state t = SUCCEEDED) then
            Ok (reopen_writes a id t (Z.of_nat (length (passes_of id k))),
                mk_bound id revision false false true (tk_workspace_path t) RUNNING)
          else Ok (revise_writes a id t, mk_bound id revision false false false (tk_workspace_path t) (tk_state t))
      | None => Ok (forced ++ create_writes a, mk_bound (ba_fresh a) 1 true false false (ba_workspace a) RUNNING)
      end
  end.

Definition bind_message (a : bind_args) (k : kernel) : kernel * result kernel_exn bound_message :=
  match bind_plan a k with
  | Err e => (k, Err e)
  | Ok (ws, b) => let '(k', r) := run_writes ws k in (k', match r with Ok _ => Ok b | Err e => Err e end)
  end.

(** ** Inputs *)

(** [persist_input] answers the stored row, or the new one; the answer always says
    PERSISTED, the row FORCE_NEW where the user asked for a new task. *)
Definition input_state (force_new : bool) : string := if force_new then "FORCE_NEW" else "PERSISTED".

Section Inputs.
Context `{Crypto}.

Definition new_input (state fresh mission session message text : string) (now : datetime) : user_input :=
  {| ui_input_id := fresh; ui_mission_id := mission; ui_session_ref := session; ui_message_id := message;
     ui_text := text; ui_text_digest := "sha256:" +:+ sha256_hex text; ui_task_id := None;
     ui_delivery_state := state; ui_created_at := now |}.

Definition persist_input (fresh mission session message text : string) (force_new : bool) (now : datetime) (k : kernel)
    : kernel * result kernel_exn user_input :=
  match find (fun u => String.eqb (ui_message_id u) message) (kn_inputs k) with
  | Some u => (k, Ok u)
  | None =>
      if existsb (fun u => String.eqb (ui_input_id u) fresh) (kn_inputs k) then (k, Err Constraint)
      else (with_user_inputs (kn_inputs k ++ [new_input (input_state force_new) fresh mission session message text now]) k,
            Ok (new_input "PERSISTED" fresh mission session message text now))
  end.
End Inputs.

(** [ORDER BY created_at DESC, rowid DESC LIMIT 1] *)
Definition later_input (best : option user_input) (u : user_input) : option user_input :=
  match best with
  | Some b => if dt_lt (ui_created_at u) (ui_created_at b) then Some b else Some u
  | None => Some u
  end.

Definition latest_input (mission session : string) (k : kernel) : option user_input :=
  foldl later_input None
    (filter (fun u => String.eqb (ui_mission_id u) mission && String.eqb (ui_session_ref u) session = true) (kn_inputs k)).

Definition attach (message task_id : string) (k : kernel) : kernel :=
  with_user_inputs ((fun u => if String.eqb (ui_message_id u) message
                         then {| ui_input_id := ui_input_id u; ui_mission_id := ui_mission_id u;
                                 ui_session_ref := ui_session_ref u; ui_message_id := ui_message_id u;
                                 ui_text := ui_text u; ui_text_digest := ui_text_digest u; ui_task_id := Some task_id;
                                 ui_delivery_state := ui_delivery_state u; ui_created_at := ui_created_at u |}
                         else u) <$> kn_inputs k) k.

Definition with_message (message text : string) (force_new : bool) (a : bind_args) : bind_args :=
  {| ba_mission_id := ba_mission_id a; ba_session_ref := ba_session_ref a; ba_native_id := ba_native_id a;
     ba_message_id := message; ba_text := text; ba_cwd := ba_cwd a; ba_mode := ba_mode a; ba_body_id := ba_body_id a;
     ba_locale := ba_locale a; ba_force_new := force_new; ba_workspace := ba_workspace a;
     ba_fresh := ba_fresh a; ba_now := ba_now a; ba_dirs_ok := ba_dirs_ok a;
     ba_manifest_ok := ba_manifest_ok a |}.

(** The task the input already motivated. *)
Definition attached (row : option user_input) (k : kernel) : option (string * task_rec) :=
  u ← row; id ← ui_task_id u; if truthy_str id then t ← dget (kn_tasks k) id; Some (id, t) else None.

(** The message, text and [force_new] of [a] are those of the input; [fresh_message] is
    the identifier a goal without an input gets. *)
Definition ensure_task_for_effect (a : bind_args) (explicit_goal fresh_message : string) (k : kernel)
    : kernel * result kernel_exn bound_message :=
  let row := latest_input (ba_mission_id a) (ba_session_ref a) k in
  if negb (bool_decide (is_Some row)) && negb (truthy_str explicit_goal) then (k, Err BadValue)
  else
    match attached row k with
    | Some (id, t) => (k, Ok (mk_bound id (tk_active_revision t) false false false (tk_workspace_path t) (tk_state t)))
    | None =>
        let message := match row with Some u => ui_message_id u | None => "goal_" +:+ fresh_message end in
        let text := if truthy_str explicit_goal then explicit_goal else match row with Some u => ui_text u | None => "" end in
        let force_new := match row with Some u => String.eqb (ui_delivery_state u) "FORCE_NEW" | None => false end in
        match bind_message (with_message message text force_new a) k with
        | (k', Ok b) =>
            (match row with Some u => attach (ui_message_id u) (bo_task_id b) k' | None => k' end, Ok b)
        | (k', Err e) => (k', Err e)
        end
    end.

(** ** States *)

(** [transition]: a terminal state is kept. *)
Definition transition_writes (id : string) (st : task_state) (reason : string) (now : datetime) : list write :=
  [update_task_row id (set_task_state st reason now);
   emit_event id "" (StateChanged st (String.substring 0 200 reason))]
  ++ (if task_terminal st then [emit_event id "" (TaskTerminal st (String.substring 0 200 reason))] else []).

Definition transition (id : string) (st : task_state) (reason : string) (now : datetime) (k : kernel)
    : kernel * result kernel_exn unit :=
  match dget (kn_tasks k) id with
  | None => (k, Err BadValue)
  | Some t => if task_terminal (tk_state t) then (k, Ok tt) else run_writes (transition_writes id st reason now) k
  end.

(** The outcome of the checks: PASS without failures, else REPAIR_REQUIRED. *)
Record verdict := { vd_checks : Z; vd_failures : list failure }.

Inductive finished :=
| AlreadyTerminal (state : task_state) (verification_id : string)
| Succeeded (verification_id : string)
| RepairRequired (failures : list failure) (checks : Z).

(** [finish_task] around the checks of the evidence, whose verdict is [v]. *)
Definition finish_task (id : string) (v : verdict) (grade fresh : string) (now : datetime) (k : kernel)
    : kernel * result kernel_exn finished :=
  match dget (kn_tasks k) id with
  | None => (k, Err BadValue)
  | Some t =>
      if task_terminal (tk_state t) then
        (k, Ok (AlreadyTerminal (tk_state t)
          (match last (passes_of id k) with Some p => vf_id p | None => "" end)))
      else
        match vd_failures v with
        | [] =>
            if existsb (fun p => String.eqb (vf_id p) fresh) (kn_verifications k) then (k, Err Constraint)
            else
              let k := with_verifications (kn_verifications k ++
                [{| vf_id := fresh; vf_task_id := id; vf_revision := tk_active_revision t; vf_pass := true;
                    vf_checks := vd_checks v; vf_grade := grade |}]) k in
              let k := with_kernel_event id None (VerificationCompleted (Some fresh)) k in
              let '(k, r) := transition id SUCCEEDED "verification_passed" now k in
              (k, match r with Ok _ => Ok (Succeeded fresh) | Err e => Err e end)
        | failures =>
            (with_kernel_event id None (VerificationCompleted None) k, Ok (RepairRequired failures (vd_checks v)))
        end
  end.

(** The sources [set_acceptance] compiles: the condition of the task itself. *)
Definition task_default_source (ac : acceptance) : sources :=
  {| so_safety_floor := no_part; so_capability_template := no_part; so_user_explicit := no_part;
     so_task_default := ac_part ac; so_model_suggested := no_part |}.

Definition set_acceptance (id : string) (ac : acceptance) (k : kernel) : kernel * result kernel_exn unit :=
  match dget (kn_tasks k) id with
  | None => (k, Err BadValue)
  | Some t =>
      let spec := compile_acceptance id (tk_active_revision t) (task_default_source ac) in
      (with_kernel_event id None (AcceptanceFrozen (tk_active_revision t))
        (with_revisions ((fun r => if String.eqb (rv_task_id r) id && (rv_revision r =? tk_active_revision t)
                                   then {| rv_task_id := rv_task_id r; rv_revision := rv_revision r;
                                           rv_message_id := rv_message_id r; rv_goal_delta := rv_goal_delta r;
                                           rv_task_spec := rv_task_spec r; rv_acceptance := Some (ac, spec);
                                           rv_created_at := rv_created_at r |}
                                   else r) <$> kn_revisions k) k), Ok tt)
  end.

Definition accept_task (id : string) (now : datetime) (k : kernel) : kernel * result kernel_exn unit :=
  match dget (kn_tasks k) id with
  | None => (k, Err BadValue)
  | Some t =>
      if negb (bool_decide (tk_state t = SUCCEEDED)) then (k, Err BadValue)
      else if bool_decide (is_Some (tk_user_accepted_at t)) then (k, Ok tt)
      else run_writes [update_task_row id (set_user_accepted now); emit_event id "" TaskAccepted] k
  end.

Definition block_task (id reason_code detail : string) (now : datetime) (k : kernel) : kernel * result kernel_exn unit :=
  transition id BLOCKED (String.substring 0 300 (reason_code +:+ ": " +:+ detail)) now
    (with_kernel_event id None (TaskBlocked reason_code) k).

(** The coordinator of src/src/rosclaw/task_kernel/coordinator.py parks a task whose
    verification fails the same way twice; it has just found it open. *)
Definition park (id : string) (now : datetime) (k : kernel) : kernel :=
  match dget (kn_tasks k) id with
  | Some t => if task_terminal (tk_state t) then k
              else with_kernel_tasks (dset (kn_tasks k) id (set_task_state WAITING_INPUT "" now t)) k
  | None => k
  end.

(** [active_task_for], [latest_task_for] *)
Definition active_task_for (mission session : string) (k : kernel) : option (string * task_rec) :=
  it ← active_row mission session k; if task_terminal (tk_state it.2) then None else Some it.
Definition latest_task_for (mission session : string) (k : kernel) : option (string * task_rec) :=
  newest (bound_tasks false mission session k).

(** ** Sequences of operations, and crashes *)

(** [k_emit] is an event the rest of the agent daemon writes: a used tool, an artifact. *)

Section Steps.
Context `{Crypto}.

Inductive kstep : kernel -> kernel -> Prop :=
| k_persist fresh m s msg text f now k : kstep k (persist_input fresh m s msg text f now k).1
| k_bind a k : kstep k (bind_message a k).1
| k_ensure a goal msg k : kstep k (ensure_task_for_effect a goal msg k).1
| k_transition id st reason now k : kstep k (transition id st reason now k).1
| k_finish id v grade fresh now k : kstep k (finish_task id v grade fresh now k).1
| k_acceptance id ac k : kstep k (set_acceptance id ac k).1
| k_emit id e k : kstep k (with_kernel_event id None e k)
| k_accept id now k : kstep k (accept_task id now k).1
| k_block id code detail now k : kstep k (block_task id code detail now k).1
| k_park id now k : kstep k (park id now k).

(** The process dies within a binding: the writes so far stay. *)
Inductive kcrash : kernel -> kernel -> Prop :=
| k_crash a ws b n k : bind_plan a k = Ok (ws, b) -> kcrash k (run_writes (take n ws) k).1.

Definition kmove (k k' : kernel) : Prop := kstep k k' \/ kcrash k k'.
End Steps.

(** ** Writes in turn *)

Lemma run_writes_inv (P : kernel -> Prop) ws k :
  (forall w, w ∈ ws -> forall x y, P x -> w x = Ok y -> P y) -> P k -> P (run_writes ws k).1.
Proof.
  revert k. induction ws as [|w ws IH]; intros k Hw Hk; simpl; [done|].
  destruct (w k) as [k'|] eqn:E; simpl; [|done].
  apply IH; [intros w' Hw'; apply Hw; by right | eapply Hw; [left|done..]].
Qed.

Lemma run_writes_ok w ws k k' : w k = Ok k' -> run_writes (w :: ws) k = run_writes ws k'.
Proof. simpl. by intros ->. Qed.

Lemma run_writes_app ws ws' k :
  run_writes (ws ++ ws') k =
  match run_writes ws k with (k', Ok _) => run_writes ws' k' | (k', Err e) => (k', Err e) end.
Proof. revert k. induction ws as [|w ws IH]; intros k; simpl; [done|]. destruct (w k); [apply IH|done]. Qed.

(** A binding ends as some of the writes of its plan. *)
Lemma bind_run a k (P : kernel -> Prop) :
  P k -> (forall ws b, bind_plan a k = Ok (ws, b) -> P (run_writes ws k).1) -> P (bind_message a k).1.
Proof.
  intros Hk Hw. unfold bind_message. destruct (bind_plan a k) as [[ws b]|] eqn:E; [|done].
  specialize (Hw _ _ eq_refl). by destruct (run_writes ws k).
Qed.

(** ** What every move keeps *)

(** The fields of a task that no operation changes. *)
Definition task_fixed (t : task_rec) : string * string * string * string * string * string * datetime :=
  (tk_mission_id t, tk_root_goal t, tk_mode t, tk_body_id t, tk_workspace_path t, tk_locale t, tk_created_at t).

(** The task and revision a message is recorded under. *)
Definition message_row (m : string) (k : kernel) : option (string * Z) :=
  r ← find (fun r => String.eqb (rv_message_id r) m) (kn_revisions k); Some (rv_task_id r, rv_revision r).

Record kernel_keeps (k k' : kernel) : Prop := {
  kp_tasks id t : dget (kn_tasks k) id = Some t ->
    exists t', dget (kn_tasks k') id = Some t' /\ task_fixed t' = task_fixed t;
  kp_messages m x : message_row m k = Some x -> message_row m k' = Some x;
}.

#[export] Instance kernel_keeps_preorder : PreOrder kernel_keeps.
Proof.
  split; [intros k; split; eauto|]. intros k1 k2 k3 [T1 M1] [T2 M2]. split; [|eauto].
  intros id t Ht. destruct (T1 _ _ Ht) as (t2 & Ht2 & E2), (T2 _ _ Ht2) as (t3 & Ht3 & E3).
  exists t3. split; [done | congruence].
Qed.

Lemma kernel_keeps_same k k' : kn_tasks k' = kn_tasks k -> kn_revisions k' = kn_revisions k -> kernel_keeps k k'.
Proof. intros Et Er. split; unfold message_row; rewrite ?Et, ?Er; eauto. Qed.

Lemma kernel_keeps_update id f k k' :
  (forall t, task_fixed (f t) = task_fixed t) -> update_task_row id f k = Ok k' -> kernel_keeps k k'.
Proof.
  intros Hf E. unfold update_task_row in E. destruct (dget (kn_tasks k) id) as [t|] eqn:Ht; simplify_eq/=; [|done].
  split; [|done]. intros j u Hj. simpl. rewrite dget_dset. destruct (decide (id = j)) as [->|]; [|eauto].
  simplify_eq. eauto.
Qed.

Lemma kernel_keeps_insert id t k k' : insert_task_row id t k = Ok k' -> kernel_keeps k k'.
Proof.
  unfold insert_task_row. destruct (dhas (kn_tasks k) id) eqn:E; [done|]. intros H; simplify_eq.
  split; [|done]. intros j u Hj. simpl. rewrite dget_dset. destruct (decide (id = j)) as [->|]; [|eauto].
  apply dhas_false in E. congruence.
Qed.

Lemma kernel_keeps_revision r k k' : insert_revision r k = Ok k' -> kernel_keeps k k'.
Proof.
  unfold insert_revision. destruct (existsb _ _); [done|]. intros H; simplify_eq.
  split; [eauto|]. intros m x. unfold message_row. simpl.
  destruct (find _ (kn_revisions k)) as [r'|] eqn:E; [|done]. by rewrite (find_app_some _ _ _ _ E).
Qed.

(** Rows rewritten with the same task, revision and message are found as before. *)
Definition rev_key (r : revision_row) : string * Z * string := (rv_task_id r, rv_revision r, rv_message_id r).

Lemma message_row_keys m k k' :
  rev_key <$> kn_revisions k' = rev_key <$> kn_revisions k -> message_row m k' = message_row m k.
Proof.
  unfold message_row. revert k'. generalize (kn_revisions k) as l. intros l k'.
  generalize (kn_revisions k') as l'. clear. intros l'.
  revert l'. induction l as [|r l IH]; intros [|r' l'] E; try done.
  unfold rev_key in E; injection E as E1 E2 E3 E4. simpl. rewrite E3. destruct (String.eqb _ m); simpl; [congruence | by apply IH].
Qed.

Lemma kernel_keeps_write a k ws b w x y : bind_plan a k = Ok (ws, b) -> w ∈ ws -> w x = Ok y -> kernel_keeps x y.
Proof.
  intros Hp Hw E.
  assert (Hall : (exists ok, w = file_write ok) \/ (exists spec, w = compile_spec spec) \/ (exists r, w = insert_revision r)
    \/ (exists id n ro now, w = update_task_row id (set_revision n ro now)) \/ (exists id, w = supersede id)
    \/ (exists id s e, w = emit_event id s e) \/ (exists id t, w = insert_task_row id t)
    \/ (exists h, w = insert_session h) \/ (exists b, w = insert_binding b) \/ (exists id s, w = deactivate id s)).
  { unfold bind_plan, create_writes, reopen_writes, revise_writes in Hp.
    repeat case_match; simplify_eq; set_unfold; naive_solver. }
  destruct Hall as [[ok ->]|[[spec ->]|[[r ->]|[(id & n & ro & now & ->)|[[id ->]|[(id & s & e & ->)|[(id & t & ->)|
    [[h ->]|[[b' ->]|(id & s & ->)]]]]]]]]].
  - unfold file_write in E. destruct ok; simplify_eq. reflexivity.
  - unfold compile_spec in E. destruct spec; simplify_eq. reflexivity.
  - by eapply kernel_keeps_revision.
  - by eapply kernel_keeps_update; [|exact E].
  - unfold supersede in E. simplify_eq. by apply kernel_keeps_same.
  - unfold emit_event in E. simplify_eq. by apply kernel_keeps_same.
  - by eapply kernel_keeps_insert.
  - unfold insert_session in E. case_match; simplify_eq; [reflexivity | by apply kernel_keeps_same].
  - unfold insert_binding in E. case_match; simplify_eq. by apply kernel_keeps_same.
  - unfold deactivate in E. simplify_eq. by apply kernel_keeps_same.
Qed.

Lemma kernel_keeps_plan a k ws b n : bind_plan a k = Ok (ws, b) -> kernel_keeps k (run_writes (take n ws) k).1.
Proof.
  intros Hp. apply (run_writes_inv (kernel_keeps k)); [|reflexivity].
  intros w Hw x y Hx E. etrans; [exact Hx|].
  apply (kernel_keeps_write a k ws b w); [done | apply (subseteq_take n); done | done].
Qed.

Lemma kernel_keeps_bind a k : kernel_keeps k (bind_message a k).1.
Proof.
  apply (bind_run a k (kernel_keeps k)); [reflexivity|]. intros ws b Hp.
  pose proof (kernel_keeps_plan a k ws b (length ws) Hp) as H. by rewrite firstn_all in H.
Qed.

Lemma kernel_keeps_transition id st reason now k : kernel_keeps k (transition id st reason now k).1.
Proof.
  unfold transition. destruct (dget _ id) as [t|]; [|done]. destruct (task_terminal _); [done|].
  apply (run_writes_inv (kernel_keeps k)); [|reflexivity]. intros w Hw x y Hx E. etrans; [exact Hx|].
  assert (Hall : w = update_task_row id (set_task_state st reason now) \/ exists e, w = emit_event id "" e).
  { unfold transition_writes in Hw. destruct (task_terminal st); set_unfold; naive_solver. }
  destruct Hall as [->|[e ->]]; [by eapply kernel_keeps_update; [|exact E]|].
  unfold emit_event in E. simplify_eq. by apply kernel_keeps_same.
Qed.

(** [ensure_task_for_effect] is at most a binding and the attachment of its input. *)
Lemma ensure_run a goal msg k (P : kernel -> Prop) :
  P k -> (forall a', P (bind_message a' k).1) -> (forall m id x, P x -> P (attach m id x)) ->
  P (ensure_task_for_effect a goal msg k).1.
Proof.
  intros Hk Hb Ha. unfold ensure_task_for_effect. case_match; [done|]. destruct (attached _ k) as [[id t]|]; [done|].
  match goal with |- context [bind_message ?a' k] => specialize (Hb a'); destruct (bind_message a' k) as [k' [b|]] end;
    simpl in *; [|done]. case_match; auto.
Qed.

Section Keeps.
Context `{Crypto}.

Lemma kernel_keeps_step k k' : kstep k k' -> kernel_keeps k k'.
Proof.
  intros Hs. destruct Hs.
  - unfold persist_input. repeat case_match; simpl; try reflexivity. by apply kernel_keeps_same.
  - apply kernel_keeps_bind.
  - apply (ensure_run a goal msg k (kernel_keeps k)); [done | intros; apply kernel_keeps_bind |].
    intros m i x Hx. etrans; [exact Hx | by apply kernel_keeps_same].
  - apply kernel_keeps_transition.
  - unfold finish_task. destruct (dget _ id) as [t|]; [|done]. destruct (task_terminal _); [done|].
    destruct (vd_failures v) as [|fl fls]; [|by apply kernel_keeps_same]. destruct (existsb _ _); [done|].
    match goal with |- context [transition id SUCCEEDED ?r ?n ?k1] =>
      pose proof (kernel_keeps_transition id SUCCEEDED r n k1) as Ht; destruct (transition id SUCCEEDED r n k1) end.
    simpl in *. etrans; [|exact Ht]. by apply kernel_keeps_same.
  - unfold set_acceptance. destruct (dget _ id) as [t|]; [|done]. simpl. split; [eauto|]. intros m x <-.
    apply message_row_keys. simpl. rewrite <- list_fmap_compose. apply list_fmap_ext. intros ? r _. simpl. by case_match.
  - by apply kernel_keeps_same.
  - unfold accept_task. destruct (dget _ id) as [t|]; [|done]. destruct (negb _); [done|]. case_bool_decide; [done|].
    apply (run_writes_inv (kernel_keeps k)); [|reflexivity]. intros w Hw x y Hx E. etrans; [exact Hx|].
    apply elem_of_cons in Hw as [->| ->%list_elem_of_singleton]; [by eapply kernel_keeps_update; [|exact E]|]. unfold emit_event in E. simplify_eq. by apply kernel_keeps_same.
  - unfold block_task. etrans; [|apply kernel_keeps_transition]. by apply kernel_keeps_same.
  - unfold park. destruct (dget _ id) as [t|] eqn:Ht; [|done]. case_match; [done|].
    eapply (kernel_keeps_update id (set_task_state WAITING_INPUT "" now)); [done|]. unfold update_task_row. by rewrite Ht.
Qed.

Lemma kernel_keeps_move k k' : kmove k k' -> kernel_keeps k k'.
Proof. intros [Hs|[a ws b n k0 Hp]]; [by apply kernel_keeps_step | by eapply kernel_keeps_plan]. Qed.

Lemma kernel_keeps_moves k k' : rtc kmove k k' -> kernel_keeps k k'.
Proof. induction 1 as [|k1 k2 k3 Hm _ IH]; [reflexivity|]. etrans; [by apply kernel_keeps_move | exact IH]. Qed.
End Keeps.

(** ** A message is answered once and for all *)

(** A write of a run that ended was made at some point of it. *)
Lemma run_writes_mid w ws k k' r :
  (forall w x y, w ∈ ws -> w x = Ok y -> kernel_keeps x y) -> run_writes ws k = (k', Ok r) -> w ∈ ws ->
  exists x y, w x = Ok y /\ kernel_keeps k x /\ kernel_keeps y k'.
Proof.
  revert k. induction ws as [|w' ws IH]; intros k Hall E Hw; [by apply not_elem_of_nil in Hw|].
  simpl in E. destruct (w' k) as [k1|] eqn:E1; [|done].
  assert (H1 : kernel_keeps k k1) by (eapply Hall; [left|done]).
  apply elem_of_cons in Hw as [->|Hw].
  - exists k, k1. split_and!; [done | reflexivity|]. replace k' with (run_writes ws k1).1 by (by rewrite E).
    apply (run_writes_inv (kernel_keeps k1)); [|reflexivity]. intros w Hw x y Hx Exy. etrans; [exact Hx|].
    eapply Hall; [by right|done].
  - destruct (IH k1) as (x & y & Exy & Hx & Hy); [intros; eapply Hall; [by right|done] | done..|].
    exists x, y. split_and!; [done | by etrans | done].
Qed.

Lemma insert_revision_row r k k' : insert_revision r k = Ok k' -> message_row (rv_message_id r) k' = Some (rv_task_id r, rv_revision r).
Proof.
  unfold insert_revision, message_row. destruct (existsb _ _) eqn:E; [done|]. intros H; simplify_eq. simpl.
  induction (kn_revisions k) as [|r' l IH]; simpl; [by rewrite String.eqb_refl|].
  simpl in E. apply orb_false_iff in E as [E1 E2]. apply orb_false_iff in E1 as [_ E1]. rewrite E1. by apply IH.
Qed.

Lemma bind_replay a k id n t :
  message_row (ba_message_id a) k = Some (id, n) -> dget (kn_tasks k) id = Some t ->
  bind_message a k = (k, Ok (mk_bound id n false true false (tk_workspace_path t) (tk_state t))).
Proof.
  unfold message_row, bind_message, bind_plan. destruct (find _ _) as [r|]; [|done]. simpl. intros E Ht. simplify_eq.
  by rewrite Ht.
Qed.

Lemma newest_in l x : newest l = Some x -> x ∈ l.
Proof.
  revert x. induction l as [|y l IH]; intros x E; simpl in E; [done|].
  destruct (newest l) as [z|]; simplify_eq; [|by left]. destruct (dt_lt _ _); [right; by apply IH | by left].
Qed.

Lemma bound_tasks_in o m s k x : x ∈ bound_tasks o m s k ->
  dget (kn_tasks k) x.1 = Some x.2 /\ tk_mission_id x.2 = m /\
  exists b, b ∈ kn_bindings k /\ bd_task_id b = x.1 /\ bd_session_ref b = s.
Proof.
  unfold bound_tasks. intros (b & Hb & E)%list_elem_of_omap. destruct (_ && _) eqn:Eb; [|done].
  destruct (dget _ (bd_task_id b)) as [t|] eqn:Ht; simplify_eq/=. destruct (String.eqb _ m) eqn:Em; simplify_eq/=.
  apply andb_true_iff in Eb as [Eb _]. apply String.eqb_eq in Eb, Em. eauto 6.
Qed.

Lemma active_row_task m s k id t : active_row m s k = Some (id, t) -> dget (kn_tasks k) id = Some t.
Proof. intros H%newest_in%bound_tasks_in. by destruct H. Qed.

(** A new message is recorded under the task and revision it is answered with. *)
Definition recorded (a : bind_args) (b : bound_message) (k : kernel) : Prop :=
  message_row (ba_message_id a) k = Some (bo_task_id b, bo_revision b) /\
  exists t, dget (kn_tasks k) (bo_task_id b) = Some t /\ tk_workspace_path t = bo_workspace_path b.

(** What the plan of a new message inserts, and the task it answers. *)
Lemma plan_records a k ws b : bind_plan a k = Ok (ws, b) -> bo_replayed b = false ->
  (exists r, insert_revision r ∈ ws /\ rv_message_id r = ba_message_id a /\ rv_task_id r = bo_task_id b /\ rv_revision r = bo_revision b) /\
  ((exists t, insert_task_row (bo_task_id b) t ∈ ws /\ tk_workspace_path t = bo_workspace_path b) \/
   (exists t, dget (kn_tasks k) (bo_task_id b) = Some t /\ tk_workspace_path t = bo_workspace_path b)).
Proof.
  unfold bind_plan. intros Hp Hr. destruct (find _ _) as [r|]; [destruct (dget _ _); simplify_eq/=|].
  destruct (ba_force_new a).
  - simplify_eq. simpl. split; [exists (new_revision a (ba_fresh a) 1 (first_spec a)) | left; exists (new_task a)].
    all: split_and?; try done; apply elem_of_app; right; unfold create_writes; set_solver.
  - destruct (active_row _ _ k) as [[id t]|] eqn:Ea.
    + apply active_row_task in Ea. destruct (closed t).
      { simplify_eq. simpl. split; [exists (new_revision a (ba_fresh a) 1 (first_spec a)) | left; exists (new_task a)]. all: unfold create_writes; set_solver. }
      case_bool_decide; simplify_eq; simpl; (split; [exists (new_revision a id (tk_active_revision t + 1) (revised_spec a id t)) | right; eauto]).
      all: unfold reopen_writes, revise_writes; set_solver.
    + simplify_eq. simpl. split; [exists (new_revision a (ba_fresh a) 1 (first_spec a)) | left; exists (new_task a)]. all: unfold create_writes; set_solver.
Qed.

Lemma bind_recorded a k k' b : bind_message a k = (k', Ok b) -> recorded a b k'.
Proof.
  unfold bind_message. destruct (bind_plan a k) as [[ws b']|] eqn:Hp; [|done].
  destruct (run_writes ws k) as [k1 [u|]] eqn:Er; [|done]. intros E; simplify_eq.
  destruct (bo_replayed b) eqn:Hb.
  - unfold bind_plan in Hp. destruct (find _ _) as [r|] eqn:Ef.
    + destruct (dget _ _) as [t|] eqn:Ht; simplify_eq/=. split; [unfold message_row; by rewrite Ef | eauto].
    + by repeat case_match; simplify_eq.
  - assert (Hk : forall w x y, w ∈ ws -> w x = Ok y -> kernel_keeps x y) by (intros; by eapply kernel_keeps_write).
    destruct (plan_records _ _ _ _ Hp Hb) as [(r & Hr & E1 & E2 & E3) Ht]. split.
    + destruct (run_writes_mid _ _ _ _ _ Hk Er Hr) as (x & y & Exy%insert_revision_row & _ & Hy).
      rewrite <- E1, <- E2, <- E3. by apply Hy.
    + destruct Ht as [(t & Ht & Ew)|(t & Ht & Ew)].
      * destruct (run_writes_mid _ _ _ _ _ Hk Er Ht) as (x & y & Exy & _ & Hy).
        unfold insert_task_row in Exy. destruct (dhas _ _); simplify_eq.
        destruct (kp_tasks _ _ Hy (bo_task_id b) t) as (t' & Ht' & E'); [simpl; apply dget_dset_eq|].
        exists t'. split; [done|]. rewrite <- Ew. by injection E'.
      * assert (Hkk : kernel_keeps k k').
        { replace k' with (run_writes ws k).1 by (by rewrite Er). apply (run_writes_inv (kernel_keeps k)); [|reflexivity].
          intros w Hw x y Hx Exy. etrans; [exact Hx | by eapply Hk]. }
        destruct (kp_tasks _ _ Hkk _ _ Ht) as (t' & Ht' & E'). exists t'. split; [done|]. rewrite <- Ew. by injection E'.
Qed.

Section Idempotence.
Context `{Crypto}.

(** C16: A message answered once is answered the same ever after: whatever happens in between,
    crashes included, binding it again changes nothing and names the same task, revision
    and workspace. *)
Theorem message_bound_once a k k1 b k2 a' :
  bind_message a k = (k1, Ok b) -> rtc kmove k1 k2 -> ba_message_id a' = ba_message_id a ->
  exists st, bind_message a' k2 =
    (k2, Ok (mk_bound (bo_task_id b) (bo_revision b) false true false (bo_workspace_path b) st)).
Proof.
  intros [Hm (t & Ht & Ew)]%bind_recorded [Kt Km]%kernel_keeps_moves Ea.
  destruct (Kt _ _ Ht) as (t' & Ht' & E'). apply Km in Hm. rewrite <- Ea in Hm.
  exists (tk_state t'). rewrite (bind_replay _ _ _ _ _ Hm Ht'), <- Ew. injection E' as _ _ _ _ -> _ _. done.
Qed.
End Idempotence.

(** ** Closed tasks *)

Definition holds_task (id : string) (t : task_rec) (k : kernel) : Prop := dget (kn_tasks k) id = Some t.

Lemma holds_update id t j f x y : j <> id -> holds_task id t x -> update_task_row j f x = Ok y -> holds_task id t y.
Proof.
  unfold holds_task, update_task_row. intros Hj Hx E. destruct (dget (kn_tasks x) j); simplify_eq; [|done].
  simpl. by rewrite dget_dset_ne.
Qed.

Lemma holds_insert id t j u x y : holds_task id t x -> insert_task_row j u x = Ok y -> holds_task id t y.
Proof.
  unfold holds_task, insert_task_row. intros Hx E. destruct (dhas (kn_tasks x) j) eqn:Ej; simplify_eq. simpl.
  apply dhas_false in Ej. rewrite dget_dset_ne; [done | congruence].
Qed.

(** The statements that leave the table of tasks as it is. *)
Lemma other_write w x y :
  (exists ok, w = file_write ok) \/ (exists spec, w = compile_spec spec) \/ (exists r, w = insert_revision r) \/ (exists id, w = supersede id) \/
  (exists id s e, w = emit_event id s e) \/ (exists h, w = insert_session h) \/ (exists b, w = insert_binding b) \/
  (exists id s, w = deactivate id s) ->
  w x = Ok y -> kn_tasks y = kn_tasks x.
Proof.
  intros [[ok ->]|[[spec ->]|[[r ->]|[[id ->]|[(id & s & e & ->)|[[h ->]|[[b ->]|(id & s & ->)]]]]]]] E;
    unfold file_write, compile_spec, insert_revision, supersede, emit_event, insert_session, insert_binding, deactivate in E;
    by repeat case_match; simplify_eq.
Qed.

Lemma closed_plan id t a k ws b w x y :
  closed t = true -> holds_task id t k -> bind_plan a k = Ok (ws, b) -> w ∈ ws -> holds_task id t x -> w x = Ok y ->
  holds_task id t y.
Proof.
  intros Hc Hk Hp Hw Hx E.
  assert (Hall : ((exists ok, w = file_write ok) \/ (exists spec, w = compile_spec spec) \/ (exists r, w = insert_revision r) \/ (exists id, w = supersede id) \/
    (exists id s e, w = emit_event id s e) \/ (exists h, w = insert_session h) \/ (exists b, w = insert_binding b) \/
    (exists id s, w = deactivate id s)) \/ (exists j u, w = insert_task_row j u)
    \/ (exists j n ro now u, w = update_task_row j (set_revision n ro now) /\ holds_task j u k /\ closed u = false)).
  { unfold bind_plan, holds_task in *. unfold create_writes, reopen_writes, revise_writes in Hp.
    destruct (find _ _) as [r|]; [destruct (dget _ (rv_task_id r)); simplify_eq; by apply not_elem_of_nil in Hw|].
    destruct (active_row _ _ k) as [[j u]|] eqn:Ea; [apply active_row_task in Ea|];
      destruct (ba_force_new a); [| destruct (closed u) eqn:Eu; [|case_bool_decide] | |];
      simplify_eq; set_unfold; naive_solver. }
  destruct Hall as [Ho|[(j & u & ->)|(j & n & ro & now & u & -> & Hu & Cu)]].
  - unfold holds_task. by rewrite (other_write _ _ _ Ho E).
  - by eapply holds_insert.
  - eapply holds_update; [|exact Hx|exact E]. intros ->. unfold holds_task in *. congruence.
Qed.

Lemma closed_bind id t a k n ws b : closed t = true -> holds_task id t k -> bind_plan a k = Ok (ws, b) ->
  holds_task id t (run_writes (take n ws) k).1.
Proof.
  intros Hc Hk Hp. apply run_writes_inv; [|done]. intros w Hw x y Hx E.
  eapply closed_plan; [done|exact Hk|exact Hp|by apply (subseteq_take n)|done..].
Qed.

Lemma closed_terminal t : closed t = true -> task_terminal (tk_state t) = true.
Proof. unfold closed. by intros [? _]%andb_true_iff. Qed.

Lemma closed_transition id t j st reason now k :
  closed t = true -> holds_task id t k -> holds_task id t (transition j st reason now k).1.
Proof.
  intros Hc Hk. unfold transition. destruct (dget (kn_tasks k) j) as [u|] eqn:Hj; [|done].
  destruct (task_terminal (tk_state u)) eqn:Eu; [done|].
  assert (j <> id). { intros ->. apply closed_terminal in Hc. unfold holds_task in Hk. congruence. }
  apply run_writes_inv; [|done]. intros w Hw x y Hx E.
  assert (Hall : w = update_task_row j (set_task_state st reason now) \/ exists e, w = emit_event j "" e).
  { unfold transition_writes in Hw. destruct (task_terminal st); set_unfold; naive_solver. }
  destruct Hall as [->|[e ->]]; [by eapply holds_update|]. unfold emit_event in E. by simplify_eq.
Qed.

Section Closed.
Context `{Crypto}.

Lemma closed_step id t k k' : closed t = true -> kstep k k' -> holds_task id t k -> holds_task id t k'.
Proof.
  intros Hc Hs. destruct Hs as [fresh m s msg text f now k|a k|a goal msg k|j st reason now k|j v grade fresh now k|j ac k|j e k|j now k|j code detail now k|j now k]; intros Hk.
  - unfold persist_input. by repeat case_match.
  - apply bind_run; [done|]. intros ws b Hp. pose proof (closed_bind id t a k (length ws) ws b Hc Hk Hp) as Hb. by rewrite firstn_all in Hb.
  - apply ensure_run; [done | | done]. intros a'. apply bind_run; [done|]. intros ws b Hp.
    pose proof (closed_bind id t a' k (length ws) ws b Hc Hk Hp) as Hb. by rewrite firstn_all in Hb.
  - by apply closed_transition.
  - unfold finish_task. destruct (dget _ j) as [u|]; [|done]. destruct (task_terminal _); [done|].
    destruct (vd_failures v) as [|fl fls]; [|done]. destruct (existsb _ _); [done|].
    match goal with |- context [transition j SUCCEEDED ?r ?n ?k1] =>
      pose proof (closed_transition id t j SUCCEEDED r n k1 Hc Hk) as Ht; destruct (transition j SUCCEEDED r n k1) end. done.
  - unfold set_acceptance. by destruct (dget _ j).
  - done.
  - unfold accept_task. destruct (dget _ j) as [u|] eqn:Hj; [|done]. case_bool_decide as Es; [|done]. simpl.
    case_bool_decide as Ea; [done|]. unfold update_task_row. rewrite Hj. simpl. unfold holds_task. simpl.
    rewrite dget_dset_ne; [done|]. intros ->. unfold holds_task in Hk. simplify_eq. unfold closed in Hc.
    apply eq_None_not_Some in Ea. by rewrite Es, Ea, !bool_decide_eq_true_2 in Hc.
  - unfold block_task. by apply closed_transition.
  - unfold park. destruct (dget _ j) as [u|] eqn:Hj; [|done]. destruct (task_terminal _) eqn:Eu; [done|].
    unfold holds_task in *. simpl. rewrite dget_dset_ne; [done|]. intros ->. apply closed_terminal in Hc. congruence.
Qed.

(** C17: A task that was CANCELLED, FAILED or BLOCKED, or SUCCEEDED and accepted by the user,
    never changes again: no message, transition, verification or crash touches its row. *)
Theorem closed_task_final id t k k' :
  closed t = true -> rtc kmove k k' -> dget (kn_tasks k) id = Some t -> dget (kn_tasks k') id = Some t.
Proof.
  intros Hc Hr Hk. change (holds_task id t k'). apply (reach_inv kmove (holds_task id t) k); [done| |done].
  intros x y Hx [Hs|Hs]; [by eapply closed_step|]. revert Hx. destruct Hs as [a ws b n k0 Hp]. intros Hx.
  exact (closed_bind id t a k0 n ws b Hc Hx Hp).
Qed.
End Closed.

(** ** Revisions without gaps, one verification that counts *)

(** The revisions recorded for a task, oldest first. *)
Definition revisions_of (id : string) (l : list revision_row) : list Z :=
  omap (fun r => if String.eqb (rv_task_id r) id then Some (rv_revision r) else None) l.

(** The task of a PASS. *)
Definition pass_key (v : verification_row) : option string := if vf_pass v then Some (vf_task_id v) else None.

(** Every bound task has the revisions 1 to its active one, a task of a failed creation
    none and no binding; a message is recorded once, a task is bound once, and the one PASS a task may have is of its active revision and comes
    with SUCCEEDED. *)
Record kernel_ok (k : kernel) : Prop := {
  ko_dwf : dwf (kn_tasks k);
  ko_revisions id t : dget (kn_tasks k) id = Some t ->
    1 <= tk_active_revision t /\
    (revisions_of id (kn_revisions k) = seqZ 1 (tk_active_revision t) \/
     revisions_of id (kn_revisions k) = [] /\ id ∉ bd_task_id <$> kn_bindings k);
  ko_revised r : r ∈ kn_revisions k -> is_Some (dget (kn_tasks k) (rv_task_id r));
  ko_messages : NoDup (rv_message_id <$> kn_revisions k);
  ko_bound b : b ∈ kn_bindings k -> is_Some (dget (kn_tasks k) (bd_task_id b));
  ko_once : NoDup (bd_task_id <$> kn_bindings k);
  ko_verified v : v ∈ kn_verifications k -> vf_pass v = true ->
    exists t, dget (kn_tasks k) (vf_task_id v) = Some t /\ tk_state t = SUCCEEDED /\ vf_revision v = tk_active_revision t;
  ko_single : NoDup (omap pass_key (kn_verifications k));
}.

Lemma kernel_ok_empty : kernel_ok kernel_empty.
Proof.
  split; simpl; try done; try (by constructor); try (intros ? Hx; by apply not_elem_of_nil in Hx).
Qed.

Lemma revisions_of_app id l l' : revisions_of id (l ++ l') = revisions_of id l ++ revisions_of id l'.
Proof. apply omap_app. Qed.

Lemma revisions_of_in id l n : n ∈ revisions_of id l <-> exists r, r ∈ l /\ rv_task_id r = id /\ rv_revision r = n.
Proof.
  unfold revisions_of. rewrite list_elem_of_omap. split.
  - intros (r & Hr & E). destruct (String.eqb _ _) eqn:Ei; simplify_eq. apply String.eqb_eq in Ei. eauto.
  - intros (r & Hr & <- & <-). exists r. by rewrite String.eqb_refl.
Qed.

(** The invariant reads these columns only. *)
Lemma kernel_ok_same k k' :
  kn_tasks k' = kn_tasks k -> rev_key <$> kn_revisions k' = rev_key <$> kn_revisions k ->
  bd_task_id <$> kn_bindings k' = bd_task_id <$> kn_bindings k -> kn_verifications k' = kn_verifications k ->
  kernel_ok k -> kernel_ok k'.
Proof.
  intros Et Er Eb Ev H. destruct H.
  assert (Em : rv_message_id <$> kn_revisions k' = rv_message_id <$> kn_revisions k).
  { apply (f_equal (fmap snd)) in Er. by rewrite <- !list_fmap_compose in Er. }
  assert (Eo : forall id, revisions_of id (kn_revisions k') = revisions_of id (kn_revisions k)).
  { intros id. unfold revisions_of.
    revert Er. generalize (kn_revisions k) as l, (kn_revisions k') as l'. clear. intros l.
    induction l as [|r l IH]; intros [|r' l'] E; try done. unfold rev_key in E; injection E as E1 E2 E3 E4.
    cbn. rewrite E1, E2. rewrite (IH l') by done. done. }
  split; rewrite ?Et, ?Em, ?Eb, ?Ev; try done.
  - intros id t. rewrite Eo. auto.
  - intros r Hr. assert (Hk : rev_key r ∈ rev_key <$> kn_revisions k) by (rewrite <- Er; by apply list_elem_of_fmap_2).
    apply list_elem_of_fmap in Hk as (r0 & E & Hr0). unfold rev_key in E; injection E as -> _ _. auto.
  - intros b Hb. assert (Hk : bd_task_id b ∈ bd_task_id <$> kn_bindings k) by (rewrite <- Eb; by apply list_elem_of_fmap_2).
    apply list_elem_of_fmap in Hk as (b0 & -> & Hb0). auto.
Qed.

(** Updating the row of a task without a PASS, its revision kept. *)
Lemma kernel_ok_update id t u k :
  dget (kn_tasks k) id = Some t -> tk_active_revision u = tk_active_revision t ->
  (tk_state u = tk_state t \/ tk_state u = SUCCEEDED \/ tk_state t <> SUCCEEDED) ->
  kernel_ok k -> kernel_ok (with_kernel_tasks (dset (kn_tasks k) id u) k).
Proof.
  intros Ht Er Es []. split; simpl; auto with rosclaw.
  - intros j v. rewrite dget_dset. destruct (decide (id = j)) as [->|]; [|auto]. intros; simplify_eq. rewrite Er. auto.
  - intros r Hr. rewrite dget_dset. destruct (decide _); eauto.
  - intros b Hb. rewrite dget_dset. destruct (decide _); eauto.
  - intros v Hv Hp. destruct (ko_verified0 _ Hv Hp) as (t' & Ht' & E1 & E2). rewrite dget_dset.
    destruct (decide (id = vf_task_id v)) as [->|]; [|eauto]. simplify_eq. exists u. rewrite Er. split_and!; [done| |done].
    destruct Es as [->|[->|]]; congruence.
Qed.

Lemma kernel_ok_transition id st reason now k : kernel_ok k -> kernel_ok (transition id st reason now k).1.
Proof.
  intros H. unfold transition. destruct (dget (kn_tasks k) id) as [t|] eqn:Ht; [|done].
  destruct (task_terminal (tk_state t)) eqn:Et; [done|]. unfold transition_writes. cbn [run_writes app]. unfold update_task_row. rewrite Ht.
  assert (H1 : kernel_ok (with_kernel_tasks (dset (kn_tasks k) id (set_task_state st reason now t)) k)).
  { apply (kernel_ok_update id t); try done. right; right. intros E. by rewrite E in Et. }
  cbn. destruct (task_terminal st); cbn; (eapply kernel_ok_same; [| | | |exact H1]); done.
Qed.

(** A binding that inserts the next revision of an open task. *)
Definition next_revised (a : bind_args) (id : string) (t : task_rec) (reopen : bool) (k : kernel) : kernel :=
  with_kernel_tasks (dset (kn_tasks k) id (set_revision (tk_active_revision t + 1) reopen (ba_now a) t))
    (with_revisions (kn_revisions k ++ [new_revision a id (tk_active_revision t + 1) (revised_spec a id t)]) k).

Lemma find_none_message k m : find (fun r => String.eqb (rv_message_id r) m) (kn_revisions k) = None ->
  m ∉ rv_message_id <$> kn_revisions k.
Proof.
  intros Hf Hin. apply list_elem_of_fmap in Hin as (r & -> & Hr).
  apply (find_none _ _ Hf) in Hr || (apply list_elem_of_In in Hr; apply (find_none _ _ Hf) in Hr).
  by rewrite String.eqb_refl in Hr.
Qed.

(** A work order fails for an empty text only. *)
Lemma compile_spec_text text id n body mode locale k : 1 <= n ->
  compile_spec (spec_for text id n body mode locale) k = if truthy_str text then Ok k else Err BadValue.
Proof.
  intros Hn. unfold compile_spec, spec_for.
  assert (Hs := task_spec_compiles id n text body mode "" "" [] [] (if String.eqb locale "auto" then "" else locale) "").
  destruct (compile_task_spec _ _ _ _ _ _ _ _ _ _ _).
  - by destruct (proj1 Hs (ltac:(eauto))) as [_ ->].
  - destruct (truthy_str text); [|done]. by destruct (proj2 Hs (conj Hn eq_refl)).
Qed.

Lemma insert_revision_new a id n spec k :
  find (fun r => String.eqb (rv_message_id r) (ba_message_id a)) (kn_revisions k) = None ->
  n ∉ revisions_of id (kn_revisions k) ->
  insert_revision (new_revision a id n spec) k = Ok (with_revisions (kn_revisions k ++ [new_revision a id n spec]) k).
Proof.
  intros Hf Hn. unfold insert_revision. destruct (existsb _ _) eqn:E; [|done]. exfalso.
  apply existsb_exists in E as (r & Hr & E). apply list_elem_of_In in Hr. simpl in E. apply orb_true_iff in E as [E|E].
  - apply andb_true_iff in E as [E1%String.eqb_eq E2%Z.eqb_eq]. apply Hn, revisions_of_in. eauto.
  - apply String.eqb_eq in E. apply (find_none_message _ _ Hf). rewrite <- E. by apply list_elem_of_fmap_2.
Qed.

(** What [active_row] finds is a task that is bound, with all its revisions. *)
Definition bound_task (id : string) (t : task_rec) (k : kernel) : Prop :=
  dget (kn_tasks k) id = Some t /\ id ∈ bd_task_id <$> kn_bindings k.

Lemma active_row_bound m s k id t : active_row m s k = Some (id, t) -> bound_task id t k.
Proof.
  intros H%newest_in%bound_tasks_in. destruct H as (H & _ & b & Hb & E & _). simpl in *. subst id.
  split; [done|]. by apply list_elem_of_fmap_2.
Qed.

Lemma bound_revisions id t k : kernel_ok k -> bound_task id t k ->
  1 <= tk_active_revision t /\ revisions_of id (kn_revisions k) = seqZ 1 (tk_active_revision t).
Proof. intros H [Ht Hb]. destruct (ko_revisions _ H _ _ Ht) as [H1 [Hr|[_ Hn]]]; [done | by destruct Hn]. Qed.

Lemma next_not_in k id t : kernel_ok k -> bound_task id t k ->
  tk_active_revision t + 1 ∉ revisions_of id (kn_revisions k).
Proof. intros H Ht. destruct (bound_revisions _ _ _ H Ht) as [_ ->]. rewrite elem_of_seqZ. lia. Qed.

Lemma seqZ_next n : 1 <= n -> seqZ 1 n ++ [n + 1] = seqZ 1 (n + 1).
Proof. intros Hn. rewrite (seqZ_app 1 n 1) by lia. f_equal. change (seqZ (1 + n) 1) with [0 + (1 + n)]. f_equal. lia. Qed.

Lemma kernel_ok_next a id t reopen k :
  kernel_ok k -> bound_task id t k ->
  find (fun r => String.eqb (rv_message_id r) (ba_message_id a)) (kn_revisions k) = None ->
  (forall v, v ∈ kn_verifications k -> vf_pass v = true -> vf_task_id v <> id) ->
  kernel_ok (next_revised a id t reopen k).
Proof.
  intros H Ht Hf Hp. destruct (bound_revisions _ _ _ H Ht) as [H1 Hr]. destruct Ht as [Ht _]. destruct H. split; simpl; auto with rosclaw.
  - intros j u. rewrite dget_dset, revisions_of_app. destruct (decide (id = j)) as [->|Hj].
    + intros; simplify_eq. simpl. split; [lia|]. left. rewrite Hr. cbn. rewrite String.eqb_refl. by apply seqZ_next.
    + intros Hu. cbn. rewrite (proj2 (String.eqb_neq id j) Hj), app_nil_r. auto.
  - intros r [Hin| ->%list_elem_of_singleton]%elem_of_app; rewrite dget_dset; destruct (decide _); eauto.
  - rewrite fmap_app. apply NoDup_app. split_and!; [done| |apply NoDup_singleton].
    intros m Hm ->%list_elem_of_singleton. by apply find_none_message in Hf.
  - intros b Hb. rewrite dget_dset. destruct (decide _); eauto.
  - intros v Hv Hvp. rewrite dget_dset. destruct (decide (id = vf_task_id v)) as [E|]; [|auto].
    by destruct (Hp _ Hv Hvp).
Qed.

Lemma supersede_passes id k v k' : supersede id k = Ok k' -> v ∈ kn_verifications k' -> vf_pass v = true ->
  v ∈ kn_verifications k /\ vf_task_id v <> id.
Proof.
  unfold supersede. intros E Hv Hp; simplify_eq. simpl in Hv. apply list_elem_of_fmap in Hv as (u & -> & Hu).
  destruct (vf_pass u && _) eqn:E; [done|]. split; [done|]. intros <-. by rewrite Hp, String.eqb_refl in E.
Qed.

Lemma kernel_ok_supersede id k k' : kernel_ok k -> supersede id k = Ok k' -> kernel_ok k'.
Proof.
  intros H E. assert (Hs := supersede_passes id k). unfold supersede in *. simplify_eq. destruct H. split; simpl in *; auto.
  - intros v Hv Hp. destruct (Hs v _ eq_refl Hv Hp). auto.
  - eapply sublist_NoDup; [exact ko_single0|]. clear. induction (kn_verifications k) as [|v l IH]; [done|].
    cbn. destruct (vf_pass v) eqn:Ep; simpl.
    + destruct (String.eqb _ _); cbn; unfold pass_key; rewrite ?Ep; simpl; by constructor.
    + unfold pass_key. by rewrite Ep.
Qed.

Definition created (a : bind_args) (k : kernel) : kernel :=
  with_bindings (kn_bindings k ++ [{| bd_task_id := ba_fresh a; bd_session_ref := ba_session_ref a; bd_active := true;
                                      bd_created_at := ba_now a |}])
    (with_revisions (kn_revisions k ++ [new_revision a (ba_fresh a) 1 (first_spec a)])
      (with_kernel_tasks (dset (kn_tasks k) (ba_fresh a) (new_task a)) k)).

(** A task whose creation failed after its row. *)
Lemma kernel_ok_orphan id t k : kernel_ok k -> dget (kn_tasks k) id = None -> tk_active_revision t = 1 ->
  kernel_ok (with_kernel_tasks (dset (kn_tasks k) id t) k).
Proof.
  intros H Hn Et. destruct H. split; simpl; auto with rosclaw.
  - intros j u. rewrite dget_dset. destruct (decide (id = j)) as [<-|Hj]; [|auto]. intros; simplify_eq.
    split; [lia|]. right. split.
    + apply elem_of_nil_inv. intros n (r & Hr & E & _)%revisions_of_in. destruct (ko_revised0 _ Hr). congruence.
    + intros (b & E & Hb)%list_elem_of_fmap. destruct (ko_bound0 _ Hb). congruence.
  - intros r Hr. rewrite dget_dset. destruct (decide _); eauto.
  - intros b Hb. rewrite dget_dset. destruct (decide _); eauto.
  - intros v Hv Hvp. destruct (ko_verified0 _ Hv Hvp) as (u & Hu & ?). rewrite dget_dset.
    destruct (decide (id = vf_task_id v)) as [E|]; [congruence|eauto].
Qed.

Lemma kernel_ok_created a k :
  kernel_ok k -> dget (kn_tasks k) (ba_fresh a) = None ->
  find (fun r => String.eqb (rv_message_id r) (ba_message_id a)) (kn_revisions k) = None ->
  kernel_ok (created a k).
Proof.
  intros H Hn Hf. destruct (kernel_ok_orphan _ (new_task a) _ H Hn eq_refl). simpl in *.
  assert (Hb : ba_fresh a ∉ bd_task_id <$> kn_bindings k).
  { intros (b & E & Hb)%list_elem_of_fmap. destruct (ko_bound _ H _ Hb). congruence. }
  split; simpl; try done.
  - intros j u Hu. destruct (ko_revisions0 j u Hu) as [H1 Hr]. split; [done|]. rewrite revisions_of_app. cbn.
    rewrite dget_dset in Hu. destruct (decide (ba_fresh a = j)) as [<-|Hj].
    + simplify_eq. left. rewrite String.eqb_refl. simpl.
      assert (revisions_of (ba_fresh a) (kn_revisions k) = []) as ->; [|done].
      apply elem_of_nil_inv. intros n (r & Hr' & E & _)%revisions_of_in. destruct (ko_revised _ H _ Hr'). congruence.
    + rewrite (proj2 (String.eqb_neq _ j) Hj), app_nil_r. destruct Hr as [|[E Hj']]; [by left|right].
      split; [done|]. rewrite fmap_app. intros [Hin|Hin]%elem_of_app; [done|]. apply list_elem_of_singleton in Hin. by simplify_eq.
  - intros r [Hin| ->%list_elem_of_singleton]%elem_of_app; [auto|]. simpl. rewrite dget_dset_eq. eauto.
  - rewrite fmap_app. apply NoDup_app. split_and!; [done| |apply NoDup_singleton].
    intros m Hm ->%list_elem_of_singleton. by apply find_none_message in Hf.
  - intros b [Hin| ->%list_elem_of_singleton]%elem_of_app; [auto|]. simpl. rewrite dget_dset_eq. eauto.
  - rewrite fmap_app. apply NoDup_app. split_and!; [done| |apply NoDup_singleton].
    intros m Hm ->%list_elem_of_singleton. done.
Qed.

Lemma insert_binding_new b k : (forall b', b' ∈ kn_bindings k -> bd_task_id b' <> bd_task_id b) ->
  insert_binding b k = Ok (with_bindings (kn_bindings k ++ [b]) k).
Proof.
  intros Hb. unfold insert_binding. destruct (existsb _ _) eqn:E; [|done]. exfalso.
  apply existsb_exists in E as (b' & Hb' & E). apply list_elem_of_In in Hb'. apply andb_true_iff in E as [E%String.eqb_eq _].
  by apply (Hb _ Hb').
Qed.

(** What the plans write, when no identifier is taken. *)
Lemma create_run a k :
  kernel_ok k -> find (fun r => String.eqb (rv_message_id r) (ba_message_id a)) (kn_revisions k) = None ->
  kernel_ok (run_writes (create_writes a) k).1 /\
  (ba_dirs_ok a = true -> truthy_str (ba_text a) = true -> ba_manifest_ok a = true -> dget (kn_tasks k) (ba_fresh a) = None ->
   (run_writes (create_writes a) k).2 = Ok tt).
Proof.
  intros H Hf. unfold create_writes. cbn [run_writes]. unfold file_write at 1 3. destruct (ba_dirs_ok a); [|done].
  unfold insert_task_row. destruct (dhas (kn_tasks k) (ba_fresh a)) eqn:En.
  { split; [done|]. intros _ _ _ Hn. apply dhas_false in Hn. congruence. }
  apply dhas_false in En. assert (Hc := kernel_ok_created a k H En Hf). set (k1 := with_kernel_tasks _ k).
  unfold first_spec at 1 3. rewrite !compile_spec_text by done.
  destruct (truthy_str (ba_text a)); [|split; [by apply kernel_ok_orphan|done]].
  rewrite (insert_revision_new a (ba_fresh a) 1 (first_spec a) k1); [|done|].
  2: { intros (r & Hr & E & _)%revisions_of_in. simpl in Hr. destruct (ko_revised _ H _ Hr). congruence. }
  set (k2 := with_revisions _ k1). unfold insert_session. set (found := existsb _ (kn_sessions k2)).
  assert (Hb : forall (k3 : kernel) b, kn_bindings k3 = kn_bindings k -> bd_task_id b = ba_fresh a ->
    insert_binding b k3 = Ok (with_bindings (kn_bindings k3 ++ [b]) k3)).
  { intros k3 b E Eb. apply insert_binding_new. rewrite E, Eb. intros b' Hb'. destruct (ko_bound _ H _ Hb'). congruence. }
  destruct found; (rewrite Hb by done); cbn; unfold file_write; destruct (ba_manifest_ok a); cbn.
  all: split; [|done]; (eapply kernel_ok_same; [| | | |exact Hc]); done.
Qed.

Lemma open_no_pass id t k : kernel_ok k -> dget (kn_tasks k) id = Some t -> tk_state t <> SUCCEEDED ->
  forall v, v ∈ kn_verifications k -> vf_pass v = true -> vf_task_id v <> id.
Proof. intros H Ht Hs v Hv Hp <-. destruct (ko_verified _ H _ Hv Hp) as (t' & Ht' & E & _). congruence. Qed.

Lemma revise_run a id t k :
  kernel_ok k -> find (fun r => String.eqb (rv_message_id r) (ba_message_id a)) (kn_revisions k) = None ->
  bound_task id t k -> tk_state t <> SUCCEEDED ->
  kernel_ok (run_writes (revise_writes a id t) k).1 /\
  (ba_dirs_ok a = true -> truthy_str (ba_text a) = true -> (run_writes (revise_writes a id t) k).2 = Ok tt).
Proof.
  intros H Hf Ht Hs. unfold revise_writes. cbn [run_writes]. unfold file_write. destruct (ba_dirs_ok a); [|done].
  assert (Hn : 1 <= tk_active_revision t + 1) by (destruct (bound_revisions _ _ _ H Ht); lia).
  unfold revised_spec at 1 3. rewrite !compile_spec_text by done. destruct (truthy_str (ba_text a)); [|done].
  rewrite (insert_revision_new a id) by (done || by apply next_not_in).
  unfold update_task_row. cbn. rewrite (proj1 Ht). cbn. split; [|done].
  eapply kernel_ok_same; [| | | |apply (kernel_ok_next a id t false k H Ht Hf)]; try done. destruct Ht. by eapply open_no_pass.
Qed.

Lemma reopen_run a id t n k :
  kernel_ok k -> find (fun r => String.eqb (rv_message_id r) (ba_message_id a)) (kn_revisions k) = None ->
  bound_task id t k ->
  kernel_ok (run_writes (reopen_writes a id t n) k).1 /\
  (ba_dirs_ok a = true -> truthy_str (ba_text a) = true -> (run_writes (reopen_writes a id t n) k).2 = Ok tt).
Proof.
  intros H Hf Ht. unfold reopen_writes. cbn [run_writes]. unfold file_write. destruct (ba_dirs_ok a); [|done].
  assert (Hn : 1 <= tk_active_revision t + 1) by (destruct (bound_revisions _ _ _ H Ht); lia).
  unfold revised_spec at 1 3. rewrite !compile_spec_text by done. destruct (truthy_str (ba_text a)); [|done].
  rewrite (insert_revision_new a id) by (done || by apply next_not_in).
  unfold update_task_row. cbn. rewrite (proj1 Ht). cbn. split; [|done].
  assert (exists k1, supersede id k = Ok k1) as [k1 Es] by (unfold supersede; eauto).
  assert (Hnx := kernel_ok_next a id t true k1 (kernel_ok_supersede _ _ _ H Es)).
  assert (Hv := fun v => supersede_passes id k v k1 Es). unfold supersede in Es. injection Es as <-.
  eapply kernel_ok_same; [| | | |apply Hnx]; try done. intros v Hin Hp. by apply Hv.
Qed.

(** A binding keeps the invariant, and ends unless a directory or file cannot be made. *)
Lemma bind_run_ok a k : kernel_ok k ->
  kernel_ok (bind_message a k).1 /\
  (ba_dirs_ok a = true -> truthy_str (ba_text a) = true -> ba_manifest_ok a = true -> dget (kn_tasks k) (ba_fresh a) = None ->
   exists b, (bind_message a k).2 = Ok b).
Proof.
  intros H.
  assert (Hgo : forall ws b, bind_plan a k = Ok (ws, b) -> kernel_ok (run_writes ws k).1 /\
    (ba_dirs_ok a = true -> truthy_str (ba_text a) = true -> ba_manifest_ok a = true ->
     dget (kn_tasks k) (ba_fresh a) = None -> (run_writes ws k).2 = Ok tt)).
  { unfold bind_plan. intros ws b Hp. destruct (find _ _) as [r|] eqn:Hf; [destruct (dget _ _); by simplify_eq|].
    destruct (active_row _ _ k) as [[id t]|] eqn:Ea; destruct (ba_force_new a); simplify_eq; try (by apply create_run).
    - cbn [run_writes app]. unfold deactivate. match goal with |- context [run_writes (create_writes a) ?x] =>
        assert (Hx : kernel_ok x); [|by destruct (create_run a x Hx Hf)] end. apply (kernel_ok_same k); try done.
      simpl. rewrite <- list_fmap_compose. apply list_fmap_ext. intros ? b _. simpl. by case_match.
    - apply active_row_bound in Ea. destruct (closed t); [simplify_eq; by apply create_run|].
      case_bool_decide; simplify_eq; [destruct (reopen_run a id t (Z.of_nat (length (passes_of id k))) k H Hf Ea)
                                     |destruct (revise_run a id t k H Hf Ea)]; auto. }
  unfold bind_message. destruct (bind_plan a k) as [[ws b]|e] eqn:Hp.
  - destruct (Hgo _ _ eq_refl) as [H1 H2]. destruct (run_writes ws k) as [k' [u|e]]; simpl in *; split; eauto.
    intros Hd Hx Hm Hn. by specialize (H2 Hd Hx Hm Hn).
  - split; [done|]. intros _ _ _ _. unfold bind_plan in Hp. destruct (find _ _) as [r|] eqn:Hf.
    + apply find_some in Hf as [Hr _]. apply list_elem_of_In in Hr. destruct (ko_revised _ H _ Hr) as [t Ht]. by rewrite Ht in Hp.
    + by repeat case_match; simplify_eq.
Qed.

Lemma transition_open id st reason now k t : dget (kn_tasks k) id = Some t -> task_terminal (tk_state t) = false ->
  exists k', transition id st reason now k = (k', Ok tt) /\
    kn_tasks k' = dset (kn_tasks k) id (set_task_state st reason now t) /\ kn_revisions k' = kn_revisions k /\
    kn_bindings k' = kn_bindings k /\ kn_verifications k' = kn_verifications k.
Proof.
  intros Ht Et. unfold transition. rewrite Ht, Et. unfold transition_writes. cbn [run_writes app]. unfold update_task_row. rewrite Ht.
  destruct (task_terminal st); cbn -[set_task_state]; eauto 10.
Qed.

Lemma kernel_ok_finish id v grade fresh now k : kernel_ok k -> kernel_ok (finish_task id v grade fresh now k).1.
Proof.
  intros H. unfold finish_task. destruct (dget (kn_tasks k) id) as [t|] eqn:Ht; [|done].
  destruct (task_terminal (tk_state t)) eqn:Et; [done|]. destruct (vd_failures v) as [|fl fls]; [|by apply (kernel_ok_same k)].
  destruct (existsb _ _); [done|].
  match goal with |- context [transition id SUCCEEDED ?r ?n ?k1] =>
    destruct (transition_open id SUCCEEDED r n k1 t Ht Et) as (k' & -> & E1 & E2 & E3 & E4) end. simpl in E2, E3, E4 |- *.
  assert (Hn : forall v, v ∈ kn_verifications k -> vf_pass v = true -> vf_task_id v <> id).
  { apply (open_no_pass _ t); [done..|]. intros E. by rewrite E in Et. }
  assert (H1 : kernel_ok (with_kernel_tasks (dset (kn_tasks k) id (set_task_state SUCCEEDED "verification_passed" now t)) k)).
  { apply (kernel_ok_update id t); auto. }
  destruct H1. split; rewrite ?E1, ?E2, ?E3, ?E4; try done; simpl in *.
  - intros w [Hw| ->%list_elem_of_singleton]%elem_of_app Hp; [auto|]. simpl. rewrite dget_dset_eq. eauto.
  - rewrite omap_app. apply NoDup_app. split_and!; [done| |apply NoDup_singleton]. cbn.
    intros i (w & Hw & E)%list_elem_of_omap ->%list_elem_of_singleton. unfold pass_key in E.
    destruct (vf_pass w) eqn:Ep; [|done]. injection E. by apply Hn.
Qed.

Section Kernel_ok.
Context `{Crypto}.

Lemma kernel_ok_step k k' : kstep k k' -> kernel_ok k -> kernel_ok k'.
Proof.
  intros Hs. destruct Hs as [fresh m s msg text f now k|a k|a goal msg k|j st reason now k|j v grade fresh now k|j ac k|j e k|j now k|j code detail now k|j now k]; intros Hk.
  - unfold persist_input. repeat case_match; try done. by apply (kernel_ok_same k).
  - by apply bind_run_ok.
  - apply ensure_run; [done| |]; [intros; by apply bind_run_ok|]. intros ? ? x Hx. by apply (kernel_ok_same x).
  - by apply kernel_ok_transition.
  - by apply kernel_ok_finish.
  - unfold set_acceptance. destruct (dget _ j); [|done]. apply (kernel_ok_same k); try done. simpl.
    rewrite <- list_fmap_compose. apply list_fmap_ext. intros ? r _. simpl. by case_match.
  - by apply (kernel_ok_same k).
  - unfold accept_task. destruct (dget _ j) as [t|] eqn:Hj; [|done]. case_bool_decide; [|done]. simpl. case_bool_decide; [done|].
    unfold update_task_row. rewrite Hj. cbn -[set_user_accepted].
    apply (kernel_ok_same (with_kernel_tasks (dset (kn_tasks k) j (set_user_accepted now t)) k)); try done.
    apply (kernel_ok_update j t); auto.
  - unfold block_task. apply kernel_ok_transition. by apply (kernel_ok_same k).
  - unfold park. destruct (dget _ j) as [t|] eqn:Hj; [|done]. destruct (task_terminal _) eqn:Et; [done|].
    apply (kernel_ok_update j t); auto. right; right. intros E. by rewrite E in Et.
Qed.

(** C14: Whatever messages are bound and whatever verifications, transitions and acceptances
    come in between, directories that cannot be made included: the revisions of a bound task
    are 1 to its active one, a message is recorded once, and a task has at most one PASS,
    for its active revision, and only while it is SUCCEEDED; so a message that reopens it
    leaves none. *)
Theorem kernel_consistent k k' : kernel_ok k -> rtc kstep k k' -> kernel_ok k'.
Proof. intros Hk Hr. eapply reach_inv; [exact Hk| |exact Hr]. intros x y Hx Hs. by eapply kernel_ok_step. Qed.
End Kernel_ok.

(** Where nothing has crashed a message with a text is always bound: with a fresh
    identifier and a disk that works, [bind_message] answers, and what it answers is recorded. *)
Theorem bind_answers a k :
  kernel_ok k -> ba_dirs_ok a = true -> truthy_str (ba_text a) = true -> ba_manifest_ok a = true -> dget (kn_tasks k) (ba_fresh a) = None ->
  exists b, (bind_message a k).2 = Ok b /\ recorded a b (bind_message a k).1.
Proof.
  intros H Hd Hx Hm Hn. destruct (bind_run_ok a k H) as [_ Hb]. destruct (Hb Hd Hx Hm Hn) as [b E]. exists b. split; [done|].
  apply (bind_recorded a k). destruct (bind_message a k). simpl in *. by subst.
Qed.

(** ** A crash within a binding *)

Lemma insert_revision_taken r id n k : rv_task_id r = id -> rv_revision r = n -> r ∈ kn_revisions k ->
  forall r', rv_task_id r' = id -> rv_revision r' = n -> insert_revision r' k = Err Constraint.
Proof.
  intros <- <- Hr r' E1 E2. unfold insert_revision.
  assert (existsb (fun r0 => (String.eqb (rv_task_id r0) (rv_task_id r') && (rv_revision r0 =? rv_revision r'))
    || String.eqb (rv_message_id r0) (rv_message_id r')) (kn_revisions k) = true) as ->; [|done].
  apply existsb_exists. exists r. split; [by apply list_elem_of_In|]. by rewrite E1, E2, String.eqb_refl, Z.eqb_refl.
Qed.

(** The first writes of a binding to an open task. *)
Lemma revision_first a k id t :
  message_row (ba_message_id a) k = None -> ba_force_new a = false ->
  active_row (ba_mission_id a) (ba_session_ref a) k = Some (id, t) -> closed t = false ->
  exists ws b, bind_plan a k = Ok (file_write (ba_dirs_ok a) :: compile_spec (revised_spec a id t) ::
    insert_revision (new_revision a id (tk_active_revision t + 1) (revised_spec a id t)) :: ws, b).
Proof.
  unfold message_row, bind_plan. intros Hm Hf Ha Hc. destruct (find _ _); [done|]. rewrite Hf, Ha, Hc.
  case_bool_decide; unfold reopen_writes, revise_writes; eauto.
Qed.

Section Crash.
Context `{Crypto}.

(** C40: The INSERT of a revision and the UPDATE of its task commit apart. A process that dies
    between them leaves the task as it was; the lost message is then answered with a
    revision the task does not have, and every later message of the session fails on the
    primary key of the revisions. *)
Theorem torn_binding_wedges a k id t :
  kernel_ok k -> message_row (ba_message_id a) k = None -> ba_force_new a = false -> ba_dirs_ok a = true ->
  truthy_str (ba_text a) = true -> active_row (ba_mission_id a) (ba_session_ref a) k = Some (id, t) -> closed t = false ->
  let k' := with_revisions (kn_revisions k ++ [new_revision a id (tk_active_revision t + 1) (revised_spec a id t)]) k in
  kcrash k k' /\
  bind_message a k' = (k', Ok (mk_bound id (tk_active_revision t + 1) false true false (tk_workspace_path t) (tk_state t))) /\
  forall a', ba_mission_id a' = ba_mission_id a -> ba_session_ref a' = ba_session_ref a ->
    ba_force_new a' = false -> ba_dirs_ok a' = true -> truthy_str (ba_text a') = true -> message_row (ba_message_id a') k' = None ->
    bind_message a' k' = (k', Err Constraint).
Proof.
  intros Hok Hm Hf Hd Hx Ha Hc. set (r := new_revision a id (tk_active_revision t + 1) (revised_spec a id t)). intros k'.
  assert (Ht := active_row_bound _ _ _ _ _ Ha).
  assert (Hn : 1 <= tk_active_revision t + 1) by (destruct (bound_revisions _ _ _ Hok Ht); lia).
  assert (Hr : insert_revision r k = Ok k').
  { apply insert_revision_new; [|by apply next_not_in]. unfold message_row in Hm. by destruct (find _ _). }
  split_and!.
  - destruct (revision_first a k id t Hm Hf Ha Hc) as (ws & b & Hp). pose proof (k_crash a _ b 3 k Hp) as Hk.
    rewrite Hd in Hk. cbn [take run_writes] in Hk. unfold file_write in Hk.
    unfold revised_spec at 1 in Hk. rewrite compile_spec_text, Hx in Hk by done. fold r in Hk. by rewrite Hr in Hk.
  - apply bind_replay; [|by destruct Ht]. by apply insert_revision_row in Hr.
  - intros a' Em Es Hf' Hd' Hx' Hm'.
    assert (Ha' : active_row (ba_mission_id a') (ba_session_ref a') k' = Some (id, t)) by (by rewrite Em, Es).
    destruct (revision_first a' k' id t Hm' Hf' Ha' Hc) as (ws & b & Hp). unfold bind_message. rewrite Hp, Hd'.
    cbn [run_writes file_write]. unfold revised_spec at 1. rewrite compile_spec_text, Hx' by done. rewrite (insert_revision_taken r id (tk_active_revision t + 1) k'); try done.
    simpl. apply elem_of_app. right. by left.
Qed.
End Crash.

(** ** A session at work *)

Definition at_second (n : Z) : datetime := DT (1785902400000000 + n * 1000000) 0.

Definition user_message (id text fresh : string) (n : Z) : bind_args :=
  {| ba_mission_id := "m1"; ba_session_ref := "s1"; ba_native_id := "pi-1"; ba_message_id := id; ba_text := text;
     ba_cwd := "/p"; ba_mode := "SIMULATION"; ba_body_id := ""; ba_locale := "auto"; ba_force_new := false;
     ba_workspace := "/p"; ba_fresh := fresh; ba_now := at_second n; ba_dirs_ok := true;
     ba_manifest_ok := true |}.

Definition walk := user_message "msg1" "walk to the door" "task1" 1.
Definition slower := user_message "msg2" "slower" "task2" 4.
Definition again := user_message "msg3" "again" "task3" 6.

(** The task is opened, then verified, then sent back by a second message. *)
Definition opened_k : kernel := Eval vm_compute in (bind_message walk kernel_empty).1.
Definition verified_k : kernel := Eval vm_compute in (finish_task "task1" {| vd_checks := 3; vd_failures := [] |} "" "v1" (at_second 3) opened_k).1.
Definition reopened_k : kernel := Eval vm_compute in (bind_message slower verified_k).1.
Definition blocked_k : kernel := Eval vm_compute in (block_task "task1" "NO_PATH" "door closed" (at_second 5) reopened_k).1.
Definition renewed_k : kernel := Eval vm_compute in (bind_message again blocked_k).1.

Definition summary (id : string) (k : kernel) : option (task_state * Z * list Z * nat) :=
  t ← dget (kn_tasks k) id;
  Some (tk_state t, tk_active_revision t, revisions_of id (kn_revisions k), length (passes_of id k)).

Example session_runs :
  (summary "task1" opened_k, summary "task1" verified_k, summary "task1" reopened_k,
   summary "task1" renewed_k, summary "task3" renewed_k) =
  (Some (RUNNING, 1, [1], 0%nat), Some (SUCCEEDED, 1, [1], 1%nat), Some (RUNNING, 2, [1; 2], 0%nat),
   Some (BLOCKED, 2, [1; 2], 0%nat), Some (RUNNING, 1, [1], 0%nat)).
Proof. vm_compute. reflexivity. Qed.

Section Demo.
#[local] Existing Instance toy_crypto.


Lemma opened_step : kstep kernel_empty opened_k.
Proof. change opened_k with (bind_message walk kernel_empty).1. apply k_bind. Qed.
Lemma verified_step : kstep opened_k verified_k.
Proof. change verified_k with (finish_task "task1" {| vd_checks := 3; vd_failures := [] |} "" "v1" (at_second 3) opened_k).1. apply k_finish. Qed.
Lemma reopened_step : kstep verified_k reopened_k.
Proof. change reopened_k with (bind_message slower verified_k).1. apply k_bind. Qed.
Lemma blocked_step : kstep reopened_k blocked_k.
Proof. change blocked_k with (block_task "task1" "NO_PATH" "door closed" (at_second 5) reopened_k).1. apply k_block. Qed.
Lemma renewed_step : kstep blocked_k renewed_k.
Proof. change renewed_k with (bind_message again blocked_k).1. apply k_bind. Qed.

Lemma reopened_run : rtc kstep kernel_empty reopened_k.
Proof. eapply rtc_l; [exact opened_step|]. eapply rtc_l; [exact verified_step|]. apply rtc_once, reopened_step. Qed.

Lemma kernel_consistent_witness :
  (exists v, v ∈ kn_verifications verified_k /\ vf_pass v = true) /\
  NoDup (omap pass_key (kn_verifications reopened_k)) /\ revisions_of "task1" (kn_revisions reopened_k) = [1; 2].
Proof.
  split; [eexists; split; [left | reflexivity]|].
  pose proof (kernel_consistent kernel_empty reopened_k kernel_ok_empty reopened_run) as H.
  destruct (dget (kn_tasks reopened_k) "task1") as [t|] eqn:E; [|vm_compute in E; discriminate E].
  split; [exact (ko_single _ H)|]. vm_compute. reflexivity.
Defined.

Lemma message_bound_once_witness :
  exists st, bind_message walk blocked_k = (blocked_k, Ok (mk_bound "task1" 1 false true false "/p" st)).
Proof.
  apply (message_bound_once walk kernel_empty opened_k (mk_bound "task1" 1 true false false "/p" RUNNING) blocked_k walk).
  - vm_compute. reflexivity.
  - eapply rtc_l; [left; exact verified_step|]. eapply rtc_l; [left; exact reopened_step|].
    apply rtc_once. left. exact blocked_step.
  - reflexivity.
Defined.

Lemma closed_task_final_witness :
  exists t, dget (kn_tasks renewed_k) "task1" = Some t /\ tk_state t = BLOCKED.
Proof.
  destruct (dget (kn_tasks blocked_k) "task1") as [t|] eqn:E; [|vm_compute in E; discriminate E].
  exists t. split.
  - apply (closed_task_final "task1" t blocked_k renewed_k); [|apply rtc_once; left; exact renewed_step | exact E].
    vm_compute in E. injection E as <-. reflexivity.
  - vm_compute in E. injection E as <-. reflexivity.
Defined.

(** The process dies within the second message: the third is refused. *)
Definition torn_k : kernel := Eval vm_compute in
  with_revisions (kn_revisions opened_k ++ [new_revision slower "task1" 2 (spec_for "slower" "task1" 2 "" "SIMULATION" "auto")]) opened_k.

Lemma torn_binding_wedges_witness :
  bind_message again torn_k = (torn_k, Err Constraint) /\ summary "task1" torn_k = Some (RUNNING, 1, [1; 2], 0%nat).
Proof.
  destruct (dget (kn_tasks opened_k) "task1") as [t|] eqn:E; [|vm_compute in E; discriminate E].
  vm_compute in E. injection E as <-.
  destruct (torn_binding_wedges slower opened_k "task1" _ (kernel_ok_step _ _ opened_step kernel_ok_empty)
    eq_refl eq_refl eq_refl eq_refl ltac:(vm_compute; reflexivity) eq_refl) as (_ & _ & Hl).
  split; [|vm_compute; reflexivity]. by apply (Hl again).
Defined.
End Demo.

(** ** Answers that differ from the rows *)

Section Answers.
Context `{Crypto}.

(** The first answer to an input for a new task says PERSISTED, its row and the answer to
    its repetition FORCE_NEW. *)
Lemma force_new_answer fresh m s msg text now k :
  find (fun u => String.eqb (ui_message_id u) msg) (kn_inputs k) = None ->
  existsb (fun u => String.eqb (ui_input_id u) fresh) (kn_inputs k) = false ->
  exists u u', (persist_input fresh m s msg text true now k).2 = Ok u /\ ui_delivery_state u = "PERSISTED" /\
    forall fresh' text' now', (persist_input fresh' m s msg text' true now' (persist_input fresh m s msg text true now k).1).2 = Ok u' /\
      ui_delivery_state u' = "FORCE_NEW".
Proof.
  intros Hf Hi. unfold persist_input. rewrite Hf, Hi. simpl.
  exists (new_input "PERSISTED" fresh m s msg text now), (new_input "FORCE_NEW" fresh m s msg text now).
  split_and!; [done..|]. intros fresh' text' now'. split; [|done].
  assert (E : find (fun u => String.eqb (ui_message_id u) msg) (kn_inputs k ++ [new_input "FORCE_NEW" fresh m s msg text now])
    = Some (new_input "FORCE_NEW" fresh m s msg text now)); [|by rewrite E].
  clear Hi. induction (kn_inputs k) as [|u l IH]; cbn in *; [by rewrite String.eqb_refl|]. destruct (String.eqb _ msg); auto. done.
Qed.

(** An effect motivated by an input that already has a task is answered with that task,
    even a closed one, whatever new goal it names. *)
Lemma attached_goal_ignored a goal msg k id t :
  attached (latest_input (ba_mission_id a) (ba_session_ref a) k) k = Some (id, t) ->
  ensure_task_for_effect a goal msg k =
    (k, Ok (mk_bound id (tk_active_revision t) false false false (tk_workspace_path t) (tk_state t))).
Proof.
  intros Ha. unfold ensure_task_for_effect. destruct (latest_input _ _ k) as [u|] eqn:E; [|done]. by rewrite Ha.
Qed.
End Answers.

(** A message without a text that should open a task raises after the row of the task:
    the row stays RUNNING, with no revision and no session, and a repetition leaves another. *)
Lemma empty_goal_orphan a k :
  ba_text a = "" -> ba_dirs_ok a = true -> dget (kn_tasks k) (ba_fresh a) = None ->
  message_row (ba_message_id a) k = None -> active_row (ba_mission_id a) (ba_session_ref a) k = None ->
  bind_message a k = (with_kernel_tasks (dset (kn_tasks k) (ba_fresh a) (new_task a)) k, Err BadValue).
Proof.
  intros Ht Hd Hn Hm Ha. unfold bind_message, bind_plan. unfold message_row in Hm. destruct (find _ _); [done|].
  rewrite Ha. apply dhas_false in Hn.
  destruct (ba_force_new a); cbn [run_writes create_writes app]; unfold file_write, insert_task_row;
    rewrite Hd, Hn; unfold first_spec; rewrite compile_spec_text, Ht by done; done.
Qed.
