(* ===== verification/Evidence.v ===== *)
(** The evidence of a task: artifacts, their verification and the outcome of a task.

    src/src/rosclaw/task_kernel/service.py (register_artifact, finish_task), verifier.py,
    deliverables.py, run_store.py and coordinator.py, over the kernel of Tasks.v. Files,
    the programs an acceptance runs, what json.loads makes of a receipt, the plan events
    and receipts other code records, and the manifest of a robot are the [surroundings]. Of the metadata
    of an artifact the model keeps the fields the code reads. A failure is a value of
    [failure] instead of its text; [fingerprint] is the hash of the sorted texts. *)

From S2P Require Export Tasks Float64.
From S2P Require Operations.
Open Scope list_scope.

(** ** Paths and SQL patterns *)

(** [Path(a) / b] *)
Definition path_join (a b : string) : string := if String.prefix "/" b then b else a +:+ "/" +:+ b.

Fixpoint split_slash (s : string) : list string :=
  match s with
  | EmptyString => [""]
  | String c s' =>
      if Ascii.eqb c "/" then "" :: split_slash s'
      else match split_slash s' with x :: l => String c x :: l | [] => [String c ""] end
  end.

(** The parts of a path; pathlib drops empty ones and single dots. *)
Definition path_parts (s : string) : list string :=
  filter (fun x => negb (String.eqb x "" || String.eqb x ".") = true) (split_slash s).

(** [Path.name], [Path.parent.name] *)
Definition path_name (s : string) : string := default "" (last (path_parts s)).
Definition parent_name (s : string) : string := default "" (last (removelast (path_parts s))).

(** ASCII letters without their case. *)
Definition fold_char (c : ascii) : ascii :=
  if (65 <=? ord c) && (ord c <=? 90) then ascii_of_N (Z.to_N (ord c + 32)) else c.

(** SQLite's LIKE: [%] any text, [_] any character, ASCII letters without their case. *)
Fixpoint like (pattern : string) : string -> bool :=
  match pattern with
  | EmptyString => fun s => String.eqb s ""
  | String p ps =>
      if Ascii.eqb p "%" then
        fix star s := like ps s || match s with EmptyString => false | String _ s' => star s' end
      else fun s =>
        match s with
        | EmptyString => false
        | String c s' => (Ascii.eqb p "_" || Ascii.eqb (fold_char p) (fold_char c)) && like ps s'
        end
  end.

(** ** Run directories *)

Definition ZONES : list string := ["scratch"; "outputs"; "evidence"; "logs"].

Definition run_dir (home task_id : string) (revision : Z) : string :=
  path_join (path_join (path_join home "runs") task_id) ("r" +:+ Z_to_str revision).

(** [path] and [base] are resolved. *)
Definition under_dir (base path : string) : bool := String.eqb path base || String.prefix (base +:+ "/") path.

Definition zone_of (base path : string) : string :=
  match find (fun z => under_dir (path_join base z) path) ZONES with Some z => z | None => "" end.

(** ** Artifacts *)

Record lineage := {
  ln_kind : string;
  ln_render_receipt_path : string;
  ln_render_receipt_digest : string;
  ln_input_trace_digest : string;
  ln_trace_id : string;
  ln_task_id : string;
  ln_revision : option Z;
}.

Record resource_proof := {
  rp_resource_id : option string;
  rp_quality : option string;
  rp_canonical : bool;
  rp_model_digest : option string;
}.

Record metadata := {
  md_lineage : option lineage;
  md_resource : option resource_proof;
  md_zone : string;
  md_evidence_tier : option string;
  md_levels : list string;
}.

Record artifact_row := {
  ar_id : string;
  ar_task_id : string;
  ar_revision : Z;
  ar_path : string;
  ar_media_type : string;
  ar_sha256 : string;
  ar_size : Z;
  ar_operation_id : option string;
  ar_producer : string;
  ar_metadata : metadata;
  ar_created_at : datetime;
}.

Inductive disk_node := NoFile | Directory | Content (bytes : string).

Definition on_disk (n : disk_node) : bool := match n with NoFile => false | _ => true end.

(** [read_bytes]; [FileNotFoundError] and [IsADirectoryError] are [OSError]s. *)
Definition read_bytes (n : disk_node) : result kernel_exn string :=
  match n with Content b => Ok b | _ => Err OSFailed end.

Inductive run_end := Exited (code : Z) | TimedOut.

(** [su_input_trace_digest]: what a receipt's text says, [None] where it is not JSON.
    [su_run]: a command line in a workspace. [su_manifest]: the digest of the model in the
    manifest of a robot, if it has one. *)
Record surroundings := {
  su_home : string;
  su_file : string -> disk_node;
  su_size : string -> Z;
  su_resolve : string -> string;
  su_mtime : string -> float;
  su_input_trace_digest : string -> option string;
  su_which : string -> bool;
  su_run : string -> list string -> run_end;
  su_plan_events : string -> bool;
  su_receipts : string -> bool;
  su_manifest : string -> option string;
}.

(** [st_size]; the size of a directory is not of its content. *)
Definition size_of (w : surroundings) (path : string) : Z :=
  match su_file w path with Content b => Z.of_nat (String.length b) | _ => su_size w path end.

(** ** Verification *)

Definition verify_artifact (w : surroundings) `{Crypto} (a : artifact_row) : result kernel_exn (list failure) :=
  let name := path_name (ar_path a) in
  if negb (on_disk (su_file w (ar_path a))) then Ok [ArtifactAbsent name]
  else if size_of w (ar_path a) =? 0 then Ok [ArtifactEmpty name]
  else rbind (read_bytes (su_file w (ar_path a))) (fun b =>
    Ok (if String.eqb (sha256_hex b) (ar_sha256 a) then [] else [HashMismatch name])).

Section Verify.
Context `{Crypto} (w : surroundings).

Definition verify_artifacts (l : list artifact_row) : result kernel_exn (list failure) :=
  rbind (mapr (verify_artifact w) l) (fun fs => Ok (concat fs)).

Definition ARGV0_ALLOWLIST : list string := ["python3"; "python"; "pytest"].

(** [required_files]: present, and under the workspace as its text goes. *)
Definition required_file (workspace rel : string) : list failure :=
  let candidate := su_resolve w (path_join workspace rel) in
  if String.prefix (su_resolve w workspace) candidate && on_disk (su_file w candidate) then [] else [FileMissing rel].

Definition acceptance_run (workspace : string) (argv : list string) : list failure :=
  let argv0 := default "" (head argv) in
  if negb (bool_decide (argv0 ∈ ARGV0_ALLOWLIST)) then [InterpreterRefused argv0]
  else if negb (su_which w argv0) then [InterpreterAbsent argv0]
  else match su_run w workspace argv with
       | Exited 0 => []
       | Exited code => [TestFailed code]
       | TimedOut => [TestTimedOut]
       end.

Definition verify_acceptance (ac : option acceptance) (workspace : string) : Z * list failure :=
  match ac with
  | None => (0, [])
  | Some ac =>
      let run := match ac_run ac with Some argv => acceptance_run workspace argv | None => [] end in
      (Z.of_nat (length (ac_required_files ac)) + (if bool_decide (is_Some (ac_run ac)) then 1 else 0),
       concat (required_file workspace <$> ac_required_files ac) ++ run)
  end.

Definition verdict_for (artifacts : list artifact_row) (ac : option acceptance) (workspace summary : string)
    (require_trusted_evidence trusted_evidence_present : bool) (extra_failures : list failure)
    : result kernel_exn verdict :=
  rbind (verify_artifacts artifacts) (fun fs =>
    let fixtures := (fun a => FixtureUsed (path_name (ar_path a))) <$>
      filter (fun a => contains "tests/fixtures" (ar_path a) = true) artifacts in
    let trusted := if require_trusted_evidence && negb trusted_evidence_present then [TrustedEvidenceMissing] else [] in
    let '(acc_checks, acc_failures) := verify_acceptance ac workspace in
    let failures := fs ++ fixtures ++ trusted ++ extra_failures ++ acc_failures in
    let checks := Z.of_nat (length artifacts) + acc_checks in
    Ok (if checks =? 0 then
          {| vd_checks := 1; vd_failures := failures ++ (if nonblank summary then [] else [NothingChecked]) |}
        else {| vd_checks := checks; vd_failures := failures |})).

(** ** Deliverables *)

(** [lineage.kind], or data. *)
Definition artifact_delivery_kind (a : artifact_row) : string :=
  let kind := match md_lineage (ar_metadata a) with Some l => ln_kind l | None => "" end in
  if truthy_str kind then kind else "data".

(** An artifact of the ledger satisfies [d]. *)
Definition satisfies (d : deliverable) (a : artifact_row) : bool :=
  String.eqb (artifact_delivery_kind a) (artifact_kind_for (dl_kind d))
  && (negb (truthy_str (dl_media_type d)) || String.eqb (ar_media_type a) (dl_media_type d)).

Definition deliverable_verdict (ds : list deliverable) (ledger : list artifact_row) : list string * list string :=
  let ds := filter (fun d => truthy_str (dl_kind d) = true) ds in
  (dl_kind <$> filter (fun d => existsb (satisfies d) ledger = true) ds,
   dl_kind <$> filter (fun d => negb (existsb (satisfies d) ledger) && dl_required d = true) ds).
End Verify.

(** ** The ledger of a task *)

Record dossier := {
  do_kernel : kernel;
  do_artifacts : list artifact_row;
}.

Definition with_kernel (k : kernel) (d : dossier) : dossier := {| do_kernel := k; do_artifacts := do_artifacts d |}.
Definition with_artifacts (l : list artifact_row) (d : dossier) : dossier := {| do_kernel := do_kernel d; do_artifacts := l |}.

Definition artifacts_for_revision (task_id : string) (revision : Z) (d : dossier) : list artifact_row :=
  filter (fun a => String.eqb (ar_task_id a) task_id && (ar_revision a =? revision) = true) (do_artifacts d).

(** The row of the active revision. *)
Definition revision_of (task_id : string) (revision : Z) (k : kernel) : option revision_row :=
  find (fun r => String.eqb (rv_task_id r) task_id && (rv_revision r =? revision)) (kn_revisions k).

Definition get_task_spec (task_id : string) (k : kernel) : option task_spec :=
  t ← dget (kn_tasks k) task_id; r ← revision_of task_id (tk_active_revision t) k; rv_task_spec r.

Definition get_acceptance_spec (task_id : string) (k : kernel) : option acceptance_spec :=
  t ← dget (kn_tasks k) task_id; r ← revision_of task_id (tk_active_revision t) k; snd <$> rv_acceptance r.

Definition EMBODIMENT_TOOLS : list string := ["rosclaw_task"; "rosclaw_execute"; "rosclaw_request_action"].

Definition note_tool_use (task_id tool : string) (k : kernel) : kernel :=
  if bool_decide (tool ∈ EMBODIMENT_TOOLS) then with_kernel_event task_id None (ToolUsed tool) k else k.

Definition task_used_embodiment (task_id : string) (k : kernel) : bool :=
  existsb (fun e => String.eqb e.1.1 task_id && match e.2 with ToolUsed _ => true | _ => false end) (kn_events k).

(** ** Finishing a task *)

Definition starts (p s : string) : bool := String.prefix p s.

Section Finish.
Context `{Crypto} (w : surroundings).

(** The artifacts a request names, of the active revision; those of another one. *)
Definition selected (task_id : string) (revision : Z) (ids : list string) (d : dossier) : list artifact_row :=
  filter (fun a => bool_decide (ar_id a ∈ ids) = true) (artifacts_for_revision task_id revision d).
Definition spliced (task_id : string) (revision : Z) (ids : list string) (d : dossier) : list artifact_row :=
  filter (fun a => String.eqb (ar_task_id a) task_id && bool_decide (ar_id a ∈ ids) && negb (ar_revision a =? revision) = true)
    (do_artifacts d).

Definition capability_touched (task_id : string) (revision : Z) (d : dossier) : bool :=
  existsb (fun a => like "kernel:capability:%" (ar_producer a) || like "kernel:sim%" (ar_producer a))
    (artifacts_for_revision task_id revision d).

(** A render whose receipt was read, or a preview with a trace. *)
Definition lineage_trusted (a : artifact_row) : bool :=
  match md_lineage (ar_metadata a) with
  | Some l => truthy_str (ln_render_receipt_digest l) || (String.eqb (ln_kind l) "preview_2d" && truthy_str (ln_trace_id l))
  | None => false
  end.

Definition capability_receipt (task_id : string) (revision : Z) (d : dossier) : bool :=
  existsb (fun a => like "kernel:capability:%" (ar_producer a) && like "%/simulation_receipt.json" (ar_path a))
    (artifacts_for_revision task_id revision d).

(** A task that touched a body needs one trace of a trusted execution. *)
Definition authority_failures (id : string) (t : task_rec) (used : bool) (d : dossier) : list failure :=
  if truthy_str (tk_body_id t) && (used || capability_touched id (tk_active_revision t) d) then
    if su_plan_events w id || su_receipts w id
       || existsb lineage_trusted (artifacts_for_revision id (tk_active_revision t) d)
       || capability_receipt id (tk_active_revision t) d
    then [] else [PlanAuthorityMissing]
  else [].

(** One proof against the manifest of the robot. *)
Definition proof_failures (robot_id expected : string) (p : resource_proof) : list failure :=
  (if bool_decide (rp_resource_id p = Some ("robot:" +:+ robot_id)) then [] else [ResourceIdMismatch])
  ++ (if bool_decide (rp_quality p = Some "PRODUCTION") && rp_canonical p then [] else [NonCanonicalResource])
  ++ (if truthy_str expected && negb (bool_decide (rp_model_digest p = Some expected)) then [ResourceDigestMismatch] else []).

Definition robot_of (t : task_rec) : string := removeprefix "robot:" (canonical_resource_id (tk_body_id t)).

Definition resource_failures (t : task_rec) (artifacts : list artifact_row) : list failure :=
  let robot_id := robot_of t in
  match omap (fun a => md_resource (ar_metadata a)) artifacts with
  | [] => [ResourceProofMissing]
  | proofs =>
      match su_manifest w robot_id with
      | None => [ManifestMissing robot_id]
      | Some expected => concat (proof_failures robot_id expected <$> proofs)
      end
  end.

Definition trace_path (trace_id : string) : string :=
  path_join (path_join (path_join (path_join (su_home w) "sim") "traces") trace_id) "trace.json".

(** The lineage of a picture a kernel pipeline claims. *)
Definition lineage_failures (id : string) (t : task_rec) (d : dossier) (name : string) (l : lineage)
    : result kernel_exn (list failure) :=
  let preview := String.eqb (ln_kind l) "preview_2d" in
  let digest := if preview && truthy_str (ln_trace_id l) then "preview" else ln_render_receipt_digest l in
  if negb (truthy_str digest) || negb (truthy_str (ln_trace_id l)) then Ok [LineageMissing name]
  else
    let trace := trace_path (ln_trace_id l) in
    let cross := if default (-1) (ln_revision l) =? tk_active_revision t then [] else [LineageRevision] in
    let old := match revision_of id (tk_active_revision t) (do_kernel d) with
               | Some r => if on_disk (su_file w trace)
                              && fltb (su_mtime w trace) (fsub (Operations.timestamp (rv_created_at r)) (of_Z 1))
                           then [TraceBeforeRevision] else []
               | None => []
               end in
    if negb (on_disk (su_file w trace)) then Ok (cross ++ old ++ [TraceMissing (ln_trace_id l)])
    else if preview then Ok (cross ++ old)
    else rbind (read_bytes (su_file w trace)) (fun b =>
      Ok (cross ++ old ++
          (if String.eqb (ln_input_trace_digest l) ("sha256:" +:+ sha256_hex b) then [] else [LineageDigestMismatch]))).

Definition empty_lineage : lineage :=
  {| ln_kind := ""; ln_render_receipt_path := ""; ln_render_receipt_digest := ""; ln_input_trace_digest := "";
     ln_trace_id := ""; ln_task_id := ""; ln_revision := None |}.

Definition graph_failures (id : string) (t : task_rec) (d : dossier) (a : artifact_row) : result kernel_exn (list failure) :=
  let name := path_name (ar_path a) in
  if negb (starts "image/" (ar_media_type a)) then Ok []
  else if starts "model:" (ar_producer a) then
    Ok (if bool_decide (is_Some (md_lineage (ar_metadata a))) then [] else [LineageMissing name])
  else lineage_failures id t d name (default empty_lineage (md_lineage (ar_metadata a))).

Definition deliverable_failures (id : string) (t : task_rec) (d : dossier) : list failure :=
  match get_task_spec id (do_kernel d) with
  | Some spec => DeliverableMissing <$> (deliverable_verdict (ts_deliverables spec)
                                          (artifacts_for_revision id (tk_active_revision t) d)).2
  | None => []
  end.

(** An artifact only a kernel pipeline registers; a picture needs its lineage. *)
Definition trusted (a : artifact_row) : bool :=
  starts "kernel:" (ar_producer a)
  && (negb (starts "image/" (ar_media_type a)) || bool_decide (is_Some (md_lineage (ar_metadata a)))).

(** The checks of [finish_task], on an open task. *)
Definition finish_verdict (id : string) (t : task_rec) (summary : string) (ids : list string) (d : dossier)
    : result kernel_exn verdict :=
  let n := tk_active_revision t in
  let artifacts := selected id n ids d in
  let frozen := match revision_of id n (do_kernel d) with Some r => fst <$> rv_acceptance r | None => None end in
  let used := task_used_embodiment id (do_kernel d) in
  let splice := (fun a => ArtifactOfRevision (ar_id a) (ar_revision a)) <$> spliced id n ids d in
  rbind (if used then rbind (mapr (graph_failures id t d) artifacts) (fun fs => Ok (concat fs)) else Ok []) (fun graph =>
    verdict_for w artifacts frozen (tk_workspace_path t) summary used (existsb trusted artifacts)
      (splice ++ (if used then resource_failures t artifacts else []) ++ graph
       ++ authority_failures id t used d ++ deliverable_failures id t d)).

(** [finish_task] of service.py *)
Definition finish (id summary : string) (ids : list string) (grade fresh : string) (now : datetime) (d : dossier)
    : dossier * result kernel_exn finished :=
  let go v := let '(k, r) := finish_task id v grade fresh now (do_kernel d) in (with_kernel k d, r) in
  match dget (kn_tasks (do_kernel d)) id with
  | Some t =>
      if task_terminal (tk_state t) then go {| vd_checks := 0; vd_failures := [] |}
      else match finish_verdict id t summary ids d with Ok v => go v | Err e => (d, Err e) end
  | None => (d, Err BadValue)
  end.

(** ** Registering an artifact *)

Definition stamp_lineage (id : string) (revision : Z) (l : lineage) : lineage :=
  {| ln_kind := ln_kind l; ln_render_receipt_path := ln_render_receipt_path l;
     ln_render_receipt_digest := ln_render_receipt_digest l; ln_input_trace_digest := ln_input_trace_digest l;
     ln_trace_id := ln_trace_id l; ln_task_id := id; ln_revision := Some revision |}.

Definition read_receipt (l : lineage) : result kernel_exn lineage :=
  let path := ln_render_receipt_path l in
  rbind (require (truthy_str path && on_disk (su_file w path)) BadValue) (fun _ =>
  rbind (read_bytes (su_file w path)) (fun b =>
  rbind (of_option (su_input_trace_digest w b) BadValue) (fun digest =>
    Ok {| ln_kind := ln_kind l; ln_render_receipt_path := path;
          ln_render_receipt_digest := "sha256:" +:+ sha256_hex b; ln_input_trace_digest := digest;
          ln_trace_id := if truthy_str (ln_trace_id l) then ln_trace_id l else parent_name path;
          ln_task_id := ln_task_id l; ln_revision := ln_revision l |}))).

Definition stamped_lineage (id : string) (revision : Z) (l : option lineage) : result kernel_exn (option lineage) :=
  match l with
  | None => Ok None
  | Some l => if String.eqb (ln_kind l) "preview_2d" then Ok (Some (stamp_lineage id revision l))
              else rbind (read_receipt l) (fun l => Ok (Some (stamp_lineage id revision l)))
  end.

Definition zoned (zone producer : string) (l : option lineage) (m : metadata) : metadata :=
  {| md_lineage := l; md_resource := md_resource m; md_zone := if truthy_str zone then zone else md_zone m;
     md_evidence_tier := if starts "model:" producer then Some (default "EXPERIMENTAL" (md_evidence_tier m))
                         else md_evidence_tier m;
     md_levels := md_levels m |}.

Record artifact_request := {
  aq_task_id : string;
  aq_path : string;
  aq_media_type : string;
  aq_operation_id : string;
  aq_producer : string;
  aq_metadata : metadata;
}.

(** What [register_artifact] returns: the row, and whether it was there before. *)
Definition register_artifact (q : artifact_request) (fresh : string) (now : datetime) (d : dossier)
    : dossier * result kernel_exn (artifact_row * bool) :=
  let id := aq_task_id q in
  match dget (kn_tasks (do_kernel d)) id with
  | None => (d, Err BadValue)
  | Some t =>
      let n := tk_active_revision t in
      let file := su_resolve w (path_join (su_resolve w (tk_workspace_path t)) (aq_path q)) in
      let checked :=
        rbind (require (on_disk (su_file w file)) BadValue) (fun _ =>
        rbind (read_bytes (su_file w file)) (fun b =>
          let zone := zone_of (su_resolve w (run_dir (su_home w) id n)) file in
          rbind (require (negb (String.eqb zone "scratch")
                          && negb (String.eqb zone "evidence" && negb (starts "kernel:" (aq_producer q)))) BadValue) (fun _ =>
          Ok (b, zone)))) in
      match checked with
      | Err e => (d, Err e)
      | Ok (b, zone) =>
          match find (fun a => String.eqb (ar_task_id a) id && String.eqb (ar_sha256 a) (sha256_hex b)) (do_artifacts d) with
          | Some a => (d, Ok (a, true))
          | None =>
              match stamped_lineage id n (md_lineage (aq_metadata q)) with
              | Err e => (d, Err e)
              | Ok l =>
                  let a := {| ar_id := fresh; ar_task_id := id; ar_revision := n; ar_path := file;
                              ar_media_type := aq_media_type q; ar_sha256 := sha256_hex b;
                              ar_size := Z.of_nat (String.length b);
                              ar_operation_id := if truthy_str (aq_operation_id q) then Some (aq_operation_id q) else None;
                              ar_producer := aq_producer q; ar_metadata := zoned zone (aq_producer q) l (aq_metadata q);
                              ar_created_at := now |} in
                  if existsb (fun a' => String.eqb (ar_id a') fresh) (do_artifacts d) then (d, Err Constraint)
                  else (with_kernel (with_kernel_event id None (ArtifactCreated fresh file (ar_size a)) (do_kernel d))
                          (with_artifacts (do_artifacts d ++ [a]) d), Ok (a, false))
              end
          end
      end
  end.
End Finish.

(** ** A task succeeds on evidence *)

Section Sound.
Context `{Crypto} (w : surroundings).

Lemma mapr_Forall {E A B} (f : A -> result E B) (P : A -> B -> Prop) l ys :
  mapr f l = Ok ys -> (forall x y, f x = Ok y -> P x y) -> Forall2 P l ys.
Proof.
  revert ys. induction l as [|x l IH]; intros ys Hm HP; simpl in Hm; [simplify_eq; constructor|].
  destruct (f x) as [y|] eqn:E1; [|done]. simpl in Hm. destruct (mapr f l) as [zs|]; [|done]. simpl in Hm. simplify_eq.
  constructor; [by apply HP | by apply IH].
Qed.

Lemma concat_nil_Forall {A} (l : list (list A)) : concat l = [] -> Forall (.= []) l.
Proof. induction l as [|x l IH]; simpl; [by constructor|]. intros [-> Hl]%app_nil. constructor; auto. Qed.

(** Each element passes a check that finds nothing in all of them. *)
Lemma mapr_nothing {E A B} (f : A -> result E (list B)) (P : A -> Prop) l ys :
  mapr f l = Ok ys -> concat ys = [] -> (forall x, f x = Ok [] -> P x) -> Forall P l.
Proof.
  intros Hm Hc%concat_nil_Forall HP. apply (mapr_Forall _ (fun x y => y = [] -> P x)) in Hm; [|by intros x y Hx ->; apply HP].
  induction Hm; [constructor|]. apply Forall_cons in Hc as [? Hc]. constructor; auto.
Qed.

(** The content an artifact was registered with is still there. *)
Definition intact (a : artifact_row) : Prop :=
  exists b, su_file w (ar_path a) = Content b /\ b <> "" /\ sha256_hex b = ar_sha256 a.

Lemma verify_artifact_intact a : verify_artifact w a = Ok [] -> intact a.
Proof.
  unfold verify_artifact, intact, size_of. destruct (su_file w (ar_path a)) as [| |b]; simpl; try done.
  - by destruct (_ =? 0).
  - destruct (_ =? 0) eqn:E0; [done|]. simpl. destruct (String.eqb _ _) eqn:Es; [|done]. intros _.
    exists b. split_and!; [done| |by apply String.eqb_eq]. by intros ->.
Qed.

Lemma verify_artifacts_intact l : verify_artifacts w l = Ok [] -> Forall intact l.
Proof.
  unfold verify_artifacts. destruct (mapr _ l) as [ys|] eqn:E; [|done]. simpl. intros [= Hc].
  by apply (mapr_nothing _ _ _ _ E Hc verify_artifact_intact).
Qed.

(** The frozen condition holds. *)
Definition acceptance_met (ac : acceptance) (workspace : string) : Prop :=
  (forall rel, rel ∈ ac_required_files ac -> on_disk (su_file w (su_resolve w (path_join workspace rel))) = true) /\
  (forall argv, ac_run ac = Some argv -> su_run w workspace argv = Exited 0 /\ default "" (head argv) ∈ ARGV0_ALLOWLIST).

Lemma required_file_met workspace rel : required_file w workspace rel = [] ->
  on_disk (su_file w (su_resolve w (path_join workspace rel))) = true.
Proof. unfold required_file. destruct (String.prefix _ _ && _) eqn:E; [|done]. by apply andb_true_iff in E as [_ ->]. Qed.

Lemma verify_acceptance_met ac workspace : (verify_acceptance w (Some ac) workspace).2 = [] -> acceptance_met ac workspace.
Proof.
  simpl. intros [Hf Hr]%app_nil. split.
  - intros rel Hin. apply concat_nil_Forall in Hf. rewrite Forall_forall in Hf. apply required_file_met, Hf.
    by apply list_elem_of_fmap_2.
  - intros argv E. rewrite E in Hr. unfold acceptance_run in Hr. case_bool_decide; [|done]. simpl in Hr.
    destruct (negb _); [done|]. destruct (su_run w workspace argv) as [[]|]; try done.
Qed.

(** Evidence for something: an artifact, a condition, or at least a summary. *)
Definition something_checked (artifacts : list artifact_row) (ac : option acceptance) (summary : string) : Prop :=
  artifacts <> [] \/ (verify_acceptance w ac "").1 <> 0 \/ nonblank summary = true.

Lemma verdict_pass artifacts ac workspace summary require present extra v :
  verdict_for w artifacts ac workspace summary require present extra = Ok v -> vd_failures v = [] ->
  Forall intact artifacts /\ Forall (fun a => contains "tests/fixtures" (ar_path a) = false) artifacts /\
  (require = true -> present = true) /\ extra = [] /\ (verify_acceptance w ac workspace).2 = [] /\
  something_checked artifacts ac summary.
Proof.
  unfold verdict_for. destruct (verify_artifacts w artifacts) as [fs|] eqn:Ev; [|done]. simpl.
  destruct (verify_acceptance w ac workspace) as [acc accf] eqn:Ea.
  assert (Hacc : acc = (verify_acceptance w ac "").1) by (by destruct ac; simplify_eq/=).
  intros [= <-] Hf.
  assert (Hall : fs ++ ((fun a => FixtureUsed (path_name (ar_path a))) <$>
      filter (fun a => contains "tests/fixtures" (ar_path a) = true) artifacts)
      ++ (if require && negb present then [TrustedEvidenceMissing] else []) ++ extra ++ accf = [] /\
      something_checked artifacts ac summary).
  { unfold something_checked. rewrite <- Hacc. destruct (_ + acc =? 0) eqn:E0; simpl in Hf.
    - apply app_nil in Hf as [Hf Hs]. split; [done|]. right; right. by destruct (nonblank summary).
    - split; [done|]. apply Z.eqb_neq in E0. destruct artifacts; [right; left; simpl in E0; lia | by left]. }
  destruct Hall as [Hall Hs]. apply app_nil in Hall as [-> Hall]. apply app_nil in Hall as [Hx Hall].
  apply app_nil in Hall as [Ht Hall]. apply app_nil in Hall as [-> ->]. split_and!; try done.
  - by apply verify_artifacts_intact.
  - apply fmap_nil_inv in Hx. apply Forall_forall. intros a Ha. destruct (contains _ _) eqn:E; [|done].
    assert (Hin : a ∈ filter (fun a => contains "tests/fixtures" (ar_path a) = true) artifacts) by (by apply list_elem_of_filter).
    rewrite Hx in Hin. by apply not_elem_of_nil in Hin.
  - intros ->. by destruct present.
Qed.

Lemma resource_met t artifacts : resource_failures w t artifacts = [] ->
  exists expected, su_manifest w (robot_of t) = Some expected /\
    (exists a p, a ∈ artifacts /\ md_resource (ar_metadata a) = Some p) /\
    forall a p, a ∈ artifacts -> md_resource (ar_metadata a) = Some p ->
      rp_resource_id p = Some ("robot:" +:+ robot_of t) /\ rp_quality p = Some "PRODUCTION" /\ rp_canonical p = true /\
      (truthy_str expected = true -> rp_model_digest p = Some expected).
Proof.
  unfold resource_failures. intros Hf. destruct (omap _ artifacts) as [|p0 ps] eqn:Eo; [done|].
  destruct (su_manifest w (robot_of t)) as [expected|]; [|done]. exists expected. split; [done|]. split.
  - assert (Hin : p0 ∈ omap (fun a => md_resource (ar_metadata a)) artifacts) by (rewrite Eo; by left).
    apply list_elem_of_omap in Hin as (a & Ha & Ep). eauto.
  - intros a p Ha Ep. assert (Hin : p ∈ p0 :: ps) by (rewrite <- Eo; apply list_elem_of_omap; eauto).
    apply concat_nil_Forall in Hf. rewrite Forall_forall in Hf.
    assert (Hp : proof_failures (robot_of t) expected p = []) by (apply Hf; by apply list_elem_of_fmap_2).
    unfold proof_failures in Hp. apply app_nil in Hp as [H1 Hp]. apply app_nil in Hp as [H2 H3].
    destruct (bool_decide (rp_resource_id p = _)) eqn:E1; [|done].
    destruct (bool_decide (rp_quality p = _) && _) eqn:E2; [|done].
    apply bool_decide_eq_true in E1. apply andb_true_iff in E2 as [E2%bool_decide_eq_true E3].
    split_and!; try done. intros Ht. rewrite Ht in H3. simpl in H3.
    destruct (bool_decide (rp_model_digest p = _)) eqn:E4; [|done]. by apply bool_decide_eq_true in E4.
Qed.

Lemma deliverables_met id t d : deliverable_failures id t d = [] -> forall spec dl,
  get_task_spec id (do_kernel d) = Some spec -> dl ∈ ts_deliverables spec -> truthy_str (dl_kind dl) = true -> dl_required dl = true ->
  exists a, a ∈ artifacts_for_revision id (tk_active_revision t) d /\ satisfies dl a = true.
Proof.
  unfold deliverable_failures. intros Hf spec dl Es Hin Hk Hr. rewrite Es in Hf. simpl in Hf. apply fmap_nil_inv, fmap_nil_inv in Hf.
  destruct (existsb (satisfies dl) (artifacts_for_revision id (tk_active_revision t) d)) eqn:E.
  - apply existsb_exists in E as (a & Ha & Hd). apply list_elem_of_In in Ha. eauto.
  - exfalso. assert (Hn : dl ∈ ([] : list deliverable)); [|by apply not_elem_of_nil in Hn].
    rewrite <- Hf. apply list_elem_of_filter. split; [by rewrite E, Hr|]. by apply list_elem_of_filter.
Qed.
End Sound.

Section Success.
Context `{Crypto} (w : surroundings).

(** A picture a kernel pipeline made: it comes from a trace of the active revision that
    is still there, a render from exactly its content. *)
Definition picture_traced (t : task_rec) (a : artifact_row) : Prop :=
  starts "image/" (ar_media_type a) = true -> starts "model:" (ar_producer a) = false ->
  exists l, md_lineage (ar_metadata a) = Some l /\ default (-1) (ln_revision l) = tk_active_revision t /\
    on_disk (su_file w (trace_path w (ln_trace_id l))) = true /\
    (ln_kind l = "preview_2d" \/
     exists b, su_file w (trace_path w (ln_trace_id l)) = Content b /\ ln_input_trace_digest l = "sha256:" +:+ sha256_hex b).

Lemma graph_met id t d a : graph_failures w id t d a = Ok [] -> picture_traced t a.
Proof.
  unfold graph_failures, picture_traced. intros Hg Hi Hm. rewrite Hi, Hm in Hg. simpl in Hg.
  destruct (md_lineage (ar_metadata a)) as [l|]; simpl in Hg; [|by unfold lineage_failures in Hg].
  exists l. split; [done|]. unfold lineage_failures in Hg. destruct (negb _ || negb _); [done|].
  assert (Hs : forall x : list failure, (if default (-1) (ln_revision l) =? tk_active_revision t then [] else [LineageRevision]) ++ x = [] ->
    default (-1) (ln_revision l) = tk_active_revision t /\ x = []).
  { intros x [Hx ->]%app_nil. split; [|done]. destruct (_ =? _) eqn:E; [by apply Z.eqb_eq|done]. }
  destruct (on_disk _) eqn:Ed; simpl in Hg; [|injection Hg as Hg; by apply Hs in Hg as [_ [_ ?]%app_nil]].
  destruct (String.eqb (ln_kind l) "preview_2d") eqn:Ek.
  - injection Hg as Hg. apply Hs in Hg as [Hr _]. split_and!; [done..|]. left. by apply String.eqb_eq.
  - destruct (su_file w _) as [| |b]; simpl in Hg; try done. injection Hg as Hg.
    apply Hs in Hg as [Hr [_ Hb]%app_nil]. split_and!; [done..|]. right. exists b. split; [done|].
    destruct (String.eqb _ _) eqn:E in Hb; [|done]. by apply String.eqb_eq.
Qed.

(** One of the four traces of a trusted execution. *)
Definition executed (id : string) (t : task_rec) (d : dossier) : Prop :=
  su_plan_events w id = true \/ su_receipts w id = true \/
  (exists a, a ∈ artifacts_for_revision id (tk_active_revision t) d /\ lineage_trusted a = true) \/
  capability_receipt id (tk_active_revision t) d = true.

Lemma authority_met id t used d : authority_failures w id t used d = [] ->
  truthy_str (tk_body_id t) = true -> used || capability_touched id (tk_active_revision t) d = true -> executed id t d.
Proof.
  unfold authority_failures, executed. intros Hf Hb Hu. rewrite Hb, Hu in Hf. simpl in Hf.
  destruct (su_plan_events w id); [by left|]. destruct (su_receipts w id); [by right; left|]. simpl in Hf.
  destruct (existsb lineage_trusted _) eqn:E; [|destruct (capability_receipt _ _ _); [auto|done]].
  apply existsb_exists in E as (a & Ha & El). apply list_elem_of_In in Ha. right; right; left. eauto.
Qed.

(** The condition frozen for the active revision. *)
Definition frozen_for (id : string) (t : task_rec) (d : dossier) : option acceptance :=
  match revision_of id (tk_active_revision t) (do_kernel d) with Some r => fst <$> rv_acceptance r | None => None end.

(** What a PASS of a task rests on. *)
Record evidenced (id : string) (t : task_rec) (summary : string) (ids : list string) (d : dossier) : Prop := {
  ev_intact : Forall (intact w) (selected id (tk_active_revision t) ids d);
  ev_no_fixture : Forall (fun a => contains "tests/fixtures" (ar_path a) = false) (selected id (tk_active_revision t) ids d);
  ev_no_splice : spliced id (tk_active_revision t) ids d = [];
  ev_deliverables spec dl : get_task_spec id (do_kernel d) = Some spec -> dl ∈ ts_deliverables spec ->
    truthy_str (dl_kind dl) = true -> dl_required dl = true ->
    exists a, a ∈ artifacts_for_revision id (tk_active_revision t) d /\ satisfies dl a = true;
  ev_acceptance ac : frozen_for id t d = Some ac -> acceptance_met w ac (tk_workspace_path t);
  ev_executed : truthy_str (tk_body_id t) = true ->
    task_used_embodiment id (do_kernel d) || capability_touched id (tk_active_revision t) d = true -> executed id t d;
  ev_embodied : task_used_embodiment id (do_kernel d) = true ->
    existsb trusted (selected id (tk_active_revision t) ids d) = true /\
    resource_failures w t (selected id (tk_active_revision t) ids d) = [] /\
    Forall (picture_traced t) (selected id (tk_active_revision t) ids d);
  ev_something : something_checked w (selected id (tk_active_revision t) ids d) (frozen_for id t d) summary;
}.

Lemma verdict_evidenced id t summary ids d v :
  finish_verdict w id t summary ids d = Ok v -> vd_failures v = [] -> evidenced id t summary ids d.
Proof.
  unfold finish_verdict. intros Hv Hf.
  match type of Hv with rbind ?m _ = _ => destruct m as [graph|] eqn:Eg; [|done] end. simpl in Hv.
  destruct (verdict_pass _ _ _ _ _ _ _ _ _ Hv Hf) as (H1 & H2 & H3 & H4 & H5 & H6).
  apply app_nil in H4 as [Hs H4]. apply app_nil in H4 as [Hr H4]. apply app_nil in H4 as [-> H4].
  apply app_nil in H4 as [Ha Hd]. apply fmap_nil_inv in Hs. split; try done.
  - intros spec dl. by apply deliverables_met.
  - intros ac E. unfold frozen_for in E. rewrite E in H5. by apply verify_acceptance_met.
  - by apply authority_met.
  - intros Hu. rewrite Hu in *. split_and!; [by apply H3 | done|].
    destruct (mapr (graph_failures w id t d) _) as [ys|] eqn:Em; [|done]. simpl in Eg. injection Eg as Eg.
    exact (mapr_nothing _ _ _ _ Em Eg (graph_met id t d)).
Qed.

(** C15: A task goes to SUCCEEDED through [finish_task] only on evidence of its active revision:
    every artifact named is there with the content it was registered with, none belongs to
    another revision, the required deliverables are in the ledger by their kind, the frozen
    files exist and the frozen command ends with 0; a task that used a body also has a
    trusted artifact, proofs that match the manifest of its robot, pictures traced to their
    source and a trace of a trusted execution; and something was checked. A PASS row of the
    revision is added. *)
Theorem success_has_evidence id summary ids grade fresh now d d' vid t :
  dget (kn_tasks (do_kernel d)) id = Some t ->
  finish w id summary ids grade fresh now d = (d', Ok (Succeeded vid)) ->
  evidenced id t summary ids d /\
  (exists t', dget (kn_tasks (do_kernel d')) id = Some t' /\ tk_state t' = SUCCEEDED) /\
  exists v, v ∈ kn_verifications (do_kernel d') /\ vf_id v = vid /\ vf_task_id v = id /\
    vf_revision v = tk_active_revision t /\ vf_pass v = true.
Proof.
  intros Ht. unfold finish. rewrite Ht. destruct (task_terminal (tk_state t)) eqn:Et.
  { unfold finish_task. by rewrite Ht, Et. }
  destruct (finish_verdict w id t summary ids d) as [v|] eqn:Ev; [|done]. unfold finish_task. rewrite Ht, Et.
  destruct (vd_failures v) as [|f fs] eqn:Ef; [|done]. destruct (existsb _ _); [done|].
  match goal with |- context [transition id SUCCEEDED ?r ?n ?k1] =>
    destruct (transition_open id SUCCEEDED r n k1 t Ht Et) as (k' & -> & E1 & E2 & E3 & E4) end.
  simpl in E1, E4 |- *. intros [= <- <-]. split; [by eapply verdict_evidenced|]. simpl. rewrite E1, E4. split.
  - rewrite dget_dset_eq. eauto.
  - eexists. split; [apply elem_of_app; right; by left|]. done.
Qed.
End Success.

(** ** The ledger of artifacts *)

Section Ledger.
Context `{Crypto} (w : surroundings).

(** Any operation on a task and its artifacts. *)
Inductive estep : dossier -> dossier -> Prop :=
| e_kernel k' d : kstep (do_kernel d) k' -> estep d (with_kernel k' d)
| e_register q fresh now d : estep d (register_artifact w q fresh now d).1
| e_finish id summary ids grade fresh now d : estep d (finish w id summary ids grade fresh now d).1.

(** [finish] does to the kernel what [finish_task] does with some verdict. *)
Lemma finish_run id summary ids grade fresh now d :
  (finish w id summary ids grade fresh now d).1 = d \/
  exists v, (finish w id summary ids grade fresh now d).1 = with_kernel (finish_task id v grade fresh now (do_kernel d)).1 d.
Proof.
  unfold finish. destruct (dget _ id) as [t|]; [|by left].
  assert (Hgo : forall v, (let '(k, r) := finish_task id v grade fresh now (do_kernel d) in (with_kernel k d, r)).1 =
    with_kernel (finish_task id v grade fresh now (do_kernel d)).1 d) by (intros v; by destruct (finish_task _ _ _ _ _ _)).
  destruct (task_terminal _); [|destruct (finish_verdict _ _ _ _ _ _) as [v|]; [|by left]]; right; eauto.
Qed.

Lemma register_run q fresh now d d' a :
  register_artifact w q fresh now d = (d', Ok (a, false)) ->
  d' = with_kernel (with_kernel_event (aq_task_id q) None (ArtifactCreated fresh (ar_path a) (ar_size a)) (do_kernel d))
         (with_artifacts (do_artifacts d ++ [a]) d) /\
  ar_id a = fresh /\ ar_task_id a = aq_task_id q /\ (fresh ∉ ar_id <$> do_artifacts d) /\
  ((ar_task_id a, ar_sha256 a) ∉ ((fun a => (ar_task_id a, ar_sha256 a)) <$> do_artifacts d)) /\
  (exists t, dget (kn_tasks (do_kernel d)) (aq_task_id q) = Some t /\ ar_revision a = tk_active_revision t) /\
  (exists b, su_file w (ar_path a) = Content b /\ ar_sha256 a = sha256_hex b /\ ar_size a = Z.of_nat (String.length b)) /\
  (forall l, md_lineage (ar_metadata a) = Some l -> ln_task_id l = ar_task_id a /\ ln_revision l = Some (ar_revision a)).
Proof.
  unfold register_artifact. destruct (dget _ (aq_task_id q)) as [t|] eqn:Ht; [|done].
  match goal with |- context [match ?m with Ok _ => _ | Err e => (d, Err e) end] => destruct m as [[b z]|] eqn:Ec; [|done] end.
  ok_inv Ec. simplify_eq. destruct (find _ (do_artifacts d)) as [old|] eqn:Ef; [done|].
  destruct (stamped_lineage _ _ _ _) as [l|] eqn:El; [|done]. destruct (existsb _ (do_artifacts d)) eqn:Ex; [done|].
  intros [= <- <-]. simpl. split_and!; try done.
  - intros (a' & E & Ha')%list_elem_of_fmap. assert (existsb (fun a' => String.eqb (ar_id a') fresh) (do_artifacts d) = true); [|congruence].
    apply existsb_exists. exists a'. split; [by apply list_elem_of_In | by apply String.eqb_eq].
  - intros (a' & E & Ha')%list_elem_of_fmap. injection E as E1 E2. apply list_elem_of_In in Ha'.
    pose proof (find_none _ _ Ef a' Ha') as Hn. simpl in Hn. by rewrite <- E1, <- E2, !String.eqb_refl in Hn.
  - eauto.
  - match goal with Hb : read_bytes _ = Ok b |- _ => unfold read_bytes in Hb; case_match; simplify_eq end. eauto.
  - intros l' E. subst l. unfold stamped_lineage in El. destruct (md_lineage (aq_metadata q)) as [l0|]; [|done].
    destruct (String.eqb (ln_kind l0) "preview_2d"); [by injection El as <-|].
    destruct (read_receipt w l0) as [l1|]; [|done]. simpl in El. by injection El as <-.
Qed.

(** What was refused or there before leaves the dossier as it is. *)
Lemma register_same q fresh now d d' r :
  register_artifact w q fresh now d = (d', r) -> d' = d \/ exists a, r = Ok (a, false).
Proof.
  unfold register_artifact. destruct (dget _ _) as [t|]; [|by intros [= <- _]; left].
  repeat case_match; intros [= <- <-]; eauto.
Qed.

(** A content is in the ledger of a task once, an identifier once, and a lineage carries
    the task and the revision it was registered under. *)
Record ledger_sound (d : dossier) : Prop := {
  lk_kernel : kernel_ok (do_kernel d);
  lk_ids : NoDup (ar_id <$> do_artifacts d);
  lk_contents : NoDup ((fun a => (ar_task_id a, ar_sha256 a)) <$> do_artifacts d);
  lk_stamps a l : a ∈ do_artifacts d -> md_lineage (ar_metadata a) = Some l ->
    ln_task_id l = ar_task_id a /\ ln_revision l = Some (ar_revision a);
}.

Lemma NoDup_snoc {A} (l : list A) x : NoDup l -> x ∉ l -> NoDup (l ++ [x]).
Proof. intros Hl Hx. apply NoDup_app. split_and!; [done| |apply NoDup_singleton]. by intros y Hy ->%list_elem_of_singleton. Qed.

(** Whatever is registered, finished, or done to the tasks in between, the ledger keeps
    its invariant, and a registered artifact is never removed or changed. *)
Theorem ledger_invariant d d' : ledger_sound d -> rtc estep d d' -> ledger_sound d' /\ do_artifacts d `prefix_of` do_artifacts d'.
Proof.
  intros Hd Hr. revert Hd. induction Hr as [d|d d1 d' Hs _ IH]; intros Hd; [done|].
  assert (H1 : ledger_sound d1 /\ do_artifacts d `prefix_of` do_artifacts d1).
  { destruct Hs as [k' d Hk|q fresh now d|id summary ids grade fresh now d].
    - split; [|done]. destruct Hd. split; try done. by eapply kernel_ok_step.
    - destruct (register_artifact w q fresh now d) as [d1 r] eqn:E.
      destruct (register_same _ _ _ _ _ _ E) as [->|[a ->]]; [done|].
      destruct (register_run _ _ _ _ _ _ E) as (-> & Ei & Et & H1 & H2 & _ & _ & Hl). simpl. destruct Hd. split.
      + split; simpl.
        * by apply (kernel_ok_same (do_kernel d)).
        * rewrite fmap_app. apply NoDup_snoc; [done | by rewrite Ei].
        * rewrite fmap_app. by apply NoDup_snoc.
        * intros x l [Hx| ->%list_elem_of_singleton]%elem_of_app El; [by eapply lk_stamps0 | by apply Hl].
      + by apply prefix_app_r.
    - destruct (finish_run id summary ids grade fresh now d) as [->|[v ->]]; [done|]. split; [|done].
      destruct Hd. split; try done. simpl. by apply kernel_ok_finish. }
  destruct H1 as [H1 Hp]. destruct (IH H1) as [H2 Hp2]. split; [done|]. by etrans.
Qed.
End Ledger.

(** ** What the checks leave open *)

Section Gaps.
Context `{Crypto} (w : surroundings).

(** Content that an earlier revision registered cannot be delivered by a later one: its
    registration answers the old row and changes nothing, and a request that names that
    row never succeeds. *)
Theorem old_content_undeliverable q fresh now d t a b :
  dget (kn_tasks (do_kernel d)) (aq_task_id q) = Some t -> task_terminal (tk_state t) = false ->
  su_file w (su_resolve w (path_join (su_resolve w (tk_workspace_path t)) (aq_path q))) = Content b ->
  find (fun a => String.eqb (ar_task_id a) (aq_task_id q) && String.eqb (ar_sha256 a) (sha256_hex b)) (do_artifacts d) = Some a ->
  ar_revision a <> tk_active_revision t ->
  (forall r, (register_artifact w q fresh now d).2 = Ok r -> (register_artifact w q fresh now d).1 = d /\ r = (a, true)) /\
  forall summary ids grade fresh' now' d' vid,
    ar_id a ∈ ids -> finish w (aq_task_id q) summary ids grade fresh' now' d <> (d', Ok (Succeeded vid)).
Proof.
  intros Ht Ho Hb Hf Hr. split.
  - intros r. unfold register_artifact. rewrite Ht, Hb. simpl.
    match goal with |- context [require ?c BadValue] => destruct c end; simpl; [|done].
    rewrite Hf. by intros [= <-].
  - intros summary ids grade fresh' now' d' vid Hin E. destruct (success_has_evidence w _ _ _ _ _ _ _ _ _ _ Ht E) as [Hev _].
    apply find_some in Hf as [Ha Hk]. apply list_elem_of_In in Ha. apply andb_true_iff in Hk as [Hk _].
    assert (Hs : a ∈ spliced (aq_task_id q) (tk_active_revision t) ids d).
    { unfold spliced. apply list_elem_of_filter. split; [|done]. rewrite Hk, bool_decide_eq_true_2 by done.
      by apply Z.eqb_neq in Hr as ->. }
    rewrite (ev_no_splice _ _ _ _ _ _ Hev) in Hs. by apply not_elem_of_nil in Hs.
Qed.

(** The deliverables are looked up in the ledger, but only the artifacts a request names
    are verified: a request that names none passes whatever became of the files. *)
Theorem unnamed_unverified id t summary d :
  frozen_for id t d = None -> task_used_embodiment id (do_kernel d) = false -> tk_body_id t = "" ->
  deliverable_failures id t d = [] -> nonblank summary = true ->
  finish_verdict w id t summary [] d = Ok {| vd_checks := 1; vd_failures := [] |}.
Proof.
  intros Hz Hu Hb Hd Hs. unfold finish_verdict. rewrite Hu. simpl.
  assert (E1 : selected id (tk_active_revision t) [] d = []).
  { unfold selected. generalize (artifacts_for_revision id (tk_active_revision t) d) as l. intros l. by induction l. }
  assert (E2 : spliced id (tk_active_revision t) [] d = []).
  { unfold spliced. induction (do_artifacts d) as [|a l IH]; [done|]. rewrite filter_cons_False; [done|].
    rewrite bool_decide_eq_false_2 by apply not_elem_of_nil. by rewrite andb_false_r. }
  rewrite E1, E2. unfold authority_failures. rewrite Hb, Hd. unfold frozen_for in Hz. rewrite Hz.
  unfold verdict_for. simpl. by rewrite Hs.
Qed.
End Gaps.

(** ** A workspace at work *)

Section Workspace.
#[local] Existing Instance toy_crypto.

(** Paths without dots resolve to themselves, and one with them. *)
Definition disk (p : string) : disk_node :=
  if String.eqb p "/p/report.txt" then Content "done" else if String.eqb p "/p-old/report.txt" then Content "old" else NoFile.

Definition here : surroundings :=
  {| su_home := "/h"; su_file := disk; su_size := fun _ => 4096;
     su_resolve := fun p => if String.eqb p "/p/../p-old/report.txt" then "/p-old/report.txt" else p;
     su_mtime := fun _ => fzero; su_input_trace_digest := fun _ => None; su_which := fun _ => true;
     su_run := fun _ _ => Exited 0; su_plan_events := fun _ => false; su_receipts := fun _ => false;
     su_manifest := fun _ => None |}.

Definition no_metadata : metadata :=
  {| md_lineage := None; md_resource := None; md_zone := ""; md_evidence_tier := None; md_levels := [] |}.

Definition report : artifact_request :=
  {| aq_task_id := "task1"; aq_path := "report.txt"; aq_media_type := "text/plain"; aq_operation_id := "";
     aq_producer := "model:rosclaw_artifact_register"; aq_metadata := no_metadata |}.

Definition opened_d : dossier := {| do_kernel := opened_k; do_artifacts := [] |}.
Definition reported_d : dossier := Eval vm_compute in (register_artifact here report "art1" (at_second 2) opened_d).1.
Definition finished_d : dossier :=
  Eval vm_compute in (finish here "task1" "the report" ["art1"] "" "v1" (at_second 3) reported_d).1.
Definition revised_d : dossier := with_kernel (bind_message slower (do_kernel reported_d)).1 reported_d.

Definition report_row : artifact_row :=
  {| ar_id := "art1"; ar_task_id := "task1"; ar_revision := 1; ar_path := "/p/report.txt";
     ar_media_type := "text/plain"; ar_sha256 := sha256_hex "done"; ar_size := 4; ar_operation_id := None;
     ar_producer := "model:rosclaw_artifact_register"; ar_metadata := zoned "" "model:" None no_metadata;
     ar_created_at := at_second 2 |}.

Example report_registered : (ar_id <$> do_artifacts reported_d, md_evidence_tier ∘ ar_metadata <$> do_artifacts reported_d) =
  (["art1"], [Some "EXPERIMENTAL"]).
Proof. vm_compute. reflexivity. Qed.

Lemma success_has_evidence_witness :
  intact here report_row /\
  exists t, dget (kn_tasks (do_kernel finished_d)) "task1" = Some t /\ tk_state t = SUCCEEDED.
Proof.
  destruct (dget (kn_tasks (do_kernel reported_d)) "task1") as [t|] eqn:E; [|vm_compute in E; discriminate E].
  assert (Hf : finish here "task1" "the report" ["art1"] "" "v1" (at_second 3) reported_d = (finished_d, Ok (Succeeded "v1")))
    by (vm_compute; reflexivity).
  destruct (success_has_evidence here "task1" "the report" ["art1"] "" "v1" (at_second 3) reported_d finished_d "v1" t E Hf)
    as (Hev & Hst & _).
  split; [|exact Hst]. pose proof (ev_intact _ _ _ _ _ _ Hev) as Hi. vm_compute in E. injection E as <-.
  rewrite Forall_forall in Hi. apply Hi. vm_compute. left.
Defined.

Lemma ledger_invariant_witness : NoDup (ar_id <$> do_artifacts finished_d) /\ do_artifacts opened_d `prefix_of` do_artifacts finished_d.
Proof.
  assert (H0 : ledger_sound opened_d).
  { split; [exact (kernel_ok_step _ _ opened_step kernel_ok_empty)|apply NoDup_nil_2|apply NoDup_nil_2|].
    intros a l Hx _. by apply not_elem_of_nil in Hx. }
  assert (H1 : estep here opened_d reported_d).
  { change reported_d with (register_artifact here report "art1" (at_second 2) opened_d).1. apply e_register. }
  assert (H2 : estep here reported_d finished_d).
  { change finished_d with (finish here "task1" "the report" ["art1"] "" "v1" (at_second 3) reported_d).1. apply e_finish. }
  destruct (ledger_invariant here opened_d finished_d H0 (rtc_l _ _ _ _ H1 (rtc_once _ _ H2))) as [Hl Hp].
  split; [exact (lk_ids _ Hl) | exact Hp].
Defined.

(** The user revises the task; the same report is not the new revision's. *)
Lemma old_content_undeliverable_witness :
  (forall r, (register_artifact here report "art2" (at_second 5) revised_d).2 = Ok r ->
     (register_artifact here report "art2" (at_second 5) revised_d).1 = revised_d) /\
  artifacts_for_revision "task1" 2 revised_d = [].
Proof.
  destruct (dget (kn_tasks (do_kernel revised_d)) "task1") as [t|] eqn:E; [|vm_compute in E; discriminate E].
  vm_compute in E. injection E as <-.
  destruct (@old_content_undeliverable toy_crypto here report "art2" (at_second 5) revised_d _ report_row "done" eq_refl eq_refl
    eq_refl ltac:(vm_compute; reflexivity) ltac:(vm_compute; discriminate)) as [Hr _].
  split; [|vm_compute; reflexivity]. intros r Er. exact (proj1 (Hr r Er)).
Defined.

(** A required file outside the workspace passes where the workspace's path is a prefix of
    its text. *)
Example file_beside_workspace :
  required_file here "/p" "../p-old/report.txt" = [] /\ under_dir "/p" "/p-old/report.txt" = false.
Proof. split; vm_compute; reflexivity. Qed.

(** Drafts of the current revision are refused, those of an earlier one are not. *)
Example old_scratch :
  (zone_of (run_dir "/h" "task1" 2) "/h/runs/task1/r2/scratch/a.txt", zone_of (run_dir "/h" "task1" 2) "/h/runs/task1/r1/scratch/a.txt")
  = ("scratch", "").
Proof. vm_compute. reflexivity. Qed.
End Workspace.
