(* ===== verification/Outcomes.v ===== *)
(** The outcome of a task: src/src/rosclaw/task_kernel/coordinator.py over Evidence.v.

    After each effect the coordinator considers the task: it verifies what the revision
    has produced, answers an outcome, asks for repairs and parks a task that fails the same
    way twice. Identifiers of outcomes and repairs are not kept; the projection of the
    deliverables on disk is an argument; [fingerprint] is the hash of the sorted texts of
    the failures. *)

From S2P Require Export Evidence.
Open Scope list_scope.

(** The hash of the sorted texts: equal for the same failures in another order. *)
Class FailureTexts := {
  fingerprint : list failure -> string;
  fingerprint_perm l l' : l ≡ₚ l' -> fingerprint l = fingerprint l';
}.

(** A failure, or a reason told when the task was closed. *)
Inductive cause := Found (f : failure) | Told (text : string).

Record directive := {
  dr_criterion : option cause;
  dr_repairable : bool;
  dr_fingerprint : option string;
  dr_failures : list cause;
}.

Record artifact_ref := {
  rf_artifact_id : string;
  rf_kind : string;
  rf_media_type : string;
  rf_path : string;
  rf_size_bytes : Z;
  rf_digest : string;
  rf_producer : string;
  rf_open_command : string;
}.

Record task_outcome := {
  oc_task_id : string;
  oc_revision : Z;
  oc_lifecycle : string;
  oc_execution : string;
  oc_verification : string;
  oc_delivery : string;
  oc_user_accepted : bool;
  oc_workspace_projection : string;
  oc_domain : string;
  oc_trust : string;
  oc_levels : list string;
  oc_artifact_refs : list artifact_ref;
  oc_repair_directive : option directive;
  oc_created_at : datetime;
}.

Record repair_row := { rr_task_id : string; rr_revision : Z; rr_fingerprint : string; rr_directive : directive }.

Record office := {
  of_dossier : dossier;
  of_outcomes : list (string * Z * task_outcome);
  of_repairs : list repair_row;
}.

Definition of_kernel (o : office) : kernel := do_kernel (of_dossier o).

Definition with_dossier (d : dossier) (o : office) : office :=
  {| of_dossier := d; of_outcomes := of_outcomes o; of_repairs := of_repairs o |}.

(** ** Views of the ledger *)

Definition ref_of (a : artifact_row) : artifact_ref :=
  {| rf_artifact_id := ar_id a; rf_kind := artifact_delivery_kind a; rf_media_type := ar_media_type a;
     rf_path := ar_path a; rf_size_bytes := ar_size a;
     rf_digest := if String.prefix "sha256:" (ar_sha256 a) then ar_sha256 a else "sha256:" +:+ ar_sha256 a;
     rf_producer := ar_producer a; rf_open_command := "rosclaw artifact open " +:+ ar_id a |}.

(** [ORDER BY created_at], equal instants in the order of the table. *)
Fixpoint insert_created (a : artifact_row) (l : list artifact_row) : list artifact_row :=
  match l with
  | [] => [a]
  | b :: l' => if dt_lt (ar_created_at b) (ar_created_at a) then b :: insert_created a l' else a :: l
  end.
Definition by_created (l : list artifact_row) : list artifact_row := foldr insert_created [] l.

Definition artifact_refs_for (id : string) (revision : Z) (d : dossier) : list artifact_ref :=
  ref_of <$> by_created (artifacts_for_revision id revision d).

(** [_goal_requires_media]; the other markers are beyond the model's text. *)
Definition goal_requires_media (goal : string) : bool :=
  existsb (fun m => contains m (text_lower goal)) ["gif"; "mp4"; "video"].

Definition is_media (a : artifact_row) : bool := starts "image/" (ar_media_type a) || starts "video/" (ar_media_type a).

(** The failures that concern the delivery alone. *)
Definition delivery_failure (f : failure) : bool :=
  match f with DeliverableMissing _ | MediaDeliverableMissing => true | _ => false end.
Definition deliverable_missing (f : failure) : bool := match f with DeliverableMissing _ => true | _ => false end.

(** Each level once, in the order of the artifacts. *)
Definition evidence_levels (t : task_rec) (artifacts : list artifact_row) : list string :=
  let levels := foldl (fun seen l => if bool_decide (l ∈ seen) then seen else seen ++ [l]) []
                  (concat ((fun a => md_levels (ar_metadata a)) <$> artifacts)) in
  levels
  ++ (if existsb (fun a => String.eqb (artifact_delivery_kind a) "scene_3d") artifacts
         && negb (bool_decide ("SCENE_RENDER" ∈ levels)) then ["SCENE_RENDER"] else [])
  ++ (if String.eqb (tk_mode t) "REAL" then ["REAL_RECEIPT"] else []).

Definition build_outcome (id : string) (t : task_rec) (artifacts : list artifact_row)
    (lifecycle execution verification delivery projection : string) (created_at : datetime) (d : dossier) : task_outcome :=
  {| oc_task_id := id; oc_revision := tk_active_revision t; oc_lifecycle := lifecycle; oc_execution := execution;
     oc_verification := verification; oc_delivery := delivery;
     oc_user_accepted := bool_decide (is_Some (tk_user_accepted_at t)); oc_workspace_projection := projection;
     oc_domain := if truthy_str (tk_mode t) then tk_mode t else "SIMULATION";
     oc_trust := if existsb (fun a => starts "kernel:" (ar_producer a)) artifacts then "TRUSTED" else "EXPERIMENTAL";
     oc_levels := evidence_levels t artifacts; oc_artifact_refs := artifact_refs_for id (tk_active_revision t) d;
     oc_repair_directive := None; oc_created_at := created_at |}.

Definition with_directive (r : directive) (oc : task_outcome) : task_outcome :=
  {| oc_task_id := oc_task_id oc; oc_revision := oc_revision oc; oc_lifecycle := oc_lifecycle oc;
     oc_execution := oc_execution oc; oc_verification := oc_verification oc; oc_delivery := oc_delivery oc;
     oc_user_accepted := oc_user_accepted oc; oc_workspace_projection := oc_workspace_projection oc;
     oc_domain := oc_domain oc; oc_trust := oc_trust oc; oc_levels := oc_levels oc;
     oc_artifact_refs := oc_artifact_refs oc; oc_repair_directive := Some r; oc_created_at := oc_created_at oc |}.

(** ** Storing *)

Definition stored_outcome (id : string) (revision : Z) (o : office) : option task_outcome :=
  snd <$> find (fun x => String.eqb x.1.1 id && (x.1.2 =? revision)) (of_outcomes o).

(** [INSERT OR IGNORE], one outcome per task and revision. *)
Definition store_outcome (id : string) (revision : Z) (oc : task_outcome) (o : office) : office :=
  match stored_outcome id revision o with
  | Some _ => o
  | None => {| of_dossier := of_dossier o; of_outcomes := of_outcomes o ++ [((id, revision), oc)]; of_repairs := of_repairs o |}
  end.

Definition closing_reasons (t : task_rec) : list string :=
  let fix split (cur s : string) : list string :=
    match s with
    | EmptyString => [cur]
    | String c s' => if Ascii.eqb c ";" then cur :: split "" s' else split (cur +:+ String c "") s'
    end in
  filter (fun x => truthy_str x = true) (strip <$> split "" (default "" (tk_terminal_reason t))).

Section Consider.
Context `{Crypto} `{FailureTexts} (w : surroundings).

Definition repair_directive (id : string) (revision : Z) (failures : list failure) (o : office) : office * directive :=
  let r := {| dr_criterion := Found <$> head failures; dr_repairable := true;
              dr_fingerprint := Some (fingerprint failures); dr_failures := Found <$> failures |} in
  ({| of_dossier := of_dossier o; of_outcomes := of_outcomes o;
      of_repairs := of_repairs o ++ [{| rr_task_id := id; rr_revision := revision; rr_fingerprint := fingerprint failures;
                                        rr_directive := r |}] |}, r).

Definition times_seen (id : string) (failures : list failure) (o : office) : nat :=
  length (filter (fun r => String.eqb (rr_task_id r) id && String.eqb (rr_fingerprint r) (fingerprint failures) = true)
            (of_repairs o)).

(** An outcome rebuilt from the ledger of a task that is closed without success. *)
Definition closed_outcome (id : string) (t : task_rec) (now : datetime) (o : office) : office * task_outcome :=
  let artifacts := artifacts_for_revision id (tk_active_revision t) (of_dossier o) in
  let some := negb (bool_decide (artifacts = [])) in
  let oc := build_outcome id t artifacts "COMPLETED" (if some then "SUCCEEDED" else "RUNNING")
              (if bool_decide (tk_state t = CANCELLED) then "CANCELLED" else "FAIL") (if some then "PARTIAL" else "NONE")
              "" now (of_dossier o) in
  let oc := match closing_reasons t with
            | [] => oc
            | reason :: _ => with_directive {| dr_criterion := Some (Told reason); dr_repairable := false; dr_fingerprint := None;
                                               dr_failures := Told <$> closing_reasons t |} oc
            end in
  (store_outcome id (tk_active_revision t) oc o, oc).

Definition passed_outcome (id : string) (t : task_rec) (artifacts : list artifact_row) (projection : string) (now : datetime)
    (o : office) : office * task_outcome :=
  let grade := match last (passes_of id (of_kernel o)) with Some v => vf_grade v | None => "" end in
  let verification := if String.eqb grade "PASS_NEAR_LIMIT" then "PASS_NEAR_LIMIT" else "PASS" in
  let oc := build_outcome id t artifacts "COMPLETED" "SUCCEEDED" verification "DELIVERED" projection now (of_dossier o) in
  (store_outcome id (tk_active_revision t) oc o, oc).

(** Only the delivery is missing: nothing is stored, the next consideration tries again. *)
Definition undelivered_outcome (id : string) (t : task_rec) (artifacts : list artifact_row) (ds : list deliverable)
    (failures : list failure) (now : datetime) (o : office) : office * task_outcome :=
  let missing := existsb deliverable_missing failures in
  let satisfied := negb (bool_decide ((deliverable_verdict ds artifacts).1 = [])) in
  let delivery := if missing then (if satisfied then "PARTIAL" else "MISSING") else "NEEDS_REPAIR" in
  let oc := build_outcome id t artifacts "ACTIVE" "SUCCEEDED" (if missing then "PARTIAL" else "FAIL") delivery "" now (of_dossier o) in
  let '(o, r) := repair_directive id (tk_active_revision t) failures o in
  (o, with_directive r oc).

(** Verification failed; the second time with the same failures the task waits for the user. *)
Definition failed_outcome (id : string) (t : task_rec) (artifacts : list artifact_row) (failures : list failure)
    (now : datetime) (o : office) : office * task_outcome :=
  let some := negb (bool_decide (artifacts = [])) in
  let oc := build_outcome id t artifacts "ACTIVE" (if some then "SUCCEEDED" else "RUNNING") "FAIL"
              (if some then "PARTIAL" else "NONE") "" now (of_dossier o) in
  let '(o, r) := repair_directive id (tk_active_revision t) failures o in
  let oc := with_directive r oc in
  if (1 <? times_seen id failures o)%nat then
    (store_outcome id (tk_active_revision t) oc
       (with_dossier (with_kernel (park id now (of_kernel o)) (of_dossier o)) o), oc)
  else (o, oc).

(** Status and failures of the verification. *)
Definition passed_status (r : finished) : bool :=
  match r with
  | AlreadyTerminal SUCCEEDED _ | Succeeded _ => true
  | _ => false
  end.
Definition failures_of (r : finished) : list failure := match r with RepairRequired fs _ => fs | _ => [] end.

(** The media a goal asks for, where no frozen deliverable says it. *)
Definition media_failures (t : task_rec) (ds : list deliverable) (artifacts : list artifact_row) : list failure :=
  if bool_decide (ds = []) && goal_requires_media (tk_root_goal t) && negb (existsb is_media artifacts)
  then [MediaDeliverableMissing] else [].

(** What the coordinator says for a summary; it is never blank. *)
Definition coordinator_summary : string := "coordinator".

(** [consider]; [fresh] and [now'] are the verification's. *)
Definition consider (id fresh projection : string) (now' now : datetime) (o : office)
    : office * result kernel_exn (option task_outcome) :=
  match dget (kn_tasks (of_kernel o)) id with
  | None => (o, Err BadValue)
  | Some t =>
      match stored_outcome id (tk_active_revision t) o with
      | Some oc => (o, Ok (Some oc))
      | None =>
          if bool_decide (tk_state t ∈ [FAILED; BLOCKED; CANCELLED]) then
            let '(o, oc) := closed_outcome id t now o in (o, Ok (Some oc))
          else
            let artifacts := artifacts_for_revision id (tk_active_revision t) (of_dossier o) in
            if bool_decide (artifacts = []) && negb (bool_decide (is_Some (get_acceptance_spec id (of_kernel o)))) then (o, Ok None)
            else
              match finish w id coordinator_summary (ar_id <$> artifacts) "" fresh now' (of_dossier o) with
              | (d, Err e) => (with_dossier d o, Err e)
              | (d, Ok r) =>
                  let o := with_dossier d o in
                  let ds := match get_task_spec id (of_kernel o) with Some spec => ts_deliverables spec | None => [] end in
                  let failures := failures_of r ++ media_failures t ds artifacts in
                  let '(o, oc) :=
                    if passed_status r && bool_decide (failures = []) then passed_outcome id t artifacts projection now o
                    else if negb (bool_decide (failures = [])) && forallb delivery_failure failures
                    then undelivered_outcome id t artifacts ds failures now o
                    else failed_outcome id t artifacts failures now o in
                  (o, Ok (Some oc))
              end
      end
  end.

(** Any operation on the tasks, their artifacts and their outcomes. *)
Inductive office_step : office -> office -> Prop :=
| o_ledger d o : estep w (of_dossier o) d -> office_step o (with_dossier d o)
| o_consider id fresh projection now' now o : office_step o (consider id fresh projection now' now o).1.
End Consider.

(** ** The coordinator acts through the kernel *)

Section Coordinator_runs.
Context `{Crypto} `{FailureTexts} (w : surroundings).

Lemma finish_kernel id summary ids grade fresh now d d' r :
  finish w id summary ids grade fresh now d = (d', r) -> rtc kstep (do_kernel d) (do_kernel d').
Proof.
  intros E. destruct (finish_run w id summary ids grade fresh now d) as [Hd|[v Hd]]; rewrite E in Hd; simpl in Hd; subst d'; [done|].
  apply rtc_once. apply k_finish.
Qed.

Lemma estep_kernel d d' : estep w d d' -> rtc kstep (do_kernel d) (do_kernel d').
Proof.
  intros [k' d0 Hk|q fresh now d0|id summary ids grade fresh now d0].
  - by apply rtc_once.
  - destruct (register_artifact w q fresh now d0) as [d1 r] eqn:E. simpl.
    destruct (register_same w _ _ _ _ _ _ E) as [->|[a ->]]; [done|].
    destruct (register_run w _ _ _ _ _ _ E) as [-> _]. apply rtc_once, k_emit.
  - destruct (finish w id summary ids grade fresh now d0) eqn:E. by eapply finish_kernel.
Qed.

Lemma store_kernel id n oc o : of_kernel (store_outcome id n oc o) = of_kernel o.
Proof. unfold store_outcome. by destruct (stored_outcome id n o). Qed.

Lemma failed_kernel id t artifacts failures now o :
  rtc kstep (of_kernel o) (of_kernel (failed_outcome id t artifacts failures now o).1).
Proof.
  unfold failed_outcome. destruct (repair_directive _ _ _ _) as [o1 r1] eqn:Er. injection Er as <- <-.
  destruct (1 <? _)%nat; [|done]. simpl. rewrite store_kernel. apply rtc_once. apply (k_park id now).
Qed.

Lemma consider_kernel id fresh projection now' now o :
  rtc kstep (of_kernel o) (of_kernel (consider w id fresh projection now' now o).1).
Proof.
  unfold consider. destruct (dget _ id) as [t|]; [|done]. destruct (stored_outcome _ _ o); [done|].
  destruct (bool_decide (tk_state t ∈ _)); [unfold closed_outcome; simpl; by rewrite store_kernel|].
  destruct (_ && _); [done|]. destruct (finish w _ _ _ _ _ _ _) as [d [r|e]] eqn:E; apply finish_kernel in E; [|done].
  etrans; [exact E|]. destruct (_ && _).
  - unfold passed_outcome. simpl. by rewrite store_kernel.
  - destruct (_ && _); [done|].
    match goal with |- context [failed_outcome id t ?l ?f now ?x] => pose proof (failed_kernel id t l f now x) as Hf;
      destruct (failed_outcome id t l f now x) end. exact Hf.
Qed.

(** Registration, verification and the coordinator act on the tasks only by the operations
    of the kernel: any run of theirs is a run of the kernel's, so what holds of every run
    of the kernel holds of the whole. *)
Theorem office_refines_kernel o o' : rtc (office_step w) o o' -> rtc kstep (of_kernel o) (of_kernel o').
Proof.
  induction 1 as [|o o1 o' Hs _ IH]; [done|]. etrans; [|exact IH]. destruct Hs as [d o Hd|id fresh projection now' now o].
  - exact (estep_kernel _ _ Hd).
  - apply consider_kernel.
Qed.

(** ** Outcomes *)

Lemma store_keeps id n oc j m x o : stored_outcome j m o = Some x -> stored_outcome j m (store_outcome id n oc o) = Some x.
Proof.
  unfold store_outcome. destruct (stored_outcome id n o); [done|]. unfold stored_outcome. simpl.
  destruct (find _ (of_outcomes o)) as [y|] eqn:E; [|done]. by rewrite (find_app_some _ _ _ _ E).
Qed.

Lemma stored_consider j m x id fresh projection now' now o :
  stored_outcome j m o = Some x -> stored_outcome j m (consider w id fresh projection now' now o).1 = Some x.
Proof.
  intros Hx. unfold consider. destruct (dget _ id) as [t|]; [|done]. destruct (stored_outcome id _ o); [done|].
  destruct (bool_decide (tk_state t ∈ _)); [unfold closed_outcome; simpl; by apply store_keeps|].
  destruct (_ && _); [done|]. destruct (finish w _ _ _ _ _ _ _) as [d [r|e]]; [|done].
  destruct (_ && _); [by apply store_keeps|]. destruct (_ && _); [done|].
  unfold failed_outcome. destruct (repair_directive _ _ _ _) as [o1 r1] eqn:Er. injection Er as <- <-.
  destruct (1 <? _)%nat; [by apply store_keeps | done].
Qed.

(** An outcome that was stored is the answer to every later consideration of that
    revision, whatever is registered, verified or reported in between. *)
Theorem outcome_final o o' id n oc t fresh projection now' now :
  stored_outcome id n o = Some oc -> rtc (office_step w) o o' -> dget (kn_tasks (of_kernel o')) id = Some t -> tk_active_revision t = n ->
  consider w id fresh projection now' now o' = (o', Ok (Some oc)).
Proof.
  intros Hs Hr Ht Hn.
  assert (Hs' : stored_outcome id n o' = Some oc).
  { apply (reach_inv (office_step w) (fun o => stored_outcome id n o = Some oc) o); [done| |done].
    intros x y Hx Hxy. revert Hx. destruct Hxy as [d x0 Hd|j f p n1 n2 x0]; [done | by apply stored_consider]. }
  unfold consider. by rewrite Ht, Hn, Hs'.
Qed.

Lemma finish_open id summary ids grade fresh now d d' r t :
  dget (kn_tasks (do_kernel d)) id = Some t -> task_terminal (tk_state t) = false ->
  finish w id summary ids grade fresh now d = (d', Ok r) ->
  (exists vid, r = Succeeded vid) \/ exists fs c, r = RepairRequired fs c.
Proof.
  intros Ht Ho. unfold finish. rewrite Ht, Ho. destruct (finish_verdict w id t summary ids d) as [v|]; [|done].
  unfold finish_task. rewrite Ht, Ho. destruct (vd_failures v) as [|f fs]; [|intros [= _ <-]; eauto].
  destruct (existsb _ _); [done|]. destruct (transition _ _ _ _ _) as [k [u|e]]; [intros [= _ <-]; eauto|done].
Qed.

Lemma prefix_split p s : String.prefix p s = true <-> exists r, s = p +:+ r.
Proof.
  revert p. induction s as [|d s IH]; intros [|c p].
  - split; [by exists ""|done].
  - split; [done|]. by intros [r Hr].
  - split; [by exists (String d s)|done].
  - simpl. destruct (ascii_dec c d) as [->|Hn].
    + rewrite IH. split; intros [r Hr]; exists r; [by rewrite Hr|by injection Hr].
    + split; [done|]. intros [r Hr]. by injection Hr.
Qed.

Lemma contains_split m s : contains m s = true <-> exists pre post, s = pre +:+ (m +:+ post).
Proof.
  induction s as [|c s IH]; cbn [contains]; rewrite orb_true_iff, prefix_split.
  - split.
    + intros [[r Hr]|?]; [by exists "", r|done].
    + intros (pre & post & Hs). destruct pre; [|done]. left. by exists post.
  - rewrite IH. split.
    + intros [[r Hr]|(pre & post & ->)]; [by exists "", r|by exists (String c pre), post].
    + intros (pre & post & Hs). destruct pre as [|c' pre]; [left; by exists post|].
      injection Hs as -> ->. right. eauto.
Qed.

(** A goal that names a medium the coordinator looks for, in any case. *)
Definition names_medium (goal : string) : Prop :=
  exists m pre post, m ∈ ["gif"; "mp4"; "video"] /\ text_lower goal = pre +:+ (m +:+ post).

(** Content with a media type of a picture or a film. *)
Definition shows_medium (a : artifact_row) : Prop :=
  exists rest, ar_media_type a = "image/" +:+ rest \/ ar_media_type a = "video/" +:+ rest.

Lemma media_met t artifacts : media_failures t [] artifacts = [] -> names_medium (tk_root_goal t) ->
  exists a, a ∈ artifacts /\ shows_medium a.
Proof.
  unfold media_failures. intros Hm (m & pre & post & Hin & Hg). rewrite bool_decide_eq_true_2 in Hm by done.
  assert (Hr : goal_requires_media (tk_root_goal t) = true).
  { apply existsb_exists. exists m. split; [by apply list_elem_of_In|]. apply contains_split. eauto. }
  rewrite Hr in Hm. simpl in Hm. destruct (existsb is_media artifacts) eqn:E; [|done].
  apply existsb_exists in E as (a & Ha & Hk). exists a. split; [by apply list_elem_of_In|].
  unfold is_media, starts in Hk. rewrite orb_true_iff, !prefix_split in Hk.
  destruct Hk as [[r Hr']|[r Hr']]; exists r; auto.
Qed.

(** The outcome lists every artifact once, in the order of their creation. *)
Lemma by_created_perm l : by_created l ≡ₚ l.
Proof.
  assert (Hi : forall a l, insert_created a l ≡ₚ a :: l).
  { intros a m. induction m as [|b m IH]; simpl; [done|]. destruct (dt_lt _ _); [|done].
    rewrite IH. apply Permutation_swap. }
  induction l as [|a l IH]; simpl; [done|]. fold (by_created l). by rewrite Hi, IH.
Qed.

Lemma refs_listed id n d :
  ((fun f => (rf_artifact_id f, rf_path f, rf_size_bytes f)) <$> artifact_refs_for id n d) ≡ₚ
  ((fun a => (ar_id a, ar_path a, ar_size a)) <$> artifacts_for_revision id n d).
Proof.
  unfold artifact_refs_for. rewrite <- list_fmap_compose. unfold compose, ref_of. simpl. by rewrite by_created_perm.
Qed.

(** Neither of the outcomes of a failure says DELIVERED. *)
Lemma undelivered (b : bool) id t artifacts ds failures now o o' oc :
  (let '(o, oc) := if b then undelivered_outcome id t artifacts ds failures now o else failed_outcome id t artifacts failures now o in
   (o, Ok (Some oc))) = (o', Ok (Some oc) : result kernel_exn (option task_outcome)) -> oc_delivery oc <> "DELIVERED".
Proof.
  destruct b; unfold undelivered_outcome, failed_outcome; destruct (repair_directive _ _ _ _) as [o1 r1].
  - intros [= _ <-]. simpl. by repeat case_match.
  - destruct (1 <? _)%nat; intros [= _ <-]; simpl; by repeat case_match.
Qed.

(** C18: An outcome newly says DELIVERED for an open task only on the evidence of all that its
    revision registered: it is stored for the revision as COMPLETED, SUCCEEDED and passed, lists
    exactly the artifacts of the revision, and the task is SUCCEEDED then. Where the task has no
    frozen spec, or one without deliverables, and its root goal names a gif, an mp4 or a video,
    one of the artifacts is a picture or a film; a spec with deliverables asks for these alone. *)
Theorem delivered_sound id fresh projection now' now o o' oc t :
  dget (kn_tasks (of_kernel o)) id = Some t -> task_terminal (tk_state t) = false -> stored_outcome id (tk_active_revision t) o = None ->
  consider w id fresh projection now' now o = (o', Ok (Some oc)) -> oc_delivery oc = "DELIVERED" ->
  let artifacts := artifacts_for_revision id (tk_active_revision t) (of_dossier o) in
  evidenced w id t coordinator_summary (ar_id <$> artifacts) (of_dossier o) /\
  ((forall spec, get_task_spec id (of_kernel o') = Some spec -> ts_deliverables spec = []) ->
     names_medium (tk_root_goal t) -> exists a, a ∈ artifacts /\ shows_medium a) /\
  stored_outcome id (tk_active_revision t) o' = Some oc /\
  (oc_revision oc = tk_active_revision t /\ oc_lifecycle oc = "COMPLETED" /\ oc_execution oc = "SUCCEEDED" /\
   (oc_verification oc = "PASS" \/ oc_verification oc = "PASS_NEAR_LIMIT")) /\
  ((fun f => (rf_artifact_id f, rf_path f, rf_size_bytes f)) <$> oc_artifact_refs oc) ≡ₚ
    ((fun a => (ar_id a, ar_path a, ar_size a)) <$> artifacts) /\
  exists t', dget (kn_tasks (of_kernel o')) id = Some t' /\ tk_state t' = SUCCEEDED.
Proof.
  intros Ht Ho Hs. unfold consider. rewrite Ht, Hs. rewrite bool_decide_eq_false_2.
  2: { intros Hin. destruct (tk_state t); set_solver. }
  destruct (_ && negb _); [done|]. destruct (finish w _ _ _ _ _ _ _) as [d [r|e]] eqn:E; [|done].
  destruct (finish_open _ _ _ _ _ _ _ _ _ _ Ht Ho E) as [[vid ->]|(fs & c & ->)].
  - destruct (success_has_evidence w _ _ _ _ _ _ _ _ _ _ Ht E) as (Hev & Hst & _). cbn [passed_status failures_of app andb].
    match goal with |- context [bool_decide (?m = [])] => destruct m as [|f fs] eqn:Em end.
    + assert (Hmedia : (forall spec, get_task_spec id (do_kernel d) = Some spec -> ts_deliverables spec = []) ->
        names_medium (tk_root_goal t) ->
        exists a, a ∈ artifacts_for_revision id (tk_active_revision t) (of_dossier o) /\ shows_medium a).
      { intros Hnone. apply media_met. rewrite <- Em. simpl. f_equal.
        destruct (get_task_spec id _) as [spec|] eqn:Esp; [|done]. symmetry. by apply Hnone. }
      assert (Hd : do_artifacts d = do_artifacts (of_dossier o)).
      { destruct (finish_run w id coordinator_summary
          (ar_id <$> artifacts_for_revision id (tk_active_revision t) (of_dossier o)) "" fresh now' (of_dossier o))
          as [Hx|[v Hx]]; rewrite E in Hx; simpl in Hx; by rewrite Hx. }
      rewrite bool_decide_eq_true_2 by done. unfold passed_outcome, store_outcome.
      replace (stored_outcome id (tk_active_revision t) (with_dossier d o)) with (@None task_outcome) by (by symmetry).
      intros [= <- <-] _. split_and!; try done.
      2: { simpl. destruct (String.eqb _ _); auto. }
      2: { simpl. rewrite refs_listed. unfold artifacts_for_revision. by rewrite Hd. }
      unfold stored_outcome in Hs |- *. simpl.
      destruct (find _ (of_outcomes o)) eqn:Ef; [done|]. clear -Ef. induction (of_outcomes o) as [|x l IH]; simpl in *.
      * by rewrite String.eqb_refl, Z.eqb_refl.
      * destruct (_ && _); [done|by apply IH].
    + rewrite bool_decide_eq_false_2 by done. cbn [negb andb]. intros E1 E2. by apply undelivered in E1.
  - cbn [passed_status andb]. intros E1 E2. by apply undelivered in E1.
Qed.
End Coordinator_runs.

(** ** Repairs *)

Section Repairs.
Context `{Crypto} `{FailureTexts} (w : surroundings).

(** The same failures were recorded for the task, for any of its revisions. *)
Definition failed_before (id : string) (failures : list failure) (o : office) : bool :=
  existsb (fun r => String.eqb (rr_task_id r) id && String.eqb (rr_fingerprint r) (fingerprint failures)) (of_repairs o).

Lemma seen_twice id n failures o o1 r : repair_directive id n failures o = (o1, r) ->
  (1 <? times_seen id failures o1)%nat = failed_before id failures o.
Proof.
  intros [= <- _]. unfold times_seen, failed_before. simpl. rewrite filter_app, length_app, Nat.add_comm.
  rewrite filter_cons_True by (simpl; by rewrite !String.eqb_refl). simpl.
  induction (of_repairs o) as [|x l IH]; [done|]. simpl.
  destruct (String.eqb (rr_task_id x) id && String.eqb (rr_fingerprint x) (fingerprint failures)) eqn:E.
  - by rewrite filter_cons_True.
  - rewrite filter_cons_False by (by rewrite E). exact IH.
Qed.

Lemma stored_new id n oc o : stored_outcome id n o = None -> stored_outcome id n (store_outcome id n oc o) = Some oc.
Proof.
  unfold store_outcome. intros Hs. rewrite Hs. unfold stored_outcome in *. simpl.
  destruct (find _ (of_outcomes o)) eqn:Ef; [done|]. clear -Ef. induction (of_outcomes o) as [|x l IH]; simpl in *.
  - by rewrite String.eqb_refl, Z.eqb_refl.
  - destruct (_ && _); [done|by apply IH].
Qed.

Lemma finish_repair id summary ids grade fresh now d d' fs c t :
  dget (kn_tasks (do_kernel d)) id = Some t -> finish w id summary ids grade fresh now d = (d', Ok (RepairRequired fs c)) ->
  dget (kn_tasks (do_kernel d')) id = Some t /\ fs <> [].
Proof.
  intros Ht. unfold finish. rewrite Ht.
  assert (Hgo : forall v, (let '(k, r) := finish_task id v grade fresh now (do_kernel d) in (with_kernel k d, r)) = (d', Ok (RepairRequired fs c)) ->
    dget (kn_tasks (do_kernel d')) id = Some t /\ fs <> []).
  { intros v. unfold finish_task. rewrite Ht. destruct (task_terminal _); [done|].
    destruct (vd_failures v) as [|f l]; [|intros [= <- <- _]; simpl; by split].
    destruct (existsb _ _); [done|]. by destruct (transition _ _ _ _ _) as [k [u|e]]. }
  destruct (task_terminal _); [apply Hgo|]. destruct (finish_verdict w id t summary ids d); [apply Hgo|done].
Qed.

(** A verification that fails for more than the delivery leaves the task as it is the
    first time; where the same failures were recorded before, the failed outcome is stored
    and the task waits for the user. *)
Theorem repeated_failure_parks id fresh projection now' now o t d fs c :
  let artifacts := artifacts_for_revision id (tk_active_revision t) (of_dossier o) in
  let failures := fs ++ media_failures t match get_task_spec id (do_kernel d) with Some spec => ts_deliverables spec | None => [] end artifacts in
  dget (kn_tasks (of_kernel o)) id = Some t -> task_terminal (tk_state t) = false -> stored_outcome id (tk_active_revision t) o = None ->
  artifacts <> [] ->
  finish w id coordinator_summary (ar_id <$> artifacts) "" fresh now' (of_dossier o) = (d, Ok (RepairRequired fs c)) ->
  forallb delivery_failure failures = false ->
  let o' := (consider w id fresh projection now' now o).1 in
  if failed_before id failures o then
    tk_state <$> dget (kn_tasks (of_kernel o')) id = Some WAITING_INPUT /\
    exists oc, stored_outcome id (tk_active_revision t) o' = Some oc /\ oc_verification oc = "FAIL"
  else
    dget (kn_tasks (of_kernel o')) id = Some t /\ stored_outcome id (tk_active_revision t) o' = None.
Proof.
  intros artifacts failures Ht Ho Hs Ha Hf Hd o'. destruct (finish_repair _ _ _ _ _ _ _ _ _ _ _ Ht Hf) as [Ht' Hn].
  assert (Ho' : o' = (failed_outcome id t artifacts failures now (with_dossier d o)).1).
  { unfold o', consider. rewrite Ht, Hs. rewrite bool_decide_eq_false_2.
    2: { intros Hin. destruct (tk_state t); set_solver. }
    rewrite bool_decide_eq_false_2 by done. cbn [andb]. fold artifacts. rewrite Hf. cbn [passed_status failures_of andb].
    change (fs ++ media_failures t _ artifacts) with failures. rewrite Hd, andb_false_r.
    by destruct (failed_outcome id t artifacts failures now (with_dossier d o)). }
  rewrite Ho'. unfold failed_outcome. destruct (repair_directive id _ failures (with_dossier d o)) as [o1 r1] eqn:Er.
  rewrite (seen_twice _ _ _ _ _ _ Er). change (failed_before id failures (with_dossier d o)) with (failed_before id failures o).
  injection Er as <- <-. destruct (failed_before id failures o); [|done]. cbn [fst]. rewrite store_kernel. simpl. split.
  - unfold park. unfold of_kernel. simpl. rewrite Ht', Ho. simpl. by rewrite dget_dset_eq.
  - eexists. split; [apply stored_new; exact Hs | done].
Qed.
End Repairs.

(** ** The coordinator at work *)

Section Desk.
#[local] Existing Instance toy_crypto.

#[local] Instance demo_texts : FailureTexts := {| fingerprint := fun _ => "f"; fingerprint_perm _ _ _ := eq_refl |}.

Definition desk (d : dossier) : office := {| of_dossier := d; of_outcomes := []; of_repairs := [] |}.

Definition stages (id : string) (o : office) : option task_state := tk_state <$> dget (kn_tasks (of_kernel o)) id.
Definition told (r : office * result kernel_exn (option task_outcome)) : option (string * string * string) :=
  match r.2 with Ok (Some oc) => Some (oc_lifecycle oc, oc_verification oc, oc_delivery oc) | _ => None end.

(** The report is there: verified, delivered, and so answered ever after. *)
Definition reported_o : office := desk reported_d.
Definition delivered_o : office := Eval vm_compute in (consider here "task1" "v1" "OK" (at_second 3) (at_second 3) reported_o).1.

Lemma delivered_sound_witness : tk_state <$> dget (kn_tasks (of_kernel delivered_o)) "task1" = Some SUCCEEDED.
Proof.
  destruct (consider here "task1" "v1" "OK" (at_second 3) (at_second 3) reported_o) as [o' r] eqn:E.
  assert (Er : exists oc, r = Ok (Some oc) /\ oc_delivery oc = "DELIVERED").
  { vm_compute in E. injection E as <- <-. eexists. split; reflexivity. }
  destruct Er as (oc & -> & Hd).
  destruct (dget (kn_tasks (of_kernel reported_o)) "task1") as [t|] eqn:Et; [|vm_compute in Et; discriminate Et].
  assert (Ho : task_terminal (tk_state t) = false) by (vm_compute in Et; injection Et as <-; reflexivity).
  assert (Hs : stored_outcome "task1" (tk_active_revision t) reported_o = None) by reflexivity.
  destruct (delivered_sound here "task1" "v1" "OK" (at_second 3) (at_second 3) reported_o o' oc t Et Ho Hs E Hd)
    as (_ & _ & _ & _ & _ & t' & Ht' & Es).
  replace delivered_o with o' by (vm_compute in E; injection E as <- _; vm_compute; reflexivity).
  rewrite Ht'. simpl. by rewrite Es.
Defined.

Lemma outcome_final_witness : exists oc,
  consider here "task1" "v2" "OK" (at_second 9) (at_second 9) delivered_o = (delivered_o, Ok (Some oc)) /\ oc_delivery oc = "DELIVERED".
Proof.
  destruct (stored_outcome "task1" 1 delivered_o) as [oc|] eqn:E; [|vm_compute in E; discriminate E].
  destruct (dget (kn_tasks (of_kernel delivered_o)) "task1") as [t|] eqn:Et; [|vm_compute in Et; discriminate Et].
  exists oc. split.
  - apply (outcome_final here delivered_o delivered_o "task1" 1 oc t "v2" "OK" (at_second 9) (at_second 9) E (rtc_refl _ _) Et).
    vm_compute in Et. injection Et as <-. reflexivity.
  - vm_compute in E. injection E as <-. reflexivity.
Defined.

Lemma office_refines_kernel_witness : rtc kstep (of_kernel reported_o) (of_kernel delivered_o).
Proof.
  apply (office_refines_kernel here). apply rtc_once.
  change delivered_o with (consider here "task1" "v1" "OK" (at_second 3) (at_second 3) reported_o).1. apply o_consider.
Defined.

(** The report is changed after its registration; the second consideration parks the task. *)
Definition altered : surroundings :=
  {| su_home := "/h"; su_file := fun p => if String.eqb p "/p/report.txt" then Content "changed" else NoFile; su_size := fun _ => 4096;
     su_resolve := fun p => p; su_mtime := fun _ => fzero; su_input_trace_digest := fun _ => None; su_which := fun _ => true;
     su_run := fun _ _ => Exited 0; su_plan_events := fun _ => false; su_receipts := fun _ => false; su_manifest := fun _ => None |}.
Definition failed_o : office := Eval vm_compute in (consider altered "task1" "v1" "OK" (at_second 3) (at_second 3) reported_o).1.
Definition parked_o : office := Eval vm_compute in (consider altered "task1" "v2" "OK" (at_second 4) (at_second 4) failed_o).1.

Lemma repeated_failure_parks_witness : stages "task1" failed_o = Some RUNNING /\ stages "task1" parked_o = Some WAITING_INPUT.
Proof.
  split; [vm_compute; reflexivity|].
  destruct (dget (kn_tasks (of_kernel failed_o)) "task1") as [t|] eqn:Et; [|vm_compute in Et; discriminate Et].
  vm_compute in Et. injection Et as <-.
  destruct (@repeated_failure_parks toy_crypto demo_texts altered "task1" "v2" "OK" (at_second 4) (at_second 4) failed_o _
    (with_kernel (with_kernel_event "task1" None (VerificationCompleted None) (of_kernel failed_o)) (of_dossier failed_o))
    [HashMismatch "report.txt"] 1 eq_refl eq_refl eq_refl ltac:(vm_compute; discriminate) ltac:(vm_compute; reflexivity)
    ltac:(vm_compute; reflexivity)) as [Hp _].
  exact Hp.
Defined.

(** A state set from outside is taken for a verification: SUCCEEDED by [pi.kernel.transition],
    and the outcome is PASS and DELIVERED without any verification of the task. *)
Definition forged_o : office :=
  desk (with_kernel (transition "task1" SUCCEEDED "said so" (at_second 3) (do_kernel reported_d)).1 reported_d).
Example pass_without_verification :
  (told (consider altered "task1" "v1" "OK" (at_second 4) (at_second 4) forged_o), kn_verifications (of_kernel forged_o)) =
  (Some ("COMPLETED", "PASS", "DELIVERED"), []).
Proof. vm_compute. reflexivity. Qed.

(** The deliverables are compiled from the text of the revision alone: after a word on the
    speed nothing demands the video any more, the verification succeeds and closes the
    task, and the outcome still says ACTIVE with the video missing. *)
Definition filmed : kernel := (bind_message (user_message "msg1" "make a video" "task1" 1) kernel_empty).1.
Definition slowed : dossier := {| do_kernel := (bind_message slower filmed).1; do_artifacts := [] |}.
Definition slow_o : office := desk (register_artifact here report "art1" (at_second 5) slowed).1.
Example video_forgotten :
  (fmap ts_deliverables (get_task_spec "task1" filmed), fmap ts_deliverables (get_task_spec "task1" (do_kernel slowed)),
   told (consider here "task1" "v1" "OK" (at_second 6) (at_second 6) slow_o),
   stages "task1" (consider here "task1" "v1" "OK" (at_second 6) (at_second 6) slow_o).1) =
  (Some [{| dl_kind := "scene_video"; dl_media_type := "video/mp4"; dl_required := true |}], Some [],
   Some ("ACTIVE", "FAIL", "NEEDS_REPAIR"), Some SUCCEEDED).
Proof. vm_compute. reflexivity. Qed.
End Desk.
